(* ===== verification/_CoqProject ===== *)
-Q . S2P
Prelude.v
JsValue.v
JsRational.v
Fortree.v
Cms.v
Panels.v
Banner.v
SearchBar.v
Flexisel.v
FlexiselFlow.v
OwlLayout.v
OwlLazy.v
OwlMove.v
OwlDrag.v
OwlEvents.v
OwlSync.v
OwlMotion.v
CkEvent.v
FileTools.v
FileStatus.v
FileUpload.v
JsDate.v
JsDecimal.v
DpFormat.v
DpParse.v
DpCheck.v
UiPosition.v
PositionFlow.v
DpInst.v
DpCalendar.v
DpControl.v
DpGrid.v
DpFlow.v
UiMouse.v
UiSlider.v
SliderFlow.v
SliderGesture.v
UiResizable.v
ResizableFlow.v
UiDraggable.v
UiDroppable.v
DropFlow.v
UiSpinner.v
SpinnerFlow.v
SpinnerHold.v
UiAccordion.v
AccordionFlow.v
UiOptions.v
OptionsFlow.v
UiClass.v
ClassFlow.v
ClassRun.v
UiDialog.v
DialogFlow.v
UiMenu.v
UiComplete.v
CompleteFlow.v
BsUtil.v
BsEnds.v
BsCarousel.v
BsCarouselFlow.v
BsModal.v
BsModalFlow.v
BsModalRun.v
BsCollapse.v
BsCollapseFlow.v
BsOptions.v
BsDom.v
BsTab.v
BsTabFlow.v
BsSpy.v
BsSpyFlow.v
BsDropdown.v
BsDropdownFlow.v
BsTooltip.v
BsTooltipFlow.v
