(* ===== verification/Prelude.v ===== *)
(** * Browser-side JavaScript of the middle20projects collection

    The repository is a collection of student web projects.  This development models
    the JavaScript they run in the browser, as far as it has a behaviour of its own:
    scripts written for the projects, and libraries they ship and depend on.

    ** The parts

    - Values.  [JsValue]: primitive values, conversions, loose equality, strings.
      [JsDate]: dates as milliseconds of local time, with the calendar of the language
      standard.  [JsDecimal]: numbers with decimal places and their texts.
      [JsRational]: comparisons of rational pixels.
    - Blog (2019104279/src/static/js).  [Fortree] is fortree.js: a table of rows with
      parent ids and its traversal by callbacks; [Cms] is cms.js: the navigation bar
      printed by such a traversal, and the tabs of the back office; [Panels] is
      global.js: panels shown and hidden by clicks and animation ends; [Banner] is
      home.js: the announcement line and the dots of the banner.  cms.js uses
      fortree.js, so [Cms] instantiates [Fortree.callbacks].
    - Book catalogue.  [SearchBar] is
      2018104177/src/main/webapp/resources/js/main.js: the addresses of searches.
    - Hotel (2019104287/code/WebContent/js), the carousel owl.carousel.js:
      [OwlLayout] (geometry and pagination), [OwlLazy] (images and height),
      [OwlMove] (moving, timers, life cycle), [OwlDrag] (gestures), [OwlEvents] (the
      events of a page as one step function), [OwlSync] and [OwlMotion] (properties).
    - Hotel, the datepicker of jquery-ui.js: [DpFormat] (formatDate, parseDate and
      helpers), [DpParse] and [DpCheck] (their properties), [DpInst] (relative dates,
      bounds and the selected day), [DpCalendar] (the text of the calendar and the cells
      that can be clicked), [DpControl] (keys, links, cells: the type [action] and the
      function [act]),
      [DpGrid] and [DpFlow] (properties).
    - Hotel, the widget factory of jquery-ui.js: [UiOptions] is the copying of objects and
      the method option, with [OptionsFlow]; [UiClass] is [$.widget], the constructors it
      makes and the calls through [_super], with [ClassFlow] and [ClassRun].
    - Hotel, the mouse of jquery-ui.js: [UiMouse] is the widget ui.mouse over an interface
      of five methods (the class [mouse_plugin]: those a widget overrides, and what an
      overridden [_mouseUp] does first).  [UiSlider], [UiResizable] and [UiDraggable]
      implement the interface; [SliderFlow], [SliderGesture], [ResizableFlow] and [DropFlow]
      hold their properties, which rest on the phases proved in [UiMouse].
    - Hotel, dragging and dropping: [UiDraggable] asks the manager of droppables through the
      class [drop_host], [UiDroppable] implements it and composes both to a page
      ([page_act]); [DropFlow] holds the properties.
    - Hotel, more of jquery-ui.js: [UiPosition] and [PositionFlow] (placing one element at
      another), [UiDialog] and [DialogFlow] (the stack of dialogs of a page), [UiAccordion]
      and [AccordionFlow], [UiSpinner], [SpinnerFlow] and [SpinnerHold].  The spinner's
      arithmetic rounds by a parameter, the class [Rounding].
    - Hotel, jquery.flexisel.js: [Flexisel], a carousel that turns its list, and
      [FlexiselFlow].
    - Hotel, the autocomplete of jquery-ui.js: [UiMenu] is the widget ui.menu with one
      level of items, over an interface of two callbacks (the class [menu_host]);
      [UiComplete] implements the interface ([ac_host]) and adds keys, searches,
      requests and responses (the type [ac_action] and the function [act]);
      [CompleteFlow] holds the properties.
    - CKEditor (2019104233/.../static/ckeditor).  [CkEvent] is the event bus of
      ckeditor.js; [FileTools] is plugins/filetools/plugin.js, the loader of files,
      which fires its events over that bus; [FileStatus] and [FileUpload] hold its
      properties.
    - Bluelog (2019104233/.../static/js/bootstrap.js), the components of Bootstrap 4.0.0:
      [BsUtil] is util.js: types of options, and the waits for the ends of transitions
      ([ends]), which a component uses by saying what each wait completes (the class
      [ends_host]); [BsEnds] proves what any such component can rely on.
      [BsCarousel], [BsModal], [BsCollapse], [BsTab] and [BsTooltip] (with popover.js) are
      the files of those names, each with an instance of the class, a type of events of
      the page and a step function [act]; [BsDropdown] and [BsSpy] (scrollspy.js) wait for no
      transition.  [BsDom] is the document they share: a fixed tree of elements with classes
      and attributes.  [BsOptions] is about the options of all.
    - The files ending in [Flow] hold the properties of a component; runs, witnesses and the
      inputs on which the code does not do what it means to are at their ends, or in a file
      ending in [Run].

    State is a record per component and an operation is a function on it; a program
    driven by events is a step function over an inductive type of events, so "any
    sequence of events" is a fold over a list.  What the browser decides (sizes, times,
    server responses, whether an image is loaded) is an argument.  Names are those of
    the source; a trailing [_of] or a prefix marks a clash with a field or keyword.

    ** What the theorems show

    - Fortree and Cms: the traversal of a table is the traversal of the forest the table
      describes, each row once; a cyclic table recurses for ever; the printed navigation
      nests accordingly; tabs and frames stay paired under opening and closing.
    - Panels, Banner: page invariants under all clicks and animation ends, array bounds
      and preserved magnitudes of the animation.
    - SearchBar: the address of a search decodes to the form's values, if these hold none
      of three signs.
    - Owl: after any events the controls show the current item and at most one autoplay
      timer lives; [next] visits every stop; a transition ends; images get polled to
      completion; pages and stops agree.
    - Loader: every operation returns, statuses only rise, abort ends a loader, and the
      exact events and request of a successful and of a refused upload.
    - Datepicker: parsing inverts formatting; an ISO text is accepted exactly if it names
      a day of the calendar; parsing terminates; the week number is that of ISO 8601; the
      table of a month is right; the selected day stays within the bounds, because no cell
      of the drawn calendar that can be chosen is beyond them; a chosen day survives being
      stored as text and reopened.
    - Mouse and slider: one pair of delegates at a time; under any use the values are
      grid points within the bounds, drawn where they are, a range in order, and no
      exception is raised; a gesture is told as start, slides, stop, change; a set value
      is the nearest grid point.
    - Widget factory: an option is read back; [_super] is the method of the base; a class
      defined again takes its children with it and touches nothing but descendants.
    - Resizable, draggable, droppable: sizes stay within the bounds and the sides that are
      not dragged stay; the style that is written keeps a draggable in its container;
      droppables are told their events in order.
    - Position: fit keeps inside, flip mirrors.  Dialog: overlays and dialogs alternate in
      one stack, of which escape takes one.  Accordion: the marks follow one active panel,
      and the whole refines a small account of it.  Flexisel: the list is a ring that is
      turned, and the end of a turn is not seen.
    - Spinner: what is written is on the grid and within the bounds, exactly, whatever small
      error arithmetic makes; what is told is starts, spins and stops in turn.
    - Autocomplete: an overtaken answer changes nothing, the loading mark counts the
      requests, a closed menu stays closed until the next search; the walk with the down
      key and the choice of an item; the filter is the search for a substring.
    - Bootstrap: options have the types listed or the error names the first that has not;
      a carousel has one active item and one interval, and slides exactly while an end is
      awaited; a waiting call arrives; a hidden modal has given back all it changed on
      the page, and hiding and showing end; an accordion shows one element at most; one
      drop-down is open; one tab and its pane are active; a tip is there exactly while a
      trigger is; the active link is the one whose place was reached.

    Where the code keeps a promise only for some uses of a page, these are a predicate that
    the theorem names ([polite], [careful], [patient], [allowed], [steady], [uses]), and
    examples at the ends of the files show what happens otherwise.

    ** Fuel

    [Fortree.each] takes fuel for the call stack and returns [None] when it is used up;
    the theorems give enough fuel or show that none suffices.  [FileTools.fire] has the
    fuel 4: a listener may abort, abort fires two events, and [loader_statuses] shows it
    is never used up.  [DpFormat.doy_loop] has 40 steps, a day of the year being below
    1000, that is 36 months ([parseDate_terminates]).  [DpCalendar.clamp_fuel] is the
    number of months to go back ([clamp_draw_spec]).  [DpInst.offsets] has the length of
    its text.  [Class.exec] has fuel for calls, as methods may call each other for ever, and
    [super_is_base] says of every fuel what it yields; [define] gives [Class.widget] the
    number of constructors and one ([redefinition_reaches] shows it is enough).
    [Droppable.inside] has the number of droppables, the longest chain of parents.

    ** Not modelled, and simplifications

    Layout engines, animation and timing beyond the order of events; jQuery's selectors
    (a component keeps the elements it works on).  Dates have a fixed offset from UTC, no
    daylight saving, and the limit of 10^8 days only where a time stamp is parsed; names
    of days and months are ASCII; ticks divided by 10000 are exact.  The quotients of a
    drag are rationals, and so are the numbers of the slider, with [None] for [NaN].
    The menu of the autocomplete has no submenus, its texts are ASCII, and a mouse focus
    that was put off for an item since removed is dropped.  The spinner's numbers are
    decimals; the rounding of the sum it repairs is a parameter, infinities and Globalize
    are left out.  Options of the widget factory keep arrays and functions by
    reference; bodies of methods are programs of calls.  The accordion has no heights and
    durations, the dialog no sizes and titles, the resizable no helper and container, the
    draggable no scrolling and snapping; where the page puts an element is an argument.
    In Bootstrap, listeners of the page only allow or prevent; the tree of the document
    stays the same; there is one modal on its page, its lengths are whole pixels, and no
    second instance is made after [dispose]; Popper is only made, placed and destroyed.
    Not modelled at all: the progress bar, tabs, buttons, tooltip, sortable, selectable and
    effects of jQuery UI, the bridge of its factory, H-ui, alert and button and the older
    copies of Bootstrap, jQuery, UEditor with its bundled libraries, layui except the
    tabs, the rest of CKEditor, and the servers in C++, Java and Python.

    ** Plan

    What could follow: the tabs and the progress bar of jQuery UI, its menu with submenus,
    sortable over the same mouse and manager, CKEditor's filebrowser and the plug-in
    easyResponsiveTabs. *)

From stdpp Require Export base tactics option list numbers strings pretty gmap sets.
From stdpp Require Export relations.
From Stdlib Require Export ZArith Lia.

Global Set Default Goal Selector "!".

Declare Scope js_scope.
Delimit Scope js_scope with js.
Create HintDb js.
Create Rewrite HintDb js.

(** ** Boolean reflection *)

Lemma if_true {A} (b : bool) (x y : A) : b = true -> (if b then x else y) = x.
Proof. by intros ->. Qed.

Lemma if_false {A} (b : bool) (x y : A) : b = false -> (if b then x else y) = y.
Proof. by intros ->. Qed.

(** A predicate on a branch holds if it holds on both sides; applying these keeps
    the [let]s of the sides, which [destruct] would expand. *)
Lemma if_pred {A} (P : A -> Prop) (b : bool) (x y : A) : P x -> P y -> P (if b then x else y).
Proof. by destruct b. Qed.

Lemma decide_pred {A} (P : A -> Prop) {X Y : Prop} (d : {X} + {Y}) (x y : A) :
  P x -> P y -> P (if d then x else y).
Proof. by destruct d. Qed.

Lemma option_pred {A B} (P : A -> Prop) (o : option B) (f : B -> A) (y : A) :
  (forall b, P (f b)) -> P y -> P (match o with Some b => f b | None => y end).
Proof. by destruct o. Qed.

(** [zcases] turns every boolean comparison on [Z] of the goal or of a
    hypothesis into the proposition it decides. *)
Ltac zcases :=
  repeat match goal with
  | |- context [Z.leb ?a ?b] => destruct (Z.leb_spec a b)
  | |- context [Z.ltb ?a ?b] => destruct (Z.ltb_spec a b)
  | |- context [Z.eqb ?a ?b] => destruct (Z.eqb_spec a b)
  | H : context [Z.leb ?a ?b] |- _ => destruct (Z.leb_spec a b)
  | H : context [Z.ltb ?a ?b] |- _ => destruct (Z.ltb_spec a b)
  | H : context [Z.eqb ?a ?b] |- _ => destruct (Z.eqb_spec a b)
  end.

(** Split every [match] and [if] of the goal, closing the absurd branches. *)
Ltac cases := repeat (case_match; simplify_eq/=; try done).

(** ** Lists *)

Section lists.
Context {A B : Type}.
Implicit Types l : list A.

Lemma NoDup_fmap_inj (g : A -> B) l x y :
  NoDup (g <$> l) -> x ∈ l -> y ∈ l -> g x = g y -> x = y.
Proof.
  induction l as [|a l IH]; [by intros _ []%not_elem_of_nil|].
  rewrite fmap_cons, NoDup_cons, !elem_of_cons. intros [Ha Hl] Hx Hy Heq.
  destruct Hx as [->|Hx], Hy as [->|Hy]; [done|..|by apply IH].
  - destruct Ha. rewrite Heq. by apply list_elem_of_fmap_2.
  - destruct Ha. rewrite <- Heq. by apply list_elem_of_fmap_2.
Qed.

Lemma filter_ext_in (P Q : A -> Prop) `{!forall x, Decision (P x), !forall x, Decision (Q x)} l :
  (forall x, x ∈ l -> P x <-> Q x) -> filter P l = filter Q l.
Proof.
  induction l as [|a l IH]; intros Hext; [done|]. rewrite !filter_cons.
  pose proof (Hext a (list_elem_of_here a l)) as Ha.
  rewrite IH; [|intros x Hx; by apply Hext, list_elem_of_further].
  do 2 case_decide; naive_solver.
Qed.

Lemma filter_all (P : A -> Prop) `{!forall x, Decision (P x)} l :
  (forall x, x ∈ l -> P x) -> filter P l = l.
Proof.
  induction l as [|a l IH]; intros Hext; [done|].
  rewrite filter_cons, decide_True by (apply Hext, list_elem_of_here).
  f_equal. apply IH. intros x Hx. by apply Hext, list_elem_of_further.
Qed.
End lists.

(** ** Arrays indexed by integers *)

(** [l[z]]: out of range on either side reads [undefined] ([None]). *)
Definition zlookup {A} (l : list A) (z : Z) : option A :=
  if (z <? 0)%Z then None else l !! Z.to_nat z.

Lemma zlookup_nat {A} (l : list A) (n : nat) : zlookup l (Z.of_nat n) = l !! n.
Proof. unfold zlookup. zcases; [lia|]. by rewrite Nat2Z.id. Qed.

(** The integers [a, a+1, ..., a+n-1]. *)
Definition zrange (a : Z) (n : nat) : list Z := (fun k => (a + Z.of_nat k)%Z) <$> seq 0 n.
#[global] Arguments zrange : simpl never.

Lemma elem_of_zrange a n z :
  z ∈ zrange a n <-> (a <= z < a + Z.of_nat n)%Z.
Proof.
  unfold zrange. rewrite list_elem_of_fmap. setoid_rewrite elem_of_seq. split.
  - intros (k & -> & ?). lia.
  - intros ?. exists (Z.to_nat (z - a)). lia.
Qed.

Lemma length_zrange a n : length (zrange a n) = n.
Proof. unfold zrange. by rewrite length_fmap, length_seq. Qed.

Lemma zrange_lookup a n k z :
  zrange a n !! k = Some z <-> (k < n)%nat /\ z = (a + Z.of_nat k)%Z.
Proof.
  unfold zrange. rewrite list_lookup_fmap. split.
  - destruct (seq 0 n !! k) eqn:E; [|done]. apply lookup_seq in E as [-> ?].
    intros [= <-]. lia.
  - intros [Hk ->]. by rewrite (proj2 (lookup_seq 0 n k k)).
Qed.

Lemma zrange_S a n : zrange a (S n) = zrange a n ++ [(a + Z.of_nat n)%Z].
Proof. unfold zrange. by rewrite seq_S, fmap_app. Qed.

(** Induction over a counting loop [for(i = 0; i < n; i++)]. *)
Lemma fold_zrange_ind {S : Type} (f : S -> Z -> S) (P : nat -> S -> Prop) s n :
  P 0%nat s ->
  (forall k s, (k < n)%nat -> P k s -> P (Datatypes.S k) (f s (Z.of_nat k))) ->
  P n (fold_left f (zrange 0 n) s).
Proof.
  intros H0 Hstep. induction n as [|n IH]; [done|].
  rewrite zrange_S, fold_left_app. simpl. apply Hstep; [lia|].
  apply IH. intros k s' Hk. apply Hstep. lia.
Qed.

Lemma zlookup_Some {A} (l : list A) z x :
  zlookup l z = Some x <-> (0 <= z)%Z /\ l !! Z.to_nat z = Some x.
Proof. unfold zlookup. zcases; naive_solver lia. Qed.

Lemma zlookup_is_Some {A} (l : list A) z :
  (0 <= z < Z.of_nat (length l))%Z -> is_Some (zlookup l z).
Proof. intros ?. unfold zlookup. zcases; [lia|]. apply lookup_lt_is_Some_2. lia. Qed.

Lemma zlookup_lt_Some {A} (l : list A) z x :
  zlookup l z = Some x -> (0 <= z < Z.of_nat (length l))%Z.
Proof. intros [? ?%lookup_lt_Some]%zlookup_Some. lia. Qed.

Lemma zlookup_zrange_map {B} (f : Z -> B) n z :
  (0 <= z < Z.of_nat n)%Z -> zlookup (f <$> zrange 0 n) z = Some (f z).
Proof.
  intros ?. apply zlookup_Some. split; [lia|]. rewrite list_lookup_fmap.
  rewrite (proj2 (zrange_lookup 0 n (Z.to_nat z) z)); [done|lia].
Qed.

Lemma NoDup_zrange a n : NoDup (zrange a n).
Proof. unfold zrange. apply NoDup_fmap_2; [intros x y; lia|apply NoDup_seq]. Qed.

(** ** Record update

    [s <| f := v |>] is [s] with field [f] replaced.  A record type declares the
    eta expansion of its values ([Settable]); the setter of a field is found by
    abstracting the projection in it. *)

Class Settable (R : Type) := eta_record : R -> R.

Class Setter {R T : Type} (proj : R -> T) := set_field : T -> R -> R.
#[global] Arguments set_field {R T} proj {_} v s.

Ltac find_setter :=
  match goal with
  | |- @Setter ?R ?T ?proj =>
      let inst := constr:(_ : Settable R) in
      let eta := eval red in inst in
      let pat := eval pattern proj in eta in
      match pat with ?setter _ => exact (fun (v : T) => setter (fun _ : R => v)) end
  end.

#[export] Hint Extern 1 (Setter _) => find_setter : typeclass_instances.

Notation "s <| f := v |>" := (set_field f v s)
  (at level 12, f at next level, left associativity, format "s  <| f  :=  v |>").
