(* ===== verification/JsValue.v ===== *)
(** * JavaScript primitive values

    The fragment of ECMAScript values the components exchange: primitives with
    [ToBoolean], [ToString], [ToNumber] and the loose equality [==], and plain
    objects as finite maps from property names.  Numbers are integers here (the
    components that use this file only move identifiers and counters); the
    string-to-number conversion covers decimal integer literals with optional
    sign and surrounding blanks, and sends everything else to [NaN] ([None]). *)

From S2P Require Export Prelude.
From Stdlib Require Export Ascii.
Open Scope Z_scope.

(** ** Values *)

Inductive jsval :=
  | JUndef
  | JNull
  | JBool (b : bool)
  | JNum (n : Z)
  | JStr (s : string).

#[export] Instance jsval_eq_dec : EqDecision jsval.
Proof. solve_decision. Defined.

(** [ToBoolean]. *)
Definition truthy (v : jsval) : bool :=
  match v with
  | JUndef | JNull => false
  | JBool b => b
  | JNum n => negb (n =? 0)
  | JStr s => negb (String.eqb s "")
  end.

(** [a || b]. *)
Definition js_or (a b : jsval) : jsval := if truthy a then a else b.

(** [ToString]. *)
Definition to_string (v : jsval) : string :=
  match v with
  | JUndef => "undefined"
  | JNull => "null"
  | JBool true => "true"
  | JBool false => "false"
  | JNum n => pretty n
  | JStr s => s
  end.

(** ** Strings to numbers *)

Definition is_digit (c : ascii) : bool :=
  (48 <=? N_of_ascii c)%N && (N_of_ascii c <=? 57)%N.

Definition digit_val (c : ascii) : Z := Z.of_N (N_of_ascii c) - 48.

Definition is_blank (c : ascii) : bool :=
  let n := N_of_ascii c in ((n =? 32) || ((9 <=? n) && (n <=? 13)))%N.

Fixpoint digits (acc : Z) (s : string) : option Z :=
  match s with
  | EmptyString => Some acc
  | String c s' => if is_digit c then digits (10 * acc + digit_val c) s' else None
  end.

Fixpoint skip_blanks (s : string) : string :=
  match s with
  | String c s' => if is_blank c then skip_blanks s' else s
  | EmptyString => EmptyString
  end.

(** Drop the blanks at both ends ([String.prototype.trim] on ASCII). *)
Definition trim (s : string) : string :=
  String.rev (skip_blanks (String.rev (skip_blanks s))).

Definition unsigned_number (s : string) : option Z :=
  match s with EmptyString => None | _ => digits 0 s end.

Definition string_to_number (s : string) : option Z :=
  match trim s with
  | EmptyString => Some 0
  | String c s' =>
      if Ascii.eqb c "-" then Z.opp <$> unsigned_number s'
      else if Ascii.eqb c "+" then unsigned_number s'
      else unsigned_number (String c s')
  end.

(** [ToNumber]; [None] is [NaN]. *)
Definition to_number (v : jsval) : option Z :=
  match v with
  | JUndef => None
  | JNull => Some 0
  | JBool b => Some (if b then 1 else 0)
  | JNum n => Some n
  | JStr s => string_to_number s
  end.

(** Equality of numbers: [NaN] equals nothing. *)
Definition num_eqb (a b : option Z) : bool :=
  match a, b with Some x, Some y => x =? y | _, _ => false end.

(** [a == b] on primitives. *)
Definition loose_eq (a b : jsval) : bool :=
  match a, b with
  | JUndef, JUndef | JUndef, JNull | JNull, JUndef | JNull, JNull => true
  | JUndef, _ | JNull, _ | _, JUndef | _, JNull => false
  | JStr s, JStr t => String.eqb s t
  | _, _ => num_eqb (to_number a) (to_number b)
  end.

(** ** Objects *)

(** [o[k]]: a missing property reads as [undefined]. *)
Definition prop (o : gmap string jsval) (k : string) : jsval :=
  default JUndef (o !! k).
#[global] Arguments prop : simpl never.
#[global] Arguments loose_eq : simpl nomatch.

Lemma num_eqb_sym a b : num_eqb a b = num_eqb b a.
Proof. destruct a, b; simpl; [apply Z.eqb_sym|done..]. Qed.

Lemma loose_eq_sym a b : loose_eq a b = loose_eq b a.
Proof.
  destruct a, b; try reflexivity; try apply num_eqb_sym; apply String.eqb_sym.
Qed.

Lemma loose_eq_num n m : loose_eq (JNum n) (JNum m) = (n =? m).
Proof. done. Qed.

Lemma loose_eq_num_inj v n m :
  loose_eq v (JNum n) = true -> loose_eq v (JNum m) = true -> n = m.
Proof.
  destruct v; simpl; try done; try (intros; lia).
  destruct (string_to_number s); simpl; [lia|done].
Qed.

Lemma prop_insert_eq (o : gmap string jsval) k v : prop (<[k:=v]> o) k = v.
Proof. unfold prop. by rewrite lookup_insert_eq. Qed.

Lemma prop_insert_ne (o : gmap string jsval) k k' v :
  k <> k' -> prop (<[k:=v]> o) k' = prop o k'.
Proof. intros. unfold prop. by rewrite lookup_insert_ne. Qed.

#[export] Hint Rewrite prop_insert_eq : js.

(** ** Markup built by string concatenation *)

(** The double quote. *)
Definition dq : string := String (ascii_of_nat 34) EmptyString.

(** [' name="value"'], as the sources write attributes. *)
Definition attr (name value : string) : string :=
  " " +:+ name +:+ "=" +:+ dq +:+ value +:+ dq.

Lemma app_string_cons x (a b : string) : String x a +:+ b = String x (a +:+ b).
Proof. done. Qed.

Lemma app_string_assoc (a b c : string) : (a +:+ b) +:+ c = a +:+ b +:+ c.
Proof. induction a as [|x a IH]; [done|]. by rewrite !app_string_cons, IH. Qed.

Lemma app_string_nil_r (a : string) : a +:+ "" = a.
Proof. induction a as [|x a IH]; [done|]. by rewrite app_string_cons, IH. Qed.

Lemma app_string_nil_l (a : string) : "" +:+ a = a.
Proof. done. Qed.

#[export] Hint Rewrite app_string_assoc app_string_nil_r app_string_nil_l : js.

(** ** Class lists

    jQuery's [addClass] appends a missing token, [removeClass] drops every
    occurrence. *)

Definition addClass (c : string) (l : list string) : list string :=
  if decide (c ∈ l) then l else l ++ [c].
Definition removeClass (c : string) (l : list string) : list string :=
  filter (fun x => x <> c) l.
Definition hasClass (c : string) (l : list string) : bool := bool_decide (c ∈ l).
Definition toggleClass (c : string) (l : list string) : list string :=
  if decide (c ∈ l) then removeClass c l else addClass c l.

Lemma elem_of_addClass x c l : x ∈ addClass c l <-> x = c \/ x ∈ l.
Proof.
  unfold addClass. case_decide; [naive_solver|]. rewrite elem_of_app, list_elem_of_singleton.
  naive_solver.
Qed.

Lemma elem_of_removeClass x c l : x ∈ removeClass c l <-> x <> c /\ x ∈ l.
Proof. unfold removeClass. by rewrite list_elem_of_filter. Qed.

Lemma elem_of_toggleClass x c l :
  x ∈ toggleClass c l <-> (x = c /\ c ∉ l) \/ (x <> c /\ x ∈ l).
Proof.
  unfold toggleClass. case_decide; rewrite ?elem_of_removeClass, ?elem_of_addClass; [naive_solver|].
  destruct (decide (x = c)); naive_solver.
Qed.

#[export] Hint Rewrite elem_of_addClass elem_of_removeClass elem_of_toggleClass : js.

(** ** Splitting and joining strings *)

(** Text before the first [c], and after it. *)
Fixpoint break (c : ascii) (s : string) : string * string :=
  match s with
  | EmptyString => (EmptyString, EmptyString)
  | String d s' =>
      if Ascii.eqb c d then (EmptyString, s')
      else let '(a, b) := break c s' in (String d a, b)
  end.

Fixpoint split_on (c : ascii) (s : string) : list string :=
  match s with
  | EmptyString => [EmptyString]
  | String d s' =>
      if Ascii.eqb c d then EmptyString :: split_on c s'
      else match split_on c s' with
           | w :: ws => String d w :: ws
           | [] => [String d EmptyString]
           end
  end.

(** [parts.join(sep)]. *)
Fixpoint join (sep : string) (parts : list string) : string :=
  match parts with
  | [] => ""
  | [p] => p
  | p :: parts' => p +:+ sep +:+ join sep parts'
  end.

(** ** Substrings *)

Lemma substring_full s : String.substring 0 (String.length s) s = s.
Proof. induction s; cbn; [done|by rewrite IHs]. Qed.

Lemma substring_cut n s :
  String.append (String.substring 0 n s) (String.substring n (String.length s - n) s) = s /\
  String.length (String.substring 0 n s) = Nat.min n (String.length s) /\
  String.length (String.substring n (String.length s - n) s) = (String.length s - n)%nat.
Proof.
  revert n. induction s as [|c s IH]; intros [|n]; cbn; [done..| |].
  - by rewrite substring_full.
  - destruct (IH n) as (H1 & H2 & H3). rewrite H2, H3. split; [exact (f_equal (String c) H1)|done].
Qed.

Lemma substring_after m b :
  String.substring (String.length m) (String.length (m +:+ b) - String.length m) (m +:+ b) = b.
Proof.
  induction m as [|c m IH]; [|exact IH].
  change ("" +:+ b) with b. cbn [String.length]. by rewrite Nat.sub_0_r, substring_full.
Qed.

Lemma prefix_append m b : String.prefix m (m +:+ b) = true.
Proof.
  induction m as [|c m IH]; [by destruct b|].
  change (String c m +:+ b) with (String c (m +:+ b)). cbn. by destruct (ascii_dec c c).
Qed.

(** ** Characters *)

(** Membership in a set of characters written as a string. *)
Fixpoint is_in (cs : string) (c : ascii) : bool :=
  match cs with
  | EmptyString => false
  | String c' cs => Ascii.eqb c c' || is_in cs c
  end.

(** [toLowerCase] on ASCII. *)
Definition lower_char (c : ascii) : ascii :=
  let n := N_of_ascii c in
  if ((65 <=? n) && (n <=? 90))%N then ascii_of_N (n + 32) else c.
Fixpoint toLowerCase (s : string) : string :=
  match s with String c s' => String (lower_char c) (toLowerCase s') | EmptyString => EmptyString end.

Definition upper_char (c : ascii) : ascii :=
  let n := N_of_ascii c in
  if ((97 <=? n) && (n <=? 122))%N then ascii_of_N (n - 32) else c.
Fixpoint toUpperCase (s : string) : string :=
  match s with String c s' => String (upper_char c) (toUpperCase s') | EmptyString => EmptyString end.

(** [s.indexOf(p) >= 0]. *)
Fixpoint occurs (p s : string) : bool :=
  String.prefix p s || match s with String _ s => occurs p s | EmptyString => false end.
