(* ===== verification/JsRational.v ===== *)
(** * Comparisons of rational numbers

    Numbers that a widget divides are rationals; these are the comparisons of the
    language on them, with a tactic that decides them. *)

From S2P Require Export JsValue.
From Stdlib Require Export QArith.QArith_base Qabs.
From Stdlib Require Export Lqa.
#[local] Open Scope Z_scope.

(** [a < b] on numbers that are not [NaN]. *)
Definition qless (a b : Q) : bool := negb (Qle_bool b a).

(** [Math.max] and [Math.min]. *)
Definition Qmax2 (a b : Q) : Q := if Qle_bool a b then b else a.
Definition Qmin2 (a b : Q) : Q := if Qle_bool a b then a else b.

Lemma qless_spec a b : qless a b = true <-> (a < b)%Q.
Proof.
  unfold qless. rewrite negb_true_iff, <- not_true_iff_false, Qle_bool_iff. split; lra.
Qed.

Lemma qless_reflect a b : reflect (a < b)%Q (qless a b).
Proof. destruct (qless a b) eqn:E; constructor; [by apply qless_spec|]. intros H%qless_spec. congruence. Qed.

Lemma Qleb_reflect a b : reflect (a <= b)%Q (Qle_bool a b).
Proof. destruct (Qle_bool a b) eqn:E; constructor; [by apply Qle_bool_iff|]. intros H%Qle_bool_iff. congruence. Qed.

Lemma Qeqb_reflect a b : reflect (a == b)%Q (Qeq_bool a b).
Proof. destruct (Qeq_bool a b) eqn:E; constructor; [by apply Qeq_bool_iff|]. intros H%Qeq_bool_iff. congruence. Qed.

Lemma Qabs_cases a : (0 <= a)%Q /\ (Qabs a == a)%Q \/ (a <= 0)%Q /\ (Qabs a == - a)%Q.
Proof. destruct (Qlt_le_dec a 0); [right|left]; (split; [lra|]); [apply Qabs_neg|apply Qabs_pos]; lra. Qed.

#[global] Instance qless_proper : Proper (Qeq ==> Qeq ==> eq) qless.
Proof. intros a a' Ea b b' Eb. destruct (qless_reflect a b), (qless_reflect a' b'); try done; lra. Qed.

(** Decide every comparison of the goal, the inner ones first. *)
Ltac plain t := lazymatch t with context [if _ then _ else _] => fail | context [Qabs _] => fail | _ => idtac end.
Ltac qcases :=
  unfold Qmax2, Qmin2;
  repeat match goal with
  | |- context [Qabs ?a] =>
      plain a; let q := fresh "q" in destruct (Qabs_cases a) as [[? ?]|[? ?]]; set (q := Qabs a) in *; clearbody q
  | |- context [qless ?a ?b] => plain a; plain b; destruct (qless_reflect a b); cbn [andb orb negb]
  | |- context [Qle_bool ?a ?b] => plain a; plain b; destruct (Qleb_reflect a b); cbn [andb orb negb]
  | |- context [Qeq_bool ?a ?b] => plain a; plain b; destruct (Qeqb_reflect a b); cbn [andb orb negb]
  end.
