(* ===== verification/Fortree.v ===== *)
(** * [fortree.js]: recursive traversal of a flat parent-pointer table

    Models [2019104279/src/static/js/fortree.js].  The constructor splits the
    rows into top-level nodes and the others ([fortree_new]), [getChildren]
    selects the rows whose parent id is loosely equal to an id, and [each]
    walks the forest, firing five callbacks per node.  The callbacks are the
    fields of [callbacks], acting on a client state [S]; the recursion of
    [each] takes fuel, [None] standing for the stack overflow the browser
    raises on a cyclic table. *)

From S2P Require Import JsValue.

(** A row of the table. *)
Abbreviation node := (gmap string jsval).

(** The object the constructor builds: [_father], [_children] and the two
    property names ([_topid] is used by the constructor only). *)
Record fortree := mk_fortree {
  father : list node;
  children : list node;
  idname : string;
  pidname : string;
}.

(** The five overridable callbacks, as transformers of the client's state. *)
Record callbacks (S : Type) := mk_callbacks {
  forBefore : node -> string -> nat -> S -> S;
  forcurr : node -> string -> nat -> S -> S;
  callBefore : node -> string -> S -> S;
  callAfter : node -> string -> S -> S;
  forAfter : node -> string -> nat -> S -> S;
}.
Arguments mk_callbacks {S}.
Arguments forBefore {S}.
Arguments forcurr {S}.
Arguments callBefore {S}.
Arguments callAfter {S}.
Arguments forAfter {S}.

(** The constructor's callbacks, which do nothing. *)
Definition default_callbacks (S : Type) : callbacks S :=
  mk_callbacks (fun _ _ _ s => s) (fun _ _ _ s => s) (fun _ _ s => s)
    (fun _ _ s => s) (fun _ _ _ s => s).

(** [idname || 'id'] and so on; an omitted argument is [JUndef], and property
    names are used through [ToString]. *)
Definition fortree_new (arr : list node) (id pid top : jsval) : fortree :=
  let _idname := to_string (js_or id (JStr "id")) in
  let _pidname := to_string (js_or pid (JStr "pid")) in
  let _topid := js_or top (JNum 0) in
  let '(f, c) :=
    fold_left (fun '(f, c) v =>
        if loose_eq (prop v _pidname) _topid then (f ++ [v], c) else (f, c ++ [v]))
      arr ([], []) in
  mk_fortree f c _idname _pidname.

Definition getChildren (t : fortree) (id : jsval) : list node :=
  fold_left (fun son v =>
      if loose_eq (prop v (pidname t)) id then son ++ [v] else son)
    (children t) [].

#[global] Arguments getChildren : simpl never.

(** The key of the [i]-th element, as [for (var i in arr)] binds it. *)
Definition key (i : nat) : string := pretty (Z.of_nat i).

Section each.
Context {S : Type} (t : fortree) (cb : callbacks S).

(** The body of the [for]: [rec] is the recursive call [_that.each]. *)
Definition visit (rec : list node -> S -> option S) (i : nat) (v : node) (s : S)
    : option S :=
  let sub := getChildren t (prop v (idname t)) in
  let counter := length sub in
  let s := forBefore cb v (key i) counter s in
  let s := forcurr cb v (key i) counter s in
  s ← (if (counter =? 0)%nat then Some s
       else callAfter cb v (key i) <$> rec sub (callBefore cb v (key i) s));
  Some (forAfter cb v (key i) counter s).

Fixpoint walk (rec : list node -> S -> option S) (i : nat) (arr : list node) (s : S)
    : option S :=
  match arr with
  | [] => Some s
  | v :: arr' => visit rec i v s ≫= walk rec (1 + i) arr'
  end.

Fixpoint each (fuel : nat) (arr : list node) (s : S) : option S :=
  match fuel with
  | O => None
  | Datatypes.S fuel' => walk (each fuel') 0 arr s
  end.

(** [each()] without argument starts from [_father]. *)
Definition each_top (fuel : nat) (s : S) : option S := each fuel (father t) s.
End each.

(** ** The two constructor loops are filters *)

Lemma fold_push_filter (P : node -> bool) l acc :
  fold_left (fun son v => if P v then son ++ [v] else son) l acc
  = acc ++ List.filter P l.
Proof.
  revert acc; induction l as [|v l IH]; intros acc; simpl; [by rewrite app_nil_r|].
  rewrite IH. destruct (P v); [by rewrite <- app_assoc|done].
Qed.

Lemma getChildren_filter t id :
  getChildren t id
  = List.filter (fun v => loose_eq (prop v (pidname t)) id) (children t).
Proof. unfold getChildren. by rewrite fold_push_filter. Qed.

Lemma fold_split (P : node -> bool) l f c :
  fold_left (fun '(f, c) v => if P v then (f ++ [v], c) else (f, c ++ [v])) l (f, c)
  = (f ++ List.filter P l, c ++ List.filter (fun v => negb (P v)) l).
Proof.
  revert f c; induction l as [|v l IH]; intros f c; simpl.
  { by rewrite !app_nil_r. }
  destruct (P v); rewrite IH; simpl; by rewrite <- app_assoc.
Qed.

Lemma fortree_new_eq arr id pid top :
  fortree_new arr id pid top =
  let pn := to_string (js_or pid (JStr "pid")) in
  let is_top v := loose_eq (prop v pn) (js_or top (JNum 0)) in
  mk_fortree (List.filter is_top arr) (List.filter (fun v => negb (is_top v)) arr)
    (to_string (js_or id (JStr "id"))) pn.
Proof. unfold fortree_new. by rewrite fold_split. Qed.

(** ** Trees: what [each] traverses *)

#[local] Set Warnings "-register-all".

Inductive tree := Node (v : node) (sub : list tree).

Definition root (tr : tree) : node := let 'Node v _ := tr in v.

Fixpoint height (tr : tree) : nat :=
  let 'Node _ sub := tr in
  Datatypes.S (fold_right (fun x n => Nat.max (height x) n) 0%nat sub).

Definition heights (l : list tree) : nat :=
  fold_right (fun x n => Nat.max (height x) n) 0%nat l.

Fixpoint preorder (tr : tree) : list node :=
  let 'Node v sub := tr in v :: flat_map preorder sub.

(** The subtrees of a node are, in table order, the rows naming it as parent. *)
Inductive tree_ok (t : fortree) : tree -> Prop :=
  | tree_ok_node v sub :
      root <$> sub = getChildren t (prop v (idname t)) ->
      Forall (tree_ok t) sub ->
      tree_ok t (Node v sub).

(** Index-passing iteration over a list. *)
Section iter_ix.
Context {A S : Type} (f : nat -> A -> S -> S).
Fixpoint iter_ix (i : nat) (l : list A) (s : S) : S :=
  match l with [] => s | a :: l' => iter_ix (1 + i) l' (f i a s) end.
End iter_ix.

Section run.
Context {S : Type} (cb : callbacks S).

(** The callbacks of a whole subtree, in the order of the source. *)
Fixpoint run_tree (i : nat) (tr : tree) (s : S) : S :=
  let 'Node v sub := tr in
  let n := length sub in
  let s := forcurr cb v (key i) n (forBefore cb v (key i) n s) in
  let s := match sub with
           | [] => s
           | _ => callAfter cb v (key i) (iter_ix run_tree 0 sub (callBefore cb v (key i) s))
           end in
  forAfter cb v (key i) n s.
End run.

(** With enough fuel [each] performs exactly the callbacks of the forest. *)
Lemma each_forest {S} t (cb : callbacks S) fuel l s :
  Forall (tree_ok t) l -> (heights l < fuel)%nat ->
  each t cb fuel (root <$> l) s = Some (iter_ix (run_tree cb) 0 l s).
Proof.
  revert l s; induction fuel as [|fuel IH]; intros l s Hok Hh; [lia|].
  simpl. generalize 0%nat at 1 2 as i. revert s Hok Hh.
  induction l as [|[v sub] l IHl]; intros s Hok Hh i; [done|].
  apply Forall_cons in Hok as [Hv Hok]. inversion Hv as [? ? Hroots Hsub]; subst.
  simpl in Hh. fold (heights sub) in Hh.
  simpl. unfold visit. rewrite <- Hroots, length_fmap.
  destruct sub as [|a sub]; simpl.
  { apply IHl; [done|simpl in Hh; lia]. }
  pose proof (IH (a :: sub)) as IHsub. simpl in IHsub.
  rewrite IHsub; [|done|simpl in Hh |- *; lia]. simpl.
  apply IHl; [done|simpl in Hh; lia].
Qed.

(** ** Ancestor chains *)

(** A node first, then its ancestors up to a top-level row. *)
Inductive chain (t : fortree) : list node -> Prop :=
  | chain_top r : r ∈ father t -> chain t [r]
  | chain_step c v p :
      chain t (v :: p) -> c ∈ getChildren t (prop v (idname t)) ->
      chain t (c :: v :: p).

(** The parent of a child row is unique, and the two tables are disjoint. *)
Record well_formed (t : fortree) : Prop := {
  wf_parent u v w :
    u ∈ father t ++ children t -> v ∈ father t ++ children t -> w ∈ children t ->
    loose_eq (prop w (pidname t)) (prop u (idname t)) = true ->
    loose_eq (prop w (pidname t)) (prop v (idname t)) = true -> u = v;
  wf_disjoint v : v ∈ father t -> v ∈ children t -> False;
}.

Lemma elem_of_getChildren t id w :
  w ∈ getChildren t id <-> w ∈ children t /\ loose_eq (prop w (pidname t)) id = true.
Proof. rewrite getChildren_filter, !list_elem_of_In. apply List.filter_In. Qed.

Section chains.
Context (t : fortree) (wf : well_formed t).

Lemma chain_elem v p : chain t (v :: p) -> v ∈ father t ++ children t.
Proof.
  inversion 1 as [? Hr|??? Hv Hc]; subst; apply elem_of_app; [by left|].
  apply elem_of_getChildren in Hc as [? _]. by right.
Qed.

Lemma chain_shape p :
  chain t p -> exists c r, p = c ++ [r] /\ c ⊆ children t /\ r ∈ father t.
Proof.
  induction 1 as [r Hr|c v p _ (l & r & Heq & Hl & Hr) Hc].
  { exists [], r. split_and!; [done|intros x []%not_elem_of_nil|done]. }
  apply elem_of_getChildren in Hc as [Hc _].
  exists (c :: l), r. rewrite Heq.
  split_and!; [done|intros x [->|?]%elem_of_cons; auto|done].
Qed.

Lemma chain_parent c u p v q :
  chain t (c :: u :: p) -> chain t (v :: q) ->
  c ∈ getChildren t (prop v (idname t)) -> u = v.
Proof.
  intros Hc Hv [Hin Hid]%elem_of_getChildren.
  inversion Hc as [|? ? ? Hu [_ Hid']%elem_of_getChildren]; subst.
  eapply (wf_parent t wf u v c); eauto using chain_elem.
Qed.

Lemma chain_unique w p q : chain t (w :: p) -> chain t (w :: q) -> p = q.
Proof.
  revert w q; induction p as [|u p IH]; intros w q Hp Hq; destruct q as [|u' q];
    [done|..].
  - inversion Hp as [? Hf|]; inversion Hq as [|??? _ Hc]; subst.
    apply elem_of_getChildren in Hc as [Hc _]. by destruct (wf_disjoint t wf w).
  - inversion Hq as [? Hf|]; inversion Hp as [|??? _ Hc]; subst.
    apply elem_of_getChildren in Hc as [Hc _]. by destruct (wf_disjoint t wf w).
  - inversion Hp as [|??? Hu Hc]; inversion Hq as [|??? Hu' Hc']; subst.
    assert (u = u') as <- by eauto using chain_parent.
    f_equal. eauto.
Qed.

Lemma chain_suffix p q : q <> [] -> chain t (p ++ q) -> chain t q.
Proof.
  induction p as [|a p IH]; intros Hq Hc; [done|]. apply IH; [done|].
  inversion Hc as [? ? Heq|]; subst; [|congruence].
  destruct p, q; naive_solver.
Qed.

Lemma chain_nodup p : chain t p -> NoDup p.
Proof.
  induction 1 as [r Hr|c v p Hv IH Hc]; [apply NoDup_singleton|].
  apply NoDup_cons; split; [|done]. intros (p1 & q & Heq)%list_elem_of_split.
  assert (chain t (c :: q)) as Hcq.
  { apply (chain_suffix p1); [done|]. by rewrite <- Heq. }
  assert (chain t (c :: v :: p)) as Hcv by by constructor.
  pose proof (chain_unique _ _ _ Hcq Hcv) as ->.
  apply (f_equal length) in Heq. rewrite length_app in Heq. simpl in Heq. lia.
Qed.

Lemma chain_length p : chain t p -> (length p <= 1 + length (children t))%nat.
Proof.
  intros Hp. pose proof (chain_nodup p Hp) as Hnd.
  destruct (chain_shape p Hp) as (c & r & -> & Hc & _).
  apply NoDup_app in Hnd as (Hnd & _ & _).
  rewrite length_app; simpl.
  pose proof (submseteq_length c (children t) (NoDup_submseteq c _ Hnd Hc)). lia.
Qed.

(** Below a chain of length [length p] there is a finite tree. *)
Lemma tree_below n v p :
  chain t (v :: p) -> (1 + length (children t) <= n + length p)%nat ->
  exists tr, tree_ok t tr /\ root tr = v /\ (height tr <= n)%nat.
Proof.
  revert v p; induction n as [|n IH]; intros v p Hc Hn.
  { pose proof (chain_length _ Hc) as Hl. simpl in Hl. lia. }
  assert (exists sub, Forall (tree_ok t) sub /\
    root <$> sub = getChildren t (prop v (idname t)) /\ (heights sub <= n)%nat)
    as (sub & Hok & Hroots & Hh).
  { assert (forall w, w ∈ getChildren t (prop v (idname t)) -> chain t (w :: v :: p))
      as Hall by (intros; by constructor).
    revert Hall. generalize (getChildren t (prop v (idname t))) as l.
    induction l as [|w l IHl]; intros Hall.
    { exists []. split_and!; [done|done|simpl; lia]. }
    destruct IHl as (sub & Hok & Hr & Hh); [set_solver|].
    destruct (IH w (v :: p)) as (tr & Htr & Hroot & Hht);
      [set_solver|simpl; lia|].
    exists (tr :: sub). split_and!; [by constructor|rewrite fmap_cons; congruence|simpl; lia]. }
  exists (Node v sub). split_and!; [by constructor|done|].
  simpl. fold (heights sub). lia.
Qed.

Lemma forest_exists :
  exists l, Forall (tree_ok t) l /\ root <$> l = father t /\
    (heights l <= 1 + length (children t))%nat.
Proof.
  assert (forall r, r ∈ father t -> chain t [r]) as Hall by (by constructor).
  revert Hall. generalize (father t) as f.
  induction f as [|r f IHf]; intros Hall.
  { exists []. split_and!; [done|done|simpl; lia]. }
  destruct IHf as (l & Hok & Hr & Hh); [set_solver|].
  destruct (tree_below (1 + length (children t)) r []) as (tr & Htr & Hroot & Hht);
    [set_solver|simpl; lia|].
  exists (tr :: l). split_and!; [by constructor|rewrite fmap_cons; congruence|simpl; lia].
Qed.
End chains.

(** ** Well-formed tables *)

(** No row's parent id designates two different rows of the table. *)
Definition parents_unique (arr : list node) (id pid : jsval) : Prop :=
  let idn := to_string (js_or id (JStr "id")) in
  let pidn := to_string (js_or pid (JStr "pid")) in
  Forall (fun u => Forall (fun v => Forall (fun w =>
    loose_eq (prop w pidn) (prop u idn) = true ->
    loose_eq (prop w pidn) (prop v idn) = true -> u = v) arr) arr) arr.

#[export] Instance parents_unique_dec arr id pid : Decision (parents_unique arr id pid).
Proof. apply _. Defined.

Lemma fortree_new_wf arr id pid top :
  parents_unique arr id pid -> well_formed (fortree_new arr id pid top).
Proof.
  intros Hu. rewrite fortree_new_eq.
  split; simpl; repeat setoid_rewrite elem_of_app;
    repeat setoid_rewrite list_elem_of_In; repeat setoid_rewrite List.filter_In.
  - intros u v w Hin1 Hin2 [Hw _].
    assert (In u arr) as Hinu by tauto. assert (In v arr) as Hinv by tauto.
    pose proof (proj1 (List.Forall_forall _ _) Hu u Hinu) as Huv.
    pose proof (proj1 (List.Forall_forall _ _) Huv v Hinv) as Huvw.
    exact (proj1 (List.Forall_forall _ _) Huvw w Hw).
  - intros v [_ H1] [_ H2]. by rewrite H1 in H2.
Qed.

(** ** The visiting order *)

(** Callbacks that record the rows handed to [forcurr]. *)
Definition log_callbacks : callbacks (list node) :=
  mk_callbacks (fun _ _ _ s => s) (fun v _ _ s => s ++ [v]) (fun _ _ s => s)
    (fun _ _ s => s) (fun _ _ _ s => s).

Lemma tree_ind' (P : tree -> Prop) :
  (forall v sub, Forall P sub -> P (Node v sub)) -> forall tr, P tr.
Proof.
  intros H. fix IH 1. intros [v sub]. apply H.
  induction sub as [|a sub IHsub]; constructor; [apply IH|apply IHsub].
Qed.

Lemma iter_log l :
  Forall (fun tr => forall i s, run_tree log_callbacks i tr s = s ++ preorder tr) l ->
  forall i s, iter_ix (run_tree log_callbacks) i l s = s ++ flat_map preorder l.
Proof.
  induction 1 as [|tr l Htr _ IH]; intros i s; simpl; [by rewrite app_nil_r|].
  by rewrite Htr, IH, <- app_assoc.
Qed.

Lemma run_log tr i s : run_tree log_callbacks i tr s = s ++ preorder tr.
Proof.
  revert i s; induction tr as [v sub IH] using tree_ind'; intros i s; simpl.
  destruct sub as [|a sub]; [done|].
  change (iter_ix (run_tree log_callbacks) 0 (a :: sub) (s ++ [v])
          = s ++ v :: flat_map preorder (a :: sub)).
  rewrite iter_log by done. by rewrite <- app_assoc.
Qed.

Section preorder.
Context (t : fortree) (wf : well_formed t).

(** [w] lies in the subtree whose ancestor chain is [p]. *)
Definition below (p : list node) (w : node) : Prop :=
  exists q r, chain t (w :: r) /\ w :: r = q ++ p.

Lemma preorder_below tr p :
  tree_ok t tr -> chain t (root tr :: p) ->
  forall w, w ∈ preorder tr <-> below (root tr :: p) w.
Proof.
  revert p; induction tr as [v sub IH] using tree_ind'; intros p Hok Hc w.
  inversion Hok as [? ? Hroots Hsub]; subst. simpl in *.
  rewrite elem_of_cons, list_elem_of_In, in_flat_map. split.
  - intros [->|(tr & Hin & Hw)]; [by exists [], p|].
    rewrite <- list_elem_of_In in Hin. rewrite <- list_elem_of_In in Hw.
    rewrite Forall_forall in IH, Hsub.
    apply (IH tr Hin (v :: p)) in Hw as (q & r & Hcr & Heq); [|by apply Hsub|].
    + exists (q ++ [root tr]), r. by rewrite <- app_assoc.
    + constructor; [done|]. rewrite <- Hroots. by apply list_elem_of_fmap_2.
  - intros (q & r & Hcr & Heq).
    destruct q as [|a q] using rev_ind; simpl in Heq; [left; congruence|].
    right. clear IHq.
    rewrite <- app_assoc in Heq. simpl in Heq.
    assert (chain t (a :: v :: p)) as Hca.
    { apply (chain_suffix t q); [done|]. by rewrite <- Heq. }
    inversion Hca as [|? ? ? _ Ha]; subst. rewrite <- Hroots in Ha.
    apply list_elem_of_fmap in Ha as (tr & -> & Htr).
    exists tr. rewrite <- list_elem_of_In. split; [done|].
    rewrite <- list_elem_of_In. rewrite Forall_forall in IH, Hsub.
    apply (IH tr Htr (v :: p)); [by apply Hsub|done|].
    by exists q, r.
Qed.

Lemma below_disjoint a b p q w :
  chain t (a :: p) -> chain t (b :: q) -> length p = length q ->
  below (a :: p) w -> below (b :: q) w -> a = b.
Proof.
  intros Ha Hb Hl (q1 & r1 & Hc1 & He1) (q2 & r2 & Hc2 & He2).
  pose proof (chain_unique t wf _ _ _ Hc1 Hc2) as ->.
  rewrite He1 in He2. apply app_inj_2 in He2 as [_ ?]; simpl; congruence.
Qed.

(** Subtrees with pairwise distinct roots under one chain visit disjoint rows. *)
Lemma flat_map_preorder_nodup l p :
  Forall (tree_ok t) l -> NoDup (root <$> l) ->
  Forall (fun tr => chain t (root tr :: p)) l ->
  Forall (fun tr => NoDup (preorder tr)) l -> NoDup (flat_map preorder l).
Proof.
  induction l as [|tr l IH]; intros Hok Hr Hc Hn; simpl; [apply NoDup_nil_2|].
  rewrite fmap_cons in Hr.
  apply NoDup_cons in Hr as [Hr Hrs]. apply Forall_cons in Hok as [Htr Hok].
  apply Forall_cons in Hc as [Hctr Hc]. apply Forall_cons in Hn as [Hntr Hn].
  apply NoDup_app. split_and!; [done| |by apply IH].
  intros w Hw. rewrite list_elem_of_In, in_flat_map. intros (tr' & Hin & Hw').
  rewrite <- list_elem_of_In in Hin. rewrite <- list_elem_of_In in Hw'. rewrite Forall_forall in Hok, Hc.
  apply (preorder_below tr p) in Hw; [|done..].
  apply (preorder_below tr' p) in Hw'; [|by auto..].
  apply Hr. replace (root tr) with (root tr'); [by apply list_elem_of_fmap_2|].
  symmetry. eapply (below_disjoint _ _ p p w); eauto.
Qed.
End preorder.

Lemma father_children_length arr id pid top :
  let t := fortree_new arr id pid top in
  (length (children t) <= length arr)%nat.
Proof.
  rewrite fortree_new_eq. simpl. induction arr as [|v arr IH]; simpl; [lia|].
  case_match; simpl; lia.
Qed.

Lemma NoDup_list_filter (P : node -> bool) l : NoDup l -> NoDup (List.filter P l).
Proof. rewrite !NoDup_ListNoDup. apply List.NoDup_filter. Qed.

Lemma father_nodup arr id pid top :
  NoDup arr -> NoDup (father (fortree_new arr id pid top)).
Proof. rewrite fortree_new_eq. apply NoDup_list_filter. Qed.

Lemma getChildren_nodup arr id pid top x :
  NoDup arr -> NoDup (getChildren (fortree_new arr id pid top) x).
Proof.
  intros Hnd. rewrite getChildren_filter. rewrite fortree_new_eq.
  by apply NoDup_list_filter, NoDup_list_filter.
Qed.

Lemma tree_preorder_nodup t :
  well_formed t -> (forall x, NoDup (getChildren t x)) ->
  forall tr p, tree_ok t tr -> chain t (root tr :: p) -> NoDup (preorder tr).
Proof.
  intros wf Hnd tr; induction tr as [v sub IH] using tree_ind'; intros p Hok Hc.
  inversion Hok as [? ? Hroots Hsub]; subst. simpl in *.
  assert (Forall (fun tr => chain t (root tr :: v :: p)) sub) as Hch.
  { apply Forall_forall. intros tr Htr. constructor; [done|].
    rewrite <- Hroots. by apply list_elem_of_fmap_2. }
  apply NoDup_cons; split.
  - rewrite list_elem_of_In, in_flat_map. intros (tr & Hin & Hw).
    rewrite <- list_elem_of_In in Hin. rewrite <- list_elem_of_In in Hw.
    rewrite Forall_forall in Hch, Hsub.
    apply (preorder_below t tr (v :: p)) in Hw as (q & r & Hcr & Heq); [|by auto..].
    pose proof (chain_unique t wf _ _ _ Hcr Hc) as ->.
    apply (f_equal length) in Heq. rewrite length_app in Heq. simpl in Heq. lia.
  - apply (flat_map_preorder_nodup t wf sub (v :: p)); [done|by rewrite Hroots|done|].
    rewrite Forall_forall in IH, Hsub, Hch. apply Forall_forall. eauto.
Qed.

(** [each()] computes the callbacks of the forest the rows describe. *)
Lemma each_total arr id pid top :
  parents_unique arr id pid ->
  let t := fortree_new arr id pid top in
  exists l, Forall (tree_ok t) l /\ root <$> l = father t /\
    forall (S : Type) (cb : callbacks S) fuel s,
      (2 + length arr <= fuel)%nat ->
      each_top t cb fuel s = Some (iter_ix (run_tree cb) 0 l s).
Proof.
  intros Hu t. pose proof (fortree_new_wf arr id pid top Hu) as wf.
  destruct (forest_exists t wf) as (l & Hok & Hr & Hh).
  exists l. split_and!; [done|done|]. intros S cb fuel s Hf.
  unfold each_top. rewrite <- Hr. apply each_forest; [done|].
  pose proof (father_children_length arr id pid top) as Hl. cbv zeta in Hl.
  fold t in Hl. lia.
Qed.

(** ** Properties *)

(** C13.  On a table where every parent id designates at most one row, [each()]
    terminates, for every client and every fuel above the number of rows, and it
    performs exactly the callbacks of a forest: the roots are the rows of
    [_father] in table order, the subtrees of a node the rows naming it as
    parent, in table order, and the callbacks nest as the source writes them. *)
Theorem each_refines_forest arr id pid top :
  parents_unique arr id pid ->
  let t := fortree_new arr id pid top in
  exists l, Forall (tree_ok t) l /\ root <$> l = father t /\
    forall (S : Type) (cb : callbacks S) fuel s,
      (2 + length arr <= fuel)%nat ->
      each_top t cb fuel s = Some (iter_ix (run_tree cb) 0 l s).
Proof. apply each_total. Qed.

(** On such a table without repeated rows, [each()] hands every row that
    is connected to a top-level row to [forcurr] exactly once, and no other. *)
Theorem each_visits_once arr id pid top fuel :
  parents_unique arr id pid -> NoDup arr -> (2 + length arr <= fuel)%nat ->
  let t := fortree_new arr id pid top in
  exists vs, each_top t log_callbacks fuel [] = Some vs /\ NoDup vs /\
    forall v, v ∈ vs <-> exists p, chain t (v :: p).
Proof.
  intros Hu Hnd Hf t. pose proof (fortree_new_wf arr id pid top Hu) as wf. fold t in wf.
  destruct (each_total arr id pid top Hu) as (l & Hok & Hr & Hrun).
  fold t in Hok, Hr, Hrun. exists (flat_map preorder l).
  assert (Forall (fun tr => chain t [root tr]) l) as Hch.
  { apply Forall_forall. intros tr Htr. constructor. rewrite <- Hr.
    by apply list_elem_of_fmap_2. }
  rewrite Forall_forall in Hok, Hch. split_and!.
  - rewrite (Hrun _ _ _ _ Hf), iter_log; [done|]. apply Forall_true, run_log.
  - apply (flat_map_preorder_nodup t wf l []); [by apply Forall_forall| |by apply Forall_forall|].
    { rewrite Hr. by apply father_nodup. }
    apply Forall_forall. intros tr Htr.
    apply (tree_preorder_nodup t wf) with (p := []); [|by auto..].
    intros x. by apply getChildren_nodup.
  - intros v. rewrite list_elem_of_In, in_flat_map. setoid_rewrite <- list_elem_of_In. split.
    + intros (tr & Htr & Hv). apply (preorder_below t tr []) in Hv as (q & r & Hc & _); eauto.
    + intros (p & Hc). destruct (chain_shape t _ Hc) as (c & r & Heq & _ & Hin).
      rewrite <- Hr in Hin. apply list_elem_of_fmap in Hin as (tr & -> & Htr).
      exists tr. split; [done|]. apply (preorder_below t tr []); [by auto..|]. by exists c, p.
Qed.

(** Conversely, a set of rows each of which has a child in the set (a
    cycle, for instance a row that names itself as parent) and which meets the
    top-level rows makes [each()] recurse without end: no fuel is enough. *)
Theorem each_diverges (S : Type) t (cb : callbacks S) (X : node -> Prop) r :
  (forall v, X v -> exists c, X c /\ c ∈ getChildren t (prop v (idname t))) ->
  r ∈ father t -> X r -> forall fuel s, each_top t cb fuel s = None.
Proof.
  intros HX Hr HXr fuel s. unfold each_top.
  revert s r Hr HXr. generalize (father t) as arr.
  induction fuel as [|fuel IH]; intros arr s r Hr HXr; [done|]. simpl.
  generalize 0%nat as i. revert s.
  induction arr as [|v arr IHarr]; intros s i; [by apply not_elem_of_nil in Hr|].
  simpl. apply elem_of_cons in Hr as [<-|Hr].
  - destruct (HX r HXr) as (c & HXc & Hc). unfold visit.
    assert (length (getChildren t (prop r (idname t))) <> 0%nat) as Hlen.
    { intros Hl%nil_length_inv. rewrite Hl in Hc. by apply not_elem_of_nil in Hc. }
    apply Nat.eqb_neq in Hlen as ->. by rewrite (IH _ _ c Hc HXc).
  - destruct (visit t cb (each t cb fuel) i v s) as [s'|]; [|done]. by apply IHarr.
Qed.

(** ** A concrete table *)

Definition row (id pid : Z) : node := {["id" := JNum id; "pid" := JNum pid]}.

(** Rows 1 and 3 are top-level, 2 and 4 are children of 1, 5 is a child of 4;
    row 6 is an orphan. *)
Definition sample : list node := [row 2 1; row 1 0; row 4 1; row 3 0; row 5 4; row 6 9].

Lemma sample_unique : parents_unique sample JUndef JUndef.
Proof. apply (bool_decide_unpack _). vm_compute. exact I. Qed.

Lemma sample_nodup : NoDup sample.
Proof. apply (bool_decide_unpack _). vm_compute. exact I. Qed.

Lemma each_refines_forest_witness :
  exists l, root <$> l = [row 1 0; row 3 0].
Proof.
  destruct (each_refines_forest sample JUndef JUndef JUndef sample_unique)
    as (l & _ & Hr & _).
  exists l. rewrite Hr. reflexivity.
Defined.

Lemma each_visits_once_witness :
  exists vs, each_top (fortree_new sample JUndef JUndef JUndef) log_callbacks 8 []
             = Some vs /\ NoDup vs.
Proof.
  destruct (each_visits_once sample JUndef JUndef JUndef 8 sample_unique sample_nodup)
    as (vs & H1 & H2 & _); [simpl; lia|]. by exists vs.
Defined.

(** The order of the visits on the sample. *)
Example sample_visits :
  each_top (fortree_new sample JUndef JUndef JUndef) log_callbacks 8 []
  = Some [row 1 0; row 2 1; row 4 1; row 5 4; row 3 0].
Proof. vm_compute. reflexivity. Qed.

(** A child row that is its own parent, below a top-level row of the same id. *)
Definition looping : list node := [row 1 0; row 1 1].

Lemma each_diverges_witness :
  each_top (fortree_new looping JUndef JUndef JUndef) log_callbacks 1000 [] = None.
Proof.
  apply (each_diverges _ (fortree_new looping JUndef JUndef JUndef) log_callbacks
           (fun v => v ∈ looping) (row 1 0)).
  - unfold looping. intros v Hv. exists (row 1 1). rewrite !elem_of_cons in Hv |- *.
    split; [by right; left|].
    destruct Hv as [->|[->|[]%not_elem_of_nil]]; vm_compute; left.
  - vm_compute. left.
  - left.
Defined.
