(* ===== verification/Cms.v ===== *)
(** * [cms.js]: navigation tree and tab bar of the back office

    Models [2019104279/src/static/js/cms.js].  [addNav] renders a table as
    nested lists through [fortree]; [addTab], [closeTab] and the resize and
    navigation handlers of [bind] maintain the tab bar.  The tab bar's document
    fragment is a list of title elements and a list of content elements, as the
    layui element module (version 1.0.9, [lay/modules/element.js]) lays them
    out; [tabAdd] and [tabChange] are that module's operations.  Time stamps,
    the heights of the window and the indices [layer.load] returns are
    arguments. *)

From S2P Require Import JsValue Fortree.

(** ** The navigation tree *)

(** The link [forcurr] emits: [data-url] and [data-id] only when the row has a
    truthy url. *)
Definition nav_link (urlname nodename idname : string) (v : node) : string :=
  "<a" +:+ attr "href" "javascript:;"
  +:+ (if truthy (prop v urlname)
       then attr "data-url" (to_string (prop v urlname))
            +:+ attr "data-id" (to_string (prop v idname))
       else "")
  +:+ ">" +:+ to_string (prop v nodename) +:+ "</a>".

(** The five callbacks [addNav] installs, all appending to [html]. *)
Definition nav_callbacks (urlname nodename idname : string) : callbacks string :=
  mk_callbacks
    (fun _ _ _ html =>
       html +:+ "<li" +:+ attr "class" "layui-nav-item layui-nav-itemed" +:+ ">")
    (fun v _ _ html => html +:+ nav_link urlname nodename idname v)
    (fun _ _ html => html +:+ "<dl" +:+ attr "class" "layui-nav-child" +:+ ">")
    (fun _ _ html => html +:+ "</dl>")
    (fun _ _ _ html => html +:+ "</li>").

(** The side bar: its inner markup and the [element.init] calls made on it. *)
Record navbar := mk_navbar { nav_html : string; nav_inits : list string }.

Definition addNav (fuel : nat) (navfilter : string) (data : list node)
    (topid idname pidname nodename urlname : jsval) (nav : navbar) : option navbar :=
  let topid := js_or topid (JNum 0) in
  let idname := js_or idname (JStr "id") in
  let pidname := js_or pidname (JStr "pid") in
  let nodename := to_string (js_or nodename (JStr "node")) in
  let urlname := to_string (js_or urlname (JStr "url")) in
  let mytree := fortree_new data idname pidname topid in
  html ← each_top mytree (nav_callbacks urlname nodename (to_string idname)) fuel "";
  Some (mk_navbar (nav_html nav +:+ html)
          (nav_inits nav ++ ["nav(" +:+ navfilter +:+ ")"])).

(** *** The markup as tokens *)

Inductive token := TOpen (tag attrs : string) | TClose (tag : string) | TText (s : string).

Definition render_token (k : token) : string :=
  match k with
  | TOpen tag attrs => "<" +:+ tag +:+ attrs +:+ ">"
  | TClose tag => "</" +:+ tag +:+ ">"
  | TText s => s
  end.

Definition render (l : list token) : string :=
  foldr (fun k s => render_token k +:+ s) "" l.
#[local] Arguments render : simpl never.

(** A stack machine for proper nesting: [None] on a mismatched closing tag. *)
Fixpoint nest (stack : list string) (l : list token) : option (list string) :=
  match l with
  | [] => Some stack
  | TOpen tag _ :: l => nest (tag :: stack) l
  | TText _ :: l => nest stack l
  | TClose tag :: l =>
      match stack with
      | top :: stack => if String.eqb top tag then nest stack l else None
      | [] => None
      end
  end.

Section nav_tokens.
Context (urlname nodename idname : string).

Definition link_tokens (v : node) : list token :=
  [TOpen "a" (attr "href" "javascript:;"
     +:+ if truthy (prop v urlname)
         then attr "data-url" (to_string (prop v urlname))
              +:+ attr "data-id" (to_string (prop v idname))
         else "");
   TText (to_string (prop v nodename)); TClose "a"].

(** A node is an [li] holding its link and, if it has children, a [dl]. *)
Fixpoint nav_tokens (tr : tree) : list token :=
  let 'Node v sub := tr in
  TOpen "li" (attr "class" "layui-nav-item layui-nav-itemed") :: link_tokens v
  ++ match sub with
     | [] => []
     | _ => TOpen "dl" (attr "class" "layui-nav-child")
            :: flat_map nav_tokens sub ++ [TClose "dl"]
     end
  ++ [TClose "li"].

Lemma render_cons k l : render (k :: l) = render_token k +:+ render l.
Proof. done. Qed.

Lemma render_app l l' : render (l ++ l') = render l +:+ render l'.
Proof.
  induction l as [|k l IH]; [done|]. by rewrite <- app_comm_cons, !render_cons, IH,
    app_string_assoc.
Qed.

Lemma nest_app st l l' : nest st (l ++ l') = nest st l ≫= fun st' => nest st' l'.
Proof.
  revert st; induction l as [|[] l IH]; intros st; simpl; [done|by rewrite IH..| |by rewrite IH].
  destruct st; [done|]. case_match; [apply IH|done].
Qed.

Lemma nest_nav_tokens tr st : nest st (nav_tokens tr) = Some st.
Proof.
  revert st; induction tr as [v sub IH] using tree_ind'; intros st. simpl.
  assert (forall st, nest st (flat_map nav_tokens sub) = Some st) as Hsub.
  { induction IH as [|tr sub Htr _ IHsub]; intros st'; simpl; [done|].
    rewrite nest_app, Htr. apply IHsub. }
  destruct sub as [|a sub]; [done|]. simpl in *.
  by rewrite <- app_assoc, nest_app, Hsub.
Qed.

Lemma nest_forest l st : nest st (flat_map nav_tokens l) = Some st.
Proof.
  induction l as [|tr l IH]; simpl; [done|]. by rewrite nest_app, nest_nav_tokens.
Qed.

Lemma iter_nav l :
  Forall (fun tr => forall i s,
    run_tree (nav_callbacks urlname nodename idname) i tr s = s +:+ render (nav_tokens tr)) l ->
  forall i s, iter_ix (run_tree (nav_callbacks urlname nodename idname)) i l s
              = s +:+ render (flat_map nav_tokens l).
Proof.
  induction 1 as [|tr l Htr _ IH]; intros i s; simpl;
    [by rewrite app_string_nil_r|].
  by rewrite Htr, IH, render_app, app_string_assoc.
Qed.

Lemma run_nav tr i s :
  run_tree (nav_callbacks urlname nodename idname) i tr s = s +:+ render (nav_tokens tr).
Proof.
  revert i s; induction tr as [v sub IH] using tree_ind'; intros i s.
  pose proof (iter_nav sub IH 0%nat) as Hsub.
  destruct sub as [|a sub].
  - simpl. unfold nav_link. rewrite !render_cons. simpl. by autorewrite with js.
  - simpl in *. rewrite Hsub. repeat (rewrite render_cons || rewrite render_app || simpl).
    unfold nav_link. autorewrite with js. reflexivity.
Qed.
End nav_tokens.

(** ** The tab bar *)

(** The close icon layui appends to a title counts as one character of its
    text. *)
Definition close_glyph : string := String (ascii_of_nat 6) EmptyString.

(** A [li] of the tab head.  [t_close] tells whether layui gave it a close icon,
    and if so whether that icon is hidden. *)
Record title := mk_title {
  t_layid : option string;
  t_text : string;
  t_close : option bool;
  t_this : bool;
}.

(** An [iframe] with the attributes [addTab] writes. *)
Record frame := mk_frame {
  f_src : string;
  f_id : string;
  f_tabindex : string;
  f_height : Z;
  f_layer : Z;
}.

(** A [div.layui-tab-item] of the tab body, holding one iframe or something
    else (the start page). *)
Record item := mk_item { i_frame : option frame; i_show : bool }.

(** The tab widget, the layers [layer.load] opened, and the pending timers that
    will close them. *)
Record tabbar := mk_tabbar {
  tb_allowClose : bool;
  tb_titles : list title;
  tb_items : list item;
  tb_height : Z;
  tb_layers : list Z;
  tb_timers : list Z;
}.

Definition set_titles f s :=
  mk_tabbar (tb_allowClose s) (f (tb_titles s)) (tb_items s) (tb_height s)
    (tb_layers s) (tb_timers s).
Definition set_items f s :=
  mk_tabbar (tb_allowClose s) (tb_titles s) (f (tb_items s)) (tb_height s)
    (tb_layers s) (tb_timers s).

(** *** The layui operations *)

(** [tabAuto]: when the widget allows closing, every title gets a close icon. *)
Definition tabAuto (s : tabbar) : tabbar :=
  if tb_allowClose s then
    set_titles (fmap (fun t =>
      mk_title (t_layid t) (t_text t) (Some (default false (t_close t))) (t_this t))) s
  else s.

Definition or_string (a b : string) : string := if String.eqb a "" then b else a.

Definition tabAdd (title : string) (content : option frame) (id : string) (s : tabbar)
    : tabbar :=
  let s := set_titles (fun l =>
    l ++ [mk_title (Some id) (or_string title "unnaming") None false]) s in
  let s := set_items (fun l => l ++ [mk_item content false]) s in
  tabAuto s.

(** [o.addClass(c).siblings().removeClass(c)] on a list of siblings whose
    selected members are flagged in [sel]: two selected siblings lose the class
    again, as each is a sibling of the other. *)
Definition select_only (sel : list bool) (old : list bool) : list bool :=
  match length (List.filter id sel) with
  | 0%nat => old
  | 1%nat => sel
  | _ => replicate (length sel) false
  end.

Definition first_true (l : list bool) : option nat :=
  fst <$> list_find (fun b => b = true) l.

Definition set_this (t : title) (b : bool) : title :=
  mk_title (t_layid t) (t_text t) (t_close t) b.
Definition set_show (i : item) (b : bool) : item := mk_item (i_frame i) b.

Definition has_layid (id : string) (t : title) : bool :=
  bool_decide (t_layid t = Some id).

(** [r.eq(t)] with [t] the index of the first matching title, or the last item
    when there is none ([eq(-1)]). *)
Definition item_at (t : option nat) (n : nat) : list bool :=
  let k := default (n - 1)%nat t in
  (fun i => Nat.eqb i k) <$> seq 0 n.

Definition tabChange (id : string) (s : tabbar) : tabbar :=
  let sel := has_layid id <$> tb_titles s in
  let t := first_true sel in
  let s := set_titles (fun l => zip_with set_this l (select_only sel (t_this <$> l))) s in
  set_items (fun l =>
    zip_with set_show l (select_only (item_at t (length l)) (i_show <$> l))) s.

(** *** The operations of [cms.js] *)

(** [tabcontent.find('iframe[data-id=...]').eq(0)]. *)
Definition find_frame (id : string) (s : tabbar) : option frame :=
  list_find (fun f => f_id f = id) (omap i_frame (tb_items s)) ≫= fun p => Some p.2.

Definition layid (tabindex : string) : string := "index-" +:+ tabindex.

(** The two [remove()] calls: the titles with that [lay-id], and the parents of
    the elements with that [data-tabindex]. *)
Definition remove_tab (tabindex : string) (s : tabbar) : tabbar :=
  let s := set_titles (List.filter (fun t => negb (has_layid (layid tabindex) t))) s in
  set_items (List.filter (fun i =>
    negb (bool_decide (f_tabindex <$> i_frame i = Some tabindex)))) s.

(** [tabtitle.find('li').eq(0).find('i').hide()]. *)
Definition hide_first_close (s : tabbar) : tabbar :=
  set_titles (fun l =>
    match l with
    | t :: l => mk_title (t_layid t) (t_text t) ((fun _ => true) <$> t_close t) (t_this t) :: l
    | [] => []
    end) s.

(** [addTab(title, src, id)] at time [now]; [tmpIndex] is the layer index that
    [layer.load] returns. *)
Definition addTab (now : Z) (tmpIndex : Z) (title : string) (src id : option string)
    (s : tabbar) : tabbar :=
  match src, id with
  | Some src, Some id =>
      let iframe := find_frame id s in
      let tabindex := match iframe with Some f => f_tabindex f | None => pretty now end in
      let s := match iframe with Some _ => remove_tab tabindex s | None => s end in
      let s := mk_tabbar (tb_allowClose s) (tb_titles s) (tb_items s) (tb_height s)
                 (tb_layers s ++ [tmpIndex]) (tb_timers s ++ [tmpIndex]) in
      let iframe := mk_frame src id tabindex (tb_height s) tmpIndex in
      let s := tabAdd title (Some iframe) (layid tabindex) s in
      let s := tabChange (layid tabindex) s in
      hide_first_close s
  | _, _ => s
  end.

(** [$("[lay-id='...']").text()]: the texts of all matching titles. *)
Definition title_text (t : title) : string :=
  t_text t +:+ (match t_close t with Some _ => close_glyph | None => "" end).

Definition layid_text (id : string) (s : tabbar) : string :=
  foldr (fun t acc => title_text t +:+ acc) "" (List.filter (has_layid id) (tb_titles s)).

(** [tt.substring(0, tt.length-1)]. *)
Definition drop_last (s : string) : string :=
  String.substring 0 (String.length s - 1) s.

Definition closeTab (now tmpIndex : Z) (id : string) (refreshId : option string)
    (s : tabbar) : tabbar :=
  let s := match find_frame id s with
           | Some f => remove_tab (f_tabindex f) s
           | None => s
           end in
  match refreshId with
  | Some r =>
      if String.eqb r "" then s else
      match find_frame r s with
      | Some f => addTab now tmpIndex (drop_last (layid_text (layid (f_tabindex f)) s))
                    (Some (f_src f)) (Some r) s
      | None => s
      end
  | None => s
  end.

(** [setTimeout(function() { layer.close(tmpIndex); }, 1000)] firing. *)
Definition fire_timer (tmpIndex : Z) (s : tabbar) : tabbar :=
  mk_tabbar (tb_allowClose s) (tb_titles s) (tb_items s) (tb_height s)
    (List.filter (fun n => negb (n =? tmpIndex)) (tb_layers s))
    (List.filter (fun n => negb (n =? tmpIndex)) (tb_timers s)).

(** The [resize] handler [bind] installs (and triggers once): the body takes the
    window height less [height], and so does every iframe in it. *)
Definition on_resize (window_height : Z) (height : option Z) (s : tabbar) : tabbar :=
  let height := match height with Some h => if h =? 0 then 60 + 41 + 44 else h
                                | None => 60 + 41 + 44 end in
  let h := window_height - height in
  mk_tabbar (tb_allowClose s) (tb_titles s)
    (fmap (fun i => mk_item
       ((fun f => mk_frame (f_src f) (f_id f) (f_tabindex f) h (f_layer f)) <$> i_frame i)
       (i_show i)) (tb_items s))
    h (tb_layers s) (tb_timers s).

(** The navigation handler of [bind]: the clicked element's link. *)
Record nav_elem := mk_nav_elem {
  n_text : string; n_url : option string; n_id : option string
}.

Definition on_nav_click (now tmpIndex : Z) (elem : nav_elem) (s : tabbar) : tabbar :=
  addTab now tmpIndex (n_text elem) (n_url elem) (n_id elem) s.

(** [clickLI]: the [li] whose click handler runs, [index || 0]. *)
Definition clickLI {A} (lis : list A) (index : option nat) : option A :=
  lis !! default 0%nat index.

(** An iframe's [onload] attribute closes the layer opened with it. *)
Definition on_frame_load (f : frame) (s : tabbar) : tabbar :=
  mk_tabbar (tb_allowClose s) (tb_titles s) (tb_items s) (tb_height s)
    (List.filter (fun n => negb (n =? f_layer f)) (tb_layers s)) (tb_timers s).

(** [exports('cms', ...)]: the two widgets must exist, otherwise a message naming
    each missing one is shown and [false] is returned. *)
Definition cms_init (nav_length tab_length : nat) : string + unit :=
  let error := (if (nav_length =? 0)%nat then "没有找到导航栏<br>" else "")
               +:+ (if (tab_length =? 0)%nat then "没有找到切换卡<br>" else "") in
  if String.eqb error "" then inr tt
  else inl ("cms模块初始化失败！<br>" +:+ error).

(** ** The tab-bar invariant *)

Definition layids (s : tabbar) : list (option string) := t_layid <$> tb_titles s.
Definition contents (s : tabbar) : list (option frame) := i_frame <$> tb_items s.
Definition frames (s : tabbar) : list frame := omap i_frame (tb_items s).

(** A title names the iframe beside it; other tabs carry no such identifier. *)
Definition matches (l : option string) (c : option frame) : Prop :=
  match c with
  | Some f => l = Some (layid (f_tabindex f))
  | None => forall x, l <> Some (layid x)
  end.

Record tab_inv (s : tabbar) : Prop := {
  inv_aligned : Forall2 matches (layids s) (contents s);
  inv_ids : NoDup (f_id <$> frames s);
  inv_tabindex : NoDup (f_tabindex <$> frames s);
}.

Lemma layid_inj x y : layid x = layid y -> x = y.
Proof. unfold layid. by intros ?%(inj _). Qed.

Lemma frames_contents s : frames s = omap id (contents s).
Proof.
  unfold frames, contents. induction (tb_items s) as [|i l IH]; csimpl; [done|].
  rewrite IH. by destruct (i_frame i).
Qed.

Lemma tab_inv_ext s s' :
  layids s = layids s' -> contents s = contents s' -> tab_inv s -> tab_inv s'.
Proof.
  intros Hl Hc [H1 H2 H3].
  assert (frames s = frames s') as Hf by (by rewrite !frames_contents, Hc).
  split; [by rewrite <- Hl, <- Hc|by rewrite <- Hf..].
Qed.

(** *** Operations that keep the identifiers *)

Lemma layids_tabAuto s : layids (tabAuto s) = layids s.
Proof.
  unfold tabAuto, layids. destruct (tb_allowClose s); [|done]. simpl.
  by rewrite <- list_fmap_compose.
Qed.

Lemma contents_tabAuto s : contents (tabAuto s) = contents s.
Proof. unfold tabAuto. by destruct (tb_allowClose s). Qed.

Lemma layids_hide s : layids (hide_first_close s) = layids s.
Proof. unfold layids, hide_first_close. simpl. by destruct (tb_titles s). Qed.

Lemma contents_hide s : contents (hide_first_close s) = contents s.
Proof. done. Qed.

Lemma select_only_length sel old :
  length sel = length old -> length (select_only sel old) = length old.
Proof.
  unfold select_only. destruct (length (List.filter id sel)) as [|[|]]; [done..|].
  by rewrite length_replicate.
Qed.

Lemma zip_set_this l bs :
  length bs = length l -> t_layid <$> zip_with set_this l bs = t_layid <$> l.
Proof.
  revert bs; induction l as [|t l IH]; intros [|b bs] H; simplify_eq/=; [done|].
  f_equal. by apply IH.
Qed.

Lemma zip_set_show l bs :
  length bs = length l -> i_frame <$> zip_with set_show l bs = i_frame <$> l.
Proof.
  revert bs; induction l as [|t l IH]; intros [|b bs] H; simplify_eq/=; [done|].
  f_equal. by apply IH.
Qed.

Lemma layids_tabChange x s : layids (tabChange x s) = layids s.
Proof.
  unfold layids, tabChange. simpl. apply zip_set_this.
  rewrite select_only_length; by rewrite !length_fmap.
Qed.

Lemma contents_tabChange x s : contents (tabChange x s) = contents s.
Proof.
  unfold contents, tabChange. simpl. apply zip_set_show.
  rewrite select_only_length; unfold item_at; by rewrite !length_fmap, ?length_seq.
Qed.

(** *** Removal and insertion *)

Lemma matches_layid l c x :
  matches l c -> (l = Some (layid x) <-> f_tabindex <$> c = Some x).
Proof.
  destruct c as [f|]; simpl; [|naive_solver].
  intros ->. split; [|by intros [= ->]].
  intros H. apply (inj Some) in H. by apply layid_inj in H as ->.
Qed.

Lemma remove_aligned x (ls : list title) (is_ : list item) :
  Forall2 matches (t_layid <$> ls) (i_frame <$> is_) ->
  Forall2 matches
    (t_layid <$> List.filter (fun t => negb (has_layid (layid x) t)) ls)
    (i_frame <$> List.filter (fun i =>
       negb (bool_decide (f_tabindex <$> i_frame i = Some x))) is_).
Proof.
  revert is_; induction ls as [|t ls IH]; intros [|i is_] H; simpl in *;
    [constructor|inversion H..|].
  apply Forall2_cons in H as [Hm H].
  assert (has_layid (layid x) t = bool_decide (f_tabindex <$> i_frame i = Some x)) as ->.
  { unfold has_layid. apply bool_decide_ext. by apply matches_layid. }
  case_bool_decide; simpl; [by apply IH|]. constructor; [done|by apply IH].
Qed.

Lemma omap_filter_tabindex x (is_ : list item) :
  omap i_frame (List.filter (fun i =>
       negb (bool_decide (f_tabindex <$> i_frame i = Some x))) is_)
  = filter (fun f => f_tabindex f <> x) (omap i_frame is_).
Proof.
  induction is_ as [|i l IH]; csimpl; [done|].
  destruct (i_frame i) as [f|] eqn:E; csimpl; [|by rewrite E, IH].
  rewrite filter_cons. case_bool_decide as H1; case_decide as H2; csimpl;
    rewrite ?E, IH; naive_solver.
Qed.

Lemma frames_remove x s :
  frames (remove_tab x s) = filter (fun f => f_tabindex f <> x) (frames s).
Proof. unfold frames. apply omap_filter_tabindex. Qed.

Lemma NoDup_fmap_filter {A B} (g : A -> B) (P : A -> Prop) `{!forall x, Decision (P x)} l :
  NoDup (g <$> l) -> NoDup (g <$> filter P l).
Proof.
  induction l as [|a l IH]; [done|]. rewrite fmap_cons, NoDup_cons. intros [Ha Hl].
  rewrite filter_cons. case_decide; [rewrite fmap_cons|by apply IH].
  apply NoDup_cons. split; [|by apply IH].
  intros (b & Heq & [_ Hb]%list_elem_of_filter)%list_elem_of_fmap.
  apply Ha. rewrite Heq. by apply list_elem_of_fmap_2.
Qed.

Lemma remove_inv x s : tab_inv s -> tab_inv (remove_tab x s).
Proof.
  intros [H1 H2 H3]. split.
  - by apply remove_aligned.
  - rewrite frames_remove. by apply NoDup_fmap_filter.
  - rewrite frames_remove. by apply NoDup_fmap_filter.
Qed.

Lemma find_frame_Some x s f :
  find_frame x s = Some f -> f_id f = x /\ f ∈ frames s.
Proof.
  unfold find_frame. intros ([k g] & (Hk & Hp & _)%list_find_Some & [= <-])%bind_Some.
  split; [done|]. by apply list_elem_of_lookup_2 in Hk.
Qed.

Lemma find_frame_None x s : find_frame x s = None -> x ∉ f_id <$> frames s.
Proof.
  unfold find_frame. intros H.
  destruct (list_find (fun f => f_id f = x) (omap i_frame (tb_items s))) as [[]|] eqn:E; [done|].
  apply list_find_None in E. intros (f & -> & Hf)%list_elem_of_fmap.
  rewrite Forall_forall in E. by apply (E f Hf).
Qed.

(** The state [addTab] reaches before [tabAdd]: an older tab with the same id is
    gone. *)
Definition clear_tab (id : string) (s : tabbar) : tabbar :=
  match find_frame id s with Some f => remove_tab (f_tabindex f) s | None => s end.

Lemma frames_clear id s :
  tab_inv s -> frames (clear_tab id s) = filter (fun f => f_id f <> id) (frames s).
Proof.
  intros [_ Hids Htab]. unfold clear_tab.
  destruct (find_frame id s) as [f|] eqn:E.
  - apply find_frame_Some in E as [<- Hf]. rewrite frames_remove.
    apply filter_ext_in. intros g Hg. split; intros Hne Heq; apply Hne; f_equal;
      [by apply (NoDup_fmap_inj f_id (frames s))|by apply (NoDup_fmap_inj f_tabindex (frames s))].
  - symmetry. apply filter_all. intros g Hg Heq.
    apply (find_frame_None _ _ E). rewrite <- Heq. by apply list_elem_of_fmap_2.
Qed.

Lemma clear_inv id s : tab_inv s -> tab_inv (clear_tab id s).
Proof. unfold clear_tab. destruct (find_frame id s); [apply remove_inv|done]. Qed.

(** The tab index [addTab] gives the tab [id]: its old one, or the time. *)
Definition new_tabindex (now : Z) (id : string) (s : tabbar) : string :=
  match find_frame id s with Some f => f_tabindex f | None => pretty now end.

Definition new_frame (now tmpIndex : Z) (src id : string) (s : tabbar) : frame :=
  mk_frame src id (new_tabindex now id s) (tb_height s) tmpIndex.

(** Time stamps do not repeat those of the open tabs. *)
Definition fresh (now : Z) (s : tabbar) : Prop :=
  pretty now ∉ f_tabindex <$> frames s.

Lemma new_tabindex_fresh now id s :
  tab_inv s -> (find_frame id s = None -> fresh now s) ->
  new_tabindex now id s ∉ f_tabindex <$> frames (clear_tab id s).
Proof.
  intros [_ Hids Htab] Hfresh. unfold new_tabindex, clear_tab.
  destruct (find_frame id s) as [f|] eqn:E; [|by apply Hfresh].
  rewrite frames_remove. intros (g & Heq & [Hne _]%list_elem_of_filter)%list_elem_of_fmap.
  by apply Hne.
Qed.

Lemma addTab_layids now tmp ti src id s :
  layids (addTab now tmp ti (Some src) (Some id) s)
  = layids (clear_tab id s) ++ [Some (layid (new_tabindex now id s))].
Proof.
  unfold addTab. rewrite layids_hide, layids_tabChange. unfold tabAdd.
  rewrite layids_tabAuto. unfold layids at 1. simpl. rewrite fmap_app. simpl.
  unfold new_tabindex, clear_tab. by destruct (find_frame id s).
Qed.

Lemma addTab_contents now tmp ti src id s :
  contents (addTab now tmp ti (Some src) (Some id) s)
  = contents (clear_tab id s) ++ [Some (new_frame now tmp src id s)].
Proof.
  unfold addTab. rewrite contents_hide, contents_tabChange. unfold tabAdd.
  rewrite contents_tabAuto. unfold contents at 1. simpl. rewrite fmap_app. simpl.
  unfold new_frame, new_tabindex, clear_tab. by destruct (find_frame id s).
Qed.

Lemma addTab_frames now tmp ti src id s :
  tab_inv s ->
  frames (addTab now tmp ti (Some src) (Some id) s)
  = filter (fun f => f_id f <> id) (frames s) ++ [new_frame now tmp src id s].
Proof.
  intros Hinv. rewrite frames_contents, addTab_contents, omap_app, <- frames_contents.
  by rewrite frames_clear.
Qed.

Lemma addTab_inv now tmp ti src id s :
  tab_inv s -> (forall x, id = Some x -> find_frame x s = None -> fresh now s) ->
  tab_inv (addTab now tmp ti src id s).
Proof.
  intros Hinv Hfresh. destruct src as [src|]; [|done]. destruct id as [id|]; [|done].
  pose proof (clear_inv id s Hinv) as [H1 H2 H3]. specialize (Hfresh id eq_refl).
  split.
  - rewrite addTab_layids, addTab_contents. apply Forall2_app; [done|]. by repeat constructor.
  - rewrite addTab_frames, <- frames_clear, fmap_app by done.
    apply NoDup_app. split_and!; [done| |apply NoDup_singleton].
    intros x Hx ->%list_elem_of_singleton. simpl in Hx.
    rewrite frames_clear in Hx by done.
    by apply list_elem_of_fmap in Hx as (f & -> & [Hf _]%list_elem_of_filter).
  - rewrite addTab_frames, <- frames_clear, fmap_app by done.
    apply NoDup_app. split_and!; [done| |apply NoDup_singleton].
    intros x Hx ->%list_elem_of_singleton. simpl in Hx.
    by apply (new_tabindex_fresh now id s).
Qed.

(** *** Which tab is shown *)

Definition last_only (n : nat) : list bool := replicate n false ++ [true].

Lemma select_last n old : select_only (last_only n) old = last_only n.
Proof.
  unfold select_only.
  assert (length (List.filter id (last_only n)) = 1%nat) as ->; [|done].
  unfold last_only. by induction n.
Qed.

Lemma first_true_last n : first_true (last_only n) = Some n.
Proof.
  unfold first_true, last_only. induction n as [|n IH]; simpl; [done|].
  destruct (list_find _ _) as [[k b]|]; simplify_eq/=. done.
Qed.

Lemma item_at_last n : item_at (Some n) (n + 1) = last_only n.
Proof.
  unfold item_at. simpl default.
  enough (forall j, (fun i => Nat.eqb i (j + n)) <$> seq j (n + 1) = last_only n) as H
    by apply (H 0%nat).
  induction n as [|n IH]; intros j; simpl.
  { by rewrite Nat.add_0_r, Nat.eqb_refl. }
  rewrite (proj2 (Nat.eqb_neq j (j + S n))) by lia.
  unfold last_only in *. simpl. f_equal. rewrite <- (IH (S j)).
  apply list_fmap_ext. intros i k _. simpl. f_equal. lia.
Qed.

Lemma this_zip l bs : length bs = length l -> t_this <$> zip_with set_this l bs = bs.
Proof.
  revert bs; induction l as [|t l IH]; intros [|b bs] H; simplify_eq/=; [done|].
  f_equal. by apply IH.
Qed.

Lemma show_zip l bs : length bs = length l -> i_show <$> zip_with set_show l bs = bs.
Proof.
  revert bs; induction l as [|t l IH]; intros [|b bs] H; simplify_eq/=; [done|].
  f_equal. by apply IH.
Qed.

(** [tabChange] to the identifier of the last title only, in an aligned bar. *)
Lemma tabChange_last x s n :
  has_layid x <$> tb_titles s = last_only n -> length (tb_items s) = (n + 1)%nat ->
  t_this <$> tb_titles (tabChange x s) = last_only n /\
  i_show <$> tb_items (tabChange x s) = last_only n.
Proof.
  intros Hsel Hlen. unfold tabChange. rewrite Hsel, first_true_last. simpl.
  assert (length (last_only n) = (n + 1)%nat) as Hn.
  { unfold last_only. by rewrite length_app, length_replicate. }
  rewrite Hlen, item_at_last, !select_last. split; [apply this_zip|apply show_zip].
  - by rewrite <- Hsel, length_fmap.
  - by rewrite Hn, Hlen.
Qed.

Lemma this_hide s : t_this <$> tb_titles (hide_first_close s) = t_this <$> tb_titles s.
Proof. unfold hide_first_close. simpl. by destruct (tb_titles s). Qed.

Lemma has_layid_layids x s :
  has_layid x <$> tb_titles s = (fun l => bool_decide (l = Some x)) <$> layids s.
Proof. unfold layids. by rewrite <- list_fmap_compose. Qed.

Lemma aligned_not_layid x s :
  tab_inv s -> x ∉ f_tabindex <$> frames s ->
  (fun l => bool_decide (l = Some (layid x))) <$> layids s = replicate (length (layids s)) false.
Proof.
  intros [H _ _] Hx. rewrite frames_contents in Hx.
  induction H as [|l c ls cs Hm H IH]; simpl; [done|]. f_equal.
  - apply bool_decide_eq_false_2. rewrite (matches_layid _ c x Hm).
    intros Hc. apply Hx. destruct c as [f|]; simplify_eq/=. left.
  - apply IH. intros Hin. apply Hx. simpl. destruct c; csimpl; [by right|done].
Qed.

(** *** The title of an open tab *)

Lemma no_title x (ls : list title) (is_ : list item) :
  Forall2 matches (t_layid <$> ls) (i_frame <$> is_) ->
  x ∉ f_tabindex <$> omap i_frame is_ -> List.filter (has_layid (layid x)) ls = [].
Proof.
  revert is_; induction ls as [|t ls IH]; intros [|i is_] H Hx; csimpl; [done|by inversion H..|].
  apply Forall2_cons in H as [Hm H].
  assert (has_layid (layid x) t = false) as ->.
  { apply bool_decide_eq_false_2. rewrite (matches_layid _ _ x Hm).
    intros Hi. apply Hx. destruct i as [[f|] b]; simplify_eq/=. csimpl. left. }
  apply (IH is_); [done|]. intros Hin. apply Hx. csimpl.
  destruct (i_frame i); csimpl; [by right|done].
Qed.

Lemma one_title f (ls : list title) (is_ : list item) :
  Forall2 matches (t_layid <$> ls) (i_frame <$> is_) ->
  NoDup (f_tabindex <$> omap i_frame is_) -> f ∈ omap i_frame is_ ->
  exists t, List.filter (has_layid (layid (f_tabindex f))) ls = [t].
Proof.
  revert is_; induction ls as [|t ls IH]; intros [|i is_] H Hnd Hf; csimpl in *;
    [by apply not_elem_of_nil in Hf|by inversion H..|].
  apply Forall2_cons in H as [Hm H].
  destruct i as [[g|] b]; csimpl in *.
  - apply NoDup_cons in Hnd as [Hg Hnd]. simpl in Hm.
    apply elem_of_cons in Hf as [->|Hf].
    + exists t. unfold has_layid at 1. rewrite Hm, bool_decide_eq_true_2 by done.
      by rewrite (no_title _ _ is_).
    + unfold has_layid at 1. rewrite Hm, bool_decide_eq_false_2; [by apply (IH is_)|].
      intros Heq%(inj Some)%layid_inj. apply Hg. rewrite Heq. by apply list_elem_of_fmap_2.
  - unfold has_layid at 1. rewrite bool_decide_eq_false_2 by apply Hm. by apply (IH is_).
Qed.

Lemma drop_last_snoc a c : drop_last (a +:+ String c "") = a.
Proof.
  unfold drop_last.
  assert (String.length (a +:+ String c "") = S (String.length a)) as ->.
  { induction a as [|x a IH]; [done|]. rewrite app_string_cons. simpl in *. lia. }
  simpl. rewrite Nat.sub_0_r.
  induction a as [|x a IH]; [done|]. rewrite app_string_cons. simpl. by rewrite IH.
Qed.

Lemma find_frame_frames x s s' : frames s = frames s' -> find_frame x s = find_frame x s'.
Proof. unfold find_frame, frames. by intros ->. Qed.

(** ** Properties *)

(** C35.  [addNav] appends to the side bar the markup of the table's forest: one
    [li] per connected row, in preorder, holding its link and, when it has
    children, a [dl] with theirs; every tag it opens is closed in order.  The
    [element.init] call follows.  This holds for every table where each parent
    id designates at most one row. *)
Theorem addNav_renders_forest fuel nf data top idn pidn noden urln nav :
  parents_unique data (js_or idn (JStr "id")) (js_or pidn (JStr "pid")) ->
  (2 + length data <= fuel)%nat ->
  let t := fortree_new data (js_or idn (JStr "id")) (js_or pidn (JStr "pid"))
             (js_or top (JNum 0)) in
  exists l, Forall (tree_ok t) l /\ root <$> l = father t /\
    let toks := flat_map (nav_tokens (to_string (js_or urln (JStr "url")))
                  (to_string (js_or noden (JStr "node")))
                  (to_string (js_or idn (JStr "id")))) l in
    addNav fuel nf data top idn pidn noden urln nav
    = Some (mk_navbar (nav_html nav +:+ render toks)
              (nav_inits nav ++ ["nav(" +:+ nf +:+ ")"])) /\
    nest [] toks = Some [].
Proof.
  intros Hu Hf t. destruct (each_total data _ _ (js_or top (JNum 0)) Hu)
    as (l & Hok & Hr & Hrun).
  exists l. split; [done|]. split; [done|]. cbv zeta. split.
  - unfold addNav. cbv zeta. rewrite Hrun by done. simpl.
    rewrite iter_nav; [done|]. apply Forall_true. intros tr i s. apply run_nav.
  - apply nest_forest.
Qed.

(** C19.  [addTab] keeps the tab bar consistent (titles and contents aligned, no
    two iframes with the same id or index) provided a tab that is new gets a
    time stamp no open tab carries; afterwards the iframes are the other ids'
    in their order followed by the new one, and its tab, the last, is the only
    one shown. *)
Theorem addTab_correct now tmp ti src id s :
  tab_inv s -> (find_frame id s = None -> fresh now s) ->
  let s' := addTab now tmp ti (Some src) (Some id) s in
  tab_inv s' /\
  frames s' = filter (fun f => f_id f <> id) (frames s) ++ [new_frame now tmp src id s] /\
  exists n, t_this <$> tb_titles s' = last_only n /\ i_show <$> tb_items s' = last_only n.
Proof.
  intros Hinv Hfresh s'. split_and!.
  - apply addTab_inv; [done|]. by intros x [= <-].
  - by apply addTab_frames.
  - exists (length (layids (clear_tab id s))). subst s'.
    pose proof (clear_inv id s Hinv) as Hc.
    pose proof (aligned_not_layid _ _ Hc (new_tabindex_fresh now id s Hinv Hfresh)) as Hno.
    pose proof (addTab_layids now tmp ti src id s) as Hl.
    pose proof (addTab_contents now tmp ti src id s) as Hi.
    unfold addTab in *. rewrite this_hide. rewrite layids_hide in Hl.
    rewrite layids_tabChange in Hl. rewrite contents_hide, contents_tabChange in Hi.
    apply tabChange_last.
    + rewrite has_layid_layids, Hl, fmap_app. unfold new_tabindex in *. rewrite Hno.
      simpl. by rewrite bool_decide_eq_true_2.
    + apply (f_equal length) in Hi. unfold contents at 1 in Hi.
      rewrite length_fmap, length_app in Hi. rewrite Hi. simpl.
      by rewrite (Forall2_length _ _ _ (inv_aligned _ Hc)).
Qed.

(** [closeTab] without a tab to refresh removes the iframe with that id and
    no other, and keeps the tab bar consistent. *)
Theorem closeTab_correct now tmp id s :
  tab_inv s ->
  let s' := closeTab now tmp id None s in
  tab_inv s' /\ frames s' = filter (fun f => f_id f <> id) (frames s).
Proof. intros Hinv. split; [by apply (clear_inv id s)|by apply (frames_clear id s)]. Qed.

(** With a tab [r] to refresh that is still open after closing [id],
    [closeTab] reopens [r] at the end of the bar with the same address, tab
    index and, when its title carries layui's close icon, the same title: the
    last character dropped from the title's text is that icon. *)
Theorem closeTab_refreshes now tmp id r f s :
  tab_inv s -> r <> "" -> find_frame r (clear_tab id s) = Some f ->
  let s' := closeTab now tmp id (Some r) s in
  tab_inv s' /\
  frames s' = filter (fun g => f_id g <> r) (filter (fun g => f_id g <> id) (frames s))
    ++ [mk_frame (f_src f) r (f_tabindex f) (tb_height s) tmp] /\
  exists t, List.filter (has_layid (layid (f_tabindex f))) (tb_titles (clear_tab id s)) = [t] /\
    (is_Some (t_close t) ->
     layid_text (layid (f_tabindex f)) (clear_tab id s) = t_text t +:+ close_glyph /\
     s' = addTab now tmp (t_text t) (Some (f_src f)) (Some r) (clear_tab id s)).
Proof.
  intros Hinv Hr Hf s'. pose proof (clear_inv id s Hinv) as Hc.
  assert (s' = addTab now tmp (drop_last (layid_text (layid (f_tabindex f)) (clear_tab id s)))
            (Some (f_src f)) (Some r) (clear_tab id s)) as Hs'.
  { subst s'. unfold closeTab. change (match find_frame id s with
      Some f0 => remove_tab (f_tabindex f0) s | None => s end) with (clear_tab id s).
    apply String.eqb_neq in Hr. by rewrite Hr, Hf. }
  rewrite Hs'. split_and!.
  - apply addTab_inv; [done|]. intros x [= <-]. by rewrite Hf.
  - rewrite addTab_frames, frames_clear by done. f_equal. unfold new_frame, new_tabindex.
    rewrite Hf. unfold clear_tab. by destruct (find_frame id s).
  - destruct Hc as [Ha _ Hnd]. apply find_frame_Some in Hf as [_ Hin].
    destruct (one_title f _ _ Ha Hnd Hin) as (t & Ht). exists t. split; [done|].
    intros [b Hb].
    assert (layid_text (layid (f_tabindex f)) (clear_tab id s) = t_text t +:+ close_glyph)
      as Htext.
    { unfold layid_text. rewrite Ht. simpl. unfold title_text. rewrite Hb.
      apply app_string_nil_r. }
    split; [done|]. rewrite Htext. unfold close_glyph. by rewrite drop_last_snoc.
Qed.

(** ** Concrete runs *)

(** A closable bar holding only the start page. *)
Definition start_bar : tabbar :=
  mk_tabbar true [mk_title None "home" (Some true) true] [mk_item None true] 500 [] [].

Definition two_tabs : tabbar :=
  addTab 1001 2 "posts" (Some "/post") (Some "p")
    (addTab 1000 1 "users" (Some "/user") (Some "u") start_bar).

Lemma start_inv : tab_inv start_bar.
Proof. split; [by repeat constructor|apply NoDup_nil_2..]. Qed.

Lemma two_tabs_inv : tab_inv two_tabs.
Proof.
  unfold two_tabs. apply addTab_inv; [apply addTab_inv; [apply start_inv|]|];
    intros x _ _; unfold fresh; apply (bool_decide_unpack _); vm_compute; exact I.
Qed.

Lemma addNav_renders_forest_witness :
  exists l, addNav 8 "side" sample JUndef JUndef JUndef JUndef JUndef (mk_navbar "" [])
    = Some (mk_navbar (render (flat_map (nav_tokens "url" "node" "id") l)) ["nav(side)"]).
Proof.
  destruct (addNav_renders_forest 8 "side" sample JUndef JUndef JUndef JUndef JUndef
    (mk_navbar "" []) sample_unique) as (l & _ & _ & H & _); [simpl; lia|].
  exists l. exact H.
Defined.

Lemma addTab_correct_witness :
  frames (addTab 1002 3 "posts" (Some "/post") (Some "p") two_tabs)
  = [mk_frame "/user" "u" "1000" 500 1; mk_frame "/post" "p" "1001" 500 3].
Proof.
  destruct (addTab_correct 1002 3 "posts" "/post" "p" two_tabs two_tabs_inv)
    as (_ & H & _); [intros; by vm_compute in *|].
  rewrite H. vm_compute. reflexivity.
Defined.

Lemma closeTab_correct_witness :
  frames (closeTab 1002 3 "u" None two_tabs) = [mk_frame "/post" "p" "1001" 500 2].
Proof.
  destruct (closeTab_correct 1002 3 "u" two_tabs two_tabs_inv) as [_ H].
  rewrite H. vm_compute. reflexivity.
Defined.

Lemma closeTab_refreshes_witness :
  frames (closeTab 1002 3 "u" (Some "p") two_tabs) = [mk_frame "/post" "p" "1001" 500 3].
Proof.
  destruct (closeTab_refreshes 1002 3 "u" "p" (mk_frame "/post" "p" "1001" 500 2) two_tabs
    two_tabs_inv) as (_ & H & _); [done|vm_compute; reflexivity|].
  rewrite H. vm_compute. reflexivity.
Defined.

(** Two tabs opened in the same millisecond share their index, and closing one
    of them closes both: the freshness hypothesis cannot be dropped. *)
Example same_millisecond :
  frames (closeTab 1002 3 "u" None
    (addTab 1000 2 "posts" (Some "/post") (Some "p")
      (addTab 1000 1 "users" (Some "/user") (Some "u") start_bar))) = [].
Proof. vm_compute. reflexivity. Qed.
