(* ===== verification/Panels.v ===== *)
(** * [global.js]: the sliding panels of the blog

    Models [2019104279/src/static/js/global.js].  The script shows and hides the
    share box, the side navigation with its mask, and the category list by
    exchanging classes; hiding completes in a handler of the panel's
    animation-end event, bound by every [...Out] function and unbound by the
    matching [...In].  An element is its class list with the number of copies of
    that handler bound to it (all copies bound to one element are the same
    function).  The templates under [2019104279/src/views/blog] hold one element
    per class used here, except [.blog-user] and [.child-nav span]. *)

From S2P Require Import JsValue.

(** An element: its classes and its bound animation-end handlers. *)
Record panel := mk_panel { classes : list string; handlers : nat }.

Definition on_classes (f : list string -> list string) (p : panel) : panel :=
  mk_panel (f (classes p)) (handlers p).
Definition bind_end (p : panel) : panel := mk_panel (classes p) (1 + handlers p).
Definition unbind_end (p : panel) : panel := mk_panel (classes p) 0.

Record page := mk_page {
  share : panel;
  mask : panel;
  nav_left : panel;
  category : panel;
  toggle : panel;
}.

Definition set_share f s :=
  mk_page (f (share s)) (mask s) (nav_left s) (category s) (toggle s).
Definition set_mask f s :=
  mk_page (share s) (f (mask s)) (nav_left s) (category s) (toggle s).
Definition set_nav_left f s :=
  mk_page (share s) (mask s) (f (nav_left s)) (category s) (toggle s).
Definition set_category f s :=
  mk_page (share s) (mask s) (nav_left s) (f (category s)) (toggle s).
Definition set_toggle f s :=
  mk_page (share s) (mask s) (nav_left s) (category s) (f (toggle s)).

(** [new RegExp('layui-hide').test(el.attr('class'))]: the pattern has no blank,
    so it occurs in the attribute exactly when it occurs in one of the classes. *)
Definition contains (pat s : string) : bool :=
  match String.index 0 pat s with Some _ => true | None => false end.
Definition test_hidden (p : panel) : bool := existsb (contains "layui-hide") (classes p).

(** ** The functions of the script *)

Definition shareIn : page -> page := set_share (fun p =>
  on_classes (fun c =>
    addClass "layui-show" (removeClass "layui-hide"
      (addClass "shareIn" (removeClass "shareOut" c)))) (unbind_end p)).

Definition shareOut : page -> page := set_share (fun p =>
  on_classes (fun c =>
    removeClass "layui-show" (addClass "shareOut" (removeClass "shareIn" c)))
    (bind_end p)).

(** The animation-end handler [shareOut] binds. *)
Definition share_end : page -> page := set_share (on_classes (addClass "layui-hide")).

Definition leftIn (s : page) : page :=
  let s := set_mask unbind_end s in
  let s := set_nav_left unbind_end s in
  let s := set_mask (on_classes (fun c =>
    addClass "layui-show" (removeClass "layui-hide"
      (addClass "maskIn" (removeClass "maskOut" c))))) s in
  set_nav_left (on_classes (fun c =>
    addClass "layui-show" (removeClass "layui-hide"
      (addClass "leftIn" (removeClass "leftOut" c))))) s.

Definition leftOut (s : page) : page :=
  let s := set_mask bind_end s in
  let s := set_nav_left bind_end s in
  let s := set_mask (on_classes (fun c =>
    removeClass "layui-show" (addClass "maskOut" (removeClass "maskIn" c)))) s in
  set_nav_left (on_classes (fun c =>
    removeClass "layui-show" (addClass "leftOut" (removeClass "leftIn" c)))) s.

Definition mask_end : page -> page := set_mask (on_classes (addClass "layui-hide")).
Definition nav_left_end : page -> page := set_nav_left (on_classes (addClass "layui-hide")).

Definition categroyIn (s : page) : page :=
  let s := set_toggle (on_classes (addClass "layui-hide")) s in
  let s := set_category unbind_end s in
  set_category (on_classes (fun c =>
    addClass "layui-show" (addClass "categoryIn" (removeClass "categoryOut" c)))) s.

Definition categoryOut (s : page) : page :=
  let s := set_category bind_end s in
  set_category (on_classes (fun c =>
    addClass "categoryOut" (removeClass "categoryIn" c))) s.

Definition category_end (s : page) : page :=
  let s := set_category (on_classes (removeClass "layui-show")) s in
  set_toggle (on_classes (removeClass "layui-hide")) s.

(** ** Events *)

(** Clicks on the six elements the script listens to, and the animation-end
    event of the four animated panels. *)
Inductive event :=
  | ClickBar1 | ClickNavicon | ClickMask | ClickBody | ClickToggle | ClickCategory
  | EndShare | EndMask | EndNavLeft | EndCategory.

#[export] Instance event_eq_dec : EqDecision event.
Proof. solve_decision. Defined.

Definition step (e : event) (s : page) : page :=
  match e with
  | ClickBar1 => if test_hidden (share s) then shareIn s else shareOut s
  | ClickNavicon => if test_hidden (nav_left s) then leftIn s else leftOut s
  | ClickMask => leftOut s
  | ClickBody => categoryOut (shareOut s)
  | ClickToggle => categroyIn s
  | ClickCategory => categoryOut s
  | EndShare => Nat.iter (handlers (share s)) share_end s
  | EndMask => Nat.iter (handlers (mask s)) mask_end s
  | EndNavLeft => Nat.iter (handlers (nav_left s)) nav_left_end s
  | EndCategory => Nat.iter (handlers (category s)) category_end s
  end.

(** The markup of the templates [foot.html] and [right.html]. *)
Definition initial : page :=
  mk_page (mk_panel ["blog-share"; "layui-hide"] 0)
    (mk_panel ["blog-mask"; "animated"; "layui-hide"] 0)
    (mk_panel ["layui-nav"; "layui-nav-tree"; "layui-nav-side"; "blog-nav-left"; "layui-hide"] 0)
    (mk_panel ["article-category"; "shadow"] 0)
    (mk_panel ["category-toggle"] 0).

Inductive reachable : page -> Prop :=
  | reach_initial : reachable initial
  | reach_step e s : reachable s -> reachable (step e s).

(** ** The two small handlers of the script *)

(** [.blog-user]: after a click, and 800 ms, the clicked element and its
    siblings of that class toggle [layui-hide]; all of them are siblings. *)
Definition user_timeout (users : list (list string)) : list (list string) :=
  toggleClass "layui-hide" <$> users.

(** [.child-nav span]: the clicked tab is marked, its siblings are not. *)
Definition child_nav_click (i : nat) (tabs : list (list string)) : list (list string) :=
  imap (fun j c => if decide (i = j) then addClass "child-nav-btn-this" c
                   else removeClass "child-nav-btn-this" c) tabs.

(** ** Invariants *)

(** A panel that is shown waits for no hiding handler and is not hidden. *)
Definition shown_safe (p : panel) : Prop :=
  "layui-show" ∈ classes p -> handlers p = 0%nat /\ "layui-hide" ∉ classes p.

Record page_inv (s : page) : Prop := {
  inv_share : shown_safe (share s);
  inv_mask : shown_safe (mask s);
  inv_nav_left : shown_safe (nav_left s);
  inv_together : "layui-show" ∈ classes (mask s) <-> "layui-show" ∈ classes (nav_left s);
  inv_category : "categoryIn" ∈ classes (category s) -> handlers (category s) = 0%nat;
  inv_toggle : "layui-hide" ∈ classes (toggle s) <-> "layui-show" ∈ classes (category s);
}.

(** Rewrite membership in class lists, then decide. *)
Ltac classes_solver :=
  simpl in *; autorewrite with js in *; naive_solver.

Lemma iter_id {A} (f : A -> A) (P : A -> Prop) n x :
  P x -> (forall y, P y -> P (f y)) -> P (Nat.iter n f x).
Proof. intros Hx Hf. induction n; simpl; auto. Qed.

Ltac panel_cases :=
  repeat match goal with
  | H : page_inv _ |- _ => destruct H
  end;
  constructor; unfold shown_safe in *; simpl in *; autorewrite with js in *;
  naive_solver (auto with lia).

Lemma initial_inv : page_inv initial.
Proof.
  constructor; unfold shown_safe, initial; simpl; rewrite ?elem_of_cons, ?elem_of_nil;
    naive_solver.
Qed.

Lemma shareIn_inv s : page_inv s -> page_inv (shareIn s).
Proof. intros. panel_cases. Qed.
Lemma shareOut_inv s : page_inv s -> page_inv (shareOut s).
Proof. intros. panel_cases. Qed.
Lemma leftIn_inv s : page_inv s -> page_inv (leftIn s).
Proof. intros. panel_cases. Qed.
Lemma leftOut_inv s : page_inv s -> page_inv (leftOut s).
Proof. intros. panel_cases. Qed.
Lemma categroyIn_inv s : page_inv s -> page_inv (categroyIn s).
Proof. intros. panel_cases. Qed.
Lemma categoryOut_inv s : page_inv s -> page_inv (categoryOut s).
Proof. intros. panel_cases. Qed.
Lemma share_end_inv s : handlers (share s) <> 0%nat -> page_inv s -> page_inv (share_end s).
Proof. intros. panel_cases. Qed.
Lemma mask_end_inv s : handlers (mask s) <> 0%nat -> page_inv s -> page_inv (mask_end s).
Proof. intros. panel_cases. Qed.
Lemma nav_left_end_inv s :
  handlers (nav_left s) <> 0%nat -> page_inv s -> page_inv (nav_left_end s).
Proof. intros. panel_cases. Qed.
Lemma category_end_inv s : page_inv s -> page_inv (category_end s).
Proof. intros. panel_cases. Qed.

(** Running all the bound copies of a handler [f] that keeps their number. *)
Lemma iter_handlers (get : page -> panel) (f : page -> page) s :
  (forall s, handlers (get (f s)) = handlers (get s)) ->
  (forall s, handlers (get s) <> 0%nat -> page_inv s -> page_inv (f s)) ->
  page_inv s -> page_inv (Nat.iter (handlers (get s)) f s).
Proof.
  intros Hh Hf Hs. destruct (decide (handlers (get s) = 0%nat)) as [->|Hn]; [done|].
  apply (iter_id f (fun s => handlers (get s) <> 0%nat /\ page_inv s)); [done|].
  intros y [Hy Hi]. rewrite Hh. auto.
Qed.

#[local] Hint Resolve shareIn_inv shareOut_inv leftIn_inv leftOut_inv categroyIn_inv
  categoryOut_inv share_end_inv mask_end_inv nav_left_end_inv category_end_inv : js.

Lemma step_inv e s : page_inv s -> page_inv (step e s).
Proof.
  intros H. destruct e; simpl; try case_match; auto with js;
    apply iter_handlers; auto with js.
Qed.

Lemma reachable_inv s : reachable s -> page_inv s.
Proof. induction 1; [apply initial_inv|by apply step_inv]. Qed.

(** ** The class vocabulary *)

(** Every class the templates and the script put on a panel: the only one in
    which the pattern [layui-hide] occurs is that class itself. *)
Definition vocabulary : list string :=
  ["blog-share"; "blog-mask"; "animated"; "layui-nav"; "layui-nav-tree"; "layui-nav-side";
   "blog-nav-left"; "article-category"; "shadow"; "category-toggle"; "layui-hide";
   "layui-show"; "shareIn"; "shareOut"; "maskIn"; "maskOut"; "leftIn"; "leftOut";
   "categoryIn"; "categoryOut"].

Definition panel_known (p : panel) : Prop := classes p ⊆ vocabulary.

Definition page_known (s : page) : Prop :=
  panel_known (share s) /\ panel_known (mask s) /\ panel_known (nav_left s) /\
  panel_known (category s) /\ panel_known (toggle s).

Lemma known_add c l : c ∈ vocabulary -> l ⊆ vocabulary -> addClass c l ⊆ vocabulary.
Proof. intros Hc Hl x [->|Hx]%elem_of_addClass; auto. Qed.

Lemma known_remove c l : l ⊆ vocabulary -> removeClass c l ⊆ vocabulary.
Proof. intros Hl x [_ Hx]%elem_of_removeClass. auto. Qed.

Lemma in_vocabulary c : bool_decide (c ∈ vocabulary) = true -> c ∈ vocabulary.
Proof. apply bool_decide_eq_true_1. Qed.

#[local] Hint Resolve known_add known_remove : js.
#[local] Hint Extern 1 (_ ∈ vocabulary) => (apply in_vocabulary; reflexivity) : js.

Lemma step_known e s : page_known s -> page_known (step e s).
Proof.
  intros H. destruct e; simpl; try case_match;
    try apply (iter_id _ page_known); try exact H; intros;
    repeat match goal with H : page_known _ |- _ => destruct H as (?&?&?&?&?) end;
    unfold page_known, panel_known in *; simpl in *; split_and!; eauto 8 with js.
Qed.

Lemma list_subseteq_forall (l k : list string) : Forall (fun x => x ∈ k) l -> l ⊆ k.
Proof. intros Hl x Hx. by eapply Forall_forall in Hl. Qed.

Lemma reachable_known s : reachable s -> page_known s.
Proof.
  induction 1; [|by apply step_known].
  unfold page_known, panel_known.
  split_and!; apply list_subseteq_forall; apply (bool_decide_unpack _); vm_compute; exact I.
Qed.

Lemma vocabulary_hidden :
  Forall (fun c => contains "layui-hide" c = true -> c = "layui-hide") vocabulary.
Proof. apply (bool_decide_unpack _). vm_compute. exact I. Qed.

(** On known classes the regular expression tests for the class itself. *)
Lemma test_hidden_spec p :
  panel_known p -> test_hidden p = bool_decide ("layui-hide" ∈ classes p).
Proof.
  intros Hp. unfold test_hidden. apply eq_bool_prop_intro.
  rewrite bool_decide_spec, !Is_true_true, existsb_exists.
  pose proof vocabulary_hidden as Hv. rewrite Forall_forall in Hv.
  setoid_rewrite <- list_elem_of_In. split.
  - intros (c & Hc & Ht). apply Hv in Ht; [by subst|by apply Hp].
  - intros Hc. by exists "layui-hide".
Qed.

(** ** Properties *)

Definition run (es : list event) (s : page) : page := fold_left (fun s e => step e s) es s.

Lemma run_reachable es s : reachable s -> reachable (run es s).
Proof.
  revert s; induction es as [|e es IH]; intros s Hs; [done|]. by apply IH, reach_step.
Qed.

(** The events that are not user actions. *)
Definition is_end (e : event) : bool :=
  bool_decide (e ∈ [EndShare; EndMask; EndNavLeft; EndCategory]).

(** C37. In every reachable page the share panel, the mask and the navigation wait for no hiding
    handler and are not hidden while they are shown (the category list may), mask and navigation
    are shown together, and the button that opens the category list is hidden exactly while the
    list is shown. *)
Theorem panels_consistent s :
  reachable s ->
  shown_safe (share s) /\ shown_safe (mask s) /\ shown_safe (nav_left s) /\
  ("layui-show" ∈ classes (mask s) <-> "layui-show" ∈ classes (nav_left s)) /\
  ("layui-hide" ∈ classes (toggle s) <-> "layui-show" ∈ classes (category s)).
Proof. intros []%reachable_inv. done. Qed.

Lemma iter_get {A} (get : page -> A) (f : page -> page) n s :
  (forall s, get (f s) = get s) -> get (Nat.iter n f s) = get s.
Proof. intros Hf. induction n as [|n IH]; simpl; [done|]. by rewrite Hf. Qed.

Ltac end_case :=
  first [ match goal with H : handlers _ = 0%nat |- _ => rewrite H; done end
        | apply iter_get; done ].

Lemma end_share e s :
  is_end e = true -> handlers (share s) = 0%nat -> share (step e s) = share s.
Proof. intros He Hh. destruct e; try done; simpl; end_case. Qed.

Lemma end_nav_left e s :
  is_end e = true -> handlers (nav_left s) = 0%nat -> nav_left (step e s) = nav_left s.
Proof. intros He Hh. destruct e; try done; simpl; end_case. Qed.

Lemma end_mask e s :
  is_end e = true -> handlers (mask s) = 0%nat -> mask (step e s) = mask s.
Proof. intros He Hh. destruct e; try done; simpl; end_case. Qed.

Lemma end_category e s :
  is_end e = true -> handlers (category s) = 0%nat ->
  category (step e s) = category s /\ toggle (step e s) = toggle s.
Proof. intros He Hh. destruct e; try done; simpl; split; end_case. Qed.

(** A component [get] without handlers is kept by any run of end events. *)
Lemma run_end {A} (get : page -> A) (quiet : page -> Prop) es s :
  (forall e s, is_end e = true -> quiet s -> get (step e s) = get s /\ quiet (step e s)) ->
  Forall (fun e => is_end e = true) es -> quiet s -> get (run es s) = get s.
Proof.
  intros Hq Hes. revert s; induction Hes as [|e es He _ IH]; intros s Hs; [done|]. simpl.
  destruct (Hq e s He Hs) as [Hget Hs']. by rewrite <- Hget, IH.
Qed.

(** A panel the user opened stays as it is until the user acts: whatever
    animation-end events follow, in whatever order, an open share box, side
    navigation (with its mask) or category list (with its button) is unchanged. *)
Theorem panels_stay_open s es :
  reachable s -> Forall (fun e => is_end e = true) es ->
  ("layui-show" ∈ classes (share s) -> share (run es s) = share s) /\
  ("layui-show" ∈ classes (nav_left s) ->
   nav_left (run es s) = nav_left s /\ mask (run es s) = mask s) /\
  ("categoryIn" ∈ classes (category s) ->
   category (run es s) = category s /\ toggle (run es s) = toggle s).
Proof.
  intros [H1 H2 H3 H4 H5 H6]%reachable_inv Hes. split_and!.
  - intros [Hh _]%H1. apply (run_end _ (fun s => handlers (share s) = 0%nat)); [|done..].
    intros e y He Hy. by rewrite !(end_share e y).
  - intros Hn. pose proof (proj2 H4 Hn) as [Hm _]%H2. apply H3 in Hn as [Hn _]. split.
    + apply (run_end _ (fun s => handlers (nav_left s) = 0%nat)); [|done..].
      intros e y He Hy. by rewrite !(end_nav_left e y).
    + apply (run_end _ (fun s => handlers (mask s) = 0%nat)); [|done..].
      intros e y He Hy. by rewrite !(end_mask e y).
  - intros Hh%H5. split; apply (run_end _ (fun s => handlers (category s) = 0%nat)); try done;
      intros e y He Hy; destruct (end_category e y He Hy) as [Hc Ht]; by rewrite ?Hc, ?Ht.
Qed.

(** A click on the page body followed by the end of the share box's
    animation hides the share box, and the next click on the share button shows
    it again, whatever happened before. *)
Theorem share_reopens s :
  reachable s ->
  let s1 := run [ClickBody; EndShare] s in
  let s2 := step ClickBar1 s1 in
  "layui-hide" ∈ classes (share s1) /\ "layui-show" ∉ classes (share s1) /\
  "layui-show" ∈ classes (share s2) /\ "layui-hide" ∉ classes (share s2) /\
  handlers (share s2) = 0%nat.
Proof.
  intros Hs s1 s2.
  assert (reachable s1) as Hs1 by (by apply run_reachable).
  assert ("layui-hide" ∈ classes (share s1)) as Hhide.
  { subst s1. simpl. apply elem_of_addClass. by left. }
  assert (s2 = shareIn s1) as Hs2.
  { subst s2. unfold step. rewrite test_hidden_spec by apply (reachable_known _ Hs1).
    by rewrite bool_decide_eq_true_2. }
  assert ("layui-show" ∈ classes (share s2)) as Hshow.
  { rewrite Hs2. simpl. autorewrite with js. by left. }
  split_and!; try done.
  - intros Hsh. by apply (inv_share _ (reachable_inv _ Hs1)) in Hsh as [_ ?].
  - apply reach_step with (e := ClickBar1) in Hs1.
    by apply (inv_share _ (reachable_inv _ Hs1)) in Hshow as [_ ?].
  - by rewrite Hs2.
Qed.

Lemma end_handlers e s :
  is_end e = true ->
  handlers (share (step e s)) = handlers (share s) /\
  handlers (category (step e s)) = handlers (category s).
Proof.
  intros He. destruct e; try done; simpl; split;
    first [ apply (iter_get (fun s => handlers (share s))); done
          | apply (iter_get (fun s => handlers (category s))); done ].
Qed.

(** Hiding functions bind one more animation-end handler at every call and
    the end of an animation unbinds none: after any sequence of clicks on the
    page body and animation ends, the share box and the category list carry as
    many more handlers as there were clicks. *)
Theorem body_clicks_accumulate s es :
  Forall (fun e => e = ClickBody \/ is_end e = true) es ->
  let n := length (filter (fun e => e = ClickBody) es) in
  handlers (share (run es s)) = (n + handlers (share s))%nat /\
  handlers (category (run es s)) = (n + handlers (category s))%nat.
Proof.
  intros Hes. cbv zeta. revert s. induction Hes as [|e es He _ IH]; intros s; [done|].
  simpl. rewrite filter_cons. destruct (IH (step e s)) as [-> ->].
  destruct He as [->|He]; [rewrite decide_True by done; simpl; lia|].
  destruct (end_handlers e s He) as [-> ->].
  rewrite decide_False by (by intros ->). done.
Qed.

(** Among [.blog-user] elements of which exactly one is visible at first
    (two of them: logged out and logged in), exactly one stays visible after any
    number of clicks. *)
Theorem one_user_visible a b n :
  ("layui-hide" ∈ a <-> "layui-hide" ∉ b) ->
  exists a' b', Nat.iter n user_timeout [a; b] = [a'; b'] /\
    ("layui-hide" ∈ a' <-> "layui-hide" ∉ b').
Proof.
  intros H. induction n as [|n (a' & b' & Heq & IH)]; [by exists a, b|].
  exists (toggleClass "layui-hide" a'), (toggleClass "layui-hide" b'). simpl.
  rewrite Heq. split; [done|]. autorewrite with js. destruct (decide ("layui-hide" ∈ a'));
    naive_solver.
Qed.

(** ** Concrete runs *)

Lemma initial_reach : reachable initial.
Proof. constructor. Qed.

Lemma panels_consistent_witness :
  shown_safe (share (run [ClickBar1; ClickBody; ClickBar1] initial)).
Proof.
  destruct (panels_consistent (run [ClickBar1; ClickBody; ClickBar1] initial)
    (run_reachable _ _ initial_reach)) as [H _]. exact H.
Defined.

Lemma panels_stay_open_witness :
  share (run [EndMask; EndShare] (step ClickBar1 initial)) = share (step ClickBar1 initial).
Proof.
  destruct (panels_stay_open (step ClickBar1 initial) [EndMask; EndShare]
    (reach_step _ _ initial_reach)) as [H _].
  - repeat constructor.
  - apply H. apply (bool_decide_unpack _). vm_compute. exact I.
Defined.

Lemma share_reopens_witness :
  "layui-show" ∈ classes (share (run [ClickBody; EndShare; ClickBar1] initial)).
Proof. destruct (share_reopens initial initial_reach) as (_ & _ & H & _). exact H. Defined.

Lemma body_clicks_accumulate_witness :
  handlers (share (run [ClickBody; EndShare; ClickBody; EndCategory] initial)) = 2%nat.
Proof.
  destruct (body_clicks_accumulate initial [ClickBody; EndShare; ClickBody; EndCategory])
    as [H _]; [apply (bool_decide_unpack _); vm_compute; exact I|exact H].
Defined.

Lemma one_user_visible_witness :
  exists a b, Nat.iter 3 user_timeout [["blog-user"]; ["blog-user"; "layui-hide"]] = [a; b].
Proof.
  destruct (one_user_visible ["blog-user"] ["blog-user"; "layui-hide"] 3) as (a & b & H & _).
  - split; [intros Hin|intros []; right; left].
    by apply elem_of_cons in Hin as [Hin|[]%not_elem_of_nil].
  - by exists a, b.
Defined.
