(* ===== verification/Banner.v ===== *)
(** * [home.js]: announcements and the animated banner of the home page

    Models [2019104279/src/static/js/home.js].  Positions, speeds and radii are
    IEEE binary64 numbers, as in the browser: the executable specification of
    the Standard Library ([SpecFloat]) at precision 53 and exponent bound 1024.
    [Math.random] is an oracle [rnd] indexed by the number of earlier draws; the
    canvas receives a list of drawing operations. *)

From S2P Require Import JsValue.
From Stdlib Require Import SpecFloat.

(** ** Binary64 arithmetic *)

Abbreviation float := spec_float.
Definition fadd : float -> float -> float := SFadd 53 1024.
Definition fsub : float -> float -> float := SFsub 53 1024.
Definition fmul : float -> float -> float := SFmul 53 1024.
Definition fdiv : float -> float -> float := SFdiv 53 1024.
Definition fopp : float -> float := SFopp.
Definition fltb : float -> float -> bool := SFltb.
Definition of_Z (n : Z) : float := binary_normalize 53 1024 n 0 false.

(** [-.5]. *)
Definition minus_half : float := fopp (fdiv (of_Z 1) (of_Z 2)).

(** [Math.floor], as the integer it returns; [None] on NaN and infinities. *)
Definition floor (x : float) : option Z :=
  match x with
  | S754_zero _ => Some 0
  | S754_finite s m e =>
      let v := if s then Zneg m else Zpos m in
      Some (if 0 <=? e then v * 2 ^ e else v / 2 ^ (- e))
  | _ => None
  end.

Definition show_num (n : option Z) : string :=
  match n with Some n => pretty n | None => "NaN" end.

(** ** Announcements *)

(** The interval handler: the index of the [span] to fade in, the others fading
    out. *)
Definition announcement_tick (len : nat) (index : nat) : nat :=
  let index := S index in
  if (len <=? index)%nat then 0%nat else index.

(** ** The banner *)

Record color := mk_color { c_r : option Z; c_g : option Z; c_b : option Z }.

Record dot := mk_dot {
  x : float; y : float; vx : float; vy : float; radius : float; d_color : color
}.

Record dots := mk_dots {
  d_count : nat; d_distance : Z; d_radius : Z; d_array : list dot
}.

Inductive draw_op :=
  | Clear (w h : float)
  | Line (style : string) (x1 y1 x2 y2 : float)
  | Disc (x y r : float).

(** [dotCount, dotRadius, dotDistance] for a screen width. *)
Definition dot_params (screenWidth : Z) : nat * Z * Z :=
  if (768 <=? screenWidth) && (screenWidth <? 992) then (130%nat, 100, 60)
  else if (992 <=? screenWidth) && (screenWidth <? 1200) then (140%nat, 140, 70)
  else if (1200 <=? screenWidth) && (screenWidth <? 1700) then (140%nat, 150, 80)
  else if 1700 <=? screenWidth then (200%nat, 150, 80)
  else (20%nat, 70, 70).

Definition colorValue (random : float) (min : Z) : option Z :=
  floor (fadd (fmul random (of_Z 255)) (of_Z min)).

Definition createColorStyle (r g b : option Z) : string :=
  "rgba(" +:+ show_num r +:+ "," +:+ show_num g +:+ "," +:+ show_num b +:+ ", 0.8)".

Definition num (n : option Z) : float :=
  match n with Some n => of_Z n | None => S754_nan end.

Definition mixComponents (comp1 : option Z) (weight1 : float) (comp2 : option Z)
    (weight2 : float) : float :=
  fdiv (fadd (fmul (num comp1) weight1) (fmul (num comp2) weight2)) (fadd weight1 weight2).

Definition averageColorStyles (dot1 dot2 : dot) : string :=
  let color1 := d_color dot1 in
  let color2 := d_color dot2 in
  let r := mixComponents (c_r color1) (radius dot1) (c_r color2) (radius dot2) in
  let g := mixComponents (c_g color1) (radius dot1) (c_g color2) (radius dot2) in
  let b := mixComponents (c_b color1) (radius dot1) (c_b color2) (radius dot2) in
  createColorStyle (floor r) (floor g) (floor b).

Section random.
Context (rnd : nat -> float).

(** [new Color(min)] after [k] draws; three more are made. *)
Definition Color (k : nat) (min : Z) : color :=
  mk_color (colorValue (rnd k) min) (colorValue (rnd (1 + k)%nat) min)
    (colorValue (rnd (2 + k)%nat) min).

(** [new Dot()] after [k] draws; eight more are made. *)
Definition Dot (width height : float) (k : nat) : dot :=
  mk_dot (fmul (rnd k) width) (fmul (rnd (1 + k)%nat) height)
    (fadd minus_half (rnd (2 + k)%nat)) (fadd minus_half (rnd (3 + k)%nat))
    (fmul (rnd (4 + k)%nat) (of_Z 2)) (Color (5 + k) 0).

Definition createDots (width height : float) (k : nat) (ds : dots) : dots :=
  mk_dots (d_count ds) (d_distance ds) (d_radius ds)
    (d_array ds ++ ((fun i => Dot width height (k + 8 * i)) <$> seq 0 (d_count ds))).
End random.

(** The body of the loop of [moveDots]. *)
Definition move_dot (width height : float) (d : dot) : dot :=
  let d :=
    if fltb (y d) (of_Z 0) || fltb height (y d)
    then mk_dot (x d) (y d) (vx d) (fopp (vy d)) (radius d) (d_color d)
    else if fltb (x d) (of_Z 0) || fltb width (x d)
    then mk_dot (x d) (y d) (fopp (vx d)) (vy d) (radius d) (d_color d)
    else d in
  mk_dot (fadd (x d) (vx d)) (fadd (y d) (vy d)) (vx d) (vy d) (radius d) (d_color d).

(** The first [count] elements of the array, [None] when it is shorter: reading
    a field of [undefined] raises. *)
Definition first_dots (ds : dots) : option (list dot) :=
  if (d_count ds <=? length (d_array ds))%nat then Some (take (d_count ds) (d_array ds))
  else None.

Definition moveDots (width height : float) (ds : dots) : option dots :=
  l ← first_dots ds;
  Some (mk_dots (d_count ds) (d_distance ds) (d_radius ds)
          ((move_dot width height <$> l) ++ drop (d_count ds) (d_array ds))).

Definition within (a b : float) (d : Z) : bool :=
  fltb (fsub a b) (of_Z d) && fltb (of_Z (- d)) (fsub a b).

(** The lines [connectDots1] strokes, in order. *)
Definition connectDots1 (mx my : float) (ds : dots) : option (list draw_op) :=
  l ← first_dots ds;
  Some (flat_map (fun i_dot => flat_map (fun j_dot =>
    if within (x i_dot) (x j_dot) (d_distance ds) && within (y i_dot) (y j_dot) (d_distance ds)
       && (within (x i_dot) mx (d_radius ds) && within (y i_dot) my (d_radius ds))
    then [Line (averageColorStyles i_dot j_dot) (x i_dot) (y i_dot) (x j_dot) (y j_dot)]
    else []) l) l).

Definition drawDots (ds : dots) : option (list draw_op) :=
  l ← first_dots ds; Some (List.map (fun d => Disc (x d) (y d) (radius d)) l).

(** The canvas with its size, the dots and the mouse position. *)
Record banner := mk_banner {
  width : float; height : float; b_dots : dots; mouse_x : float; mouse_y : float
}.

(** One animation frame. *)
Definition animateDots (s : banner) : option (banner * list draw_op) :=
  ds ← moveDots (width s) (height s) (b_dots s);
  lines ← connectDots1 (mouse_x s) (mouse_y s) ds;
  discs ← drawDots ds;
  Some (mk_banner (width s) (height s) ds (mouse_x s) (mouse_y s),
        Clear (width s) (height s) :: lines ++ discs).

Inductive banner_event :=
  | Frame
  | MouseMove (px py : float)
  | MouseLeave
  | Resize (clientWidth innerHeight : float).

Definition banner_step (e : banner_event) (s : banner) : option (banner * list draw_op) :=
  match e with
  | Frame => animateDots s
  | MouseMove px py => Some (mk_banner (width s) (height s) (b_dots s) px py, [])
  | MouseLeave =>
      Some (mk_banner (width s) (height s) (b_dots s)
              (fdiv (width s) (of_Z 2)) (fdiv (height s) (of_Z 2)), [])
  | Resize w h =>
      Some (mk_banner w (fdiv (fmul h (of_Z 1)) (of_Z 3)) (b_dots s) (mouse_x s) (mouse_y s), [])
  end.

(** [DrawCanvas]: the canvas takes the body's width and keeps its height; the
    stroke colour uses the first three random numbers. *)
Definition DrawCanvas (rnd : nat -> float) (clientWidth canvasHeight : float)
    (screenWidth : Z) : banner * string :=
  let strokeStyle := let c := Color rnd 0 150 in createColorStyle (c_r c) (c_g c) (c_b c) in
  let '(dotCount, dotRadius, dotDistance) := dot_params screenWidth in
  let mx := fdiv (fmul (of_Z 50) clientWidth) (of_Z 100) in
  let my := fdiv (fmul (of_Z 50) canvasHeight) (of_Z 100) in
  let ds := mk_dots dotCount dotDistance dotRadius [] in
  (mk_banner clientWidth canvasHeight (createDots rnd clientWidth canvasHeight 3 ds) mx my,
   strokeStyle).

(** ** Properties *)

(** Speed, radius and colour of a dot, up to the sign of the speed. *)
Definition same_motion (d d' : dot) : Prop :=
  SFabs (vx d') = SFabs (vx d) /\ SFabs (vy d') = SFabs (vy d) /\
  radius d' = radius d /\ d_color d' = d_color d.

#[export] Instance same_motion_preorder : PreOrder same_motion.
Proof.
  split; [by intros d|]. intros a b c (?&?&?&?) (?&?&?&?). unfold same_motion.
  split_and!; congruence.
Qed.

Lemma abs_opp v : SFabs (SFopp v) = SFabs v.
Proof. by destruct v. Qed.

Lemma move_dot_motion w h d : same_motion d (move_dot w h d).
Proof. unfold same_motion, move_dot, fopp. repeat case_match; simpl; by rewrite ?abs_opp. Qed.

(** The dots fill the array. *)
Definition full (ds : dots) : Prop := length (d_array ds) = d_count ds.

Lemma first_dots_full ds : full ds -> first_dots ds = Some (d_array ds).
Proof.
  unfold full, first_dots. intros <-. by rewrite Nat.leb_refl, firstn_all.
Qed.

Lemma animate_full s :
  full (b_dots s) ->
  exists s' ops, animateDots s = Some (s', ops) /\
    d_array (b_dots s') = move_dot (width s) (height s) <$> d_array (b_dots s) /\
    d_count (b_dots s') = d_count (b_dots s).
Proof.
  intros Hf. unfold animateDots, moveDots. rewrite first_dots_full by done. simpl.
  rewrite <- Hf, drop_all, app_nil_r.
  set (ds := mk_dots _ _ _ _).
  assert (full ds) as Hf' by (unfold full; simpl; by rewrite length_fmap).
  unfold connectDots1, drawDots. rewrite first_dots_full by done. simpl.
  eexists _, _. split; [done|]. simpl. by rewrite Hf.
Qed.

Definition banner_run (es : list banner_event) (s : banner) : option banner :=
  fold_left (fun o e => s ← o; fst <$> banner_step e s) es (Some s).

Lemma banner_step_full e s :
  full (b_dots s) ->
  exists s' ops, banner_step e s = Some (s', ops) /\ full (b_dots s') /\
    d_count (b_dots s') = d_count (b_dots s) /\
    Forall2 same_motion (d_array (b_dots s)) (d_array (b_dots s')).
Proof.
  intros Hf. destruct e; simpl; try (eexists _, _; split_and!; [done..|reflexivity]).
  destruct (animate_full s Hf) as (s' & ops & -> & Ha & Hc).
  exists s', ops. unfold full. rewrite Ha, Hc, length_fmap. split_and!; [done..|].
  apply Forall2_fmap_r, Forall_Forall2_diag, Forall_true. intros d. apply move_dot_motion.
Qed.

(** Whatever the user does (mouse moves, resizing) and however many frames
    are drawn, the animation never reads past the array of dots, the number of
    dots stays what [dot_params] chose, and no dot ever changes the magnitude of
    its speed, its radius or its colour: only the signs of its speed change. *)
Theorem banner_runs rnd w h screen es :
  let s := fst (DrawCanvas rnd w h screen) in
  exists s', banner_run es s = Some s' /\
    length (d_array (b_dots s')) = fst (fst (dot_params screen)) /\
    Forall2 same_motion (d_array (b_dots s)) (d_array (b_dots s')).
Proof.
  cbv zeta. assert (full (b_dots (fst (DrawCanvas rnd w h screen))) /\
    d_count (b_dots (fst (DrawCanvas rnd w h screen))) = fst (fst (dot_params screen)))
    as [Hf Hc].
  { unfold DrawCanvas. destruct (dot_params screen) as [[c r] d]. unfold full. simpl.
    by rewrite length_fmap, length_seq. }
  rewrite <- Hc. revert Hf. generalize (fst (DrawCanvas rnd w h screen)) as s. clear.
  unfold banner_run. induction es as [|e es IH]; intros s Hf.
  { exists s. split_and!; [done..|reflexivity]. }
  destruct (banner_step_full e s Hf) as (s1 & ops & Hs & Hf1 & Hc1 & Hm1).
  destruct (IH s1 Hf1) as (s' & Hr & Hl & Hm). exists s'. simpl. rewrite Hs. simpl.
  split_and!; [done|congruence|]. by etrans.
Qed.

(** The announcements rotate: after [n] ticks of the interval the visible
    one is number [n mod len] (always a valid index). *)
Theorem announcement_rotates len n :
  (0 < len)%nat -> Nat.iter n (announcement_tick len) 0%nat = (n mod len)%nat.
Proof.
  intros Hl. induction n as [|n IH]; [by rewrite Nat.mod_0_l by lia|].
  simpl. rewrite IH. unfold announcement_tick.
  pose proof (Nat.mod_upper_bound n len ltac:(lia)).
  pose proof (Nat.div_mod_eq n len).
  destruct (Nat.leb_spec len (S (n mod len))).
  - apply (Nat.mod_unique _ _ (S (n / len))); lia.
  - apply (Nat.mod_unique _ _ (n / len)); lia.
Qed.

Lemma announcement_rotates_witness : Nat.iter 7 (announcement_tick 3) 0%nat = 1%nat.
Proof. rewrite (announcement_rotates 3 7); [reflexivity|lia]. Defined.

(** [new Color(150)] leaves the range of a colour component: the stroke style
    for [Math.random() = 1/2] is out of [0..255]. *)
Example stroke_out_of_range : colorValue (fdiv (of_Z 1) (of_Z 2)) 150 = Some 277.
Proof. vm_compute. reflexivity. Qed.

(** A frame of two dots, one of which bounces off the top edge. *)
Definition two_dots : dots :=
  mk_dots 2 70 70
    [mk_dot (of_Z 10) (of_Z (-1)) (of_Z 1) (of_Z (-2)) (of_Z 1) (mk_color (Some 1) (Some 2) (Some 3));
     mk_dot (of_Z 30) (of_Z 5) (of_Z 0) (of_Z 1) (of_Z 1) (mk_color (Some 3) (Some 4) (Some 5))].

Example two_dots_frame :
  snd <$> animateDots (mk_banner (of_Z 100) (of_Z 50) two_dots (of_Z 20) (of_Z 20))
  = Some [Clear (of_Z 100) (of_Z 50);
          Line "rgba(1,2,3, 0.8)" (of_Z 11) (of_Z 1) (of_Z 11) (of_Z 1);
          Line "rgba(2,3,4, 0.8)" (of_Z 11) (of_Z 1) (of_Z 30) (of_Z 6);
          Line "rgba(2,3,4, 0.8)" (of_Z 30) (of_Z 6) (of_Z 11) (of_Z 1);
          Line "rgba(3,4,5, 0.8)" (of_Z 30) (of_Z 6) (of_Z 30) (of_Z 6);
          Disc (of_Z 11) (of_Z 1) (of_Z 1); Disc (of_Z 30) (of_Z 6) (of_Z 1)].
Proof. vm_compute. reflexivity. Qed.
