(* ===== verification/SearchBar.v ===== *)
(** * [main.js]: the search form of the book catalogue

    Models [2018104177/src/main/webapp/resources/js/main.js]: the three search
    type menu entries, and the two functions that build the address of a result
    page.  Text is the sequence of its UTF-8 bytes, on which [encodeURI] works
    byte by byte. *)

From S2P Require Import JsValue.

(** The form fields the script reads and writes, and the address it opens. *)
Record form := mk_form {
  search_type : string;
  search_type_value : string;
  search_keyword : string;
  search_count : string;
  href : string;
}.

(** ** [encodeURI] *)

Definition in_range (lo hi : N) (c : ascii) : bool :=
  ((lo <=? N_of_ascii c) && (N_of_ascii c <=? hi))%N.

Fixpoint mem (c : ascii) (s : string) : bool :=
  match s with
  | EmptyString => false
  | String d s => Ascii.eqb c d || mem c s
  end.

(** Letters, digits and the reserved and mark characters [encodeURI] keeps. *)
Definition keep (c : ascii) : bool :=
  in_range 65 90 c || in_range 97 122 c || in_range 48 57 c
  || mem c ";,/?:@&=+$-_.!~*'()#".

Definition hex (n : N) : ascii :=
  ascii_of_N (if (n <? 10)%N then 48 + n else 55 + n).

Fixpoint encodeURI (s : string) : string :=
  match s with
  | EmptyString => EmptyString
  | String c s =>
      if keep c then String c (encodeURI s)
      else String "%" (String (hex (N_of_ascii c / 16)) (String (hex (N_of_ascii c mod 16))
             (encodeURI s)))
  end.

(** ** The script *)

(** The click handlers of the three menu entries, given the entry's markup. *)
Definition click_type (value : string) (label : string) (f : form) : form :=
  mk_form label value (search_keyword f) (search_count f) (href f).
Definition click_type1 : string -> form -> form := click_type "titleResultList".
Definition click_type2 : string -> form -> form := click_type "authorResultList".
Definition click_type3 : string -> form -> form := click_type "publisherResultList".

Definition getPageWithFrom (from : string) (f : form) : form :=
  let url := search_type_value f in
  let url := url +:+ "?keyword=" +:+ search_keyword f in
  let url := url +:+ "&count=" +:+ search_count f in
  let url := url +:+ "&from=" +:+ from in
  let url := url +:+ "&type=0" in
  mk_form (search_type f) (search_type_value f) (search_keyword f) (search_count f)
    (encodeURI url).

Definition getPage (f : form) : form :=
  let url := search_type_value f in
  let url := url +:+ "?keyword=" +:+ search_keyword f in
  let url := url +:+ "&count=" +:+ search_count f in
  let url := url +:+ "&from=0&type=0" in
  mk_form (search_type f) (search_type_value f) (search_keyword f) (search_count f)
    (encodeURI url).

(** ** Reading an address back

    The specification side: the path before [?], and the parameters of the query
    string up to [#], separated by [&], each split at its first [=] and
    percent-decoded. *)

Definition unhex (c : ascii) : N :=
  if in_range 48 57 c then N_of_ascii c - 48 else N_of_ascii c - 55.

Fixpoint form_decode (s : string) : string :=
  match s with
  | EmptyString => EmptyString
  | String c s' =>
      if Ascii.eqb c "%" then
        match s' with
        | String h (String l s'') => String (ascii_of_N (16 * unhex h + unhex l)) (form_decode s'')
        | _ => s
        end
      else String (if Ascii.eqb c "+" then " "%char else c) (form_decode s')
  end.

Definition query_params (url : string) : list (string * string) :=
  (fun p => let '(k, v) := break "=" p in (form_decode k, form_decode v))
    <$> split_on "&" (fst (break "#" (snd (break "?" url)))).

(** ** Lemmas *)

Lemma encodeURI_app a b : encodeURI (a +:+ b) = encodeURI a +:+ encodeURI b.
Proof.
  induction a as [|c a IH]; [done|]. rewrite ?app_string_cons. simpl.
  rewrite IH. by destruct (keep c).
Qed.

Lemma decode_step c r : Ascii.eqb "+" c = false ->
  form_decode (if keep c then String c r
    else String "%" (String (hex (N_of_ascii c / 16)) (String (hex (N_of_ascii c mod 16)) r)))
  = String c (form_decode r).
Proof. destruct c as [[] [] [] [] [] [] [] []]; intros H; reflexivity || discriminate H. Qed.

Lemma decode_encode s : mem "+" s = false -> form_decode (encodeURI s) = s.
Proof. induction s as [|c s IH]; [done|]. cbn [mem encodeURI]. intros [Hc Hs]%orb_false_iff. by rewrite decode_step, IH. Qed.

(** A kept delimiter occurs in the encoding exactly when it occurs in the text. *)
Lemma mem_app c a b : mem c (a +:+ b) = mem c a || mem c b.
Proof.
  induction a as [|d a IH]; [done|]. rewrite ?app_string_cons. simpl.
  by rewrite IH, orb_assoc.
Qed.

Definition delimiter (c : ascii) : Prop := c ∈ ["&"%char; "#"%char; "?"%char; "="%char].

Lemma encoded_char c d :
  delimiter d -> keep c = false ->
  mem d (String "%" (String (hex (N_of_ascii c / 16)) (String (hex (N_of_ascii c mod 16)) ""))) = false
  /\ Ascii.eqb d c = false.
Proof.
  unfold delimiter. rewrite !elem_of_cons, elem_of_nil.
  intros [->|[->|[->|[->|[]]]]]; destruct c as [[] [] [] [] [] [] [] []];
    vm_compute; intros H; try discriminate H; done.
Qed.

Lemma mem_encode d s : delimiter d -> mem d (encodeURI s) = mem d s.
Proof.
  intros Hd. induction s as [|c s IH]; [done|]. simpl.
  destruct (keep c) eqn:E; [simpl; by rewrite IH|].
  destruct (encoded_char c d Hd E) as [Hm ->]. simpl in *. rewrite IH.
  apply orb_false_iff in Hm as [-> [-> [-> _]%orb_false_iff]%orb_false_iff]. done.
Qed.

Lemma break_app c a b : mem c a = false -> break c (a +:+ String c b) = (a, b).
Proof.
  induction a as [|d a IH]; simpl; intros H.
  - change (("" +:+ String c b)%string) with (String c b). simpl. by rewrite Ascii.eqb_refl.
  - apply orb_false_iff in H as [Hd Ha]. rewrite ?app_string_cons. simpl.
    by rewrite Hd, IH.
Qed.

Lemma break_none c a : mem c a = false -> break c a = (a, "").
Proof.
  induction a as [|d a IH]; simpl; intros H; [done|].
  apply orb_false_iff in H as [Hd Ha]. by rewrite Hd, IH.
Qed.

Lemma split_on_app c a b :
  mem c a = false -> split_on c (a +:+ String c b) = a :: split_on c b.
Proof.
  induction a as [|d a IH]; simpl; intros H.
  - change (("" +:+ String c b)%string) with (String c b). simpl. by rewrite Ascii.eqb_refl.
  - apply orb_false_iff in H as [Hd Ha]. rewrite ?app_string_cons. simpl.
    by rewrite Hd, IH.
Qed.

Lemma split_on_none c a : mem c a = false -> split_on c a = [a].
Proof.
  induction a as [|d a IH]; simpl; intros H; [done|].
  apply orb_false_iff in H as [Hd Ha]. by rewrite Hd, IH.
Qed.

(** Text that cannot end a parameter and has no sign that is read as a blank. *)
Definition plain (s : string) : Prop := mem "&" s = false /\ mem "#" s = false /\ mem "+" s = false.

Lemma delimiter_of c : bool_decide (c ∈ ["&"%char; "#"%char; "?"%char; "="%char]) = true ->
  delimiter c.
Proof. apply bool_decide_eq_true_1. Qed.

#[local] Hint Extern 1 (delimiter _) => (apply delimiter_of; reflexivity) : js.

(** The address [getPageWithFrom] opens, once encoded. *)
Lemma getPageWithFrom_href from f :
  href (getPageWithFrom from f) =
  encodeURI (search_type_value f) +:+ String "?"
    ("keyword=" +:+ encodeURI (search_keyword f) +:+ String "&"
      ("count=" +:+ encodeURI (search_count f) +:+ String "&"
        ("from=" +:+ encodeURI from +:+ String "&" "type=0"))).
Proof. simpl. rewrite !encodeURI_app. by autorewrite with js. Qed.

Lemma split_param k v rest :
  mem "&" k = false -> plain v ->
  split_on "&" (k +:+ encodeURI v +:+ String "&" rest)
  = (k +:+ encodeURI v) :: split_on "&" rest.
Proof.
  intros Hk (Hv & _). rewrite <- app_string_assoc. apply split_on_app.
  by rewrite mem_app, Hk, mem_encode by auto with js.
Qed.

Lemma no_fragment k v rest :
  mem "#" k = false -> plain v -> mem "#" rest = false ->
  mem "#" (k +:+ encodeURI v +:+ String "&" rest) = false.
Proof.
  intros Hk (_ & Hv & _) Hr. rewrite !mem_app, Hk, mem_encode, Hv by auto with js. done.
Qed.

(** ** Properties *)

(** C40. Read back the way servlets read forms, the query of the address of a result page has
    the parameters [keyword], [count], [from] and [type] in this order, each exactly as it was
    typed, provided the page address has no [?] and no value contains [&] or [#], the two
    delimiters that [encodeURI] leaves unescaped, or [+], which it leaves and which is read as a
    blank. *)
Theorem getPageWithFrom_roundtrip from f :
  mem "?" (search_type_value f) = false ->
  plain (search_keyword f) -> plain (search_count f) -> plain from ->
  query_params (href (getPageWithFrom from f))
  = [("keyword", search_keyword f); ("count", search_count f); ("from", from); ("type", "0")].
Proof.
  intros Hb Hk Hc Hf. rewrite getPageWithFrom_href. unfold query_params.
  rewrite break_app by (by rewrite mem_encode by auto with js). cbn [snd].
  rewrite break_none by (repeat apply no_fragment; done). cbn [fst].
  rewrite !split_param by done.
  transitivity [("keyword", form_decode (encodeURI (search_keyword f)));
    ("count", form_decode (encodeURI (search_count f)));
    ("from", form_decode (encodeURI from)); ("type", "0")]; [reflexivity|].
  by rewrite !decode_encode by (apply Hk || apply Hc || apply Hf).
Qed.

(** The first page is page 0. *)
Lemma getPage_first f : href (getPage f) = href (getPageWithFrom "0" f).
Proof. simpl. rewrite !encodeURI_app. by autorewrite with js. Qed.

(** ** Concrete runs *)

Definition sample_form : form :=
  mk_form "" "titleResultList" "a b%c" "20" "".

Example sample_href :
  href (getPageWithFrom "40" sample_form)
  = "titleResultList?keyword=a%20b%25c&count=20&from=40&type=0".
Proof. vm_compute. reflexivity. Qed.

Lemma getPageWithFrom_roundtrip_witness :
  query_params (href (getPageWithFrom "40" sample_form))
  = [("keyword", "a b%c"); ("count", "20"); ("from", "40"); ("type", "0")].
Proof.
  apply (getPageWithFrom_roundtrip "40" sample_form); repeat split; reflexivity.
Defined.

(** A keyword with [&] reads back as another query: [encodeURI] does not escape
    the delimiter. *)
Example ampersand_breaks :
  query_params (href (getPageWithFrom "0" (mk_form "" "titleResultList" "a&from=9" "20" "")))
  = [("keyword", "a"); ("from", "9"); ("count", "20"); ("from", "0"); ("type", "0")].
Proof. vm_compute. reflexivity. Qed.

(** A keyword with [+] reads back with blanks. *)
Example plus_is_lost :
  query_params (href (getPageWithFrom "0" (mk_form "" "titleResultList" "C++" "20" "")))
  = [("keyword", "C  "); ("count", "20"); ("from", "0"); ("type", "0")].
Proof. vm_compute. reflexivity. Qed.
