(* ===== verification/Flexisel.v ===== *)
(** * Flexisel

    Models the carousel plugin [2019104287/code/WebContent/js/jquery.flexisel.js]: a list
    of items twice over, of which some are seen through a window, moves by one item; at
    the end of a move an item goes from one end of the list to the other and the list
    jumps back.  Widths are rational numbers of pixels; arrows and heights are left out. *)

From S2P Require Export JsValue.
From Stdlib Require Export QArith.
#[local] Open Scope nat_scope.
#[local] Open Scope Z_scope.

Module Flexisel.

(** A move that runs: its direction, the items when it began ([childSet]), and where
    [left] is when it ends. *)
Record run := mk_run { to_right : bool; childSet : list nat; target : Q }.

Record breakpoint := mk_breakpoint { changePoint : Z; itemsAt : positive }.

(** The [i]-th item is [i], its clone [n + i].  [inner] is the width of the window on the
    list, [html] that of the page. *)
Record flexisel := mk_flexisel {
  o_visible : positive; o_responsive : bool; portrait : breakpoint; landscape : breakpoint; tablet : breakpoint;
  o_autoPlay : bool; o_pauseOnHover : bool;
  inner : Q; html : Z; children : list nat; left : Q; itemsWidth : Q; itemsVisible : positive; canNavigate : bool; runs : list run;
}.
#[export] Instance flexisel_eta : Settable flexisel := fun s =>
  mk_flexisel (o_visible s) (o_responsive s) (portrait s) (landscape s) (tablet s) (o_autoPlay s) (o_pauseOnHover s)
    (inner s) (html s) (children s) (left s) (itemsWidth s) (itemsVisible s) (canNavigate s) (runs s).

(** [setResponsiveEvents]. *)
Definition setResponsiveEvents (s : flexisel) : flexisel :=
  if o_responsive s then
    s <| itemsVisible :=
           if html s <? changePoint (portrait s) then itemsAt (portrait s)
           else if (changePoint (portrait s) <? html s) && (html s <? changePoint (landscape s)) then itemsAt (landscape s)
           else if (changePoint (landscape s) <? html s) && (html s <? changePoint (tablet s)) then itemsAt (tablet s)
           else o_visible s |>
  else s.

(** Widths, and the list one item to the left of the window. *)
Definition measure (s : flexisel) : flexisel :=
  let s := s <| itemsWidth := (inner s / inject_Z (Zpos (itemsVisible s)))%Q |> in
  s <| left := (- itemsWidth s)%Q |>.

Definition adjustScroll (s : flexisel) : flexisel := measure s.

(** A [resize] of the window. *)
Definition resize (s : flexisel) : flexisel := measure (setResponsiveEvents s).

(** ** Items that change their place *)

Definition without (x : nat) (l : list nat) : list nat := List.filter (fun y => negb (y =? x)%nat) l.

(** [$(x).insertBefore(y)] and [$(x).insertAfter(y)]. *)
Fixpoint put_before (x y : nat) (l : list nat) : list nat :=
  match l with [] => [] | z :: l => if (z =? y)%nat then x :: z :: l else z :: put_before x y l end.
Fixpoint put_after (x y : nat) (l : list nat) : list nat :=
  match l with [] => [] | z :: l => if (z =? y)%nat then z :: x :: l else z :: put_after x y l end.

Definition insertBefore (x y : nat) (l : list nat) : list nat := if (x =? y)%nat then l else put_before x y (without x l).
Definition insertAfter (x y : nat) (l : list nat) : list nat := if (x =? y)%nat then l else put_after x y (without x l).

Definition last_to_front (set : list nat) (l : list nat) : list nat :=
  match last set, head set with Some x, Some y => insertBefore x y l | _, _ => l end.
Definition first_to_end (set : list nat) (l : list nat) : list nat :=
  match head set, last set with Some x, Some y => insertAfter x y l | _, _ => l end.

(** ** Moving *)

Definition scroll (right : bool) (s : flexisel) : flexisel :=
  if canNavigate s then
    let s := s <| canNavigate := false |> in
    let s := s <| itemsWidth := (inner s / inject_Z (Zpos (itemsVisible s)))%Q |> in
    s <| runs := runs s ++ [mk_run right (children s) (if right then left s - itemsWidth s else left s + itemsWidth s)%Q] |>
  else s.

(** [scrollLeft] and [scrollRight]. *)
Definition scrollLeft : flexisel -> flexisel := scroll false.
Definition scrollRight : flexisel -> flexisel := scroll true.

(** The move [k] ends. *)
Definition complete (k : nat) (s : flexisel) : flexisel :=
  match runs s !! k with
  | None => s
  | Some r =>
      let s := s <| runs := delete k (runs s) |> <| left := target r |> in
      let s := s <| children := (if to_right r then first_to_end else last_to_front) (childSet r) (children s) |> in
      adjustScroll s <| canNavigate := true |>
  end.

(** [init], on a list of [n] items: [appendHTML], [setEventHandlers] and
    [initializeItems]; [childSet] there is that of the beginning. *)
Definition init (n : nat) (visible : positive) (responsive : bool) (p l t : breakpoint) (autoPlay pauseOnHover : bool)
    (inner : Q) (html : Z) : flexisel :=
  let items := seq 0 (n + n) in
  let s := mk_flexisel visible responsive p l t autoPlay pauseOnHover inner html items 0 0 visible true [] in
  let s := measure s in
  let set := children s in
  let s := s <| children := last_to_front set (children s) |> in
  let s := s <| children := last_to_front set (children s) |> in
  resize s.

(** What happens. *)
Inductive faction := Left | Right | AutoPlay | Enter | Leave | Complete (k : nat) | Resize (inner : Q) (html : Z).

Definition act (a : faction) (s : flexisel) : flexisel :=
  match a with
  | Left => scrollLeft s
  | Right => scrollRight s
  | AutoPlay => if o_autoPlay s && canNavigate s then scrollRight s else s
  | Enter => if o_pauseOnHover s then s <| canNavigate := false |> else s
  | Leave => if o_pauseOnHover s then s <| canNavigate := true |> else s
  | Complete k => complete k s
  | Resize w h => resize (s <| inner := w |> <| html := h |>)
  end.
End Flexisel.
