(* ===== verification/FlexiselFlow.v ===== *)
(** * Flexisel, its properties

    The list is always the ring of its items turned by the moves that ended, and the end
    of a move is not seen: no item in the window changes its place. *)

From S2P Require Export Flexisel.
Import Flexisel.
From Stdlib Require Import Lqa.
#[local] Open Scope nat_scope.
#[local] Open Scope Z_scope.

(** ** The ring *)

(** The numbers below [n], from [k] on around. *)
Definition ring (n : nat) (k : Z) : list nat := (fun j => Z.to_nat ((Z.of_nat j + k) mod Z.of_nat n)) <$> seq 0 n.

Lemma ring_length n k : length (ring n k) = n.
Proof. unfold ring. by rewrite length_fmap, length_seq. Qed.

Lemma ring_lookup n k i : (i < n)%nat -> ring n k !! i = Some (Z.to_nat ((Z.of_nat i + k) mod Z.of_nat n)).
Proof. intros Hi. unfold ring. by rewrite list_lookup_fmap, lookup_seq_lt. Qed.

Lemma ring_nodup n k : NoDup (ring n k).
Proof.
  apply NoDup_alt. intros i j x Hi Hj. pose proof (lookup_lt_Some _ _ _ Hi) as Li. pose proof (lookup_lt_Some _ _ _ Hj) as Lj.
  rewrite ring_length in Li, Lj. rewrite ring_lookup in Hi, Hj by done. injection Hi as Hi. injection Hj as Hj.
  assert (0 < Z.of_nat n) as Hn by lia.
  pose proof (Z.mod_pos_bound (Z.of_nat i + k) _ Hn). pose proof (Z.mod_pos_bound (Z.of_nat j + k) _ Hn).
  assert ((Z.of_nat i + k) mod Z.of_nat n = (Z.of_nat j + k) mod Z.of_nat n) as E by lia.
  pose proof (Z_div_mod_eq_full (Z.of_nat i + k) (Z.of_nat n)) as Di. pose proof (Z_div_mod_eq_full (Z.of_nat j + k) (Z.of_nat n)) as Dj.
  rewrite E in Di. set (a := (Z.of_nat i + k) / Z.of_nat n) in *. set (b := (Z.of_nat j + k) / Z.of_nat n) in *.
  assert (Z.of_nat i - Z.of_nat j = Z.of_nat n * (a - b)) as Hd by lia. assert (a - b = 0) by nia. lia.
Qed.

(** Turned by one. *)
Lemma ring_next n k x m : ring n k = x :: m -> ring n (k + 1) = m ++ [x].
Proof.
  intros E. assert (n = S (length m)) as En by (pose proof (f_equal length E) as H; rewrite ring_length in H; exact H).
  apply list_eq. intros i. destruct (le_lt_dec n i) as [Hi|Hi].
  { rewrite !lookup_ge_None_2; [done|rewrite length_app; cbn; lia|rewrite ring_length; lia]. }
  rewrite ring_lookup by done. destruct (decide (i = length m)) as [->|Hne].
  - rewrite lookup_app_r, Nat.sub_diag by done. cbn. f_equal.
    pose proof (ring_lookup n k 0 ltac:(lia)) as H0. rewrite E in H0. cbn in H0. injection H0 as ->. f_equal.
    replace (Z.of_nat (length m) + (k + 1)) with (k + 1 * Z.of_nat n) by lia. rewrite Z.mod_add by lia. done.
  - rewrite lookup_app_l by lia. pose proof (ring_lookup n k (S i) ltac:(lia)) as H1. rewrite E in H1.
    change (m !! i = Some (Z.to_nat ((Z.of_nat (S i) + k) mod Z.of_nat n))) in H1. rewrite H1. do 3 f_equal. lia.
Qed.

(** ** Moves of items *)

Lemma without_notin x l : x ∉ l -> without x l = l.
Proof.
  unfold without. induction l as [|y l IH]; cbn; [done|]. intros [Hne Hl]%not_elem_of_cons.
  rewrite (proj2 (Nat.eqb_neq y x)) by congruence. cbn. by rewrite IH.
Qed.

Lemma put_after_last x y l : NoDup (l ++ [y]) -> put_after x y (l ++ [y]) = l ++ [y; x].
Proof.
  induction l as [|z l IH]; cbn; [by rewrite Nat.eqb_refl|]. intros [Hz Hl]%NoDup_cons.
  rewrite (proj2 (Nat.eqb_neq z y)); [by rewrite IH|]. intros ->. apply Hz, elem_of_app. right. by left.
Qed.

Lemma first_to_end_rotates x m : NoDup (x :: m) -> m <> [] -> first_to_end (x :: m) (x :: m) = m ++ [x].
Proof.
  intros [Hx Hm]%NoDup_cons Hne. destruct (last m) as [y|] eqn:El; [|by apply last_None in El].
  apply last_Some in El as [m' ->]. unfold first_to_end, insertAfter. cbn [head].
  assert (last (x :: m' ++ [y]) = Some y) as -> by (change (x :: m' ++ [y]) with ((x :: m') ++ [y]); apply last_snoc).
  assert (x <> y) as Hxy by (intros ->; apply Hx, elem_of_app; right; by left).
  rewrite (proj2 (Nat.eqb_neq x y)) by done. cbn [without List.filter]. rewrite Nat.eqb_refl. cbn [negb].
  change (put_after x y (without x (m' ++ [y])) = (m' ++ [y]) ++ [x]). rewrite without_notin by done.
  rewrite put_after_last by done. by rewrite <- app_assoc.
Qed.

Lemma last_to_front_rotates m y : NoDup (m ++ [y]) -> m <> [] -> last_to_front (m ++ [y]) (m ++ [y]) = y :: m.
Proof.
  intros Hnd Hne. destruct m as [|x m]; [done|]. apply NoDup_app in Hnd as (Hnd & Hy & _).
  assert (y ∉ x :: m) as Hy' by (intros Hin; apply (Hy y Hin); by left).
  unfold last_to_front, insertBefore. rewrite last_snoc. cbn [head app].
  assert (y <> x) as Hyx by (intros ->; apply Hy'; by left). rewrite (proj2 (Nat.eqb_neq y x)) by done.
  assert (without y (x :: m ++ [y]) = x :: m) as ->.
  { change (x :: m ++ [y]) with ((x :: m) ++ [y]). unfold without. rewrite List.filter_app. cbn [List.filter]. rewrite Nat.eqb_refl. cbn [negb].
    rewrite app_nil_r. by apply (without_notin y (x :: m)). }
  cbn [put_before]. by rewrite Nat.eqb_refl.
Qed.

Definition rotate (right : bool) (l : list nat) : list nat := (if right then first_to_end else last_to_front) l l.

Lemma rotate_ring (right : bool) n k : (2 <= n)%nat -> rotate right (ring n k) = ring n (if right then k + 1 else k - 1).
Proof.
  intros Hn. destruct right; cbn [rotate].
  - pose proof (ring_nodup n k) as Hnd. destruct (ring n k) as [|x m] eqn:E; [pose proof (ring_length n k) as H; rewrite E in H; cbn in H; lia|].
    rewrite first_to_end_rotates; [by rewrite (ring_next n k x m)|done|].
    intros ->. pose proof (ring_length n k) as H. rewrite E in H. cbn in H. lia.
  - destruct (ring n (k - 1)) as [|x m] eqn:E; [pose proof (ring_length n (k - 1)) as H; rewrite E in H; cbn in H; lia|].
    pose proof (ring_next n (k - 1) x m E) as Hk. replace (k - 1 + 1) with k in Hk by lia. rewrite Hk.
    apply last_to_front_rotates; [rewrite <- Hk; apply ring_nodup|].
    intros ->. pose proof (ring_length n (k - 1)) as H. rewrite E in H. cbn in H. lia.
Qed.

(** ** The account

    How far the ring is turned, the move that runs, and whether another may begin: while
    the pointer is over an item it may not, unless a move ended there. *)
Record spec := mk_spec { turned : Z; moving : option bool; free : bool }.

Definition go (dir : bool) (p : spec) : spec := if free p then mk_spec (turned p) (Some dir) false else p.

Definition spec_step (autoPlay hover : bool) (p : spec) (a : faction) : spec :=
  match a with
  | Left => go false p
  | Right => go true p
  | AutoPlay => if autoPlay then go true p else p
  | Enter => if hover then mk_spec (turned p) (moving p) false else p
  | Leave => if hover then mk_spec (turned p) (moving p) true else p
  | Complete k => match moving p, k with Some r, O => mk_spec (if r then turned p + 1 else turned p - 1) None true | _, _ => p end
  | Resize _ _ => p
  end.

Definition spec_run (autoPlay hover : bool) (l : list faction) (p : spec) : spec := fold_left (spec_step autoPlay hover) l p.

(** The pointer, when it is heard, does not leave an item while a move runs. *)
Definition patient_at (hover : bool) (p : spec) (a : faction) : bool :=
  match a with Leave => negb hover || bool_decide (moving p = None) | _ => true end.
Fixpoint patient (autoPlay hover : bool) (p : spec) (l : list faction) : bool :=
  match l with
  | [] => true
  | a :: l => patient_at hover p a && patient autoPlay hover (spec_step autoPlay hover p a) l
  end.

Record follows (n : nat) (s : flexisel) (p : spec) : Prop := {
  fo_children : children s = ring n (turned p);
  fo_free : canNavigate s = free p;
  fo_runs : match moving p with
            | None => runs s = [] /\ (left s == - itemsWidth s)%Q /\ (itemsWidth s == inner s / inject_Z (Zpos (itemsVisible s)))%Q
            | Some r => free p = false /\ exists t, runs s = [mk_run r (ring n (turned p)) t]
            end;
}.

Lemma scroll_follows n s p dir : follows n s p -> follows n (scroll dir s) (go dir p).
Proof.
  intros [A B C]. unfold scroll, go. rewrite B. destruct p as [k mv [|]]; cbn in *; [|by split].
  destruct mv as [r|]; [by destruct C|]. destruct C as (C1 & _). split; [exact A|done|]. cbn. split; [done|]. rewrite C1, A. eexists. reflexivity.
Qed.

Lemma resize_follows n s p w h : follows n s p -> follows n (resize (s <| inner := w |> <| html := h |>)) p.
Proof.
  intros [A B C]. unfold resize, setResponsiveEvents. destruct (o_responsive _); (split; [exact A|exact B|]);
    (destruct p as [k [r|] f]; cbn in *; [exact C|]); (split; [apply C|]; split; reflexivity).
Qed.

Lemma complete_follows n s p k : (2 <= n)%nat -> follows n s p -> follows n (complete k s) (spec_step false false p (Complete k)).
Proof.
  intros Hn H. unfold complete. cbn [spec_step]. pose proof (fo_runs _ _ _ H) as Hr. destruct p as [j [r|] f]; cbn [moving] in Hr |- *.
  - destruct Hr as [Hf [t Hr]]. rewrite Hr. destruct k as [|k]; cbn; [|done].
    split; [|done|by split]. cbn. rewrite (fo_children _ _ _ H). by apply rotate_ring.
  - destruct Hr as [Hr _]. rewrite Hr. cbn. by destruct k.
Qed.

Lemma hover_follows n s p (b : bool) : (b = true -> moving p = None) ->
  follows n s p -> follows n (s <| canNavigate := b |>) (mk_spec (turned p) (moving p) b).
Proof.
  intros Hb [A B C]. split; [exact A|done|]. cbn. destruct (moving p) as [r|]; [|exact C].
  destruct C as [_ C]. split; [|exact C]. by destruct b; [specialize (Hb eq_refl)|].
Qed.

Lemma act_follows n s p a : (2 <= n)%nat -> patient_at (o_pauseOnHover s) p a = true -> follows n s p ->
  follows n (act a s) (spec_step (o_autoPlay s) (o_pauseOnHover s) p a).
Proof.
  intros Hn Hp H. destruct a as [| | | | |k|w h]; cbn [act spec_step].
  - by apply scroll_follows.
  - by apply scroll_follows.
  - destruct (o_autoPlay s); cbn [andb]; [|done]. pose proof (scroll_follows n s p true H) as H1.
    unfold scroll in H1. destruct (canNavigate s) eqn:E; [|exact H1]. unfold scrollRight, scroll. by rewrite E.
  - destruct (o_pauseOnHover s); [by apply hover_follows|done].
  - cbn in Hp. destruct (o_pauseOnHover s); [|done]. apply hover_follows; [|done]. intros _. by apply bool_decide_eq_true in Hp.
  - by apply complete_follows.
  - by apply resize_follows.
Qed.

Definition acts (l : list faction) (s : flexisel) : flexisel := fold_left (fun s a => act a s) l s.

Lemma act_options a s : o_autoPlay (act a s) = o_autoPlay s /\ o_pauseOnHover (act a s) = o_pauseOnHover s.
Proof.
  destruct a; cbn [act]; unfold scrollLeft, scrollRight, scroll, complete, resize, setResponsiveEvents.
  1, 2: by destruct (canNavigate s).
  - destruct (_ && _); [by destruct (canNavigate s)|done].
  - destruct (o_pauseOnHover s) eqn:E; cbn; by rewrite ?E.
  - destruct (o_pauseOnHover s) eqn:E; cbn; by rewrite ?E.
  - by destruct (runs s !! k).
  - by destruct (o_responsive _).
Qed.

Lemma acts_follows n l s p : (2 <= n)%nat -> patient (o_autoPlay s) (o_pauseOnHover s) p l = true -> follows n s p ->
  follows n (acts l s) (spec_run (o_autoPlay s) (o_pauseOnHover s) l p).
Proof.
  intros Hn. revert s p. induction l as [|a l IH]; intros s p Hp H; [done|]. cbn in Hp |- *. apply andb_prop in Hp as [Ha Hl].
  destruct (act_options a s) as [E1 E2]. rewrite <- E1, <- E2. rewrite <- E1, <- E2 in Hl. apply IH; [exact Hl|].
  rewrite E1, E2. by apply act_follows.
Qed.

(** ** The beginning *)

Lemma ring_zero n : ring n 0 = seq 0 n.
Proof.
  unfold ring. apply list_eq. intros i. rewrite list_lookup_fmap. destruct (le_lt_dec n i) as [Hi|Hi].
  { by rewrite lookup_seq_ge. }
  rewrite lookup_seq_lt by done. cbn. rewrite Z.mod_small by lia. f_equal. lia.
Qed.

(** The second [insertBefore] of [initializeItems] changes nothing: the set is old. *)
Lemma again_in_front m y : NoDup (m ++ [y]) -> m <> [] -> last_to_front (m ++ [y]) (y :: m) = y :: m.
Proof.
  intros Hnd Hne. destruct m as [|x m]; [done|]. apply NoDup_app in Hnd as (_ & Hy & _).
  assert (y ∉ x :: m) as Hy' by (intros Hin; apply (Hy y Hin); by left).
  unfold last_to_front, insertBefore. rewrite last_snoc. cbn [head app].
  assert (y <> x) as Hyx by (intros ->; apply Hy'; by left). rewrite (proj2 (Nat.eqb_neq y x)) by done.
  assert (without y (y :: x :: m) = x :: m) as ->.
  { transitivity (without y (x :: m)); [|by apply without_notin]. unfold without at 1. cbn [List.filter]. by rewrite Nat.eqb_refl. }
  cbn [put_before]. by rewrite Nat.eqb_refl.
Qed.

Lemma first_in_front n : (1 <= n)%nat ->
  last_to_front (seq 0 (n + n)) (last_to_front (seq 0 (n + n)) (seq 0 (n + n))) = ring (n + n) (-1).
Proof.
  intros Hn. pose proof (rotate_ring false (n + n) 0 ltac:(lia)) as Hr. rewrite ring_zero in Hr. cbn [rotate] in Hr.
  pose proof (NoDup_seq 0 (n + n)) as Hnd. change (0 - 1) with (-1) in Hr. rewrite <- Hr. unfold rotate in *.
  destruct (last (seq 0 (n + n))) as [y|] eqn:El; [|apply last_None, (f_equal length) in El; rewrite length_seq in El; cbn in El; lia].
  apply last_Some in El as [m El]. rewrite El in Hnd |- *.
  assert (m <> []) as Hm by (intros ->; apply (f_equal length) in El; rewrite length_seq in El; cbn in El; lia).
  rewrite (last_to_front_rotates m y Hnd Hm). by apply again_in_front.
Qed.

Lemma init_follows n v b p l t autoPlay hover w h : (1 <= n)%nat ->
  follows (n + n) (init n v b p l t autoPlay hover w h) (mk_spec (-1) None true).
Proof.
  intros Hn. assert (forall s, children (resize s) = children s /\ canNavigate (resize s) = canNavigate s /\ runs (resize s) = runs s /\
    left (resize s) = (- itemsWidth (resize s))%Q /\
    itemsWidth (resize s) = (inner (resize s) / inject_Z (Zpos (itemsVisible (resize s))))%Q) as Hs
    by (intros s; unfold resize, setResponsiveEvents; by destruct (o_responsive s)).
  unfold init. match goal with |- follows _ (resize ?s) _ => pose proof (Hs s) as (A & B & C & E & F); set (z := resize s) in * end.
  clearbody z. split; [rewrite A; exact (first_in_front n Hn)|by rewrite B|]. cbn -[Qdiv].
  split; [exact C|]. split; [by rewrite E|by rewrite F].
Qed.

Lemma init_options n v b p l t autoPlay hover w h :
  o_autoPlay (init n v b p l t autoPlay hover w h) = autoPlay /\ o_pauseOnHover (init n v b p l t autoPlay hover w h) = hover.
Proof. unfold init, resize, setResponsiveEvents. by destruct b. Qed.

(** ** What is seen *)

(** The item [x] at [q], measured from the edge of a window [wide] pixels wide, is seen. *)
Definition seen (l : list nat) (from w wide : Q) (x : nat) (q : Q) : Prop :=
  exists i, l !! i = Some x /\ (q == from + inject_Z (Z.of_nat i) * w)%Q /\ (- w < q)%Q /\ (q < wide)%Q.

Lemma inject_S i : (inject_Z (Z.of_nat (S i)) == inject_Z (Z.of_nat i) + 1)%Q.
Proof. rewrite Nat2Z.inj_succ. unfold Z.succ. rewrite inject_Z_plus. reflexivity. Qed.

Lemma inject_0 : (inject_Z (Z.of_nat 0) == 0)%Q.
Proof. reflexivity. Qed.

Lemma beyond (v : positive) (m : nat) (w wide : Q) : (Zpos v <= Z.of_nat m) -> (0 < w)%Q -> (w == wide / inject_Z (Zpos v))%Q ->
  (wide <= inject_Z (Z.of_nat m) * w)%Q.
Proof.
  intros Hv Hw E. assert (wide == inject_Z (Zpos v) * w)%Q as ->.
  { rewrite E. field. intros H. by apply (inject_Z_injective (Zpos v) 0) in H. }
  apply Qmult_le_compat_r; [by rewrite <- Zle_Qle|by apply Qlt_le_weak].
Qed.

(** Everything one item to the right, in another order. *)
Lemma seen_rotate x m (v : positive) (w wide : Q) y q : (Zpos v < Z.of_nat (length m)) -> (0 < w)%Q -> (w == wide / inject_Z (Zpos v))%Q ->
  seen (x :: m) (- w - w) w wide y q <-> seen (m ++ [x]) (- w) w wide y q.
Proof.
  intros Hv Hw E. split; intros (i & Hi & Hq & H1 & H2).
  - destruct i as [|i]; [exfalso; rewrite inject_0 in Hq; lra|]. rewrite inject_S in Hq. exists i.
    split; [rewrite lookup_app_l; [exact Hi|by apply lookup_lt_Some in Hi; cbn in Hi; lia]|]. split; [rewrite Hq; ring|done].
  - destruct (decide (i < length m)%nat) as [Hl|Hl].
    + rewrite lookup_app_l in Hi by done. exists (S i). split; [exact Hi|]. split; [rewrite inject_S, Hq; ring|done].
    + exfalso. assert (i = length m) as -> by (apply lookup_lt_Some in Hi; rewrite length_app in Hi; cbn in Hi; lia).
      destruct (length m) as [|j] eqn:Ej; [lia|]. rewrite inject_S in Hq. pose proof (beyond v j w wide ltac:(lia) Hw E). lra.
Qed.

Lemma seen_rotate_back x m (v : positive) (w wide : Q) y q : (Zpos v <= Z.of_nat (length m)) -> (0 < w)%Q -> (w == wide / inject_Z (Zpos v))%Q ->
  seen (m ++ [x]) 0 w wide y q <-> seen (x :: m) (- w) w wide y q.
Proof.
  intros Hv Hw E. split; intros (i & Hi & Hq & H1 & H2).
  - destruct (decide (i < length m)%nat) as [Hl|Hl].
    + rewrite lookup_app_l in Hi by done. exists (S i). split; [exact Hi|]. split; [rewrite inject_S, Hq; ring|done].
    + exfalso. assert (i = length m) as -> by (apply lookup_lt_Some in Hi; rewrite length_app in Hi; cbn in Hi; lia).
      pose proof (beyond v (length m) w wide Hv Hw E). lra.
  - destruct i as [|i]; [exfalso; rewrite inject_0 in Hq; lra|]. rewrite inject_S in Hq. exists i.
    split; [rewrite lookup_app_l; [exact Hi|by apply lookup_lt_Some in Hi; cbn in Hi; lia]|]. split; [rewrite Hq; ring|done].
Qed.

(** What is seen in a state, and where the list is when its first move has run. *)
Definition shows (s : flexisel) : nat -> Q -> Prop := seen (children s) (left s) (itemsWidth s) (inner s).
Definition arrived (s : flexisel) : flexisel := match runs s with r :: _ => s <| left := target r |> | [] => s end.

Lemma seen_eq l a a' w w' wide x q : (a == a')%Q -> (w == w')%Q -> seen l a w wide x q <-> seen l a' w' wide x q.
Proof.
  intros Ea Ew. split; intros (i & Hi & Hq & H1 & H2); exists i; (split; [done|]); (split; [by rewrite ?Ea, ?Ew in *|]).
  - by rewrite <- Ew.
  - by rewrite Ew.
Qed.

Lemma width_positive (wide : Q) (v : positive) : (0 < wide)%Q -> (0 < wide / inject_Z (Zpos v))%Q.
Proof. intros H. apply Qlt_shift_div_l; [done|]. by rewrite Qmult_0_l. Qed.

Lemma scroll_seamless n s p (dir : bool) y q : follows n s p -> moving p = None -> free p = true -> (0 < inner s)%Q ->
  Zpos (itemsVisible s) + 1 < Z.of_nat n ->
  shows (arrived (scroll dir s)) y q <-> shows (complete 0 (scroll dir s)) y q.
Proof.
  intros [A B C] Hm Hf Hi Hv. rewrite Hm in C. destruct C as (C1 & C2 & C3). unfold scroll, complete, arrived. rewrite B, Hf. cbn. rewrite C1. cbn.
  unfold shows. cbn -[Qdiv Qplus Qminus Qopp seen]. set (w := (inner s / inject_Z (Zpos (itemsVisible s)))%Q) in *.
  pose proof (width_positive (inner s) (itemsVisible s) Hi) as Hw. fold w in Hw. rewrite A.
  destruct dir; unfold adjustScroll.
  - pose proof (ring_nodup n (turned p)) as Hnd. pose proof (ring_length n (turned p)) as Hl.
    destruct (ring n (turned p)) as [|x m]; [cbn in Hl; lia|]. cbn in Hl. rewrite first_to_end_rotates; [|done|intros ->; cbn in Hl; lia].
    rewrite <- (seen_rotate x m (itemsVisible s) w (inner s) y q ltac:(lia) Hw (Qeq_refl _)). apply seen_eq; [|reflexivity]. lra.
  - pose proof (ring_nodup n (turned p)) as Hnd. pose proof (ring_length n (turned p)) as Hl.
    destruct (exists_last (l := ring n (turned p)) ltac:(intros E; rewrite E in Hl; cbn in Hl; lia)) as (m & x & E). rewrite E in Hnd, Hl |- *.
    rewrite length_app in Hl. cbn in Hl. rewrite last_to_front_rotates; [|done|intros ->; cbn in Hl; lia].
    rewrite <- (seen_rotate_back x m (itemsVisible s) w (inner s) y q ltac:(lia) Hw (Qeq_refl _)). apply seen_eq; [|reflexivity]. lra.
Qed.

(** ** The properties *)

Section properties.
Context (n : nat) (v : positive) (b : bool) (p l t : breakpoint) (autoPlay hover : bool) (w : Q) (h : Z).

Lemma run_follows log : (1 <= n)%nat -> patient autoPlay hover (mk_spec (-1) None true) log = true ->
  follows (n + n) (acts log (init n v b p l t autoPlay hover w h)) (spec_run autoPlay hover log (mk_spec (-1) None true)).
Proof.
  intros Hn Hp. destruct (init_options n v b p l t autoPlay hover w h) as [E1 E2].
  pose proof (acts_follows (n + n) log (init n v b p l t autoPlay hover w h) (mk_spec (-1) None true) ltac:(lia)) as H.
  rewrite E1, E2 in H. apply H; [done|]. by apply init_follows.
Qed.

(** C38. A carousel refines a ring that is turned: whatever is pressed, whenever the timer
    ticks, the window is resized and moves end, as long as the pointer does not leave an
    item while a move runs, the list holds its [n] items and their clones, each once, in
    the order of the ring turned by the moves that ended (one back at the beginning), at
    most one move runs, and at rest the list begins one item left of the window, whose
    width is that of the visible items. *)
Theorem flexisel_ring log : (1 <= n)%nat -> patient autoPlay hover (mk_spec (-1) None true) log = true ->
  let s := acts log (init n v b p l t autoPlay hover w h) in
  let a := spec_run autoPlay hover log (mk_spec (-1) None true) in
  children s = ring (n + n) (turned a) /\ canNavigate s = free a /\ to_right <$> runs s = option_list (moving a) /\
  (moving a = None -> (left s == - itemsWidth s)%Q /\ (inner s == inject_Z (Zpos (itemsVisible s)) * itemsWidth s)%Q).
Proof.
  intros Hn Hp s a. destruct (run_follows log Hn Hp) as [A B C]. fold s a in A, B, C. split; [exact A|]. split; [exact B|].
  destruct (moving a) as [r|]; cbn.
  - destruct C as (_ & x & ->). by split.
  - destruct C as (-> & C2 & C3). split; [done|]. intros _. split; [exact C2|]. rewrite C3. field.
    intros H. by apply (inject_Z_injective (Zpos (itemsVisible s)) 0) in H.
Qed.

End properties.

(** ** Runs

    Three pictures and their clones in a window for two of them: the properties at
    such runs, and what the code does where it does not do what it means to. *)


Definition phones : breakpoint := mk_breakpoint 480 1.
Definition sideways : breakpoint := mk_breakpoint 640 2.
Definition tablets : breakpoint := mk_breakpoint 768 3.
Definition pictures (responsive autoPlay hover : bool) (page : Z) : flexisel :=
  init 3 2 responsive phones sideways tablets autoPlay hover 300%Q page.

Lemma flexisel_ring_witness :
  let log := [Right; Complete 0; Enter; Right; AutoPlay; Leave; Left; Complete 0; AutoPlay; Resize 400%Q 700; Complete 0] in
  let s := acts log (pictures true true true 1000) in
  children s = ring 6 0 /\ canNavigate s = true /\ to_right <$> runs s = [] /\
  ((left s == - itemsWidth s)%Q /\ (inner s == inject_Z (Zpos (itemsVisible s)) * itemsWidth s)%Q).
Proof.
  intros log s. destruct (flexisel_ring 3 2 true phones sideways tablets true true 300%Q 1000 log ltac:(lia) eq_refl) as (A & B & C & D).
  split; [exact A|]. split; [exact B|]. split; [exact C|]. exact (D eq_refl).
Defined.


(** The second picture is at the left edge of the window after one move. *)
Example second_at_the_edge : shows (acts [Right; Complete 0] (pictures false false true 1000)) 1 0%Q.
Proof. exists 1%nat. repeat split; vm_compute; reflexivity. Qed.

(** The items are made one item wide at the beginning; moving two to the front was meant,
    but the set of items is old: only one is there. *)
Example one_in_front : children (pictures false false true 1000) = [5; 0; 1; 2; 3; 4]%nat.
Proof. reflexivity. Qed.

(** On a page exactly as wide as the greatest telephone the items are those of a desk. *)
Example exactly_at_the_point :
  itemsVisible (init 3 4 true phones sideways tablets false true 300%Q 479) = 1%positive /\
  itemsVisible (init 3 4 true phones sideways tablets false true 300%Q 480) = 4%positive /\
  itemsVisible (init 3 4 true phones sideways tablets false true 300%Q 481) = 2%positive.
Proof. repeat split; reflexivity. Qed.

(** The pointer leaves an item while a move to the left runs: a move to the right begins
    with the same set of items, and its end moves none: once both have run the list is
    one item off from where it began. *)
Example move_is_lost :
  let s := pictures false false true 1000 in
  children (acts [Left; Leave; Right; Complete 0; Complete 0] s) = [4; 5; 0; 1; 2; 3]%nat /\
  children (acts [Left; Complete 0; Right; Complete 0] s) = children s.
Proof. split; reflexivity. Qed.

(** The timer moves the list under the pointer, once the move that ran when the pointer
    came has ended. *)
Example moves_under_the_pointer :
  let s := acts [AutoPlay; Enter; Complete 0] (pictures false true true 1000) in
  canNavigate s = true /\ runs (act AutoPlay s) <> [].
Proof. vm_compute. split; [reflexivity|discriminate]. Qed.
