(* ===== verification/OwlLayout.v ===== *)
(** * [owl.carousel.js], part 1: options and geometry

    Models the sizing half of [2019104287/code/WebContent/js/owl.carousel.js]
    (version 1.31, used by the hotel's front page): how many items are shown at
    a window width, the item width, the pixel position and the round page of
    every item, and the pagination bar.  Widths and positions are integers, as
    the code rounds the item width. *)

From S2P Require Export JsValue.
From Stdlib Require Import Sorted.

(** [false], [true] or a number of milliseconds. *)
Inductive autoplay := PlayFalse | PlayTrue | PlayMs (ms : Z).

#[export] Instance autoplay_eq_dec : EqDecision autoplay.
Proof. solve_decision. Defined.

(** The options read by the modelled functions.  A breakpoint [[width, items]]
    may be [false] ([None]); [callbacks] lists the callback options that hold a
    function. *)
Record options := mk_options {
  items : Z;
  itemsCustom : option (list (Z * Z));
  itemsDesktop : option (Z * Z);
  itemsDesktopSmall : option (Z * Z);
  itemsTablet : option (Z * Z);
  itemsTabletSmall : option (Z * Z);
  itemsMobile : option (Z * Z);
  singleItem : bool;
  itemsScaleUp : bool;
  slideSpeed : Z;
  paginationSpeed : Z;
  rewindSpeed : Z;
  autoPlay : autoplay;
  stopOnHover : bool;
  navigation : bool;
  rewindNav : bool;
  scrollPerPage : bool;
  pagination : bool;
  paginationNumbers : bool;
  responsive : bool;
  lazyLoad : bool;
  lazyFollow : bool;
  autoHeight : bool;
  dragBeforeAnimFinish : bool;
  mouseDrag : bool;
  touchDrag : bool;
  addClassActive : bool;
  transitionStyle : option string;
  callbacks : list string;
}.

#[export] Instance options_eta : Settable options := fun o =>
  mk_options (items o) (itemsCustom o) (itemsDesktop o) (itemsDesktopSmall o)
    (itemsTablet o) (itemsTabletSmall o) (itemsMobile o) (singleItem o) (itemsScaleUp o)
    (slideSpeed o) (paginationSpeed o) (rewindSpeed o) (autoPlay o) (stopOnHover o)
    (navigation o) (rewindNav o) (scrollPerPage o) (pagination o) (paginationNumbers o)
    (responsive o) (lazyLoad o) (lazyFollow o) (autoHeight o) (dragBeforeAnimFinish o)
    (mouseDrag o) (touchDrag o) (addClassActive o) (transitionStyle o) (callbacks o).

(** [$.fn.owlCarousel.options]. *)
Definition default_options : options :=
  {| items := 1; itemsCustom := None; itemsDesktop := Some (1199, 1);
     itemsDesktopSmall := Some (979, 1); itemsTablet := Some (768, 1);
     itemsTabletSmall := None; itemsMobile := Some (479, 1); singleItem := false;
     itemsScaleUp := false; slideSpeed := 200; paginationSpeed := 800;
     rewindSpeed := 1000; autoPlay := PlayFalse; stopOnHover := false;
     navigation := false; rewindNav := true; scrollPerPage := false;
     pagination := true; paginationNumbers := false; responsive := true;
     lazyLoad := false; lazyFollow := true; autoHeight := false;
     dragBeforeAnimFinish := true; mouseDrag := true; touchDrag := true;
     addClassActive := false; transitionStyle := None; callbacks := [] |}.

Definition set_breakpoints (custom : option (list (Z * Z)))
    (desktop small tablet tsmall mobile : option (Z * Z)) (o : options) : options :=
  o <| itemsCustom := custom |> <| itemsDesktop := desktop |> <| itemsDesktopSmall := small |>
    <| itemsTablet := tablet |> <| itemsTabletSmall := tsmall |> <| itemsMobile := mobile |>.

(** ** [updateItems]: the number of items at a window width *)

(** [itemsCustom.sort(function(a,b){return a[0]-b[0];})]: a stable sort. *)
Fixpoint insert_custom (e : Z * Z) (l : list (Z * Z)) : list (Z * Z) :=
  match l with
  | [] => [e]
  | d :: l' => if fst d <=? fst e then d :: insert_custom e l' else e :: l
  end.
Definition sort_custom (l : list (Z * Z)) : list (Z * Z) :=
  fold_left (fun acc e => insert_custom e acc) l [].

(** [if(width <= bp[0] && bp !== false) items = bp[1]]. *)
Definition below (width : Z) (bp : option (Z * Z)) (n : Z) : Z :=
  match bp with
  | Some (w, k) => if width <=? w then k else n
  | None => n
  end.

(** [itemsDesktop[0] || orignalItems]. *)
Definition desktop_limit (o : options) (orignalItems : Z) : Z :=
  match itemsDesktop o with
  | Some (w, _) => if w =? 0 then orignalItems else w
  | None => orignalItems
  end.

(** Returns the options and [orignalItems]. *)
Definition updateItems (width itemsAmount orignalItems : Z) (o : options) : options * Z :=
  if negb (responsive o) then (o, orignalItems)
  else if singleItem o then
    (set_breakpoints None None None None None None (o <| items := 1 |>), 1)
  else
    let n := if desktop_limit o orignalItems <? width then orignalItems else items o in
    let '(o, n) :=
      match itemsCustom o with
      | Some l =>
          let l := sort_custom l in
          (o <| itemsCustom := Some l |>,
           fold_left (fun n e => if fst e <=? width then snd e else n) l n)
      | None =>
          (o, below width (itemsMobile o) (below width (itemsTabletSmall o)
                (below width (itemsTablet o) (below width (itemsDesktopSmall o)
                  (below width (itemsDesktop o) n)))))
      end in
    let n := if (itemsAmount <? n) && itemsScaleUp o then itemsAmount else n in
    (o <| items := n |>, orignalItems).

(** ** Geometry *)

(** [Math.round(w / n)] for integers, [n > 0]. *)
Definition js_round_div (w n : Z) : Z := (2 * w + n) / (2 * n).

(** The arrays and bounds [calculateAll] computes.  An array element that was
    never assigned is [None]. *)
Record layout := mk_layout {
  itemsAmount : Z;
  itemWidth : Z;
  wrapperWidth : Z;
  roundPages : list Z;
  positionsInArray : list Z;
  pagesInArray : list (option Z);
  maximumItem : Z;
  maximumPixels : Z;
}.

Definition calculateWidth (elWidth : Z) (o : options) : Z := js_round_div elWidth (items o).

(** [appendItemsSizes]: the round page stored on every item. *)
Definition appendItemsSizes (amount : Z) (o : options) : list Z :=
  let lastItem := amount - items o in
  fst (fold_left (fun '(acc, roundPages) index =>
      let roundPages :=
        if (index mod items o =? 0) || (index =? lastItem)
        then if negb (lastItem <? index) then roundPages + 1 else roundPages
        else roundPages in
      (acc ++ [roundPages], roundPages))
    (zrange 0 (Z.to_nat amount)) ([], 0)).

(** [a[i] = v]: an assignment past the end extends the array. *)
Definition js_set (l : list (option Z)) (i : nat) (v : option Z) : list (option Z) :=
  if (i <? length l)%nat then <[i := v]> l
  else l ++ repeat None (i - length l) ++ [v].

(** [loops]: the positions, and the position of the first item of every round
    page when paging. *)
Definition loops (amount w : Z) (rp : list Z) (o : options) : list Z * list (option Z) :=
  let '(pos, pages, _, _) :=
    fold_left (fun '(pos, pages, prev, elWidth) i =>
        let elWidth := elWidth + w in
        let pos := pos ++ [- elWidth] in
        if scrollPerPage o then
          match zlookup rp i with
          | Some roundPageNum =>
              if roundPageNum =? prev then (pos, pages, prev, elWidth)
              else (pos, js_set pages (Z.to_nat prev) (zlookup pos i), roundPageNum, elWidth)
          | None => (pos, pages, prev, elWidth)
          end
        else (pos, pages, prev, elWidth))
      (zrange 0 (Z.to_nat amount)) ([0], [], 0, 0) in
  (pos, pages).

(** [max]: [maximumItem] and [maximumPixels]. *)
Definition max (amount w : Z) (o : options) : Z * Z :=
  let maximum := ((amount * w) - items o * w) * -1 in
  if amount <? items o then (0, 0) else (amount - items o, maximum).

Definition calculateAll (elWidth amount : Z) (o : options) : layout :=
  let w := calculateWidth elWidth o in
  let width := amount * w in
  let rp := appendItemsSizes amount o in
  let '(pos, pages) := loops amount w rp o in
  let '(mi, mp) := max amount w o in
  mk_layout amount w (width * 2) rp pos pages mi mp.

(** ** The pagination bar *)

(** A page button: its text when numbered, the item it leads to, its round page
    and whether it is marked active. *)
Record page := mk_page {
  page_text : option Z; page_item : Z; page_round : Z; page_active : bool
}.

Definition updatePagination_pages (amount : Z) (o : options) : list page :=
  let lastPage := amount - amount mod items o in
  let lastItem := amount - items o in
  fst (fold_left (fun '(acc, counter) i =>
      if i mod items o =? 0 then
        let counter := counter + 1 in
        (acc ++ [mk_page (if paginationNumbers o then Some counter else None)
                   (if lastPage =? i then lastItem else i) counter false], counter)
      else (acc, counter))
    (zrange 0 (Z.to_nat amount)) ([], 0)).

(** [checkPagination]: every page whose round page is the current item's becomes
    the only active one. *)
Definition checkPagination (currentItem : Z) (rp : list Z) (o : options) (pages : list page)
    : list page :=
  if negb (pagination o) then pages else
  fst (fold_left (fun '(pages, i) v =>
      if bool_decide (zlookup rp currentItem = Some (page_round v))
      then (imap (fun j p => mk_page (page_text p) (page_item p) (page_round p)
                               (Nat.eqb j i)) pages, S i)
      else (pages, S i)) pages (pages, 0%nat)).

Definition updatePagination (currentItem amount : Z) (rp : list Z) (o : options)
    (pages : list page) : list page :=
  if negb (pagination o) then pages
  else checkPagination currentItem rp o (updatePagination_pages amount o).

(** ** Breakpoints *)

Definition by_width (a b : Z * Z) : Prop := fst a <= fst b.

Lemma insert_custom_perm e l : insert_custom e l ≡ₚ e :: l.
Proof.
  induction l as [|d l IH]; simpl; [done|]. destruct (fst d <=? fst e); [|done].
  rewrite IH. constructor.
Qed.

Lemma insert_custom_sorted e l :
  StronglySorted by_width l -> StronglySorted by_width (insert_custom e l).
Proof.
  induction 1 as [|d l Hs IH Hd]; simpl; [by repeat constructor|].
  destruct (Z.leb_spec (fst d) (fst e)) as [Hle|Hlt].
  - constructor; [done|]. rewrite insert_custom_perm. by constructor.
  - constructor; [by constructor|]. constructor; [unfold by_width; lia|].
    eapply Forall_impl; [exact Hd|]. unfold by_width. intros; lia.
Qed.

Lemma sort_custom_spec l :
  sort_custom l ≡ₚ l /\ StronglySorted by_width (sort_custom l).
Proof.
  unfold sort_custom.
  cut (forall acc, StronglySorted by_width acc ->
    fold_left (fun acc e => insert_custom e acc) l acc ≡ₚ l ++ acc /\
    StronglySorted by_width (fold_left (fun acc e => insert_custom e acc) l acc)).
  { intros H. destruct (H [] ltac:(constructor)) as [Hp Hs].
    by rewrite app_nil_r in Hp. }
  induction l as [|e l IH]; intros acc Hacc; simpl; [done|].
  destruct (IH (insert_custom e acc)) as [Hp Hs]; [by apply insert_custom_sorted|].
  split; [|done]. by rewrite Hp, insert_custom_perm, Permutation_middle.
Qed.

(** The loop over the sorted entries keeps the last one that fits, which has the
    greatest width. *)
Lemma fold_custom width l n :
  StronglySorted by_width l ->
  let r := fold_left (fun n e => if fst e <=? width then snd e else n) l n in
  (exists w k, (w, k) ∈ l /\ w <= width /\ r = k /\
     forall w' k', (w', k') ∈ l -> w' <= width -> w' <= w) \/
  (Forall (fun e => width < fst e) l /\ r = n).
Proof.
  intros Hs. revert n. induction Hs as [|[w k] l Hs IH Hd]; intros n; simpl; [by right|].
  rewrite Forall_forall in Hd. unfold by_width in Hd. simpl in Hd.
  destruct (Z.leb_spec w width) as [Hle|Hlt].
  - destruct (IH k) as [(w1 & k1 & Hin & Hw & -> & Hmax)|[Hall ->]]; left.
    + exists w1, k1. split_and!; [by right|done..|].
      intros w' k' [[= -> ->]|Hin']%elem_of_cons Hw'; [apply (Hd _ Hin)|eauto].
    + exists w, k. split_and!; [by left|done..|].
      rewrite Forall_forall in Hall.
      intros w' k' [[= -> ->]|Hin']%elem_of_cons Hw'; [done|].
      specialize (Hall _ Hin'). simpl in Hall. lia.
  - destruct (IH n) as [(w1 & k1 & Hin & Hw & _)|[Hall ->]].
    + specialize (Hd _ Hin). simpl in Hd. lia.
    + right. by repeat constructor.
Qed.

(** ** Round pages *)

Section round_pages.
Context (amount : Z) (o : options).
Hypothesis Hn : 1 <= items o <= amount.

Abbreviation n := (items o).
Abbreviation lastItem := (amount - items o).

(** The number of pages, the item a page starts at, the page of an item. *)
Definition page_count : Z := (amount + n - 1) / n.
Definition page_target (k : Z) : Z := Z.min (k * n) lastItem.
Definition round_of (j : Z) : Z := if j <? lastItem then j / n + 1 else page_count.

Lemma page_count_bounds : (page_count - 1) * n < amount <= page_count * n.
Proof.
  unfold page_count. pose proof (Z.div_mod (amount + n - 1) n ltac:(lia)).
  pose proof (Z.mod_pos_bound (amount + n - 1) n ltac:(lia)). nia.
Qed.

Lemma div_unique' a q : q * n <= a < (q + 1) * n -> a / n = q.
Proof. intros H. symmetry. apply (Z.div_unique a n q (a - q * n)); nia. Qed.

Lemma mod_0_iff a : a mod n = 0 <-> exists q, a = q * n.
Proof.
  split.
  - intros H. exists (a / n). pose proof (Z.div_mod a n ltac:(lia)). lia.
  - intros [q ->]. apply Z.mod_mul. lia.
Qed.

Lemma round_of_bounds j : 0 <= j -> 1 <= round_of j <= page_count.
Proof.
  intros Hj. pose proof page_count_bounds. unfold round_of. zcases; [|nia].
  pose proof (Z.div_mod j n ltac:(lia)). pose proof (Z.mod_pos_bound j n ltac:(lia)).
  pose proof (Z.div_pos j n ltac:(lia) ltac:(lia)). nia.
Qed.

Lemma round_of_target k : 0 <= k < page_count -> round_of (page_target k) = k + 1.
Proof.
  intros Hk. pose proof page_count_bounds. unfold round_of, page_target.
  destruct (Z.ltb_spec (Z.min (k * n) lastItem) lastItem) as [Hlt|Hge].
  - rewrite Z.min_l by lia. rewrite Z.div_mul; lia.
  - assert (k * n >= lastItem) by lia. nia.
Qed.

(** The step of [appendItemsSizes]. *)
Lemma round_of_step j :
  0 <= j < amount ->
  round_of j =
  (let prev := if j =? 0 then 0 else round_of (j - 1) in
   if (j mod n =? 0) || (j =? lastItem)
   then if negb (lastItem <? j) then prev + 1 else prev else prev).
Proof.
  intros Hj. cbv zeta. pose proof page_count_bounds as Hp.
  assert (j mod n = 0 <-> exists q, j = q * n) as Hmod by apply mod_0_iff.
  pose proof (Z.div_mod j n ltac:(lia)) as Hd.
  pose proof (Z.mod_pos_bound j n ltac:(lia)) as Hm.
  assert (j <> 0 -> j mod n <> 0 -> (j - 1) / n = j / n) as Hsame.
  { intros. apply div_unique'. nia. }
  assert (j mod n = 0 -> (j - 1) / n = j / n - 1) as Hstep.
  { intros. apply div_unique'. nia. }
  unfold round_of. destruct (Z.eqb_spec j 0) as [->|Hj0].
  - rewrite Z.mod_0_l, Z.div_0_l by lia. rewrite Z.eqb_refl. simpl.
    zcases; simpl; try lia. nia.
  - destruct (Z.eqb_spec (j mod n) 0) as [E|E]; simpl; zcases; simpl; try lia.
    + assert (j = lastItem) as -> by lia. rewrite Hstep by done. nia.
    + assert (j = lastItem) as -> by lia. rewrite Hsame by done. nia.
Qed.

Lemma round_of_new j :
  0 <= j < amount ->
  let prev := if j =? 0 then 0 else round_of (j - 1) in
  round_of j = prev \/ (round_of j = prev + 1 /\ j = page_target prev).
Proof.
  intros Hj. pose proof (round_of_step j Hj) as Hs. cbv zeta in *. revert Hs.
  pose proof page_count_bounds as Hp. unfold page_target.
  destruct (Z.eqb_spec j 0) as [->|Hj0].
  { intros ->. destruct (_ || _); [|by left]. zcases; simpl; [by left|right; lia]. }
  destruct ((j mod n =? 0) || (j =? lastItem)) eqn:E; [|by left].
  destruct (Z.ltb_spec lastItem j); simpl; [by left|]. intros ->. right. split; [done|].
  unfold round_of. rewrite (proj2 (Z.ltb_lt (j - 1) lastItem)) by lia.
  pose proof (Z.div_mod (j - 1) n ltac:(lia)). pose proof (Z.mod_pos_bound (j - 1) n ltac:(lia)).
  pose proof (Z.div_mod j n ltac:(lia)). pose proof (Z.mod_pos_bound j n ltac:(lia)).
  apply orb_true_iff in E as [E|E]; apply Z.eqb_eq in E; [|nia].
  assert ((j - 1) / n = j / n - 1) by (apply div_unique'; nia). nia.
Qed.

Lemma appendItemsSizes_eq :
  appendItemsSizes amount o = round_of <$> zrange 0 (Z.to_nat amount).
Proof.
  unfold appendItemsSizes.
  match goal with |- fst (fold_left ?f (zrange 0 ?m) _) = _ =>
    cut (let '(acc, r) := fold_left f (zrange 0 m) ([], 0) in
         acc = round_of <$> zrange 0 m /\
         r = if Z.of_nat m =? 0 then 0 else round_of (Z.of_nat m - 1)) end.
  { destruct (fold_left _ _ _). by intros [-> _]. }
  apply (fold_zrange_ind _ (fun m '(acc, r) => acc = round_of <$> zrange 0 m /\
    r = if Z.of_nat m =? 0 then 0 else round_of (Z.of_nat m - 1))); [done|].
  intros k [acc r] Hk [-> ->].
  pose proof (round_of_step (Z.of_nat k) ltac:(lia)) as Hs. cbv zeta in Hs.
  rewrite <- Hs, zrange_S, fmap_app. split; [done|].
  rewrite (proj2 (Z.eqb_neq (Z.of_nat (S k)) 0)) by lia.
  by replace (Z.of_nat (S k) - 1) with (Z.of_nat k) by lia.
Qed.

(** The page buttons lead to the targets. *)
Definition page_button (k : Z) : page :=
  mk_page (if paginationNumbers o then Some (k + 1) else None) (page_target k) (k + 1) false.

Lemma updatePagination_pages_eq :
  updatePagination_pages amount o = page_button <$> zrange 0 (Z.to_nat page_count).
Proof.
  pose proof page_count_bounds as Hp. unfold updatePagination_pages.
  set (cnt := fun m => (m + n - 1) / n).
  match goal with |- fst (fold_left ?f (zrange 0 ?m) _) = _ =>
    cut (let '(acc, c) := fold_left f (zrange 0 m) ([], 0) in
         acc = page_button <$> zrange 0 (Z.to_nat (cnt (Z.of_nat m))) /\ c = cnt (Z.of_nat m)) end.
  { destruct (fold_left _ _ _). intros [-> _]. simpl. unfold cnt, page_count. repeat f_equal. lia. }
  apply (fold_zrange_ind _ (fun m '(acc, c) =>
    acc = page_button <$> zrange 0 (Z.to_nat (cnt (Z.of_nat m))) /\ c = cnt (Z.of_nat m))).
  { unfold cnt. rewrite Z.div_small by lia. done. }
  intros k [acc c] Hk [-> ->]. unfold cnt.
  pose proof (Z.div_mod (Z.of_nat k) n ltac:(lia)) as Hd.
  pose proof (Z.mod_pos_bound (Z.of_nat k) n ltac:(lia)) as Hm.
  pose proof (Z.div_mod (Z.of_nat k + n - 1) n ltac:(lia)) as Hd1.
  pose proof (Z.mod_pos_bound (Z.of_nat k + n - 1) n ltac:(lia)) as Hm1.
  assert ((Z.of_nat (S k) + n - 1) / n = Z.of_nat k / n + 1) as ->.
  { apply div_unique'. nia. }
  destruct (Z.eqb_spec (Z.of_nat k mod n) 0) as [E|E].
  - assert ((Z.of_nat k + n - 1) / n = Z.of_nat k / n) as -> by (apply div_unique'; nia).
    pose proof (Z.div_pos (Z.of_nat k) n ltac:(lia) ltac:(lia)).
    split; [|done]. 
    replace (Z.to_nat (Z.of_nat k / n + 1)) with (S (Z.to_nat (Z.of_nat k / n))) by lia.
    rewrite zrange_S, fmap_app. f_equal. csimpl.
    rewrite Z2Nat.id by lia. unfold page_button. rewrite Z.add_0_l. do 2 f_equal.
    unfold page_target.
    pose proof (Z.div_mod amount n ltac:(lia)). pose proof (Z.mod_pos_bound amount n ltac:(lia)).
    replace (Z.of_nat k / n * n) with (Z.of_nat k) by lia.
    destruct (Z.eqb_spec (amount - amount mod n) (Z.of_nat k)) as [|Hk']; [lia|].
    assert (Z.of_nat k / n <> amount / n) by (intros Heq; rewrite Heq in Hd; lia).
    assert (Z.of_nat k / n < amount / n + 1) by nia. nia.
  - assert ((Z.of_nat k + n - 1) / n = Z.of_nat k / n + 1) as -> by (apply div_unique'; nia).
    done.
Qed.

(** The pages array of [loops] holds the positions of the targets. *)
Lemma loops_eq w :
  loops amount w (appendItemsSizes amount o) o =
  ((fun i => - (i * w)) <$> zrange 0 (S (Z.to_nat amount)),
   if scrollPerPage o
   then (fun k => Some (- (page_target k * w))) <$> zrange 0 (Z.to_nat page_count)
   else []).
Proof.
  rewrite appendItemsSizes_eq. unfold loops.
  set (pos_of := fun i => - (i * w)). set (tgt := fun k => Some (- (page_target k * w))).
  set (last_round := fun m : nat => if Z.of_nat m =? 0 then 0 else round_of (Z.of_nat m - 1)).
  set (I := fun (m : nat) '(pos, pages, prev, elWidth) =>
    pos = pos_of <$> zrange 0 (S m) /\ elWidth = Z.of_nat m * w /\
    if scrollPerPage o then prev = last_round m /\ pages = tgt <$> zrange 0 (Z.to_nat prev)
    else prev = 0 /\ pages = []).
  match goal with |- (let '_ := fold_left ?f ?l ?s in _) = _ =>
    assert (I (Z.to_nat amount) (fold_left f l s)) as HI end.
  { apply (fold_zrange_ind _ I).
    { unfold I. split_and!; [unfold pos_of; by rewrite ?Z.mul_0_l|done|]. by case_match. }
    intros k [[[pos pages] prev] elWidth] Hk (-> & -> & Hrest).
    assert ((pos_of <$> zrange 0 (S k)) ++ [- (Z.of_nat k * w + w)]
            = pos_of <$> zrange 0 (S (S k))) as Hpos.
    { rewrite (zrange_S 0 (S k)), fmap_app. f_equal. csimpl. unfold pos_of. do 2 f_equal. lia. }
    unfold I. rewrite Hpos. destruct (scrollPerPage o); [|naive_solver lia].
    destruct Hrest as [-> ->].
    rewrite zlookup_zrange_map by lia.
    assert (last_round (S k) = round_of (Z.of_nat k)) as Hlast.
    { unfold last_round. rewrite (proj2 (Z.eqb_neq _ _)) by lia. f_equal. lia. }
    destruct (round_of_new (Z.of_nat k) ltac:(lia)) as [Heq|[Heq Htgt]];
      fold (last_round k) in Heq.
    - rewrite Heq, Z.eqb_refl. split_and!; [done|lia|congruence|done].
    - fold (last_round k) in Htgt. rewrite Heq, (proj2 (Z.eqb_neq _ _)) by lia.
      assert (0 <= last_round k) as Hlr.
      { unfold last_round. case_match; [lia|]. pose proof (round_of_bounds (Z.of_nat k - 1)). lia. }
      split_and!; [done|lia|congruence|].
      unfold js_set. rewrite length_fmap, length_zrange, Nat.ltb_irrefl, Nat.sub_diag.
      replace (Z.to_nat (last_round k + 1)) with (S (Z.to_nat (last_round k))) by lia.
      rewrite zlookup_zrange_map by lia.
      rewrite (zrange_S 0 (Z.to_nat (last_round k))), fmap_app. f_equal. csimpl.
      unfold tgt, pos_of. rewrite Z2Nat.id by lia. rewrite Z.add_0_l, <- Htgt. done. }
  revert HI. destruct (fold_left _ _ _) as [[[pos pages] prev] elWidth].
  intros (-> & _ & Hrest). f_equal. destruct (scrollPerPage o); [|naive_solver].
  destruct Hrest as [-> ->]. do 3 f_equal. unfold last_round.
  rewrite (proj2 (Z.eqb_neq _ _)) by lia. unfold round_of.
  rewrite (proj2 (Z.ltb_ge _ _)) by lia. done.
Qed.
End round_pages.

Lemma loops_positions amount w rp o :
  fst (loops amount w rp o) = (fun i => - (i * w)) <$> zrange 0 (S (Z.to_nat amount)).
Proof.
  unfold loops. set (pos_of := fun i => - (i * w)).
  set (I := fun (m : nat) (s : list Z * list (option Z) * Z * Z) =>
    let '(pos, _, _, elWidth) := s in
    pos = pos_of <$> zrange 0 (S m) /\ elWidth = Z.of_nat m * w).
  match goal with |- fst (let '_ := fold_left ?f ?l ?s in _) = _ =>
    assert (I (Z.to_nat amount) (fold_left f l s)) as HI end.
  { apply (fold_zrange_ind _ I).
    { split; [|done]. unfold pos_of. simpl. by rewrite ?Z.mul_0_l. }
    intros k [[[pos pages] prev] elWidth] Hk [-> ->].
    assert ((pos_of <$> zrange 0 (S k)) ++ [- (Z.of_nat k * w + w)]
            = pos_of <$> zrange 0 (S (S k))) as Hpos.
    { rewrite (zrange_S 0 (S k)), fmap_app. f_equal. csimpl. unfold pos_of. do 2 f_equal. lia. }
    unfold I. cases; rewrite Hpos; split; (done || lia). }
  revert HI. destruct (fold_left _ _ _) as [[[pos pages] prev] elWidth]. by intros [-> _].
Qed.

(** ** The active page *)

Definition activate (j : nat) (pages : list page) : list page :=
  imap (fun i p => mk_page (page_text p) (page_item p) (page_round p) (Nat.eqb i j)) pages.

Lemma checkPagination_at currentItem rp o pages l1 p l2 :
  pagination o = true -> pages = l1 ++ p :: l2 -> NoDup (page_round <$> pages) ->
  zlookup rp currentItem = Some (page_round p) ->
  checkPagination currentItem rp o pages = activate (length l1) pages.
Proof.
  intros Hp Heq Hnd Hcur. unfold checkPagination. rewrite Hp. simpl.
  set (f := fun '(pages, i) v => _).
  assert (forall vs i ps, page_round p ∉ page_round <$> vs ->
    fold_left f vs (ps, i) = (ps, (i + length vs)%nat)) as Hskip.
  { induction vs as [|v vs IH]; intros i ps Hni; simpl; [by rewrite Nat.add_0_r|].
    rewrite fmap_cons, not_elem_of_cons in Hni.
    rewrite bool_decide_eq_false_2 by (rewrite Hcur; naive_solver).
    rewrite IH by naive_solver. f_equal. lia. }
  rewrite Heq in Hnd. rewrite fmap_app, fmap_cons, NoDup_app, NoDup_cons in Hnd.
  destruct Hnd as (_ & Hl1 & Hl2 & _).
  replace (fold_left f pages) with (fold_left f (l1 ++ p :: l2)) by congruence.
  rewrite fold_left_app, Hskip; [|intros Hin; by apply (Hl1 _ Hin), elem_of_cons; left].
  simpl. rewrite bool_decide_eq_true_2 by done. by rewrite Hskip.
Qed.

Lemma filter_activate pages j p :
  pages !! j = Some p ->
  List.filter page_active (activate j pages)
  = [mk_page (page_text p) (page_item p) (page_round p) true].
Proof.
  unfold activate. revert j.
  assert (forall l : list page, List.filter page_active
    (imap (fun _ p => mk_page (page_text p) (page_item p) (page_round p) false) l) = []) as Hno.
  { intros l. by induction l. }
  induction pages as [|q pages IH]; intros [|j] Hj; [done..| |].
  - injection Hj as ->. simpl. f_equal. exact (Hno pages).
  - simpl. apply IH, Hj.
Qed.

(** ** Properties *)

Lemma calculateAll_fields elWidth amount o :
  let l := calculateAll elWidth amount o in
  let w := calculateWidth elWidth o in
  itemWidth l = w /\ roundPages l = appendItemsSizes amount o /\
  positionsInArray l = (fun i => - (i * w)) <$> zrange 0 (S (Z.to_nat amount)) /\
  pagesInArray l = snd (loops amount w (appendItemsSizes amount o) o) /\
  maximumItem l = (if amount <? items o then 0 else amount - items o) /\
  maximumPixels l = - (maximumItem l * w).
Proof.
  unfold calculateAll. cbv zeta.
  pose proof (loops_positions amount (calculateWidth elWidth o) (appendItemsSizes amount o) o)
    as Hpos.
  destruct (loops _ _ _ _) as [pos pages]. simpl in Hpos. subst pos.
  unfold max. destruct (amount <? items o); simpl; split_and!; try done; lia.
Qed.

(** The position of item [i] is [-(i * itemWidth)], for every item and the
    end of the strip; the left bound of a drag, [maximumPixels], is the position
    of [maximumItem], which is a valid index. *)
Theorem calculateAll_positions elWidth amount o :
  1 <= items o -> 0 <= amount ->
  let l := calculateAll elWidth amount o in
  (forall i, 0 <= i <= amount ->
     zlookup (positionsInArray l) i = Some (- (i * itemWidth l))) /\
  0 <= maximumItem l <= amount /\
  zlookup (positionsInArray l) (maximumItem l) = Some (maximumPixels l).
Proof.
  intros Hn Ha l. pose proof (calculateAll_fields elWidth amount o) as Hf. cbv zeta in Hf.
  fold l in Hf. destruct Hf as (-> & _ & -> & _ & Hm & ->).
  assert (0 <= maximumItem l <= amount) by (rewrite Hm; zcases; lia).
  split_and!; try lia.
  - intros i Hi. rewrite zlookup_zrange_map by lia. done.
  - by rewrite zlookup_zrange_map by lia.
Qed.

(** When there are at least as many items as are shown, the pagination bar
    has [ceil(itemsAmount / items)] pages; every page leads to an existing
    position at most [maximumItem], to an item of its own round page, and when
    scrolling by page the positions a drag can stop at are exactly those of the
    page targets. *)
Theorem pagination_targets elWidth amount o :
  1 <= items o <= amount ->
  let l := calculateAll elWidth amount o in
  let pages := updatePagination_pages amount o in
  (Z.of_nat (length pages) - 1) * items o < amount <= Z.of_nat (length pages) * items o /\
  Forall (fun p => 0 <= page_item p <= maximumItem l /\
            zlookup (roundPages l) (page_item p) = Some (page_round p)) pages /\
  (scrollPerPage o = true ->
     pagesInArray l = (fun p => zlookup (positionsInArray l) (page_item p)) <$> pages).
Proof.
  intros Hn l pages. pose proof (calculateAll_fields elWidth amount o) as Hf. cbv zeta in Hf.
  fold l in Hf. destruct Hf as (_ & -> & -> & -> & -> & _).
  pose proof (page_count_bounds amount o Hn) as Hp.
  unfold pages. rewrite updatePagination_pages_eq, loops_eq, appendItemsSizes_eq by done.
  rewrite (proj2 (Z.ltb_ge _ _)) by lia.
  assert (forall k, 0 <= k < page_count amount o -> 0 <= page_target amount o k <= amount - items o)
    as Ht by (intros; unfold page_target; nia).
  split_and!.
  - rewrite length_fmap, length_zrange. rewrite Z2Nat.id by nia. lia.
  - rewrite length_fmap, length_zrange. rewrite Z2Nat.id by nia. lia.
  - apply Forall_fmap, Forall_forall. intros k [Hk0 Hk]%elem_of_zrange. simpl.
    split; [apply Ht; lia|]. rewrite zlookup_zrange_map by (specialize (Ht k); lia).
    rewrite round_of_target by lia. done.
  - intros ->. cbn [snd]. rewrite <- list_fmap_compose. apply list_fmap_ext.
    intros i k [_ ->]%zrange_lookup. unfold compose, page_button. cbn [page_item].
    rewrite Z.add_0_l.
    destruct (decide (Z.of_nat i < page_count amount o)).
    + rewrite zlookup_zrange_map by (specialize (Ht (Z.of_nat i)); lia). done.
    + unfold page_target. rewrite zlookup_zrange_map by nia. done.
Qed.

(** Marking the page of an item, whatever page was marked before. *)
Lemma checkPagination_round currentItem amount o ps :
  1 <= items o <= amount -> pagination o = true -> 0 <= currentItem < amount ->
  page_round <$> ps = page_round <$> updatePagination_pages amount o ->
  checkPagination currentItem (appendItemsSizes amount o) o ps
  = activate (Z.to_nat (round_of amount o currentItem - 1)) ps.
Proof.
  intros Hn Hp Hc Hps. set (R := round_of amount o currentItem).
  pose proof (round_of_bounds amount o Hn currentItem ltac:(lia)) as HR. fold R in HR.
  rewrite updatePagination_pages_eq, <- list_fmap_compose in Hps by done.
  assert ((page_round <$> ps) !! Z.to_nat (R - 1) = Some R) as Hlook.
  { rewrite Hps, list_lookup_fmap.
    rewrite (proj2 (zrange_lookup 0 _ (Z.to_nat (R - 1)) (R - 1))) by lia.
    simpl. f_equal. lia. }
  rewrite list_lookup_fmap, fmap_Some in Hlook. destruct Hlook as (p & Hlook & HpR).
  pose proof (take_drop_middle _ _ _ Hlook) as Hsplit.
  rewrite (checkPagination_at currentItem _ o ps _ _ _ Hp (eq_sym Hsplit)).
  - by rewrite length_take_le by (apply lookup_lt_Some in Hlook; lia).
  - rewrite Hps. apply NoDup_fmap_2; [|apply NoDup_zrange]. intros x y. simpl. lia.
  - rewrite appendItemsSizes_eq, zlookup_zrange_map by (done || lia). by rewrite <- HpR.
Qed.

Lemma activate_rounds j ps : page_round <$> activate j ps = page_round <$> ps.
Proof.
  apply list_eq. intros i. unfold activate.
  rewrite !list_lookup_fmap, list_lookup_imap. by destruct (ps !! i).
Qed.

Lemma activate_activate i j ps : activate j (activate i ps) = activate j ps.
Proof.
  apply list_eq. intros k. unfold activate. rewrite !list_lookup_imap. by destruct (ps !! k).
Qed.

(** Moving the mark of a built bar gives the bar built for the new item. *)
Lemma pagination_recheck p q amount o :
  1 <= items o <= amount -> pagination o = true -> 0 <= p < amount -> 0 <= q < amount ->
  checkPagination q (appendItemsSizes amount o) o
    (updatePagination p amount (appendItemsSizes amount o) o [])
  = updatePagination q amount (appendItemsSizes amount o) o [].
Proof.
  intros Hn Hp Hcp Hcq. unfold updatePagination. rewrite Hp. simpl.
  rewrite (checkPagination_round p), (checkPagination_round q _ _ (activate _ _)),
    (checkPagination_round q) by (done || by rewrite activate_rounds).
  by rewrite activate_activate.
Qed.

(** Whatever item is current, rebuilding the pagination bar leaves exactly
    one page active, the one of the current item's round page; after a click on
    a page, which makes its item current, that page is the active one. *)
Theorem one_active_page currentItem amount o old :
  1 <= items o <= amount -> pagination o = true -> 0 <= currentItem < amount ->
  let rp := appendItemsSizes amount o in
  exists p, List.filter page_active (updatePagination currentItem amount rp o old) = [p] /\
    zlookup rp currentItem = Some (page_round p) /\
    forall q, q ∈ updatePagination_pages amount o -> page_item q = currentItem ->
      page_round p = page_round q /\ page_item p = page_item q.
Proof.
  intros Hn Hp Hc rp. unfold updatePagination. rewrite Hp. simpl.
  subst rp. rewrite checkPagination_round by done.
  set (R := round_of amount o currentItem).
  pose proof (round_of_bounds amount o Hn currentItem ltac:(lia)) as HR. fold R in HR.
  rewrite updatePagination_pages_eq by done.
  assert ((page_button amount o <$> zrange 0 (Z.to_nat (page_count amount o)))
    !! Z.to_nat (R - 1) = Some (page_button amount o (R - 1))) as Hlook.
  { rewrite list_lookup_fmap.
    by rewrite (proj2 (zrange_lookup 0 _ (Z.to_nat (R - 1)) (R - 1))) by lia. }
  rewrite (filter_activate _ _ _ Hlook). eexists. split; [done|]. simpl. split.
  - rewrite appendItemsSizes_eq, zlookup_zrange_map by (done || lia).
    fold R. f_equal. lia.
  - intros q (k & -> & [Hk0 Hk]%elem_of_zrange)%list_elem_of_fmap. simpl. intros Hq.
    assert (R = k + 1) as ->.
    { unfold R. rewrite <- Hq. apply round_of_target; [done|lia]. }
    by replace (k + 1 - 1) with k by lia.
Qed.

(** With custom breakpoints the number of items is that of an entry of
    greatest width among those not wider than the window, in whatever order the
    entries were given; only when no entry fits does the earlier number remain
    (or, beyond the desktop limit, the original one). *)
Theorem updateItems_custom width amount orig o l :
  responsive o = true -> singleItem o = false -> itemsScaleUp o = false ->
  itemsCustom o = Some l ->
  let n := items (fst (updateItems width amount orig o)) in
  (exists w k, (w, k) ∈ l /\ w <= width /\ n = k /\
     forall w' k', (w', k') ∈ l -> w' <= width -> w' <= w) \/
  (Forall (fun e => width < fst e) l /\
   n = if desktop_limit o orig <? width then orig else items o).
Proof.
  intros Hr Hs Hu Hl. unfold updateItems. rewrite Hr, Hs, Hl. simpl.
  rewrite Hu, andb_false_r. destruct (sort_custom_spec l) as [Hperm Hsort].
  destruct (fold_custom width _ (if desktop_limit o orig <? width then orig else items o) Hsort)
    as [(w & k & Hin & Hw & -> & Hmax)|[Hall ->]].
  - left. exists w, k. setoid_rewrite <- Hperm. by split_and!.
  - right. by rewrite <- Hperm at 1.
Qed.

Lemma updateItems_set width amount orig o :
  responsive o = true -> singleItem o = false -> itemsCustom o = None ->
  exists m, updateItems width amount orig o = (o <| items := m |>, orig).
Proof.
  intros Hr Hs Hc. unfold updateItems. rewrite Hr, Hs, Hc. simpl. by eexists.
Qed.

Lemma updateItems_forget width amount orig o d k m :
  itemsCustom o = None -> itemsDesktop o = Some (d, k) -> d <> 0 ->
  items (fst (updateItems width amount orig (o <| items := m |>)))
  = if responsive o then items (fst (updateItems width amount orig o)) else m.
Proof.
  intros Hc Hd Hd0. unfold updateItems, desktop_limit. simpl. rewrite Hc, Hd. simpl.
  rewrite (proj2 (Z.eqb_neq d 0) Hd0).
  destruct (responsive o); simpl; [|done]. destruct (singleItem o); simpl; [done|].
  destruct (Z.leb_spec width d), (Z.ltb_spec d width); (done || lia).
Qed.

(** Without custom breakpoints and with a desktop limit, the number of items
    after a resize depends on the window width only, not on the widths the
    window had before. *)
Theorem updateItems_path_independent ws width amount orig o d k :
  responsive o = true -> itemsCustom o = None -> itemsDesktop o = Some (d, k) -> d <> 0 ->
  let resize '(o, orig) w := updateItems w amount orig o in
  items (fst (resize (fold_left resize ws (o, orig)) width)) =
  items (fst (updateItems width amount orig o)).
Proof.
  intros Hr Hc Hd Hd0 resize. destruct (singleItem o) eqn:Hs.
  - clear Hc Hd Hd0.
    assert (forall w o orig, responsive o = true -> singleItem o = true ->
      exists o', updateItems w amount orig o = (o', 1) /\ items o' = 1 /\
        responsive o' = true /\ singleItem o' = true) as Hone.
    { clear. intros w o orig Hr Hs. unfold updateItems. rewrite Hr, Hs. by eexists. }
    destruct (Hone width o orig Hr Hs) as (o0 & -> & Hi & _). simpl. rewrite Hi. clear o0 Hi.
    revert o orig Hr Hs. induction ws as [|w ws IH]; intros o orig Hr Hs; simpl.
    + by destruct (Hone width o orig Hr Hs) as (o1 & -> & ? & _).
    + destruct (Hone w o orig Hr Hs) as (o1 & -> & _ & Hr1 & Hs1). by apply IH.
  - assert (forall ws m, exists m',
      fold_left resize ws (o <| items := m |>, orig) = (o <| items := m' |>, orig)) as Hkeep.
    { clear ws. induction ws as [|w ws IH]; intros m; simpl; [by exists m|].
      destruct (updateItems_set w amount orig (o <| items := m |>)) as [m' ->]; [done..|]. apply IH. }
    destruct (Hkeep ws (items o)) as [m' Hm].
    assert (o <| items := items o |> = o) as Ho by by destruct o.
    rewrite Ho in Hm. rewrite Hm. simpl.
    rewrite (updateItems_forget _ _ _ _ _ _ _ Hc Hd Hd0). by rewrite Hr.
Qed.

(** ** Concrete carousels *)

Definition five_of_three : options := default_options <| items := 3 |>.

Example pages_example :
  (fun p => (page_item p, page_round p)) <$> updatePagination_pages 5 five_of_three
  = [(0, 1); (2, 2)].
Proof. reflexivity. Qed.

Lemma calculateAll_positions_witness :
  zlookup (positionsInArray (calculateAll 1000 5 five_of_three)) 2 = Some (-666).
Proof.
  destruct (calculateAll_positions 1000 5 five_of_three) as [H _]; [simpl; lia|lia|].
  rewrite (H 2); [reflexivity|lia].
Defined.

Lemma pagination_targets_witness :
  let l := calculateAll 1000 5 five_of_three in
  Forall (fun p => 0 <= page_item p <= maximumItem l)
    (updatePagination_pages 5 five_of_three).
Proof.
  destruct (pagination_targets 1000 5 five_of_three) as (_ & H & _); [simpl; lia|].
  eapply Forall_impl; [exact H|]. by intros p [? _].
Defined.

Lemma one_active_page_witness :
  exists p, List.filter page_active
    (updatePagination 2 5 (appendItemsSizes 5 five_of_three) five_of_three []) = [p]
    /\ page_item p = 2.
Proof.
  destruct (one_active_page 2 5 five_of_three []) as (p & Hp & _ & Hq);
    [simpl; lia|reflexivity|lia|].
  exists p. split; [exact Hp|].
  destruct (Hq (mk_page None 2 2 false)) as [_ ->]; [right; left|reflexivity..].
Defined.

Definition custom_600_900 : options :=
  set_breakpoints (Some [(900, 4); (600, 2)]) (Some (1199, 1)) (Some (979, 1))
    (Some (768, 1)) None (Some (479, 1)) (default_options <| items := 1 |>).

Lemma updateItems_custom_witness :
  items (fst (updateItems 1000 9 1 custom_600_900)) = 4.
Proof.
  destruct (updateItems_custom 1000 9 1 custom_600_900 [(900, 4); (600, 2)]
    eq_refl eq_refl eq_refl eq_refl) as [(w & k & Hin & Hw & -> & Hmax)|[Hall _]].
  - specialize (Hmax 900 4 ltac:(left) ltac:(lia)).
    rewrite !elem_of_cons in Hin.
    destruct Hin as [[= -> ->]|[[= -> ->]|[]%not_elem_of_nil]]; [reflexivity|lia].
  - rewrite Forall_forall in Hall. specialize (Hall (900, 4) ltac:(left)). simpl in Hall. lia.
Defined.

Lemma updateItems_path_independent_witness :
  let resize '(o, orig) w := updateItems w 9 orig o in
  items (fst (resize (fold_left resize [1300; 800; 300] (five_of_three, 3)) 1300)) = 3.
Proof.
  exact (updateItems_path_independent [1300; 800; 300] 1300 9 3 five_of_three 1199 1
    eq_refl eq_refl eq_refl ltac:(lia)).
Defined.

(** With custom breakpoints the previous width does matter below the smallest
    entry: the carousel started at 400 pixels shows one item, the one shrunk
    from 1000 to 400 pixels keeps four. *)
Example custom_hysteresis :
  let resize '(o, orig) w := updateItems w 9 orig o in
  items (fst (resize (custom_600_900, 1) 400)) = 1 /\
  items (fst (resize (resize (custom_600_900, 1) 1000) 400)) = 4.
Proof. split; reflexivity. Qed.
