(* ===== verification/OwlLazy.v ===== *)
(** * [owl.carousel.js], part 2: lazy loading and automatic height

    Models [lazyLoad], [lazyPreload], [autoHeight] and [completeImg] of
    [2019104287/code/WebContent/js/owl.carousel.js].  Whether an image is complete
    is input: [img i] is the state of item [i]'s image when the code looks.  The
    100 ms timers the two polling loops set are the pending [polls]; firing one
    is [fire_poll]. *)

From S2P Require Export OwlLayout.

(** An [img] element, as [completeImg] reads it. *)
Record image := mk_image { complete : bool; naturalWidth : option Z }.

Definition completeImg (img : image) : bool :=
  if negb (complete img) then false
  else match naturalWidth img with Some w => negb (w =? 0) | None => true end.

(** [data("owl-loaded")], when set. *)
Inductive loaded := Checked | Loaded.
#[export] Instance loaded_eq_dec : EqDecision loaded.
Proof. solve_decision. Defined.

(** An item: the string in [data("src")] of its [.lazyOwl] element, if any, and
    whether that element is a [div]; then what the code sets. *)
Record slide := mk_slide {
  lazy_src : option string;
  lazy_div : bool;
  owl_loaded : option loaded;
  is_loading : bool;
  shown : bool;
  source : option string;
  has_img : bool;
}.
#[export] Instance slide_eta : Settable slide := fun s =>
  mk_slide (lazy_src s) (lazy_div s) (owl_loaded s) (is_loading s) (shown s) (source s)
    (has_img s).

(** A pending timer: a lazy image or the image that gives the height, with the
    iterations done; or the deferred [addClass("autoHeight")]. *)
Inductive poll :=
  | PollLazy (item : nat) (iterations : nat)
  | PollHeight (item : nat) (iterations : nat)
  | PollClass.
#[export] Instance poll_eq_dec : EqDecision poll.
Proof. solve_decision. Defined.

(** [outer_height] is the item whose height [wrapperOuter] has ([None]: the
    attribute is removed or was never set); [afterLazyLoad] counts the calls of
    that callback. *)
Record lazy_state := mk_lazy {
  slides : list slide;
  polls : list poll;
  outer_height : option Z;
  outer_class : bool;
  afterLazyLoad : nat;
}.
#[export] Instance lazy_state_eta : Settable lazy_state := fun s =>
  mk_lazy (slides s) (polls s) (outer_height s) (outer_class s) (afterLazyLoad s).

Definition add_poll (p : poll) (s : lazy_state) : lazy_state :=
  s <| polls := polls s ++ [p] |>.

Definition set_slide (i : nat) (v : slide) (s : lazy_state) : lazy_state :=
  s <| slides := <[i := v]> (slides s) |>.

(** ** Lazy loading *)

Definition showImage (i : nat) (s : lazy_state) : lazy_state :=
  match slides s !! i with
  | Some v =>
      set_slide i (v <| owl_loaded := Some Loaded |> <| is_loading := false |>
                     <| shown := true |>) s
        <| afterLazyLoad := S (afterLazyLoad s) |>
  | None => s
  end.

Definition checkLazyImage (img : nat -> image) (i iterations : nat) (s : lazy_state)
    : lazy_state :=
  let iterations := S iterations in
  let isBackgroundImg :=
    match slides s !! i with Some v => lazy_div v | None => false end in
  if completeImg (img i) || isBackgroundImg then showImage i s
  else if (iterations <=? 100)%nat then add_poll (PollLazy i iterations) s
  else showImage i s.

Definition lazyPreload (img : nat -> image) (i : nat) (s : lazy_state) : lazy_state :=
  match slides s !! i with
  | Some v =>
      let src := default "" (lazy_src v) in
      let value := if lazy_div v then "url(" +:+ src +:+ ")" else src in
      checkLazyImage img i 0 (set_slide i (v <| source := Some value |>) s)
  | None => s
  end.

(** The body of the loop of [lazyLoad]. *)
Definition lazyLoad_item (o : options) (currentItem : Z) (img : nat -> image)
    (s : lazy_state) (i : Z) : lazy_state :=
  match slides s !! Z.to_nat i with
  | None => s
  | Some v =>
    if bool_decide (owl_loaded v = Some Loaded) then s else
    match lazy_src v with
    | None => set_slide (Z.to_nat i) (v <| owl_loaded := Some Loaded |>) s
    | Some _ =>
        let s := match owl_loaded v with
          | None => set_slide (Z.to_nat i) (v <| shown := false |> <| is_loading := true |>
                                  <| owl_loaded := Some Checked |>) s
          | Some _ => s
          end in
        let follow := if lazyFollow o then currentItem <=? i else true in
        if follow && (i <? currentItem + items o)
        then lazyPreload img (Z.to_nat i) s
        else s
    end
  end.

Definition lazyLoad (o : options) (itemsAmount currentItem : Z) (img : nat -> image)
    (s : lazy_state) : lazy_state :=
  if negb (OwlLayout.lazyLoad o) then s
  else fold_left (lazyLoad_item o currentItem img) (zrange 0 (Z.to_nat itemsAmount)) s.

(** ** Automatic height *)

(** The height of the item that is current when the image is complete. *)
Definition addHeight (currentItem : Z) (s : lazy_state) : lazy_state :=
  let s := s <| outer_height := Some currentItem |> in
  if outer_class s then s else add_poll PollClass s.

Definition checkImage (img : nat -> image) (currentItem : Z) (i iterations : nat)
    (s : lazy_state) : lazy_state :=
  let iterations := S iterations in
  if completeImg (img i) then addHeight currentItem s
  else if (iterations <=? 100)%nat then add_poll (PollHeight i iterations) s
  else s <| outer_height := None |>.

Definition autoHeight (currentItem : Z) (img : nat -> image) (s : lazy_state) : lazy_state :=
  match zlookup (slides s) currentItem with
  | Some v => if has_img v then checkImage img currentItem (Z.to_nat currentItem) 0 s
              else addHeight currentItem s
  | None => addHeight currentItem s
  end.

(** Firing the [k]-th pending timer. *)
Definition fire_poll (currentItem : Z) (img : nat -> image) (k : nat) (s : lazy_state)
    : lazy_state :=
  match polls s !! k with
  | None => s
  | Some p =>
      let s := s <| polls := delete k (polls s) |> in
      match p with
      | PollLazy i it => checkLazyImage img i it s
      | PollHeight i it => checkImage img currentItem i it s
      | PollClass => s <| outer_class := true |>
      end
  end.

(** ** Invariant: a requested image is loaded or being polled *)

Definition requested_ok (s : lazy_state) (i : nat) (v : slide) : Prop :=
  is_Some (source v) ->
  owl_loaded v = Some Loaded \/ exists it, PollLazy i it ∈ polls s.

Definition lazy_inv (s : lazy_state) : Prop :=
  forall i v, slides s !! i = Some v -> requested_ok s i v.

(** What the operations on item [i] keep of the others. *)
Record lazy_frame (i : nat) (s s' : lazy_state) : Prop := {
  frame_slides j : j <> i -> slides s' !! j = slides s !! j;
  frame_length : length (slides s') = length (slides s);
  frame_polls p : p ∈ polls s -> p ∈ polls s';
}.

Lemma lazy_frame_refl i s : lazy_frame i s s.
Proof. by split. Qed.

Lemma lazy_frame_trans i s1 s2 s3 :
  lazy_frame i s1 s2 -> lazy_frame i s2 s3 -> lazy_frame i s1 s3.
Proof.
  intros [H1 L1 P1] [H2 L2 P2]. split; [|congruence|auto].
  intros j Hj. rewrite H2, H1; done.
Qed.

Lemma lazy_frame_set i v s : lazy_frame i s (set_slide i v s).
Proof.
  split; simpl; [|by rewrite length_insert|done].
  intros j Hj. by rewrite list_lookup_insert_ne.
Qed.

Lemma set_slide_lookup i v w s :
  slides s !! i = Some v -> slides (set_slide i w s) !! i = Some w.
Proof. intros Hi%lookup_lt_Some. simpl. by rewrite list_lookup_insert_eq. Qed.

Lemma showImage_spec i v s :
  slides s !! i = Some v ->
  lazy_frame i s (showImage i s) /\
  slides (showImage i s) !! i
  = Some (v <| owl_loaded := Some Loaded |> <| is_loading := false |> <| shown := true |>).
Proof.
  intros Hi. unfold showImage. rewrite Hi. split; [|by apply (set_slide_lookup i v)].
  destruct (lazy_frame_set i (v <| owl_loaded := Some Loaded |> <| is_loading := false |>
    <| shown := true |>) s) as [? ? ?]. by split.
Qed.

Lemma checkLazyImage_spec img i it v s :
  slides s !! i = Some v ->
  let s' := checkLazyImage img i it s in
  lazy_frame i s s' /\ exists v', slides s' !! i = Some v' /\
    source v' = source v /\ lazy_src v' = lazy_src v /\
    (owl_loaded v' = Some Loaded \/ exists it', PollLazy i it' ∈ polls s').
Proof.
  intros Hi. unfold checkLazyImage. cbv zeta. destruct (showImage_spec i v s Hi) as [Hf Hv].
  destruct (_ || _); [|destruct (_ <=? _)%nat].
  - split; [done|]. eexists. split; [exact Hv|]. by split_and!; [..|left].
  - split.
    + split; simpl; [done..|]. intros p Hp. apply elem_of_app. by left.
    + exists v. split; [done|]. split_and!; [done..|]. right. exists (S it).
      apply elem_of_app. right. by left.
  - split; [done|]. eexists. split; [exact Hv|]. by split_and!; [..|left].
Qed.

Lemma lazy_inv_frame i v s s' :
  lazy_inv s -> lazy_frame i s s' -> slides s' !! i = Some v -> requested_ok s' i v ->
  lazy_inv s'.
Proof.
  intros Hinv [Hs Hl Hp] Hi Hok j w Hj.
  destruct (decide (j = i)) as [->|Hne]; [by simplify_eq|].
  rewrite Hs in Hj by done. intros Hsrc.
  destruct (Hinv j w Hj Hsrc) as [?|[it Hit]]; [by left|right; eauto].
Qed.

(** The effect of one item of [lazyLoad]. *)
Lemma lazyLoad_item_spec o cur img s i v :
  lazy_inv s -> slides s !! Z.to_nat i = Some v -> 
  let s' := lazyLoad_item o cur img s i in
  lazy_inv s' /\ lazy_frame (Z.to_nat i) s s' /\
  exists v', slides s' !! Z.to_nat i = Some v' /\ lazy_src v' = lazy_src v /\
    (is_Some (lazy_src v) -> (lazyFollow o = true -> cur <= i) -> i < cur + items o ->
       owl_loaded v' = Some Loaded \/
       (is_Some (source v') /\ exists it, PollLazy (Z.to_nat i) it ∈ polls s')) /\
    (cur + items o <= i \/ (lazyFollow o = true /\ i < cur) -> source v' = source v).
Proof.
  intros Hinv Hi. unfold lazyLoad_item. rewrite Hi. cbv zeta.
  case_bool_decide as Hl.
  { split_and!; [done|apply lazy_frame_refl|]. exists v. by split_and!; [..|left|]. }
  destruct (lazy_src v) as [src|] eqn:Hsrc.
  2: { pose proof (set_slide_lookup _ _ (v <| owl_loaded := Some Loaded |>) s Hi) as Hv.
    pose proof (lazy_frame_set (Z.to_nat i) (v <| owl_loaded := Some Loaded |>) s) as Hf.
    split_and!; [|done|].
    - by eapply lazy_inv_frame; [..|intros _; left].
    - eexists. split; [exact Hv|]. split_and!; [done|by intros []|done]. }
  set (s1 := match owl_loaded v with None => _ | Some _ => s end).
  assert (exists v1, slides s1 !! Z.to_nat i = Some v1 /\ lazy_src v1 = lazy_src v /\
    source v1 = source v /\ lazy_frame (Z.to_nat i) s s1 /\ lazy_inv s1)
    as (v1 & Hv1 & Hs1 & Hso & Hf1 & Hinv1).
  { unfold s1. destruct (owl_loaded v) eqn:Ho.
    { exists v. by split_and!; [..|apply lazy_frame_refl|]. }
    eexists. split; [by eapply set_slide_lookup|]. split_and!; [done..|apply lazy_frame_set|].
    eapply lazy_inv_frame; [done|apply lazy_frame_set|by eapply set_slide_lookup|].
    intros Hr. destruct (Hinv _ _ Hi Hr) as [?|?]; [congruence|by right]. }
  clearbody s1.
  destruct ((if lazyFollow o then cur <=? i else true) && (i <? cur + items o)) eqn:Hb.
  - unfold lazyPreload. rewrite Hv1.
    set (w := v1 <| source := _ |>).
    pose proof (set_slide_lookup _ _ w s1 Hv1) as Hw.
    destruct (checkLazyImage_spec img (Z.to_nat i) 0 w _ Hw)
      as (Hf2 & v2 & Hv2 & Hsrc2 & Hls2 & Hreq). cbv zeta in *.
    assert (lazy_frame (Z.to_nat i) s
      (checkLazyImage img (Z.to_nat i) 0 (set_slide (Z.to_nat i) w s1))) as Hf.
    { eapply lazy_frame_trans; [exact Hf1|].
      eapply lazy_frame_trans; [apply lazy_frame_set|exact Hf2]. }
    split_and!; [|done|].
    + eapply (lazy_inv_frame _ _ _ _ Hinv Hf); [exact Hv2|]. by intros _.
    + exists v2. split; [exact Hv2|]. split_and!.
      * rewrite Hls2. unfold w. simpl. congruence.
      * intros _ _ _. destruct Hreq as [?|?]; [by left|right]. split; [|done].
        rewrite Hsrc2. unfold w. by eexists.
      * destruct (lazyFollow o); zcases; naive_solver lia.
  - split_and!; [done..|]. exists v1. split; [done|]. split_and!; [congruence| |done].
    intros _. destruct (lazyFollow o); zcases; naive_solver lia.
Qed.

(** ** Termination of the polling *)

Definition poll_weight (p : poll) : nat :=
  match p with
  | PollLazy _ it => 1 + (100 - it)
  | PollHeight _ it => 2 + (100 - it)
  | PollClass => 1
  end.
Definition weight (s : lazy_state) : nat := list_sum (poll_weight <$> polls s).

(** A run of timers: at each step some pending timer fires, with the item then
    current and the images as they then are. *)
Inductive fires : nat -> lazy_state -> lazy_state -> Prop :=
  | fires_nil s : fires 0 s s
  | fires_cons n k cur img s s' :
      (k < length (polls s))%nat -> fires n (fire_poll cur img k s) s' ->
      fires (S n) s s'.

Lemma weight_add p s : weight (add_poll p s) = (weight s + poll_weight p)%nat.
Proof. unfold weight. simpl. rewrite fmap_app, list_sum_app. simpl. lia. Qed.

Lemma weight_showImage i s : weight (showImage i s) = weight s.
Proof. unfold showImage. by destruct (slides s !! i). Qed.

Lemma weight_addHeight cur s : (weight (addHeight cur s) <= weight s + 1)%nat.
Proof.
  unfold addHeight. cbv zeta. case_match; [unfold weight; simpl; lia|].
  rewrite weight_add. unfold weight. simpl. lia.
Qed.

Lemma list_sum_delete l k p :
  l !! k = Some p ->
  (list_sum (poll_weight <$> delete k l) + poll_weight p = list_sum (poll_weight <$> l))%nat.
Proof.
  revert k; induction l as [|q l IH]; intros [|k] Hk; simplify_eq/=; [lia|].
  specialize (IH k Hk). lia.
Qed.

Lemma fire_poll_weight cur img k s :
  (k < length (polls s))%nat -> (weight (fire_poll cur img k s) < weight s)%nat.
Proof.
  intros [p Hp]%lookup_lt_is_Some_2. unfold fire_poll. rewrite Hp. cbv zeta.
  pose proof (list_sum_delete _ _ _ Hp) as Hw. fold (weight s) in Hw.
  set (s1 := s <| polls := _ |>).
  assert (weight s1 + poll_weight p = weight s)%nat as Hs1 by exact Hw. clearbody s1.
  destruct p as [i it|i it|]; simpl in Hs1.
  - unfold checkLazyImage. case_match; [rewrite weight_showImage; lia|].
    destruct (Nat.leb_spec (S it) 100); [|rewrite weight_showImage; lia].
    rewrite weight_add. simpl. lia.
  - unfold checkImage. case_match; [pose proof (weight_addHeight cur s1); lia|].
    destruct (Nat.leb_spec (S it) 100); [rewrite weight_add; simpl; lia|].
    change (weight s1 < weight s)%nat. lia.
  - change (weight s1 < weight s)%nat. lia.
Qed.

(** ** The invariant under timers *)

Lemma fire_poll_inv cur img k s : lazy_inv s -> lazy_inv (fire_poll cur img k s).
Proof.
  intros Hinv. unfold fire_poll. destruct (polls s !! k) as [p|] eqn:Hp; [|done].
  set (s1 := s <| polls := _ |>).
  assert (forall q, q ∈ polls s -> q = p \/ q ∈ polls s1) as Hin.
  { intros q. change (polls s1) with (delete k (polls s)).
    intros Hq. rewrite (delete_Permutation _ _ _ Hp) in Hq.
    by apply elem_of_cons in Hq as [?|?]; [left|right]. }
  change (slides s) with (slides s1) in *.
  destruct p as [i it|i it|].
  - destruct (slides s1 !! i) as [v|] eqn:Hv.
    2: { unfold checkLazyImage, showImage. rewrite Hv, orb_false_r.
      assert (lazy_inv s1) as Hs1.
      { intros j w Hj Hsrc. destruct (Hinv j w Hj Hsrc) as [?|[it' Hit]]; [by left|].
        destruct (Hin _ Hit) as [[= -> ->]|?]; [congruence|right; eauto]. }
      case_match; [done|]. case_match; [|done].
      intros j w Hj Hsrc. destruct (Hs1 j w Hj Hsrc) as [?|[it' Hit]]; [by left|right].
      exists it'. apply elem_of_app. by left. }
    destruct (checkLazyImage_spec img i it v s1 Hv) as ([Hfs _ Hfp] & v' & Hv' & _ & _ & Hr).
    intros j w Hj Hsrc. destruct (decide (j = i)) as [->|Hne]; [by simplify_eq|].
    rewrite Hfs in Hj by done. destruct (Hinv j w Hj Hsrc) as [?|[it' Hit]]; [by left|].
    right. exists it'. apply Hfp. by destruct (Hin _ Hit) as [[= -> ->]|?].
  - assert (lazy_inv s1) as Hs1.
    { intros j w Hj Hsrc. destruct (Hinv j w Hj Hsrc) as [?|[it' Hit]]; [by left|right].
      exists it'. by destruct (Hin _ Hit). }
    unfold checkImage, addHeight.
    repeat case_match; intros j w Hj Hsrc;
      (destruct (Hs1 j w Hj Hsrc) as [?|[it' Hit]]; [by left|right; exists it']);
      simpl; rewrite ?elem_of_app; auto.
  - intros j w Hj Hsrc. destruct (Hinv j w Hj Hsrc) as [?|[it' Hit]]; [by left|right].
    exists it'. by destruct (Hin _ Hit).
Qed.

(** ** Properties *)

(** A pass of [lazyLoad] requests the image of every visible item that has
    one: it is loaded at once or a timer will look at it again.  The items right
    of the window, and with [lazyFollow] those left of it, are not requested. *)
Theorem lazyLoad_requests_visible o amount cur img s :
  OwlLayout.lazyLoad o = true -> length (slides s) = Z.to_nat amount -> lazy_inv s ->
  let s' := lazyLoad o amount cur img s in
  lazy_inv s' /\
  forall i v, slides s !! i = Some v -> exists v', slides s' !! i = Some v' /\
    (is_Some (lazy_src v) -> cur <= Z.of_nat i < cur + items o ->
       owl_loaded v' = Some Loaded \/
       (is_Some (source v') /\ exists it, PollLazy i it ∈ polls s')) /\
    (cur + items o <= Z.of_nat i \/ (lazyFollow o = true /\ Z.of_nat i < cur) ->
       source v' = source v).
Proof.
  intros Ho Hlen Hinv. unfold lazyLoad. rewrite Ho. simpl.
  set (P := fun (k : nat) (t : lazy_state) => lazy_inv t /\ 
    forall i v, slides s !! i = Some v ->
      exists v', slides t !! i = Some v' /\ if (k <=? i)%nat then v' = v else
    (is_Some (lazy_src v) -> cur <= Z.of_nat i < cur + items o ->
       owl_loaded v' = Some Loaded \/
       (is_Some (source v') /\ exists it, PollLazy i it ∈ polls t)) /\
    (cur + items o <= Z.of_nat i \/ (lazyFollow o = true /\ Z.of_nat i < cur) ->
       source v' = source v)).
  assert (P (Z.to_nat amount) (fold_left (lazyLoad_item o cur img)
            (zrange 0 (Z.to_nat amount)) s)) as [H1 H2].
  { apply (fold_zrange_ind _ P); [split; [done|intros i v Hv; by exists v]|].
    intros k t Hk [Ht Hall].
    destruct (lookup_lt_is_Some_2 (slides s) k ltac:(lia)) as [v Hv].
    destruct (Hall k v Hv) as (v1 & Hv1 & Hk1). rewrite Nat.leb_refl in Hk1. subst v1.
    destruct (lazyLoad_item_spec o cur img t (Z.of_nat k) v Ht) as (Hi & Hf & v' & Hv' & Hls & Hreq & Hno);
      [by rewrite Nat2Z.id|]. cbv zeta in *. rewrite Nat2Z.id in *.
    split; [done|]. intros i w Hw. destruct (decide (i = k)) as [->|Hne].
    - exists v'. split; [done|]. rewrite (proj2 (Nat.leb_gt (S k) k)) by lia.
      simplify_eq. split; [|done]. intros Hs Hr. apply Hreq; [done|lia..].
    - destruct (Hall i w Hw) as (w' & Hw' & Hk'). exists w'.
      rewrite (frame_slides _ _ _ Hf i Hne). split; [done|].
      destruct (Nat.leb_spec (S k) i), (Nat.leb_spec k i); try lia; [done|].
      destruct Hk' as [Hk1 Hk2]. split; [|done]. intros Hs Hr.
      destruct (Hk1 Hs Hr) as [?|[? [it ?]]]; [by left|right]. split; [done|].
      exists it. by apply (frame_polls _ _ _ Hf). }
  split; [done|]. intros i v Hv. destruct (H2 i v Hv) as (v' & Hv' & Hk). exists v'.
  rewrite (proj2 (Nat.leb_gt _ _)) in Hk; [done|].
  apply lookup_lt_Some in Hv. lia.
Qed.

(** Polling ends: however the timers interleave and whatever the images do,
    a run of [n] timers uses [n] units of the finite weight of the pending polls,
    and when none is left every requested image has been shown. *)
Theorem polling_settles n s s' :
  fires n s s' -> lazy_inv s ->
  (n + weight s' <= weight s)%nat /\
  (polls s' = [] -> forall i v, slides s' !! i = Some v -> is_Some (source v) ->
     owl_loaded v = Some Loaded).
Proof.
  induction 1 as [s|n k cur img s s' Hk Hf IH]; intros Hinv.
  - split; [lia|]. intros Hp i v Hv Hs.
    destruct (Hinv i v Hv Hs) as [?|[it Hit]]; [done|].
    rewrite Hp in Hit. by apply not_elem_of_nil in Hit.
  - destruct (IH (fire_poll_inv _ _ _ _ Hinv)) as [Hw Hl].
    pose proof (fire_poll_weight cur img k s Hk). split; [lia|done].
Qed.

(** ** A concrete carousel: three lazy images, the first two visible *)

Definition lazy_slide (src : string) : slide :=
  mk_slide (Some src) false None false true None true.
Definition three_lazy : lazy_state :=
  mk_lazy (lazy_slide <$> ["a.jpg"; "b.jpg"; "c.jpg"]) [] None false 0.
Definition two_visible : options :=
  default_options <| items := 2 |> <| OwlLayout.lazyLoad := true |>.

Definition no_image (i : nat) : image := mk_image false None.

Lemma three_lazy_inv : lazy_inv three_lazy.
Proof.
  intros i v Hi [x Hx]. exfalso.
  destruct i as [|[|[|i]]]; simpl in Hi; by simplify_eq.
Qed.

Lemma lazyLoad_requests_visible_witness :
  lazy_inv (lazyLoad two_visible 3 0 no_image three_lazy) /\
  source <$> slides (lazyLoad two_visible 3 0 no_image three_lazy)
  = [Some "a.jpg"; Some "b.jpg"; None].
Proof.
  destruct (lazyLoad_requests_visible two_visible 3 0 no_image three_lazy eq_refl eq_refl
    three_lazy_inv) as [H _].
  split; [exact H|reflexivity].
Defined.

Lemma polling_settles_witness :
  let s := lazyLoad two_visible 3 0 no_image three_lazy in
  let s1 := fire_poll 0 (fun _ => mk_image true (Some 10)) 0 s in
  let s2 := fire_poll 0 (fun _ => mk_image true (Some 10)) 0 s1 in
  (2 + weight s2 <= weight s)%nat /\ polls s2 = [].
Proof.
  intros s s1 s2.
  destruct (polling_settles 2 s s2) as [H _].
  - apply (fires_cons 1 0 0 (fun _ => mk_image true (Some 10))); [vm_compute; lia|].
    apply (fires_cons 0 0 0 (fun _ => mk_image true (Some 10))); [vm_compute; lia|].
    constructor.
  - intros i v Hi [x Hx]. destruct i as [|[|[|i]]]; vm_compute in Hi; simplify_eq/=.
    + right. exists 1%nat. left.
    + right. exists 1%nat. right. left.
  - split; [exact H|reflexivity].
Defined.
