(* ===== verification/OwlMove.v ===== *)
(** * [owl.carousel.js], part 3: moving the carousel

    Models the methods of [2019104287/code/WebContent/js/owl.carousel.js] that
    move the strip and keep the controls: [next], [prev], [goTo], [jumpTo],
    [afterGo], the autoplay and visibility timers, the single-item transition,
    start-up, resizing and the life cycle ([addItem], [removeItem], [reinit],
    [destroy]).  One [carousel] record holds the fields of [base] together with
    the part of the page the methods write: styles of the wrapper, classes of
    the items, pagination bar and buttons.  What the methods read from the page
    is the argument [env]. *)

From S2P Require Export OwlLazy.
From Stdlib Require Export QArith.QArith_base.
Open Scope Z_scope.

(** What the code reads from the page when it runs. *)
Record env := mk_env {
  visible : bool;
  windowWidth : Z;
  baseWidth : Z;
  elWidth : Z;
  images : nat -> image;
}.

Inductive ap := ApPlay | ApStop.
Inductive direction := Next | Prev.
Inductive side := DragLeft | DragRight.

(** The handlers [singleItemTransition] installs on an item: on the one that
    leaves ([outClass]) and on the one that enters ([inClass]). *)
Inductive role := Leaving | Entering.

(** The closures given to [setTimeout] and [setInterval]. *)
Inductive timer := AutoPlayTick | VisibilityCheck | Resized | Reload | Css3Finish.

#[export] Instance ap_eq_dec : EqDecision ap.
Proof. solve_decision. Defined.
#[export] Instance role_eq_dec : EqDecision role.
Proof. solve_decision. Defined.
#[export] Instance timer_eq_dec : EqDecision timer.
Proof. solve_decision. Defined.

(** The second argument of [goTo]: [true], ['rewind'] or anything else. *)
Inductive speed_arg := SpTrue | SpRewind | SpOther.

Record carousel := mk_carousel {
  opts : options;
  orignalItems : Z;
  geo : layout;
  support3d : bool;
  isTouch : bool;
  bound : bool;
  hover_handlers : nat;
  playDirection : direction;
  prevItem : Z;
  currentItem : Z;
  prevArr : list Z;
  isTransition : bool;
  endPrev : bool;
  endCurrent : bool;
  animEnds : list (Z * role);
  transClasses : list (Z * role);
  transLeft : gmap Z Z;
  owlOrigin : bool;
  apStatus : option ap;
  hoverStatus : option ap;
  autoPlayInterval : option nat;
  checkVisible : option nat;
  smallDelay : option nat;
  timers : list (nat * timer);
  nextTimer : nat;
  lastWindowWidth : Z;
  isCssFinish : bool;
  isCss3Finish : bool;
  animating : option Z;
  speed : option Z;
  translate : option Q;
  left : option Q;
  controls : option bool;
  pages : list page;
  prevDisabled : bool;
  nextDisabled : bool;
  visibleItems : list Z;
  activeItems : list Z;
  lazy : lazy_state;
  log : list string;
  newPosX : Q;
  newRelativeX : Q;
  dragDirection : option side;
}.

#[export] Instance carousel_eta : Settable carousel := fun s =>
  mk_carousel (opts s) (orignalItems s) (geo s) (support3d s) (isTouch s) (bound s)
    (hover_handlers s) (playDirection s) (prevItem s) (currentItem s) (prevArr s)
    (isTransition s) (endPrev s) (endCurrent s) (animEnds s) (transClasses s) (transLeft s)
    (owlOrigin s) (apStatus s) (hoverStatus s) (autoPlayInterval s) (checkVisible s)
    (smallDelay s) (timers s) (nextTimer s) (lastWindowWidth s) (isCssFinish s)
    (isCss3Finish s) (animating s) (speed s) (translate s) (left s) (controls s) (pages s)
    (prevDisabled s) (nextDisabled s) (visibleItems s) (activeItems s) (lazy s) (log s)
    (newPosX s) (newRelativeX s) (dragDirection s).

(** [base.itemsAmount]. *)
Definition amount (s : carousel) : Z := Z.of_nat (length (slides (lazy s))).

(** [if(typeof base.options.name === 'function') ...]: the call is logged. *)
Definition callback (name : string) (s : carousel) : carousel :=
  if decide (name ∈ callbacks (opts s)) then s <| log := log s ++ [name] |> else s.

(** ** Timers *)

Definition setTimer (k : timer) (s : carousel) : carousel :=
  s <| timers := timers s ++ [(nextTimer s, k)] |> <| nextTimer := S (nextTimer s) |>.

Definition clearTimer (h : option nat) (s : carousel) : carousel :=
  s <| timers := filter (fun t => Some (fst t) <> h) (timers s) |>.

Definition stop (s : carousel) : carousel :=
  clearTimer (autoPlayInterval s) (s <| apStatus := Some ApStop |>).

Definition play (s : carousel) : carousel :=
  let s := s <| apStatus := Some ApPlay |> in
  if bool_decide (autoPlay (opts s) = PlayFalse) then s else
  let s := clearTimer (autoPlayInterval s) s in
  setTimer AutoPlayTick (s <| autoPlayInterval := Some (nextTimer s) |>).

Definition checkAp (s : carousel) : carousel :=
  if bool_decide (apStatus s = Some ApStop) then s else play s.

Definition watchVisibility (e : env) (s : carousel) : carousel :=
  if visible e then s else
  let s := clearTimer (checkVisible s) (clearTimer (autoPlayInterval s) s) in
  setTimer VisibilityCheck (s <| checkVisible := Some (nextTimer s) |>).

(** ** Styles of the wrapper *)

Inductive speed_action := ASlideSpeed | APaginationSpeed | ANumber (ms : Z).

Definition swapSpeed (action : speed_action) (s : carousel) : carousel :=
  s <| speed := Some (match action with
                      | ASlideSpeed => slideSpeed (opts s)
                      | APaginationSpeed => paginationSpeed (opts s)
                      | ANumber ms => ms
                      end) |>.

Definition removeTransition (s : carousel) : carousel := s <| speed := None |>.

(** A style with an undefined number is invalid, and the page keeps the old one. *)
Definition transition3d (value : option Q) (s : carousel) : carousel :=
  match value with Some v => s <| translate := Some v |> | None => s end.

Definition css2move (value : Q) (s : carousel) : carousel := s <| left := Some value |>.

(** The running animation is first brought to its end, which calls its
    [complete]. *)
Definition css2slide (value : option Z) (s : carousel) : carousel :=
  let s := s <| isCssFinish := false |> in
  let s := match animating s with
           | Some v => s <| isCssFinish := true |> <| left := Some (inject_Z v) |>
           | None => s
           end in
  match value with Some v => s <| animating := Some v |> | None => s <| animating := None |> end.

(** The end of the animation. *)
Definition css2_complete (s : carousel) : carousel :=
  match animating s with
  | Some v => s <| isCssFinish := true |> <| left := Some (inject_Z v) |>
                <| animating := None |>
  | None => s
  end.

(** The position of an item, as [base.positionsInArray[i]]. *)
Definition position_of (i : Z) (s : carousel) : option Z := zlookup (positionsInArray (geo s)) i.

(** ** Controls *)

Definition checkPagination (s : carousel) : carousel :=
  s <| pages := OwlLayout.checkPagination (currentItem s) (roundPages (geo s)) (opts s) (pages s) |>.

Definition updatePagination (s : carousel) : carousel :=
  s <| pages := OwlLayout.updatePagination (currentItem s) (amount s) (roundPages (geo s))
                  (opts s) (pages s) |>.

Definition checkNavigation (s : carousel) : carousel :=
  if negb (navigation (opts s)) then s
  else if rewindNav (opts s) then s
  else
    let cur := currentItem s in
    let mx := maximumItem (geo s) in
    if (cur =? 0) && (mx =? 0) then s <| prevDisabled := true |> <| nextDisabled := true |>
    else if (cur =? 0) && negb (mx =? 0)
    then s <| prevDisabled := true |> <| nextDisabled := false |>
    else if cur =? mx then s <| prevDisabled := false |> <| nextDisabled := true |>
    else if negb (cur =? 0) && negb (cur =? mx)
    then s <| prevDisabled := false |> <| nextDisabled := false |>
    else s.

Definition buildControls (s : carousel) : carousel :=
  if navigation (opts s) || pagination (opts s)
  then s <| controls := Some true |> <| pages := [] |> <| prevDisabled := false |>
         <| nextDisabled := false |>
  else s.

Definition updateControls (s : carousel) : carousel :=
  let s := checkNavigation (updatePagination s) in
  match controls s with
  | Some _ => s <| controls := Some (items (opts s) <? amount s) |>
  | None => s
  end.

(** ** After a move *)

Definition onVisibleItems (s : carousel) : carousel :=
  let vis := zrange (currentItem s) (Z.to_nat (items (opts s))) in
  let s := s <| visibleItems := vis |> in
  if addClassActive (opts s)
  then s <| activeItems := filter (fun i => 0 <= i < amount s) vis |>
  else s.

Definition eachMoveUpdate (e : env) (s : carousel) : carousel :=
  let s := if OwlLayout.lazyLoad (opts s)
           then s <| lazy := lazyLoad (opts s) (amount s) (currentItem s) (images e) (lazy s) |>
           else s in
  let s := if OwlLayout.autoHeight (opts s)
           then s <| lazy := autoHeight (currentItem s) (images e) (lazy s) |>
           else s in
  callback "afterAction" (onVisibleItems s).

Definition afterGo (e : env) (s : carousel) : carousel :=
  let arr := prevArr s ++ [currentItem s] in
  let s := s <| prevItem := default 0 (arr !! (length arr - 2)%nat) |>
             <| prevArr := List.tl arr |> in
  let s := if prevItem s =? currentItem s then s else
    let s := eachMoveUpdate e (checkNavigation (checkPagination s)) in
    if bool_decide (autoPlay (opts s) = PlayFalse) then s else checkAp s in
  if prevItem s =? currentItem s then s else callback "afterMove" s.

(** ** The single-item transition *)

Definition singleItemTransition (s : carousel) : carousel :=
  let s := s <| isTransition := true |> <| owlOrigin := true |> in
  let cur := currentItem s in
  let prev := prevItem s in
  let prevPos := Z.abs (default 0 (position_of cur s)) + default 0 (position_of prev s) in
  s <| transLeft := <[prev := prevPos]> (transLeft s) |>
    <| transClasses := transClasses s ++ [(prev, Leaving); (cur, Entering)] |>
    <| animEnds := animEnds s ++ [(prev, Leaving); (cur, Entering)] |>.

Definition clearTransStyle (item : Z) (r : role) (s : carousel) : carousel :=
  let s := s <| transLeft := delete item (transLeft s) |>
             <| transClasses := filter (fun c => c <> (item, r)) (transClasses s) |> in
  if endPrev s && endCurrent s
  then s <| owlOrigin := false |> <| endPrev := false |> <| endCurrent := false |>
         <| isTransition := false |>
  else s.

(** One of the two handlers; it unbinds every handler of its item. *)
Definition anim_handler (s : carousel) (h : Z * role) : carousel :=
  let '(item, r) := h in
  let s := match r with
           | Leaving => s <| endPrev := true |>
           | Entering => s <| endCurrent := true |>
           end in
  clearTransStyle item r
    (s <| animEnds := filter (fun h => fst h <> item) (animEnds s) |>).

(** [animationend] on an item: its handlers, as they were when the event came. *)
Definition animation_end (item : Z) (s : carousel) : carousel :=
  fold_left anim_handler (filter (fun h => fst h = item) (animEnds s)) s.

(** ** Moving *)

Definition clamp (position : Z) (s : carousel) : Z :=
  if maximumItem (geo s) <=? position then maximumItem (geo s)
  else if position <=? 0 then 0 else position.

Definition goTo (e : env) (position : Z) (sp : speed_arg) (drag : bool) (s : carousel)
    : carousel :=
  if isTransition s then s else
  let s := callback "beforeMove" s in
  let position := clamp position s in
  let s := s <| currentItem := position |> in
  if bool_decide (transitionStyle (opts s) <> None) && negb drag &&
     (items (opts s) =? 1) && support3d s
  then
    let s := swapSpeed (ANumber 0) s in
    let s := transition3d (inject_Z <$> position_of position s) s in
    singleItemTransition (afterGo e s)
  else
    let goToPixel := position_of position s in
    let s :=
      if support3d s then
        let s := s <| isCss3Finish := false |> in
        let s := swapSpeed (match sp with
                            | SpTrue => APaginationSpeed
                            | SpRewind => ANumber (rewindSpeed (opts s))
                            | SpOther => ASlideSpeed
                            end) s in
        transition3d (inject_Z <$> goToPixel) (setTimer Css3Finish s)
      else css2slide goToPixel s in
    afterGo e s.

Definition jumpTo (e : env) (position : Z) (s : carousel) : carousel :=
  let s := callback "beforeMove" s in
  let mx := maximumItem (geo s) in
  let position := if (mx <=? position) || (position =? -1) then mx
                  else if position <=? 0 then 0 else position in
  let s := swapSpeed (ANumber 0) s in
  let s := if support3d s then transition3d (inject_Z <$> position_of position s) s
           else css2slide (position_of position s) s in
  afterGo e (s <| currentItem := position |>).

(** The step of [next] and [prev]. *)
Definition step_of (o : options) : Z := if scrollPerPage o then items o else 1.

Definition next (e : env) (sp : speed_arg) (s : carousel) : carousel :=
  if isTransition s then s else
  let o := opts s in
  let s := s <| currentItem := currentItem s + step_of o |> in
  let last := maximumItem (geo s) + (if scrollPerPage o then items o - 1 else 0) in
  if last <? currentItem s then
    if rewindNav o then goTo e 0 SpRewind false (s <| currentItem := 0 |>)
    else s <| currentItem := maximumItem (geo s) |>
  else goTo e (currentItem s) sp false s.

Definition prev (e : env) (sp : speed_arg) (s : carousel) : carousel :=
  if isTransition s then s else
  let o := opts s in
  let s :=
    if scrollPerPage o && (0 <? currentItem s) && (currentItem s <? items o)
    then s <| currentItem := 0 |>
    else s <| currentItem := currentItem s - step_of o |> in
  if currentItem s <? 0 then
    if rewindNav o
    then goTo e (maximumItem (geo s)) SpRewind false
           (s <| currentItem := maximumItem (geo s) |>)
    else s <| currentItem := 0 |>
  else goTo e (currentItem s) sp false s.

(** ** Resizing *)

Definition updateItems (e : env) (s : carousel) : carousel :=
  let '(o, orig) := OwlLayout.updateItems (baseWidth e) (amount s) (orignalItems s) (opts s) in
  s <| opts := o |> <| orignalItems := orig |>.

Definition calculateAll (e : env) (s : carousel) : carousel :=
  s <| geo := OwlLayout.calculateAll (elWidth e) (amount s) (opts s) |>
    <| left := Some (inject_Z 0) |>.

Definition updatePosition (e : env) (s : carousel) : carousel :=
  let s := jumpTo e (currentItem s) s in
  if bool_decide (autoPlay (opts s) = PlayFalse) then s else checkAp s.

Definition updateVars (e : env) (s : carousel) : carousel :=
  let s := callback "beforeUpdate" s in
  let s := calculateAll e (updateItems e (watchVisibility e s)) in
  let s := eachMoveUpdate e (updateControls (updatePosition e s)) in
  callback "afterUpdate" s.

Definition reload (s : carousel) : carousel := setTimer Reload s.

(** The handler [response] binds to the window's [resize]. *)
Definition resizer (e : env) (s : carousel) : carousel :=
  if windowWidth e =? lastWindowWidth s then s else
  let s := if bool_decide (autoPlay (opts s) = PlayFalse) then s
           else clearTimer (autoPlayInterval s) s in
  let s := clearTimer (smallDelay s) s in
  setTimer Resized (s <| smallDelay := Some (nextTimer s) |>).

(** [response] reads the window width the handler compares with. *)
Definition response (e : env) (s : carousel) : carousel :=
  if responsive (opts s) then s <| lastWindowWidth := windowWidth e |> else s.

(** A timer fires: a timeout is spent, an interval stays. *)
Definition is_interval (k : timer) : bool :=
  match k with AutoPlayTick | VisibilityCheck => true | _ => false end.

Definition timer_body (e : env) (k : timer) (s : carousel) : carousel :=
  match k with
  | AutoPlayTick => next e SpTrue s
  | VisibilityCheck => if visible e then clearTimer (checkVisible s) (reload s) else s
  | Resized => updateVars e (s <| lastWindowWidth := windowWidth e |>)
  | Reload => updateVars e s
  | Css3Finish => s <| isCss3Finish := true |>
  end.

Definition fire_timer (e : env) (h : nat) (s : carousel) : carousel :=
  match List.find (fun t => Nat.eqb (fst t) h) (timers s) with
  | None => s
  | Some (_, k) =>
      timer_body e k
        (if is_interval k then s else s <| timers := filter (fun t => fst t <> h) (timers s) |>)
  end.

(** ** Start-up *)

Definition stopOnHover (s : carousel) : carousel :=
  if OwlLayout.stopOnHover (opts s) && negb (isTouch s) &&
     bool_decide (autoPlay (opts s) <> PlayFalse)
  then s <| hover_handlers := S (hover_handlers s) |> else s.

(** [moveEvents]: [gestures] starts from [isCssFinish = true]. *)
Definition moveEvents (s : carousel) : carousel :=
  if mouseDrag (opts s) || touchDrag (opts s) then s <| isCssFinish := true |> else s.

Definition onStartup (e : env) (s : carousel) : carousel :=
  let s := updateControls (buildControls (calculateAll e (updateItems e s))) in
  let s := stopOnHover (moveEvents (response e s)) in
  let s := if bool_decide (autoPlay (opts s) = PlayTrue)
           then s <| opts := opts s <| autoPlay := PlayMs 5000 |> |> else s in
  let s := watchVisibility e (play s) in
  callback "afterInit" (eachMoveUpdate e s).

(** [wrapItems]: the wrapper and the item elements are new, so they carry no
    style, class, handler or loading state of the former ones. *)
Definition wrapItems (s : carousel) : carousel :=
  s <| translate := None |> <| speed := None |> <| left := None |> <| animating := None |>
    <| animEnds := [] |> <| transClasses := [] |> <| transLeft := ∅ |> <| owlOrigin := false |>
    <| activeItems := [] |>
    <| lazy := mk_lazy ((fun v => v <| owl_loaded := None |> <| is_loading := false |>)
                          <$> slides (lazy s)) [] None false (afterLazyLoad (lazy s)) |>.

Definition setVars (e : env) (s : carousel) : carousel :=
  if bool_decide (slides (lazy s) = []) then s else
  let s := wrapItems (s <| bound := true |>) in
  onStartup e (s <| playDirection := Next |> <| prevItem := 0 |> <| prevArr := [0] |>
                 <| currentItem := 0 |>).

(** [init], [loadContent] and [logIn] without [jsonPath]. *)
Definition init (o : options) (e : env) (s : carousel) : carousel :=
  let s := callback "beforeInit" (s <| opts := o |>) in
  setVars e (s <| orignalItems := items (opts s) |>).

(** A carousel object before [init]. *)
Definition created (support3d touch : bool) (l : list slide) : carousel :=
  mk_carousel default_options 0 (mk_layout 0 0 0 [] [] [] 0 0) support3d touch false 0
    Next 0 0 [] false false false [] [] ∅ false None None None None None [] 0 0 true true
    None None None None None [] false false [] [] (mk_lazy l [] None false 0) [] 0 0 None.

(** ** Life cycle *)

Definition unWrap (s : carousel) : carousel := s <| bound := false |>.

Definition destroy (s : carousel) : carousel :=
  let s := stop s in
  unWrap (clearTimer (checkVisible s) s).

Definition reinit (o : options) (e : env) (s : carousel) : carousel := init o e (unWrap s).

(** [$userItems.eq(i)]: a negative index counts from the end. *)
Definition eq_index (i : Z) (n : nat) : option nat :=
  let j := if i <? 0 then i + Z.of_nat n else i in
  if (0 <=? j) && (j <? Z.of_nat n) then Some (Z.to_nat j) else None.

Definition set_slides (l : list slide) (s : carousel) : carousel :=
  s <| lazy := lazy s <| slides := l |> |>.

Definition addItem (v : slide) (targetPosition : option Z) (e : env) (s : carousel)
    : carousel :=
  let l := slides (lazy s) in
  if bool_decide (l = []) then setVars e (set_slides [v] s) else
  let s := unWrap s in
  let position := default (-1) targetPosition in
  let l :=
    if (Z.of_nat (length l) <=? position) || (position =? -1) then l ++ [v]
    else match eq_index position (length l) with
         | Some i => take i l ++ v :: drop i l
         | None => l
         end in
  setVars e (set_slides l s).

Definition removeItem (targetPosition : option Z) (e : env) (s : carousel) : carousel :=
  let l := slides (lazy s) in
  if bool_decide (l = []) then s else
  let position := default (-1) targetPosition in
  let s := unWrap s in
  let l := match eq_index position (length l) with
           | Some i => delete i l
           | None => l
           end in
  setVars e (set_slides l s).

(** ** Handlers of the page *)

Definition buttons_mouseup (e : env) (is_next : bool) (s : carousel) : carousel :=
  if is_next then next e SpOther s else prev e SpOther s.

Definition page_mouseup (e : env) (k : nat) (s : carousel) : carousel :=
  match pages s !! k with
  | Some p => if page_item p =? currentItem s then s else goTo e (page_item p) SpTrue false s
  | None => s
  end.

Definition mouseover (s : carousel) : carousel :=
  Nat.iter (hover_handlers s) stop s.

Definition mouseout (s : carousel) : carousel :=
  Nat.iter (hover_handlers s)
    (fun s => if bool_decide (hoverStatus s = Some ApStop) then s else play s) s.

(** The custom events [owl.play] and [owl.stop]; the others are the methods. *)
Definition owl_play (sp : autoplay) (s : carousel) : carousel :=
  play (s <| opts := opts s <| autoPlay := sp |> |>) <| hoverStatus := Some ApPlay |>.

Definition owl_stop (s : carousel) : carousel :=
  stop s <| hoverStatus := Some ApStop |>.
