(* ===== verification/OwlDrag.v ===== *)
(** * [owl.carousel.js], part 4: dragging

    Models [gestures], [getNewPosition], [closestItem] and [moveDirection] of
    [2019104287/code/WebContent/js/owl.carousel.js].  Coordinates are rationals,
    because the code divides the distance by 5 and the item width by 20; the
    rounding of those quotients to doubles is not modelled. *)

From S2P Require Export OwlMove.
From Stdlib Require Import Lqa.
Open Scope Z_scope.

(** [a < b] on coordinates. *)
Definition qlt (a b : Q) : bool := negb (Qle_bool b a).
Definition qmin (a b : Q) : Q := if Qle_bool a b then a else b.
Definition qmax (a b : Q) : Q := if Qle_bool a b then b else a.

(** The variables [locals] of [gestures], the wrapper's [grabbing] class, the
    handlers bound to the document and the elements whose next click is
    swallowed. *)
Record locals := mk_locals {
  offsetX : Q;
  offsetY : Q;
  relativePos : Q;
  sliding : bool;
  dragging : bool;
  targetElement : option nat;
  grabbing : bool;
  moveTouch : bool;
  moveMouse : bool;
  endBound : bool;
  click_disabled : list nat;
}.
#[export] Instance locals_eta : Settable locals := fun l =>
  mk_locals (offsetX l) (offsetY l) (relativePos l) (sliding l) (dragging l)
    (targetElement l) (grabbing l) (moveTouch l) (moveMouse l) (endBound l)
    (click_disabled l).

Definition initial_locals : locals :=
  mk_locals 0 0 0 false false None false false false false [].

(** The carousel object with its gesture closure. *)
Record owl := mk_owl { base : carousel; loc : locals }.
#[export] Instance owl_eta : Settable owl := fun w => mk_owl (base w) (loc w).

(** A mouse or touch event: coordinates, button, target, and which kind it is. *)
Record pointer := mk_pointer {
  pageX : Q; pageY : Q; which : Z; target : nat; touch : bool
}.

Definition swapEvents_on (w : owl) : owl :=
  w <| loc := loc w <| moveTouch := touchDrag (opts (base w)) |>
                    <| moveMouse := mouseDrag (opts (base w)) |>
                    <| endBound := true |> |>.

Definition swapEvents_off (w : owl) : owl :=
  w <| loc := loc w <| moveTouch := false |> <| moveMouse := false |>
                    <| endBound := false |> |>.

(** [position] is [$(this).position()] when the drag starts. *)
Definition dragStart (ev : pointer) (position : Q * Q) (w : owl) : owl :=
  let s := base w in
  let o := opts s in
  if which ev =? 3 then w
  else if amount s <=? items o then w
  else if negb (isCssFinish s) && negb (dragBeforeAnimFinish o) then w
  else if negb (isCss3Finish s) && negb (dragBeforeAnimFinish o) then w
  else
    let s := if bool_decide (autoPlay o = PlayFalse) then s
             else clearTimer (autoPlayInterval s) s in
    let l := loc w in
    let l := if negb (isTouch s) && negb (grabbing l) then l <| grabbing := true |> else l in
    let s := removeTransition (s <| newPosX := 0%Q |> <| newRelativeX := 0%Q |>) in
    let l := l <| relativePos := fst position |>
               <| offsetX := (pageX ev - fst position)%Q |>
               <| offsetY := (pageY ev - snd position)%Q |> in
    let w := swapEvents_on (mk_owl s l) in
    w <| loc := loc w <| sliding := false |> <| targetElement := Some (target ev) |> |>.

Definition dragMove (ev : pointer) (w : owl) : owl :=
  if negb (if touch ev then moveTouch (loc w) else moveMouse (loc w)) then w else
  let s := base w in
  let l := loc w in
  let newPosY := (pageY ev - offsetY l)%Q in
  let posX := (pageX ev - offsetX l)%Q in
  let rel := (posX - relativePos l)%Q in
  let s := s <| newRelativeX := rel |> in
  let '(s, l) :=
    if bool_decide ("startDragging" ∈ callbacks (opts s)) && negb (dragging l)
       && negb (Qeq_bool rel 0)
    then (callback "startDragging" s, l <| dragging := true |>) else (s, l) in
  let l := if qlt 8 rel || (qlt rel (-8) && isTouch s) then l <| sliding := true |> else l in
  let l := if (qlt 10 newPosY || qlt newPosY (-10)) && negb (sliding l)
           then l <| moveTouch := false |> else l in
  let minSwipe := (rel / 5)%Q in
  let maxSwipe := (inject_Z (maximumPixels (geo s)) + rel / 5)%Q in
  let posX := qmax (qmin posX minSwipe) maxSwipe in
  let s := s <| newPosX := posX |> in
  mk_owl (if support3d s then transition3d (Some posX) s else css2move posX s) l.

(** [moveDirection]: true for ["right"]; it also records [playDirection]. *)
Definition moveDirection (s : carousel) : bool * carousel :=
  if qlt (newRelativeX s) 0 then (true, s <| playDirection := Next |>)
  else (false, s <| playDirection := Prev |>).

(** A number or [undefined] on one side of a comparison: [undefined] makes it
    false. *)
Definition gt_opt (a : Q) (b : option Z) : bool :=
  match b with Some v => qlt (inject_Z v) a | None => false end.
Definition lt_opt (a : Q) (b : option Z) : bool :=
  match b with Some v => qlt a (inject_Z v) | None => false end.

(** [a || b] on numbers. *)
Definition or_num (a b : option Z) : option Z :=
  match a with Some v => if v =? 0 then b else a | None => b end.

(** [$.inArray(v, l)]. *)
Fixpoint inArray (v : option Z) (l : list Z) : Z :=
  match l with
  | [] => -1
  | x :: l' => if bool_decide (v = Some x) then 0
               else let r := inArray v l' in if r =? -1 then -1 else r + 1
  end.

(** [array[i]] of an array with holes. *)
Definition at_index (l : list (option Z)) (i : nat) : option Z := default None (l !! i).

(** The callback of [closestItem]'s [$.each]. *)
Definition closest_step (array : list (option Z)) (s : carousel) (i : nat) : carousel :=
  let v := at_index array i in
  let goal := newPosX s in
  let w20 := (inject_Z (itemWidth (geo s)) / 20)%Q in
  let a := gt_opt (goal - w20) (at_index array (S i)) && lt_opt (goal - w20) v in
  let '(right1, s) := if a then moveDirection s else (true, s) in
  if a && negb right1 then
    if scrollPerPage (opts s)
    then s <| currentItem := inArray v (positionsInArray (geo s)) |>
    else s <| currentItem := Z.of_nat i |>
  else
    let bound := or_num (at_index array (S i))
                   ((fun x => x - itemWidth (geo s)) <$> v) in
    let b := lt_opt (goal + w20) v && gt_opt (goal + w20) bound in
    let '(right2, s) := if b then moveDirection s else (false, s) in
    if b && right2 then
      if scrollPerPage (opts s) then
        let closest := or_num (at_index array (S i)) (at_index array (length array - 1)) in
        s <| currentItem := inArray closest (positionsInArray (geo s)) |>
      else s <| currentItem := Z.of_nat i + 1 |>
    else s.

Definition closestItem (s : carousel) : carousel :=
  let array := if scrollPerPage (opts s) then pagesInArray (geo s)
               else Some <$> positionsInArray (geo s) in
  fold_left (closest_step array) (seq 0 (length array)) s.

(** The new position, and the carousel whose [currentItem] it changed. *)
Definition getNewPosition (s : carousel) : Z * carousel :=
  let s := closestItem s in
  let newPosition := currentItem s in
  if maximumItem (geo s) <? newPosition
  then (maximumItem (geo s), s <| currentItem := maximumItem (geo s) |>)
  else if Qle_bool 0 (newPosX s) then (0, s <| currentItem := 0 |>)
  else (newPosition, s).

Definition dragEnd (e : env) (ev : pointer) (w : owl) : owl :=
  if negb (endBound (loc w) &&
           (if touch ev then touchDrag (opts (base w)) else mouseDrag (opts (base w))))
  then w else
  let s := base w in
  let l := loc w <| dragging := false |> in
  let l := if isTouch s then l else l <| grabbing := false |> in
  let s := s <| dragDirection := Some (if qlt (newRelativeX s) 0 then DragLeft else DragRight) |> in
  let w :=
    if Qeq_bool (newRelativeX s) 0 then mk_owl s l else
    let '(newPosition, s) := getNewPosition s in
    let s := goTo e newPosition SpOther true s in
    mk_owl s (if bool_decide (targetElement l = Some (target ev)) && negb (isTouch s)
              then l <| click_disabled := click_disabled l ++ [target ev] |> else l) in
  swapEvents_off w.

(** A click on [t]: swallowed once when disabled. *)
Definition click (t : nat) (w : owl) : bool * owl :=
  if decide (t ∈ click_disabled (loc w))
  then (false, w <| loc := loc w <| click_disabled := filter (fun x => x <> t)
                                       (click_disabled (loc w)) |> |>)
  else (true, w).
