(* ===== verification/OwlEvents.v ===== *)
(** * [owl.carousel.js], part 5: the running carousel

    The events a page can raise on a carousel of
    [2019104287/code/WebContent/js/owl.carousel.js], the step function they
    drive, and what holds after any sequence of them. *)

From S2P Require Export OwlDrag.

(** The events: custom events and methods, controls, timers, animation ends, the
    pointer, and the life-cycle methods. *)
Inductive event :=
  | EvNext | EvPrev | EvGoTo (position : Z) | EvJumpTo (position : Z)
  | EvPlay (speed : autoplay) | EvStop
  | EvButton (is_next : bool) | EvPage (k : nat)
  | EvHoverIn | EvHoverOut
  | EvTimer (h : nat) | EvResize | EvCssDone | EvAnimEnd (item : Z) | EvPoll (k : nat)
  | EvDragStart (ev : pointer) (position : Q * Q) | EvDragMove (ev : pointer)
  | EvDragEnd (ev : pointer) | EvClick (t : nat)
  | EvAddItem (v : slide) (position : option Z) | EvRemoveItem (position : option Z)
  | EvReinit (o : options) | EvDestroy.

Definition on_base (f : carousel -> carousel) (w : owl) : owl := w <| base := f (base w) |>.

(** A handler bound to the element: gone once the carousel is unwrapped. *)
Definition if_bound (f : carousel -> carousel) (w : owl) : owl :=
  if bound (base w) then on_base f w else w.

Definition has_controls (s : carousel) : bool :=
  match controls s with Some _ => true | None => false end.

(** Rewrapping makes a new gesture closure and unbinds the document handlers;
    the click handlers of the page's own elements stay. *)
Definition fresh_locals (w : owl) : owl :=
  w <| loc := initial_locals <| click_disabled := click_disabled (loc w) |> |>.

Definition handle (e : env) (ev : event) (w : owl) : owl :=
  match ev with
  | EvNext => if_bound (next e SpOther) w
  | EvPrev => if_bound (prev e SpOther) w
  | EvGoTo p => if_bound (goTo e p SpOther false) w
  | EvJumpTo p => if_bound (jumpTo e p) w
  | EvPlay sp => if_bound (owl_play sp) w
  | EvStop => if_bound owl_stop w
  | EvButton b =>
      if has_controls (base w) && navigation (opts (base w))
      then if_bound (buttons_mouseup e b) w else w
  | EvPage k =>
      if has_controls (base w) && pagination (opts (base w))
      then if_bound (page_mouseup e k) w else w
  | EvHoverIn => on_base mouseover w
  | EvHoverOut => on_base mouseout w
  | EvTimer h => on_base (fire_timer e h) w
  | EvResize => if responsive (opts (base w)) then if_bound (resizer e) w else w
  | EvCssDone => on_base css2_complete w
  | EvAnimEnd i => on_base (animation_end i) w
  | EvPoll k =>
      on_base (fun s => s <| lazy := fire_poll (currentItem s) (images e) k (lazy s) |>) w
  | EvDragStart ev pos =>
      if bound (base w) &&
         (if touch ev then touchDrag (opts (base w)) else mouseDrag (opts (base w)))
      then dragStart ev pos w else w
  | EvDragMove ev => dragMove ev w
  | EvDragEnd ev => dragEnd e ev w
  | EvClick t => snd (click t w)
  | EvAddItem v p => fresh_locals (on_base (addItem v p e) w)
  | EvRemoveItem p => fresh_locals (on_base (removeItem p e) w)
  | EvReinit o => fresh_locals (on_base (reinit o e) w)
  | EvDestroy => fresh_locals (on_base destroy w)
  end.

(** A started carousel and what a run of events makes of it. *)
Definition started (o : options) (s3d touch : bool) (l : list slide) (e : env) : owl :=
  mk_owl (init o e (created s3d touch l)) initial_locals.

Definition run (evs : list (env * event)) (w : owl) : owl :=
  fold_left (fun w '(e, ev) => handle e ev w) evs w.

(** ** At most one autoplay interval *)

(** Every live interval that calls [next] is the one [autoPlayInterval] names,
    and handles are never reused. *)
Record timers_ok (s : carousel) : Prop := {
  tick_handle h : (h, AutoPlayTick) ∈ timers s -> autoPlayInterval s = Some h;
  handles_fresh h k : (h, k) ∈ timers s -> (h < nextTimer s)%nat;
  handles_nodup : NoDup (fst <$> timers s);
}.

Lemma timers_ok_ext s s' :
  timers s' = timers s -> nextTimer s' = nextTimer s ->
  autoPlayInterval s' = autoPlayInterval s -> timers_ok s -> timers_ok s'.
Proof. intros H1 H2 H3 [A B C]. split; rewrite ?H1, ?H2, ?H3; auto. Qed.

Lemma filter_timers_ok (P : nat * timer -> Prop) `{!forall x, Decision (P x)} s :
  timers_ok s -> timers_ok (s <| timers := filter P (timers s) |>).
Proof.
  intros [A B C]. split; simpl.
  - intros h [_ Hh]%list_elem_of_filter. auto.
  - intros h k [_ Hh]%list_elem_of_filter. eauto.
  - eapply sublist_NoDup; [exact C|]. apply fmap_sublist, sublist_filter.
Qed.

Lemma clearTimer_ok h s : timers_ok s -> timers_ok (clearTimer h s).
Proof. apply filter_timers_ok. Qed.

Lemma setTimer_ok k s : k <> AutoPlayTick -> timers_ok s -> timers_ok (setTimer k s).
Proof.
  intros Hk [A B C]. split; simpl.
  - intros h [?|[=]%list_elem_of_singleton]%elem_of_app; [auto|congruence].
  - intros h k' [Hh|[= -> ->]%list_elem_of_singleton]%elem_of_app; [apply B in Hh|]; lia.
  - rewrite fmap_app. apply NoDup_app. split_and!; [done| |apply NoDup_singleton].
    intros h (t & -> & Ht)%list_elem_of_fmap Heq%list_elem_of_singleton.
    destruct t as [h k']. apply B in Ht. simpl in *. lia.
Qed.

(** [play] replaces its interval by a new one. *)
Lemma restart_ok s :
  timers_ok s ->
  let s' := clearTimer (autoPlayInterval s) s in
  timers_ok (setTimer AutoPlayTick (s' <| autoPlayInterval := Some (nextTimer s') |>)).
Proof.
  intros Hs s'. destruct (clearTimer_ok (autoPlayInterval s) s Hs) as [A B C]. fold s' in A, B, C.
  assert (forall h, (h, AutoPlayTick) ∉ timers s') as Hno.
  { intros h Hh. pose proof (A h Hh) as Ha. apply list_elem_of_filter in Hh as [Hh _].
    simpl in Hh. by destruct Hh. }
  split; simpl.
  - intros h [Hh|[= ->]%list_elem_of_singleton]%elem_of_app; [by apply Hno in Hh|done].
  - intros h k [Hh|[= -> ->]%list_elem_of_singleton]%elem_of_app; [apply B in Hh|]; simpl in *; lia.
  - rewrite fmap_app. apply NoDup_app. split_and!; [done| |apply NoDup_singleton].
    intros h (t & -> & Ht)%list_elem_of_fmap Heq%list_elem_of_singleton.
    destruct t as [h k]. apply B in Ht. simpl in *. lia.
Qed.

(** [let_step P] and [branch_step P] make one step of a proof of [P op], for an
    operation written as the code is: they generalise an intermediate carousel
    and follow a branch.  With the lemmas of the calls as hints, and constants
    opaque so that the hints apply by name, [eauto] does the whole proof. *)
Ltac let_step P :=
  lazymatch goal with
  | |- P (let s := ?v in @?b s) =>
      lazymatch type of v with
      | carousel =>
          let H := fresh "H" in
          assert (P v) as H; [|change (P (b v)); revert H; generalize v; intros ? H; cbv beta]
      | _ => change (P (b v)); cbv beta
      end
  end.
Ltac branch_step P :=
  lazymatch goal with
  | |- P (match ?x with _ => _ end) =>
      first [simple refine (if_pred P _ _ _ _ _) | simple refine (decide_pred P _ _ _ _ _)
            | simple refine (option_pred P _ _ _ _ _); [intros ?; cbv beta|] | destruct x]
  end.

(** [read_field f] proves that an update of another field leaves [f]. *)
Tactic Notation "read_field" reference(f) :=
  lazy beta iota delta [set_field f]; reflexivity.

Create HintDb timers_ok discriminated.
#[local] Hint Constants Opaque : timers_ok.
#[local] Hint Extern 0 (timers_ok (let _ := _ in _)) => let_step timers_ok : timers_ok.
#[local] Hint Extern 0 (timers_ok (match _ with _ => _ end)) => branch_step timers_ok : timers_ok.
#[local] Hint Extern 0 (timers_ok (@set_field _ _ _ _ _ ?s)) =>
  apply (timers_ok_ext s); [read_field timers|read_field nextTimer|read_field autoPlayInterval|] : timers_ok.
#[local] Hint Extern 0 (timers_ok (setTimer _ _)) =>
  apply setTimer_ok; [discriminate|] : timers_ok.
#[local] Hint Resolve clearTimer_ok : timers_ok.
Ltac timers_tac := solve [eauto 50 with nocore timers_ok].

Section timers_ok.
Context (e : env).

Lemma callback_timers n s : timers_ok s -> timers_ok (callback n s).
Proof. intros. cbv beta delta [callback]. timers_tac. Qed.
Lemma stop_timers s : timers_ok s -> timers_ok (stop s).
Proof. intros. cbv beta delta [stop]. timers_tac. Qed.
Lemma play_timers s : timers_ok s -> timers_ok (play s).
Proof. intros Hs. unfold play. case_bool_decide.
  { timers_tac. }
  apply (restart_ok (s <| apStatus := Some ApPlay |>)). timers_tac. Qed.
#[local] Hint Resolve callback_timers stop_timers play_timers : timers_ok.
Lemma checkAp_timers s : timers_ok s -> timers_ok (checkAp s).
Proof. intros. cbv beta delta [checkAp]. timers_tac. Qed.
Lemma watchVisibility_timers s : timers_ok s -> timers_ok (watchVisibility e s).
Proof. intros. cbv beta delta [watchVisibility]. timers_tac. Qed.
Lemma checkNavigation_timers s : timers_ok s -> timers_ok (checkNavigation s).
Proof. intros. cbv beta delta [checkNavigation]. timers_tac. Qed.
Lemma transition3d_timers v s : timers_ok s -> timers_ok (transition3d v s).
Proof. intros. cbv beta delta [transition3d]. timers_tac. Qed.
Lemma css2slide_timers v s : timers_ok s -> timers_ok (css2slide v s).
Proof. intros. cbv beta delta [css2slide]. timers_tac. Qed.
#[local] Hint Resolve checkAp_timers watchVisibility_timers checkNavigation_timers
  transition3d_timers css2slide_timers : timers_ok.
Lemma updateControls_timers s : timers_ok s -> timers_ok (updateControls s).
Proof. intros. cbv beta delta [updateControls updatePagination]. timers_tac. Qed.
Lemma eachMoveUpdate_timers s : timers_ok s -> timers_ok (eachMoveUpdate e s).
Proof. intros. cbv beta delta [eachMoveUpdate onVisibleItems]. timers_tac. Qed.
#[local] Hint Resolve updateControls_timers eachMoveUpdate_timers : timers_ok.
Lemma afterGo_timers s : timers_ok s -> timers_ok (afterGo e s).
Proof. intros. cbv beta delta [afterGo checkPagination]. timers_tac. Qed.
#[local] Hint Resolve afterGo_timers : timers_ok.
Lemma goTo_timers p sp d s : timers_ok s -> timers_ok (goTo e p sp d s).
Proof. intros. cbv beta delta [goTo swapSpeed singleItemTransition]. timers_tac. Qed.
Lemma jumpTo_timers p s : timers_ok s -> timers_ok (jumpTo e p s).
Proof. intros. cbv beta delta [jumpTo swapSpeed]. timers_tac. Qed.
#[local] Hint Resolve goTo_timers jumpTo_timers : timers_ok.
Lemma next_timers sp s : timers_ok s -> timers_ok (next e sp s).
Proof. intros. cbv beta delta [next]. timers_tac. Qed.
Lemma prev_timers sp s : timers_ok s -> timers_ok (prev e sp s).
Proof. intros. cbv beta delta [prev]. timers_tac. Qed.
Lemma updateItems_timers s : timers_ok s -> timers_ok (updateItems e s).
Proof. intros. cbv beta delta [updateItems]. timers_tac. Qed.
#[local] Hint Resolve next_timers prev_timers updateItems_timers : timers_ok.
Lemma updateVars_timers s : timers_ok s -> timers_ok (updateVars e s).
Proof. intros. cbv beta delta [updateVars updatePosition calculateAll]. timers_tac. Qed.
#[local] Hint Resolve updateVars_timers : timers_ok.
Lemma timer_body_timers k s : timers_ok s -> timers_ok (timer_body e k s).
Proof. intros. cbv beta delta [timer_body reload]. timers_tac. Qed.
Lemma buildControls_timers s : timers_ok s -> timers_ok (buildControls s).
Proof. intros. cbv beta delta [buildControls]. timers_tac. Qed.
#[local] Hint Resolve timer_body_timers buildControls_timers : timers_ok.
Lemma fire_timer_timers h s : timers_ok s -> timers_ok (fire_timer e h s).
Proof.
  intros. unfold fire_timer. destruct (List.find _ _) as [[h' k]|]; [|done].
  apply timer_body_timers. destruct (is_interval k); [done|]. by apply filter_timers_ok.
Qed.
Lemma stopOnHover_timers s : timers_ok s -> timers_ok (stopOnHover s).
Proof. intros. cbv beta delta [stopOnHover]. timers_tac. Qed.
Lemma moveEvents_timers s : timers_ok s -> timers_ok (moveEvents s).
Proof. intros. cbv beta delta [moveEvents]. timers_tac. Qed.
Lemma response_timers s : timers_ok s -> timers_ok (response e s).
Proof. intros. cbv beta delta [response]. timers_tac. Qed.
Lemma calculateAll_timers s : timers_ok s -> timers_ok (calculateAll e s).
Proof. intros. cbv beta delta [calculateAll]. timers_tac. Qed.
#[local] Hint Resolve stopOnHover_timers moveEvents_timers response_timers
  calculateAll_timers : timers_ok.
Lemma onStartup_timers s : timers_ok s -> timers_ok (onStartup e s).
Proof. intros. cbv beta delta [onStartup]. timers_tac. Qed.
Lemma wrapItems_timers s : timers_ok s -> timers_ok (wrapItems s).
Proof. intros. cbv beta delta [wrapItems]. timers_tac. Qed.
#[local] Hint Resolve onStartup_timers wrapItems_timers : timers_ok.
Lemma setVars_timers s : timers_ok s -> timers_ok (setVars e s).
Proof. intros. cbv beta delta [setVars]. timers_tac. Qed.
#[local] Hint Resolve setVars_timers : timers_ok.
Lemma init_timers o s : timers_ok s -> timers_ok (init o e s).
Proof. intros. cbv beta delta [init]. timers_tac. Qed.
Lemma addItem_timers v p s : timers_ok s -> timers_ok (addItem v p e s).
Proof. intros. cbv beta delta [addItem set_slides unWrap]. timers_tac. Qed.
Lemma removeItem_timers p s : timers_ok s -> timers_ok (removeItem p e s).
Proof. intros. cbv beta delta [removeItem set_slides unWrap]. timers_tac. Qed.
Lemma anim_handler_timers s h : timers_ok s -> timers_ok (anim_handler s h).
Proof. intros. destruct h as [i []]; cbv beta iota delta [anim_handler clearTransStyle]; timers_tac. Qed.
Lemma animation_end_timers i s : timers_ok s -> timers_ok (animation_end i s).
Proof.
  unfold animation_end. generalize (filter (fun h => fst h = i) (animEnds s)) as l.
  intros l; revert s; induction l as [|h l IH]; intros s Hs; [done|].
  by apply IH, anim_handler_timers.
Qed.
Lemma iter_timers f n s :
  (forall s, timers_ok s -> timers_ok (f s)) -> timers_ok s -> timers_ok (Nat.iter n f s).
Proof. intros Hf Hs. induction n; [done|]. by apply Hf. Qed.
Lemma closest_step_timers a s i : timers_ok s -> timers_ok (closest_step a s i).
Proof.
  intros. unfold closest_step, moveDirection. cbv zeta. repeat (case_match; simplify_eq); timers_tac.
Qed.
Lemma closestItem_timers s : timers_ok s -> timers_ok (closestItem s).
Proof.
  unfold closestItem. generalize (if scrollPerPage (opts s) then pagesInArray (geo s)
    else Some <$> positionsInArray (geo s)) as a.
  intros a. generalize (seq 0 (length a)) as l. intros l; revert s.
  induction l as [|i l IH]; intros s Hs; [done|]. by apply IH, closest_step_timers.
Qed.
End timers_ok.

#[local] Hint Resolve goTo_timers jumpTo_timers next_timers prev_timers play_timers stop_timers
  checkAp_timers updateVars_timers fire_timer_timers setVars_timers init_timers addItem_timers
  removeItem_timers animation_end_timers callback_timers transition3d_timers : timers_ok.

Lemma getNewPosition_timers s : timers_ok s -> timers_ok (snd (getNewPosition s)).
Proof.
  intros Hs%closestItem_timers. unfold getNewPosition. revert Hs.
  generalize (closestItem s) as c. intros c Hc. cases; timers_tac.
Qed.

Lemma dragEnd_timers e ev w : timers_ok (base w) -> timers_ok (base (dragEnd e ev w)).
Proof.
  intros Hs. unfold dragEnd. case_match; [done|].
  destruct (Qeq_bool _ 0); [simpl base; timers_tac|].
  set (s1 := base w <| dragDirection := _ |>).
  assert (timers_ok (snd (getNewPosition s1))) as Hc by (apply getNewPosition_timers; unfold s1; timers_tac).
  destruct (getNewPosition s1) as [p c]. simpl base. simpl in Hc. timers_tac.
Qed.

Lemma dragStart_timers ev pos w : timers_ok (base w) -> timers_ok (base (dragStart ev pos w)).
Proof.
  intros Hs. unfold dragStart. repeat (case_match; [done|]). cbv zeta. simpl base.
  apply (timers_ok_ext (if bool_decide (autoPlay (opts (base w)) = PlayFalse) then base w
           else clearTimer (autoPlayInterval (base w)) (base w))); [reflexivity..|].
  case_match; timers_tac.
Qed.

Lemma dragMove_timers ev w : timers_ok (base w) -> timers_ok (base (dragMove ev w)).
Proof.
  intros Hs. unfold dragMove. case_match; [done|].
  apply (timers_ok_ext (base w)); [..|done];
    (destruct (_ && _ && _); [unfold callback; case_decide|]; simpl; repeat case_match; done).
Qed.

Section page_handlers.
Context (e : env).
Lemma owl_play_timers sp s : timers_ok s -> timers_ok (owl_play sp s).
Proof. intros. cbv beta delta [owl_play]. timers_tac. Qed.
Lemma owl_stop_timers s : timers_ok s -> timers_ok (owl_stop s).
Proof. intros. cbv beta delta [owl_stop]. timers_tac. Qed.
Lemma buttons_mouseup_timers b s : timers_ok s -> timers_ok (buttons_mouseup e b s).
Proof. intros. cbv beta delta [buttons_mouseup]. timers_tac. Qed.
Lemma page_mouseup_timers k s : timers_ok s -> timers_ok (page_mouseup e k s).
Proof. intros. cbv beta delta [page_mouseup]. timers_tac. Qed.
Lemma mouseover_timers s : timers_ok s -> timers_ok (mouseover s).
Proof. intros. apply iter_timers; [|done]. intros. timers_tac. Qed.
Lemma mouseout_timers s : timers_ok s -> timers_ok (mouseout s).
Proof. intros. apply iter_timers; [|done]. intros. timers_tac. Qed.
Lemma resizer_timers s : timers_ok s -> timers_ok (resizer e s).
Proof. intros. cbv beta delta [resizer]. timers_tac. Qed.
Lemma css2_complete_timers s : timers_ok s -> timers_ok (css2_complete s).
Proof. intros. cbv beta delta [css2_complete]. timers_tac. Qed.
Lemma reinit_timers o s : timers_ok s -> timers_ok (reinit o e s).
Proof. intros. cbv beta delta [reinit unWrap]. timers_tac. Qed.
Lemma destroy_timers s : timers_ok s -> timers_ok (destroy s).
Proof. intros. cbv beta delta [destroy unWrap]. timers_tac. Qed.
End page_handlers.
#[local] Hint Resolve owl_play_timers owl_stop_timers buttons_mouseup_timers
  page_mouseup_timers mouseover_timers mouseout_timers resizer_timers css2_complete_timers
  reinit_timers destroy_timers dragStart_timers dragMove_timers dragEnd_timers : timers_ok.

Lemma handle_timers e ev w : timers_ok (base w) -> timers_ok (base (handle e ev w)).
Proof.
  intros Hs.
  assert (forall f : carousel -> carousel, (timers_ok (base w) -> timers_ok (f (base w))) ->
    timers_ok (base (if_bound f w))) as Hb.
  { intros f Hf. unfold if_bound. case_match; [by apply Hf|done]. }
  destruct ev; simpl; try (first [timers_tac | apply Hb; timers_tac]);
    unfold click; case_match; (done || (try apply Hb); timers_tac).
Qed.

Lemma run_timers evs w : timers_ok (base w) -> timers_ok (base (run evs w)).
Proof.
  revert w; induction evs as [|[e ev] evs IH]; intros w Hw; [done|].
  by apply IH, handle_timers.
Qed.

Lemma started_timers o s3d touch l e : timers_ok (base (started o s3d touch l e)).
Proof.
  apply init_timers. split; simpl; [intros h Hh|intros h k Hh|constructor];
    by apply not_elem_of_nil in Hh.
Qed.

Lemma one_tick s :
  timers_ok s -> (length (filter (fun t => snd t = AutoPlayTick) (timers s)) <= 1)%nat.
Proof.
  intros [A _ C]. revert A C. induction (timers s) as [|[h k] l IH]; intros A C; [simpl; lia|].
  rewrite fmap_cons, NoDup_cons in C. destruct C as [Hh C].
  rewrite filter_cons. case_decide as Hk; [|apply IH; [|done]; intros; apply A; by right].
  simpl in Hk. subst k. simpl.
  destruct (filter _ l) as [|[h' k'] l'] eqn:Hf; [simpl; lia|].
  assert ((h', k') ∈ filter (fun t => snd t = AutoPlayTick) l) as Hin by (rewrite Hf; left).
  apply list_elem_of_filter in Hin as [Hk' Hin]. simpl in Hk'. subst k'.
  pose proof (A h ltac:(left)). pose proof (A h' ltac:(by right)).
  destruct Hh. assert (h = h') as -> by congruence.
  by apply (list_elem_of_fmap_2 fst) in Hin.
Qed.

(** However the page's events interleave, at most one interval that advances
    the carousel is alive, and it is the one [autoPlayInterval] names, so that
    [stop] always stops the autoplay. *)
Theorem one_autoplay_interval o s3d touch l e evs :
  let s := base (run evs (started o s3d touch l e)) in
  (length (filter (fun t => snd t = AutoPlayTick) (timers s)) <= 1)%nat /\
  (forall h, (h, AutoPlayTick) ∈ timers s -> autoPlayInterval s = Some h) /\
  (forall h, (h, AutoPlayTick) ∉ timers (stop s)).
Proof.
  intros s. assert (timers_ok s) as Hs by (apply run_timers, started_timers).
  split_and!; [by apply one_tick|apply Hs|].
  intros h [Hne Hh]%list_elem_of_filter. simpl in Hne. apply Hne.
  symmetry. by apply (tick_handle s Hs).
Qed.
