(* ===== verification/OwlSync.v ===== *)
(** * [owl.carousel.js], part 6: the controls show the current item

    The invariant of the carousel of
    [2019104287/code/WebContent/js/owl.carousel.js]: the index stays in range and
    the pagination bar, the buttons and the visible items are what the current
    item determines.  Operations that do not touch these are framed out
    ([same]); the others re-establish the view of their new item. *)

From S2P Require Export OwlEvents.

(** ** Options with positive numbers of items *)

Definition bp_pos (bp : option (Z * Z)) : Prop :=
  match bp with Some (_, k) => 1 <= k | None => True end.

Record options_pos (o : options) : Prop := {
  pos_items : 1 <= items o;
  pos_custom : Forall (fun e => 1 <= snd e) (default [] (itemsCustom o));
  pos_desktop : bp_pos (itemsDesktop o);
  pos_small : bp_pos (itemsDesktopSmall o);
  pos_tablet : bp_pos (itemsTablet o);
  pos_tsmall : bp_pos (itemsTabletSmall o);
  pos_mobile : bp_pos (itemsMobile o);
}.

Lemma below_pos width bp n : bp_pos bp -> 1 <= n -> 1 <= below width bp n.
Proof. destruct bp as [[w k]|]; simpl; [|done]. by destruct (width <=? w). Qed.

Lemma fold_custom_pos width l n :
  Forall (fun e => 1 <= snd e) l -> 1 <= n ->
  1 <= fold_left (fun n e => if fst e <=? width then snd e else n) l n.
Proof.
  revert n; induction l as [|e l IH]; intros n Hl Hn; [done|].
  apply Forall_cons in Hl as [He Hl]. apply IH; [done|]. by case_match.
Qed.

Lemma updateItems_pos width amount orig o :
  options_pos o -> 1 <= orig -> 1 <= amount ->
  options_pos (fst (OwlLayout.updateItems width amount orig o)) /\
  1 <= snd (OwlLayout.updateItems width amount orig o).
Proof.
  intros [Hi Hc Hd Hs Ht Hts Hm] Ho Ha. unfold OwlLayout.updateItems.
  destruct (responsive o); simpl; [|by split; [split|]].
  destruct (singleItem o); simpl; [by split; [split; simpl; (lia || done)|]|].
  set (n := if _ <? width then orig else items o).
  assert (1 <= n) as Hn by (unfold n; by case_match).
  assert (forall m, 1 <= m ->
    1 <= (if (amount <? m) && itemsScaleUp o then amount else m)) as Hup.
  { intros m Hm'. by case_match. }
  destruct (itemsCustom o) as [l|] eqn:Hl; simpl in *.
  - destruct (sort_custom_spec l) as [Hp _].
    assert (Forall (fun e => 1 <= snd e) (sort_custom l)) as Hsort by by rewrite Hp.
    split; [split; simpl; try done|done]. apply Hup, fold_custom_pos; done.
  - split; [split; simpl; try done|done]; [|by rewrite Hl]. by apply Hup; repeat apply below_pos.
Qed.

(** ** The view of an item *)

Record skel (p : Z) (s : carousel) : Prop := {
  sk_opts : options_pos (opts s);
  sk_orig : 1 <= orignalItems s;
  sk_amount : 1 <= amount s;
  sk_geo : exists ew, geo s = OwlLayout.calculateAll ew (amount s) (opts s);
  sk_prev : prevArr s = [p];
}.

Definition bar_shows (p : Z) (s : carousel) : Prop :=
  pagination (opts s) = true ->
  pages s = OwlLayout.updatePagination p (amount s) (roundPages (geo s)) (opts s) [].

Definition buttons_show (p : Z) (s : carousel) : Prop :=
  navigation (opts s) = true -> rewindNav (opts s) = false ->
  prevDisabled s = (p =? 0) /\ nextDisabled s = (p =? maximumItem (geo s)).

Definition window_shows (p : Z) (s : carousel) : Prop :=
  visibleItems s = zrange p (Z.to_nat (items (opts s))).

(** Everything but [currentItem] is as it should be for item [p]. *)
Record presync (p : Z) (s : carousel) : Prop := {
  pre_skel : skel p s;
  pre_range : 0 <= p <= maximumItem (geo s);
  pre_bar : bar_shows p s;
  pre_buttons : buttons_show p s;
  pre_window : window_shows p s;
}.

Definition in_sync (s : carousel) : Prop := presync (currentItem s) s.

(** ** Frames *)

Record same (s s' : carousel) : Prop := {
  same_opts : opts s' = opts s;
  same_orig : orignalItems s' = orignalItems s;
  same_geo : geo s' = geo s;
  same_prev : prevArr s' = prevArr s;
  same_current : currentItem s' = currentItem s;
  same_amount : amount s' = amount s;
  same_pages : pages s' = pages s;
  same_prevDisabled : prevDisabled s' = prevDisabled s;
  same_nextDisabled : nextDisabled s' = nextDisabled s;
  same_visible : visibleItems s' = visibleItems s;
}.

Lemma same_refl s : same s s.
Proof. by split. Qed.

Lemma same_trans s1 s2 s3 : same s1 s2 -> same s2 s3 -> same s1 s3.
Proof. intros [] []. split; congruence. Qed.

Lemma same_step s1 s2 s3 : same s2 s3 -> same s1 s2 -> same s1 s3.
Proof. intros H1 H2. by eapply same_trans. Qed.

Lemma same_presync p s s' : same s s' -> presync p s -> presync p s'.
Proof.
  intros [Ho Hi Hg Hp Hc Ha Hpg Hpd Hnd Hv] [[S1 S2 S3 S4 S5] R B N W].
  unfold bar_shows, buttons_show, window_shows in *.
  split; [split|..]; unfold bar_shows, buttons_show, window_shows;
    rewrite ?Ho, ?Hi, ?Hg, ?Hp, ?Ha, ?Hpg, ?Hpd, ?Hnd, ?Hv; done.
Qed.

Lemma same_in_sync s s' : same s s' -> in_sync s -> in_sync s'.
Proof. intros Hs. unfold in_sync. rewrite (same_current _ _ Hs). by apply same_presync. Qed.

Create HintDb same discriminated.
#[local] Hint Constants Opaque : same.
#[local] Hint Resolve same_refl : same.
#[local] Hint Extern 0 (same ?s0 (let _ := _ in _)) => let_step (same s0) : same.
#[local] Hint Extern 0 (same ?s0 (match _ with _ => _ end)) => branch_step (same s0) : same.
#[local] Hint Extern 0 (same _ (@set_field _ _ _ _ _ ?s)) =>
  apply (same_step _ s); [split; lazy beta iota delta [set_field opts orignalItems geo
    prevArr currentItem amount lazy pages prevDisabled nextDisabled visibleItems]; reflexivity|]
  : same.
Ltac same_tac := solve [eauto 50 with nocore same].

Section same.
Context (e : env) (s0 : carousel).
Lemma callback_same n s : same s0 s -> same s0 (callback n s).
Proof. intros. cbv beta delta [callback]. same_tac. Qed.
Lemma setTimer_same k s : same s0 s -> same s0 (setTimer k s).
Proof. intros. cbv beta delta [setTimer]. same_tac. Qed.
Lemma clearTimer_same h s : same s0 s -> same s0 (clearTimer h s).
Proof. intros. cbv beta delta [clearTimer]. same_tac. Qed.
#[local] Hint Resolve callback_same setTimer_same clearTimer_same : same.
Lemma stop_same s : same s0 s -> same s0 (stop s).
Proof. intros. cbv beta delta [stop]. same_tac. Qed.
Lemma play_same s : same s0 s -> same s0 (play s).
Proof. intros. cbv beta delta [play]. same_tac. Qed.
#[local] Hint Resolve stop_same play_same : same.
Lemma checkAp_same s : same s0 s -> same s0 (checkAp s).
Proof. intros. cbv beta delta [checkAp]. same_tac. Qed.
Lemma watchVisibility_same s : same s0 s -> same s0 (watchVisibility e s).
Proof. intros. cbv beta delta [watchVisibility]. same_tac. Qed.
Lemma swapSpeed_same a s : same s0 s -> same s0 (swapSpeed a s).
Proof. intros. cbv beta delta [swapSpeed]. same_tac. Qed.
Lemma transition3d_same v s : same s0 s -> same s0 (transition3d v s).
Proof. intros. cbv beta delta [transition3d]. same_tac. Qed.
Lemma css2move_same v s : same s0 s -> same s0 (css2move v s).
Proof. intros. cbv beta delta [css2move]. same_tac. Qed.
Lemma css2slide_same v s : same s0 s -> same s0 (css2slide v s).
Proof. intros. cbv beta delta [css2slide]. same_tac. Qed.
Lemma css2_complete_same s : same s0 s -> same s0 (css2_complete s).
Proof. intros. cbv beta delta [css2_complete]. same_tac. Qed.
Lemma singleItemTransition_same s : same s0 s -> same s0 (singleItemTransition s).
Proof. intros. cbv beta delta [singleItemTransition]. same_tac. Qed.
Lemma anim_handler_same s h : same s0 s -> same s0 (anim_handler s h).
Proof.
  intros. destruct h as [i []]; cbv beta iota delta [anim_handler clearTransStyle]; same_tac.
Qed.
Lemma animation_end_same i s : same s0 s -> same s0 (animation_end i s).
Proof.
  unfold animation_end. generalize (filter (fun h => fst h = i) (animEnds s)) as l.
  intros l; revert s; induction l as [|h l IH]; intros s Hs; [done|].
  by apply IH, anim_handler_same.
Qed.
Lemma resizer_same s : same s0 s -> same s0 (resizer e s).
Proof. intros. cbv beta delta [resizer]. same_tac. Qed.
Lemma response_same s : same s0 s -> same s0 (response e s).
Proof. intros. cbv beta delta [response]. same_tac. Qed.
Lemma stopOnHover_same s : same s0 s -> same s0 (stopOnHover s).
Proof. intros. cbv beta delta [stopOnHover]. same_tac. Qed.
Lemma moveEvents_same s : same s0 s -> same s0 (moveEvents s).
Proof. intros. cbv beta delta [moveEvents]. same_tac. Qed.
Lemma iter_same f n s :
  (forall s, same s0 s -> same s0 (f s)) -> same s0 s -> same s0 (Nat.iter n f s).
Proof. intros Hf Hs. induction n; [done|]. by apply Hf. Qed.
End same.

#[export] Hint Resolve callback_same setTimer_same clearTimer_same stop_same play_same
  checkAp_same watchVisibility_same swapSpeed_same transition3d_same css2move_same
  css2slide_same css2_complete_same singleItemTransition_same animation_end_same
  resizer_same response_same stopOnHover_same moveEvents_same : same.

(** ** The lazy images keep the number of items *)

Lemma set_slide_length i v s : length (slides (set_slide i v s)) = length (slides s).
Proof. apply length_insert. Qed.

Lemma checkLazyImage_length img i it s :
  length (slides (checkLazyImage img i it s)) = length (slides s).
Proof.
  unfold checkLazyImage, showImage. cases; by rewrite ?length_insert.
Qed.

Lemma lazyLoad_item_length o cur img s i :
  length (slides (lazyLoad_item o cur img s i)) = length (slides s).
Proof.
  unfold lazyLoad_item, lazyPreload.
  repeat case_match; rewrite ?checkLazyImage_length, ?set_slide_length; done.
Qed.

Lemma lazyLoad_length o a cur img s :
  length (slides (OwlLazy.lazyLoad o a cur img s)) = length (slides s).
Proof.
  unfold OwlLazy.lazyLoad. case_match; [done|].
  generalize (zrange 0 (Z.to_nat a)) as l. intros l; revert s.
  induction l as [|i l IH]; intros s; [done|]. simpl. by rewrite IH, lazyLoad_item_length.
Qed.

Lemma autoHeight_length cur img s :
  length (slides (OwlLazy.autoHeight cur img s)) = length (slides s).
Proof. unfold OwlLazy.autoHeight, checkImage, addHeight. by repeat case_match. Qed.

Lemma fire_poll_length cur img k s :
  length (slides (fire_poll cur img k s)) = length (slides s).
Proof.
  unfold fire_poll. repeat case_match; simpl; try done.
  - by rewrite checkLazyImage_length.
  - unfold checkImage, addHeight. by repeat case_match.
Qed.

Lemma same_lazy s0 l s :
  length (slides l) = length (slides (lazy s)) -> same s0 s -> same s0 (s <| lazy := l |>).
Proof. intros Hl. apply same_step. split; try reflexivity. unfold amount. simpl. by rewrite Hl. Qed.

(** ** Re-establishing the view *)

Section views.
Context (e : env).

(** [eachMoveUpdate] shows the window of the current item and frames the rest. *)
Lemma eachMoveUpdate_spec s :
  same (s <| visibleItems := zrange (currentItem s) (Z.to_nat (items (opts s))) |>)
    (eachMoveUpdate e s).
Proof.
  unfold eachMoveUpdate.
  set (s1 := if OwlLayout.lazyLoad (opts s) then _ else s).
  assert (same s s1) as H1.
  { unfold s1. case_match; [|apply same_refl]. apply same_lazy; [|apply same_refl].
    apply lazyLoad_length. }
  clearbody s1. set (s2 := if OwlLayout.autoHeight (opts s1) then _ else s1).
  assert (same s s2) as H2.
  { unfold s2. case_match; [|done]. apply same_lazy; [|done]. apply autoHeight_length. }
  clearbody s2. apply callback_same. unfold onVisibleItems.
  destruct H2 as [Ho Hi Hg Hp Hc Ha Hpg Hpd Hnd Hv].
  case_match; split; simpl; try done; unfold amount in *; simpl; congruence.
Qed.

(** [checkNavigation] shows the current item on the buttons. *)
Lemma checkNavigation_spec s :
  let s' := checkNavigation s in
  buttons_show (currentItem s) s' /\
  same (s <| prevDisabled := prevDisabled s' |> <| nextDisabled := nextDisabled s' |>) s'.
Proof.
  unfold checkNavigation, buttons_show. cbv zeta.
  destruct (navigation (opts s)) eqn:Hn; simpl; [|split; [congruence|by split]].
  destruct (rewindNav (opts s)) eqn:Hr; [split; [congruence|by split]|].
  destruct (Z.eqb_spec (currentItem s) 0), (Z.eqb_spec (maximumItem (geo s)) 0),
    (Z.eqb_spec (currentItem s) (maximumItem (geo s))); simpl;
    (split; [|by split]); intros _ _; simpl; split; symmetry;
    rewrite ?Z.eqb_eq, ?Z.eqb_neq; congruence.
Qed.

(** The item count is within the bounds of the geometry. *)
Lemma skel_max p s :
  skel p s -> maximumItem (geo s) = (if amount s <? items (opts s) then 0 else amount s - items (opts s))
    /\ 1 <= items (opts s) /\ 0 <= maximumItem (geo s) < amount s /\
    roundPages (geo s) = appendItemsSizes (amount s) (opts s).
Proof.
  intros [Ho _ Ha [ew Hg] _]. rewrite Hg.
  destruct (calculateAll_fields ew (amount s) (opts s)) as (_ & Hrp & _ & _ & Hm & _).
  pose proof (pos_items _ Ho). rewrite Hm, Hrp. split_and!; try done; zcases; lia.
Qed.

(** Pagination bar, buttons and visible items are redrawn for the new item. *)
Lemma controls_redrawn p s :
  presync p s -> 0 <= currentItem s <= maximumItem (geo s) -> p <> currentItem s ->
  let s1 := s <| prevItem := p |> <| prevArr := [currentItem s] |> in
  in_sync (eachMoveUpdate e (checkNavigation (checkPagination s1))) /\
  currentItem (eachMoveUpdate e (checkNavigation (checkPagination s1))) = currentItem s.
Proof.
  intros [Hsk Hr Hbar Hbut Hwin] Hq Hpq s1.
  destruct (skel_max p s Hsk) as (Hmax & Hi & Hma & Hrp).
  destruct Hsk as [So Sor Sa [ew Sg] Sp]. set (q := currentItem s) in *.
  set (s2 := checkPagination s1).
  destruct (checkNavigation_spec s2) as [Hb Hs2]. cbv zeta in *.
  set (s3 := checkNavigation s2) in *.
  destruct Hs2 as [To Ti Tg Tp Tc Ta Tpg _ _ Tv].
  pose proof (eachMoveUpdate_spec s3) as H3.
  assert (currentItem s3 = q) as Hc3 by by rewrite Tc.
  split; [|rewrite (same_current _ _ H3); by simpl].
  eapply same_in_sync; [exact H3|].
  change (presync (currentItem s3) (s3 <| visibleItems := zrange (currentItem s3)
    (Z.to_nat (items (opts s3))) |>)).
  rewrite Hc3. split.
  - split; simpl.
    + rewrite To. done.
    + by rewrite Ti.
    + change (1 <= amount s3). by rewrite Ta.
    + exists ew. change (geo s3 = OwlLayout.calculateAll ew (amount s3) (opts s3)).
      by rewrite Ta, To, Tg.
    + by rewrite Tp.
  - simpl. by rewrite Tg.
  - intros Hpag. simpl in Hpag |- *. rewrite Tpg. rewrite To in Hpag. simpl in Hpag.
    change (pages s2 = OwlLayout.updatePagination q (amount s3) (roundPages (geo s3)) (opts s3) []).
    rewrite Ta, Tg, To.
    change (OwlLayout.checkPagination q (roundPages (geo s)) (opts s) (pages s)
      = OwlLayout.updatePagination q (amount s) (roundPages (geo s)) (opts s) []).
    rewrite (Hbar Hpag), Hrp. apply pagination_recheck; [|done|lia|lia].
    split; [done|]. zcases; lia.
  - change (buttons_show (currentItem s2) s3). done.
  - reflexivity.
Qed.

(** [afterGo], from a carousel that shows item [p] and was told item [q]. *)
Lemma afterGo_sync p s :
  presync p s -> 0 <= currentItem s <= maximumItem (geo s) ->
  in_sync (afterGo e s) /\ currentItem (afterGo e s) = currentItem s.
Proof.
  intros Hpre Hq. pose proof Hpre as [Hsk Hr Hbar Hbut Hwin].
  destruct (skel_max p s Hsk) as (Hmax & Hi & Hma & Hrp).
  destruct Hsk as [So Sor Sa [ew Sg] Sp].
  set (q := currentItem s) in *.
  set (s1 := s <| prevItem := p |> <| prevArr := [q] |>).
  assert (afterGo e s =
    let s2 := if p =? q then s1 else
      let s := eachMoveUpdate e (checkNavigation (checkPagination s1)) in
      if bool_decide (autoPlay (opts s) = PlayFalse) then s else checkAp s in
    if prevItem s2 =? currentItem s2 then s2 else callback "afterMove" s2) as ->.
  { unfold afterGo. rewrite Sp. reflexivity. }
  destruct (Z.eqb_spec p q) as [Hpq|Hpq].
  { cbv zeta. simpl prevItem. simpl currentItem. fold q. rewrite Hpq, Z.eqb_refl.
    split; [|done]. unfold in_sync. change (currentItem s1) with q. rewrite <- Hpq.
    split; [split; try done; [by exists ew|by rewrite Hpq]|done..]. }
  destruct (controls_redrawn p s Hpre Hq Hpq) as [H1 H1c]. fold q s1 in H1, H1c.
  cbv zeta. set (s4 := if bool_decide _ then _ else _).
  assert (same (eachMoveUpdate e (checkNavigation (checkPagination s1))) s4) as H4.
  { unfold s4. destruct (bool_decide _); [apply same_refl|]. apply checkAp_same, same_refl. }
  assert (same (eachMoveUpdate e (checkNavigation (checkPagination s1)))
    (if prevItem s4 =? currentItem s4 then s4 else callback "afterMove" s4)) as H5.
  { destruct (_ =? _); [done|]. by apply callback_same. }
  split; [by eapply same_in_sync|]. by rewrite (same_current _ _ H5).
Qed.

(** ** Moves *)

Lemma presync_current p q s : presync p s -> presync p (s <| currentItem := q |>).
Proof. intros [[A B C D E] R Hb Hn Hw]. split; [split|..]; done. Qed.

Lemma clamp_range pos s : 0 <= maximumItem (geo s) -> 0 <= clamp pos s <= maximumItem (geo s).
Proof. intros H. unfold clamp. zcases; lia. Qed.

Lemma goTo_sync p pos sp d s :
  presync p s -> isTransition s = false ->
  in_sync (goTo e pos sp d s) /\ currentItem (goTo e pos sp d s) = clamp pos s.
Proof.
  intros Hs Ht. unfold goTo. rewrite Ht.
  set (s1 := callback "beforeMove" s).
  assert (same s s1) as H1 by apply callback_same, same_refl.
  assert (clamp pos s1 = clamp pos s) as Hcl by (unfold clamp; by rewrite (same_geo _ _ H1)).
  assert (forall s2, same (s1 <| currentItem := clamp pos s1 |>) s2 ->
    in_sync (afterGo e s2) /\ currentItem (afterGo e s2) = clamp pos s) as Hgo.
  { intros s2 H2. assert (presync p s2) as Hp.
    { eapply same_presync; [exact H2|]. by apply presync_current, (same_presync _ s). }
    assert (currentItem s2 = clamp pos s) as Hc.
    { rewrite (same_current _ _ H2). simpl. done. }
    rewrite <- Hc. apply (afterGo_sync p); [done|]. rewrite Hc.
    rewrite (same_geo _ _ H2). change (geo (s1 <| currentItem := clamp pos s1 |>)) with (geo s1).
    rewrite (same_geo _ _ H1). apply clamp_range. destruct (pre_range _ _ Hs). lia. }
  clearbody s1. cbv zeta. destruct (_ && _ && _ && _).
  - set (s2 := transition3d _ _).
    assert (same (s1 <| currentItem := clamp pos s1 |>) s2) as H2 by (unfold s2; same_tac).
    destruct (Hgo s2 H2) as [G1 G2].
    assert (same (afterGo e s2) (singleItemTransition (afterGo e s2))) as H3 by same_tac.
    split; [by eapply same_in_sync|]. by rewrite (same_current _ _ H3).
  - apply Hgo. destruct (support3d _); [|same_tac]. apply transition3d_same, setTimer_same,
      swapSpeed_same. same_tac.
Qed.

Lemma goTo_in_sync pos sp d s : in_sync s -> in_sync (goTo e pos sp d s).
Proof.
  intros Hs. destruct (isTransition s) eqn:Ht; [unfold goTo; by rewrite Ht|].
  by apply (goTo_sync (currentItem s)).
Qed.

Lemma next_in_sync sp s : in_sync s -> in_sync (next e sp s).
Proof.
  intros Hs. unfold next. destruct (isTransition s) eqn:Ht; [done|]. cbv zeta.
  set (s1 := s <| currentItem := currentItem s + step_of (opts s) |>).
  assert (presync (currentItem s) s1) as H1 by by apply presync_current.
  destruct (_ <? _) eqn:Hlt; [|by apply (goTo_sync (currentItem s))].
  destruct (rewindNav (opts s)); [by apply (goTo_sync (currentItem s)), Ht; apply presync_current|].
  destruct (skel_max _ _ (pre_skel _ _ Hs)) as (Hm & Hi & _). destruct (pre_range _ _ Hs).
  assert (maximumItem (geo s) = currentItem s) as Heq.
  { unfold s1, step_of in Hlt. simpl in Hlt. destruct (scrollPerPage (opts s)); lia. }
  unfold in_sync. simpl. rewrite Heq. by apply presync_current.
Qed.

Lemma prev_in_sync sp s : in_sync s -> in_sync (prev e sp s).
Proof.
  intros Hs. unfold prev. destruct (isTransition s) eqn:Ht; [done|]. cbv zeta.
  set (s1 := if _ && _ && _ then _ else _).
  assert (presync (currentItem s) s1 /\ isTransition s1 = false /\ geo s1 = geo s /\
    opts s1 = opts s /\ (currentItem s1 < 0 -> currentItem s = 0)) as (H1 & H2 & H3 & H4 & H5).
  { unfold s1. destruct (skel_max _ _ (pre_skel _ _ Hs)) as (Hm & Hi & _).
    destruct (pre_range _ _ Hs). unfold step_of.
    destruct (scrollPerPage (opts s)); simpl; [zcases; simpl|];
      (split_and!; [by apply presync_current|done|done|done|simpl; lia]). }
  clearbody s1. destruct (Z.ltb_spec (currentItem s1) 0) as [Hlt|_];
    [|by apply (goTo_sync (currentItem s))].
  destruct (rewindNav (opts s)).
  - apply (goTo_sync (currentItem s)); [by apply presync_current|done].
  - rewrite (H5 Hlt) in H1. apply (presync_current 0 0), H1.
Qed.
End views.

(** ** Resizing and start-up *)

(** The fields [skel] depends on. *)
Record same_core (s s' : carousel) : Prop := {
  core_opts : opts s' = opts s;
  core_orig : orignalItems s' = orignalItems s;
  core_geo : geo s' = geo s;
  core_prev : prevArr s' = prevArr s;
  core_current : currentItem s' = currentItem s;
  core_amount : amount s' = amount s;
}.

Lemma same_core_trans s1 s2 s3 : same_core s1 s2 -> same_core s2 s3 -> same_core s1 s3.
Proof. intros [] []. split; congruence. Qed.

Lemma same_same_core s s' : same s s' -> same_core s s'.
Proof. intros []. by split. Qed.

Lemma same_core_skel p s s' : same_core s s' -> skel p s -> skel p s'.
Proof.
  intros [Ho Hi Hg Hp Hc Ha] [S1 S2 S3 S4 S5]. split; rewrite ?Ho, ?Hi, ?Hg, ?Hp, ?Ha; done.
Qed.

Section updates.
Context (e : env).

Lemma eachMoveUpdate_core s : same_core s (eachMoveUpdate e s).
Proof. by destruct (eachMoveUpdate_spec e s). Qed.

Lemma checkNavigation_core s : same_core s (checkNavigation s).
Proof. destruct (checkNavigation_spec s) as [_ []]. by split. Qed.

Lemma afterGo_core p s :
  prevArr s = [p] ->
  same_core (s <| prevArr := [currentItem s] |>) (afterGo e s).
Proof.
  intros Hp. unfold afterGo. rewrite Hp. simpl List.tl.
  set (s1 := s <| prevItem := _ |> <| prevArr := _ |>).
  assert (same_core (s <| prevArr := [currentItem s] |>) s1) as H1 by by split.
  clearbody s1. cbv zeta.
  set (s2 := if _ =? _ then s1 else _).
  assert (same_core s1 s2) as H2.
  { unfold s2; clear s2. destruct (_ =? _); [by split|].
    set (s3 := eachMoveUpdate e _).
    assert (same_core s1 s3) as H3.
    { eapply same_core_trans; [|apply eachMoveUpdate_core].
      eapply same_core_trans; [|apply checkNavigation_core]. by split. }
    clearbody s3. destruct (bool_decide _); [done|].
    eapply same_core_trans; [exact H3|]. apply same_same_core, checkAp_same, same_refl. }
  clearbody s2. eapply same_core_trans; [exact H1|].
  destruct (_ =? _); [done|]. eapply same_core_trans; [exact H2|].
  apply same_same_core, callback_same, same_refl.
Qed.

(** Building the controls anew shows the current item on them, and refreshing the
  window completes the view. *)
Record controls_sync (s : carousel) : Prop := {
  cs_skel : skel (currentItem s) s;
  cs_range : 0 <= currentItem s <= maximumItem (geo s);
  cs_bar : bar_shows (currentItem s) s;
  cs_buttons : buttons_show (currentItem s) s;
}.

Lemma same_controls_sync s s' : same s s' -> controls_sync s -> controls_sync s'.
Proof.
  intros [Ho Hi Hg Hp Hc Ha Hpg Hpd Hnd Hv] [S R B N].
  unfold bar_shows, buttons_show in *.
  split; unfold bar_shows, buttons_show; rewrite ?Hc, ?Ho, ?Hg, ?Ha, ?Hpg, ?Hpd, ?Hnd; try done.
  by apply (same_core_skel _ s).
Qed.

Lemma updateControls_sync s :
  skel (currentItem s) s -> 0 <= currentItem s <= maximumItem (geo s) ->
  controls_sync (updateControls s).
Proof.
  intros Hsk Hr. set (s1 := updatePagination s).
  destruct (checkNavigation_spec s1) as [Hb [To Ti Tg Tp Tc Ta Tpg _ _ _]]. cbv zeta in *.
  assert (same (checkNavigation s1) (updateControls s)) as S3.
  { unfold updateControls. fold s1. destruct (controls _); [|apply same_refl]. by split. }
  apply (same_controls_sync _ _ S3). split; rewrite ?Tc, ?Tg; try done.
  - by apply (same_core_skel _ s).
  - intros Hpag. rewrite Tpg. simpl. rewrite Ta, Tg, To. simpl.
    rewrite To in Hpag. unfold OwlLayout.updatePagination.
    change (pagination (opts s) = true) in Hpag. by rewrite Hpag.
Qed.

Lemma eachMoveUpdate_sync s : controls_sync s -> in_sync (eachMoveUpdate e s).
Proof.
  intros [Hsk Hr Hb Hn]. pose proof (eachMoveUpdate_spec e s) as H1.
  eapply same_in_sync; [exact H1|]. unfold in_sync. simpl.
  split; [|done|done|done|done]. by apply (same_core_skel _ s).
Qed.

Lemma jumpTo_core p pos s :
  prevArr s = [p] -> 0 <= maximumItem (geo s) ->
  let s' := jumpTo e pos s in
  0 <= currentItem s' <= maximumItem (geo s) /\
  same_core (s <| currentItem := currentItem s' |> <| prevArr := [currentItem s'] |>) s'.
Proof.
  intros Hp Hm. unfold jumpTo.
  assert (same_core s (callback "beforeMove" s)) as H1
    by apply same_same_core, callback_same, same_refl.
  revert H1. generalize (callback "beforeMove" s) as s1. intros s1 H1. cbv zeta.
  set (q := if _ || _ then _ else _).
  assert (0 <= q <= maximumItem (geo s)) as Hq.
  { unfold q. rewrite (core_geo _ _ H1). zcases; simpl; lia. }
  clearbody q. set (s2 := if support3d _ then _ else _).
  assert (same_core s1 s2) as H2.
  { apply same_same_core. unfold s2. destruct (support3d _); same_tac. }
  assert (same_core s s2) as H3 by by eapply same_core_trans. clearbody s2.
  pose proof (afterGo_core p (s2 <| currentItem := q |>)) as Hgo.
  destruct Hgo as [Go Gi Gg Gp Gc Ga]; [by rewrite <- Hp, <- (core_prev _ _ H3)|].
  simpl in Gc. rewrite Gc. split; [done|]. destruct H3 as [? ? ? ? ? ?].
  split; rewrite ?Go, ?Gi, ?Gg, ?Gp, ?Gc; try done.
  rewrite Ga. done.
Qed.

Lemma jumpTo_in_sync pos s : in_sync s -> in_sync (jumpTo e pos s).
Proof.
  intros Hs. unfold jumpTo. cbv zeta.
  assert (same s (callback "beforeMove" s)) as H1 by apply callback_same, same_refl.
  revert H1. generalize (callback "beforeMove" s) as s1. intros s1 H1.
  set (q := if _ || _ then _ else _).
  assert (0 <= q <= maximumItem (geo s1)) as Hq.
  { destruct (skel_max _ _ (pre_skel _ _ Hs)) as (_ & _ & Hm & _).
    rewrite <- (same_geo _ _ H1) in Hm. unfold q. zcases; simpl; lia. }
  clearbody q. set (s2 := if support3d _ then _ else _).
  assert (same s1 s2) as H2 by (unfold s2; destruct (support3d _); same_tac).
  apply (afterGo_sync e (currentItem s)).
  - apply presync_current. by apply (same_presync _ s1), (same_presync _ s).
  - simpl. by rewrite (same_geo _ _ H2).
Qed.

Lemma layout_skel p s :
  options_pos (opts s) -> 1 <= orignalItems s -> 1 <= amount s -> prevArr s = [p] ->
  skel p (calculateAll e (updateItems e s)).
Proof.
  intros Ho Hi Ha Hp. unfold updateItems.
  destruct (updateItems_pos (baseWidth e) (amount s) (orignalItems s) (opts s) Ho Hi Ha) as [H1 H2].
  destruct (OwlLayout.updateItems _ _ _ _) as [o orig]. simpl in *.
  split; simpl; try done. by exists (elWidth e).
Qed.

Lemma updatePosition_core p s :
  skel p s -> let s' := updatePosition e s in
  skel (currentItem s') s' /\ 0 <= currentItem s' <= maximumItem (geo s').
Proof.
  intros Hl. destruct (skel_max _ _ Hl) as (_ & _ & Hm & _).
  destruct (jumpTo_core p (currentItem s) s) as [Hr Hc]; [apply Hl|lia|].
  unfold updatePosition. cbv zeta. revert Hr Hc.
  generalize (jumpTo e (currentItem s) s) as s3. intros s3 Hr Hc.
  assert (skel (currentItem s3) s3) as Hs3.
  { eapply same_core_skel; [exact Hc|]. destruct Hl as [? ? ? ? ?]. by split. }
  pose proof (core_geo _ _ Hc) as Hg. simpl in Hg. rewrite <- Hg in Hr.
  destruct (bool_decide _); [done|].
  assert (same s3 (checkAp s3)) as H4 by apply checkAp_same, same_refl.
  rewrite (same_current _ _ H4), (same_geo _ _ H4). split; [|done].
  apply (same_core_skel _ s3); [by apply same_same_core|done].
Qed.

Lemma updateVars_eq s :
  updateVars e s =
  callback "afterUpdate" (eachMoveUpdate e (updateControls (updatePosition e
    (calculateAll e (updateItems e (watchVisibility e (callback "beforeUpdate" s))))))).
Proof. reflexivity. Qed.

Lemma updateVars_in_sync p s : skel p s -> in_sync (updateVars e s).
Proof.
  intros Hs. rewrite updateVars_eq.
  assert (same s (watchVisibility e (callback "beforeUpdate" s))) as H1 by same_tac.
  revert H1. generalize (watchVisibility e (callback "beforeUpdate" s)) as s1. intros s1 H1.
  pose proof (same_core_skel p s s1 (same_same_core _ _ H1) Hs) as [A B C _ D].
  pose proof (layout_skel p s1 A B C D) as Hl. revert Hl.
  generalize (calculateAll e (updateItems e s1)) as s2. intros s2 Hl.
  destruct (updatePosition_core p s2 Hl) as [H2 H3]. revert H2 H3.
  generalize (updatePosition e s2) as s3. intros s3 H2 H3.
  pose proof (eachMoveUpdate_sync _ (updateControls_sync s3 H2 H3)) as H4. revert H4.
  generalize (eachMoveUpdate e (updateControls s3)) as s4. intros s4.
  apply same_in_sync, callback_same, same_refl.
Qed.

Lemma onStartup_in_sync s :
  options_pos (opts s) -> 1 <= orignalItems s -> 1 <= amount s -> prevArr s = [0] ->
  currentItem s = 0 -> in_sync (onStartup e s).
Proof.
  intros A B C D Hc. unfold onStartup.
  pose proof (layout_skel 0 s A B C D) as Hl.
  assert (currentItem (calculateAll e (updateItems e s)) = 0) as Hc1.
  { unfold updateItems. by destruct (OwlLayout.updateItems _ _ _ _). }
  revert Hl Hc1. generalize (calculateAll e (updateItems e s)) as s1. intros s1 Hl Hc1.
  assert (controls_sync (updateControls (buildControls s1))) as H2.
  { assert (same_core s1 (buildControls s1)) as Hb.
    { unfold buildControls. destruct (_ || _); by split. }
    destruct (skel_max _ _ Hl) as (_ & _ & Hm & _).
    apply updateControls_sync; rewrite (core_current _ _ Hb), Hc1; [by apply (same_core_skel _ s1)|].
    rewrite (core_geo _ _ Hb). lia. }
  revert H2. generalize (updateControls (buildControls s1)) as s2. intros s2 H2. cbv zeta.
  assert (same s2 (stopOnHover (moveEvents (response e s2)))) as H3 by same_tac.
  revert H3. generalize (stopOnHover (moveEvents (response e s2))) as s3. intros s3 H3.
  apply (same_controls_sync _ _ H3) in H2.
  set (s4 := if bool_decide _ then _ else _).
  assert (controls_sync s4) as H4.
  { unfold s4. case_bool_decide; [|done]. destruct H2 as [[[] ? ? ? ?] ? ? ?].
    split; [split; [split|..]|..]; done. }
  clearbody s4. apply (same_in_sync (eachMoveUpdate e (watchVisibility e (play s4))));
    [apply callback_same, same_refl|].
  apply eachMoveUpdate_sync. eapply same_controls_sync; [|exact H4]. same_tac.
Qed.

Lemma setVars_in_sync s :
  options_pos (opts s) -> 1 <= orignalItems s -> slides (lazy s) <> [] ->
  in_sync (setVars e s).
Proof.
  intros A B C. unfold setVars. rewrite bool_decide_eq_false_2 by done.
  apply onStartup_in_sync; [done|done| |done|done].
  change (1 <= Z.of_nat (length ((fun v : slide => v <| owl_loaded := None |>
    <| is_loading := false |>) <$> slides (lazy s)))).
  rewrite length_fmap. destruct (slides (lazy s)); [done|simpl; lia].
Qed.
End updates.

(** ** Every event *)

Lemma closest_step_presync a p s i : presync p s -> presync p (closest_step a s i).
Proof.
  intros Hs. unfold closest_step, moveDirection. cbv zeta.
  repeat (case_match; simplify_eq); try apply presync_current; try done;
    (eapply same_presync; [|exact Hs]; by split).
Qed.

Lemma getNewPosition_presync p s : presync p s -> presync p (snd (getNewPosition s)).
Proof.
  intros Hs. assert (presync p (closestItem s)) as Hc.
  { unfold closestItem. generalize (if scrollPerPage (opts s) then pagesInArray (geo s)
      else Some <$> positionsInArray (geo s)) as a.
    intros a. generalize (seq 0 (length a)) as l. intros l; revert s Hs.
    induction l as [|i l IH]; intros s Hs; [done|]. by apply IH, closest_step_presync. }
  unfold getNewPosition. revert Hc. generalize (closestItem s) as c. intros c Hc.
  destruct (_ <? _); [|destruct (Qle_bool _ _)]; simpl; try apply presync_current; done.
Qed.

Lemma getNewPosition_transition s :
  isTransition (snd (getNewPosition s)) = isTransition s.
Proof.
  assert (isTransition (closestItem s) = isTransition s) as Hc.
  { unfold closestItem. generalize (if scrollPerPage (opts s) then pagesInArray (geo s)
      else Some <$> positionsInArray (geo s)) as a.
    intros a. generalize (seq 0 (length a)) as l. intros l; revert s.
    induction l as [|i l IH]; intros s; [done|]. simpl. rewrite IH.
    unfold closest_step, moveDirection. cbv zeta. by repeat (case_match; simplify_eq). }
  rewrite <- Hc. unfold getNewPosition. generalize (closestItem s) as c. intros c.
  destruct (_ <? _); [|destruct (Qle_bool _ _)]; done.
Qed.

Lemma timer_body_in_sync e k s : in_sync s -> in_sync (timer_body e k s).
Proof.
  intros Hs. destruct k; simpl.
  - by apply next_in_sync.
  - destruct (visible e); [|done]. eapply same_in_sync; [|exact Hs].
    apply clearTimer_same, setTimer_same, same_refl.
  - eapply updateVars_in_sync, same_core_skel; [|apply Hs]. by split.
  - eapply updateVars_in_sync, Hs.
  - eapply same_in_sync; [|exact Hs]. by split.
Qed.

Lemma fire_timer_in_sync e h s : in_sync s -> in_sync (fire_timer e h s).
Proof.
  intros Hs. unfold fire_timer. destruct (List.find _ _) as [[h' k]|]; [|done].
  apply timer_body_in_sync. destruct (is_interval k); [done|].
  eapply same_in_sync; [|exact Hs]. by split.
Qed.

Lemma owl_play_in_sync sp s : in_sync s -> in_sync (owl_play sp s).
Proof.
  intros Hs. unfold owl_play.
  assert (in_sync (s <| opts := opts s <| autoPlay := sp |> |>)) as H1.
  { destruct Hs as [[[] ? ? ? ?] ? ? ? ?]. split; [split; [split|..]|..]; done. }
  eapply same_in_sync; [|exact H1].
  eapply same_trans; [apply play_same, same_refl|by split].
Qed.

(** Steps the theorem is about: a drag does not end during a transition, the last
    item is not removed, and new options name positive numbers of items. *)
Definition allowed (ev : event) (w : owl) : Prop :=
  match ev with
  | EvDragEnd _ => isTransition (base w) = false
  | EvRemoveItem _ => (2 <= length (slides (lazy (base w))))%nat
  | EvReinit o => options_pos o
  | _ => True
  end.

Inductive reachable (o : options) (s3d touch : bool) (l : list slide) : owl -> Prop :=
  | reach_start e : reachable o s3d touch l (started o s3d touch l e)
  | reach_step e ev w :
      reachable o s3d touch l w -> allowed ev w -> reachable o s3d touch l (handle e ev w).

Section events.
Context (e : env).

Lemma amount_slides s : in_sync s -> slides (lazy s) <> [].
Proof. intros [[_ _ Ha _ _] _ _ _ _] H. unfold amount in Ha. rewrite H in Ha. simpl in Ha. lia. Qed.

Lemma dragStart_same ev pos w : same (base w) (base (dragStart ev pos w)).
Proof.
  unfold dragStart. repeat (case_match; [apply same_refl|]). cbv zeta. simpl base.
  apply (same_trans _ (if bool_decide (autoPlay (opts (base w)) = PlayFalse) then base w
           else clearTimer (autoPlayInterval (base w)) (base w))); [case_match; same_tac|by split].
Qed.

Lemma dragMove_same ev w : same (base w) (base (dragMove ev w)).
Proof.
  unfold dragMove. case_match; [apply same_refl|].
  destruct (_ && _ && _); cbv zeta; simpl base.
  - apply (same_trans _ (callback "startDragging" (base w))); [apply callback_same, same_refl|]. unfold callback.
    case_decide; simpl; repeat case_match; by split.
  - simpl; repeat case_match; by split.
Qed.

Lemma dragEnd_in_sync ev w :
  isTransition (base w) = false -> in_sync (base w) -> in_sync (base (dragEnd e ev w)).
Proof.
  intros Ht Hs. unfold dragEnd. case_match; [done|].
  set (s1 := base w <| dragDirection := _ |>).
  assert (presync (currentItem (base w)) s1) as H1 by (eapply same_presync; [|exact Hs]; by split).
  assert (isTransition (snd (getNewPosition s1)) = false) as Ht1
    by by rewrite getNewPosition_transition.
  apply getNewPosition_presync in H1. destruct (Qeq_bool _ 0); simpl base.
  - by eapply same_in_sync; [|exact Hs].
  - destruct (getNewPosition s1) as [q c]. simpl base. simpl in H1, Ht1.
    by apply (goTo_sync e (currentItem (base w))).
Qed.

Lemma setVars_slides l s :
  in_sync s -> l <> [] -> in_sync (setVars e (set_slides l (unWrap s))).
Proof. intros [[] ? ? ? ?] Hl. by apply setVars_in_sync. Qed.

Lemma addItem_in_sync v p s : in_sync s -> in_sync (addItem v p e s).
Proof.
  intros Hs. unfold addItem. pose proof (amount_slides s Hs) as Hne.
  rewrite bool_decide_eq_false_2 by done. cbv zeta. apply setVars_slides; [done|].
  destruct (_ || _); [by intros [_ [=]]%app_nil|]. destruct (eq_index _ _); [|done].
  by intros [_ [=]]%app_nil.
Qed.

Lemma eq_index_lt i n j : eq_index i n = Some j -> (j < n)%nat.
Proof. unfold eq_index. case_match; [|done]. intros [= <-]. lia. Qed.

Lemma removeItem_in_sync p s :
  (2 <= length (slides (lazy s)))%nat -> in_sync s -> in_sync (removeItem p e s).
Proof.
  intros Hl Hs. unfold removeItem. pose proof (amount_slides s Hs) as Hne.
  rewrite bool_decide_eq_false_2 by done. cbv zeta. apply setVars_slides; [done|].
  destruct (eq_index _ _) as [i|] eqn:E; [|done]. apply eq_index_lt in E.
  intros H%(f_equal length). rewrite length_delete in H by by apply lookup_lt_is_Some_2.
  simpl in H. lia.
Qed.

Lemma init_in_sync o s :
  options_pos o -> slides (lazy s) <> [] -> in_sync (init o e s).
Proof.
  intros Ho Hl. unfold init. apply setVars_in_sync; simpl;
    unfold callback; case_decide; simpl; try done; apply Ho.
Qed.

Lemma handle_in_sync ev w :
  allowed ev w -> in_sync (base w) -> in_sync (base (handle e ev w)).
Proof.
  intros Hev Hs.
  assert (forall f : carousel -> carousel, in_sync (f (base w)) ->
    in_sync (base (if_bound f w))) as Hb.
  { intros f Hf. unfold if_bound. by case_match. }
  assert (forall n f, (forall s, same (base w) s -> same (base w) (f s)) ->
    in_sync (Nat.iter n f (base w))) as Hit.
  { intros n f Hf. eapply same_in_sync; [|exact Hs]. by apply iter_same, same_refl. }
  destruct ev; simpl in Hev |- *.
  - by apply Hb, next_in_sync.
  - by apply Hb, prev_in_sync.
  - by apply Hb, goTo_in_sync.
  - by apply Hb, jumpTo_in_sync.
  - by apply Hb, owl_play_in_sync.
  - apply Hb. eapply same_in_sync; [|exact Hs].
    eapply same_trans; [apply stop_same, same_refl|by split].
  - case_match; [|done]. apply Hb. unfold buttons_mouseup.
    destruct is_next; [by apply next_in_sync|by apply prev_in_sync].
  - case_match; [|done]. apply Hb. unfold page_mouseup. destruct (pages (base w) !! k); [|done].
    case_match; [done|by apply goTo_in_sync].
  - apply Hit. intros. same_tac.
  - apply Hit. intros. destruct (bool_decide _); same_tac.
  - by apply fire_timer_in_sync.
  - case_match; [|done]. apply Hb. eapply same_in_sync; [|exact Hs]. same_tac.
  - eapply same_in_sync; [|exact Hs]. same_tac.
  - eapply same_in_sync; [|exact Hs]. same_tac.
  - eapply same_in_sync; [|exact Hs]. apply same_lazy, same_refl. apply fire_poll_length.
  - case_match; [|done]. eapply same_in_sync; [apply dragStart_same|done].
  - eapply same_in_sync; [apply dragMove_same|done].
  - by apply dragEnd_in_sync.
  - unfold click. by case_match.
  - by apply addItem_in_sync.
  - by apply removeItem_in_sync.
  - unfold reinit. apply init_in_sync; [done|]. exact (amount_slides (base w) Hs).
  - eapply same_in_sync; [|exact Hs]. unfold destroy.
    apply (same_trans _ (clearTimer (checkVisible (stop (base w))) (stop (base w))));
      [apply clearTimer_same, stop_same, same_refl|by split].
Qed.
End events.

Lemma reachable_in_sync o s3d touch l w :
  options_pos o -> l <> [] -> reachable o s3d touch l w -> in_sync (base w).
Proof.
  intros Ho Hl. induction 1 as [e|e ev w _ IH Hev]; [by apply init_in_sync|].
  by apply handle_in_sync.
Qed.

Lemma owl_run_reachable o s3d touch l evs w :
  reachable o s3d touch l w -> (forall e ev, (e, ev) ∈ evs -> forall w, allowed ev w) ->
  reachable o s3d touch l (run evs w).
Proof.
  revert w; induction evs as [|[e ev] evs IH]; intros w Hw Hall; [done|].
  apply IH; [|intros; eapply Hall; by right].
  apply reach_step; [done|]. eapply Hall. left.
Qed.

(** ** Property *)

(** C23. In every state that a carousel with slides and positive numbers of items reaches while
    no drag ends during a transition, the last item is not removed and new options name positive
    numbers of items, the current item is between 0 and [maximumItem], the pagination bar is the
    one built for it, the previous and next buttons are disabled exactly at the two ends (when
    the carousel does not rewind), and the visible items are the [items] ones from it on. *)
Theorem controls_show_current o s3d touch l w :
  options_pos o -> l <> [] -> reachable o s3d touch l w ->
  let s := base w in
  let p := currentItem s in
  1 <= items (opts s) /\ 0 <= p <= maximumItem (geo s) /\
  (pagination (opts s) = true ->
     pages s = OwlLayout.updatePagination p (amount s) (roundPages (geo s)) (opts s) []) /\
  (navigation (opts s) = true -> rewindNav (opts s) = false ->
     prevDisabled s = (p =? 0) /\ nextDisabled s = (p =? maximumItem (geo s))) /\
  visibleItems s = zrange p (Z.to_nat (items (opts s))).
Proof.
  intros Ho Hl Hw s p. destruct (reachable_in_sync _ _ _ _ _ Ho Hl Hw) as [Hs Hr Hb Hn Hv].
  exact (conj (pos_items _ (sk_opts _ _ Hs)) (conj Hr (conj Hb (conj Hn Hv)))).
Qed.

(** ** A concrete run: five items, three at a time, buttons without rewinding *)

Definition item0 : slide := mk_slide None false None false true None false.
Definition five_items : list slide := repeat item0 5.
Definition wide : env := mk_env true 1300 1300 1000 (fun _ => mk_image true None).
Definition narrow : env := mk_env true 800 800 800 (fun _ => mk_image true None).
Definition button_options : options :=
  default_options <| items := 3 |> <| navigation := true |> <| rewindNav := false |>.

Lemma button_options_pos : options_pos button_options.
Proof. split; vm_compute; (done || constructor). Qed.

Definition two_steps : owl :=
  run [(wide, EvButton true); (wide, EvButton true); (narrow, EvResize); (narrow, EvTimer 2)]
    (started button_options true false five_items wide).

Lemma two_steps_reachable : reachable button_options true false five_items two_steps.
Proof.
  apply owl_run_reachable; [apply reach_start|].
  intros e ev Hin w. 
  repeat (apply elem_of_cons in Hin as [[= -> ->]|Hin]; [exact I|]).
  by apply not_elem_of_nil in Hin.
Qed.

Lemma controls_show_current_witness :
  currentItem (base two_steps) = 2 /\ items (opts (base two_steps)) = 1 /\
  prevDisabled (base two_steps) = false /\ nextDisabled (base two_steps) = false.
Proof.
  assert (five_items <> []) as Hl by discriminate.
  destruct (controls_show_current _ _ _ _ _ button_options_pos Hl two_steps_reachable)
    as (_ & _ & _ & H & _).
  assert (currentItem (base two_steps) = 2) as Hc by (vm_compute; reflexivity).
  assert (maximumItem (geo (base two_steps)) = 4) as Hm by (vm_compute; reflexivity).
  rewrite Hc, Hm in H.
  split; [exact Hc|]. split; [vm_compute; reflexivity|].
  apply H; vm_compute; reflexivity.
Defined.
