(* ===== verification/OwlMotion.v ===== *)
(** * [owl.carousel.js], part 7: what a move does

    Where [next], [prev] and a drag of
    [2019104287/code/WebContent/js/owl.carousel.js] lead, how a single-item
    transition ends, and the runs that show the carousel stuck or running on. *)

From S2P Require Export OwlSync.
From Stdlib Require Import Lqa.
Open Scope Z_scope.

(** ** The state of a transition is touched by the transition only *)

Definition transition_state (s : carousel) :=
  (isTransition s, endPrev s, endCurrent s, animEnds s, transClasses s, owlOrigin s).

Definition held (s0 s : carousel) : Prop := transition_state s = transition_state s0.

Lemma held_step s0 s s' : held s s' -> held s0 s -> held s0 s'.
Proof. unfold held. congruence. Qed.

Create HintDb held discriminated.
#[local] Hint Constants Opaque : held.
#[local] Hint Extern 0 (held ?s0 (let _ := _ in _)) => let_step (held s0) : held.
#[local] Hint Extern 0 (held ?s0 (match _ with _ => _ end)) => branch_step (held s0) : held.
#[local] Hint Extern 0 (held _ (@set_field _ _ _ _ _ ?s)) =>
  apply (held_step _ s); [lazy beta iota delta [held transition_state set_field isTransition
    endPrev endCurrent animEnds transClasses owlOrigin]; reflexivity|] : held.
Ltac held_tac := solve [eauto 50 with nocore held].

Section held.
Context (e : env) (s0 : carousel).
Lemma callback_held n s : held s0 s -> held s0 (callback n s).
Proof. intros. cbv beta delta [callback]. held_tac. Qed.
Lemma play_held s : held s0 s -> held s0 (play s).
Proof. intros. cbv beta delta [play setTimer clearTimer]. held_tac. Qed.
#[local] Hint Resolve callback_held play_held : held.
Lemma checkAp_held s : held s0 s -> held s0 (checkAp s).
Proof. intros. cbv beta delta [checkAp]. held_tac. Qed.
Lemma checkNavigation_held s : held s0 s -> held s0 (checkNavigation s).
Proof. intros. cbv beta delta [checkNavigation]. held_tac. Qed.
Lemma onVisibleItems_held s : held s0 s -> held s0 (onVisibleItems s).
Proof. intros. cbv beta delta [onVisibleItems]. held_tac. Qed.
#[local] Hint Resolve checkAp_held checkNavigation_held onVisibleItems_held : held.
Lemma eachMoveUpdate_held s : held s0 s -> held s0 (eachMoveUpdate e s).
Proof. intros. cbv beta delta [eachMoveUpdate]. held_tac. Qed.
Lemma checkPagination_held s : held s0 s -> held s0 (checkPagination s).
Proof. intros. cbv beta delta [checkPagination]. held_tac. Qed.
#[local] Hint Resolve eachMoveUpdate_held checkPagination_held : held.
Lemma afterGo_held s : held s0 s -> held s0 (afterGo e s).
Proof. intros. cbv beta delta [afterGo]. held_tac. Qed.
Lemma swapSpeed_held a s : held s0 s -> held s0 (swapSpeed a s).
Proof. intros. cbv beta delta [swapSpeed]. held_tac. Qed.
Lemma setTimer_held k s : held s0 s -> held s0 (setTimer k s).
Proof. intros. cbv beta delta [setTimer]. held_tac. Qed.
Lemma transition3d_held v s : held s0 s -> held s0 (transition3d v s).
Proof. intros. cbv beta delta [transition3d]. held_tac. Qed.
Lemma css2slide_held v s : held s0 s -> held s0 (css2slide v s).
Proof. intros. cbv beta delta [css2slide]. held_tac. Qed.
End held.
#[local] Hint Resolve callback_held afterGo_held swapSpeed_held setTimer_held
  transition3d_held css2slide_held : held.

(** The two shapes of [goTo]: with the single-item transition and without. *)
Definition with_transition (drag : bool) (s : carousel) : bool :=
  bool_decide (transitionStyle (opts s) <> None) && negb drag &&
  (items (opts s) =? 1) && support3d s.

Lemma callback_fields n s :
  opts (callback n s) = opts s /\ support3d (callback n s) = support3d s.
Proof. unfold callback. by case_match. Qed.

Lemma goTo_held e pos sp d s :
  with_transition d s = false -> held s (goTo e pos sp d s).
Proof.
  intros Hw. unfold goTo. destruct (isTransition s); [done|].
  destruct (callback_fields "beforeMove" s) as [Ho H3].
  assert (held s (callback "beforeMove" s)) as Hc by by apply callback_held.
  revert Ho H3 Hc. generalize (callback "beforeMove" s) as s1. intros s1 Ho H3 Hc.
  unfold with_transition in Hw. rewrite <- Ho, <- H3 in Hw. cbv zeta.
  change (opts (s1 <| currentItem := clamp pos s1 |>)) with (opts s1).
  change (support3d (s1 <| currentItem := clamp pos s1 |>)) with (support3d s1).
  rewrite Hw. apply afterGo_held. destruct (support3d s1); held_tac.
Qed.

Lemma goTo_transition e pos sp d s :
  with_transition d s = true -> isTransition s = false ->
  exists s1, goTo e pos sp d s = singleItemTransition s1 /\ held s s1.
Proof.
  intros Hw Ht. unfold goTo. rewrite Ht.
  destruct (callback_fields "beforeMove" s) as [Ho H3].
  assert (held s (callback "beforeMove" s)) as Hc by by apply callback_held.
  revert Ho H3 Hc. generalize (callback "beforeMove" s) as s1. intros s1 Ho H3 Hc.
  unfold with_transition in Hw. rewrite <- Ho, <- H3 in Hw. cbv zeta.
  change (opts (s1 <| currentItem := clamp pos s1 |>)) with (opts s1).
  change (support3d (s1 <| currentItem := clamp pos s1 |>)) with (support3d s1).
  rewrite Hw. eexists. split; [reflexivity|]. held_tac.
Qed.

(** ** The transition ends *)

(** No transition runs. *)
Definition at_rest (s : carousel) : Prop :=
  isTransition s = false /\ endPrev s = false /\ endCurrent s = false /\ animEnds s = [] /\
  transClasses s = [] /\ owlOrigin s = false.

(** One end, on the state of the transition: its handlers are gone, its class is
    removed, and the second end finishes. *)
Definition ends : Type := bool * bool * bool * list (Z * role) * list (Z * role) * bool.

Definition end_step (t : ends) (h : Z * role) : ends :=
  let '(it, ep, ec, an, cl, oo) := t in
  let ep := match snd h with Leaving => true | Entering => ep end in
  let ec := match snd h with Leaving => ec | Entering => true end in
  let over := ep && ec in
  (if over then false else it, if over then false else ep, if over then false else ec,
   filter (fun x => fst x <> fst h) an, filter (fun x => x <> h) cl,
   if over then false else oo).

Lemma anim_handler_state s h :
  transition_state (anim_handler s h) = end_step (transition_state s) h.
Proof.
  destruct h as [i []]; unfold anim_handler, clearTransStyle, end_step; cbv zeta; simpl;
    [destruct (endCurrent s) eqn:E|destruct (endPrev s) eqn:E];
    unfold transition_state; simpl; by rewrite ?E.
Qed.

Lemma animation_end_state i s :
  transition_state (animation_end i s)
  = fold_left end_step (filter (fun h => fst h = i) (animEnds s)) (transition_state s).
Proof.
  unfold animation_end. generalize (filter (fun h => fst h = i) (animEnds s)) as l.
  intros l; revert s; induction l as [|h l IH]; intros s; [done|].
  simpl. by rewrite IH, anim_handler_state.
Qed.

Lemma state_ends s t : transition_state s = t -> animEnds s = snd (fst (fst t)).
Proof. by intros <-. Qed.

Lemma at_rest_state s :
  transition_state s = (false, false, false, [], [], false) -> at_rest s.
Proof. unfold transition_state, at_rest. intros H. injection H as H1 H2 H3 H4 H5 H6. done. Qed.

Lemma two_ends i j s :
  transition_state (animation_end j (animation_end i s)) =
  let t := fold_left end_step (filter (fun h => fst h = i) (animEnds s)) (transition_state s) in
  fold_left end_step (filter (fun h => fst h = j) (snd (fst (fst t)))) t.
Proof.
  cbv zeta. rewrite animation_end_state, (state_ends _ _ (animation_end_state i s)).
  by rewrite animation_end_state.
Qed.

Lemma transition_over p c s t g :
  transition_state s
  = (t, false, false, [(p, Leaving); (c, Entering)], [(p, Leaving); (c, Entering)], g) ->
  at_rest (animation_end c (animation_end p s)) /\
  at_rest (animation_end p (animation_end c s)).
Proof.
  intros Hs. pose proof (state_ends _ _ Hs) as Ha. simpl in Ha.
  split; apply at_rest_state; rewrite two_ends, Ha, Hs;
    rewrite !filter_cons, filter_nil; cbn [fst snd];
    repeat (case_decide; try congruence);
    repeat (simpl; rewrite ?filter_cons, ?filter_nil; cbn [fst snd];
            repeat (case_decide; try congruence)); done.
Qed.

(** With a transition style and one item shown, a move starts a transition:
    until it ends, [next], [prev] and [goTo] do nothing; when the animations of
    the leaving and of the entering item have ended, in either order, nothing of
    the transition is left and the carousel moves again.  (When both are the same
    item one end suffices.) *)
Theorem transition_completes e pos sp s :
  with_transition false s = true -> at_rest s ->
  let s1 := goTo e pos sp false s in
  isTransition s1 = true /\
  (forall e' sp' p' d, next e' sp' s1 = s1 /\ prev e' sp' s1 = s1 /\ goTo e' p' sp' d s1 = s1) /\
  at_rest (animation_end (currentItem s1) (animation_end (prevItem s1) s1)) /\
  at_rest (animation_end (prevItem s1) (animation_end (currentItem s1) s1)).
Proof.
  intros Hw (R1 & R2 & R3 & R4 & R5 & R6) s1.
  destruct (goTo_transition e pos sp false s Hw R1) as (s2 & Heq & Hh).
  unfold held, transition_state in Hh. rewrite R1, R2, R3, R4, R5, R6 in Hh.
  injection Hh as H1 H2 H3 H4 H5 H6. unfold s1. rewrite Heq. clear s1 Heq.
  split; [done|]. split.
  { intros e' sp' p' d. unfold next, prev, goTo. done. }
  set (s3 := singleItemTransition s2).
  assert (currentItem s3 = currentItem s2) as -> by done.
  assert (prevItem s3 = prevItem s2) as -> by done.
  assert (animEnds s3 = [(prevItem s2, Leaving); (currentItem s2, Entering)]) as Ha
    by (unfold s3, singleItemTransition; simpl; by rewrite H4).
  assert (transClasses s3 = [(prevItem s2, Leaving); (currentItem s2, Entering)]) as Hc
    by (unfold s3, singleItemTransition; simpl; by rewrite H5).
  assert (endPrev s3 = false) as Hp by done. assert (endCurrent s3 = false) as He by done.
  apply (transition_over _ _ _ true true). unfold transition_state. by rewrite Ha, Hc, Hp, He.
Qed.

(** ** Going round *)

(** A carousel at rest that rewinds and slides without a transition style. *)
Record cyclic (s : carousel) : Prop := {
  cy_sync : in_sync s;
  cy_still : isTransition s = false;
  cy_slides : transitionStyle (opts s) = None;
  cy_rewind : rewindNav (opts s) = true;
}.

(** What [goTo] keeps of a carousel it moves. *)
Lemma goTo_core e p pos sp d s :
  presync p s -> isTransition s = false -> transitionStyle (opts s) = None ->
  same_core (s <| currentItem := clamp pos s |> <| prevArr := [clamp pos s] |>)
    (goTo e pos sp d s).
Proof.
  intros Hs Ht Hn. unfold goTo. rewrite Ht.
  assert (same_core s (callback "beforeMove" s)) as H1
    by apply same_same_core, callback_same, same_refl.
  revert H1. generalize (callback "beforeMove" s) as s1. intros s1 [Ho Hi Hg Hp Hc Ha]. cbv zeta.
  change (opts (s1 <| currentItem := clamp pos s1 |>)) with (opts s1).
  rewrite Ho, Hn. simpl (bool_decide _). cbn [andb].
  set (s2 := if support3d _ then _ else _).
  assert (same (s1 <| currentItem := clamp pos s1 |>) s2) as H2.
  { unfold s2. destruct (support3d _); [|apply css2slide_same, same_refl].
    apply transition3d_same, setTimer_same, swapSpeed_same. by split. }
  clearbody s2. destruct H2 as [To Ti Tg Tp Tc Ta _ _ _ _].
  assert (prevArr s2 = [p]) as Hp2 by (rewrite Tp; simpl; rewrite Hp; apply Hs).
  destruct (afterGo_core e p s2 Hp2) as [Ao Ai Ag Ap Ac Aa]. simpl in *.
  assert (clamp pos s1 = clamp pos s) as Hcl by (unfold clamp; by rewrite Hg).
  rewrite Hcl in *. split; simpl; try congruence. unfold amount in *. simpl in *. congruence.
Qed.

Lemma goTo_cyclic e p pos sp d s :
  presync p s -> isTransition s = false -> transitionStyle (opts s) = None ->
  rewindNav (opts s) = true ->
  let s' := goTo e pos sp d s in
  cyclic s' /\ opts s' = opts s /\ geo s' = geo s /\ currentItem s' = clamp pos s.
Proof.
  intros Hs Ht Hn Hr s'. destruct (goTo_core e p pos sp d s Hs Ht Hn) as [Ho _ Hg _ Hc _].
  fold s' in Ho, Hg, Hc. simpl in *. split_and!; try done.
  assert (held s s') as Hh.
  { apply goTo_held. unfold with_transition. by rewrite Hn. }
  split; [by apply (goTo_sync e p)| |by rewrite Ho|by rewrite Ho].
  unfold held, transition_state in Hh. by injection Hh as -> _ _ _ _ _.
Qed.

Lemma next_cyclic e sp s :
  cyclic s ->
  let s' := next e sp s in
  cyclic s' /\ opts s' = opts s /\ geo s' = geo s /\
  currentItem s' = (if currentItem s =? maximumItem (geo s) then 0
                    else Z.min (currentItem s + step_of (opts s)) (maximumItem (geo s))).
Proof.
  intros [Hs Ht Hn Hr]. unfold next. rewrite Ht. cbv zeta. rewrite Hr.
  destruct (skel_max _ _ (pre_skel _ _ Hs)) as (_ & Hi & Hm & _).
  destruct (pre_range _ _ Hs) as [Hc0 Hc1].
  change (currentItem (s <| currentItem := currentItem s + step_of (opts s) |>))
    with (currentItem s + step_of (opts s)).
  change (geo (s <| currentItem := currentItem s + step_of (opts s) |>)) with (geo s).
  assert ((maximumItem (geo s) + (if scrollPerPage (opts s) then items (opts s) - 1 else 0)
    <? currentItem s + step_of (opts s)) = (currentItem s =? maximumItem (geo s))) as ->.
  { unfold step_of. destruct (scrollPerPage (opts s)); apply eq_true_iff_eq;
      rewrite Z.ltb_lt, Z.eqb_eq; lia. }
  destruct (Z.eqb_spec (currentItem s) (maximumItem (geo s))) as [E|E].
  - destruct (goTo_cyclic e (currentItem s) 0 SpRewind false (s <| currentItem :=
      currentItem s + step_of (opts s) |> <| currentItem := 0 |>))
      as (H1 & H2 & H3 & H4); [by apply presync_current, presync_current|done..|].
    split_and!; try done. rewrite H4. unfold clamp. simpl. zcases; lia.
  - destruct (goTo_cyclic e (currentItem s) (currentItem s + step_of (opts s)) sp false
      (s <| currentItem := currentItem s + step_of (opts s) |>))
      as (H1 & H2 & H3 & H4); [by apply presync_current|done..|].
    split_and!; try done. rewrite H4. unfold clamp, step_of. simpl.
    destruct (scrollPerPage (opts s)); zcases; lia.
Qed.

Definition nexts (sp : speed_arg) (es : list env) (s : carousel) : carousel :=
  fold_left (fun s e => next e sp s) es s.

(** The number of stops on the way round: the item count is divided by the step,
    rounding up. *)
Definition stops (s : carousel) : Z :=
  let step := step_of (opts s) in
  (maximumItem (geo s) + step - 1) / step + 1.

(** From item 0, [k] calls of [next] on a rewinding carousel lead to the stop
    [k mod stops], the stops being the multiples of the step (one item, or a page
    when scrolling by page), cut at the last position: every stop is visited in
    turn and [stops] calls lead back to item 0. *)
Theorem next_visits_every_stop sp es s :
  cyclic s -> currentItem s = 0 ->
  let s' := nexts sp es s in
  cyclic s' /\
  currentItem s' = Z.min ((Z.of_nat (length es) mod stops s) * step_of (opts s))
                     (maximumItem (geo s)).
Proof.
  intros Hs H0 s'.
  assert (1 <= step_of (opts s) /\ 0 <= maximumItem (geo s)) as [Hst Hm].
  { destruct (skel_max _ _ (pre_skel _ _ (cy_sync _ Hs))) as (_ & Hi & ? & _).
    unfold step_of. destruct (scrollPerPage (opts s)); lia. }
  set (st := step_of (opts s)) in *. set (mx := maximumItem (geo s)) in *.
  assert (stops s = (mx + st - 1) / st + 1) as -> by done.
  set (c := (mx + st - 1) / st).
  assert ((c - 1) * st < mx <= c * st \/ (mx = 0 /\ c = 0)) as Hc.
  { unfold c. pose proof (Z.div_mod (mx + st - 1) st ltac:(lia)).
    pose proof (Z.mod_pos_bound (mx + st - 1) st ltac:(lia)).
    destruct (decide (mx = 0)) as [->|]; [right; split; [done|]|left; nia].
    apply Z.div_small. lia. }
  assert (0 <= c) as Hc0 by (apply Z.div_pos; lia).
  assert (cyclic s' /\ opts s' = opts s /\ geo s' = geo s /\
    currentItem s' = Z.min ((Z.of_nat (length es) mod (c + 1)) * st) mx) as (A & _ & _ & B);
    [|by split].
  unfold s', nexts. induction es as [|e es IH] using rev_ind.
  { simpl. rewrite Z.mod_0_l by lia. rewrite H0. split_and!; (done || lia). }
  rewrite fold_left_app. simpl.
  destruct IH as (A & B & C & D).
  set (s1 := fold_left _ es s) in *. clearbody s1.
  destruct (next_cyclic e sp s1 A) as (A' & B' & C' & D').
  split_and!; [done|congruence|congruence|].
  rewrite D', D, B, C. fold st mx. rewrite length_app. simpl.
  set (k := Z.of_nat (length es)).
  replace (Z.of_nat (length es + 1)) with (k + 1) by lia.
  assert (0 <= k) as Hk by lia. clearbody k.
  pose proof (Z.mod_pos_bound k (c + 1) ltac:(lia)) as Hr.
  pose proof (Z.div_mod k (c + 1) ltac:(lia)) as Hd.
  set (r := k mod (c + 1)) in *. set (q := k / (c + 1)) in *. clearbody r q.
  destruct (decide (r = c)) as [->|Hne].
  - assert ((k + 1) mod (c + 1) = 0) as ->.
    { symmetry. apply (Z.mod_unique_pos _ _ (q + 1)); lia. }
    rewrite (proj2 (Z.eqb_eq _ _)) by nia. lia.
  - assert ((k + 1) mod (c + 1) = r + 1) as ->.
    { symmetry. apply (Z.mod_unique_pos _ _ q); lia. }
    assert (r * st < mx) by nia.
    rewrite (proj2 (Z.eqb_neq _ _)) by lia. lia.
Qed.

(** ** Where a drag lands *)

Lemma qlt_spec a b : qlt a b = true <-> (a < b)%Q.
Proof.
  unfold qlt. rewrite negb_true_iff, <- not_true_iff_false, Qle_bool_iff. split; lra.
Qed.

(** [x] lies strictly between the positions of items [i + 1] and [i]. *)
Definition between (w i : Z) (x : Q) : Prop :=
  (inject_Z (- ((i + 1) * w)) < x /\ x < inject_Z (- (i * w)))%Q.

Lemma between_unique w i j x : 0 < w -> between w i x -> between w j x -> i = j.
Proof.
  intros Hw [Hi1 Hi2] [Hj1 Hj2].
  assert (forall a b, (inject_Z a < x)%Q -> (x < inject_Z b)%Q -> a < b) as H.
  { intros a b Ha Hb. rewrite Zlt_Qlt. lra. }
  pose proof (H _ _ Hi1 Hj2). pose proof (H _ _ Hj1 Hi2). nia.
Qed.

(** The fields [closestItem] reads. *)
Record drag_view (s s' : carousel) : Prop := {
  dv_opts : opts s' = opts s;
  dv_geo : geo s' = geo s;
  dv_pos : newPosX s' = newPosX s;
  dv_rel : newRelativeX s' = newRelativeX s;
}.

Lemma drag_view_trans s1 s2 s3 : drag_view s1 s2 -> drag_view s2 s3 -> drag_view s1 s3.
Proof. intros [] []. split; congruence. Qed.

(** The two tests of a step: the drag stopped, left or right of a margin, between
    items [i + 1] and [i]. *)
Definition test_left (array : list (option Z)) (s : carousel) (i : nat) : bool :=
  let g := (newPosX s - inject_Z (itemWidth (geo s)) / 20)%Q in
  gt_opt g (at_index array (S i)) && lt_opt g (at_index array i).
Definition test_right (array : list (option Z)) (s : carousel) (i : nat) : bool :=
  let g := (newPosX s + inject_Z (itemWidth (geo s)) / 20)%Q in
  lt_opt g (at_index array i) &&
  gt_opt g (or_num (at_index array (S i)) ((fun x => x - itemWidth (geo s)) <$> at_index array i)).

Lemma closest_step_items array s i :
  scrollPerPage (opts s) = false ->
  let s' := closest_step array s i in
  drag_view s s' /\
  currentItem s' =
    (if qlt (newRelativeX s) 0
     then if test_right array s i then Z.of_nat i + 1 else currentItem s
     else if test_left array s i then Z.of_nat i else currentItem s).
Proof.
  intros Hp s'. unfold s', closest_step, moveDirection. clear s'. cbv zeta.
  fold (test_left array s i).
  destruct (test_left array s i), (qlt (newRelativeX s) 0) eqn:Hr; simpl; rewrite ?Hr, ?Hp; simpl;
    try (by split); fold (test_right array s i);
    destruct (test_right array s i); simpl; rewrite ?Hr; simpl; rewrite ?Hp; by split.
Qed.

(** The array of [closestItem] when dragging item by item. *)
Definition strip (w : Z) (a : nat) : list (option Z) :=
  Some <$> ((fun i => - (i * w)) <$> zrange 0 (S a)).

Lemma at_strip w a k :
  at_index (strip w a) k = if (k <=? a)%nat then Some (- (Z.of_nat k * w)) else None.
Proof.
  unfold at_index, strip. rewrite list_lookup_fmap, list_lookup_fmap.
  destruct (Nat.leb_spec k a).
  - by rewrite (proj2 (zrange_lookup 0 (S a) k (Z.of_nat k))) by lia.
  - rewrite (proj2 (lookup_ge_None _ _)); [done|]. rewrite length_zrange. lia.
Qed.

Lemma test_right_strip w a s i :
  itemWidth (geo s) = w -> 0 < w -> (i <= a)%nat ->
  test_right (strip w a) s i = true <->
  between w (Z.of_nat i) (newPosX s + inject_Z w / 20).
Proof.
  intros Hw Hw0 Hi. unfold test_right, between. rewrite !at_strip, Hw, (proj2 (Nat.leb_le i a) Hi).
  assert (or_num (if (S i <=? a)%nat then Some (- (Z.of_nat (S i) * w)) else None)
    ((fun x => x - w) <$> Some (- (Z.of_nat i * w))) = Some (- ((Z.of_nat i + 1) * w))) as ->.
  { cbn [fmap option_fmap option_map]. destruct (Nat.leb_spec (S i) a); simpl or_num; [|f_equal; lia].
    rewrite (proj2 (Z.eqb_neq _ _)) by lia. f_equal. lia. }
  cbn [gt_opt lt_opt]. cbv zeta. rewrite andb_true_iff, !qlt_spec. tauto.
Qed.

Lemma test_left_strip w a s i :
  itemWidth (geo s) = w -> (i <= a)%nat ->
  test_left (strip w a) s i = true <->
  between w (Z.of_nat i) (newPosX s - inject_Z w / 20) /\ (i < a)%nat.
Proof.
  intros Hw Hi. unfold test_left, between. rewrite !at_strip, Hw, (proj2 (Nat.leb_le i a) Hi).
  cbv zeta. rewrite andb_true_iff. cbn [lt_opt].
  destruct (Nat.leb_spec (S i) a) as [Hle|Hgt]; cbn [gt_opt]; rewrite ?qlt_spec.
  - replace (Z.of_nat (S i)) with (Z.of_nat i + 1) by lia.
    split; [intros [? ?]; split; [by split|lia]|by intros [[? ?] _]].
  - split; [by intros [[=] _]|lia].
Qed.

(** The whole of [closestItem]: the item found, if any, replaces the current one. *)
Lemma closest_fold w a n s (test : nat -> Prop) (land : nat -> Z) `{!forall i, Decision (test i)} :
  scrollPerPage (opts s) = false ->
  (forall s' i, drag_view s s' -> (i <= a)%nat ->
     currentItem (closest_step (strip w a) s' i)
     = if decide (test i) then land i else currentItem s') ->
  (n <= S a)%nat ->
  let s' := fold_left (closest_step (strip w a)) (seq 0 n) s in
  drag_view s s' /\
  forall j, (forall i, (i <= a)%nat -> test i -> i = j) ->
    currentItem s' = if decide (test j /\ (j < n)%nat) then land j else currentItem s.
Proof.
  intros Hp Hstep Hn. cbv zeta. induction n as [|n IH].
  { split; [by split|]. intros j _. rewrite decide_False; [done|]. intros [_ ?]. lia. }
  destruct IH as [Hv Hc]; [lia|]. rewrite seq_S, fold_left_app. simpl fold_left.
  set (s1 := fold_left _ (seq 0 n) s) in *. clearbody s1.
  destruct (closest_step_items (strip w a) s1 n) as [Hv1 _]; [by rewrite (dv_opts _ _ Hv)|].
  split; [by eapply drag_view_trans|]. intros j Hj.
  rewrite (Hstep s1 n Hv) by lia. rewrite (Hc j Hj).
  destruct (decide (test n)) as [Ht|Ht].
  - rewrite <- (Hj n ltac:(lia) Ht). rewrite decide_True; [done|]. split; [done|lia].
  - destruct (decide (test j /\ (j < n)%nat)) as [[? ?]|Hno].
    + rewrite decide_True; [done|]. split; [done|lia].
    + rewrite decide_False; [done|]. intros [Htj Hlt]. apply Hno. split; [done|].
      assert (j <> n) by (by intros ->). lia.
Qed.

Lemma strip_positions s :
  in_sync s -> scrollPerPage (opts s) = false ->
  closestItem s = fold_left (closest_step (strip (itemWidth (geo s)) (Z.to_nat (amount s))))
                    (seq 0 (S (Z.to_nat (amount s)))) s.
Proof.
  intros [[_ _ Ha [ew Hg] _] _ _ _ _] Hp. unfold closestItem. rewrite Hp.
  destruct (calculateAll_fields ew (amount s) (opts s)) as (Hw & _ & Hpos & _).
  rewrite <- Hg in Hw, Hpos. rewrite Hpos, <- Hw. fold (strip (itemWidth (geo s)) (Z.to_nat (amount s))).
  do 2 f_equal. unfold strip. by rewrite !length_fmap, length_zrange.
Qed.

Lemma closestItem_right s j :
  in_sync s -> scrollPerPage (opts s) = false -> 0 < itemWidth (geo s) ->
  (newRelativeX s < 0)%Q -> 0 <= j <= amount s ->
  between (itemWidth (geo s)) j (newPosX s + inject_Z (itemWidth (geo s)) / 20) ->
  drag_view s (closestItem s) /\ currentItem (closestItem s) = j + 1.
Proof.
  intros Hs Hp Hw Hr Hj Hb. rewrite strip_positions by done.
  set (w := itemWidth (geo s)) in *. set (a := Z.to_nat (amount s)).
  destruct (closest_fold w a (S a) s (fun i => test_right (strip w a) s i = true)
    (fun i => Z.of_nat i + 1)) as [Hv Hc]; [done| |lia|].
  { intros s' i Hv Hi. destruct (closest_step_items (strip w a) s' i) as [_ ->];
      [by rewrite (dv_opts _ _ Hv)|].
    rewrite (dv_rel _ _ Hv), (proj2 (qlt_spec _ _) Hr). unfold test_right.
    rewrite (dv_pos _ _ Hv), (dv_geo _ _ Hv). fold (test_right (strip w a) s i).
    destruct (test_right (strip w a) s i); by case_decide. }
  split; [done|]. rewrite (Hc (Z.to_nat j)).
  - rewrite decide_True; [lia|]. split; [|lia]. apply test_right_strip; [done|done|lia|].
    by rewrite Z2Nat.id by lia.
  - intros i Hi Ht. apply test_right_strip in Ht; [|done..]. 
    pose proof (between_unique _ _ _ _ Hw Ht Hb). lia.
Qed.

Lemma closestItem_left s :
  in_sync s -> scrollPerPage (opts s) = false -> 0 < itemWidth (geo s) ->
  (0 < newRelativeX s)%Q ->
  let x := (newPosX s - inject_Z (itemWidth (geo s)) / 20)%Q in
  drag_view s (closestItem s) /\
  forall j, 0 <= j -> (forall i, 0 <= i < amount s -> between (itemWidth (geo s)) i x -> i = j) ->
    (between (itemWidth (geo s)) j x /\ j < amount s /\ currentItem (closestItem s) = j) \/
    (~ (between (itemWidth (geo s)) j x /\ j < amount s) /\
     currentItem (closestItem s) = currentItem s).
Proof.
  intros Hs Hp Hw Hr x. rewrite strip_positions by done.
  set (w := itemWidth (geo s)) in *. set (a := Z.to_nat (amount s)).
  destruct (closest_fold w a (S a) s (fun i => test_left (strip w a) s i = true) Z.of_nat)
    as [Hv Hc]; [done| |lia|].
  { intros s' i Hv Hi. destruct (closest_step_items (strip w a) s' i) as [_ ->];
      [by rewrite (dv_opts _ _ Hv)|].
    rewrite (dv_rel _ _ Hv). destruct (qlt (newRelativeX s) 0) eqn:E.
    { apply qlt_spec in E. lra. }
    unfold test_left. rewrite (dv_pos _ _ Hv), (dv_geo _ _ Hv). fold (test_left (strip w a) s i).
    destruct (test_left (strip w a) s i); by case_decide. }
  split; [done|]. intros j Hj0 Hj.
  assert (forall i, (i <= a)%nat -> test_left (strip w a) s i = true <->
    between w (Z.of_nat i) x /\ (i < a)%nat) as Ht by (intros; by apply test_left_strip).
  rewrite (Hc (Z.to_nat j)).
  - case_decide as Hd.
    + left. destruct Hd as [Hd Hlt]. apply Ht in Hd as [Hb Hlt']; [|lia].
      rewrite Z2Nat.id in Hb by lia. split_and!; [done|lia|lia].
    + right. split; [|done]. intros [Hb Hlt]. apply Hd. split; [|lia].
      apply Ht; [lia|]. rewrite Z2Nat.id by lia. split; [done|lia].
  - intros i Hi [Hb Hlt]%Ht; [|done]. specialize (Hj (Z.of_nat i) ltac:(lia) Hb). lia.
Qed.

(** [dragEnd] moves to the item [closestItem] finds, within the strip. *)
Lemma dragEnd_item e ev w :
  let s := base w in
  in_sync s -> isTransition s = false -> endBound (loc w) = true ->
  (if touch ev then touchDrag (opts s) else mouseDrag (opts s)) = true ->
  ~ (newRelativeX s == 0)%Q ->
  let c := closestItem (s <| dragDirection :=
             Some (if qlt (newRelativeX s) 0 then DragLeft else DragRight) |>) in
  currentItem (base (dragEnd e ev w)) =
    if maximumItem (geo c) <? currentItem c then maximumItem (geo c)
    else if Qle_bool 0 (newPosX c) then 0 else Z.max 0 (currentItem c).
Proof.
  intros s Hs Ht Hend Htouch Hrel c. unfold dragEnd. fold s. rewrite Hend, Htouch. simpl negb.
  destruct (Qeq_bool (newRelativeX _) 0) eqn:E; [by apply Qeq_bool_iff in E|].
  set (s1 := s <| dragDirection := _ |>) in *.
  assert (presync (currentItem s) s1) as H1 by (eapply same_presync; [|exact Hs]; by split).
  pose proof (getNewPosition_presync _ _ H1) as H2.
  pose proof (getNewPosition_transition s1) as H3. change (isTransition s1) with (isTransition s) in H3.
  destruct (getNewPosition s1) as [q c'] eqn:Hq. simpl base. simpl in H2, H3.
  rewrite Ht in H3. destruct (goTo_sync e (currentItem s) q SpOther true c' H2 H3) as [_ ->].
  pose proof (pre_range _ _ H2) as Hm. unfold getNewPosition in Hq. fold c in Hq.
  unfold clamp. destruct (Z.ltb_spec (maximumItem (geo c)) (currentItem c));
    [|destruct (Qle_bool 0 (newPosX c))]; injection Hq as <- <-; simpl in Hm |- *; zcases; lia.
Qed.

(** A drag item by item, released [itemWidth / 20] or more past an item's
    position, lands on the next item in the direction of the drag: dragged to the
    left (towards later items) it stops at item [j + 1] when the released position
    plus that margin lies between items [j] and [j + 1], dragged to the right at
    item [j] when the position less the margin does; past the ends of the strip it
    stops at the last position or at item 0. *)
Theorem drag_lands e ev w j :
  let s := base w in
  in_sync s -> isTransition s = false -> scrollPerPage (opts s) = false ->
  0 < itemWidth (geo s) -> endBound (loc w) = true ->
  (if touch ev then touchDrag (opts s) else mouseDrag (opts s)) = true ->
  0 <= j < amount s ->
  let s' := base (dragEnd e ev w) in
  let margin := (inject_Z (itemWidth (geo s)) / 20)%Q in
  ((newRelativeX s < 0)%Q -> (newPosX s < 0)%Q ->
     between (itemWidth (geo s)) j (newPosX s + margin) ->
     currentItem s' = Z.min (j + 1) (maximumItem (geo s))) /\
  ((0 < newRelativeX s)%Q -> (newPosX s < 0)%Q ->
     between (itemWidth (geo s)) j (newPosX s - margin) ->
     currentItem s' = Z.min j (maximumItem (geo s))) /\
  ((0 < newRelativeX s)%Q -> (0 <= newPosX s)%Q -> currentItem s' = 0).
Proof.
  intros s Hs Ht Hp Hw Hend Htouch Hj s' margin.
  pose proof (dragEnd_item e ev w) as Hd. cbv zeta in Hd. fold s s' in Hd.
  set (s1 := s <| dragDirection := _ |>) in Hd.
  assert (in_sync s1) as H1 by (eapply same_in_sync; [|exact Hs]; by split).
  split_and!.
  - intros Hr Hg Hb.
    assert (0 <= j <= amount s1) as Hj1 by (change (amount s1) with (amount s); lia).
    destruct (closestItem_right s1 j H1 Hp Hw Hr Hj1 Hb) as [Hv Hc].
    rewrite Hd, Hc, (dv_geo _ _ Hv), (dv_pos _ _ Hv); [|done..|intros E; lra].
    simpl. destruct (Qle_bool 0 (newPosX s)) eqn:E; [apply Qle_bool_iff in E; lra|]. zcases; lia.
  - intros Hr Hg Hb. destruct (closestItem_left s1 H1 Hp Hw Hr) as [Hv Hc].
    destruct (Hc j) as [(_ & _ & Hcj)|[Hno _]]; [lia| | |by destruct Hno; split; [|apply Hj]].
    { intros i _ Hbi. by apply (between_unique _ _ _ _ Hw Hbi). }
    rewrite Hd, Hcj, (dv_geo _ _ Hv), (dv_pos _ _ Hv); [|done..|intros E; lra].
    simpl. destruct (Qle_bool 0 (newPosX s)) eqn:E; [apply Qle_bool_iff in E; lra|]. zcases; lia.
  - intros Hr Hg. destruct (closestItem_left s1 H1 Hp Hw Hr) as [Hv Hc].
    pose proof (pre_range _ _ H1) as Hrange.
    assert (currentItem (closestItem s1) <= maximumItem (geo s1)) as Hle.
    { destruct (Hc 0) as [(_ & _ & ->)|[_ ->]]; [lia| |lia|lia].
      intros i [Hi _] [_ Hb]. change (newPosX s1) with (newPosX s) in Hb.
      change (itemWidth (geo s1)) with (itemWidth (geo s)) in Hb.
      destruct (decide (i = 0)) as [|Hne]; [done|exfalso].
      assert (inject_Z (- (i * itemWidth (geo s))) <= inject_Z (- itemWidth (geo s)))%Q as Hq
        by (rewrite <- Zle_Qle; nia).
      rewrite (inject_Z_opp (itemWidth (geo s))) in Hq. assert (0 < inject_Z (itemWidth (geo s)))%Q
        by (change 0%Q with (inject_Z 0); by rewrite <- Zlt_Qlt).
      unfold Qdiv in Hb. change (/ 20)%Q with (1 # 20)%Q in Hb. lra. }
    rewrite Hd; [|done..|intros E; lra]. rewrite (dv_geo _ _ Hv), (dv_pos _ _ Hv).
    rewrite (proj2 (Z.ltb_ge _ _) Hle). change (newPosX s1) with (newPosX s).
    by rewrite (proj2 (Qle_bool_iff _ _) Hg).
Qed.

(** ** Concrete runs *)

Definition fade_options : options :=
  default_options <| singleItem := true |> <| transitionStyle := Some "fade" |>.
Definition fading : owl := started fade_options true false five_items wide.

Lemma transition_completes_witness :
  let s1 := goTo wide 2 SpTrue false (base fading) in
  isTransition s1 = true /\
  at_rest (animation_end (currentItem s1) (animation_end (prevItem s1) s1)).
Proof.
  destruct (transition_completes wide 2 SpTrue (base fading)) as (H1 & _ & H2 & _).
  - vm_compute. reflexivity.
  - vm_compute. repeat split.
  - split; [exact H1|exact H2].
Defined.

Definition paged_options : options :=
  default_options <| items := 2 |> <| scrollPerPage := true |>.
Definition paged : owl := started paged_options true false five_items wide.

Lemma paged_cyclic : cyclic (base paged).
Proof.
  split; [|vm_compute; reflexivity..].
  apply init_in_sync; [|discriminate]. split; vm_compute; (done || constructor).
Qed.

Lemma next_visits_every_stop_witness :
  currentItem (nexts SpOther [wide; narrow; wide; wide] (base paged)) = 2.
Proof.
  destruct (next_visits_every_stop SpOther [wide; narrow; wide; wide] (base paged)) as [_ H].
  - exact paged_cyclic.
  - vm_compute. reflexivity.
  - rewrite H. vm_compute. reflexivity.
Defined.

(** Two items of 500 pixels are shown; the strip is dragged 300 pixels left. *)
Definition at_x (x : Q) : pointer := mk_pointer x 0 1 7 false.
Definition dragged : owl :=
  run [(wide, EvDragStart (at_x 400) (0%Q, 0%Q)); (wide, EvDragMove (at_x 100))]
    (started (default_options <| items := 2 |>) true false five_items wide).

Lemma dragged_sync : in_sync (base dragged).
Proof.
  apply (reachable_in_sync (default_options <| items := 2 |>) true false five_items).
  - split; vm_compute; (done || constructor).
  - discriminate.
  - apply owl_run_reachable; [apply reach_start|]. intros e ev Hin w.
    repeat (apply elem_of_cons in Hin as [[= -> ->]|Hin]; [exact I|]).
    by apply not_elem_of_nil in Hin.
Qed.

Lemma drag_lands_witness :
  currentItem (base (dragEnd wide (at_x 100) dragged)) = 1.
Proof.
  assert (0 <= 0 < amount (base dragged)) as Hj by (vm_compute; split; [discriminate|reflexivity]).
  assert (0 < itemWidth (geo (base dragged))) as Hw by (vm_compute; reflexivity).
  destruct (drag_lands wide (at_x 100) dragged 0 dragged_sync eq_refl eq_refl Hw eq_refl eq_refl Hj)
    as (H & _).
  rewrite H; [vm_compute; reflexivity|vm_compute; reflexivity..|].
  split; vm_compute; reflexivity.
Defined.

(** [reinit] with [autoPlay: false] returns from [play] before the old interval is
    cleared: the reinitialised carousel goes on by itself. *)
Example reinit_keeps_autoplay :
  let w := started (default_options <| autoPlay := PlayMs 3000 |>) true false five_items wide in
  let w := handle wide (EvReinit default_options) w in
  timers (base w) = [(0%nat, AutoPlayTick)] /\ autoPlay (opts (base w)) = PlayFalse /\
  currentItem (base (handle wide (EvTimer 0) w)) = 1.
Proof. vm_compute. auto. Qed.

(** Adding an item during a transition drops the elements whose animation would
    have ended it: [isTransition] stays set and the buttons do nothing. *)
Example addItem_freezes :
  let w := run [(wide, EvGoTo 2); (wide, EvAddItem item0 None);
                (wide, EvAnimEnd 0); (wide, EvAnimEnd 2)] fading in
  isTransition (base w) = true /\ animEnds (base w) = [] /\
  currentItem (base (run [(wide, EvNext); (wide, EvGoTo 3)] w)) = 0.
Proof. vm_compute. auto. Qed.

(** A press on the strip clears the autoplay interval; a release without a move
    does not start it again, although the status still says it plays. *)
Example press_stops_autoplay :
  let w := started (default_options <| autoPlay := PlayMs 3000 |>) true false five_items wide in
  let w := run [(wide, EvDragStart (at_x 400) (0%Q, 0%Q)); (wide, EvDragEnd (at_x 400))] w in
  filter (fun t => snd t = AutoPlayTick) (timers (base w)) = [] /\
  apStatus (base w) = Some ApPlay.
Proof. vm_compute. auto. Qed.

(** [destroy] leaves the hover handlers, and leaving the element starts the
    autoplay of the destroyed carousel. *)
Example hover_revives_destroyed :
  let o := default_options <| autoPlay := PlayMs 3000 |> <| OwlLayout.stopOnHover := true |> in
  let w := started o true false five_items wide in
  let w := run [(wide, EvHoverIn); (wide, EvDestroy); (wide, EvHoverOut)] w in
  bound (base w) = false /\
  length (filter (fun t => snd t = AutoPlayTick) (timers (base w))) = 1%nat.
Proof. vm_compute. auto. Qed.

(** Without 3D transforms a second slide finishes the first animation after
    clearing [isCssFinish], whose [complete] sets it again: the flag says that no
    animation runs while the second one does. *)
Example css_finish_during_slide :
  let w := started (default_options <| items := 2 |>) false false five_items wide in
  let w := run [(wide, EvNext); (wide, EvNext)] w in
  isCssFinish (base w) = true /\ animating (base w) = Some (-1000).
Proof. vm_compute. auto. Qed.

(** A drag that ends during a transition changes [currentItem] and nothing else. *)
Example drag_in_transition :
  let w := run [(wide, EvGoTo 2); (wide, EvDragStart (at_x 400) ((-2000)%Q, 0%Q));
                (wide, EvDragMove (at_x 100)); (wide, EvDragEnd (at_x 100))] fading in
  currentItem (base w) = 3 /\ visibleItems (base w) = [2] /\
  List.filter page_active (pages (base w)) = [mk_page None 2 3 true].
Proof. vm_compute. auto. Qed.
