(* ===== verification/CkEvent.v ===== *)
(** * The event bus of CKEditor

    Models [CKEDITOR.event] of
    [2019104233/src/scripts/bluelog/bluelog/static/ckeditor/ckeditor.js], which the
    plugins are written against: [on] keeps the listeners of an event in order of
    priority, [fire] calls a snapshot of them until one stops or cancels. *)

From S2P Require Export JsValue.
From Stdlib Require Import Sorted.

(** What a listener asks of the bus; [return false] cancels, too. *)
Inductive verdict := Continue | Stop | Cancel.
#[export] Instance verdict_eq_dec : EqDecision verdict.
Proof. solve_decision. Defined.

Record listener (F : Type) := mk_listener { fn : F; priority : Z }.
Arguments mk_listener {F}.
Arguments fn {F}.
Arguments priority {F}.

Section bus.
Context {F : Type} `{EqDecision F}.
Implicit Types ls : list (listener F).

(** [getListenerIndex(f) >= 0]. *)
Definition has_listener (f : F) ls : bool := existsb (fun l => bool_decide (fn l = f)) ls.

(** The scan from the end for a listener of at most the new one's priority. *)
Fixpoint insert_listener (n : listener F) ls : list (listener F) :=
  match ls with
  | [] => [n]
  | l :: ls' =>
      if existsb (fun x => priority x <=? priority n) (l :: ls')
      then l :: insert_listener n ls' else n :: l :: ls'
  end.

Definition on (f : F) (prio : Z) ls : list (listener F) :=
  if has_listener f ls then ls else insert_listener (mk_listener f prio) ls.

Fixpoint removeListener (f : F) ls : list (listener F) :=
  match ls with
  | [] => []
  | l :: ls' => if decide (fn l = f) then ls' else l :: removeListener f ls'
  end.

(** [fire] over the snapshot; the result says whether the event was cancelled. *)
Fixpoint fire_list {S : Type} (run : F -> S -> option (S * verdict)) (ls : list (listener F))
    (s : S) : option (S * bool) :=
  match ls with
  | [] => Some (s, false)
  | l :: ls' =>
      '(s, v) ← run (fn l) s;
      match v with
      | Continue => fire_list run ls' s
      | Stop => Some (s, false)
      | Cancel => Some (s, true)
      end
  end.

(** ** Priority order *)

Definition prio_le (a b : listener F) : Prop := priority a <= priority b.

Lemma insert_split n ls :
  StronglySorted prio_le ls ->
  exists l1 l2, ls = l1 ++ l2 /\ insert_listener n ls = l1 ++ n :: l2 /\
    Forall (fun l => priority l <= priority n) l1 /\
    Forall (fun l => priority n < priority l) l2.
Proof.
  induction 1 as [|l ls Hs IH Hl]; [by exists [], []|].
  destruct IH as (l1 & l2 & Heq & Hins & H1 & H2). simpl.
  destruct (existsb _ ls) eqn:E.
  - rewrite orb_true_r. exists (l :: l1), l2. rewrite Heq at 1. rewrite Hins.
    split_and!; [done|done| |done]. constructor; [|done].
    apply existsb_exists in E as (x & Hx & Hle).
    rewrite <- list_elem_of_In in Hx. rewrite Forall_forall in Hl.
    specialize (Hl x Hx). unfold prio_le in Hl. lia.
  - rewrite orb_false_r. destruct (Z.leb_spec (priority l) (priority n)).
    + exists (l :: l1), l2. rewrite Heq at 1. rewrite Hins. split_and!; try done. by constructor.
    + exists [], (l :: ls). split_and!; try done. constructor; [done|].
      eapply Forall_impl; [exact Hl|]. unfold prio_le. intros; lia.
Qed.

Lemma insert_listener_sorted n ls :
  StronglySorted prio_le ls -> StronglySorted prio_le (insert_listener n ls).
Proof.
  induction 1 as [|l ls Hs IH Hl]; simpl; [by repeat constructor|].
  destruct (_ || _) eqn:E.
  - constructor; [done|]. apply Forall_forall. intros x Hx.
    destruct (insert_split n ls Hs) as (l1 & l2 & -> & Hins & H1 & H2). rewrite Hins in Hx.
    rewrite Forall_app in Hl. destruct Hl as [Ha Hb]. rewrite Forall_forall in Ha, Hb.
    apply elem_of_app in Hx as [Hx|[->|Hx]%elem_of_cons]; [by apply Ha| |by apply Hb].
    unfold prio_le. apply orb_true_iff in E as [E|E]; [lia|].
    apply existsb_exists in E as (y & Hy & Hle). rewrite <- list_elem_of_In in Hy.
    assert (prio_le l y) as Hly by (apply elem_of_app in Hy as [Hy|Hy]; auto).
    unfold prio_le in Hly. lia.
  - apply orb_false_iff in E as [E1 E2]. constructor; [by constructor|].
    constructor; [unfold prio_le; lia|].
    eapply Forall_impl; [exact Hl|]. unfold prio_le. intros; lia.
Qed.

Lemma removeListener_sublist f ls : removeListener f ls `sublist_of` ls.
Proof.
  induction ls as [|l ls IH]; simpl; [done|]. case_decide; [by apply sublist_cons|].
  by apply sublist_skip.
Qed.

(** A sequence of registrations and removals. *)
Inductive bus_op := On (f : F) (prio : Z) | Off (f : F).
Definition bus_run (ops : list bus_op) ls : list (listener F) :=
  fold_left (fun ls op => match op with
    | On f p => on f p ls
    | Off f => removeListener f ls
    end) ops ls.

Lemma has_listener_spec f ls : has_listener f ls = true <-> f ∈ fn <$> ls.
Proof.
  unfold has_listener. rewrite existsb_exists, list_elem_of_fmap.
  setoid_rewrite <- list_elem_of_In. setoid_rewrite bool_decide_eq_true. naive_solver.
Qed.

Lemma insert_listener_perm n ls : insert_listener n ls ≡ₚ n :: ls.
Proof.
  induction ls as [|l ls IH]; simpl; [done|]. destruct (_ || _); [|done].
  rewrite IH. constructor.
Qed.

Lemma sublist_sorted l1 l2 :
  l1 `sublist_of` l2 -> StronglySorted prio_le l2 -> StronglySorted prio_le l1.
Proof.
  induction 1 as [|x l1 l2 Hs IH|x l1 l2 Hs IH]; intros Hl2; [done|..];
    inversion Hl2 as [|? ? Hs2 Hall]; subst; [|by apply IH].
  constructor; [by apply IH|]. rewrite Forall_forall in Hall |- *.
  intros y Hy. apply Hall. by eapply elem_of_sublist.
Qed.

(** After any registrations and removals the listeners of an event are in
    order of priority without duplicates; a new listener is called after those of
    smaller or equal priority and before those of greater priority, and nothing
    else is reordered. *)
Theorem bus_order ops f prio :
  let ls := bus_run ops [] in
  StronglySorted prio_le ls /\ NoDup (fn <$> ls) /\
  (f ∉ fn <$> ls -> exists l1 l2, ls = l1 ++ l2 /\ on f prio ls = l1 ++ mk_listener f prio :: l2 /\
     Forall (fun l => priority l <= prio) l1 /\ Forall (fun l => prio < priority l) l2).
Proof.
  assert (forall ops ls, StronglySorted prio_le ls -> NoDup (fn <$> ls) ->
    StronglySorted prio_le (bus_run ops ls) /\ NoDup (fn <$> bus_run ops ls)) as Hrun.
  { clear. induction ops as [|[f p|f] ops IH]; intros ls Hs Hn; [done|..]; apply IH.
    - unfold on. destruct (has_listener f ls); [done|by apply insert_listener_sorted].
    - unfold on. destruct (has_listener f ls) eqn:E; [done|].
      rewrite insert_listener_perm. apply NoDup_cons. split; [|done].
      simpl. intros Hin. apply has_listener_spec in Hin. congruence.
    - eapply sublist_sorted; [apply removeListener_sublist|done].
    - eapply sublist_NoDup; [exact Hn|]. apply fmap_sublist, removeListener_sublist. }
  destruct (Hrun ops []) as [Hs Hn]; [constructor..|].
  split_and!; [done|done|]. intros Hf. unfold on.
  destruct (has_listener f _) eqn:E; [by apply has_listener_spec in E|].
  by apply (insert_split (mk_listener f prio)).
Qed.
End bus.

#[global] Arguments on : simpl never.

(** A default listener, an early one and a late one, then a second default. *)
Lemma bus_order_witness :
  exists l1 l2 : list (listener nat),
    on 4%nat 10 (bus_run [On 1%nat 10; On 2%nat 0; On 3%nat 999] [])
    = l1 ++ mk_listener 4%nat 10 :: l2 /\ Forall (fun l => 10 < priority l) l2.
Proof.
  destruct (bus_order [On 1%nat 10; On 2%nat 0; On 3%nat 999] 4%nat 10) as (_ & _ & H).
  destruct H as (l1 & l2 & _ & Hon & _ & H2).
  - vm_compute. intros Hin. repeat (apply elem_of_cons in Hin as [[=]|Hin]).
    by apply not_elem_of_nil in Hin.
  - exists l1, l2. split; [exact Hon|exact H2].
Defined.

Example four_listeners :
  fn <$> bus_run [On 1 10; On 2 0; On 3 999; On 4 10; On 2 50; Off 1] [] = [2; 4; 3].
Proof. reflexivity. Qed.
