(* ===== verification/FileTools.v ===== *)
(** * CKEditor [filetools]: loading and uploading files

    Models [2019104233/src/scripts/bluelog/bluelog/static/ckeditor/plugins/filetools/plugin.js]:
    the [FileLoader] with its status machine, the two default listeners of an
    upload request and of its response, the repository of loaders, and the helpers
    [dataToFile] and [getUploadUrl].

    A loader calls its listeners while it changes status, and a listener may call
    the loader's [abort]; what the page's listeners do is the parameter [aborts].
    [fire] takes fuel for that recursion.  What the browser does (the file reader
    and the request) are the operations [reader_load], [xhr_load] and so on. *)

From S2P Require Export CkEvent.

(** ** Data *)

Inductive status := Created | Loading | Loaded | Uploading | Uploaded | Error | Abort.
#[export] Instance status_eq_dec : EqDecision status.
Proof. solve_decision. Defined.

(** The events of a loader: one named after each status, and [update]. *)
Inductive lev := EvStatus (st : status) | EvUpdate.
#[export] Instance lev_eq_dec : EqDecision lev.
Proof. solve_decision. Defined.

(** A blob: MIME type, name (a [File] has one) and contents in parts. *)
Record blob := mk_blob { blob_type : string; blob_name : option string; blob_parts : list string }.
#[export] Instance blob_eq_dec : EqDecision blob.
Proof. solve_decision. Defined.

Definition blob_size (b : blob) : Z :=
  Z.of_nat (list_sum (String.length <$> blob_parts b)).

(** A value of the request data: a file with its name, or anything appended as text. *)
Inductive form_value := FText (v : string) | FFile (file : blob) (name : string).
#[export] Instance form_value_eq_dec : EqDecision form_value.
Proof. solve_decision. Defined.

(** [o[k] = v] on an object whose properties are kept in order. *)
Fixpoint set_prop {A} (k : string) (v : A) (o : list (string * A)) : list (string * A) :=
  match o with
  | [] => [(k, v)]
  | (k', v') :: o' => if String.eqb k k' then (k, v) :: o' else (k', v') :: set_prop k v o'
  end.

Fixpoint get_prop {A} (k : string) (o : list (string * A)) : option A :=
  match o with
  | [] => None
  | (k', v) :: o' => if String.eqb k k' then Some v else get_prop k o'
  end.

Definition del_prop {A} (k : string) (o : list (string * A)) : list (string * A) :=
  List.filter (fun p => negb (String.eqb k (fst p))) o.

(** A value of a JSON response: a primitive or an object of primitives. *)
Inductive rvalue := RPrim (v : jsval) | RObj (o : list (string * jsval)).
Definition rtruthy (v : rvalue) : bool := match v with RPrim p => truthy p | RObj _ => true end.

Inductive reader_state := REmpty | Reading | ReadDone.
Inductive xhr_state := Unsent | Opened | Sent | Done.
#[export] Instance reader_state_eq_dec : EqDecision reader_state.
Proof. solve_decision. Defined.
#[export] Instance xhr_state_eq_dec : EqDecision xhr_state.
Proof. solve_decision. Defined.

Record xhr := mk_xhr {
  x_state : xhr_state;
  x_url : string;
  x_form : list (string * form_value);
  x_headers : list (string * string);
}.
#[export] Instance xhr_eta : Settable xhr := fun x =>
  mk_xhr (x_state x) (x_url x) (x_form x) (x_headers x).

(** The closures assigned to [loader.abort]. *)
Inductive abort_fn := AbCreated | AbReader | AbXhr | AbNoop.
#[export] Instance abort_fn_eq_dec : EqDecision abort_fn.
Proof. solve_decision. Defined.

(** The listeners of a loader: the page's (one, at the default priority), and the
    two [once] listeners of [loadAndUpload]. *)
Inductive lfn :=
  | Observer
  | UploadOnLoaded (id : nat) (url : option string) (params : list (string * form_value))
  | CancelUpdate (id : nat).
#[export] Instance lfn_eq_dec : EqDecision lfn.
Proof. solve_decision. Defined.

Record loader := mk_loader {
  data : option string;
  file : blob;
  total : Z;
  loaded : Z;
  fileName : string;
  uploaded : option Z;
  uploadTotal : option Z;
  responseData : option (list (string * rvalue));
  status_of : status;
  message : option string;
  url : option string;
  uploadUrl : option string;
  abort : abort_fn;
  reader : option reader_state;
  request : option xhr;
  listeners : lev -> list (listener lfn);
  next_fn : nat;
  loader_id : option nat;
  seen : list (lev * status);
}.
#[export] Instance loader_eta : Settable loader := fun s =>
  mk_loader (data s) (file s) (total s) (loaded s) (fileName s) (uploaded s) (uploadTotal s)
    (responseData s) (status_of s) (message s) (url s) (uploadUrl s) (abort s) (reader s)
    (request s) (listeners s) (next_fn s) (loader_id s) (seen s).

(** [lang/en.js]. *)
Definition lang_en : list (string * string) :=
  [("loadError", "Error occurred during file read.");
   ("networkError", "Network error occurred during file upload.");
   ("httpError404", "HTTP error occurred during file upload (404: File not found).");
   ("httpError403", "HTTP error occurred during file upload (403: Forbidden).");
   ("httpError", "HTTP error occurred during file upload (error status: %1).");
   ("noUrlError", "Upload URL is not defined.");
   ("responseError", "Incorrect server response.")].

(** ** [dataToFile] *)

(** The end of [/^data:(\S*?);base64,/]: the shortest run of non-blanks before
    [;base64,], and what follows. *)
Fixpoint base64_header (s : string) : option (string * string) :=
  if String.prefix ";base64," s then Some (EmptyString, String.substring 8 (String.length s - 8) s)
  else match s with
       | String c s' =>
           if is_blank c then None
           else match base64_header s' with
                | Some (t, rest) => Some (String c t, rest)
                | None => None
                end
       | EmptyString => None
       end.

Definition match_header (s : string) : option (string * string) :=
  if String.prefix "data:" s then base64_header (String.substring 5 (String.length s - 5) s) else None.

(** The loop over [byteCharacters.slice(offset, offset + 512)]. *)
Fixpoint slices (fuel : nat) (sliceSize : nat) (s : string) : list string :=
  match fuel, s with
  | _, EmptyString => []
  | O, _ => []
  | S fuel', _ =>
      String.substring 0 sliceSize s
      :: slices fuel' sliceSize (String.substring sliceSize (String.length s - sliceSize) s)
  end.

Section loaders.
(** [atob] of the browser. *)
Context (atob : string -> option string).

Definition dataToFile (d : string) : option blob :=
  '(contentType, base64Data) ← match_header d;
  byteCharacters ← atob base64Data;
  Some (mk_blob contentType None (slices (String.length byteCharacters) 512 byteCharacters)).

(** ** The constructor *)

Definition default_name (f : blob) (defaultFileName : string) : string :=
  let mimeParts := split_on "/" (blob_type f) in
  let mimeParts := if String.eqb defaultFileName "" then mimeParts
                   else defaultFileName :: List.tl mimeParts in
  join "." mimeParts.

Definition new_loader (d : option string) (f : blob) (ld : Z) (name : option string)
    (defaultFileName : string) : loader :=
  let name := match name with
    | Some n => if String.eqb n "" then None else Some n
    | None => None
    end in
  let fname := match blob_name f with
    | Some n => if String.eqb n "" then None else Some n
    | None => None
    end in
  mk_loader d f (blob_size f) ld
    (match name, fname with
     | Some n, _ => n
     | None, Some n => n
     | None, None => default_name f defaultFileName
     end)
    (Some 0) None None Created None None None AbCreated None None
    (fun _ => [mk_listener Observer 10]) 0 None [].

(** [FileLoader(editor, fileOrData, fileName)]: a base64 string is already loaded;
    [None] is the exception [dataToFile] raises. *)
Definition FileLoader (fileOrData : string + blob) (name : option string)
    (defaultFileName : string) : option loader :=
  match fileOrData with
  | inl d => f ← dataToFile d; Some (new_loader (Some d) f (blob_size f) name defaultFileName)
  | inr f => Some (new_loader None f 0 name defaultFileName)
  end.

(** ** Events *)

Definition finished (st : status) : bool :=
  match st with Loaded | Uploaded | Error | Abort => true | _ => false end.

Definition set_listeners (ev : lev) (ls : list (listener lfn)) (s : loader) : loader :=
  s <| listeners := fun e => if decide (e = ev) then ls else listeners s e |>.

Definition once (ev : lev) (f : nat -> lfn) (prio : Z) (s : loader) : loader :=
  set_listeners ev (on (f (next_fn s)) prio (listeners s ev)) s <| next_fn := S (next_fn s) |>.

Definition drop_listener (ev : lev) (f : lfn) (s : loader) : loader :=
  set_listeners ev (removeListener f (listeners s ev)) s.

(** What the page's listeners do, the texts, the security token and the headers of
    the configuration, and whether [xhr.upload] exists. *)
Context (aborts : lev -> loader -> bool).
Context (lang : list (string * string)) (csrf : string) (headers : list (string * string)).
Context (request_user response_user : verdict) (xhr_upload : bool).

Section steps.
(** [this.fire]. *)
Context (fire : lev -> loader -> option (loader * bool)).

Definition update (s : loader) : option loader := fst <$> fire EvUpdate s.

Definition changeStatus (newStatus : status) (s : loader) : option loader :=
  let s := s <| status_of := newStatus |> in
  let s := if finished newStatus then s <| abort := AbNoop |> else s in
  '(s, _) ← fire (EvStatus newStatus) s;
  update s.

Definition onAbort (s : loader) : option loader :=
  if decide (status_of s = Abort) then Some s else changeStatus Abort s.

Definition onError (s : loader) : option loader :=
  if decide (status_of s = Error) then Some s
  else changeStatus Error (s <| message := get_prop "networkError" lang |>).

Definition set_xhr (st : xhr_state) (s : loader) : loader :=
  s <| request := (fun x => x <| x_state := st |>) <$> request s |>.

Definition xhr_in (st : xhr_state) (s : loader) : bool :=
  bool_decide (x_state <$> request s = Some st).

(** [loader.abort()], with what the browser's own [abort] methods call. *)
Definition do_abort (s : loader) : option loader :=
  match abort s with
  | AbCreated => changeStatus Abort s
  | AbNoop => Some s
  | AbReader =>
      if decide (reader s = Some Reading)
      then changeStatus Abort (s <| reader := Some ReadDone |>) else Some s
  | AbXhr =>
      s ← (if xhr_in Sent s then
             s ← (if xhr_upload then onAbort (set_xhr Done s) else Some (set_xhr Done s));
             onAbort s
           else Some s);
      onAbort s
  end.

(** The listeners of [fileUploadRequest], over the loader and the request data. *)
Inductive req_fn := ReqOpen | ReqUser | ReqSend.
Definition run_request (f : req_fn) (sp : loader * list (string * form_value))
    : option ((loader * list (string * form_value)) * verdict) :=
  let '(s, params) := sp in
  match f with
  | ReqOpen =>
      Some ((s <| request := (fun x => x <| x_state := Opened |>
                    <| x_url := default "" (uploadUrl s) |>) <$> request s |>,
             set_prop "upload" (FFile (file s) (fileName s)) params), Continue)
  | ReqUser => Some ((s, params), request_user)
  | ReqSend =>
      Some ((s <| request := (fun x => x <| x_state := Sent |>
                    <| x_form := params ++ [("ckCsrfToken", FText csrf)] |>
                    <| x_headers := headers |>) <$> request s |>, params), Continue)
  end.
Definition request_listeners : list (listener req_fn) :=
  [mk_listener ReqOpen 5; mk_listener ReqUser 10; mk_listener ReqSend 999].

Definition attachRequestListeners (s : loader) : option loader :=
  let s := s <| abort := AbXhr |> in
  if xhr_upload then Some s else update (s <| uploadTotal := Some (total s) |>).

Definition falsy_url (u : option string) : bool :=
  match u with Some u => String.eqb u "" | None => true end.

Definition upload (u : option string) (params : list (string * form_value)) (s : loader)
    : option loader :=
  if falsy_url u then changeStatus Error (s <| message := get_prop "noUrlError" lang |>)
  else
    let s := s <| uploadUrl := u |> <| request := Some (mk_xhr Unsent "" [] []) |> in
    s ← attachRequestListeners s;
    '((s, _), cancelled) ← fire_list run_request request_listeners (s, params);
    if (cancelled : bool) then Some s else changeStatus Uploading s.

Definition run_listener (ev : lev) (f : lfn) (s : loader) : option (loader * verdict) :=
  match f with
  | Observer =>
      let s := s <| seen := seen s ++ [(ev, status_of s)] |> in
      if aborts ev s then s ← do_abort s; Some (s, Continue) else Some (s, Continue)
  | UploadOnLoaded _ u params =>
      let s := drop_listener ev f s in
      let s := once EvUpdate CancelUpdate 0 s in
      s ← upload u params s; Some (s, Cancel)
  | CancelUpdate _ => Some (drop_listener ev f s, Cancel)
  end.
End steps.

Fixpoint fire (fuel : nat) (ev : lev) (s : loader) : option (loader * bool) :=
  match fuel with
  | O => None
  | S n => fire_list (run_listener (fire n) ev) (listeners s ev) s
  end.

(** ** Methods and browser events *)

(** Enough for the deepest nesting: [loaded], then [uploading], then an abort. *)
Abbreviation run := (fire 4).

Definition load (s : loader) : option loader :=
  s ← changeStatus run Loading (s <| reader := Some REmpty |>);
  Some (s <| abort := AbReader |> <| reader := Some Reading |>).

Definition loadAndUpload (u : option string) (params : list (string * form_value)) (s : loader)
    : option loader :=
  load (once (EvStatus Loaded) (fun id => UploadOnLoaded id u params) 0 s).

Definition abort_loader (s : loader) : option loader := do_abort run s.

(** [reader.onprogress], [onload] and [onerror]; only while it reads. *)
Definition reading (s : loader) : bool := bool_decide (reader s = Some Reading).

Definition reader_progress (n : Z) (s : loader) : option loader :=
  if reading s then update run (s <| loaded := n |>) else Some s.

Definition reader_load (result : string) (s : loader) : option loader :=
  if reading s
  then changeStatus run Loaded
         (s <| reader := Some ReadDone |> <| loaded := total s |> <| data := Some result |>)
  else Some s.

Definition reader_error (s : loader) : option loader :=
  if reading s
  then changeStatus run Error
         (s <| reader := Some ReadDone |> <| message := get_prop "loadError" lang |>)
  else Some s.

(** [xhr.upload.onprogress]. *)
Definition xhr_progress (lengthComputable : bool) (evt_loaded evt_total : Z) (s : loader)
    : option loader :=
  if xhr_in Sent s && xhr_upload && lengthComputable then
    let s := match uploadTotal s with
             | None => s <| uploadTotal := Some evt_total |>
             | Some t => if t =? 0 then s <| uploadTotal := Some evt_total |> else s
             end in
    update run (s <| uploaded := Some evt_loaded |>)
  else Some s.

(** A network error: the handlers of [xhr.upload] and of [xhr]. *)
Definition xhr_error (s : loader) : option loader :=
  if xhr_in Sent s then
    let s := set_xhr Done s in
    s ← (if xhr_upload then onError run s else Some s);
    onError run s
  else Some s.

(** The text for an HTTP status: a specific one, or the general one with the
    status in place of [%1]. *)
Fixpoint replace_first (pat rep s : string) : string :=
  if String.prefix pat s
  then rep +:+ String.substring (String.length pat) (String.length s - String.length pat) s
  else match s with
       | EmptyString => EmptyString
       | String c s' => String c (replace_first pat rep s')
       end.

Definition http_message (st : Z) : option string :=
  match get_prop ("httpError" +:+ pretty st) lang with
  | Some m => if String.eqb m "" then replace_first "%1" (pretty st) <$> get_prop "httpError" lang
              else Some m
  | None => replace_first "%1" (pretty st) <$> get_prop "httpError" lang
  end.

(** The default [fileUploadResponse] listener: the event's data and whether it
    cancels.  [None] stands for a response that is not JSON, or is [null]. *)
Definition response_listener (resp : option (list (string * rvalue)))
    (d : list (string * rvalue)) : list (string * rvalue) * verdict :=
  match resp with
  | None => (set_prop "message" (RPrim (from_option JStr JUndef (get_prop "responseError" lang))) d,
             Cancel)
  | Some r =>
      let d := match get_prop "error" r with
               | Some (RObj err) =>
                   let m := default JUndef (get_prop "message" err) in
                   if truthy m then set_prop "message" (RPrim m) d else d
               | _ => d
               end in
      if negb (rtruthy (default (RPrim JUndef) (get_prop "uploaded" r))) then (d, Cancel)
      else (fold_left (fun d p => set_prop (fst p) (snd p) d) r d, Continue)
  end.

Inductive resp_fn := RespUser | RespDefault.
Definition run_response (resp : option (list (string * rvalue))) (f : resp_fn)
    (d : list (string * rvalue)) : option (list (string * rvalue) * verdict) :=
  match f with
  | RespUser => Some (d, response_user)
  | RespDefault => Some (response_listener resp d)
  end.
Definition response_listeners : list (listener resp_fn) :=
  [mk_listener RespUser 10; mk_listener RespDefault 999].

(** [if(typeof data[key] === 'string') loader[key] = data[key]]. *)
Definition string_prop (k : string) (d : list (string * rvalue)) : option string :=
  match get_prop k d with Some (RPrim (JStr v)) => Some v | _ => None end.

Definition copy_values (d : list (string * rvalue)) (s : loader) : loader :=
  let s := match string_prop "message" d with Some v => s <| message := Some v |> | None => s end in
  let s := match string_prop "fileName" d with Some v => s <| fileName := v |> | None => s end in
  match string_prop "url" d with Some v => s <| url := Some v |> | None => s end.

(** [xhr.onload]. *)
Definition xhr_load (http : Z) (resp : option (list (string * rvalue))) (s : loader)
    : option loader :=
  if xhr_in Sent s then
    s ← update run (set_xhr Done s);
    if decide (status_of s = Abort) then Some s else
    let s := s <| uploaded := uploadTotal s |> in
    if (http <? 200) || (299 <? http)
    then changeStatus run Error (s <| message := http_message http |>)
    else
      '(d, cancelled) ← fire_list (run_response resp) response_listeners
                          [("fileLoader", RObj [])];
      let s := copy_values d s <| responseData := Some (del_prop "fileLoader" d) |> in
      changeStatus run (if cancelled : bool then Error else Uploaded) s
  else Some s.

(** ** One loader's life *)

Inductive step :=
  | CLoad | CUpload (u : option string) (params : list (string * form_value))
  | CLoadAndUpload (u : option string) (params : list (string * form_value))
  | CAbort | CUpdate
  | BReadProgress (n : Z) | BReadLoad (result : string) | BReadError
  | BSendProgress (lengthComputable : bool) (n t : Z) | BSendError
  | BSendLoad (http : Z) (resp : option (list (string * rvalue))).

Definition do_step (c : step) (s : loader) : option loader :=
  match c with
  | CLoad => load s
  | CUpload u p => upload run u p s
  | CLoadAndUpload u p => loadAndUpload u p s
  | CAbort => abort_loader s
  | CUpdate => update run s
  | BReadProgress n => reader_progress n s
  | BReadLoad r => reader_load r s
  | BReadError => reader_error s
  | BSendProgress b n t => xhr_progress b n t s
  | BSendError => xhr_error s
  | BSendLoad h r => xhr_load h r s
  end.

Fixpoint do_steps (cs : list step) (s : loader) : option loader :=
  match cs with [] => Some s | c :: cs => do_step c s ≫= do_steps cs end.

(** ** The repository *)

Record repository := mk_repository { loaders_of : list loader; instanceCreated : list nat }.

Definition create (fileOrData : string + blob) (name : option string) (defaultFileName : string)
    (r : repository) : option (repository * loader) :=
  l ← FileLoader fileOrData name defaultFileName;
  let id := length (loaders_of r) in
  let l := l <| loader_id := Some id |> in
  Some (mk_repository (loaders_of r ++ [l]) (instanceCreated r ++ [id]), l).

Definition isFinished (l : loader) : bool := finished (status_of l).

(** The loop of [UploadRepository.isFinished]. *)
Definition repo_isFinished (r : repository) : bool :=
  forallb isFinished (loaders_of r).

(** ** [getUploadUrl] *)

(** [CKEDITOR.tools.capitalize(s, true)]. *)
Definition upper (c : ascii) : ascii :=
  let n := N_of_ascii c in
  if ((97 <=? n) && (n <=? 122))%N then ascii_of_N (n - 32) else c.
Definition capitalize (s : string) : string :=
  match s with EmptyString => EmptyString | String c s' => String (upper c) s' end.

(** A configuration option; an unset one is the empty string. *)
Definition getUploadUrl (config : string -> string) (type : string) : option string :=
  let set k := negb (String.eqb (config k) "") in
  let typed := negb (String.eqb type "") in
  let browse := "filebrowser" +:+ capitalize type +:+ "UploadUrl" in
  if typed && set (type +:+ "UploadUrl") then Some (config (type +:+ "UploadUrl"))
  else if set "uploadUrl" then Some (config "uploadUrl")
  else if typed && set browse then Some (config browse +:+ "&responseType=json")
  else if set "filebrowserUploadUrl" then Some (config "filebrowserUploadUrl" +:+ "&responseType=json")
  else None.

End loaders.
