(* ===== verification/FileStatus.v ===== *)
(** * The statuses a CKEditor file loader goes through

    [wf] describes the listeners of a loader and what its [abort] closure is for;
    [tells] is what an event comes to while the page's listeners may abort;
    [climbs] orders the statuses a loader shows.  The two properties hold after any
    sequence of operations on a loader, whatever the reader and the server do. *)

From S2P Require Export FileTools.
From Stdlib Require Import Sorted.

Section statuses.
Context (atob : string -> option string).
Context (aborts : lev -> loader -> bool).
Context (lang : list (string * string)) (csrf : string) (headers : list (string * string)).
Context (request_user response_user : verdict) (xhr_upload : bool).

Abbreviation fire := (FileTools.fire aborts lang csrf headers request_user xhr_upload).
Abbreviation run_listener :=
  (FileTools.run_listener aborts lang csrf headers request_user xhr_upload).
Abbreviation run := (fire 4).
Abbreviation do_abort := (FileTools.do_abort xhr_upload).
Abbreviation onError := (FileTools.onError lang).
Abbreviation attachRequestListeners := (FileTools.attachRequestListeners xhr_upload).
Abbreviation upload := (FileTools.upload lang csrf headers request_user xhr_upload).
Abbreviation run_request := (FileTools.run_request csrf headers request_user).
Abbreviation load := (FileTools.load aborts lang csrf headers request_user xhr_upload).
Abbreviation abort_loader :=
  (FileTools.abort_loader aborts lang csrf headers request_user xhr_upload).
Abbreviation reader_progress :=
  (FileTools.reader_progress aborts lang csrf headers request_user xhr_upload).
Abbreviation reader_load :=
  (FileTools.reader_load aborts lang csrf headers request_user xhr_upload).
Abbreviation reader_error :=
  (FileTools.reader_error aborts lang csrf headers request_user xhr_upload).
Abbreviation xhr_progress :=
  (FileTools.xhr_progress aborts lang csrf headers request_user xhr_upload).
Abbreviation xhr_error := (FileTools.xhr_error aborts lang csrf headers request_user xhr_upload).
Abbreviation xhr_load :=
  (FileTools.xhr_load aborts lang csrf headers request_user response_user xhr_upload).
Abbreviation do_step :=
  (FileTools.do_step aborts lang csrf headers request_user response_user xhr_upload).
Abbreviation do_steps :=
  (FileTools.do_steps aborts lang csrf headers request_user response_user xhr_upload).
Abbreviation FileLoader := (FileTools.FileLoader atob).

(** ** One firing of an event *)

(** The listeners of a loader: the page's own, preceded under [loaded] and
    [update] by the ones [loadAndUpload] adds.  A reader or a request at work can
    be aborted. *)
Definition loaded_fns (l : listener lfn) : Prop :=
  exists id u p, l = mk_listener (UploadOnLoaded id u p) 0.
Definition update_fns (l : listener lfn) : Prop := exists id, l = mk_listener (CancelUpdate id) 0.

Record wf (s : loader) : Prop := {
  wf_status st : st <> Loaded -> listeners s (EvStatus st) = [mk_listener Observer 10];
  wf_loaded : exists ls, listeners s (EvStatus Loaded) = ls ++ [mk_listener Observer 10] /\
    Forall loaded_fns ls;
  wf_update : exists ls, listeners s EvUpdate = ls ++ [mk_listener Observer 10] /\
    Forall update_fns ls;
  wf_reading : reader s = Some Reading -> abort s = AbReader;
  wf_sent : xhr_in Sent s = true -> abort s = AbXhr;
  wf_abort : status_of s = Abort -> abort s = AbNoop;
}.

(** The status events the page has seen. *)
Definition told (ev : lev) : list status :=
  match ev with EvStatus st => [st] | EvUpdate => [] end.
Definition history (s : loader) : list status := s.(seen) ≫= (fun p => told (fst p)).

Record quiet (s s' : loader) : Prop := {
  q_wf : wf s';
  q_status : status_of s' = status_of s;
  q_abort : abort s' = abort s;
  q_reader : reader s' = reader s;
  q_request : request s' = request s;
}.

Definition idle (s : loader) : Prop := reader s <> Some Reading /\ xhr_in Sent s = false.

(** The browser is at work or done, the loader is untouched, or [abort] does nothing. *)
Definition abortable (s : loader) : bool :=
  bool_decide (reader s = Some Reading) || xhr_in Sent s || xhr_in Done s
  || bool_decide (abort s = AbNoop)
  || bool_decide (status_of s = Created) && bool_decide (abort s = AbCreated).

(** [s'] is [s] aborted while the events [h] were being told. *)
Record aborted (h : list status) (s s' : loader) : Prop := {
  a_wf : wf s';
  a_was : abort s <> AbNoop;
  a_abortable : abortable s = true;
  a_status : status_of s' = Abort;
  a_abort : abort s' = AbNoop;
  a_history : history s' = history s ++ h ++ [Abort];
}.

(** What telling [h] in state [s] can come to. *)
Definition tells (h : list status) (s s' : loader) : Prop :=
  (quiet s s' /\ history s' = history s ++ h) \/ aborted h s s'.

Lemma xhr_in_eq st s s' : request s' = request s -> xhr_in st s' = xhr_in st s.
Proof. unfold xhr_in. by intros ->. Qed.

Lemma abortable_eq s s' : quiet s s' -> abortable s' = abortable s.
Proof.
  intros [_ Hs Ha Hr Hx]. unfold abortable. by rewrite !(xhr_in_eq _ s s' Hx), Hs, Ha, Hr.
Qed.

Lemma quiet_refl s : wf s -> quiet s s.
Proof. by constructor. Qed.

Lemma tells_trans h s s1 s2 : tells h s s1 -> tells [] s1 s2 -> tells h s s2.
Proof.
  intros [[Hq Hh]|Ha] [[Hq' Hh']|Ha'].
  - left. rewrite app_nil_r in Hh'. split; [|congruence]. destruct Hq, Hq'.
    constructor; congruence || done.
  - right. pose proof (abortable_eq s s1 Hq) as E. destruct Hq, Ha'.
    constructor; try (congruence || done). rewrite a_history0, Hh, <- app_assoc. done.
  - right. rewrite app_nil_r in Hh'. destruct Ha, Hq'. constructor; congruence || done.
  - destruct Ha, Ha'. congruence.
Qed.

Lemma tells_noop h s s' : abort s = AbNoop -> tells h s s' -> quiet s s' /\ history s' = history s ++ h.
Proof. intros Hs [?|[]]; [done|congruence]. Qed.

Lemma tells_not_abortable h s s' :
  abortable s = false -> tells h s s' -> quiet s s' /\ history s' = history s ++ h.
Proof. intros Hs [?|[]]; [done|congruence]. Qed.

Lemma wf_seen s x : wf s -> wf (s <| seen := x |>).
Proof. intros []. by constructor. Qed.

Lemma history_seen s ev st :
  history (s <| seen := seen s ++ [(ev, st)] |>) = history s ++ told ev.
Proof. unfold history. cbn. rewrite bind_app. cbn. by rewrite app_nil_r. Qed.

Lemma wf_drop s ls l : wf s -> listeners s EvUpdate = l :: ls ++ [mk_listener Observer 10] ->
  Forall update_fns (l :: ls) -> wf (drop_listener EvUpdate (fn l) s).
Proof.
  intros [H1 H2 _ H4 H5 H6] Hl [_ Hls]%Forall_cons. split; try done.
  exists ls. cbn. rewrite Hl. cbn. by rewrite !decide_True by done.
Qed.

(** ** One firing *)

Lemma fire_S n ev s :
  fire (S n) ev s = fire_list (run_listener (fire n) ev) (listeners s ev) s.
Proof. done. Qed.

(** The page's listener alone, when [abort] does nothing. *)
Lemma observer_noop n ev s :
  wf s -> abort s = AbNoop ->
  exists s', run_listener (fire n) ev Observer s = Some (s', Continue) /\
    quiet s s' /\ history s' = history s ++ told ev.
Proof.
  intros Hwf Ha. exists (s <| seen := seen s ++ [(ev, status_of s)] |>).
  split; [|split; [|by apply history_seen]].
  - unfold run_listener. case_match; [|done]. unfold do_abort. cbn. by rewrite Ha.
  - constructor; try done. by apply wf_seen.
Qed.

(** Telling an event with the page's listener [obs] known. *)
Lemma fire_with n ev s :
  wf s -> ev <> EvStatus Loaded ->
  (exists s' v, run_listener (fire n) ev Observer s = Some (s', v) /\ tells (told ev) s s') ->
  exists s' b, fire (S n) ev s = Some (s', b) /\ tells (told ev) s s'.
Proof.
  intros Hwf Hev (s' & v & Hrun & Htells). rewrite fire_S. destruct ev as [st|].
  - rewrite (wf_status s Hwf) by congruence. cbn [fire_list fn]. rewrite Hrun. cbn.
    destruct v; eauto.
  - destruct (wf_update s Hwf) as ([|l ls] & Hl & Hall); rewrite Hl.
    + cbn [fire_list fn app]. rewrite Hrun. cbn. destruct v; eauto.
    + pose proof (wf_drop s ls l Hwf Hl Hall) as Hd.
      apply Forall_cons in Hall as [[id ->] _]. cbn [fire_list fn app run_listener mbind option_bind].
      eexists _, _. split; [done|]. left. split; [by constructor|]. by rewrite app_nil_r.
Qed.

Lemma fire_noop n ev s :
  wf s -> abort s = AbNoop -> ev <> EvStatus Loaded ->
  exists s' b, fire (S n) ev s = Some (s', b) /\ tells (told ev) s s'.
Proof.
  intros Hwf Ha Hev. apply fire_with; [done..|].
  destruct (observer_noop n ev s Hwf Ha) as (s' & Hr & Hq & Hh). exists s', Continue.
  split; [done|]. left. done.
Qed.

(** Setting a terminal status disarms [abort]. *)
Definition enter (st : status) (s : loader) : loader :=
  if finished st then s <| status_of := st |> <| abort := AbNoop |> else s <| status_of := st |>.

Lemma changeStatus_eq F st s :
  changeStatus F st s = ('(s, _) ← F (EvStatus st) (enter st s); update F s).
Proof. unfold changeStatus, enter. by destruct (finished st). Qed.

Lemma wf_enter st s : wf s -> (finished st = true -> idle s) -> wf (enter st s).
Proof.
  intros [] Hi. unfold enter. destruct (finished st) eqn:E.
  - destruct (Hi eq_refl) as [? Hn]. split; try done. intros Hs.
    change (xhr_in Sent s = true) in Hs. congruence.
  - split; try done. intros Hst. cbn in Hst. by subst st.
Qed.

Lemma changeStatus_with F st s :
  wf s -> (finished st = true -> idle s) ->
  (forall s, wf s -> (finished st = true -> abort s = AbNoop) ->
     exists s' b, F (EvStatus st) s = Some (s', b) /\ tells [st] s s') ->
  (forall s, wf s -> (finished st = true -> abort s = AbNoop) ->
     exists s' b, F EvUpdate s = Some (s', b) /\ tells [] s s') ->
  exists s', changeStatus F st s = Some s' /\ tells [st] (enter st s) s'.
Proof.
  intros Hwf Hi H1 H2. rewrite changeStatus_eq.
  destruct (H1 (enter st s)) as (s1 & b1 & -> & Ht).
  { by apply wf_enter. }
  { intros E. unfold enter. by rewrite E. }
  destruct (H2 s1) as (s2 & b2 & Hs2 & Ht2).
  { by destruct Ht as [[[] _]|[]]. }
  { intros E. destruct Ht as [[[] _]|[]]; [|done]. rewrite q_abort0. unfold enter. by rewrite E. }
  unfold update. cbn [mbind option_bind]. rewrite Hs2. exists s2. split; [done|].
  by eapply tells_trans.
Qed.

Lemma changeStatus_noop n st s :
  wf s -> finished st = true -> st <> Loaded -> idle s ->
  exists s', changeStatus (fire (S n)) st s = Some s' /\ tells [st] (enter st s) s'.
Proof.
  intros Hwf Hf Hst Hi. apply changeStatus_with; [done..| |].
  - intros s1 Hwf1 Ha. apply (fire_noop n (EvStatus st)); [done|by apply Ha|congruence].
  - intros s1 Hwf1 Ha. apply (fire_noop n EvUpdate); [done|by apply Ha|done].
Qed.

Lemma wf_idle s : wf s -> abort s <> AbReader -> abort s <> AbXhr -> idle s.
Proof.
  intros [] Hr Hx. split; [tauto|]. destruct (xhr_in Sent s); [|done]. by destruct Hx, wf_sent0.
Qed.

(** [abort()] does nothing, or the loader ends aborted. *)
Definition ends_aborted (s s' : loader) : Prop :=
  abort s <> AbNoop /\ wf s' /\ status_of s' = Abort /\ abort s' = AbNoop /\
  history s' = history s ++ [Abort].

Lemma abort_status n s s0 :
  wf s0 -> idle s0 -> abort s <> AbNoop -> history s0 = history s ->
  exists s', changeStatus (fire (S n)) Abort s0 = Some s' /\ ends_aborted s s'.
Proof.
  intros Hwf Hi Ha Hh. destruct (changeStatus_noop n Abort s0) as (s' & -> & Ht); [done..|].
  exists s'. split; [done|]. apply tells_noop in Ht as [[] Hh']; [|done].
  split_and!; try done. rewrite Hh'. by rewrite <- Hh.
Qed.

Lemma xhr_in_set st s : xhr_in st (set_xhr Done s) = bool_decide (st = Done) && bool_decide (is_Some (request s)).
Proof.
  unfold xhr_in, set_xhr. cbn. destruct (request s); cbn.
  - rewrite andb_true_r. apply bool_decide_ext. naive_solver.
  - rewrite andb_comm. by rewrite bool_decide_false.
Qed.

Lemma do_abort_spec n s :
  wf s -> exists s', do_abort (fire (S n)) s = Some s' /\
    ((s' = s /\ (abort s = AbNoop \/ abort s = AbReader /\ reader s <> Some Reading)) \/
     ends_aborted s s').
Proof.
  intros Hwf. unfold do_abort. destruct (abort s) eqn:Ha.
  - destruct (abort_status n s s) as (s' & -> & ?); [done| |congruence|done|by eauto].
    apply wf_idle; congruence.
  - case_decide as Hr; [|by exists s; split; [|left; auto]].
    destruct (abort_status n s (s <| reader := Some ReadDone |>)) as (s' & -> & ?);
      [| |by rewrite Ha|done|by eauto].
    + destruct Hwf. by split.
    + split; [done|]. change (xhr_in Sent s = false).
      destruct (xhr_in Sent s) eqn:E; [|done]. apply (wf_sent s Hwf) in E. congruence.
  - assert (status_of s <> Abort) as Hst by (intros E; apply (wf_abort s Hwf) in E; congruence).
    assert (forall s0, wf s0 -> idle s0 -> status_of s0 <> Abort -> history s0 = history s ->
      exists s', onAbort (fire (S n)) s0 = Some s' /\ ends_aborted s s') as Hon.
    { intros s0 Hwf0 Hi0 Hs0 Hh0. unfold onAbort. rewrite decide_False by done.
      apply abort_status; [done..| |done]. by rewrite Ha. }
    assert (reader s <> Some Reading) as Hrd.
    { intros E. apply (wf_reading s Hwf) in E. congruence. }
    destruct (xhr_in Sent s) eqn:Hx.
    + destruct (Hon (set_xhr Done s)) as (s1 & Hs1 & He).
      * destruct Hwf. by split.
      * split; [done|]. by rewrite xhr_in_set.
      * done.
      * done.
      * assert (onAbort (fire (S n)) s1 = Some s1) as Hagain.
        { unfold onAbort. rewrite decide_True; [done|apply He]. }
        exists s1. split; [|by right].
        destruct xhr_upload; cbn [mbind option_bind]; rewrite Hs1; cbn [mbind option_bind];
          rewrite Hagain; [apply Hagain|done].
    + cbn [mbind option_bind]. destruct (Hon s) as (s1 & Hs1 & He); [done|by split|done..|].
      rewrite Hs1. by exists s1; auto.
  - by exists s; split; [|left; auto].
Qed.

(** The page's listeners abort only what can be aborted. *)
Context (patience : forall ev s, aborts ev s = true -> abortable s = true).

Lemma observer_tells n ev s :
  wf s -> exists s' v, run_listener (fire (S n)) ev Observer s = Some (s', v) /\ tells (told ev) s s'.
Proof.
  intros Hwf. unfold run_listener.
  set (s1 := s <| seen := _ |>). pose proof (wf_seen s (seen s ++ [(ev, status_of s)]) Hwf) as Hwf1.
  pose proof (history_seen s ev (status_of s)) as Hh. fold s1 in Hwf1, Hh.
  assert (quiet s s1) as Hq by by constructor.
  destruct (aborts ev s1) eqn:Hab.
  - destruct (do_abort_spec n s1 Hwf1) as (s' & -> & [[-> _]|He]).
    + exists s1, Continue. split; [done|]. by left.
    + exists s', Continue. split; [done|]. right. destruct He as (? & ? & ? & ? & Hh').
      constructor; try done.
      * apply patience in Hab. by rewrite <- Hab, (abortable_eq s s1).
      * rewrite app_assoc, <- Hh. exact Hh'.
  - exists s1, Continue. split; [done|]. by left.
Qed.

Lemma fire_tells n ev s :
  wf s -> ev <> EvStatus Loaded ->
  exists s' b, fire (S (S n)) ev s = Some (s', b) /\ tells (told ev) s s'.
Proof. intros Hwf Hev. apply fire_with; [done..|]. by apply observer_tells. Qed.

Lemma changeStatus_tells n st s :
  wf s -> (finished st = true -> idle s) -> st <> Loaded ->
  exists s', changeStatus (fire (S (S n))) st s = Some s' /\ tells [st] (enter st s) s'.
Proof.
  intros Hwf Hi Hst. apply changeStatus_with; [done..| |].
  - intros s1 Hwf1 Ha. apply (fire_tells n (EvStatus st)); [done|congruence].
  - intros s1 Hwf1 Ha. by apply (fire_tells n EvUpdate).
Qed.

Lemma update_tells n s : wf s -> exists s', update (fire (S (S n))) s = Some s' /\ tells [] s s'.
Proof.
  intros Hwf. unfold update. destruct (fire_tells n EvUpdate s Hwf) as (s' & b & -> & ?); [done|].
  eauto.
Qed.

(** ** The status machine *)

(** Every status can only be followed by one of greater rank. *)
Definition rank (st : status) : Z :=
  match st with Created => 0 | Loading => 1 | Uploading => 2 | _ => 3 end.

Inductive climbs : status -> list status -> status -> Prop :=
  | climbs_nil a : climbs a [] a
  | climbs_cons a b h c : rank a < rank b -> climbs b h c -> climbs a (b :: h) c.

Lemma climbs_app a h b k c : climbs a h b -> climbs b k c -> climbs a (h ++ k) c.
Proof. induction 1; intros Hk; [done|]. constructor; auto. Qed.

(** What [abort] does in each status, between two operations. *)
Definition settled (s : loader) : Prop :=
  match status_of s with
  | Created => abort s = AbCreated /\ request s = None
  | Loading => abort s = AbReader /\ reader s = Some Reading
  | Uploading => abort s = AbXhr
  | _ => abort s = AbNoop
  end.

(** An operation took a loader that had shown status [a] from [s] to [s']. *)
Definition went (a : status) (s s' : loader) : Prop :=
  wf s' /\ settled s' /\ exists h, history s' = history s ++ h /\ climbs a h (status_of s').

Lemma went_refl s : wf s -> settled s -> went (status_of s) s s.
Proof. intros. split_and!; [done..|]. exists []. rewrite app_nil_r. split; [done|constructor]. Qed.

Lemma settled_unfinished s : settled s -> abort s <> AbNoop -> rank (status_of s) < 3.
Proof. unfold settled. destruct (status_of s); cbn; intuition lia. Qed.

Lemma went_tells a s s1 s2 : went a s s1 -> tells [] s1 s2 -> went a s s2.
Proof.
  intros (Hwf & Hs & h & Hh & Hc) [[Hq Hh2]|Ha].
  - destruct Hq. split_and!; [done| |].
    + revert Hs. unfold settled. by rewrite q_status0, q_abort0, q_request0, q_reader0.
    + exists h. by rewrite Hh2, app_nil_r, q_status0.
  - pose proof (settled_unfinished s1 Hs (a_was _ _ _ Ha)) as Hr. destruct Ha.
    split_and!; [done|by unfold settled; rewrite a_status0|].
    exists (h ++ [Abort]). split; [by rewrite a_history0, Hh, <- app_assoc|].
    rewrite a_status0. eapply climbs_app; [done|]. by repeat constructor.
Qed.

(** Entering a status of greater rank, [abort] being set beforehand. *)
Lemma went_enter a st s s' :
  rank a < rank st -> st <> Created -> st <> Loading ->
  (finished st = false -> abort s = AbXhr) ->
  tells [st] (enter st s) s' -> went a s s'.
Proof.
  intros Hr Hst Hld Hab [[Hq Hh]|Ha].
  - destruct Hq. split_and!; [done| |].
    + revert q_status0 q_abort0. unfold settled, enter.
      destruct (finished st) eqn:E; intros -> ->; cbn; [by destruct st|].
      rewrite Hab by done. by destruct st.
    + exists [st]. split; [rewrite Hh; unfold enter; by destruct (finished st)|].
      rewrite q_status0. unfold enter. destruct (finished st); by repeat constructor.
  - destruct Ha. split_and!; [done|by unfold settled; rewrite a_status0|].
    exists [st; Abort].
    split; [rewrite a_history0; unfold enter; by destruct (finished st)|].
    rewrite a_status0. constructor; [done|]. constructor; [|constructor].
    unfold enter in a_was0. destruct (finished st) eqn:E; [done|]. by destruct st.
Qed.

Lemma went_change n a st s :
  wf s -> (finished st = true -> idle s) -> st <> Loaded ->
  rank a < rank st -> st <> Created -> st <> Loading ->
  (finished st = false -> abort s = AbXhr) ->
  exists s', changeStatus (fire (S (S n))) st s = Some s' /\ went a s s'.
Proof.
  intros Hwf Hi Hl Hr Hc Hld Hab. destruct (changeStatus_tells n st s) as (s' & -> & Ht); [done..|].
  exists s'. split; [done|]. by eapply went_enter.
Qed.

Lemma went_update n a s s1 :
  went a s s1 -> exists s2, update (fire (S (S n))) s1 = Some s2 /\ went a s s2.
Proof.
  intros Hw. destruct (update_tells n s1) as (s2 & -> & Ht); [apply Hw|].
  exists s2. split; [done|]. by eapply went_tells.
Qed.

Lemma went_load s :
  wf s -> status_of s = Created -> settled s ->
  exists s', load s = Some s' /\ went Created s s'.
Proof.
  intros Hwf Hs Hset. unfold settled in Hset. rewrite Hs in Hset. destruct Hset as [Ha Hx].
  unfold load. set (s0 := s <| reader := _ |>).
  assert (wf s0) as Hwf0 by (destruct Hwf; by split).
  destruct (changeStatus_tells 2 Loading s0) as (s1 & Hs1 & Ht); [done..|].
  rewrite Hs1. cbn [mbind option_bind]. eexists; split; [done|].
  apply tells_not_abortable in Ht as [Hq Hh].
  - destruct Hq. split_and!.
    + destruct q_wf0. split; try done.
      * intros E. change (xhr_in Sent s1 = true) in E.
        rewrite (xhr_in_eq Sent (enter Loading s0) s1) in E by done.
        unfold xhr_in in E. cbn in E. by rewrite Hx in E.
      * intros E. change (status_of s1 = Abort) in E. by rewrite q_status0 in E.
    + unfold settled. cbn. by rewrite q_status0.
    + exists [Loading]. split; [exact Hh|]. cbn. rewrite q_status0. by repeat constructor.
  - unfold abortable, xhr_in, enter. cbn. rewrite Hx. by rewrite Ha.
Qed.

(** The request is sent unless a listener stops or cancels the event. *)
Lemma fire_request s p :
  fire_list run_request request_listeners (s, p) =
  let s1 := s <| request := (fun x => x <| x_state := Opened |>
                  <| x_url := default "" (uploadUrl s) |>) <$> request s |> in
  let p1 := set_prop "upload" (FFile (file s) (fileName s)) p in
  Some (match request_user with
        | Continue => (s1 <| request := (fun x => x <| x_state := Sent |>
                    <| x_form := p1 ++ [("ckCsrfToken", FText csrf)] |>
                    <| x_headers := headers |>) <$> request s1 |>, p1)
        | _ => (s1, p1)
        end, bool_decide (request_user = Cancel)).
Proof. cbn. by destruct request_user. Qed.

Context (sends : request_user <> Cancel).

Lemma attach_quiet n s :
  wf s -> idle s -> status_of s <> Abort -> x_state <$> request s = Some Unsent ->
  exists s', attachRequestListeners (fire (S (S n))) s = Some s' /\
    quiet (s <| abort := AbXhr |>) s' /\ history s' = history s.
Proof.
  intros Hwf [Hi1 Hi2] Hst Hx. unfold FileTools.attachRequestListeners.
  assert (wf (s <| abort := AbXhr |>)) as Hwf1 by (destruct Hwf; by split).
  apply (if_pred (fun o => exists s', o = Some s' /\ quiet (s <| abort := AbXhr |>) s' /\
    history s' = history s)); [by eexists; split; [done|]; split; [by constructor|]|].
  set (s1 := _ <| uploadTotal := _ |>).
  assert (wf s1) as Hwfs1 by (destruct Hwf1; by split).
  destruct (update_tells n s1) as (s2 & -> & Ht); [done|].
  exists s2. split; [done|]. apply tells_not_abortable in Ht as [[] Hh].
  - split; [|by rewrite Hh, app_nil_r]. by constructor.
  - unfold abortable, xhr_in. cbn. rewrite Hx. cbn.
    by rewrite !bool_decide_false, andb_false_r by congruence.
Qed.

Lemma went_upload n a u p s :
  wf s -> idle s -> status_of s <> Abort -> rank a < 2 ->
  exists s', upload (fire (S (S n))) u p s = Some s' /\ went a s s'.
Proof.
  intros Hwf Hi Hst Hr. unfold upload. destruct (falsy_url u).
  - set (s0 := s <| message := _ |>). assert (wf s0) as Hwf0 by (destruct Hwf; by split).
    destruct (went_change n a Error s0) as (s' & -> & Hw); [done|done|done|cbn; lia|done..|].
    by exists s'.
  - set (s0 := _ <| request := _ |>).
    assert (wf s0) as Hwf0 by (destruct Hwf; by split).
    assert (idle s0) as Hi0 by (split; [apply Hi|done]).
    destruct (attach_quiet n s0) as (s1 & -> & Hq1 & Hh1); [done..|].
    cbn [mbind option_bind]. rewrite fire_request. cbn zeta. cbn [mbind option_bind].
    rewrite bool_decide_false by done.
    assert (forall s2 p2, wf s2 -> abort s2 = AbXhr -> history s2 = history s ->
      exists s', (let '(s, _) := (s2, p2) : loader * list (string * form_value) in
        changeStatus (fire (S (S n))) Uploading s) = Some s' /\ went a s s') as Hgo.
    { intros s2 p2 Hwf2 Ha2 Hh2.
      destruct (went_change n a Uploading s2) as (s' & Hs' & Hw); [done..|by rewrite Ha2|].
      exists s'. split; [exact Hs'|]. destruct Hw as (? & ? & h & Hh & Hc).
      split_and!; [done..|]. exists h. by rewrite Hh, Hh2. }
    destruct Hq1. cbn in q_abort0.
    destruct request_user; [| |done]; apply Hgo; try done.
    + destruct q_wf0. by split.
    + destruct q_wf0. by split.
Qed.

(** A [once] listener of priority 0 goes after its like and before the page's. *)
Lemma on_first f us :
  Forall (fun l => priority l = 0) us ->
  on f 0 (us ++ [mk_listener Observer 10]) = us ++ [mk_listener Observer 10] \/
  on f 0 (us ++ [mk_listener Observer 10]) = us ++ [mk_listener f 0; mk_listener Observer 10].
Proof.
  intros Hus. unfold on. destruct (has_listener f _); [by left|right].
  induction Hus as [|l us Hl Hus IH]; [done|]. cbn [app insert_listener existsb].
  rewrite Hl. cbn. by rewrite IH.
Qed.

Lemma wf_once_update s : wf s -> wf (once EvUpdate CancelUpdate 0 s).
Proof.
  intros [? ? (ls & Hls & Hall) ? ? ?]. split; try done.
  assert (Forall (fun l => priority l = 0) ls) as H0
    by (eapply Forall_impl; [exact Hall|]; by intros ? [? ->]).
  cbn. rewrite decide_True, Hls by done.
  destruct (on_first (CancelUpdate (next_fn s)) ls H0) as [->| ->]; [by exists ls|].
  exists (ls ++ [mk_listener (CancelUpdate (next_fn s)) 0]). rewrite <- app_assoc. split; [done|].
  apply Forall_app_2; [done|]. constructor; [by eexists|done].
Qed.

Lemma wf_once_loaded s u p :
  wf s -> wf (once (EvStatus Loaded) (fun id => UploadOnLoaded id u p) 0 s).
Proof.
  intros [Hst (ls & Hls & Hall) ? ? ? ?].
  assert (Forall (fun l => priority l = 0) ls) as H0
    by (eapply Forall_impl; [exact Hall|]; by intros ? (? & ? & ? & ->)).
  split; try done.
  - intros st Hne. cbn. rewrite decide_False by congruence. by apply Hst.
  - cbn. rewrite decide_True, Hls by done.
    destruct (on_first (UploadOnLoaded (next_fn s) u p) ls H0) as [->| ->]; [by exists ls|].
    exists (ls ++ [mk_listener (UploadOnLoaded (next_fn s) u p) 0]). rewrite <- app_assoc.
    split; [done|]. apply Forall_app_2; [done|]. constructor; [by eexists _, _, _|done].
Qed.

Lemma wf_drop_loaded s ls l :
  wf s -> listeners s (EvStatus Loaded) = l :: ls ++ [mk_listener Observer 10] ->
  Forall loaded_fns ls -> wf (drop_listener (EvStatus Loaded) (fn l) s).
Proof.
  intros [Hst _ ? ? ? ?] Hl Hls. split; try done.
  - intros st Hne. cbn. rewrite decide_False by congruence. by apply Hst.
  - exists ls. cbn. rewrite Hl. cbn. by rewrite !decide_True by done.
Qed.

(** [loaded]: the listener of [loadAndUpload] uploads and hides the event, or else
    the page is told. *)
Lemma went_loaded n s :
  wf s -> idle s -> status_of s = Loading ->
  exists s', changeStatus (fire (S (S (S n)))) Loaded s = Some s' /\ went Loading s s'.
Proof.
  intros Hwf Hi Hs. rewrite changeStatus_eq.
  assert (wf (enter Loaded s)) as Hwf0 by by apply wf_enter.
  assert (exists s1 b, fire (S (S (S n))) (EvStatus Loaded) (enter Loaded s) = Some (s1, b) /\
    went Loading s s1) as (s1 & b & -> & Hw).
  { rewrite fire_S. destruct (wf_loaded _ Hwf0) as ([|l ls] & Hl & Hall); rewrite Hl.
    - destruct (observer_tells (S n) (EvStatus Loaded) (enter Loaded s)) as (s1 & v & Hr & Ht);
        [done|]. cbn [fire_list fn app]. rewrite Hr. cbn [mbind option_bind].
      exists s1. assert (went Loading s s1) by (by apply (went_enter Loading Loaded)).
      destruct v; [by exists false|by exists false|by exists true].
    - apply Forall_cons in Hall as [(id & u & p & ->) Hls].
      cbn [fire_list fn app run_listener].
      set (s1 := once EvUpdate CancelUpdate 0 _).
      assert (wf s1) as Hwf1
        by (apply wf_once_update; by apply (wf_drop_loaded _ ls (mk_listener (UploadOnLoaded id u p) 0))).
      destruct (went_upload n Loading u p s1) as (s2 & -> & Hw2); [done|exact Hi|done|done|].
      exists s2, true. split; [done|exact Hw2]. }
  cbn [mbind option_bind]. by apply (went_update (S n)).
Qed.

(** ** Every operation *)

(** [load] and [upload] are called on a fresh loader. *)
Definition allowed (c : step) (s : loader) : bool :=
  match c with
  | CLoad | CUpload _ _ | CLoadAndUpload _ _ => bool_decide (status_of s = Created)
  | _ => true
  end.

Lemma settled_reader s : wf s -> settled s -> reader s = Some Reading -> status_of s = Loading.
Proof.
  intros Hwf Hs Hr. apply (wf_reading s Hwf) in Hr. revert Hs. unfold settled.
  destruct (status_of s); rewrite Hr; naive_solver.
Qed.

Lemma settled_xhr s : wf s -> settled s -> xhr_in Sent s = true -> status_of s = Uploading.
Proof.
  intros Hwf Hs Hx. apply (wf_sent s Hwf) in Hx. revert Hs. unfold settled.
  destruct (status_of s); rewrite Hx; naive_solver.
Qed.

(** The reader has finished. *)
Lemma read_done s : wf s -> reader s = Some Reading ->
  wf (s <| reader := Some ReadDone |>) /\ idle (s <| reader := Some ReadDone |>).
Proof.
  intros Hwf Hr. pose proof (wf_reading s Hwf Hr) as Ha. split; [by destruct Hwf; split|].
  split; [done|]. change (xhr_in Sent s = false). destruct (xhr_in Sent s) eqn:E; [|done].
  apply (wf_sent s Hwf) in E. congruence.
Qed.

(** The request has finished. *)
Lemma xhr_done s : wf s -> xhr_in Sent s = true -> wf (set_xhr Done s) /\ idle (set_xhr Done s).
Proof.
  intros Hwf Hx. pose proof (wf_sent s Hwf Hx) as Ha. split; [by destruct Hwf; split|].
  split; [|by rewrite xhr_in_set]. intros Hr. change (reader s = Some Reading) in Hr.
  apply (wf_reading s Hwf) in Hr. congruence.
Qed.

Lemma went_from a s0 s1 s' : went a s1 s' -> history s1 = history s0 -> went a s0 s'.
Proof. intros (? & ? & h & Hh & ?) E. split_and!; [done..|]. exists h. by rewrite Hh, E. Qed.

Lemma went_abort s :
  wf s -> settled s -> exists s', abort_loader s = Some s' /\ went (status_of s) s s'.
Proof.
  intros Hwf Hs. unfold abort_loader.
  destruct (do_abort_spec 3 s Hwf) as (s' & -> & [[-> _]|(Ha & Hwf' & Hst & Hab & Hh)]).
  - exists s. split; [done|]. by apply went_refl.
  - exists s'. split; [done|]. pose proof (settled_unfinished s Hs Ha) as Hr. split_and!; [done| |].
    + unfold settled. by rewrite Hst.
    + exists [Abort]. split; [done|]. rewrite Hst. by repeat constructor.
Qed.

Lemma went_xhr_error s :
  wf s -> settled s -> exists s', xhr_error s = Some s' /\ went (status_of s) s s'.
Proof.
  intros Hwf Hs. unfold xhr_error. destruct (xhr_in Sent s) eqn:Hx;
    [|by exists s; split; [|apply went_refl]].
  destruct (xhr_done s Hwf Hx) as [Hwf1 Hi1]. pose proof (settled_xhr s Hwf Hs Hx) as Hst.
  set (s1 := set_xhr Done s) in *.
  assert (exists s', onError run s1 = Some s' /\ went Uploading s s' /\ status_of s' = Error)
    as (s' & Hon & Hw & He).
  { unfold onError. rewrite decide_False by (change (status_of s <> Error); congruence).
    set (s2 := s1 <| message := _ |>).
    assert (wf s2) as Hwf2 by (destruct Hwf1; by split).
    destruct (changeStatus_tells 2 Error s2) as (s' & Hs' & Ht); [done..|].
    exists s'. split; [done|]. split; [by apply (went_enter Uploading Error s2)|].
    by apply tells_noop in Ht as [[] _]. }
  assert (onError run s' = Some s') as Hagain by (unfold onError; by rewrite decide_True).
  exists s'. split; [|by rewrite Hst].
  destruct xhr_upload; cbn [mbind option_bind]; rewrite Hon; [done|done].
Qed.

Lemma went_xhr_load http resp s :
  wf s -> settled s -> exists s', xhr_load http resp s = Some s' /\ went (status_of s) s s'.
Proof.
  intros Hwf Hs. unfold xhr_load. destruct (xhr_in Sent s) eqn:Hx;
    [|by exists s; split; [|apply went_refl]].
  destruct (xhr_done s Hwf Hx) as [Hwf1 Hi1]. pose proof (settled_xhr s Hwf Hs Hx) as Hst.
  destruct (update_tells 2 (set_xhr Done s)) as (s1 & Hu & Ht); [done|].
  rewrite Hu. cbn [mbind option_bind]. rewrite Hst.
  destruct Ht as [[Hq Hh]|Ha].
  - rewrite app_nil_r in Hh. destruct Hq.
    rewrite decide_False by (rewrite q_status0; change (status_of s <> Abort); congruence).
    assert (forall st s2, finished st = true -> st <> Loaded -> st <> Created -> st <> Loading ->
      wf s2 -> idle s2 -> history s2 = history s ->
      exists s', changeStatus run st s2 = Some s' /\ went Uploading s s') as Hgo.
    { intros st s2 Hf Hl Hc Hld Hwf2 Hi2 Hh2.
      destruct (went_change 2 Uploading st s2) as (s' & Hs' & Hw); [done..|by destruct st|done|done|by rewrite Hf|].
      exists s'. split; [done|]. by apply (went_from _ s s2). }
    assert (idle s1) as Hi.
    { destruct Hi1 as [Hr Hn]. split; [by rewrite q_reader0|].
      by rewrite (xhr_in_eq _ (set_xhr Done s) s1). }
    case_match; [apply Hgo; [done..| |done|done]; by destruct q_wf0; split|].
    destruct (fire_list _ _ _) as [[d c]|] eqn:E.
    + cbn [mbind option_bind].
      assert (forall st, st = Error \/ st = Uploaded -> exists s',
        changeStatus run st (copy_values d (s1 <| uploaded := uploadTotal s1 |>)
          <| responseData := Some (del_prop "fileLoader" d) |>) = Some s' /\
        went Uploading s s') as Hend; [|destruct c; apply Hend; auto].
      intros st Hor. assert (finished st = true /\ st <> Loaded /\ st <> Created /\ st <> Loading)
        as (? & ? & ? & ?)
        by by destruct Hor as [-> | ->].
      apply Hgo; try done; unfold copy_values;
        repeat case_match; try done; by destruct q_wf0; split.
    + exfalso. revert E. cbn. destruct response_user; cbn; [|done|done].
      by destruct (response_listener lang resp _) as [? []].
  - exists s1. destruct Ha. rewrite decide_True by done. split; [done|].
    split_and!; [done|unfold settled; by rewrite a_status0|].
    exists [Abort]. split; [done|]. rewrite a_status0. by repeat constructor.
Qed.

Lemma went_step c s :
  wf s -> settled s -> allowed c s = true ->
  exists s', do_step c s = Some s' /\ went (status_of s) s s'.
Proof.
  intros Hwf Hs Hc.
  assert (forall s1, wf s1 -> settled s1 -> history s1 = history s -> status_of s1 = status_of s ->
    exists s', update run s1 = Some s' /\ went (status_of s) s s') as Hupd.
  { intros s1 Hwf1 Hs1 Hh1 Hst1. destruct (went_update 2 (status_of s1) s1 s1) as (s' & Hs' & Hw).
    { by apply went_refl. }
    exists s'. split; [done|]. rewrite <- Hst1. by apply (went_from _ s s1). }
  assert (exists s', Some s = Some s' /\ went (status_of s) s s') as Hnone
    by (exists s; split; [done|by apply went_refl]).
  destruct c; cbn [do_step]; try apply bool_decide_eq_true in Hc.
  - rewrite Hc. by apply went_load.
  - rewrite Hc. unfold settled in Hs. rewrite Hc in Hs. destruct Hs as [Ha Hx].
    apply (went_upload 2); [done|apply wf_idle; congruence|congruence|done].
  - rewrite Hc. destruct (went_load (once (EvStatus Loaded) (fun id => UploadOnLoaded id u params) 0 s))
      as (s' & Hs' & Hw); [by apply wf_once_loaded|done|done|].
    exists s'. split; [exact Hs'|exact Hw].
  - by apply went_abort.
  - by apply Hupd.
  - unfold reader_progress. destruct (reading s); [|done]. apply Hupd; [|done..].
    destruct Hwf; by split.
  - unfold reader_load. destruct (reading s) eqn:Hr; [|done]. apply bool_decide_eq_true in Hr.
    destruct (read_done s Hwf Hr) as [Hwf1 Hi1]. rewrite (settled_reader s Hwf Hs Hr).
    destruct (went_loaded 1 (s <| reader := Some ReadDone |> <| loaded := total s |>
      <| data := Some result |>)) as (s' & Hs' & Hw).
    { destruct Hwf1; by split. }
    { exact Hi1. }
    { by apply (settled_reader s). }
    by exists s'.
  - unfold reader_error. destruct (reading s) eqn:Hr; [|done]. apply bool_decide_eq_true in Hr.
    destruct (read_done s Hwf Hr) as [Hwf1 Hi1]. rewrite (settled_reader s Hwf Hs Hr).
    destruct (went_change 2 Loading Error (s <| reader := Some ReadDone |>
      <| message := get_prop "loadError" lang |>)) as (s' & Hs' & Hw); [|done..|].
    { destruct Hwf1; by split. }
    by exists s'.
  - unfold xhr_progress. destruct (_ && _); [|done].
    assert (exists s', update run ((match uploadTotal s with
      | Some t0 => if t0 =? 0 then s <| uploadTotal := Some t |> else s
      | None => s <| uploadTotal := Some t |> end) <| uploaded := Some n |>) = Some s' /\
      went (status_of s) s s') as H; [|exact H].
    apply Hupd; repeat case_match; try done; destruct Hwf; by split.
  - by apply went_xhr_error.
  - by apply went_xhr_load.
Qed.

(** A sequence of allowed operations. *)
Fixpoint all_allowed (cs : list step) (s : loader) : bool :=
  match cs with
  | [] => true
  | c :: cs => allowed c s && from_option (all_allowed cs) true (do_step c s)
  end.

Lemma new_settled fd name dflt s0 :
  FileLoader fd name dflt = Some s0 ->
  wf s0 /\ settled s0 /\ status_of s0 = Created /\ history s0 = [].
Proof.
  intros H. assert (exists d f ld n, s0 = new_loader d f ld n dflt) as (d & f & ld & n & ->).
  { revert H. unfold FileTools.FileLoader. destruct fd as [d|f]; [|by intros [= <-]; eauto].
    destruct (dataToFile atob d); [|done]. intros [= <-]. eauto. }
  split_and!; [|by split|done|done]. split; try done; exists []; by split; [|constructor].
Qed.

Lemma went_steps cs s :
  wf s -> settled s -> all_allowed cs s = true ->
  exists s', do_steps cs s = Some s' /\ went (status_of s) s s'.
Proof.
  revert s. induction cs as [|c cs IH]; intros s Hwf Hs Hall.
  { exists s. split; [done|by apply went_refl]. }
  cbn in Hall. apply andb_true_iff in Hall as [Hc Hcs].
  destruct (went_step c s Hwf Hs Hc) as (s1 & Hs1 & Hwf1 & Hset1 & h1 & Hh1 & Hc1).
  rewrite Hs1 in Hcs. destruct (IH s1 Hwf1 Hset1 Hcs) as (s' & Hs' & Hwf' & Hset' & h' & Hh' & Hc').
  exists s'. cbn. rewrite Hs1. split; [exact Hs'|]. split; [done|]. split; [done|].
  exists (h1 ++ h'). rewrite Hh', Hh1, app_assoc. split; [done|by eapply climbs_app].
Qed.

Lemma new_went cs fd name dflt s0 :
  FileLoader fd name dflt = Some s0 -> all_allowed cs s0 = true ->
  exists s, do_steps cs s0 = Some s /\ wf s /\ settled s /\ climbs Created (history s) (status_of s).
Proof.
  intros H0 Hall. destruct (new_settled _ _ _ _ H0) as (Hwf & Hs & Hst & Hh).
  destruct (went_steps cs s0 Hwf Hs Hall) as (s & Hrun & Hwf' & Hs' & h & Hh' & Hc).
  exists s. rewrite Hst in Hc. rewrite Hh in Hh'. cbn in Hh'. subst h. done.
Qed.

Definition rank_lt (a b : status) : Prop := rank a < rank b.

Lemma climbs_sorted a h b :
  climbs a h b -> StronglySorted rank_lt (a :: h) /\ last (a :: h) = Some b.
Proof.
  induction 1 as [a|a b h c Hr Hc [IH1 IH2]]; [by repeat constructor|]. split; [|done].
  constructor; [done|]. constructor; [done|]. inversion_clear IH1 as [|? ? _ Hall].
  eapply Forall_impl; [exact Hall|]. unfold rank_lt. intros; lia.
Qed.

(** C26. Whatever the page, the disk and the server do, if [load] and [upload] are called on a
    fresh loader only, listeners abort only a loader that can be aborted and the listener of the
    request does not cancel its sending, then every operation on a loader returns, and the page
    is told statuses of strictly increasing rank, the last one being the loader's status:
    [loading] and [uploading] at most once each and in this order, at most one of [loaded],
    [uploaded], [error] and [abort], and nothing after it. *)
Theorem loader_statuses cs fd name dflt s0 :
  FileLoader fd name dflt = Some s0 -> all_allowed cs s0 = true ->
  exists s, do_steps cs s0 = Some s /\
    StronglySorted rank_lt (Created :: history s) /\
    last (Created :: history s) = Some (status_of s).
Proof.
  intros H0 Hall. destruct (new_went cs fd name dflt s0 H0 Hall) as (s & Hrun & _ & _ & Hc).
  exists s. split; [done|]. by apply climbs_sorted.
Qed.

(** C28. If [load] and [upload] were called on a fresh loader only, listeners abort only a
    loader that can be aborted and the listener of the request does not cancel its sending, then
    between two operations [abort()] leaves a finished loader as it is; any other becomes
    aborted, once: its reader and its request are stopped, the page is told [abort] and nothing
    else, and a second [abort()] does nothing. *)
Theorem abort_ends cs fd name dflt s0 s :
  FileLoader fd name dflt = Some s0 -> all_allowed cs s0 = true -> do_steps cs s0 = Some s ->
  if finished (status_of s) then abort_loader s = Some s
  else exists s', abort_loader s = Some s' /\ status_of s' = Abort /\ idle s' /\
         history s' = history s ++ [Abort] /\ abort_loader s' = Some s'.
Proof.
  intros H0 Hall Hrun. destruct (new_went cs fd name dflt s0 H0 Hall) as (s1 & Hrun1 & Hwf & Hs & _).
  rewrite Hrun in Hrun1. injection Hrun1 as <-.
  destruct (do_abort_spec 3 s Hwf) as (s' & Hab & Hor). unfold settled in Hs.
  destruct (finished (status_of s)) eqn:Hf.
  - unfold abort_loader, do_abort. by destruct (status_of s); rewrite ?Hs.
  - destruct Hor as [[-> Hor]|(Hne & Hwf' & Hst' & Ha' & Hh')].
    + exfalso. destruct (status_of s); naive_solver congruence.
    + exists s'. split_and!; [done..|by apply wf_idle; congruence|done|].
      unfold abort_loader, do_abort. by rewrite Ha'.
Qed.
End statuses.
