(* ===== verification/FileUpload.v ===== *)
(** * Uploads on a page that only looks on, and the decoding of data URIs

    [loadAndUpload_sends] follows a file from the disk to the server, through the
    listeners [loadAndUpload] registers; [upload_rejected] is the error path;
    [dataToFile_contents] is about the loaders made from base64 data. *)

From S2P Require Export FileStatus.
From Stdlib Require Import Sorted.

(** ** A page that never aborts *)

Section polite.
Context (lang : list (string * string)) (csrf : string) (headers : list (string * string)).

(** The page's listeners only look on, and the browser has [xhr.upload]. *)
Abbreviation polite F := (F (fun _ _ => false) lang csrf headers Continue true) (only parsing).
Definition polite_steps : list step -> loader -> option loader :=
  do_steps (fun _ _ => false) lang csrf headers Continue Continue true.

Definition see (evs : list lev) (s : loader) : loader :=
  s <| seen := seen s ++ ((fun ev => (ev, status_of s)) <$> evs) |>.

Lemma polite_fire n ev s :
  listeners s ev = [mk_listener Observer 10] ->
  polite fire (S n) ev s = Some (see [ev] s, false).
Proof. intros H. cbn. rewrite H. done. Qed.

Lemma see_see evs evs' s : see evs' (see evs s) = see (evs ++ evs') s.
Proof. unfold see. rewrite fmap_app, app_assoc. done. Qed.

Lemma polite_change n st s :
  listeners s (EvStatus st) = [mk_listener Observer 10] ->
  listeners s EvUpdate = [mk_listener Observer 10] ->
  changeStatus (polite fire (S n)) st s = Some (see [EvStatus st; EvUpdate] (enter st s)).
Proof.
  intros H1 H2. rewrite changeStatus_eq.
  rewrite polite_fire by (unfold enter; by destruct (finished st)).
  cbn [mbind option_bind]. unfold update.
  rewrite polite_fire by (unfold enter, see; by destruct (finished st)).
  cbn [fmap option_fmap option_map fst]. by rewrite see_see.
Qed.

(** A loader whose listeners are the page's, but for [ls] under [loaded]. *)
Definition plain (ls : list (listener lfn)) (s : loader) : Prop :=
  listeners s (EvStatus Loaded) = ls ++ [mk_listener Observer 10] /\
  listeners s EvUpdate = [mk_listener Observer 10] /\
  forall st, st <> Loaded -> listeners s (EvStatus st) = [mk_listener Observer 10].

Lemma polite_loadAndUpload f name dflt u p :
  let s0 := new_loader None f 0 name dflt in
  exists s, polite loadAndUpload (Some u) p s0 = Some s /\
    reader s = Some Reading /\ seen s = [(EvStatus Loading, Loading); (EvUpdate, Loading)] /\
    plain [mk_listener (UploadOnLoaded 0 (Some u) p) 0] s /\
    file s = f /\ fileName s = fileName s0 /\ total s = blob_size f.
Proof.
  intros s0. unfold loadAndUpload, load. rewrite polite_change by done.
  cbn [mbind option_bind]. eexists. split; [reflexivity|]. do 2 (split; [done|]).
  split; [|done]. split; [done|]. split; [done|]. intros st Hst. cbn. by rewrite decide_False by congruence.
Qed.

(** The loader once its request is sent. *)
Definition requested (u : string) (p : list (string * form_value)) (s : loader) : loader :=
  s <| uploadUrl := Some u |> <| abort := AbXhr |>
    <| request := Some (mk_xhr Sent u
         (set_prop "upload" (FFile (file s) (fileName s)) p ++ [("ckCsrfToken", FText csrf)])
         headers) |>.

Lemma polite_upload F u p s :
  u <> EmptyString ->
  upload lang csrf headers Continue true F (Some u) p s
  = changeStatus F Uploading (requested u p s).
Proof.
  intros Hu. unfold upload, falsy_url. rewrite (proj2 (String.eqb_neq u "") Hu). reflexivity.
Qed.

(** An update that [loadAndUpload] hides. *)
Lemma polite_cancelled n id ls s :
  listeners s EvUpdate = mk_listener (CancelUpdate id) 0 :: ls ->
  update (polite fire (S n)) s = Some (set_listeners EvUpdate ls s).
Proof.
  intros H. unfold update. rewrite fire_S, H. cbn. unfold drop_listener. rewrite H. cbn.
  by rewrite decide_True.
Qed.

(** [loaded] starts the upload instead of being told. *)
Lemma polite_loaded n s id u p :
  u <> EmptyString -> plain [mk_listener (UploadOnLoaded id (Some u) p) 0] s ->
  exists s', changeStatus (polite fire (S (S n))) Loaded s = Some s' /\
    seen s' = seen s ++ [(EvStatus Uploading, Uploading); (EvUpdate, Uploading)] /\
    status_of s' = Uploading /\ request s' = request (requested u p s) /\
    data s' = data s /\ loaded s' = loaded s /\ plain [] s'.
Proof.
  intros Hu (Hl & Hupd & Hst). rewrite changeStatus_eq, fire_S.
  replace (listeners (enter Loaded s) (EvStatus Loaded)) with (listeners s (EvStatus Loaded)) by done.
  rewrite Hl. cbn [fire_list fn run_listener app]. rewrite polite_upload by done.
  rewrite changeStatus_eq.
  rewrite polite_fire by by apply (Hst Uploading). cbn [mbind option_bind].
  erewrite polite_cancelled; [|cbn; rewrite Hupd; reflexivity].
  cbn [mbind option_bind]. unfold update. rewrite polite_fire by done.
  eexists. split; [reflexivity|]. split; [cbn; rewrite <- app_assoc; reflexivity|].
  do 4 (split; [done|]). split; [cbn; rewrite Hl; cbn; by rewrite !decide_False, !decide_True by done|]. split; [done|].
  intros st Hne. cbn. rewrite !decide_False by congruence. by apply Hst.
Qed.

Lemma polite_reader_load s id u p content :
  u <> EmptyString -> reader s = Some Reading ->
  plain [mk_listener (UploadOnLoaded id (Some u) p) 0] s ->
  exists s', polite reader_load content s = Some s' /\
    seen s' = seen s ++ [(EvStatus Uploading, Uploading); (EvUpdate, Uploading)] /\
    status_of s' = Uploading /\ request s' = request (requested u p s) /\
    data s' = Some content /\ loaded s' = total s /\ plain [] s'.
Proof.
  intros Hu Hr Hp. unfold reader_load, reading. rewrite bool_decide_true by done.
  destruct (polite_loaded 2 (s <| reader := Some ReadDone |> <| loaded := total s |>
    <| data := Some content |>) id u p) as (s' & -> & H1 & H2 & H3 & H4 & H5 & H6); [done..|].
  exists s'. do 3 (split; [done|]). split; [by rewrite H3|]. done.
Qed.

(** What [copy_values] leaves alone. *)
Lemma copy_values_frame d s :
  seen (copy_values d s) = seen s /\ request (copy_values d s) = request s /\
  data (copy_values d s) = data s /\ loaded (copy_values d s) = loaded s /\
  listeners (copy_values d s) = listeners s.
Proof.
  unfold copy_values.
  by destruct (string_prop "message" d), (string_prop "fileName" d), (string_prop "url" d).
Qed.

Lemma polite_xhr_load http r v s :
  xhr_in Sent s = true -> status_of s = Uploading ->
  listeners s EvUpdate = [mk_listener Observer 10] ->
  listeners s (EvStatus Uploaded) = [mk_listener Observer 10] ->
  200 <= http <= 299 -> get_prop "uploaded" r = Some v -> rtruthy v = true ->
  exists s', xhr_load (fun _ _ => false) lang csrf headers Continue Continue true http (Some r) s
             = Some s' /\
    seen s' = seen s ++ [(EvUpdate, Uploading); (EvStatus Uploaded, Uploaded); (EvUpdate, Uploaded)] /\
    request s' = (fun x => x <| x_state := Done |>) <$> request s /\ data s' = data s /\
    loaded s' = loaded s /\ status_of s' = Uploaded.
Proof.
  intros Hx Hst Hupd Hl Hh Hv Ht. unfold xhr_load. rewrite Hx.
  unfold update at 1. rewrite polite_fire by done. cbn [fmap option_fmap option_map fst mbind option_bind].
  rewrite decide_False by (change (status_of s <> Abort); congruence).
  replace (http <? 200) with false by lia. replace (299 <? http) with false by lia.
  cbn [orb fire_list response_listeners run_response fn mbind option_bind].
  assert (snd (response_listener lang (Some r) [("fileLoader", RObj [])]) = Continue) as Hc
    by (cbn; rewrite Hv; cbn; by rewrite Ht).
  destruct (response_listener lang (Some r) _) as [d c]. cbn in Hc. subst c.
  cbn [mbind option_bind].
  destruct (copy_values_frame d (see [EvUpdate] (set_xhr Done s)
    <| uploaded := uploadTotal (see [EvUpdate] (set_xhr Done s)) |>)) as (H1 & H2 & H3 & H4 & H5).
  rewrite polite_change; [|by etransitivity; [exact (f_equal (fun l => l _) H5)|]..].
  eexists. split; [done|]. split; [|split; [exact H2|]; split; [exact H3|]; by split; [exact H4|]].
  transitivity (seen s ++ [(EvUpdate, status_of s)] ++ [(EvStatus Uploaded, Uploaded); (EvUpdate, Uploaded)]);
    [|by rewrite Hst]. rewrite app_assoc. by apply (f_equal (.++ _)).
Qed.

(** A file that is read and sent: the page is told [loading], then [uploading]
    and [uploaded], but not [loaded]; the request goes to the given address with
    the additional parameters, the file under [upload], the token last, and the
    configured headers. *)
Theorem loadAndUpload_sends f name dflt u p content http r v :
  u <> EmptyString -> 200 <= http <= 299 -> get_prop "uploaded" r = Some v -> rtruthy v = true ->
  let s0 := new_loader None f 0 name dflt in
  exists s, polite_steps [CLoadAndUpload (Some u) p; BReadLoad content; BSendLoad http (Some r)] s0
            = Some s /\
    seen s = [(EvStatus Loading, Loading); (EvUpdate, Loading);
              (EvStatus Uploading, Uploading); (EvUpdate, Uploading); (EvUpdate, Uploading);
              (EvStatus Uploaded, Uploaded); (EvUpdate, Uploaded)] /\
    request s = Some (mk_xhr Done u
      (set_prop "upload" (FFile f (fileName s0)) p ++ [("ckCsrfToken", FText csrf)]) headers) /\
    data s = Some content /\ loaded s = blob_size f /\ status_of s = Uploaded.
Proof.
  intros Hu Hh Hv Ht s0.
  unfold polite_steps. cbn [do_steps do_step]. subst s0.
  destruct (polite_loadAndUpload f name dflt u p) as (s1 & -> & Hr1 & Hs1 & Hp1 & Hf1 & Hn1 & Ht1).
  cbn [mbind option_bind].
  destruct (polite_reader_load s1 0 u p content) as (s2 & -> & Hs2 & Hst2 & Hr2 & Hd2 & Hl2 & Hp2);
    [done..|]. cbn [mbind option_bind].
  destruct (polite_xhr_load http r v s2) as (s3 & -> & Hs3 & Hr3 & Hd3 & Hl3 & Hst3); try done.
  { unfold xhr_in. by rewrite Hr2. }
  { apply Hp2. }
  { by apply Hp2. }
  exists s3. rewrite Hs3, Hr3, Hd3, Hl3, Hs2, Hr2, Hd2, Hl2, Hs1, Ht1.
  unfold requested. cbn. by rewrite Hf1, Hn1.
Qed.

(** The message [copy_values] takes from the event's data. *)
Lemma copy_values_message d s m :
  get_prop "message" d = Some (RPrim (JStr m)) -> message (copy_values d s) = Some m.
Proof.
  intros H. unfold copy_values. replace (string_prop "message" d) with (Some m)
    by (unfold string_prop; by rewrite H).
  by destruct (string_prop "fileName" d), (string_prop "url" d).
Qed.

Lemma get_set_prop {A} k (v : A) o : get_prop k (set_prop k v o) = Some v.
Proof.
  induction o as [|[k' v'] o IH]; cbn; [by rewrite String.eqb_refl|].
  destruct (String.eqb k k') eqn:E; cbn; [by rewrite String.eqb_refl|by rewrite E].
Qed.

(** The answers that end an upload in [error]. *)
Definition rejects (http : Z) (resp : option (list (string * rvalue))) : bool :=
  (http <? 200) || (299 <? http) ||
  match resp with
  | None => true
  | Some r => negb (rtruthy (default (RPrim JUndef) (get_prop "uploaded" r)))
  end.

(** The text of the error: that of the HTTP status, or that of an answer that is
    not JSON, or the server's own. *)
Definition explains (http : Z) (resp : option (list (string * rvalue))) (m : option string) : Prop :=
  if (http <? 200) || (299 <? http) then m = http_message lang http
  else match resp with
       | None => forall t, get_prop "responseError" lang = Some t -> m = Some t
       | Some r => forall e t, get_prop "error" r = Some (RObj e) ->
           get_prop "message" e = Some (JStr t) -> t <> EmptyString -> m = Some t
       end.

(** A refused upload: an HTTP status outside 200-299, an answer that is not
    JSON and one whose [uploaded] is false end in [error], told once, with the text
    that explains it. *)
Theorem upload_rejected http resp s :
  xhr_in Sent s = true -> status_of s = Uploading -> plain [] s -> rejects http resp = true ->
  exists s', xhr_load (fun _ _ => false) lang csrf headers Continue Continue true http resp s = Some s' /\
    seen s' = seen s ++ [(EvUpdate, Uploading); (EvStatus Error, Error); (EvUpdate, Error)] /\
    status_of s' = Error /\ abort s' = AbNoop /\ explains http resp (message s').
Proof.
  intros Hx Hst (_ & Hupd & Hl) Hrej. unfold xhr_load. rewrite Hx.
  unfold update at 1. rewrite polite_fire by done. cbn [fmap option_fmap option_map fst mbind option_bind].
  rewrite decide_False by (change (status_of s <> Abort); congruence).
  set (s1 := _ <| uploaded := _ |>).
  assert (forall s2 P, seen s2 = seen s1 -> listeners s2 = listeners s1 -> P (message s2) ->
    exists s', changeStatus (polite fire 4) Error s2 = Some s' /\
    seen s' = seen s ++ [(EvUpdate, Uploading); (EvStatus Error, Error); (EvUpdate, Error)] /\
    status_of s' = Error /\ abort s' = AbNoop /\ P (message s')) as Hend.
  { intros s2 P H1 H2 HP. rewrite polite_change by (rewrite H2; exact Hupd || by apply (Hl Error)).
    eexists. split; [done|]. split; [|done].
    transitivity (seen s2 ++ [(EvStatus Error, Error); (EvUpdate, Error)]); [done|].
    rewrite H1. subst s1. cbn. by rewrite Hst, <- app_assoc. }
  unfold rejects in Hrej. destruct ((http <? 200) || (299 <? http)) eqn:E.
  { by apply (Hend (s1 <| message := http_message lang http |>) (explains http resp));
      [..|unfold explains; rewrite E]. }
  cbn [fire_list response_listeners run_response fn mbind option_bind] in *.
  destruct resp as [r|]; cbn [response_listener].
  - cbn in Hrej. rewrite Hrej. set (d := match get_prop "error" r with Some _ => _ | None => _ end).
    destruct (copy_values_frame d s1) as (H1 & _ & _ & _ & H2).
    cbn [mbind option_bind].
    apply (Hend (copy_values d s1 <| responseData := _ |>) (explains http (Some r))); [done..|].
    unfold explains. rewrite E. intros e t He Hm Ht. subst d. rewrite He.
    apply copy_values_message. rewrite Hm. cbn [default from_option id truthy].
    by rewrite (proj2 (String.eqb_neq t "") Ht).
  - cbn [mbind option_bind].
    set (d := set_prop "message" _ _).
    destruct (copy_values_frame d s1) as (H1 & _ & _ & _ & H2).
    apply (Hend (copy_values d s1 <| responseData := _ |>) (explains http None)); [done..|].
    unfold explains. rewrite E. intros t Ht. apply copy_values_message. subst d. by rewrite Ht.
Qed.
End polite.

(** ** Decoding base64 data *)

Section decoding.
Context (atob : string -> option string).

Definition sconcat (l : list string) : string := foldr String.append EmptyString l.

Lemma slices_spec fuel n s :
  (0 < n)%nat -> (String.length s <= fuel)%nat ->
  sconcat (slices fuel n s) = s /\
  Forall (fun p => 0 < String.length p <= n)%nat (slices fuel n s) /\
  list_sum (String.length <$> slices fuel n s) = String.length s.
Proof.
  intros Hn. revert s. induction fuel as [|fuel IH]; intros [|c s] Hlen; cbn in Hlen;
    [by split_and!; constructor|lia|by split_and!; constructor|].
  destruct (substring_cut n (String c s)) as (H1 & H2 & H3).
  set (tl := String.substring n _ _) in *. set (hd := String.substring 0 n _) in *.
  cbn [String.length] in H2, H3.
  destruct (IH tl) as (I1 & I2 & I3); [lia|].
  change (slices (S fuel) n (String c s)) with (hd :: slices fuel n tl).
  split; [|split; [constructor; [lia|done]|]].
  - rewrite <- H1. cbn [sconcat foldr]. by rewrite <- I1 at 2.
  - change (String.length hd + list_sum (String.length <$> slices fuel n tl) = S (String.length s))%nat.
    lia.
Qed.

(** No blank in [t], and no [;base64,] in [t ++ ";base64,"] but at the end. *)
Fixpoint plain_type (t b : string) : bool :=
  match t with
  | EmptyString => true
  | String c t' => negb (is_blank c) && negb (String.prefix ";base64," (t +:+ ";base64," +:+ b))
                   && plain_type t' b
  end.

Lemma base64_header_unfold s :
  base64_header s =
  if String.prefix ";base64," s then Some (EmptyString, String.substring 8 (String.length s - 8) s)
  else match s with
       | String c s' => if is_blank c then None
                        else '(t, rest) ← base64_header s'; Some (String c t, rest)
       | EmptyString => None
       end.
Proof.
  destruct s as [|c s]; [done|]. cbn [base64_header].
  by destruct (String.prefix _ _), (is_blank c), (base64_header s) as [[]|].
Qed.

Lemma base64_header_app t b :
  plain_type t b = true -> base64_header (t +:+ ";base64," +:+ b) = Some (t, b).
Proof.
  induction t as [|c t IH]; intros H.
  - change ("" +:+ ";base64," +:+ b) with (";base64," +:+ b).
    rewrite base64_header_unfold.
    by rewrite prefix_append, (substring_after ";base64," b : String.substring 8 (_ - 8) _ = b).
  - cbn [plain_type] in H. apply andb_true_iff in H as [[H1 H2]%andb_true_iff H3].
    apply negb_true_iff in H1, H2. specialize (IH H3).
    change (String c t +:+ ";base64," +:+ b) with (String c (t +:+ ";base64," +:+ b)) in *.
    cbn [base64_header]. rewrite H2, H1, IH. done.
Qed.

(** A data URI of MIME type [t] becomes a nameless blob of that type which
    holds exactly the decoded bytes, in parts of at most 512; its [size] is their
    number. *)
Theorem dataToFile_contents t b bytes :
  plain_type t b = true -> atob b = Some bytes ->
  exists f, dataToFile atob ("data:" +:+ t +:+ ";base64," +:+ b) = Some f /\
    blob_type f = t /\ blob_name f = None /\ sconcat (blob_parts f) = bytes /\
    Forall (fun p => 0 < String.length p <= 512)%nat (blob_parts f) /\
    blob_size f = Z.of_nat (String.length bytes).
Proof.
  intros Ht Hb. unfold dataToFile, match_header.
  set (s := t +:+ ";base64," +:+ b).
  rewrite prefix_append, (substring_after "data:" s : String.substring 5 (_ - 5) _ = s). subst s.
  rewrite base64_header_app by done. cbn [mbind option_bind]. rewrite Hb.
  cbn [mbind option_bind]. eexists. split; [done|]. unfold blob_size. cbn [blob_type blob_name blob_parts].
  destruct (slices_spec (String.length bytes) 512 bytes) as (H1 & H2 & H3); [lia|done|].
  by rewrite H1, H3.
Qed.
End decoding.

(** ** Runs *)

(** A page that cancels a started upload at its second update. *)
Definition impatient (ev : lev) (s : loader) : bool :=
  bool_decide (ev = EvUpdate) && xhr_in Sent s.

Definition a_file : blob := mk_blob "image/png" (Some "cat.png") ["abc"; "de"].

(** Reading, sending, and the server's answer after the page has aborted. *)
Definition aborted_upload : list step :=
  [CLoadAndUpload (Some "/upload") []; BReadProgress 3; BReadLoad "data:image/png;base64,YWJjZGU=";
   BSendProgress true 2 9; BSendLoad 200 None; CAbort].

Lemma loader_statuses_witness :
  exists s, do_steps impatient lang_en "t" [] Continue Continue true aborted_upload
              (new_loader None a_file 0 None "") = Some s /\
    StronglySorted rank_lt (Created :: history s) /\
    last (Created :: history s) = Some (status_of s).
Proof.
  apply (loader_statuses (fun _ => None) impatient lang_en "t" [] Continue Continue true)
    with (fd := inr a_file) (name := None) (dflt := ""%string).
  - intros ev s. unfold impatient, abortable. intros [_ ->]%andb_true_iff.
    by rewrite orb_true_r.
  - done.
  - reflexivity.
  - vm_compute. reflexivity.
Defined.

Lemma abort_ends_witness :
  exists s s',
    do_steps (fun _ _ => false) lang_en "t" [] Continue Continue true
      [CLoadAndUpload (Some "/upload") []; BReadProgress 3] (new_loader None a_file 0 None "") = Some s /\
    abort_loader (fun _ _ => false) lang_en "t" [] Continue true s = Some s' /\
    status_of s' = Abort /\ history s' = [Loading; Abort].
Proof.
  destruct (do_steps (fun _ _ => false) lang_en "t" [] Continue Continue true
    [CLoadAndUpload (Some "/upload"%string) []; BReadProgress 3] (new_loader None a_file 0 None ""))
    as [s|] eqn:Hs; [|vm_compute in Hs; discriminate].
  pose proof (abort_ends (fun _ => None) (fun _ _ => false) lang_en "t" [] Continue Continue true
    ltac:(done) ltac:(done)
    [CLoadAndUpload (Some "/upload"%string) []; BReadProgress 3] (inr a_file) None "" _ s
    eq_refl eq_refl Hs) as H.
  assert (history s = [Loading] /\ finished (status_of s) = false) as [Hh Hf]
    by (vm_compute in Hs; injection Hs as <-; split; reflexivity).
  rewrite Hf in H. destruct H as (s' & H1 & H2 & _ & H3 & _).
  exists s, s'. rewrite Hh in H3. split_and!; [reflexivity|exact H1|exact H2|exact H3].
Defined.

Lemma loadAndUpload_sends_witness :
  exists s, polite_steps lang_en "token" [("X-Test", "1")]
      [CLoadAndUpload (Some "/upload"%string) [("album", FText "7")]; BReadLoad "data:,";
       BSendLoad 201 (Some [("uploaded", RPrim (JNum 1)); ("url", RPrim (JStr "/f/cat.png"))])]
      (new_loader None a_file 0 None "") = Some s /\
    request s = Some (mk_xhr Done "/upload"
      [("album", FText "7"); ("upload", FFile a_file "cat.png"); ("ckCsrfToken", FText "token")]
      [("X-Test", "1")]).
Proof.
  destruct (loadAndUpload_sends lang_en "token" [("X-Test", "1")] a_file None "" "/upload"
    [("album", FText "7")] "data:," 201
    [("uploaded", RPrim (JNum 1)); ("url", RPrim (JStr "/f/cat.png"))] (RPrim (JNum 1)))
    as (s & Hs & _ & Hr & _); [done|lia|reflexivity|reflexivity|].
  exists s. split; [exact Hs|exact Hr].
Defined.

(** A loader whose request is under way. *)
Definition uploading : loader :=
  default (new_loader None a_file 0 None "")
    (polite_steps lang_en "t" [] [CUpload (Some "/upload"%string) []] (new_loader None a_file 0 None "")).

Lemma upload_rejected_witness :
  exists s', xhr_load (fun _ _ => false) lang_en "t" [] Continue Continue true 404 None uploading = Some s' /\
    status_of s' = Error /\
    message s' = Some "HTTP error occurred during file upload (404: File not found)."%string.
Proof.
  destruct (upload_rejected lang_en "t" [] 404 None uploading) as (s' & Hs & _ & Hst & _ & Hm);
    [by vm_compute..| |reflexivity|].
  - split_and!; [done..|]. intros [] ?; reflexivity || done.
  - exists s'. split_and!; [exact Hs|exact Hst|exact Hm].
Defined.

Lemma dataToFile_contents_witness :
  exists f, dataToFile (fun b => if String.eqb b "aGk=" then Some "hi"%string else None)
              "data:text/plain;charset=utf-8;base64,aGk=" = Some f /\
    blob_type f = "text/plain;charset=utf-8"%string /\ sconcat (blob_parts f) = "hi"%string.
Proof.
  destruct (dataToFile_contents (fun b => if String.eqb b "aGk=" then Some "hi"%string else None)
    "text/plain;charset=utf-8" "aGk=" "hi") as (f & Hf & Ht & _ & Hc & _); [reflexivity..|].
  exists f. split_and!; [exact Hf|exact Ht|exact Hc].
Defined.

(** ** What the order of the assignments costs *)

(** [abort()] called by a listener of [loading] is overwritten: [load] goes on to
    read, and the loader that was aborted becomes [loaded]. *)
Example abort_while_loading :
  history <$> do_steps (fun ev s => bool_decide (ev = EvStatus Loading)) lang_en "t" [] Continue
    Continue true [CLoad; BReadLoad "data:,"] (new_loader None a_file 0 None "")
  = Some [Loading; Abort; Loaded].
Proof. vm_compute. reflexivity. Qed.

(** Without [xhr.upload], an [abort()] in the first update does not keep [upload]
    from sending: [abort] is followed by [uploading]. *)
Example abort_before_sending :
  history <$> do_steps (fun ev s => bool_decide (status_of s = Created)) lang_en "t" [] Continue
    Continue false [CUpload (Some "/upload"%string) []] (new_loader None a_file 0 None "")
  = Some [Abort; Uploading].
Proof. vm_compute. reflexivity. Qed.

(** A browser that never reports a computable length leaves [uploaded] null at the
    end of a successful upload. *)
Example uploaded_null :
  uploaded <$> polite_steps lang_en "t" []
    [CUpload (Some "/upload"%string) []; BSendProgress false 5 0;
     BSendLoad 200 (Some [("uploaded", RPrim (JNum 1))])] (new_loader None a_file 0 None "")
  = Some None.
Proof. vm_compute. reflexivity. Qed.
