(* ===== verification/JsDate.v ===== *)
(** * ECMAScript dates

    A [Date] of the language library as the number of milliseconds of its local
    time since 1970; a fixed offset [tz] leads to [getTime()].  Daylight saving and
    the limit of 10^8 days are not modelled.  Day numbers, years and months follow
    the formulas of the language standard. *)

From S2P Require Export JsValue.

(** Arithmetic with divisions by constants. *)
Ltac div_lia := Z.to_euclidean_division_equations; lia.

Definition msPerDay : Z := 86400000.

Definition Day (t : Z) : Z := t / msPerDay.
Definition TimeWithinDay (t : Z) : Z := t mod msPerDay.

(** ** The calendar *)

Definition leap (y : Z) : bool :=
  (y mod 4 =? 0) && (negb (y mod 100 =? 0) || (y mod 400 =? 0)).

Definition DayFromYear (y : Z) : Z :=
  365 * (y - 1970) + (y - 1969) / 4 - (y - 1901) / 100 + (y - 1601) / 400.

Definition DaysInYear (y : Z) : Z := if leap y then 366 else 365.

(** The last year that begins on or before day [d]: an estimate, corrected. *)
Definition YearFromDay (d : Z) : Z :=
  let y := 1970 + 400 * d / 146097 in
  if DayFromYear (y + 1) <=? d then y + 1
  else if DayFromYear y <=? d then y else y - 1.

(** The day of the year on which month [m] (from 0) begins; month 12 ends it. *)
Definition MonthStart (y m : Z) : Z :=
  let l := if leap y then 1 else 0 in
  if m <? 1 then 0 else if m <? 2 then 31 else if m <? 3 then 59 + l
  else if m <? 4 then 90 + l else if m <? 5 then 120 + l else if m <? 6 then 151 + l
  else if m <? 7 then 181 + l else if m <? 8 then 212 + l else if m <? 9 then 243 + l
  else if m <? 10 then 273 + l else if m <? 11 then 304 + l else if m <? 12 then 334 + l
  else 365 + l.

Definition DayWithinYear (d : Z) : Z := d - DayFromYear (YearFromDay d).

(** The month whose days hold [doy], a day of year [y]. *)
Definition month_of (y doy : Z) : Z :=
  let l := if leap y then 1 else 0 in
  if doy <? 31 then 0 else if doy <? 59 + l then 1 else if doy <? 90 + l then 2
  else if doy <? 120 + l then 3 else if doy <? 151 + l then 4 else if doy <? 181 + l then 5
  else if doy <? 212 + l then 6 else if doy <? 243 + l then 7 else if doy <? 273 + l then 8
  else if doy <? 304 + l then 9 else if doy <? 334 + l then 10 else 11.

(** ** Getters and setters *)

Definition getFullYear (t : Z) : Z := YearFromDay (Day t).
Definition getMonth (t : Z) : Z := month_of (getFullYear t) (DayWithinYear (Day t)).
Definition getDate (t : Z) : Z :=
  DayWithinYear (Day t) - MonthStart (getFullYear t) (getMonth t) + 1.
Definition getDay (t : Z) : Z := (Day t + 4) mod 7.
Definition getHours (t : Z) : Z := TimeWithinDay t / 3600000.
Definition getYear (t : Z) : Z := getFullYear t - 1900.

Definition MakeDay (y m dt : Z) : Z :=
  let ym := y + m / 12 in DayFromYear ym + MonthStart ym (m mod 12) + dt - 1.

(** [new Date(y, m, dt)]: the years 0 to 99 are those of the 20th century. *)
Definition new_date (y m dt : Z) : Z :=
  let y := if (0 <=? y) && (y <=? 99) then 1900 + y else y in MakeDay y m dt * msPerDay.

Definition setDate (dt t : Z) : Z :=
  MakeDay (getFullYear t) (getMonth t) dt * msPerDay + TimeWithinDay t.
Definition setMonth (m t : Z) : Z :=
  MakeDay (getFullYear t) m (getDate t) * msPerDay + TimeWithinDay t.
(** [setHours(h)] keeps the minutes and what is below. *)
Definition setHours (h t : Z) : Z :=
  Day t * msPerDay + h * 3600000 + TimeWithinDay t mod 3600000.

(** [setHours(0); setMinutes(0); setSeconds(0); setMilliseconds(0)]. *)
Definition midnight (t : Z) : Z := Day t * msPerDay.

(** ** Years *)

Lemma DayFromYear_step y : DayFromYear (y + 1) = DayFromYear y + DaysInYear y.
Proof.
  unfold DayFromYear, DaysInYear, leap.
  destruct (Z.eqb_spec (y mod 4) 0), (Z.eqb_spec (y mod 100) 0), (Z.eqb_spec (y mod 400) 0);
    cbn [andb orb negb]; div_lia.
Qed.

Lemma DaysInYear_bounds y : 365 <= DaysInYear y <= 366.
Proof. unfold DaysInYear. destruct (leap y); lia. Qed.

Lemma DayFromYear_bounds y :
  146097 * (y - 1970) - 800 <= 400 * DayFromYear y <= 146097 * (y - 1970) + 800.
Proof. unfold DayFromYear. div_lia. Qed.

Lemma DayFromYear_mono y y' : y < y' -> DayFromYear y + 365 <= DayFromYear y'.
Proof.
  intros H. assert (exists n, y' = y + 1 + Z.of_nat n) as [n ->] by (exists (Z.to_nat (y' - y - 1)); lia).
  clear H. induction n as [|n IH].
  - rewrite Z.add_0_r, DayFromYear_step. pose proof (DaysInYear_bounds y). lia.
  - replace (y + 1 + Z.of_nat (S n)) with ((y + 1 + Z.of_nat n) + 1) by lia.
    rewrite DayFromYear_step. pose proof (DaysInYear_bounds (y + 1 + Z.of_nat n)). lia.
Qed.

Lemma YearFromDay_spec d :
  DayFromYear (YearFromDay d) <= d < DayFromYear (YearFromDay d + 1).
Proof.
  unfold YearFromDay. set (y := 1970 + 400 * d / 146097).
  assert (146097 * (y - 1970) <= 400 * d < 146097 * (y - 1970) + 146097) as Hy
    by (subst y; div_lia).
  pose proof (DayFromYear_bounds (y - 1)). pose proof (DayFromYear_bounds (y + 2)).
  destruct (Z.leb_spec (DayFromYear (y + 1)) d).
  { replace (y + 1 + 1) with (y + 2) by lia. lia. }
  destruct (Z.leb_spec (DayFromYear y) d); [lia|].
  replace (y - 1 + 1) with y by lia. lia.
Qed.

Lemma YearFromDay_unique d y : DayFromYear y <= d < DayFromYear (y + 1) -> YearFromDay d = y.
Proof.
  intros H. pose proof (YearFromDay_spec d) as H'.
  destruct (Z.lt_trichotomy (YearFromDay d) y) as [Hlt|[Heq|Hlt]]; [|done|].
  - assert (YearFromDay d + 1 = y \/ YearFromDay d + 1 < y) as [<-|Hm] by lia; [lia|].
    pose proof (DayFromYear_mono _ _ Hm). lia.
  - assert (y + 1 = YearFromDay d \/ y + 1 < YearFromDay d) as [He|Hm] by lia; [rewrite He in H; lia|].
    pose proof (DayFromYear_mono _ _ Hm). lia.
Qed.

(** ** Months *)

Lemma MonthStart_0 y : MonthStart y 0 = 0.
Proof. done. Qed.

Lemma MonthStart_12 y : MonthStart y 12 = DaysInYear y.
Proof. unfold DaysInYear, MonthStart. by destruct (leap y). Qed.

Definition month_length (y m : Z) : Z := MonthStart y (m + 1) - MonthStart y m.

Lemma month_length_bounds y m : 0 <= m < 12 -> 28 <= month_length y m <= 31.
Proof. intros H. unfold month_length, MonthStart. destruct (leap y); zcases; lia. Qed.

Lemma MonthStart_mono y m m' : 0 <= m -> m <= m' <= 12 -> MonthStart y m <= MonthStart y m'.
Proof. intros. unfold MonthStart. destruct (leap y); zcases; lia. Qed.

Lemma month_of_spec y doy :
  0 <= doy < DaysInYear y ->
  0 <= month_of y doy < 12 /\
  MonthStart y (month_of y doy) <= doy < MonthStart y (month_of y doy + 1).
Proof.
  unfold month_of, DaysInYear. destruct (leap y) eqn:E; intros H; cbv zeta; zcases;
    unfold MonthStart; rewrite E; lazy -[Z.le Z.lt]; lia.
Qed.

Lemma month_of_unique y m doy :
  0 <= m < 12 -> MonthStart y m <= doy < MonthStart y (m + 1) -> month_of y doy = m.
Proof.
  intros Hm Hd. pose proof (MonthStart_mono y (m + 1) 12). pose proof (MonthStart_mono y 0 m).
  rewrite MonthStart_12, MonthStart_0 in *.
  destruct (month_of_spec y doy) as [Hk Hs]; [lia|]. set (k := month_of y doy) in *.
  pose proof (MonthStart_mono y (k + 1) m). pose proof (MonthStart_mono y (m + 1) k). lia.
Qed.

(** ** Reading back a constructed date *)

(** [y], [m], [dt] are the fields of a day of the calendar. *)
Definition civil (y m dt : Z) : Prop := 0 <= m < 12 /\ 1 <= dt <= month_length y m.

Lemma Day_of_midnight d : Day (d * msPerDay) = d.
Proof. unfold Day, msPerDay. apply Z.div_mul. lia. Qed.

Lemma Day_shift d r : 0 <= r < msPerDay -> Day (d * msPerDay + r) = d.
Proof. unfold Day, msPerDay. intros. rewrite Z.div_add_l by lia. rewrite Z.div_small; lia. Qed.

Lemma TimeWithinDay_bounds t : 0 <= TimeWithinDay t < msPerDay.
Proof. unfold TimeWithinDay, msPerDay. apply Z.mod_pos_bound. lia. Qed.

Lemma Day_TimeWithinDay t : t = Day t * msPerDay + TimeWithinDay t.
Proof. unfold Day, TimeWithinDay, msPerDay. div_lia. Qed.

Lemma MakeDay_civil y m dt :
  0 <= m < 12 -> MakeDay y m dt = DayFromYear y + MonthStart y m + dt - 1.
Proof.
  intros H. unfold MakeDay. rewrite Z.div_small, Z.mod_small, Z.add_0_r by lia. done.
Qed.

Lemma fields_MakeDay y m dt t :
  civil y m dt -> Day t = MakeDay y m dt ->
  getFullYear t = y /\ getMonth t = m /\ getDate t = dt.
Proof.
  intros [Hm Hdt] HD. rewrite MakeDay_civil in HD by done.
  unfold month_length in Hdt.
  pose proof (MonthStart_mono y (m + 1) 12). pose proof (MonthStart_mono y 0 m).
  rewrite MonthStart_12, MonthStart_0 in *.
  assert (getFullYear t = y) as Hy.
  { apply YearFromDay_unique. rewrite DayFromYear_step. lia. }
  assert (getMonth t = m) as Hmo.
  { unfold getMonth, DayWithinYear. rewrite Hy. unfold getFullYear in Hy. rewrite Hy.
    apply month_of_unique; lia. }
  split_and!; [done..|]. unfold getDate. rewrite Hy, Hmo. unfold DayWithinYear.
  unfold getFullYear in Hy. rewrite Hy. lia.
Qed.

Lemma fields_civil t : civil (getFullYear t) (getMonth t) (getDate t).
Proof.
  pose proof (YearFromDay_spec (Day t)) as Hy. rewrite DayFromYear_step in Hy.
  destruct (month_of_spec (getFullYear t) (DayWithinYear (Day t))) as [Hm Hs].
  { unfold DayWithinYear, getFullYear. lia. }
  split; [done|]. unfold getDate, month_length. unfold getMonth in *. lia.
Qed.

Lemma MakeDay_fields t : MakeDay (getFullYear t) (getMonth t) (getDate t) = Day t.
Proof.
  destruct (fields_civil t) as [Hm _]. rewrite MakeDay_civil by done.
  unfold getDate, DayWithinYear, getFullYear. lia.
Qed.

Lemma fields_inj t u :
  getFullYear t = getFullYear u -> getMonth t = getMonth u -> getDate t = getDate u -> Day t = Day u.
Proof. intros Hy Hm Hd. by rewrite <- (MakeDay_fields t), Hy, Hm, Hd, MakeDay_fields. Qed.
