(* ===== verification/JsDecimal.v ===== *)
(** * JavaScript numbers as decimals

    Numbers with finitely many decimal places, for the widgets that compute with the
    places of a number's text.  Every double is such a number; sums and products here are
    exact, and a model that depends on their rounding takes it as a parameter.  Texts have
    an exponent where [ToString] writes one.  Infinities, negative zero and texts with the
    prefix [0x] are left out, and [NaN] is [None]. *)

From S2P Require Export JsValue.

(** [mant * 10 ^ - places]. *)
Record dec := mk_dec { mant : Z; places : nat }.
#[global] Instance dec_eq_dec : EqDecision dec.
Proof. solve_decision. Defined.

Definition pow10 (n : nat) : Z := 10 ^ Z.of_nat n.

(** Without trailing zeros. *)
Fixpoint norm (m : Z) (p : nat) : dec :=
  match p with
  | O => mk_dec m O
  | S q => if m mod 10 =? 0 then norm (m / 10) q else mk_dec m p
  end.

Definition dec_ok (d : dec) : Prop := places d = O \/ mant d mod 10 <> 0.

Definition dec_of (n : Z) : dec := mk_dec n O.

(** The value in units of [10 ^ - q], for [places d <= q]. *)
Definition raise (q : nat) (d : dec) : Z := mant d * pow10 (q - places d).

Definition scale (a b : dec) : nat := Nat.max (places a) (places b).

Definition dec_add (a b : dec) : dec := let q := scale a b in norm (raise q a + raise q b) q.
Definition dec_opp (a : dec) : dec := mk_dec (- mant a) (places a).
Definition dec_sub (a b : dec) : dec := dec_add a (dec_opp b).
Definition dec_mul (a b : dec) : dec := norm (mant a * mant b) (places a + places b).
Definition dec_ltb (a b : dec) : bool := let q := scale a b in raise q a <? raise q b.
Definition dec_leb (a b : dec) : bool := negb (dec_ltb b a).

(** [Math.round(a / b)], [NaN] or infinite when [b] is 0. *)
Definition round_quotient (a b : dec) : option Z :=
  let q := scale a b in
  if mant b =? 0 then None else Some ((2 * raise q a + raise q b) / (2 * raise q b)).

(** [parseFloat(a.toFixed(f))]: half a unit is rounded away from zero. *)
Definition toFixed (f : nat) (a : dec) : dec :=
  if (places a <=? f)%nat then a
  else
    let r := pow10 (places a - f) in
    norm (Z.sgn (mant a) * ((2 * Z.abs (mant a) + r) / (2 * r))) f.

(** ** Texts *)

Definition digit_char (n : Z) : ascii := pretty_N_char (Z.to_N n).

(** The last [p] digits of [n]. *)
Fixpoint pad (p : nat) (n : Z) : string :=
  match p with
  | O => EmptyString
  | S q => pad q (n / 10) +:+ String (digit_char (n mod 10)) EmptyString
  end.

Definition sign_text (m : Z) : string := if m <? 0 then "-" else "".

(** Without the zeros at its end, and their number. *)
Fixpoint strip (fuel : nat) (m : Z) : Z * nat :=
  match fuel with
  | O => (m, O)
  | S n => if m mod 10 =? 0 then let r := strip n (m / 10) in (r.1, S r.2) else (m, O)
  end.

(** [m * 10 ^ x] with one digit before the point: [1.5e-7]. *)
Definition exponent_text (m x : Z) : string :=
  let k := pred (String.length (pretty m)) in
  pretty (m / pow10 k) +:+ (if (k =? 0)%nat then "" else String "." (pad k (m mod pow10 k))) +:+
  String "e" (String (if Z.of_nat k + x <? 0 then "-" else "+") (pretty (Z.abs (Z.of_nat k + x)))).

(** The text of the absolute value, with an exponent from [1e21] on and below [1e-6]. *)
Definition body_text (d : dec) : string :=
  let n := Z.abs (mant d) in
  match places d with
  | O =>
      if n <? 10 ^ 21 then pretty n
      else let r := strip (String.length (pretty n)) n in exponent_text r.1 (Z.of_nat r.2)
  | p =>
      if pow10 p <=? n * 10 ^ 6 then pretty (n / pow10 p) +:+ String "." (pad p (n mod pow10 p))
      else exponent_text n (- Z.of_nat p)
  end.

(** [ToString]. *)
Definition dec_text (d : dec) : string := sign_text (mant d) +:+ body_text d.

Fixpoint whole (acc : Z) (some : bool) (s : string) : option Z :=
  match s with
  | EmptyString => if some then Some acc else None
  | String c s' => if is_digit c then whole (10 * acc + digit_val c) true s' else None
  end.

(** What follows the letter of an exponent. *)
Definition exponent (s : string) : option Z :=
  match s with
  | EmptyString => None
  | String c s' =>
      if Ascii.eqb c "-" then Z.opp <$> whole 0 false s'
      else if Ascii.eqb c "+" then whole 0 false s'
      else whole 0 false s
  end.

Definition is_e (c : ascii) : bool := Ascii.eqb c "e" || Ascii.eqb c "E".

(** The digits after the point, their number, and the exponent. *)
Fixpoint fraction (acc : Z) (p : nat) (s : string) : option (Z * nat * Z) :=
  match s with
  | EmptyString => Some (acc, p, 0)
  | String c s' =>
      if is_digit c then fraction (10 * acc + digit_val c) (S p) s'
      else if is_e c then pair (acc, p) <$> exponent s' else None
  end.

(** [n * 10 ^ x]. *)
Definition scaled (n x : Z) : dec := if 0 <=? x then dec_of (n * 10 ^ x) else norm n (Z.to_nat (- x)).

(** Digits, a point, digits and an exponent; [some] says that a digit was seen. *)
Fixpoint unsigned_decimal (acc : Z) (some : bool) (s : string) : option dec :=
  match s with
  | EmptyString => if some then Some (dec_of acc) else None
  | String c s' =>
      if is_digit c then unsigned_decimal (10 * acc + digit_val c) true s'
      else if Ascii.eqb c "." then
        match fraction acc O s' with
        | Some (n, p, x) => if some || (0 <? p)%nat then Some (scaled n (x - Z.of_nat p)) else None
        | None => None
        end
      else if is_e c && some then scaled acc <$> exponent s'
      else None
  end.

(** [ToNumber] of a text. *)
Definition text_number (s : string) : option dec :=
  match trim s with
  | EmptyString => Some (dec_of 0)
  | String c s' =>
      if Ascii.eqb c "-" then dec_opp <$> unsigned_decimal 0 false s'
      else if Ascii.eqb c "+" then unsigned_decimal 0 false s'
      else unsigned_decimal 0 false (String c s')
  end.

(** [_precisionOf]: what follows the point in the text of a number. *)
Definition precisionOf (d : dec) : nat :=
  match String.index 0 "." (dec_text d) with
  | None => O
  | Some decimal => (String.length (dec_text d) - decimal - 1)%nat
  end.

(** ** Values *)

Lemma pow10_pos n : 0 < pow10 n.
Proof. unfold pow10. apply Z.pow_pos_nonneg; lia. Qed.

Lemma pow10_S n : pow10 (S n) = 10 * pow10 n.
Proof. unfold pow10. rewrite Nat2Z.inj_succ, Z.pow_succ_r; lia. Qed.

Lemma pow10_add a b : pow10 (a + b) = pow10 a * pow10 b.
Proof. unfold pow10. rewrite Nat2Z.inj_add, Z.pow_add_r; lia. Qed.

Lemma raise_up q r d : (places d <= q)%nat -> raise (q + r) d = raise q d * pow10 r.
Proof. intros H. unfold raise. replace (q + r - places d)%nat with (q - places d + r)%nat by lia. rewrite pow10_add. lia. Qed.

Lemma norm_spec m p : dec_ok (norm m p) /\ (places (norm m p) <= p)%nat /\ forall q, (p <= q)%nat -> raise q (norm m p) = m * pow10 (q - p).
Proof.
  revert m. induction p as [|p IH]; intros m; cbn [norm].
  - split; [by left|]. split; [done|]. intros q _. unfold raise. cbn. by rewrite Nat.sub_0_r.
  - destruct (Z.eqb_spec (m mod 10) 0) as [Hm|Hm].
    + destruct (IH (m / 10)) as (H1 & H2 & H3). split; [done|]. split; [lia|]. intros q Hq. rewrite H3 by lia.
      replace (q - p)%nat with (S (q - S p)) by lia. rewrite pow10_S.
      pose proof (Z_div_mod_eq_full m 10). nia.
    + split; [by right|]. split; [done|]. intros q Hq. done.
Qed.

Lemma norm_ok m p : dec_ok (norm m p).
Proof. apply norm_spec. Qed.

Lemma raise_norm q m p : (p <= q)%nat -> raise q (norm m p) = m * pow10 (q - p).
Proof. apply norm_spec. Qed.

(** A number without trailing zeros is its value. *)
Lemma dec_unique q a b :
  dec_ok a -> dec_ok b -> (places a <= q)%nat -> (places b <= q)%nat -> raise q a = raise q b -> a = b.
Proof.
  assert (forall q a b, dec_ok b -> (places a <= places b)%nat -> (places b <= q)%nat ->
    raise q a = raise q b -> a = b) as H.
  { clear. intros q [m p] [n r] Hb Hpr Hr E. unfold raise in E. cbn in *.
    pose proof (pow10_pos (q - r)) as Hpos.
    replace (q - p)%nat with ((q - r) + (r - p))%nat in E by lia. rewrite pow10_add in E.
    assert (m * pow10 (r - p) = n) as <- by nia.
    destruct (r - p)%nat as [|k] eqn:Ek.
    - assert (r = p) as -> by lia. f_equal. unfold pow10. cbn. lia.
    - destruct Hb as [Hb|Hb]; cbn in Hb; [lia|]. destruct Hb. rewrite pow10_S.
      replace (m * (10 * pow10 k)) with (m * pow10 k * 10) by ring. apply Z_mod_mult. }
  intros Ha Hb Hpa Hpb E. destruct (Nat.le_ge_cases (places a) (places b)) as [Hle|Hle].
  - by apply (H q).
  - symmetry. by apply (H q).
Qed.

Lemma opp_ok a : dec_ok a -> dec_ok (dec_opp a).
Proof.
  intros [Ha|Ha]; [by left|right]. cbn. intros E. apply Ha. apply Z.mod_divide in E; [|done].
  apply Z.mod_divide; [done|]. by rewrite <- Z.divide_opp_r.
Qed.

Lemma add_places a b : (places (dec_add a b) <= scale a b)%nat.
Proof. apply norm_spec. Qed.

Lemma raise_add q a b : (scale a b <= q)%nat -> raise q (dec_add a b) = raise q a + raise q b.
Proof.
  intros Hq. unfold dec_add. cbv zeta. rewrite raise_norm by done. unfold scale in *.
  set (s := Nat.max _ _) in *. replace q with (s + (q - s))%nat at 2 3 by lia.
  rewrite !raise_up by lia. lia.
Qed.

Lemma raise_opp q a : raise q (dec_opp a) = - raise q a.
Proof. unfold raise. cbn. lia. Qed.

Lemma raise_sub q a b : (scale a b <= q)%nat -> raise q (dec_sub a b) = raise q a - raise q b.
Proof. intros Hq. unfold dec_sub. rewrite raise_add by done. rewrite raise_opp. lia. Qed.

Lemma raise_mul_int q n a : (places a <= q)%nat -> raise q (dec_mul (dec_of n) a) = n * raise q a.
Proof. intros Hq. unfold dec_mul. rewrite raise_norm by (cbn; lia). unfold raise. cbn. lia. Qed.

Lemma ltb_raise q a b : (scale a b <= q)%nat -> dec_ltb a b = (raise q a <? raise q b).
Proof.
  intros Hq. unfold dec_ltb, scale in *. set (s := Nat.max _ _) in *.
  replace q with (s + (q - s))%nat by lia. rewrite !raise_up by lia. pose proof (pow10_pos (q - s)).
  destruct (Z.ltb_spec (raise s a) (raise s b)); destruct (Z.ltb_spec (raise s a * pow10 (q - s)) (raise s b * pow10 (q - s))); nia.
Qed.

Lemma round_quotient_raise q a b :
  (scale a b <= q)%nat -> raise q b <> 0 -> round_quotient a b = Some ((2 * raise q a + raise q b) / (2 * raise q b)).
Proof.
  intros Hq Hb. unfold round_quotient, scale in *. set (s := Nat.max _ _) in *.
  assert (exists k, q = (s + k)%nat) as [k ->] by (exists (q - s)%nat; lia). rewrite !raise_up in * by lia.
  pose proof (pow10_pos k) as Hp.
  destruct (Z.eqb_spec (mant b) 0) as [E|E]; [unfold raise in Hb; rewrite E in Hb; lia|]. f_equal.
  assert (raise s b <> 0) by nia.
  replace (2 * (raise s a * pow10 k) + raise s b * pow10 k) with ((2 * raise s a + raise s b) * pow10 k) by ring.
  replace (2 * (raise s b * pow10 k)) with (2 * raise s b * pow10 k) by ring.
  by rewrite Z.div_mul_cancel_r by lia.
Qed.

(** [w] is nearer to [v] than half a unit of the [p]th place. *)
Definition near (p : nat) (w v : dec) : Prop :=
  dec_ok w /\ 2 * pow10 p * Z.abs (raise (scale w v) w - raise (scale w v) v) < pow10 (scale w v).

Lemma near_raise p w v q : near p w v -> (scale w v <= q)%nat -> 2 * pow10 p * Z.abs (raise q w - raise q v) < pow10 q.
Proof.
  intros [_ H] Hq. unfold scale in *. set (c := Nat.max _ _) in *. replace q with (c + (q - c))%nat by lia.
  rewrite !raise_up, pow10_add by lia. pose proof (pow10_pos (q - c)). rewrite <- Z.mul_sub_distr_r, Z.abs_mul.
  rewrite (Z.abs_eq (pow10 (q - c))) by lia. nia.
Qed.

(** A number with [p] places that was changed by less is repaired. *)
Lemma toFixed_near p w v : dec_ok v -> (places v <= p)%nat -> near p w v -> toFixed p w = v.
Proof.
  intros Hv Hp Hn. pose proof (near_raise p w v (Nat.max p (places w)) Hn) as H. pose proof (proj1 Hn) as Hw.
  unfold toFixed. destruct (Nat.leb_spec (places w) p) as [Hle|Hlt].
  - rewrite Nat.max_l in H by done. specialize (H ltac:(unfold scale; lia)). pose proof (pow10_pos p).
    apply (dec_unique p); [done..|]. nia.
  - rewrite Nat.max_r in H by lia. specialize (H ltac:(unfold scale; lia)). cbv zeta.
    apply (dec_unique p); [apply norm_ok|done|apply norm_spec|done|]. rewrite raise_norm by done.
    rewrite Nat.sub_diag. change (pow10 0) with 1. rewrite Z.mul_1_r. revert H.
    assert (raise (places w) w = mant w) as -> by (unfold raise; rewrite Nat.sub_diag; apply Z.mul_1_r).
    set (r := pow10 (places w - p)). set (V := raise p v).
    assert (raise (places w) v = V * r) as -> by (unfold V, r; rewrite <- raise_up by done; f_equal; lia).
    assert (pow10 (places w) = pow10 p * r) as -> by (unfold r; rewrite <- pow10_add; f_equal; lia).
    pose proof (pow10_pos p) as Hp0. pose proof (pow10_pos (places w - p)) as Hr. fold r in Hr.
    generalize (mant w). intros m H. assert (2 * Z.abs (m - V * r) < r) as He by nia. clear H.
    destruct (Z.lt_trichotomy V 0) as [HV|[HV|HV]].
    + assert (m < 0) by nia. rewrite Z.sgn_neg, Z.abs_neq by lia.
      rewrite <- (Z.div_unique (2 * - m + r) (2 * r) (- V) (2 * (V * r - m) + r)); nia.
    + subst V. rewrite HV in *. rewrite (Z.div_small (2 * Z.abs m + r)); lia.
    + assert (0 < m) by nia. rewrite Z.sgn_pos, Z.abs_eq by lia.
      rewrite <- (Z.div_unique (2 * m + r) (2 * r) V (2 * (m - V * r) + r)); nia.
Qed.

(** ** Texts of numbers *)

Lemma digit_of n : 0 <= n < 10 -> is_digit (digit_char n) = true /\ digit_val (digit_char n) = n /\ is_blank (digit_char n) = false.
Proof.
  intros H. assert (forall k, (k < 10)%nat -> let c := digit_char (Z.of_nat k) in is_digit c = true /\ digit_val c = Z.of_nat k /\ is_blank c = false) as Hk.
  { intros k Hk. do 10 (destruct k as [|k]; [done|]). lia. }
  rewrite <- (Z2Nat.id n) by lia. apply Hk. lia.
Qed.

Lemma digit_N x :
  let k := (x mod 10)%N in
  is_digit (pretty_N_char k) = true /\ digit_val (pretty_N_char k) = Z.of_N k /\ is_blank (pretty_N_char k) = false /\
  Z.of_N x = 10 * Z.of_N (x / 10) + Z.of_N k.
Proof.
  pose proof (N.mod_upper_bound x 10 ltac:(done)) as H. pose proof (N.div_mod x 10 ltac:(done)) as E. cbv zeta.
  revert H E. generalize (x mod 10)%N, (x / 10)%N. intros k q H E.
  destruct (digit_of (Z.of_N k)) as (D1 & D2 & D3); [lia|]. unfold digit_char in *. rewrite N2Z.id in *.
  split_and!; [done..|lia].
Qed.

(** Without blanks nothing is trimmed. *)
Fixpoint solid (s : string) : bool :=
  match s with EmptyString => true | String c s' => negb (is_blank c) && solid s' end.

Lemma solid_app s t : solid (s +:+ t) = solid s && solid t.
Proof. induction s as [|c s IH]; [done|]. rewrite app_string_cons. cbn. rewrite IH. by destruct (is_blank c). Qed.

Lemma rev_app_rev s t u : String.rev_app (String.rev_app s t) u = String.rev_app t (s +:+ u).
Proof. revert t. induction s as [|c s IH]; intros t; [done|]. cbn [String.rev_app]. by rewrite IH. Qed.

Lemma rev_rev s : String.rev (String.rev s) = s.
Proof. unfold String.rev. rewrite rev_app_rev. apply app_string_nil_r. Qed.

Lemma solid_rev_app s t : solid (String.rev_app s t) = solid s && solid t.
Proof.
  revert t. induction s as [|c s IH]; intros t; [done|]. cbn [String.rev_app solid]. rewrite IH. cbn.
  by destruct (is_blank c), (solid s).
Qed.

Lemma skip_solid s : solid s = true -> skip_blanks s = s.
Proof. destruct s as [|c s]; [done|]. cbn. by destruct (is_blank c). Qed.

Lemma trim_solid s : solid s = true -> trim s = s.
Proof.
  intros H. unfold trim. rewrite (skip_solid s) by done. rewrite skip_solid; [apply rev_rev|].
  unfold String.rev. rewrite solid_rev_app. by rewrite H.
Qed.

(** Leading digits are consumed. *)
Lemma unsigned_go x t b :
  (0 < x)%N -> unsigned_decimal 0 b (pretty_N_go x t) = unsigned_decimal (Z.of_N x) true t.
Proof.
  revert t b. induction (N.lt_wf_0 x) as [x _ IH]. intros t b Hx. rewrite pretty_N_go_step by done.
  destruct (digit_N x) as (D1 & D2 & _ & D4).
  destruct (decide (x / 10 = 0)%N) as [E|E].
  - rewrite E, pretty_N_go_0. cbn [unsigned_decimal]. rewrite D1, D2. f_equal. rewrite E in D4. lia.
  - rewrite IH by (by apply N.div_lt || by apply N.neq_0_lt_0). cbn [unsigned_decimal]. rewrite D1, D2. f_equal. lia.
Qed.

Lemma solid_go x t : solid t = true -> solid (pretty_N_go x t) = true.
Proof.
  revert t. induction (N.lt_wf_0 x) as [x _ IH]. intros t Ht. destruct (decide (x = 0)%N) as [->|E]; [by rewrite pretty_N_go_0|].
  rewrite pretty_N_go_step by lia. apply IH; [apply N.div_lt; lia|]. cbn.
  destruct (digit_N x) as (_ & _ & D3 & _).
  by rewrite D3.
Qed.

Lemma go_app x t u : pretty_N_go x (t +:+ u) = pretty_N_go x t +:+ u.
Proof.
  revert t. induction (N.lt_wf_0 x) as [x _ IH]. intros t. destruct (decide (x = 0)%N) as [->|E]; [by rewrite !pretty_N_go_0|].
  rewrite !(pretty_N_go_step x) by lia. rewrite <- app_string_cons. apply IH, N.div_lt; lia.
Qed.

(** The text of a whole number that is not negative. *)
Lemma unsigned_pretty n t :
  0 <= n -> unsigned_decimal 0 false (pretty n +:+ t) = unsigned_decimal n true t /\ (solid t = true -> solid (pretty n +:+ t) = true) /\
  exists c r, pretty n +:+ t = String c r /\ Ascii.eqb c "-" = false /\ Ascii.eqb c "+" = false.
Proof.
  intros Hn. destruct n as [|p|p]; [|clear Hn|lia].
  - split; [done|]. split; [by intros Ht; cbn|]. by eexists _, _.
  - change (pretty (Zpos p)) with (pretty_N_go (Npos p) ""). rewrite <- go_app. rewrite app_string_nil_l.
    split; [by rewrite unsigned_go|]. split; [apply solid_go|].
    assert (forall x t, (0 < x)%N -> exists c r, pretty_N_go x t = String c r /\ is_digit c = true) as H.
    { clear. intros x. induction (N.lt_wf_0 x) as [x _ IH]. intros t Hx. rewrite pretty_N_go_step by done.
      destruct (decide (x / 10 = 0)%N) as [E|E].
      - rewrite E, pretty_N_go_0. destruct (digit_N x) as (D1 & _). by eexists _, _.
      - apply IH; [by apply N.div_lt|by apply N.neq_0_lt_0]. }
    destruct (H (Npos p) t) as (c & r & -> & Hc); [done|]. exists c, r. split; [done|].
    split; (destruct (Ascii.eqb_spec c "-"), (Ascii.eqb_spec c "+"); by subst).
Qed.

Lemma solid_pad p n : solid (pad p n) = true.
Proof.
  revert n. induction p as [|p IH]; intros n; [done|]. cbn [pad]. rewrite solid_app, IH. cbn.
  destruct (digit_of (n mod 10)) as (_ & _ & D3); [by apply Z.mod_pos_bound|]. by rewrite D3.
Qed.

Lemma fraction_app p n acc q t :
  fraction acc q (pad p n +:+ t) = fraction (acc * pow10 p + n mod pow10 p) (q + p) t.
Proof.
  revert n acc q t. induction p as [|p IH]; intros n acc q t.
  - cbn [pad]. rewrite app_string_nil_l. f_equal; [|lia]. unfold pow10. cbn. rewrite Z.mod_1_r. lia.
  - cbn [pad]. rewrite app_string_assoc, IH. rewrite app_string_cons, app_string_nil_l. cbn [fraction].
    destruct (digit_of (n mod 10)) as (D1 & D2 & _); [by apply Z.mod_pos_bound|]. rewrite D1, D2. f_equal; [|lia].
    rewrite pow10_S. pose proof (pow10_pos p). rewrite Z.rem_mul_r by lia. lia.
Qed.

Lemma norm_fixed d : dec_ok d -> norm (mant d) (places d) = d.
Proof.
  intros H. destruct (norm_spec (mant d) (places d)) as (H1 & H2 & H3).
  apply (dec_unique (places d)); try done. rewrite H3 by done. unfold raise. done.
Qed.

Lemma scaled_back m p : dec_ok (mk_dec m (S p)) -> scaled m (- Z.of_nat (S p)) = mk_dec m (S p).
Proof.
  intros H. unfold scaled. rewrite (proj2 (Z.leb_gt _ _)) by lia. rewrite Z.opp_involutive, Nat2Z.id.
  exact (norm_fixed _ H).
Qed.

Lemma scaled_ok n x : dec_ok (scaled n x).
Proof. unfold scaled. destruct (0 <=? x); [by left|apply norm_ok]. Qed.

Lemma unsigned_text m p :
  0 <= m -> dec_ok (mk_dec m (S p)) ->
  let t := pretty (m / pow10 (S p)) +:+ String "." (pad (S p) (m mod pow10 (S p))) in
  unsigned_decimal 0 false t = Some (mk_dec m (S p)) /\ solid t = true /\
  exists c r, t = String c r /\ Ascii.eqb c "-" = false /\ Ascii.eqb c "+" = false.
Proof.
  intros Hm Hok t. pose proof (pow10_pos (S p)) as Hp.
  destruct (unsigned_pretty (m / pow10 (S p)) (String "." (pad (S p) (m mod pow10 (S p))))) as (U & Sd & Hd);
    [by apply Z.div_pos|].
  split; [|split; [|exact Hd]].
  - unfold t. rewrite U. pose proof (fraction_app (S p) (m mod pow10 (S p)) 
      (m / pow10 (S p)) 0 "") as Hf.
    rewrite app_string_nil_r in Hf. cbn [unsigned_decimal].
    change (is_digit ".") with false. change (Ascii.eqb "." ".") with true. cbn iota.
    rewrite Z.mod_mod in Hf by lia.
    replace (m / pow10 (S p) * pow10 (S p) + m mod pow10 (S p)) with m in Hf
      by (pose proof (Z_div_mod_eq_full m (pow10 (S p))); lia).
    rewrite Hf. cbn [fraction]. rewrite orb_true_l. f_equal. exact (scaled_back _ _ Hok).
  - apply Sd. exact (solid_pad (S p) _).
Qed.

Lemma whole_go x t b : (0 < x)%N -> whole 0 b (pretty_N_go x t) = whole (Z.of_N x) true t.
Proof.
  revert t b. induction (N.lt_wf_0 x) as [x _ IH]. intros t b Hx. rewrite pretty_N_go_step by done.
  destruct (digit_N x) as (D1 & D2 & _ & D4).
  destruct (decide (x / 10 = 0)%N) as [E|E].
  - rewrite E, pretty_N_go_0. cbn [whole]. rewrite D1, D2. f_equal. rewrite E in D4. lia.
  - rewrite IH by (by apply N.div_lt || by apply N.neq_0_lt_0). cbn [whole]. rewrite D1, D2. f_equal. lia.
Qed.

Lemma whole_pretty n : 0 <= n -> whole 0 false (pretty n) = Some n.
Proof. intros Hn. destruct n as [|p|p]; [done| |lia]. exact (whole_go (Npos p) "" false eq_refl). Qed.

(** An exponent with its sign is read back. *)
Lemma exponent_pretty x : exponent (String (if x <? 0 then "-" else "+") (pretty (Z.abs x))) = Some x.
Proof.
  cbn [exponent]. destruct (Z.ltb_spec x 0) as [Hx|Hx].
  - change (Ascii.eqb "-" "-") with true. cbn iota. rewrite whole_pretty by lia. cbn. f_equal. lia.
  - change (Ascii.eqb "+" "-") with false. change (Ascii.eqb "+" "+") with true. cbn iota.
    rewrite whole_pretty by lia. f_equal. lia.
Qed.

Definition tail_text (x : Z) : string := String "e" (String (if x <? 0 then "-" else "+") (pretty (Z.abs x))).

Lemma solid_pretty n : 0 <= n -> solid (pretty n) = true.
Proof.
  intros Hn. destruct (unsigned_pretty n "") as (_ & H & _); [done|].
  rewrite app_string_nil_r in H. by apply H.
Qed.

Lemma solid_tail x : solid (tail_text x) = true.
Proof. unfold tail_text. cbn [solid]. rewrite solid_pretty by lia. by destruct (x <? 0). Qed.

(** The text of a part of a number that has no sign, as it is read. *)
Definition unsigned_of (t : string) (d : dec) : Prop :=
  unsigned_decimal 0 false t = Some d /\ solid t = true /\
  exists c r, t = String c r /\ Ascii.eqb c "-" = false /\ Ascii.eqb c "+" = false.

Lemma exponent_unsigned m x : 0 <= m -> unsigned_of (exponent_text m x) (scaled m x).
Proof.
  intros Hm. unfold exponent_text. set (k := pred _). cbv zeta. fold (tail_text (Z.of_nat k + x)).
  set (y := Z.of_nat k + x). pose proof (pow10_pos k) as Hp.
  assert (0 <= m / pow10 k) as Hq by (by apply Z.div_pos).
  destruct (Nat.eqb_spec k 0) as [Ek|Ek].
  - destruct (unsigned_pretty (m / pow10 k) (tail_text y)) as (U & Sd & Hd); [done|].
    rewrite app_string_nil_l.
    split; [|split; [exact (Sd (solid_tail y))|exact Hd]]. rewrite U. unfold tail_text.
    cbn [unsigned_decimal]. change (is_digit "e") with false. change (Ascii.eqb "e" ".") with false.
    change (is_e "e") with true. cbn [andb]. rewrite exponent_pretty. cbn. subst y. rewrite Ek. change (pow10 0) with 1.
    by rewrite Z.div_1_r.
  - destruct (unsigned_pretty (m / pow10 k) (String "." (pad k (m mod pow10 k) +:+ tail_text y))) as (U & Sd & Hd); [done|].
    rewrite app_string_cons. split; [|split; [|exact Hd]].
    + rewrite U. cbn [unsigned_decimal]. change (is_digit ".") with false. change (Ascii.eqb "." ".") with true. cbn iota.
      rewrite fraction_app, Z.mod_mod by lia. unfold tail_text. cbn [fraction]. change (is_digit "e") with false.
      change (is_e "e") with true. cbn iota. rewrite exponent_pretty. cbn. subst y. f_equal. apply f_equal2; [|lia].
      pose proof (Z_div_mod_eq_full m (pow10 k)). lia.
    + apply Sd. cbn [solid]. rewrite solid_app, solid_pad, solid_tail. done.
Qed.

Lemma strip_value fuel m : (strip fuel m).1 * 10 ^ Z.of_nat (strip fuel m).2 = m.
Proof.
  revert m. induction fuel as [|fuel IH]; intros m; cbn [strip]; [cbn; lia|].
  destruct (Z.eqb_spec (m mod 10) 0) as [Hm|Hm]; [|cbn; lia]. cbv zeta. cbn [fst snd].
  rewrite Nat2Z.inj_succ, Z.pow_succ_r by lia. pose proof (Z_div_mod_eq_full m 10). specialize (IH (m / 10)). nia.
Qed.

Lemma strip_nonneg fuel m : 0 <= m -> 0 <= (strip fuel m).1.
Proof. intros H. pose proof (strip_value fuel m) as E. pose proof (Z.pow_pos_nonneg 10 (Z.of_nat (strip fuel m).2)). nia. Qed.

Definition absolute (d : dec) : dec := mk_dec (Z.abs (mant d)) (places d).

Lemma absolute_ok d : dec_ok d -> dec_ok (absolute d).
Proof.
  intros [H|H]; [by left|right]. cbn. intros Ha. apply H. apply Z.mod_divide in Ha; [|done].
  rewrite Z.divide_abs_r in Ha. by apply Z.mod_divide.
Qed.

Lemma body_unsigned d : dec_ok d -> unsigned_of (body_text d) (absolute d).
Proof.
  intros Hok. apply absolute_ok in Hok. unfold body_text. cbv zeta. destruct d as [m p]. unfold absolute in *. cbn [mant places] in *.
  pose proof (Z.abs_nonneg m) as Hn. generalize dependent (Z.abs m). clear m. intros n Hok Hn.
  destruct p as [|p]; [destruct (n <? 10 ^ 21)|destruct (_ <=? _)].
  - destruct (unsigned_pretty n "") as (U & Sd & Hd); [done|]. rewrite app_string_nil_r in *.
    split; [exact U|]. split; [by apply Sd|done].
  - set (f := String.length _). pose proof (exponent_unsigned (strip f n).1 (Z.of_nat (strip f n).2) (strip_nonneg f n Hn)) as H.
    cbv zeta. assert (scaled (strip f n).1 (Z.of_nat (strip f n).2) = mk_dec n 0) as <-; [|exact H].
    unfold scaled. rewrite (proj2 (Z.leb_le _ _)) by lia. by rewrite strip_value.
  - by apply unsigned_text.
  - pose proof (exponent_unsigned n (- Z.of_nat (S p)) Hn) as H.
    by rewrite (scaled_back n p Hok) in H.
Qed.

(** A number is read back from its text. *)
Lemma text_number_text d : dec_ok d -> text_number (dec_text d) = Some d.
Proof.
  intros Hok. destruct (body_unsigned d Hok) as (U & Sd & c & r & E & C1 & C2). unfold text_number.
  unfold dec_text. set (t := body_text d) in *.
  unfold sign_text. destruct (Z.ltb_spec (mant d) 0) as [Hm|Hm].
  - rewrite app_string_cons, app_string_nil_l. rewrite trim_solid by (cbn; by rewrite Sd).
    change (Ascii.eqb "-" "-") with true. cbn iota. rewrite U. destruct d as [m p]. cbn. unfold dec_opp. cbn in *. do 2 f_equal. lia.
  - rewrite app_string_nil_l. rewrite trim_solid by done. rewrite E, C1, C2, <- E, U. destruct d as [m p].
    unfold absolute. cbn in *. do 2 f_equal. lia.
Qed.

(** ** The places of a text *)

(** Numbers that [ToString] writes with all their places. *)
Definition plain (d : dec) : Prop := places d = O \/ pow10 (places d) <= Z.abs (mant d) * 10 ^ 6.

Fixpoint dotless (s : string) : bool :=
  match s with EmptyString => true | String c s' => negb (Ascii.eqb c ".") && dotless s' end.

Lemma index_dot s t : dotless s = true -> String.index 0 "." (s +:+ String "." t) = Some (String.length s).
Proof.
  induction s as [|c s IH]; [by destruct t|]. rewrite app_string_cons. cbn [dotless]. intros [Hc Hs]%andb_true_iff.
  cbn [String.index String.length String.prefix]. rewrite (IH Hs).
  destruct (ascii_dec "." c) as [<-|]; [done|]. done.
Qed.

Lemma length_app_string s t : String.length (s +:+ t) = (String.length s + String.length t)%nat.
Proof. induction s as [|c s IH]; [done|]. rewrite app_string_cons. cbn. by rewrite IH. Qed.

Lemma length_pad p n : String.length (pad p n) = p.
Proof. revert n. induction p as [|p IH]; intros n; [done|]. cbn [pad]. rewrite length_app_string, IH. cbn. lia. Qed.

Lemma dotless_go x t : dotless t = true -> dotless (pretty_N_go x t) = true.
Proof.
  revert t. induction (N.lt_wf_0 x) as [x _ IH]. intros t Ht. destruct (decide (x = 0)%N) as [->|E]; [by rewrite pretty_N_go_0|].
  rewrite pretty_N_go_step by lia. apply IH; [apply N.div_lt; lia|]. cbn.
  destruct (digit_N x) as (D1 & _). destruct (Ascii.eqb_spec (pretty_N_char (x mod 10)) ".") as [E'|_]; [|done].
  by rewrite E' in D1.
Qed.

Lemma dotless_pretty n : 0 <= n -> dotless (pretty n) = true.
Proof. intros Hn. destruct n as [|p|p]; [done| |lia]. by apply (dotless_go (Npos p) ""). Qed.

(** Written without an exponent, a number has the places of its text. *)
Lemma precisionOf_plain d : plain d -> (places d <= precisionOf d)%nat.
Proof.
  destruct d as [m [|p]]; [intros _; apply Nat.le_0_l|]. intros [[=]|H]. unfold precisionOf, dec_text, body_text.
  cbn [places mant] in *. rewrite (proj2 (Z.leb_le _ _) H).
  set (q := Z.abs m / pow10 (S p)). set (t := pad (S p) _). rewrite <- app_string_assoc.
  pose proof (pow10_pos (S p)). assert (0 <= q) as Hq by (apply Z.div_pos; lia).
  rewrite index_dot.
  - rewrite length_app_string. cbn [String.length]. unfold t. rewrite length_pad. lia.
  - unfold sign_text. destruct (m <? 0); [rewrite app_string_cons|]; rewrite app_string_nil_l; [cbn|]; by apply dotless_pretty.
Qed.
