(* ===== verification/DpFormat.v ===== *)
(** * jQuery UI datepicker: date formats

    Models [parseDate], [formatDate], [_possibleChars] and the date helpers of
    [2019104287/code/WebContent/js/jquery-ui.js].  The three functions walk over the
    format with the same loop ([scan]: quotes, doubled letters); they differ in the
    letters that look ahead and in what they do with a directive.  Names are ASCII. *)

From S2P Require Export JsDate.

(** ** Settings *)

(** [shortYearCutoff]: a number, or a string relative to the current year. *)
Inductive cutoff := CNum (n : Z) | CStr (s : string).

Record settings := mk_settings {
  shortYearCutoff : option cutoff;
  dayNamesShort : option (list string);
  dayNames : option (list string);
  monthNamesShort : option (list string);
  monthNames : option (list string);
}.

(** [this.regional['']] and [shortYearCutoff] of [this._defaults]. *)
Definition defaults : settings := mk_settings (Some (CStr "+10"))
  (Some ["Sun"; "Mon"; "Tue"; "Wed"; "Thu"; "Fri"; "Sat"])
  (Some ["Sunday"; "Monday"; "Tuesday"; "Wednesday"; "Thursday"; "Friday"; "Saturday"])
  (Some ["Jan"; "Feb"; "Mar"; "Apr"; "May"; "Jun"; "Jul"; "Aug"; "Sep"; "Oct"; "Nov"; "Dec"])
  (Some ["January"; "February"; "March"; "April"; "May"; "June"; "July"; "August";
         "September"; "October"; "November"; "December"]).

(** [(settings ? settings.x : null) || this._defaults.x] for a list of names. *)
Definition names_of (get : settings -> option (list string)) (o : option settings) : list string :=
  match o ≫= get with Some l => l | None => default [] (get defaults) end.

(** [parseInt(s, 10)]: blanks, a sign, and the digits that follow. *)
Fixpoint leading_digits (s : string) : string :=
  match s with
  | String c s' => if is_digit c then String c (leading_digits s') else EmptyString
  | EmptyString => EmptyString
  end.

Definition parseInt (s : string) : option Z :=
  match skip_blanks s with
  | EmptyString => None
  | String c s' =>
      if Ascii.eqb c "-" then Z.opp <$> unsigned_number (leading_digits s')
      else if Ascii.eqb c "+" then unsigned_number (leading_digits s')
      else unsigned_number (leading_digits (String c s'))
  end.

(** [new Date()]. *)
Section now.
Context (now : Z) (tz : Z).

Definition cutoff_value (c : cutoff) : option Z :=
  match c with
  | CNum n => Some n
  | CStr s => (fun n => Z.rem (getFullYear now) 100 + n) <$> parseInt s
  end.

(** The cutoff [parseDate] compares with; [None] is [NaN].  A falsy one is replaced. *)
Definition short_cutoff (o : option settings) : option Z :=
  cutoff_value
    match o ≫= shortYearCutoff with
    | Some (CNum n) => if n =? 0 then CStr "+10" else CNum n
    | Some (CStr s) => if String.eqb s "" then CStr "+10" else CStr s
    | None => CStr "+10"
    end.

(** ** The loop over a format *)

Inductive token := Field (c : ascii) (doubled : bool) | Lit (c : ascii).

Definition quote : ascii := "'".
Definition is_field : ascii -> bool := is_in "dDomMy@!".

(** [ahead] are the letters that look for their double; [literal] is the flag of
    the loop. *)
Fixpoint scan (ahead : string) (literal : bool) (format : string) : list token :=
  match format with
  | EmptyString => []
  | String c f =>
      if Ascii.eqb c quote then
        match f with
        | String c' f' =>
            if Ascii.eqb c' quote then Lit quote :: scan ahead literal f'
            else scan ahead (negb literal) f
        | EmptyString => []
        end
      else if literal then Lit c :: scan ahead literal f
      else if is_field c then
        if is_in ahead c then
          match f with
          | String c' f' =>
              if Ascii.eqb c' c then Field c true :: scan ahead literal f'
              else Field c false :: scan ahead literal f
          | EmptyString => [Field c false]
          end
        else Field c false :: scan ahead literal f
      else Lit c :: scan ahead literal f
  end.

(** ** [_daylightSavingAdjust] and [_getDaysInMonth] *)

Definition daylightSavingAdjust (t : Z) : Z :=
  setHours (if 12 <? getHours t then getHours t + 2 else 0) t.

Definition getDaysInMonth (year month : Z) : Z :=
  32 - getDate (daylightSavingAdjust (new_date year month 32)).

Definition getFirstDayOfMonth (year month : Z) : Z := getDay (new_date year month 1).

Definition getTime (t : Z) : Z := t - tz.

Definition ticksTo1970 : Z :=
  ((1970 - 1) * 365 + 1970 / 4 - 1970 / 100 + 1970 / 400) * 24 * 60 * 60 * 10000000.

(** ** [formatDate] *)

Fixpoint pad_zeros (n : nat) (s : string) : string :=
  match n with O => s | S n' => String "0" (pad_zeros n' s) end.

Definition formatNumber (doubled : bool) (value : Z) (len : nat) : string :=
  let num := pretty value in
  if doubled then pad_zeros (len - String.length num) num else num.

Definition formatName (doubled : bool) (value : Z) (shortNames longNames : list string) : string :=
  default "undefined" (zlookup (if doubled then longNames else shortNames) value).

Definition day_of_year (t : Z) : Z :=
  (new_date (getFullYear t) (getMonth t) (getDate t) - new_date (getFullYear t) 0 0) / msPerDay.

Definition format_token (o : option settings) (date : Z) (k : token) : string :=
  match k with
  | Lit c => String c EmptyString
  | Field c doubled =>
      if Ascii.eqb c "d" then formatNumber doubled (getDate date) 2
      else if Ascii.eqb c "D" then
        formatName doubled (getDay date) (names_of dayNamesShort o) (names_of dayNames o)
      else if Ascii.eqb c "o" then formatNumber doubled (day_of_year date) 3
      else if Ascii.eqb c "m" then formatNumber doubled (getMonth date + 1) 2
      else if Ascii.eqb c "M" then
        formatName doubled (getMonth date) (names_of monthNamesShort o) (names_of monthNames o)
      else if Ascii.eqb c "y" then
        if doubled then pretty (getFullYear date)
        else let yy := Z.rem (getYear date) 100 in (if yy <? 10 then "0" else "") +:+ pretty yy
      else if Ascii.eqb c "@" then pretty (getTime date)
      else pretty (getTime date * 10000 + ticksTo1970)
  end.

Definition formatDate (format : string) (date : option Z) (o : option settings) : string :=
  match date with
  | None => EmptyString
  | Some date =>
      String.concat EmptyString (format_token o date <$> scan "dDomMy" false format)
  end.

(** ** [parseDate] *)

Inductive perror :=
  | MissingNumber (pos : nat) | UnknownName (pos : nat) | UnexpectedLiteral (pos : nat)
  | ExtraCharacters (s : string) | InvalidDate.
#[export] Instance perror_eq_dec : EqDecision perror.
Proof. solve_decision. Defined.

(** [Loops] is the endless loop over a day of the year [NaN]. *)
Inductive outcome (A : Type) := Ok (a : A) | Throw (e : perror) | Loops.
#[global] Arguments Ok {A}.
#[global] Arguments Throw {A}.
#[global] Arguments Loops {A}.

(** The variables of [parseDate]; [value] is what [iValue] has not passed, and
    [None] in a field is [NaN]. *)
Record pstate := mk_pstate {
  p_year : option Z; p_month : option Z; p_day : option Z; p_doy : Z;
  iValue : nat; value : string;
}.

#[export] Instance pstate_eta : Settable pstate := fun s =>
  mk_pstate (p_year s) (p_month s) (p_day s) (p_doy s) (iValue s) (value s).

Fixpoint span_digits (size : nat) (s : string) : string * string :=
  match size, s with
  | S n, String c s' =>
      if is_digit c then let '(a, b) := span_digits n s' in (String c a, b) else (EmptyString, s)
  | _, _ => (EmptyString, s)
  end.

Definition number_size (c : ascii) (doubled : bool) : nat :=
  if Ascii.eqb c "@" then 14 else if Ascii.eqb c "!" then 20
  else if Ascii.eqb c "y" && doubled then 4 else if Ascii.eqb c "o" then 3 else 2.

(** A number as a double: 53 significant bits, ties to even. *)
Definition fl (n : Z) : Z :=
  let e := Z.log2 (Z.abs n) - 52 in
  if e <=? 0 then n
  else
    let q := n / 2 ^ e in
    let r := n - q * 2 ^ e in
    (if (2 * r <? 2 ^ e) || (2 * r =? 2 ^ e) && Z.even q then q else q + 1) * 2 ^ e.

Definition getNumber (c : ascii) (doubled : bool) (s : pstate) : perror + Z * pstate :=
  let '(num, rest) := span_digits (number_size c doubled) (value s) in
  match unsigned_number num with
  | Some n => inr (fl n, s <| iValue := (iValue s + String.length num)%nat |> <| value := rest |>)
  | None => inl (MissingNumber (iValue s))
  end.

(** [names.sort(...)]: longest first, stable. *)
Fixpoint insert_name (p : Z * string) (l : list (Z * string)) : list (Z * string) :=
  match l with
  | [] => [p]
  | q :: l' =>
      if (String.length (snd q) <=? String.length (snd p))%nat then p :: q :: l'
      else q :: insert_name p l'
  end.
Definition sorted_names (names : list string) : list (Z * string) :=
  foldr insert_name [] (zip (zrange 0 (length names)) names).

Definition name_matches (v : string) (p : Z * string) : bool :=
  String.eqb (toLowerCase (String.substring 0 (String.length (snd p)) v)) (toLowerCase (snd p)).

Definition getName (names : list string) (s : pstate) : perror + Z * pstate :=
  match List.find (name_matches (value s)) (sorted_names names) with
  | Some (index, name) =>
      let n := String.length name in
      inr (index + 1, s <| iValue := (iValue s + n)%nat |>
                        <| value := String.substring n (String.length (value s) - n) (value s) |>)
  | None => inl (UnknownName (iValue s))
  end.

Definition checkLiteral (c : ascii) (s : pstate) : perror + pstate :=
  match value s with
  | String c' v =>
      if Ascii.eqb c' c then inr (s <| iValue := S (iValue s) |> <| value := v |>)
      else inl (UnexpectedLiteral (iValue s))
  | EmptyString => inl (UnexpectedLiteral (iValue s))
  end.

(** The fields of [new Date(ms)]; out of range they are [NaN]. *)
Definition set_time (ms : Z) (s : pstate) : pstate :=
  if Z.abs ms <=? 8640000000000000
  then let t := ms + tz in
       s <| p_year := Some (getFullYear t) |> <| p_month := Some (getMonth t + 1) |>
         <| p_day := Some (getDate t) |>
  else s <| p_year := None |> <| p_month := None |> <| p_day := None |>.

(** [e >>= f] on errors. *)
Definition ebind {A B} (e : perror + A) (f : A -> perror + B) : perror + B :=
  match e with inl e => inl e | inr a => f a end.

Definition parse_token (o : option settings) (k : token) (s : pstate) : perror + pstate :=
  match k with
  | Lit c => checkLiteral c s
  | Field c b =>
      if Ascii.eqb c "d" then ebind (getNumber c b s) (fun '(n, s) => inr (s <| p_day := Some n |>))
      else if Ascii.eqb c "D" then
        ebind (getName (if b then names_of dayNames o else names_of dayNamesShort o) s)
          (fun '(_, s) => inr s)
      else if Ascii.eqb c "o" then ebind (getNumber c b s) (fun '(n, s) => inr (s <| p_doy := n |>))
      else if Ascii.eqb c "m" then
        ebind (getNumber c b s) (fun '(n, s) => inr (s <| p_month := Some n |>))
      else if Ascii.eqb c "M" then
        ebind (getName (if b then names_of monthNames o else names_of monthNamesShort o) s)
          (fun '(n, s) => inr (s <| p_month := Some n |>))
      else if Ascii.eqb c "y" then
        ebind (getNumber c b s) (fun '(n, s) => inr (s <| p_year := Some n |>))
      else if Ascii.eqb c "@" then ebind (getNumber c b s) (fun '(n, s) => inr (set_time n s))
      else ebind (getNumber c b s)
             (fun '(n, s) => inr (set_time (Z.quot (fl (n - ticksTo1970)) 10000) s))
  end.

Fixpoint parse_tokens (o : option settings) (ks : list token) (s : pstate) : perror + pstate :=
  match ks with
  | [] => inr s
  | k :: ks => ebind (parse_token o k s) (parse_tokens o ks)
  end.

(** [year += ...] for a year of two digits. *)
Definition expand_year (cut : option Z) (year : Z) : Z :=
  if year =? -1 then getFullYear now
  else if year <? 100 then
    year + (getFullYear now - Z.rem (getFullYear now) 100
            + (if match cut with Some c => year <=? c | None => false end then 0 else -100))
  else year.

(** The loop that turns a day of the year into a month and a day. *)
Fixpoint doy_loop (fuel : nat) (year month day : Z) : option (Z * Z) :=
  match fuel with
  | O => None
  | S n =>
      let dim := getDaysInMonth year (month - 1) in
      if day <=? dim then Some (month, day) else doy_loop n year (month + 1) (day - dim)
  end.

Definition finish_date (year month day : Z) : outcome (option Z) :=
  let date := daylightSavingAdjust (new_date year (month - 1) day) in
  if negb (getFullYear date =? year) || negb (getMonth date + 1 =? month)
     || negb (getDate date =? day)
  then Throw InvalidDate else Ok (Some date).

(** 999 days are fewer than 36 months. *)
Definition finish (cut : option Z) (s : pstate) : outcome (option Z) :=
  match expand_year cut <$> p_year s with
  | None => if -1 <? p_doy s then Loops else Throw InvalidDate
  | Some year =>
      if -1 <? p_doy s then
        match doy_loop 40 year 1 (p_doy s) with
        | Some (month, day) => finish_date year month day
        | None => Loops
        end
      else match p_month s, p_day s with
           | Some month, Some day => finish_date year month day
           | _, _ => Throw InvalidDate
           end
  end.

Definition starts_blank (s : string) : bool :=
  match s with String c _ => is_blank c | EmptyString => false end.

Definition parseDate (format v : string) (o : option settings) : outcome (option Z) :=
  if String.eqb v "" then Ok None
  else match parse_tokens o (scan "dDomMy@!" false format)
               (mk_pstate (Some (-1)) (Some (-1)) (Some (-1)) (-1) 0 v) with
       | inl e => Throw e
       | inr s =>
           if negb (String.eqb (value s) "") && negb (starts_blank (value s))
           then Throw (ExtraCharacters (value s)) else finish (short_cutoff o) s
       end.

(** ** [_possibleChars] *)

(** [None] accepts anything. *)
Fixpoint possible (ks : list token) : option string :=
  match ks with
  | [] => Some EmptyString
  | Lit c :: ks => String c <$> possible ks
  | Field c _ :: ks =>
      if is_in "dmy@" c then String.append "0123456789" <$> possible ks
      else if is_in "DM" c then None
      else String c <$> possible ks
  end.
Definition possibleChars (format : string) : option string := possible (scan "" false format).

(** [noWeekends] and [iso8601Week]. *)
Definition noWeekends (date : Z) : bool := (0 <? getDay date) && (getDay date <? 6).

Definition iso8601Week (date : Z) : Z :=
  let d := if getDay date =? 0 then 7 else getDay date in
  let checkDate := setDate (getDate date + 4 - d) date in
  let time := checkDate in
  let checkDate := setDate 1 (setMonth 0 checkDate) in
  (time - checkDate) / msPerDay / 7 + 1.
End now.

Example parse_iso : parseDate 1700000000000 0 "yy-mm-dd" "2020-02-29" None = Ok (Some (18321 * msPerDay)).
Proof. vm_compute. reflexivity. Qed.
Example parse_feb30 : parseDate 1700000000000 0 "yy-mm-dd" "2021-02-29" None = Throw InvalidDate.
Proof. vm_compute. reflexivity. Qed.
Example parse_cookie : parseDate 1700000000000 0 "DD, d MM 'of' yy" "Saturday, 29 february of 2020" None
  = Ok (Some (18321 * msPerDay)).
Proof. vm_compute. reflexivity. Qed.
Example format_cookie : formatDate 0 "DD, dd-M-y 'o''c' oo @" (Some (18321 * msPerDay)) None
  = "Saturday, 29-Feb-20 o'c 060 1582934400000"%string.
Proof. vm_compute. reflexivity. Qed.
Example week1 : iso8601Week (18262 * msPerDay) = 1. Proof. vm_compute. reflexivity. Qed.
