(* ===== verification/DpParse.v ===== *)
(** * Datepicker formats: parsing inverts formatting

    The lemmas follow [parseDate] directive by directive over the text
    [formatDate] writes; the properties are the round trip, the calendar check and
    the termination of the loop over a day of the year. *)

From S2P Require Export DpFormat.

(** ** Constructed dates *)

Lemma daylightSavingAdjust_midnight d : daylightSavingAdjust (d * msPerDay) = d * msPerDay.
Proof.
  unfold daylightSavingAdjust, setHours, getHours. rewrite Day_of_midnight.
  unfold TimeWithinDay. rewrite Z.mod_mul by done.
  change (0 / 3600000) with 0. change (0 mod 3600000) with 0. change (12 <? 0) with false. cbv iota. lia.
Qed.

Lemma new_date_midnight y m dt : exists d, new_date y m dt = d * msPerDay.
Proof. by eexists. Qed.

Lemma dsa_new_date y m dt : daylightSavingAdjust (new_date y m dt) = new_date y m dt.
Proof. apply daylightSavingAdjust_midnight. Qed.

(** The years the constructor takes as they are. *)
Definition plain_year (y : Z) : Prop := y < 0 \/ 100 <= y.

Lemma new_date_plain y m dt : plain_year y -> new_date y m dt = MakeDay y m dt * msPerDay.
Proof. intros H. unfold new_date. rewrite if_false; [done|]. destruct H; lia. Qed.

Lemma fields_new_date y m dt :
  plain_year y -> civil y m dt ->
  let t := new_date y m dt in getFullYear t = y /\ getMonth t = m /\ getDate t = dt.
Proof.
  intros Hy Hc t. apply fields_MakeDay; [done|]. unfold t. rewrite new_date_plain by done.
  apply Day_of_midnight.
Qed.

Lemma new_date_fields d :
  plain_year (getFullYear (d * msPerDay)) ->
  new_date (getFullYear (d * msPerDay)) (getMonth (d * msPerDay)) (getDate (d * msPerDay))
  = d * msPerDay.
Proof. intros Hy. by rewrite new_date_plain, MakeDay_fields, Day_of_midnight. Qed.

Lemma MakeDay_norm y m dt : MakeDay y m dt = MakeDay (y + m / 12) (m mod 12) dt.
Proof.
  pose proof (Z.mod_pos_bound m 12). rewrite (MakeDay_civil _ (m mod 12)) by lia. done.
Qed.

(** Day 32 of a month is one of the first of the next. *)
Lemma getDaysInMonth_spec y m :
  plain_year y -> getDaysInMonth y m = month_length (y + m / 12) (m mod 12).
Proof.
  intros Hy. unfold getDaysInMonth. rewrite dsa_new_date, new_date_plain, MakeDay_norm by done.
  set (ym := y + m / 12). set (mn := m mod 12).
  assert (0 <= mn < 12) as Hmn by (apply Z.mod_pos_bound; lia). clearbody ym mn.
  pose proof (month_length_bounds ym mn Hmn) as Hl.
  set (t := MakeDay ym mn 32 * msPerDay).
  assert (Day t = DayFromYear ym + MonthStart ym mn + 31) as Ht.
  { unfold t. rewrite Day_of_midnight, MakeDay_civil; lia. }
  destruct (decide (mn = 11)) as [->|Hne].
  - destruct (fields_MakeDay (ym + 1) 0 (32 - month_length ym 11) t) as (_ & _ & ->); [| |lia].
    + split; [lia|]. change (month_length (ym + 1) 0) with 31. lia.
    + rewrite Ht, MakeDay_civil by lia. rewrite DayFromYear_step, <- MonthStart_12, MonthStart_0.
      unfold month_length. change (11 + 1) with 12. lia.
  - destruct (fields_MakeDay ym (mn + 1) (32 - month_length ym mn) t) as (_ & _ & ->); [| |lia].
    + split; [lia|]. pose proof (month_length_bounds ym (mn + 1)). lia.
    + rewrite Ht, MakeDay_civil by lia. unfold month_length. lia.
Qed.

Lemma getDaysInMonth_month y m :
  plain_year y -> 0 <= m < 12 -> getDaysInMonth y m = month_length y m.
Proof. intros Hy Hm. by rewrite getDaysInMonth_spec, Z.div_small, Z.mod_small, Z.add_0_r. Qed.

Lemma getDaysInMonth_bounds y m : 28 <= getDaysInMonth y m <= 31.
Proof.
  assert (forall y' m', plain_year y' -> getDaysInMonth y m = getDaysInMonth y' m' ->
    28 <= getDaysInMonth y m <= 31) as H.
  { intros y' m' Hy ->. rewrite getDaysInMonth_spec by done.
    apply month_length_bounds, Z.mod_pos_bound. lia. }
  destruct (decide (0 <= y <= 99)) as [Hy|Hy].
  - apply (H (1900 + y) m); [right; lia|]. unfold getDaysInMonth, new_date.
    rewrite if_true, if_false by lia. done.
  - apply (H y m); [unfold plain_year; lia|done].
Qed.

Lemma finish_date_ok y m dt :
  plain_year y -> civil y (m - 1) dt -> finish_date y m dt = Ok (Some (new_date y (m - 1) dt)).
Proof.
  intros Hy Hc. unfold finish_date. rewrite dsa_new_date.
  destruct (fields_new_date y (m - 1) dt) as (-> & -> & ->); [done..|].
  rewrite !Z.eqb_refl. replace (m - 1 + 1 =? m) with true by lia. done.
Qed.

(** ** Days of the year *)

Lemma day_of_year_spec d :
  plain_year (getFullYear (d * msPerDay)) -> day_of_year (d * msPerDay) = DayWithinYear d + 1.
Proof.
  intros Hy. unfold day_of_year. rewrite new_date_fields by done.
  rewrite new_date_plain, MakeDay_civil, MonthStart_0 by (done || lia).
  unfold getFullYear. rewrite Day_of_midnight. unfold DayWithinYear.
  rewrite <- Z.mul_sub_distr_r, Z.div_mul by done. lia.
Qed.

Lemma doy_loop_spec n y m doy :
  plain_year y -> 0 <= doy < DaysInYear y -> 0 <= m <= month_of y doy ->
  (Z.to_nat (month_of y doy - m) < n)%nat ->
  doy_loop n y (m + 1) (doy + 1 - MonthStart y m)
  = Some (month_of y doy + 1, doy + 1 - MonthStart y (month_of y doy)).
Proof.
  intros Hy Hdoy. destruct (month_of_spec y doy Hdoy) as [Hb Hs].
  revert m. induction n as [|n IH]; intros m Hm Hn; [lia|]. cbn [doy_loop].
  replace (m + 1 - 1) with m by lia.
  rewrite getDaysInMonth_month by (done || lia). unfold month_length.
  destruct (decide (m = month_of y doy)) as [->|Hne].
  - rewrite if_true by lia. done.
  - pose proof (MonthStart_mono y (m + 1) (month_of y doy)).
    rewrite if_false by lia. rewrite <- (IH (m + 1)) by lia. f_equal. lia.
Qed.

Lemma doy_loop_S n y m day :
  doy_loop (S n) y m day =
  if day <=? getDaysInMonth y (m - 1) then Some (m, day)
  else doy_loop n y (m + 1) (day - getDaysInMonth y (m - 1)).
Proof. done. Qed.

(** The loop ends for every number of three digits. *)
Lemma doy_loop_ends n y m day :
  day <= 28 * Z.of_nat n -> exists r, doy_loop (S n) y m day = Some r.
Proof.
  revert m day. induction n as [|n IH]; intros m day Hd; rewrite doy_loop_S;
    pose proof (getDaysInMonth_bounds y (m - 1)); destruct (Z.leb_spec day (getDaysInMonth y (m - 1)));
    eauto; [lia|]. apply IH. lia.
Qed.

(** ** Numbers *)

Fixpoint all_digits (s : string) : bool :=
  match s with EmptyString => true | String c s' => is_digit c && all_digits s' end.

Definition starts_digit (s : string) : bool :=
  match s with String c _ => is_digit c | EmptyString => false end.

Lemma concat_cons x l : String.concat EmptyString (x :: l) = x +:+ String.concat EmptyString l.
Proof. destruct l; cbn; [by rewrite app_string_nil_r|done]. Qed.

Lemma span_digits_app p r n :
  all_digits p = true -> (String.length p <= n)%nat ->
  String.length p = n \/ starts_digit r = false -> span_digits n (p +:+ r) = (p, r).
Proof.
  revert n. induction p as [|c p IH]; intros n Hp Hn Hor.
  - rewrite app_string_nil_l. destruct n, r; cbn in *; try done; destruct Hor; try done.
    by rewrite H.
  - cbn in Hp, Hn, Hor. apply andb_true_iff in Hp as [Hc Hp]. destruct n as [|n]; [lia|].
    rewrite app_string_cons. cbn. rewrite Hc, IH; [done|done|lia|]. destruct Hor; [left; lia|by right].
Qed.

(** Numerals of at most [len] digits, and padded to [len]. *)
Definition numeral_ok (len : nat) (n : Z) : bool :=
  let p := pretty n in let q := pad_zeros (len - String.length p) p in
  all_digits p && bool_decide (unsigned_number p = Some n) && (String.length p <=? len)%nat &&
  all_digits q && bool_decide (unsigned_number q = Some n) && (String.length q =? len)%nat.

Lemma numerals2 : forallb (numeral_ok 2) (zrange 0 100) = true.
Proof. vm_compute. reflexivity. Qed.
Lemma numerals3 : forallb (numeral_ok 3) (zrange 0 1000) = true.
Proof. vm_compute. reflexivity. Qed.
Lemma numerals4 : forallb (numeral_ok 4) (zrange 0 10000) = true.
Proof. vm_compute. reflexivity. Qed.
Lemma long_years : forallb (fun n => String.length (pretty n) =? 4)%nat (zrange 1000 9000) = true.
Proof. vm_compute. reflexivity. Qed.

Lemma numeral_spec len n :
  forallb (numeral_ok len) (zrange 0 (10 ^ len)) = true -> 0 <= n < Z.of_nat (10 ^ len) ->
  forall b, all_digits (formatNumber b n len) = true /\
    unsigned_number (formatNumber b n len) = Some n /\
    (String.length (formatNumber b n len) <= len)%nat /\
    (b = true -> String.length (formatNumber b n len) = len).
Proof.
  intros Hall Hn b. rewrite forallb_forall in Hall.
  assert (numeral_ok len n = true) as H.
  { apply Hall. rewrite <- list_elem_of_In. apply elem_of_zrange. lia. }
  unfold numeral_ok in H. rewrite !andb_true_iff, !bool_decide_eq_true in H.
  destruct H as [[[[[H1 H2] H3] H4] H5] H6].
  apply Nat.leb_le in H3. apply Nat.eqb_eq in H6. unfold formatNumber. destruct b.
  - split_and!; [done..|lia|done].
  - split_and!; [done..|by intros].
Qed.

Lemma fl_small n : 0 <= n < 10000 -> fl n = n.
Proof.
  intros H. unfold fl. rewrite if_true; [done|].
  assert (Z.log2 (Z.abs n) <= Z.log2 10000) by (apply Z.log2_le_mono; lia).
  change (Z.log2 10000) with 13 in *. lia.
Qed.

(** [getNumber] reads a numeral back. *)
Lemma getNumber_numeral c b p n r s :
  value s = p +:+ r -> all_digits p = true -> unsigned_number p = Some n -> 0 <= n < 10000 ->
  (String.length p <= number_size c b)%nat ->
  String.length p = number_size c b \/ starts_digit r = false ->
  getNumber c b s = inr (n, s <| iValue := (iValue s + String.length p)%nat |> <| value := r |>).
Proof.
  intros Hv Hp Hn Hb Hlen Hor. unfold getNumber. rewrite Hv, span_digits_app by done.
  by rewrite Hn, fl_small.
Qed.

(** ** Names *)

Lemma toLowerCase_length s : String.length (toLowerCase s) = String.length s.
Proof. induction s; cbn; congruence. Qed.

(** Two names that match the same text: one begins with the other. *)
Lemma match_prefix a b r :
  toLowerCase (String.substring 0 (String.length b) (a +:+ r)) = toLowerCase b ->
  String.prefix (toLowerCase a) (toLowerCase b) = true \/
  String.prefix (toLowerCase b) (toLowerCase a) = true.
Proof.
  revert b. induction a as [|c a IH]; intros b H; [left; by destruct (toLowerCase b)|].
  destruct b as [|c' b]; [by right|]. rewrite app_string_cons in H. cbn in H.
  injection H as Hc H. cbn. rewrite Hc. destruct (ascii_dec _ _); [|done]. by apply IH.
Qed.

Lemma substring_append a r : String.substring 0 (String.length a) (a +:+ r) = a.
Proof. induction a as [|c a IH]; [by destruct r|]. rewrite app_string_cons. cbn. by rewrite IH. Qed.

(** No name begins with another one, whatever the case of the letters. *)
Definition prefix_free (names : list string) : bool :=
  let l := zip (zrange 0 (length names)) names in
  forallb (fun p => forallb (fun q =>
    negb (String.prefix (toLowerCase (snd p)) (toLowerCase (snd q))) || (fst p =? fst q)) l) l.

Lemma insert_name_perm p l : insert_name p l ≡ₚ p :: l.
Proof.
  induction l as [|q l IH]; [done|]. cbn. case_match; [done|]. rewrite IH. constructor.
Qed.

Lemma sorted_names_perm names : sorted_names names ≡ₚ zip (zrange 0 (length names)) names.
Proof.
  unfold sorted_names. induction (zip _ _) as [|p l IH]; [done|]. cbn.
  by rewrite insert_name_perm, IH.
Qed.

Lemma numbered_elem (names : list string) k name :
  (k, name) ∈ zip (zrange 0 (length names)) names <-> zlookup names k = Some name.
Proof.
  rewrite list_elem_of_lookup, zlookup_Some. setoid_rewrite lookup_zip_Some.
  setoid_rewrite zrange_lookup. split.
  - intros (i & [_ ->] & Hi). by rewrite Z.add_0_l, Nat2Z.id; split; [lia|].
  - intros [Hk Hl]. exists (Z.to_nat k). split_and!; [by eapply lookup_lt_Some|lia|done].
Qed.

Lemma find_unique {A} (f : A -> bool) l x :
  x ∈ l -> f x = true -> (forall y, y ∈ l -> f y = true -> y = x) -> List.find f l = Some x.
Proof.
  intros Hx Hfx Hu. destruct (List.find f l) as [y|] eqn:E.
  - apply List.find_some in E as [Hy Hfy]. f_equal. apply Hu; [by apply list_elem_of_In|done].
  - pose proof (List.find_none _ _ E x). rewrite <- list_elem_of_In in H. by rewrite H in Hfx.
Qed.

Lemma getName_name names k name r s :
  prefix_free names = true -> zlookup names k = Some name -> value s = name +:+ r ->
  getName names s = inr (k + 1, s <| iValue := (iValue s + String.length name)%nat |> <| value := r |>).
Proof.
  intros Hfree Hk Hv. unfold getName.
  rewrite (find_unique _ _ (k, name)).
  - by rewrite Hv, substring_after.
  - by rewrite sorted_names_perm, numbered_elem.
  - unfold name_matches. cbn. by rewrite Hv, substring_append, String.eqb_refl.
  - intros [j other]. rewrite sorted_names_perm, numbered_elem. intros Hj Hm.
    unfold name_matches in Hm. cbn in Hm. rewrite Hv in Hm. apply String.eqb_eq, match_prefix in Hm.
    unfold prefix_free in Hfree. rewrite forallb_forall in Hfree.
    setoid_rewrite forallb_forall in Hfree. setoid_rewrite <- list_elem_of_In in Hfree.
    assert (j = k) as ->; [|congruence].
    destruct Hm as [Hm|Hm];
      [specialize (Hfree (k, name) ltac:(by apply numbered_elem) (j, other) ltac:(by apply numbered_elem))
      |specialize (Hfree (j, other) ltac:(by apply numbered_elem) (k, name) ltac:(by apply numbered_elem))];
      cbn in Hfree; rewrite Hm in Hfree; cbn in Hfree; lia.
Qed.

(** ** The round trip *)

(** The text after a numeral of variable width must not go on with a digit. *)
Definition nondigit_next (ks : list token) : bool :=
  match ks with [] => true | Lit c :: _ => negb (is_digit c) | Field _ _ :: _ => false end.

(** The formats whose text determines the values of the directives. *)
Fixpoint reversible (ks : list token) : bool :=
  match ks with
  | [] => true
  | Lit _ :: ks => reversible ks
  | Field c b :: ks =>
      (if is_in "dmo" c then b || nondigit_next ks else is_in "yDM" c) && reversible ks
  end.

Definition has (cs : string) (ks : list token) : bool :=
  existsb (fun k => match k with Field c _ => is_in cs c | Lit _ => false end) ks.

(** The formats that name a day. *)
Definition determined (ks : list token) : bool :=
  has "y" ks && (has "o" ks || (has "d" ks && has "mM" ks)).

Definition has_short_year (ks : list token) : bool :=
  existsb (fun k => match k with Field c false => Ascii.eqb c "y" | _ => false end) ks.

#[global] Arguments has : simpl never.
#[global] Arguments has_short_year : simpl never.

Lemma has_field cs c b ks : has cs (Field c b :: ks) = is_in cs c || has cs ks.
Proof. done. Qed.

Lemma has_short_field c b ks :
  has_short_year (Field c b :: ks) = (negb b && Ascii.eqb c "y") || has_short_year ks.
Proof. by destruct b. Qed.

Lemma has_short_cons k ks : has_short_year (k :: ks) = has_short_year [k] || has_short_year ks.
Proof. unfold has_short_year. cbn [existsb]. by rewrite orb_false_r. Qed.

Lemma scan_more_letters f lit :
  reversible (scan "dDomMy" lit f) = true -> scan "dDomMy@!" lit f = scan "dDomMy" lit f.
Proof.
  assert (forall n f lit, (String.length f <= n)%nat ->
    reversible (scan "dDomMy" lit f) = true -> scan "dDomMy@!" lit f = scan "dDomMy" lit f) as H;
    [|by apply (H (String.length f))].
  clear f lit. induction n as [|n IH]; intros [|c f] lit Hn Hr; cbn in Hn; try done; [lia|].
  cbn [scan] in Hr |- *.
  assert (forall c b l, reversible (Field c b :: l) = true -> reversible l = true) as Hf
    by (intros ??? [_ ?]%andb_true_iff; done).
  assert (forall lit, reversible (scan "dDomMy" lit f) = true ->
    scan "dDomMy@!" lit f = scan "dDomMy" lit f) as IHf by (intros; apply IH; [lia|done]).
  destruct (Ascii.eqb c quote).
  - destruct f as [|c' f']; [done|]. cbn in Hn.
    destruct (Ascii.eqb c' quote); [f_equal; apply IH; [lia|done]|by apply IHf].
  - destruct lit; [f_equal; by apply IHf|].
    destruct (is_field c) eqn:Hc; [|f_equal; by apply IHf].
    destruct (is_in "dDomMy" c) eqn:Ha.
    + replace (is_in "dDomMy@!" c) with true
        by (symmetry; cbn in Ha |- *; repeat (apply orb_true_iff in Ha as [->|Ha];
              [by rewrite ?orb_true_r|]); done).
      destruct f as [|c' f']; [done|]. cbn in Hn.
      destruct (Ascii.eqb c' c); (f_equal; [..|]); [apply IH; [lia|]|apply IHf]; by eapply Hf.
    + exfalso. cbn in Hr. apply andb_true_iff in Hr as [Hr _].
      cbn in Ha. rewrite !orb_false_iff in Ha.
      destruct Ha as (H1 & H2 & H3 & H4 & H5 & H6 & _).
      by rewrite H1, H2, H3, H4, H5, H6 in Hr.
Qed.

Section directives.
Context (Y YY M D O : Z).

(** The values a directive sets. *)
Definition assign_to (k : token) (s : pstate) : pstate :=
  match k with
  | Lit _ => s
  | Field c b =>
      if Ascii.eqb c "d" then s <| p_day := Some (D) |>
      else if Ascii.eqb c "D" then s
      else if Ascii.eqb c "o" then s <| p_doy := O |>
      else if is_in "mM" c then s <| p_month := Some (M) |>
      else s <| p_year := Some (if b then Y else YY) |>
  end.

Lemma reversible_field c b ks : reversible (Field c b :: ks) = true ->
  (c = "d"%char \/ c = "m"%char \/ c = "o"%char) /\ (b = true \/ nondigit_next ks = true) \/
  c = "y"%char \/ c = "D"%char \/ c = "M"%char.
Proof.
  cbn. intros [H _]%andb_true_iff.
  destruct (Ascii.eqb_spec c "d"), (Ascii.eqb_spec c "m"), (Ascii.eqb_spec c "o");
    cbn in H; try (left; split; [tauto|by apply orb_true_iff in H]).
  rewrite !orb_true_iff, !Ascii.eqb_eq in H. naive_solver.
Qed.

(** What the directives [ks] leave in the variables. *)
Record filled_to (ks : list token) (s s' : pstate) : Prop := {
  f_year : (has "y" ks = false /\ p_year s' = p_year s) \/ p_year s' = Some (Y) \/
           (has_short_year ks = true /\ p_year s' = Some (YY));
  f_month : p_month s' = if has "mM" ks then Some (M) else p_month s;
  f_day : p_day s' = if has "d" ks then Some (D) else p_day s;
  f_doy : p_doy s' = if has "o" ks then O else p_doy s;
}.

Lemma filled_cons k ks s s' :
  reversible (k :: ks) = true -> filled_to ks (assign_to k s) s' -> filled_to (k :: ks) s s'.
Proof.
  intros Hr [Hy Hm Hd Ho]. destruct k as [c b|c]; [|by split].
  destruct (reversible_field _ _ _ Hr) as [[[->|[->| ->]] _]|[->|[->| ->]]];
    split; rewrite ?has_field, ?has_short_field; cbn in Hy, Hm, Hd, Ho |- *;
    rewrite ?andb_false_r; cbn [orb];
    try (exact Hy || rewrite Hm || rewrite Hd || rewrite Ho); try (by repeat case_match).
  right. destruct Hy as [[_ Hy]|[Hy|[Hs Hy]]].
  - rewrite Hy. destruct b; [by left|by right].
  - by left.
  - right. split; [|done]. by destruct b.
Qed.

End directives.

Section roundtrip.
Context (now tz : Z) (o : option settings) (t : Z) (Hmid : t = Day t * msPerDay).

Context (Hyear : 1000 <= getFullYear t <= 9999).
Context (Hdays : forall b : bool,
  let l := if b then names_of dayNames o else names_of dayNamesShort o in
  length l = 7%nat /\ prefix_free l = true).
Context (Hmonths : forall b : bool,
  let l := if b then names_of monthNames o else names_of monthNamesShort o in
  length l = 12%nat /\ prefix_free l = true).

Abbreviation assign := (assign_to (getFullYear t) (Z.rem (getYear t) 100) (getMonth t + 1)
  (getDate t) (day_of_year t)).
Abbreviation filled := (filled_to (getFullYear t) (Z.rem (getYear t) 100) (getMonth t + 1)
  (getDate t) (day_of_year t)).

(** [s] after it has read [p] and is left with [r]. *)
Definition advance (p r : string) (s : pstate) : pstate :=
  s <| iValue := (iValue s + String.length p)%nat |> <| value := r |>.

Lemma format_name_lookup (l : list string) n i b (x y : list string) :
  length l = n -> 0 <= i < Z.of_nat n -> (if b : bool then y else x) = l ->
  zlookup l i = Some (formatName b i x y).
Proof.
  intros Hl Hi <-. unfold formatName. destruct (zlookup_is_Some (if b then y else x) i) as [v Hv].
  { by rewrite Hl. }
  by rewrite Hv.
Qed.

Lemma day_of_year_bounds : 1 <= day_of_year t <= 366.
Proof.
  pose proof (YearFromDay_spec (Day t)) as H. rewrite DayFromYear_step in H.
  pose proof (DaysInYear_bounds (YearFromDay (Day t))).
  rewrite Hmid in Hyear |- *. rewrite day_of_year_spec by (right; lia).
  unfold DayWithinYear. lia.
Qed.

(** [getNumber] on the text of a directive. *)
Lemma parse_number c b len n r s :
  value s = formatNumber b n len +:+ r ->
  forallb (numeral_ok len) (zrange 0 (10 ^ len)) = true -> 0 <= n < Z.of_nat (10 ^ len) ->
  n < 10000 -> number_size c b = len -> b = true \/ starts_digit r = false ->
  getNumber c b s = inr (n, advance (formatNumber b n len) r s).
Proof.
  intros Hv Hall Hn Hn' Hsz Hor. destruct (numeral_spec len n Hall Hn b) as (H1 & H2 & H3 & H4).
  apply getNumber_numeral; [done..|lia|by rewrite Hsz|]. destruct Hor as [->|]; [left|by right].
  rewrite Hsz. by apply H4.
Qed.

Lemma nondigit_format ks : nondigit_next ks = true ->
  starts_digit (String.concat EmptyString (format_token tz o t <$> ks)) = false.
Proof.
  destruct ks as [|[c b|c] ks]; intros H; [done|done|]. cbn in H.
  rewrite fmap_cons, concat_cons. cbn [format_token]. rewrite app_string_cons. cbn.
  by apply negb_true_iff.
Qed.

Lemma names_field (b : bool) (i : Z) (n : nat) (x y : list string) r s :
  (let l := if b then y else x in length l = n /\ prefix_free l = true) ->
  0 <= i < Z.of_nat n ->
  value s = formatName b i x y +:+ r ->
  getName (if b then y else x) s = inr (i + 1, advance (formatName b i x y) r s).
Proof.
  intros [Hl Hf] Hi Hv. apply getName_name; [done| |done].
  by eapply format_name_lookup.
Qed.

Lemma getMonth_bounds : 0 <= getMonth t < 12.
Proof. apply fields_civil. Qed.

Lemma getDate_bounds : 1 <= getDate t <= 31.
Proof.
  destruct (fields_civil t) as [Hm Hd]. pose proof (month_length_bounds (getFullYear t) _ Hm). lia.
Qed.

Lemma short_year_bounds : 1900 <= getFullYear t -> 0 <= Z.rem (getYear t) 100 < 100.
Proof. intros H. unfold getYear. apply Z.rem_bound_pos; lia. Qed.

(** The text of a two-digit year is a padded numeral. *)
Lemma short_year_format (y : Z) : 0 <= y < 100 ->
  ((if (y <? 10)%Z then "0" else "") +:+ pretty y)%string = formatNumber true y 2.
Proof.
  intros Hy. destruct (numeral_spec 2 y numerals2 Hy false) as (_ & _ & Hl & _).
  destruct (numeral_spec 2 y numerals2 Hy true) as (_ & _ & _ & Ht).
  assert (forallb (fun n : Z => (String.length (pretty n) =? if (n <? 10)%Z then 1 else 2)%nat) (zrange 0 100) = true)
    as Hall by (vm_compute; reflexivity).
  rewrite forallb_forall in Hall. specialize (Hall y).
  rewrite <- list_elem_of_In, elem_of_zrange in Hall. specialize (Hall ltac:(lia)).
  apply Nat.eqb_eq in Hall. unfold formatNumber. rewrite Hall. by destruct (y <? 10).
Qed.

Lemma parse_format_token k ks s :
  reversible (k :: ks) = true ->
  (has_short_year [k] = true -> 1900 <= getFullYear t) ->
  let r := String.concat EmptyString (format_token tz o t <$> ks) in
  value s = format_token tz o t k +:+ r ->
  parse_token tz o k s = inr (assign k (advance (format_token tz o t k) r s)).
Proof.
  intros Hrev Hshort r Hv. destruct k as [c b|c].
  2:{ cbn [parse_token format_token] in *. unfold checkLiteral. rewrite Hv, app_string_cons, app_string_nil_l.
      rewrite Ascii.eqb_refl. unfold advance. cbn. by rewrite Nat.add_1_r. }
  assert (nondigit_next ks = true -> starts_digit r = false) as Hnext by apply nondigit_format.
  pose proof getMonth_bounds. pose proof getDate_bounds. pose proof day_of_year_bounds.
  apply reversible_field in Hrev as [[Hc Hor]|Hc].
  - assert (b = true \/ starts_digit r = false) as Hor' by tauto.
    destruct Hc as [->|[->| ->]]; cbn [parse_token format_token Ascii.eqb Bool.eqb] in *.
    + erewrite parse_number; [reflexivity|exact Hv|apply numerals2|change (Z.of_nat (10 ^ 2)) with 100; lia|lia|done|done].
    + erewrite parse_number; [reflexivity|exact Hv|apply numerals2|change (Z.of_nat (10 ^ 2)) with 100; lia|lia|done|done].
    + erewrite parse_number; [reflexivity|exact Hv|apply numerals3|change (Z.of_nat (10 ^ 3)) with 1000; lia|lia|done|done].
  - destruct Hc as [->|[->| ->]]; cbn [parse_token format_token Ascii.eqb Bool.eqb] in *.
    + destruct b.
      * change (pretty (getFullYear t)) with (formatNumber false (getFullYear t) 4) in *.
        pose proof long_years as Hl. rewrite forallb_forall in Hl. specialize (Hl (getFullYear t)).
        rewrite <- list_elem_of_In, elem_of_zrange in Hl.
        change (1000 + Z.of_nat 9000) with 10000 in Hl. specialize (Hl ltac:(lia)).
        apply Nat.eqb_eq in Hl.
        destruct (numeral_spec 4 (getFullYear t) numerals4
          ltac:(change (Z.of_nat (10 ^ 4)) with 10000; lia) false) as (N1 & N2 & N3 & _).
        erewrite getNumber_numeral; [reflexivity|exact Hv|exact N1|exact N2|lia|exact N3|by left].
      * specialize (Hshort eq_refl). pose proof (short_year_bounds Hshort) as Hy.
        cbv zeta in *. rewrite short_year_format in * by done.
        destruct (numeral_spec 2 _ numerals2 Hy true) as (N1 & N2 & _ & N4). specialize (N4 eq_refl).
        erewrite getNumber_numeral; [reflexivity|exact Hv|exact N1|exact N2|lia|by rewrite N4|by left].
    + erewrite (names_field b _ 7); [reflexivity|apply Hdays| |exact Hv].
      apply Z.mod_pos_bound. lia.
    + erewrite (names_field b _ 12); [reflexivity|apply Hmonths|cbn; lia|exact Hv].
Qed.

Lemma parse_tokens_format ks s :
  reversible ks = true -> (has_short_year ks = true -> 1900 <= getFullYear t) ->
  value s = String.concat EmptyString (format_token tz o t <$> ks) ->
  exists s', parse_tokens tz o ks s = inr s' /\ value s' = EmptyString /\ filled ks s s'.
Proof.
  revert s. induction ks as [|k ks IH]; intros s Hrev Hshort Hv.
  { exists s. split_and!; [done..|]. split; auto. }
  rewrite fmap_cons, concat_cons in Hv.
  destruct (IH (assign k (advance (format_token tz o t k)
    (String.concat EmptyString (format_token tz o t <$> ks)) s))) as (s' & Hs' & Hv' & Hf).
  - destruct k; cbn in Hrev; [by apply andb_true_iff in Hrev as [_ ?]|done].
  - intros H. apply Hshort. by rewrite has_short_cons, H, orb_true_r.
  - destruct k; [|done]. unfold assign_to. by repeat case_match.
  - exists s'. cbn [parse_tokens]. rewrite (parse_format_token k ks s); [..|done].
    + split_and!; [exact Hs'|done|]. apply filled_cons in Hf; [|done]. by destruct Hf; split.
    + done.
    + intros H. apply Hshort. by rewrite has_short_cons, H.
Qed.

(** The century a two-digit year is read in. *)
Definition century : Z := getFullYear now - Z.rem (getFullYear now) 100.

Lemma expand_short c :
  0 <= getFullYear now -> 0 <= c < 100 -> 1900 <= getFullYear t ->
  century - 100 + c < getFullYear t <= century + c ->
  expand_year now (Some c) (Z.rem (getYear t) 100) = getFullYear t.
Proof.
  unfold century, getYear, expand_year. intros Hn Hc Hy Hw.
  rewrite Z.rem_mod_nonneg in * by lia.
  set (y := getFullYear t) in *. set (n := getFullYear now) in *.
  assert ((y - 1900) mod 100 = y mod 100) as ->
    by (replace (y - 1900) with (y + (-19) * 100) by lia; apply Z.mod_add; lia).
  clearbody y n. zcases; div_lia.
Qed.

Lemma finish_filled cut ks s :
  determined ks = true -> filled ks (mk_pstate (Some (-1)) (Some (-1)) (Some (-1)) (-1) 0 EmptyString) s ->
  (has_short_year ks = true -> expand_year now cut (Z.rem (getYear t) 100) = getFullYear t) ->
  finish now cut s = Ok (Some t).
Proof.
  intros Hdet [Hy Hm Hd Ho] Hshort.
  apply andb_true_iff in Hdet as [Hhy Hdet].
  assert (expand_year now cut <$> p_year s = Some (getFullYear t)) as Hyear'.
  { destruct Hy as [[Hy _]|[->|[Hs ->]]]; [congruence| |cbn; f_equal; by apply Hshort].
    cbn. f_equal. unfold expand_year. rewrite !if_false by lia. done. }
  assert (plain_year (getFullYear t)) as Hp by (right; lia).
  assert (new_date (getFullYear t) (getMonth t) (getDate t) = t) as Ht by (rewrite Hmid in Hp |- *; by apply new_date_fields).
  assert (day_of_year t = DayWithinYear (Day t) + 1) as Hday
    by (rewrite Hmid in Hp |- *; rewrite day_of_year_spec by done; by rewrite Day_of_midnight).
  unfold finish. rewrite Hyear', Ho.
  assert (finish_date (getFullYear t) (getMonth t + 1) (getDate t) = Ok (Some t)) as Hfin.
  { pose proof (fields_civil t) as Hc.
    rewrite finish_date_ok; [|done|]; replace (getMonth t + 1 - 1) with (getMonth t) by lia; [|done].
    by rewrite Ht. }
  destruct (has "o" ks).
  - pose proof day_of_year_bounds. rewrite if_true by lia.
    rewrite Hday. pose proof (YearFromDay_spec (Day t)) as Hd'. rewrite DayFromYear_step in Hd'.
    assert (0 <= DayWithinYear (Day t) < DaysInYear (getFullYear t)) as Hb
      by (unfold DayWithinYear, getFullYear; lia).
    assert (getMonth t = month_of (getFullYear t) (DayWithinYear (Day t))) as Hmo by done.
    pose proof (doy_loop_spec 40 (getFullYear t) 0 (DayWithinYear (Day t))) as Hloop.
    rewrite MonthStart_0, !Z.sub_0_r in Hloop. change (0 + 1) with 1 in Hloop.
    pose proof getMonth_bounds. rewrite Hloop by (done || rewrite <- Hmo; lia).
    rewrite <- Hmo.
    replace (DayWithinYear (Day t) + 1 - MonthStart (getFullYear t) (getMonth t)) with (getDate t); [done|].
    unfold getDate. lia.
  - cbn. cbn in Hdet. apply andb_true_iff in Hdet as [H1 H2]. by rewrite Hm, Hd, H1, H2.
Qed.

Lemma format_not_empty ks :
  has "y" ks = true -> (has_short_year ks = true -> 1900 <= getFullYear t) ->
  String.concat EmptyString (format_token tz o t <$> ks) <> EmptyString.
Proof.
  intros Hy Hs. induction ks as [|k ks IH]; [done|]. rewrite fmap_cons, concat_cons.
  intros H. assert (format_token tz o t k = EmptyString) as Hk
    by (destruct (format_token tz o t k); [done|by rewrite app_string_cons in H]).
  rewrite Hk, app_string_nil_l in H. destruct k as [c b|c]; [|done].
  destruct (Ascii.eqb_spec c "y") as [->|Hne].
  - cbn in Hk. destruct b.
    + destruct (numeral_spec 4 (getFullYear t) numerals4) with (b := false) as (_ & N & _);
        [change (Z.of_nat (10 ^ 4)) with 10000; lia|].
      unfold formatNumber in N. by rewrite Hk in N.
    + destruct (_ <? 10); [done|]. rewrite app_string_nil_l in Hk.
      specialize (Hs eq_refl). pose proof (short_year_bounds Hs) as Hyy.
      destruct (numeral_spec 2 _ numerals2 Hyy false) as (_ & N & _).
      unfold formatNumber in N. by rewrite Hk in N.
  - apply IH; [| |done].
    + rewrite has_field in Hy. cbn [is_in] in Hy.
      by rewrite (proj2 (Ascii.eqb_neq c "y") Hne) in Hy.
    + intros Hs'. apply Hs. by rewrite has_short_cons, Hs', orb_true_r.
Qed.
End roundtrip.

(** The round trip, for the other files. *)
Lemma parse_formatted now tz o t format cut :
  let ks := scan "dDomMy" false format in
  t = Day t * msPerDay -> 1000 <= getFullYear t <= 9999 ->
  reversible ks = true -> determined ks = true ->
  (forall b : bool, let l := if b then names_of dayNames o else names_of dayNamesShort o in
     length l = 7%nat /\ prefix_free l = true) ->
  (forall b : bool, let l := if b then names_of monthNames o else names_of monthNamesShort o in
     length l = 12%nat /\ prefix_free l = true) ->
  (has_short_year ks = true ->
     short_cutoff now o = Some cut /\ 0 <= cut < 100 /\ 0 <= getFullYear now /\
     1900 <= getFullYear t /\ century now - 100 + cut < getFullYear t <= century now + cut) ->
  parseDate now tz format (formatDate tz format (Some t) o) o = Ok (Some t).
Proof.
  intros ks Hmid Hy Hrev Hdet Hdays Hmonths Hshort.
  assert (has_short_year ks = true -> 1900 <= getFullYear t) as Hs by (intros H; by apply Hshort).
  unfold parseDate, formatDate. fold ks.
  pose proof Hdet as [Hhy _]%andb_true_iff.
  rewrite (proj2 (String.eqb_neq _ "")) by by apply (format_not_empty tz o t Hy).
  rewrite scan_more_letters by done. fold ks.
  destruct (parse_tokens_format tz o t Hmid Hy Hdays Hmonths ks
    (mk_pstate (Some (-1)) (Some (-1)) (Some (-1)) (-1) 0
       (String.concat EmptyString (format_token tz o t <$> ks)))) as (s & -> & Hv & Hf); [done..|].
  rewrite Hv. cbn [negb andb String.eqb]. apply (finish_filled now t Hmid Hy _ ks); [done| |].
  - destruct Hf. by split.
  - intros H. destruct (Hshort H) as (Hc & Hb & Hn & Hy' & Hw). rewrite Hc.
    by apply expand_short.
Qed.

(** C16.  Parsing a date that [formatDate] wrote gives the date back: for every
    format that names a year, and a day of the year or a month and a day, in which
    a number of variable width is not followed by a digit; for names none of which
    begins with another; for years of four digits and, where the format has a
    two-digit year, those within the cutoff. *)
Theorem parse_format now tz o t format cut :
  let ks := scan "dDomMy" false format in
  t = Day t * msPerDay -> 1000 <= getFullYear t <= 9999 ->
  reversible ks = true -> determined ks = true ->
  (forall b : bool, let l := if b then names_of dayNames o else names_of dayNamesShort o in
     length l = 7%nat /\ prefix_free l = true) ->
  (forall b : bool, let l := if b then names_of monthNames o else names_of monthNamesShort o in
     length l = 12%nat /\ prefix_free l = true) ->
  (has_short_year ks = true ->
     short_cutoff now o = Some cut /\ 0 <= cut < 100 /\ 0 <= getFullYear now /\
     1900 <= getFullYear t /\ century now - 100 + cut < getFullYear t <= century now + cut) ->
  parseDate now tz format (formatDate tz format (Some t) o) o = Ok (Some t).
Proof. apply parse_formatted. Qed.
