(* ===== verification/DpCheck.v ===== *)
(** * Datepicker formats: the calendar check, termination, typing, week numbers *)

From S2P Require Export DpParse.

(** ** The calendar check *)

Definition is_civil (y m dt : Z) : bool :=
  (0 <=? m) && (m <? 12) && (1 <=? dt) && (dt <=? month_length y m).

Lemma is_civil_spec y m dt : is_civil y m dt = true <-> civil y m dt.
Proof. unfold is_civil, civil. rewrite !andb_true_iff. lia. Qed.

Lemma finish_date_decides y m dt :
  plain_year y ->
  finish_date y m dt = if is_civil y (m - 1) dt then Ok (Some (new_date y (m - 1) dt)) else Throw InvalidDate.
Proof.
  intros Hy. destruct (is_civil y (m - 1) dt) eqn:E.
  { apply is_civil_spec in E. by apply finish_date_ok. }
  unfold finish_date. rewrite dsa_new_date. set (t := new_date y (m - 1) dt).
  rewrite if_true; [done|]. destruct (_ || _) eqn:E'; [done|].
  rewrite !orb_false_iff, !negb_false_iff, !Z.eqb_eq in E'. destruct E' as [[H1 H2] H3].
  assert (is_civil y (m - 1) dt = true); [|congruence]. apply is_civil_spec.
  pose proof (fields_civil t) as Hc. rewrite H1, H3 in Hc.
  by replace (getMonth t) with (m - 1) in Hc by lia.
Qed.

Lemma parse_padded_field o tz c len n r s ks :
  (c = "d"%char \/ c = "m"%char) /\ len = 2%nat \/ c = "y"%char /\ len = 4%nat ->
  forallb (numeral_ok len) (zrange 0 (10 ^ len)) = true -> 0 <= n < Z.of_nat (10 ^ len) -> n < 10000 ->
  value s = formatNumber true n len +:+ r ->
  parse_tokens tz o (Field c true :: ks) s =
  parse_tokens tz o ks
    (let s := advance (formatNumber true n len) r s in
     if Ascii.eqb c "d" then s <| p_day := Some n |>
     else if Ascii.eqb c "m" then s <| p_month := Some n |> else s <| p_year := Some n |>).
Proof.
  intros Hc Hall Hn Hn' Hv. cbn [parse_tokens parse_token].
  destruct Hc as [[[->| ->] ->]|[-> ->]]; cbn [Ascii.eqb Bool.eqb];
    (rewrite (parse_number _ true _ n r s Hv Hall Hn Hn'); [reflexivity|reflexivity|left; reflexivity]).
Qed.

Lemma parse_lit o tz c r s ks :
  value s = String c r ->
  parse_tokens tz o (Lit c :: ks) s =
  parse_tokens tz o ks (s <| iValue := S (iValue s) |> <| value := r |>).
Proof. intros Hv. cbn. unfold checkLiteral. by rewrite Hv, Ascii.eqb_refl. Qed.

(** A date written [yyyy-mm-dd] is accepted exactly if it is a day of the
    calendar, leap years included, and is then that day; else [Invalid date] is
    thrown. *)
Theorem iso_checks_calendar now tz o y m dt :
  100 <= y <= 9999 -> 0 <= m <= 99 -> 0 <= dt <= 99 ->
  parseDate now tz "yy-mm-dd"
    (formatNumber true y 4 +:+ "-" +:+ formatNumber true m 2 +:+ "-" +:+ formatNumber true dt 2) o
  = if is_civil y (m - 1) dt then Ok (Some (new_date y (m - 1) dt)) else Throw InvalidDate.
Proof.
  intros Hy Hm Hd. unfold parseDate.
  destruct (numeral_spec 4 y numerals4 ltac:(change (Z.of_nat (10 ^ 4)) with 10000; lia) true)
    as (_ & Hn & _).
  rewrite (proj2 (String.eqb_neq _ "")) by (by destruct (formatNumber true y 4)).
  change (scan "dDomMy@!" false "yy-mm-dd") with
    [Field "y" true; Lit "-"; Field "m" true; Lit "-"; Field "d" true].
  rewrite (parse_padded_field o tz "y" 4 y ("-" +:+ formatNumber true m 2 +:+ "-" +:+ formatNumber true dt 2));
    [|by right|apply numerals4|change (Z.of_nat (10 ^ 4)) with 10000; lia|lia|done].
  rewrite (parse_lit _ _ _ (formatNumber true m 2 +:+ "-" +:+ formatNumber true dt 2)) by done.
  rewrite (parse_padded_field o tz "m" 2 m ("-" +:+ formatNumber true dt 2));
    [|left; auto|apply numerals2|change (Z.of_nat (10 ^ 2)) with 100; lia|lia|done].
  rewrite (parse_lit _ _ _ (formatNumber true dt 2)) by done.
  rewrite (parse_padded_field o tz "d" 2 dt EmptyString);
    [|left; auto|apply numerals2|change (Z.of_nat (10 ^ 2)) with 100; lia|lia|].
  2:{ cbn. by rewrite app_string_nil_r. }
  cbn [parse_tokens].
  cbn. unfold finish. cbn.
  assert (expand_year now (short_cutoff now o) y = y) as ->
    by (unfold expand_year; rewrite !if_false by lia; done).
  apply finish_date_decides. right; lia.
Qed.

(** ** Termination *)

Lemma digits_bound s acc n :
  digits acc s = Some n -> 0 <= acc -> 0 <= n < (acc + 1) * 10 ^ Z.of_nat (String.length s).
Proof.
  revert acc. induction s as [|c s IH]; intros acc; cbn [digits String.length].
  - intros [= <-] ?. rewrite Z.pow_0_r. lia.
  - destruct (is_digit c) eqn:E; [|done]. intros H Hacc.
    assert (0 <= digit_val c <= 9) as Hc.
    { unfold is_digit in E. unfold digit_val. apply andb_true_iff in E as [E1 E2].
      apply N.leb_le in E1, E2. lia. }
    apply IH in H; [|lia]. rewrite Nat2Z.inj_succ, Z.pow_succ_r by lia. nia.
Qed.

Lemma span_digits_length n s : (String.length (fst (span_digits n s)) <= n)%nat.
Proof.
  revert s. induction n as [|n IH]; intros [|c s]; cbn; try lia.
  destruct (is_digit c); [|cbn; lia]. specialize (IH s). destruct (span_digits n s). cbn in *. lia.
Qed.

Lemma getNumber_bound c b s n s' :
  getNumber c b s = inr (n, s') -> (number_size c b <= 14)%nat ->
  0 <= n < 10 ^ Z.of_nat (number_size c b) /\ p_year s' = p_year s /\ p_doy s' = p_doy s.
Proof.
  unfold getNumber. pose proof (span_digits_length (number_size c b) (value s)) as Hlen.
  destruct (span_digits _ _) as [num rest]. cbn in Hlen. intros H Hsz.
  destruct (unsigned_number num) as [k|] eqn:E; [|done]. injection H as <- <-. split; [|done].
  assert (0 <= k < 10 ^ Z.of_nat (number_size c b)) as Hk.
  { unfold unsigned_number in E. destruct num; [done|]. apply digits_bound in E; [|lia].
    rewrite Z.mul_1_l in E. split; [lia|]. eapply Z.lt_le_trans; [apply E|].
    apply Z.pow_le_mono_r; lia. }
  assert (fl k = k) as ->; [|done]. unfold fl. rewrite if_true; [done|].
  assert (10 ^ Z.of_nat (number_size c b) <= 10 ^ 14) by (apply Z.pow_le_mono_r; lia).
  assert (Z.log2 (Z.abs k) <= Z.log2 (10 ^ 14)) by (apply Z.log2_le_mono; lia).
  change (Z.log2 (10 ^ 14)) with 46 in *. lia.
Qed.

(** No [!] directive. *)
Definition no_ticks (ks : list token) : bool :=
  forallb (fun k => match k with Field c _ => is_in "dDomMy@" c | Lit _ => true end) ks.

(** The variables the final loop depends on. *)
Definition loop_safe (s : pstate) : Prop := p_year s <> None /\ p_doy s < 1000.

Lemma parse_token_safe tz o k s s' :
  no_ticks [k] = true -> loop_safe s -> parse_token tz o k s = inr s' -> loop_safe s'.
Proof.
  intros Hk [Hy Hd]. destruct k as [c b|c]; cbn [parse_token].
  2:{ unfold checkLiteral. repeat case_match; intros [= <-]. by split. }
  assert (forall names s s' n, getName names s = inr (n, s') -> p_year s' = p_year s /\ p_doy s' = p_doy s)
    as Hname by (intros names s1 s2 n; unfold getName; by repeat case_match; intros [= <- <-]).
  assert (forall c b s' n, (number_size c b <= 14)%nat -> getNumber c b s = inr (n, s') ->
    p_year s' <> None /\ p_doy s' < 1000 /\ 0 <= n < 10 ^ Z.of_nat (number_size c b)) as Hnum.
  { intros c' b' s1 n Hsz H. destruct (getNumber_bound _ _ _ _ _ H Hsz) as (? & -> & ->). done. }
  cbn in Hk. rewrite andb_true_r, orb_false_r, !orb_true_iff, !Ascii.eqb_eq in Hk.
  destruct Hk as [->|[->|[->|[->|[->|[->| ->]]]]]]; cbn [Ascii.eqb Bool.eqb];
    try (destruct (getNumber _ _ _) as [e|[n s1]] eqn:E; cbn [ebind];
         [done|intros [= <-]; apply Hnum in E; [|destruct b; cbn; lia];
          destruct E as (E1 & E2 & E3)]);
    try (destruct (getName _ _) as [e|[n s1]] eqn:E; cbn [ebind];
         [done|intros [= <-]; apply Hname in E as [E1 E2]; split; cbn; congruence]).
  - done.
  - split; [done|]. cbn. change (10 ^ Z.of_nat (number_size "o" b)) with 1000 in E3. lia.
  - done.
  - split; [done|]. done.
  - unfold set_time. change (10 ^ Z.of_nat (number_size "@" b)) with 100000000000000 in E3.
    rewrite if_true by lia. by split.
Qed.

(** [parseDate] terminates, with a date or an exception, on every format
    without ticks: the loop that takes a day of the year apart runs out. *)
Theorem parseDate_terminates now tz format v o :
  no_ticks (scan "dDomMy@!" false format) = true -> parseDate now tz format v o <> Loops.
Proof.
  unfold parseDate. destruct (String.eqb v ""); [done|].
  set (s0 := mk_pstate _ _ _ _ _ _). assert (loop_safe s0) as Hs0 by done. clearbody s0.
  generalize (scan "dDomMy@!" false format). intros ks. revert s0 Hs0.
  induction ks as [|k ks IH]; intros s Hs Hks; cbn [parse_tokens].
  - destruct (_ && _); [done|]. destruct Hs as [Hy Hd]. unfold finish.
    assert (forall y m d, finish_date y m d <> Loops) as Hfd
      by (intros; unfold finish_date; by case_match).
    destruct (p_year s) as [y|]; [|done]. cbn [fmap option_fmap option_map]. destruct (-1 <? p_doy s).
    + destruct (doy_loop_ends 39 (expand_year now (short_cutoff now o) y) 1 (p_doy s)) as [[m dd] ->];
        [lia|]. apply Hfd.
    + destruct (p_month s), (p_day s); done || apply Hfd.
  - cbn in Hks. apply andb_true_iff in Hks as [Hk Hks].
    destruct (parse_token tz o k s) as [e|s1] eqn:E; cbn [ebind]; [done|].
    apply IH; [|done]. eapply parse_token_safe; [|exact Hs|exact E]. cbn. by rewrite Hk.
Qed.

(** ** Typing a date *)

Fixpoint all_in (cs s : string) : bool :=
  match s with EmptyString => true | String c s' => is_in cs c && all_in cs s' end.

Lemma is_in_app a b c : is_in (a +:+ b) c = is_in a c || is_in b c.
Proof. induction a as [|x a IH]; [done|]. rewrite app_string_cons. cbn. by rewrite IH, orb_assoc. Qed.

Lemma all_in_app cs a b : all_in cs (a +:+ b) = all_in cs a && all_in cs b.
Proof. induction a as [|x a IH]; [done|]. rewrite app_string_cons. cbn. by rewrite IH, andb_assoc. Qed.

Lemma all_in_mono cs cs' s :
  (forall c, is_in cs c = true -> is_in cs' c = true) -> all_in cs s = true -> all_in cs' s = true.
Proof.
  intros H. induction s as [|c s IH]; [done|]. cbn. rewrite !andb_true_iff. naive_solver.
Qed.

Lemma is_in_digits c : is_digit c = true -> is_in "0123456789" c = true.
Proof. destruct c as [[] [] [] [] [] [] [] []]; vm_compute; done. Qed.

Lemma all_digits_in s : all_digits s = true -> all_in "0123456789" s = true.
Proof.
  induction s as [|c s IH]; [done|]. cbn [all_digits all_in]. rewrite !andb_true_iff.
  intros [Hc Hs]. split; [by apply is_in_digits|by apply IH].
Qed.

(** The directives [_possibleChars] has an entry for. *)
Definition typable (ks : list token) : bool :=
  forallb (fun k => match k with Field c _ => is_in "dmyDM" c | Lit _ => true end) ks.

Lemma all_digits_short y :
  1900 <= y <= 9999 ->
  let yy := Z.rem (y - 1900) 100 in
  all_digits ((if (yy <? 10)%Z then "0" else "")%string +:+ pretty yy) = true.
Proof.
  intros Hy yy. assert (0 <= yy < 100) as Hb by (apply Z.rem_bound_pos; lia).
  rewrite short_year_format by done.
  by destruct (numeral_spec 2 yy numerals2 Hb true).
Qed.

(** The text of a numeric directive is made of digits. *)
Lemma numeric_directive tz o t c b :
  1900 <= getFullYear t <= 9999 -> is_in "dmy" c = true ->
  all_in "0123456789" (format_token tz o t (Field c b)) = true.
Proof.
  intros Hy Hc. apply all_digits_in.
  assert (forall n, 0 <= n < 100 -> all_digits (formatNumber b n 2) = true) as Hn
    by (intros n Hn; by destruct (numeral_spec 2 n numerals2 Hn b)).
  pose proof (getMonth_bounds t). pose proof (getDate_bounds t).
  cbn in Hc. rewrite orb_false_r, !orb_true_iff, !Ascii.eqb_eq in Hc.
  destruct Hc as [->|[->| ->]]; cbn [format_token Ascii.eqb Bool.eqb].
  - apply Hn. lia.
  - apply Hn. lia.
  - destruct b; [|by apply all_digits_short].
    by destruct (numeral_spec 4 (getFullYear t) numerals4
      ltac:(change (Z.of_nat (10 ^ 4)) with 10000; lia) false).
Qed.

(** What a list of possible characters covers, token by token. *)
Section typed.
Context (tz : Z) (o : option settings) (t : Z) (Hy : 1900 <= getFullYear t <= 9999).

Definition text_of (ks : list token) : string :=
  String.concat EmptyString (format_token tz o t <$> ks).

(** [cs] is [p], which covers the text of [k], before what the rest may use. *)
Lemma typed_cons k ks ks' p cs :
  (exists q, possible ks' = Some q /\ cs = p +:+ q) ->
  all_in p (format_token tz o t k) = true ->
  (forall q, possible ks' = Some q -> all_in q (text_of ks) = true) ->
  all_in cs (text_of (k :: ks)) = true.
Proof.
  intros (q & Hq & ->) Hp Hx. unfold text_of. rewrite fmap_cons, concat_cons.
  rewrite all_in_app, andb_true_iff. split.
  - eapply all_in_mono; [|exact Hp]. intros c Hc. by rewrite is_in_app, Hc.
  - eapply all_in_mono; [|by apply Hx]. intros c Hc. by rewrite is_in_app, Hc, orb_true_r.
Qed.

Lemma typed_lit c ks ks' cs :
  possible (Lit c :: ks') = Some cs ->
  (forall q, possible ks' = Some q -> all_in q (text_of ks) = true) ->
  all_in cs (text_of (Lit c :: ks)) = true.
Proof.
  cbn [possible]. intros (q & Hq & ->)%fmap_Some Hx.
  apply (typed_cons _ _ ks' (String c EmptyString)); [by exists q| |done].
  cbn. by rewrite Ascii.eqb_refl.
Qed.

(** A directive is digits, or accepts everything. *)
Lemma typed_field c b ks ks' cs :
  is_in "dmyDM" c = true -> possible (Field c false :: ks') = Some cs ->
  (forall q, possible ks' = Some q -> all_in q (text_of ks) = true) ->
  all_in cs (text_of (Field c b :: ks)) = true.
Proof.
  intros Hc Hp Hx. cbn [possible] in Hp. destruct (is_in "dmy" c) eqn:Hd.
  - replace (is_in "dmy@" c) with true in Hp.
    + apply fmap_Some in Hp as (q & Hq & ->).
      apply (typed_cons _ _ ks' "0123456789"); [by exists q|by apply numeric_directive|done].
    + cbn in Hd |- *. rewrite orb_false_r, !orb_true_iff, !Ascii.eqb_eq in Hd.
      destruct Hd as [->|[->| ->]]; done.
  - cbn in Hc, Hd, Hp. rewrite orb_false_r, !orb_true_iff, !Ascii.eqb_eq in Hc.
    destruct Hc as [->|[->|[->|[->| ->]]]]; done.
Qed.

(** The second letter of a doubled directive, which the filter reads on its own. *)
Lemma typed_again c ks ks' cs :
  possible (Field c false :: ks') = Some cs ->
  (forall q, possible ks' = Some q -> all_in q (text_of ks) = true) ->
  all_in cs (text_of ks) = true.
Proof.
  cbn [possible]. intros Hp Hx.
  destruct (is_in "dmy@" c); [|destruct (is_in "DM" c); [done|]];
    apply fmap_Some in Hp as (q & Hq & ->);
    (eapply all_in_mono; [|by apply Hx]); intros x Hin.
  - by rewrite is_in_app, Hin, orb_true_r.
  - cbn. by rewrite Hin, orb_true_r.
Qed.

Lemma typed_scan n f lit cs :
  (String.length f <= n)%nat -> typable (scan "dDomMy" lit f) = true ->
  possible (scan "" lit f) = Some cs -> all_in cs (text_of (scan "dDomMy" lit f)) = true.
Proof.
  revert f lit cs. induction n as [|n IH]; intros [|c f] lit cs Hn Hty Hcs; cbn in Hn; try done; [lia|].
  assert (forall lit q, typable (scan "dDomMy" lit f) = true -> possible (scan "" lit f) = Some q ->
    all_in q (text_of (scan "dDomMy" lit f)) = true) as IHf by (intros; apply IH; [lia|done..]).
  cbn [scan] in Hty, Hcs |- *. destruct (Ascii.eqb c quote) eqn:Eq.
  { destruct f as [|c' f']; [done|]. cbn in Hn. destruct (Ascii.eqb c' quote); [|by apply IHf].
    eapply typed_lit; [exact Hcs|]. intros q Hq. by apply IH; [lia|..]. }
  destruct lit; [by eapply typed_lit; [exact Hcs|intros q; by apply IHf]|].
  destruct (is_field c) eqn:Hf; [|by eapply typed_lit; [exact Hcs|intros q; by apply IHf]].
  change (is_in "" c) with false in Hcs. cbv iota in Hcs.
  assert (forall b ks, typable (Field c b :: ks) = true -> is_in "dmyDM" c = true /\ typable ks = true)
    as Hfield by (intros b ks H; by apply andb_true_iff in H).
  destruct (is_in "dDomMy" c).
  - destruct f as [|c' f']; [apply Hfield in Hty as [Hc _];
      by eapply typed_field; [done|exact Hcs|intros q [= <-]]|].
    cbn in Hn. destruct (Ascii.eqb_spec c' c) as [->|Hne]; apply Hfield in Hty as [Hc Hty].
    + cbn [scan] in Hcs. rewrite Eq, Hf in Hcs. change (is_in "" c) with false in Hcs. cbv iota in Hcs.
      eapply typed_field; [done|exact Hcs|]. intros q Hq. eapply typed_again; [exact Hq|].
      intros q' Hq'. by apply IH; [lia|..].
    + eapply typed_field; [done|exact Hcs|]. intros q. by apply IHf.
  - apply Hfield in Hty as [Hc Hty]. eapply typed_field; [done|exact Hcs|]. intros q. by apply IHf.
Qed.
End typed.

(** The key filter lets a date be typed as it is displayed: on a format of the
    directives d, m, y, D, M and literal text, it knows every character of every
    formatted date from 1900 to 9999, or accepts all characters. *)
Theorem possibleChars_complete tz o t format cs :
  typable (scan "dDomMy" false format) = true -> 1900 <= getFullYear t <= 9999 ->
  possibleChars format = Some cs -> all_in cs (formatDate tz format (Some t) o) = true.
Proof. intros Hty Hy Hcs. by apply (typed_scan tz o t Hy (String.length format)). Qed.

(** ** Weeks *)

Lemma Day_setDate t dt : Day (setDate dt t) = Day t + (dt - getDate t).
Proof.
  unfold setDate. rewrite Day_shift by apply TimeWithinDay_bounds.
  rewrite <- (MakeDay_fields t). unfold MakeDay. lia.
Qed.

Lemma TimeWithinDay_shift d r : 0 <= r < msPerDay -> TimeWithinDay (d * msPerDay + r) = r.
Proof.
  intros. unfold TimeWithinDay. rewrite Z.add_comm, Z.mod_add by done. by apply Z.mod_small.
Qed.

Lemma TimeWithinDay_setDate dt t : TimeWithinDay (setDate dt t) = TimeWithinDay t.
Proof. apply TimeWithinDay_shift, TimeWithinDay_bounds. Qed.

(** [setMonth(0); setDate(1)] leads to New Year. *)
Lemma new_year t : setDate 1 (setMonth 0 t) = DayFromYear (getFullYear t) * msPerDay + TimeWithinDay t.
Proof.
  destruct (fields_civil t) as [Hm Hd].
  pose proof (month_length_bounds (getFullYear t) _ Hm) as Hl.
  set (u := setMonth 0 t).
  assert (Day u = MakeDay (getFullYear t) 0 (getDate t)) as Hu
    by (unfold u, setMonth; apply Day_shift, TimeWithinDay_bounds).
  assert (TimeWithinDay u = TimeWithinDay t) as Htu
    by (apply TimeWithinDay_shift, TimeWithinDay_bounds).
  destruct (fields_MakeDay (getFullYear t) 0 (getDate t) u) as (Hy & Hmo & Hda); [|done|].
  { split; [lia|]. change (month_length (getFullYear t) 0) with 31. lia. }
  rewrite (Day_TimeWithinDay (setDate 1 u)), TimeWithinDay_setDate, Htu.
  rewrite Day_setDate, Hda, Hu, MakeDay_civil, MonthStart_0 by lia. f_equal. f_equal. lia.
Qed.

(** The Monday of a day's week, and the day that is always in week 1. *)
Definition monday (d : Z) : Z := d - (d + 3) mod 7.
Definition jan4 (y : Z) : Z := DayFromYear y + 3.

Lemma iso8601Week_thursday t :
  let th := monday (Day t) + 3 in
  iso8601Week t = (th - DayFromYear (YearFromDay th)) / 7 + 1.
Proof.
  intros th. unfold iso8601Week.
  set (d := if getDay t =? 0 then 7 else getDay t).
  assert (d = (Day t + 3) mod 7 + 1) as Hd.
  { unfold d, getDay. destruct (Z.eqb_spec ((Day t + 4) mod 7) 0); div_lia. }
  set (c := setDate (getDate t + 4 - d) t).
  assert (Day c = th) as Hc by (unfold c; rewrite Day_setDate, Hd; unfold th, monday; lia).
  clearbody c th. pose proof (Day_TimeWithinDay c) as Hct. rewrite Hc in Hct.
  cbv zeta. rewrite new_year. unfold getFullYear. rewrite Hc.
  generalize (DayFromYear (YearFromDay th)). intros f.
  replace (c - (f * msPerDay + TimeWithinDay c)) with ((th - f) * msPerDay) by lia.
  by rewrite Z.div_mul.
Qed.

(** The week number is that of ISO 8601: weeks begin on Monday, week 1 is the
    one with 4 January, and a day belongs to the year whose weeks it falls in. *)
Theorem iso8601Week_correct t :
  exists y, 1 <= iso8601Week t <= 53 /\
    monday (Day t) = monday (jan4 y) + 7 * (iso8601Week t - 1) /\
    monday (Day t) < monday (jan4 (y + 1)).
Proof.
  rewrite iso8601Week_thursday. set (m := monday (Day t)).
  assert (m mod 7 = 4) as Hm by (unfold m, monday; div_lia).
  pose proof (YearFromDay_spec (m + 3)) as Hy. set (y := YearFromDay (m + 3)) in *.
  exists y. pose proof (DaysInYear_bounds y) as Hb. rewrite DayFromYear_step in Hy.
  unfold jan4. rewrite DayFromYear_step. clearbody m y.
  set (f := DayFromYear y) in *. set (n := DaysInYear y) in *. clearbody f n.
  unfold monday. div_lia.
Qed.

(** ** Witnesses *)

Lemma parse_format_witness :
  parseDate 1700000000000 0 "DD, d MM 'of' y"
    (formatDate 0 "DD, d MM 'of' y" (Some (18321 * msPerDay)) None) None = Ok (Some (18321 * msPerDay)).
Proof.
  apply (parse_format 1700000000000 0 None (18321 * msPerDay) "DD, d MM 'of' y" 33).
  - reflexivity.
  - vm_compute. split; discriminate.
  - reflexivity.
  - reflexivity.
  - intros []; split; vm_compute; reflexivity.
  - intros []; split; vm_compute; reflexivity.
  - intros _. vm_compute. split_and!; done.
Defined.

Lemma iso_checks_calendar_witness :
  parseDate 0 0 "yy-mm-dd" "2100-02-29" None = Throw InvalidDate /\
  parseDate 0 0 "yy-mm-dd" "2000-02-29" None = Ok (Some (11016 * msPerDay)).
Proof.
  pose proof (iso_checks_calendar 0 0 None 2100 2 29 ltac:(lia) ltac:(lia) ltac:(lia)) as H1.
  pose proof (iso_checks_calendar 0 0 None 2000 2 29 ltac:(lia) ltac:(lia) ltac:(lia)) as H2.
  split; [exact H1|exact H2].
Defined.

Lemma parseDate_terminates_witness :
  parseDate 1700000000000 0 "o" "999" None <> Loops.
Proof. apply parseDate_terminates. reflexivity. Defined.

Lemma possibleChars_complete_witness :
  all_in "01234567890123456789/0123456789/01234567890123456789"
    (formatDate 0 "mm/d/yy" (Some (18321 * msPerDay)) None) = true.
Proof.
  apply possibleChars_complete.
  - reflexivity.
  - vm_compute. split; discriminate.
  - reflexivity.
Defined.

(** ** Where formats and dates disagree *)

(** [!o]: ticks beyond the range of dates make the year [NaN], and the loop over
    the day of the year never ends. *)
Example ticks_loop : parseDate 0 0 "! o" "99999999999999999999 1" None = Loops.
Proof. vm_compute. reflexivity. Qed.

(** A field of format [o] shows digits the key filter does not accept. *)
Example day_of_year_untypable :
  possibleChars "o" = Some "o"%string /\ formatDate 0 "o" (Some 0) None = "1"%string.
Proof. done. Qed.

(** A year before 1900 in two digits is written with a sign. *)
Example short_year_1895 : formatDate 0 "y" (Some (new_date 1895 0 1)) None = "0-5"%string.
Proof. vm_compute. reflexivity. Qed.

(** [@] writes times before 1970 with a sign that it does not read. *)
Example negative_time : parseDate 0 0 "@" (formatDate 0 "@" (Some (-86400000)) None) None
  = Throw (MissingNumber 0).
Proof. vm_compute. reflexivity. Qed.

(** Years below 100 are read as years of the present century. *)
Example year_50 : parseDate 1700000000000 0 "yy-mm-dd" "0050-01-01" None
  = Ok (Some (new_date 1950 0 1)).
Proof. vm_compute. reflexivity. Qed.

(** Text after a blank is ignored. *)
Example trailing_text : parseDate 0 0 "yy-mm-dd" "2020-01-01 nonsense" None
  = Ok (Some (new_date 2020 0 1)).
Proof. vm_compute. reflexivity. Qed.
