(* ===== verification/UiPosition.v ===== *)
(** * Position of jQuery UI

    Models [$.fn.position] and [$.ui.position] of
    [2019104287/code/WebContent/js/jquery-ui.js]: an element is placed at another one,
    moved into or flipped over when it leaves what it should be within.  Lengths are
    rational numbers of pixels. *)

From S2P Require Export JsRational DpFormat.
From Stdlib Require Export QArith Qround.
#[local] Open Scope nat_scope.
#[local] Open Scope Z_scope.

Module Position.

(** ** Collisions

    What [fit] and [flip] read of [data] for one direction: [within] with its offset,
    scroll position and width (or height), and the element with its margin, its width
    with margins ([collisionWidth]), and its placement. *)
Record axis := mk_axis {
  isWindow : bool; w_offset : Q; w_scroll : Q; outerWidth : Q;
  margin : Q; collisionWidth : Q; elemWidth : Q; targetWidth : Q; offset : Q; my : string; at_ : string;
}.

Definition fit_offset (d : axis) : Q := if isWindow d then w_scroll d else w_offset d.

(** [fit.left] and [fit.top]. *)
Definition fit (d : axis) (position : Q) : Q :=
  let withinOffset := fit_offset d in
  let collisionPos := (position - margin d)%Q in
  let overLeft := (withinOffset - collisionPos)%Q in
  let overRight := (collisionPos + collisionWidth d - outerWidth d - withinOffset)%Q in
  if qless (outerWidth d) (collisionWidth d) then
    if qless 0 overLeft && Qle_bool overRight 0 then
      let newOverRight := (position + overLeft + collisionWidth d - outerWidth d - withinOffset)%Q in
      (position + (overLeft - newOverRight))%Q
    else if qless 0 overRight && Qle_bool overLeft 0 then withinOffset
    else if qless overRight overLeft then (withinOffset + outerWidth d - collisionWidth d)%Q
    else withinOffset
  else if qless 0 overLeft then (position + overLeft)%Q
  else if qless 0 overRight then (position - overRight)%Q
  else Qmax2 (position - collisionPos) position.

Definition sided (first last word : string) (a b : Q) : Q :=
  if String.eqb word first then a else if String.eqb word last then b else 0%Q.

(** How far a flip moves, [first] and [last] being left and right or top and bottom. *)
Definition flip_by (first last : string) (d : axis) : Q :=
  (sided first last (my d) (- elemWidth d) (elemWidth d) + sided first last (at_ d) (targetWidth d) (- targetWidth d) + - (2) * offset d)%Q.

Definition flip_left (d : axis) (position : Q) : Q :=
  let withinOffset := (w_offset d + w_scroll d)%Q in
  let offsetLeft := fit_offset d in
  let collisionPosLeft := (position - margin d)%Q in
  let overLeft := (collisionPosLeft - offsetLeft)%Q in
  let overRight := (collisionPosLeft + collisionWidth d - outerWidth d - offsetLeft)%Q in
  let by_ := flip_by "left" "right" d in
  if qless overLeft 0 then
    let newOverRight := (position + by_ + collisionWidth d - outerWidth d - withinOffset)%Q in
    if qless newOverRight 0 || qless newOverRight (Qabs overLeft) then (position + by_)%Q else position
  else if qless 0 overRight then
    let newOverLeft := (position - margin d + by_ - offsetLeft)%Q in
    if qless 0 newOverLeft || qless (Qabs newOverLeft) overRight then (position + by_)%Q else position
  else position.

Definition flip_top (d : axis) (position : Q) : Q :=
  let withinOffset := (w_offset d + w_scroll d)%Q in
  let offsetTop := fit_offset d in
  let collisionPosTop := (position - margin d)%Q in
  let overTop := (collisionPosTop - offsetTop)%Q in
  let overBottom := (collisionPosTop + collisionWidth d - outerWidth d - offsetTop)%Q in
  let by_ := flip_by "top" "bottom" d in
  if qless overTop 0 then
    let newOverBottom := (position + by_ + collisionWidth d - outerWidth d - withinOffset)%Q in
    if qless overTop (position + by_) && (qless newOverBottom 0 || qless newOverBottom (Qabs overTop)) then (position + by_)%Q else position
  else if qless 0 overBottom then
    let newOverTop := (position - margin d + by_ - offsetTop)%Q in
    if qless overBottom (position + by_) && (qless 0 newOverTop || qless (Qabs newOverTop) overBottom) then (position + by_)%Q else position
  else position.

(** [$.ui.position[collision][dir]], when there is one. *)
Definition collide (vertical : bool) (collision : string) (d : axis) (position : Q) : Q :=
  let flip := if vertical then flip_top else flip_left in
  if String.eqb collision "fit" then fit d position
  else if String.eqb collision "flip" then flip d position
  else if String.eqb collision "flipfit" then fit d (flip d position)
  else position.

(** ** Texts *)

Definition is_word_char (c : ascii) : bool :=
  let n := N_of_ascii c in
  is_digit c || ((65 <=? n) && (n <=? 90))%N || ((97 <=? n) && (n <=? 122))%N || (n =? 95)%N.

(** What [/^\w+/] and [/[\+\-]\d+%?/] match. *)
Fixpoint word_chars (s : string) : string :=
  match s with String c s' => if is_word_char c then String c (word_chars s') else EmptyString | EmptyString => EmptyString end.
Definition rposition (s : string) : option string := match word_chars s with EmptyString => None | w => Some w end.

Fixpoint after_digits (s : string) : string :=
  match s with String c s' => if is_digit c then after_digits s' else s | EmptyString => EmptyString end.
Fixpoint roffset (s : string) : option string :=
  match s with
  | EmptyString => None
  | String c s' =>
      match is_in "+-" c, leading_digits s' with
      | true, String d ds => Some (String c (String d ds) +:+ (if String.prefix "%" (after_digits s') then "%" else ""))
      | _, _ => roffset s'
      end
  end.

Definition rhorizontal (s : string) : bool := occurs "left" s || occurs "center" s || occurs "right" s.
Definition rvertical (s : string) : bool := occurs "top" s || occurs "center" s || occurs "bottom" s.

Fixpoint ends_percent (s : string) : bool :=
  match s with EmptyString => false | String c EmptyString => Ascii.eqb c "%" | String _ s' => ends_percent s' end.

(** One of [getOffsets]; a missing offset is the number 0. *)
Definition getOffset (o : option string) (width : Q) : Q :=
  match o with
  | None => 0
  | Some s => (inject_Z (default 0%Z (parseInt s)) * (if ends_percent s then width / 100 else 1))%Q
  end.

(** A side, and the text of its offset. *)
Definition placement : Type := string * option string.

Definition placement_of (s : string) : option placement := (fun w => (w, roffset s)) <$> rposition s.

(** [my] and [at] taken apart: across, down.  [None] is the exception of a text that
    names a side but begins with something else. *)
Definition normalize (s : string) : option (placement * placement) :=
  let pos := match split_on " " s with
             | [x] => if rhorizontal x then (x, "center"%string) else if rvertical x then ("center"%string, x) else ("center"%string, "center"%string)
             | x :: y :: _ => (x, y)
             | [] => ("center"%string, "center"%string)
             end in
  match placement_of (if rhorizontal pos.1 then pos.1 else "center"), placement_of (if rvertical pos.2 then pos.2 else "center") with
  | Some h, Some v => Some (h, v)
  | _, _ => None
  end.

(** [(options.collision || "flip").split(" ")]. *)
Definition collisions (s : string) : string * string :=
  match split_on " " (if String.eqb s "" then "flip" else s) with
  | x :: y :: _ => (x, y)
  | [x] => (x, x)
  | [] => ("", "")%string
  end.

(** ** Placing

    What the page says: the element to be placed, what it should be within, and what it is
    placed at. *)
Record elem := mk_elem { e_width : Q; e_height : Q; marginLeft : Z; marginRight : Z; marginTop : Z; marginBottom : Z }.

Record within := mk_within {
  in_window : bool; in_left : Q; in_top : Q; scrollLeft : Q; scrollTop : Q; in_width : Q; in_height : Q;
  overflowX : string; overflowY : string; scrollWidth : Q; scrollHeight : Q;
}.

Inductive target :=
  | Document (w h : Q)
  | Window (w h left top : Q)
  | Event (pageX pageY : Q)
  | Element (w h left top : Q).

Record position_options := mk_options { o_my : string; o_at : string; o_collision : string }.

Definition target_width (t : target) : Q := match t with Document w _ | Window w _ _ _ | Element w _ _ _ => w | Event _ _ => 0 end.
Definition target_height (t : target) : Q := match t with Document _ h | Window _ h _ _ | Element _ h _ _ => h | Event _ _ => 0 end.
Definition target_left (t : target) : Q := match t with Document _ _ => 0 | Window _ _ x _ | Event x _ | Element _ _ x _ => x end.
Definition target_top (t : target) : Q := match t with Document _ _ => 0 | Window _ _ _ y | Event _ y | Element _ _ _ y => y end.

(** [options.at]: an event has no size, which allows it to be flipped over. *)
Definition at_text (t : target) (o : position_options) : string := match t with Event _ _ => "left top" | _ => o_at o end.

(** [$.position.getScrollInfo]. *)
Definition has_overflow (w : bool) (overflow : string) (size content : Q) : bool :=
  let overflow := if w then ""%string else overflow in
  String.eqb overflow "scroll" || (String.eqb overflow "auto" && qless size content).
Definition getScrollInfo (scrollbarWidth : Q) (w : within) : Q * Q :=
  (if has_overflow (in_window w) (overflowX w) (in_width w) (scrollWidth w) then scrollbarWidth else 0%Q,
   if has_overflow (in_window w) (overflowY w) (in_height w) (scrollHeight w) then scrollbarWidth else 0%Q).

(** Where a side of a length is, from its beginning; and the place of an element of size
    [size] with its side [m] at the side [a] of a target. *)
Definition side (last word : string) (size : Q) : Q :=
  if String.eqb word last then size else if String.eqb word "center" then (size / 2)%Q else 0%Q.

Definition place (last : string) (m a : placement) (size tsize from : Q) : Q :=
  let base := (from + side last a.1 tsize + getOffset a.2 tsize)%Q in
  (base - side last m.1 size + getOffset m.2 size)%Q.

(** [Math.round]. *)
Definition round (q : Q) : Q := inject_Z (Qfloor (q + (1 # 2))%Q).

Section position.
(** [$.support.offsetFractions] and the width of a scroll bar. *)
Context (offsetFractions : bool) (scrollbarWidth : Q).

Definition fraction (q : Q) : Q := if offsetFractions then q else round q.

(** [withinElement.offset() || { left: 0, top: 0 }]: a window has none. *)
Definition within_left (w : within) : Q := if in_window w then 0 else in_left w.
Definition within_top (w : within) : Q := if in_window w then 0 else in_top w.

(** The directions of a call. *)
Definition axis_left (w : within) (e : elem) (t : target) (m a : placement) : axis :=
  mk_axis (in_window w) (within_left w) (scrollLeft w) (in_width w)
    (inject_Z (marginLeft e)) (e_width e + inject_Z (marginLeft e) + inject_Z (marginRight e) + (getScrollInfo scrollbarWidth w).1)
    (e_width e) (target_width t) (getOffset a.2 (target_width t) + getOffset m.2 (e_width e)) m.1 a.1.
Definition axis_top (w : within) (e : elem) (t : target) (m a : placement) : axis :=
  mk_axis (in_window w) (within_top w) (scrollTop w) (in_height w)
    (inject_Z (marginTop e)) (e_height e + inject_Z (marginTop e) + inject_Z (marginBottom e) + (getScrollInfo scrollbarWidth w).2)
    (e_height e) (target_height t) (getOffset a.2 (target_height t) + getOffset m.2 (e_height e)) m.1 a.1.

Definition left_of (w : within) (e : elem) (t : target) (m a : placement) (collision : string) : Q :=
  collide false collision (axis_left w e t m a) (fraction (place "right" m a (e_width e) (target_width t) (target_left t))).
Definition top_of (w : within) (e : elem) (t : target) (m a : placement) (collision : string) : Q :=
  collide true collision (axis_top w e t m a) (fraction (place "bottom" m a (e_height e) (target_height t) (target_top t))).

(** [$.fn.position] with an option [of], for one element: the offset it gets. *)
Definition position (o : position_options) (w : within) (t : target) (e : elem) : option (Q * Q) :=
  match normalize (o_my o), normalize (at_text t o) with
  | Some m, Some a =>
      Some (left_of w e t m.1 a.1 (collisions (o_collision o)).1, top_of w e t m.2 a.2 (collisions (o_collision o)).2)
  | _, _ => None
  end.
End position.

(** ** The second argument of [using] *)

Record feedback := mk_feedback { horizontal : string; vertical : string; important : string }.

Definition feedback_of (t : target) (e : elem) (p : Q * Q) : feedback :=
  let left := (target_left t - p.1)%Q in
  let right := (left + target_width t - e_width e)%Q in
  let top := (target_top t - p.2)%Q in
  let bottom := (top + target_height t - e_height e)%Q in
  mk_feedback
    (if qless (target_width t) (e_width e) && qless (Qabs (left + right)) (target_width t) then "center"
     else if qless right 0 then "left" else if qless 0 left then "right" else "center")
    (if qless (target_height t) (e_height e) && qless (Qabs (top + bottom)) (target_height t) then "middle"
     else if qless bottom 0 then "top" else if qless 0 top then "bottom" else "middle")
    (if qless (Qmax2 (Qabs top) (Qabs bottom)) (Qmax2 (Qabs left) (Qabs right)) then "horizontal" else "vertical").
End Position.
