(* ===== verification/PositionFlow.v ===== *)
(** * Position of jQuery UI, its properties

    Where an element ends up: inside of what it should be within when it fits and is told
    to, at the mirrored place when it is flipped, and never further out by a flip away
    from the edge it crossed. *)

From S2P Require Export UiPosition.
#[local] Open Scope nat_scope.
#[local] Open Scope Z_scope.
Import Position.

(** ** Moving into *)

(** The element with its margins is in the space, when it is at [x]. *)
Definition inside (d : axis) (x : Q) : Prop :=
  (fit_offset d <= x - margin d)%Q /\ (x - margin d + collisionWidth d <= fit_offset d + outerWidth d)%Q.

Lemma fit_inside d x : (collisionWidth d <= outerWidth d)%Q -> (0 <= fit_offset d)%Q ->
  inside d (fit d x) /\ forall y, inside d y -> (Qabs (fit d x - x) <= Qabs (y - x))%Q.
Proof.
  intros Hw Ho. unfold inside, fit. cbn zeta. split.
  - qcases; split; lra.
  - intros y [H1 H2]. qcases; lra.
Qed.

(** An element that is too large covers the space, when it has no margins. *)
Lemma fit_covers d x : (outerWidth d < collisionWidth d)%Q -> (margin d == 0)%Q ->
  (fit d x <= fit_offset d)%Q /\ (fit_offset d + outerWidth d <= fit d x + collisionWidth d)%Q.
Proof. intros Hw Hm. unfold fit. cbn zeta. qcases; split; lra. Qed.

(** ** Flipping *)

(** How far the element leaves the space on the worse side. *)
Definition outside (d : axis) (x : Q) : Q :=
  Qmax2 0 (Qmax2 (fit_offset d - (x - margin d)) (x - margin d + collisionWidth d - outerWidth d - fit_offset d)).

(** A flip from [x] to [x'] moves away from the edges that are crossed. *)
Definition away (d : axis) (x x' : Q) : Prop :=
  ((x - margin d < fit_offset d)%Q -> (x <= x')%Q) /\
  ((fit_offset d + outerWidth d < x - margin d + collisionWidth d)%Q -> (fit_offset d <= x - margin d)%Q -> (x' <= x)%Q).

Lemma flip_left_cases d x : flip_left d x = x \/ flip_left d x = (x + flip_by "left" "right" d)%Q.
Proof. unfold flip_left. cbn zeta. repeat case_match; auto. Qed.

Lemma flip_top_cases d x : flip_top d x = x \/ flip_top d x = (x + flip_by "top" "bottom" d)%Q.
Proof. unfold flip_top. cbn zeta. repeat case_match; auto. Qed.

(** Of the comparisons of a flip, what matters. *)
Lemma flip_condition a c : (qless a 0 || qless a (Qabs c)) = true -> (a < Qabs c)%Q.
Proof. qcases; try done; intros; lra. Qed.
Lemma flip_condition' a c : (0 < c)%Q -> (qless 0 a || qless (Qabs a) c) = true -> (- a < c)%Q.
Proof. intros H. qcases; try done; intros; lra. Qed.

Section outside.
Context (d : axis) (x : Q) (Ho : (w_offset d + w_scroll d == fit_offset d)%Q) (Hm : (0 <= margin d)%Q).

Lemma outside_more (b : Q) : (0 <= b)%Q -> (x - margin d < fit_offset d)%Q ->
  (x + b + collisionWidth d - outerWidth d - fit_offset d < Qabs (x - margin d - fit_offset d))%Q -> (outside d (x + b) <= outside d x)%Q.
Proof. unfold outside. qcases; intros; lra. Qed.

Lemma outside_less (b : Q) : (b <= 0)%Q -> (0 < x - margin d + collisionWidth d - outerWidth d - fit_offset d)%Q ->
  (- (x - margin d + b - fit_offset d) < x - margin d + collisionWidth d - outerWidth d - fit_offset d)%Q -> (outside d (x + b) <= outside d x)%Q.
Proof. unfold outside. qcases; intros; lra. Qed.

Lemma flip_left_outside : away d x (x + flip_by "left" "right" d) -> (outside d (flip_left d x) <= outside d x)%Q.
Proof.
  unfold away, flip_left. cbn zeta. set (b := flip_by _ _ d). intros [H1 H2]. rewrite Ho.
  destruct (qless_reflect (x - margin d - fit_offset d) 0) as [Hl|Hl].
  - case_match eqn:E; [|lra]. apply flip_condition in E. apply outside_more; [enough (x <= x + b)%Q by lra; apply H1; lra|lra|exact E].
  - destruct (qless_reflect 0 (x - margin d + collisionWidth d - outerWidth d - fit_offset d)) as [Hr|Hr]; [|lra].
    case_match eqn:E; [|lra]. apply flip_condition' in E; [|done]. apply outside_less; [enough (x + b <= x)%Q by lra; apply H2; lra|done|exact E].
Qed.

Lemma flip_top_outside : away d x (x + flip_by "top" "bottom" d) -> (outside d (flip_top d x) <= outside d x)%Q.
Proof.
  unfold away, flip_top. cbn zeta. set (b := flip_by _ _ d). intros [H1 H2]. rewrite Ho.
  destruct (qless_reflect (x - margin d - fit_offset d) 0) as [Hl|Hl].
  - case_match eqn:E; [|lra]. apply andb_prop in E as [_ E%flip_condition]. apply outside_more; [enough (x <= x + b)%Q by lra; apply H1; lra|lra|exact E].
  - destruct (qless_reflect 0 (x - margin d + collisionWidth d - outerWidth d - fit_offset d)) as [Hr|Hr]; [|lra].
    case_match eqn:E; [|lra]. apply andb_prop in E as [_ E]. apply flip_condition' in E; [|done].
    apply outside_less; [enough (x + b <= x)%Q by lra; apply H2; lra|done|exact E].
Qed.
End outside.

(** ** The mirrored placement *)

Definition other_side (first last word : string) : string :=
  if String.eqb word first then last else if String.eqb word last then first else word.

Definition negated (s : string) : string :=
  match s with String c s' => String (if Ascii.eqb c "-" then "+" else "-") s' | EmptyString => s end.

(** The other side, and the offset with the other sign. *)
Definition mirror (first last : string) (p : placement) : placement := (other_side first last p.1, negated <$> p.2).

(** What [roffset] finds: a sign, digits, and perhaps a percent sign. *)
Definition signed (s : string) : Prop := exists c s', s = String c s' /\ is_in "+-" c = true /\ s' <> "".

Lemma roffset_signed s o : roffset s = Some o -> signed o.
Proof.
  induction s as [|c s IH]; cbn [roffset]; [done|]. destruct (is_in "+-" c) eqn:Ec; [|exact IH].
  destruct (leading_digits s) as [|d ds]; [exact IH|]. intros [= <-]. exists c, (String d ds +:+ (if String.prefix "%" (after_digits s) then "%" else "")).
  done.
Qed.

Lemma getOffset_negated s size : signed s -> (getOffset (Some (negated s)) size == - getOffset (Some s) size)%Q.
Proof.
  intros (c & s' & -> & Hc & Hs). unfold getOffset, negated.
  assert (forall c', ends_percent (String c' s') = ends_percent (String c s')) as Ep by (destruct s'; [done|reflexivity]).
  assert (parseInt (String "-" s') = Z.opp <$> unsigned_number (leading_digits s')) as Em by reflexivity.
  assert (parseInt (String "+" s') = unsigned_number (leading_digits s')) as Ea by reflexivity.
  rewrite (Ep (if Ascii.eqb c "-" then _ else _)). set (k := if ends_percent _ then _ else _). clearbody k.
  unfold is_in in Hc. rewrite orb_false_r in Hc. apply orb_prop in Hc as [->%Ascii.eqb_eq| ->%Ascii.eqb_eq].
  - change (if Ascii.eqb "+" "-" then "+"%char else "-"%char) with "-"%char. rewrite Em, Ea.
    destruct (unsigned_number _) as [n|]; cbn [from_option fmap option_fmap option_map id]; rewrite ?inject_Z_opp; change (inject_Z 0) with 0%Q; ring.
  - change (if Ascii.eqb "-" "-" then "+"%char else "-"%char) with "+"%char. rewrite Em, Ea.
    destruct (unsigned_number _) as [n|]; cbn [from_option fmap option_fmap option_map id]; rewrite ?inject_Z_opp; change (inject_Z 0) with 0%Q; ring.
Qed.

Definition well_signed (p : placement) : Prop := match p.2 with Some s => signed s | None => True end.

Lemma placement_of_signed s p : placement_of s = Some p -> well_signed p.
Proof.
  unfold placement_of. destruct (rposition s); cbn; [|done]. intros [= <-]. unfold well_signed. cbn.
  destruct (roffset s) eqn:E; [|done]. by apply roffset_signed in E.
Qed.

Lemma normalize_signed s a b : normalize s = Some (a, b) -> well_signed a /\ well_signed b.
Proof.
  unfold normalize. destruct (placement_of _) as [h|] eqn:Eh; [|done]. destruct (placement_of (if rvertical _ then _ else _)) as [v|] eqn:Ev; [|done].
  intros [= <- <-]. split; [by eapply placement_of_signed|by eapply placement_of_signed].
Qed.

Lemma getOffset_mirror first last p size : well_signed p -> (getOffset (mirror first last p).2 size == - getOffset p.2 size)%Q.
Proof. unfold mirror, well_signed. destruct p as [w [o|]]; cbn [fst snd fmap option_fmap option_map]; [by apply getOffset_negated|intros _; reflexivity]. Qed.

Lemma side_mirror first last word size : first <> last -> first <> "center" -> last <> "center" ->
  (side last (other_side first last word) size - side last word size == sided first last word size (- size))%Q.
Proof.
  intros H1 H2 H3. unfold side, other_side, sided.
  destruct (String.eqb_spec word first) as [->|N1].
  { rewrite String.eqb_refl. rewrite (proj2 (String.eqb_neq first last)) by done.
    rewrite (proj2 (String.eqb_neq first "center")) by done. ring. }
  destruct (String.eqb_spec word last) as [->|N2].
  { rewrite (proj2 (String.eqb_neq first last)) by done. rewrite (proj2 (String.eqb_neq first "center")) by done. ring. }
  rewrite (proj2 (String.eqb_neq word last)) by done. destruct (String.eqb word "center"); ring.
Qed.

(** Flipping is placing with the sides exchanged and the offsets negated. *)
Lemma place_mirror first last m a d size tsize from : first <> last -> first <> "center" -> last <> "center" ->
  well_signed m -> well_signed a -> my d = m.1 -> at_ d = a.1 -> elemWidth d = size -> targetWidth d = tsize ->
  offset d = (getOffset a.2 tsize + getOffset m.2 size)%Q ->
  (place last (mirror first last m) (mirror first last a) size tsize from == place last m a size tsize from + flip_by first last d)%Q.
Proof.
  intros H1 H2 H3 Hm Ha E1 E2 E3 E4 E5. unfold place, flip_by. rewrite E1, E2, E3, E4, E5. rewrite !getOffset_mirror by done.
  pose proof (side_mirror first last m.1 size H1 H2 H3) as Sm. pose proof (side_mirror first last a.1 tsize H1 H2 H3) as Sa.
  unfold mirror. cbn [fst].
  assert (sided first last m.1 (- size) size == - sided first last m.1 size (- size))%Q as -> by (unfold sided; repeat case_match; ring).
  rewrite <- Sm, <- Sa. ring.
Qed.

(** ** Calls *)

Definition moved_in (collision : string) : bool := String.eqb collision "fit" || String.eqb collision "flipfit".

Lemma collide_inside vertical c d x : moved_in c = true -> (collisionWidth d <= outerWidth d)%Q -> (0 <= fit_offset d)%Q ->
  inside d (collide vertical c d x).
Proof.
  unfold moved_in, collide. destruct (String.eqb c "fit"); cbn [orb]; [by intros _ Hw Ho; apply fit_inside|].
  intros Hc. apply String.eqb_eq in Hc as ->. cbn [String.eqb Ascii.eqb Bool.eqb]. by intros Hw Ho; apply fit_inside.
Qed.

Lemma collide_fit vertical d x : collide vertical "fit" d x = fit d x.
Proof. done. Qed.

Definition from_left (w : within) : Q := if in_window w then scrollLeft w else in_left w.
Definition from_top (w : within) : Q := if in_window w then scrollTop w else in_top w.

Lemma fit_offset_left sb w e t m a : fit_offset (axis_left sb w e t m a) = from_left w.
Proof. unfold fit_offset, from_left. cbn. unfold within_left. by destruct (in_window w). Qed.
Lemma fit_offset_top sb w e t m a : fit_offset (axis_top sb w e t m a) = from_top w.
Proof. unfold fit_offset, from_top. cbn. unfold within_top. by destruct (in_window w). Qed.

(** Nothing else moves an element in the other directions: what a call gives is the pair
    of what it gives across and down. *)
Lemma position_parts frac sb o w t e x y : position frac sb o w t e = Some (x, y) ->
  exists m a, normalize (o_my o) = Some m /\ normalize (at_text t o) = Some a /\
    x = left_of frac sb w e t m.1 a.1 (collisions (o_collision o)).1 /\ y = top_of frac sb w e t m.2 a.2 (collisions (o_collision o)).2.
Proof.
  unfold position. destruct (normalize (o_my o)) as [m|]; [|done]. destruct (normalize (at_text t o)) as [a|]; [|done].
  intros [= <- <-]. by exists m, a.
Qed.

#[local] Arguments getScrollInfo : simpl never.
#[local] Arguments inject_Z : simpl never.
#[local] Arguments Qplus : simpl never.
#[local] Arguments Qminus : simpl never.

Section properties.
Context (frac : bool) (sb : Q) (o : position_options) (w : within) (t : target) (e : elem) (x y : Q).

(** C31. Placing respects the space: whatever the texts of [my] and [at] and wherever the
    target is, in a direction whose collision is [fit] or [flipfit] an element that with
    its margins is not larger than the space ends up inside of it, as long as the space
    does not begin left of (or above) the page; and with [fit] no place inside of it is
    nearer to the place it would have without collisions. *)
Theorem position_inside : position frac sb o w t e = Some (x, y) ->
  let s := getScrollInfo sb w in
  let (cl, ct) := collisions (o_collision o) in
  exists x0 y0, position frac sb (mk_options (o_my o) (o_at o) "none") w t e = Some (x0, y0) /\
  let in_left z := (from_left w <= z - inject_Z (marginLeft e))%Q /\ (z + e_width e + inject_Z (marginRight e) + s.1 <= from_left w + in_width w)%Q in
  let in_top z := (from_top w <= z - inject_Z (marginTop e))%Q /\ (z + e_height e + inject_Z (marginBottom e) + s.2 <= from_top w + in_height w)%Q in
  (moved_in cl = true -> (e_width e + inject_Z (marginLeft e) + inject_Z (marginRight e) + s.1 <= in_width w)%Q -> (0 <= from_left w)%Q ->
    in_left x /\ (cl = "fit" -> forall z, in_left z -> (Qabs (x - x0) <= Qabs (z - x0))%Q)) /\
  (moved_in ct = true -> (e_height e + inject_Z (marginTop e) + inject_Z (marginBottom e) + s.2 <= in_height w)%Q -> (0 <= from_top w)%Q ->
    in_top y /\ (ct = "fit" -> forall z, in_top z -> (Qabs (y - y0) <= Qabs (z - y0))%Q)).
Proof.
  intros (m & a & Em & Ea & Ex & Ey)%position_parts s. destruct (collisions (o_collision o)) as [cl ct]. cbn [fst snd] in Ex, Ey.
  eexists _, _. split.
  { unfold position. cbn [o_my]. change (at_text t _) with (at_text t o). rewrite Em, Ea. reflexivity. }
  change (collisions (o_collision (mk_options (o_my o) (o_at o) "none"))) with ("none"%string, "none"%string). cbn [fst snd].
  cbn zeta. split.
  - intros Hc Hw Ho. rewrite Ex. unfold left_of. set (p := fraction _ _). clearbody p.
    pose proof (collide_inside false cl (axis_left sb w e t m.1 a.1) p Hc Hw) as Hi. unfold inside in Hi. rewrite fit_offset_left in Hi.
    specialize (Hi Ho). cbn in Hi. fold s in Hi. split; [split; lra|]. intros -> z Hz.
    apply (fit_inside (axis_left sb w e t m.1 a.1) p Hw); [by rewrite fit_offset_left|]. unfold inside. rewrite fit_offset_left. cbn. fold s. lra.
  - intros Hc Hw Ho. rewrite Ey. unfold top_of. set (p := fraction _ _). clearbody p.
    pose proof (collide_inside true ct (axis_top sb w e t m.2 a.2) p Hc Hw) as Hi. unfold inside in Hi. rewrite fit_offset_top in Hi.
    specialize (Hi Ho). cbn in Hi. fold s in Hi. split; [split; lra|]. intros -> z Hz.
    apply (fit_inside (axis_top sb w e t m.2 a.2) p Hw); [by rewrite fit_offset_top|]. unfold inside. rewrite fit_offset_top. cbn. fold s. lra.
Qed.

(** C32. Flipping is mirroring: with the collision [flip], a page that knows fractions
    and well-formed texts, an element is where [my] and [at] place it, or where they do
    with left and right (top and bottom) exchanged and the offsets negated; and when the
    space is the window, margins are not negative and the mirrored place lies away from the
    edge that was crossed, it does not leave the space further than before. *)
Theorem flip_mirrors m a : position true sb o w t e = Some (x, y) -> collisions (o_collision o) = ("flip", "flip")%string ->
  normalize (o_my o) = Some m -> normalize (at_text t o) = Some a ->
  let x0 := place "right" m.1 a.1 (e_width e) (target_width t) (target_left t) in
  let y0 := place "bottom" m.2 a.2 (e_height e) (target_height t) (target_top t) in
  let x1 := place "right" (mirror "left" "right" m.1) (mirror "left" "right" a.1) (e_width e) (target_width t) (target_left t) in
  let y1 := place "bottom" (mirror "top" "bottom" m.2) (mirror "top" "bottom" a.2) (e_height e) (target_height t) (target_top t) in
  ((x == x0)%Q \/ (x == x1)%Q) /\ ((y == y0)%Q \/ (y == y1)%Q) /\
  (in_window w = true -> 0 <= marginLeft e -> away (axis_left sb w e t m.1 a.1) x0 x1 ->
    (outside (axis_left sb w e t m.1 a.1) x <= outside (axis_left sb w e t m.1 a.1) x0)%Q) /\
  (in_window w = true -> 0 <= marginTop e -> away (axis_top sb w e t m.2 a.2) y0 y1 ->
    (outside (axis_top sb w e t m.2 a.2) y <= outside (axis_top sb w e t m.2 a.2) y0)%Q).
Proof.
  intros (m' & a' & Em & Ea & Ex & Ey)%position_parts Hc Em' Ea'. rewrite Em in Em'. injection Em' as ->. rewrite Ea in Ea'. injection Ea' as ->.
  rewrite Hc in Ex, Ey. cbn [fst snd] in Ex, Ey. intros x0 y0 x1 y1.
  destruct m as [mh mv], a as [ah av]. destruct (normalize_signed _ _ _ Em) as [M1 M2]. destruct (normalize_signed _ _ _ Ea) as [A1 A2]. cbn [fst snd] in *.
  set (dl := axis_left sb w e t mh ah) in *. set (dt := axis_top sb w e t mv av) in *.
  change (x = flip_left dl x0) in Ex. change (y = flip_top dt y0) in Ey.
  assert (x1 == x0 + flip_by "left" "right" dl)%Q as Ex1 by (by apply place_mirror).
  assert (y1 == y0 + flip_by "top" "bottom" dt)%Q as Ey1 by (by apply place_mirror).
  split; [destruct (flip_left_cases dl x0) as [E|E]; rewrite Ex, E; [by left|right; by rewrite Ex1]|].
  split; [destruct (flip_top_cases dt y0) as [E|E]; rewrite Ey, E; [by left|right; by rewrite Ey1]|].
  split; intros Hw Hm [H1 H2].
  - rewrite Ex. apply flip_left_outside; [|change (inject_Z 0 <= inject_Z (marginLeft e))%Q; by rewrite <- Zle_Qle|unfold away; rewrite <- Ex1; by split].
    unfold fit_offset. cbn. unfold within_left. rewrite Hw. ring.
  - rewrite Ey. apply flip_top_outside; [|change (inject_Z 0 <= inject_Z (marginTop e))%Q; by rewrite <- Zle_Qle|unfold away; rewrite <- Ey1; by split].
    unfold fit_offset. cbn. unfold within_top. rewrite Hw. ring.
Qed.
End properties.

(** ** Runs

    A menu below its field in a window of 800 by 600 pixels, and the places where the
    code does not do what it means to. *)


Definition screen : within := mk_within true 0 0 0 0 800 600 "" "" 800 600.
Definition menu : elem := mk_elem 200 100 0 0 0 0.
Definition below (collision : string) : position_options := mk_options "left top" "left bottom" collision.

Definition Qeqs (p : option (Q * Q)) (x y : Q) : bool :=
  match p with Some (a, b) => Qeq_bool a x && Qeq_bool b y | None => false end.

(** Below the field; above it where there is no room; at the edge with [fit]. *)
Example menu_below : Qeqs (position true 17 (below "") screen (Element 100 20 10 300) menu) 10 320 = true.
Proof. reflexivity. Qed.
Example menu_above : Qeqs (position true 17 (below "flip") screen (Element 100 20 10 550) menu) 10 450 = true.
Proof. reflexivity. Qed.
Example menu_fitted : Qeqs (position true 17 (below "flipfit fit") screen (Element 100 20 750 550) menu) 600 500 = true.
Proof. reflexivity. Qed.
Example with_offsets : Qeqs (position true 17 (mk_options "left+10 top-50%" "right bottom+3" "none") screen (Element 100 20 10 300) menu) 120 273 = true.
Proof. reflexivity. Qed.

(** The same in another element, 300 pixels wide, with a vertical scroll bar. *)
Definition box : within := mk_within false 50 40 0 900 300 200 "hidden" "scroll" 300 2000.
Definition picture : elem := mk_elem 60 60 5 5 5 5.

Definition beside : position_options := mk_options "right center" "left+3" "fit flipfit".
Definition spot : target := Element 10 10 60 230.

Lemma position_inside_witness :
  match position true 17 beside box spot picture with
  | Some (x, y) => (50 <= x - 5)%Q /\ (y + 60 + 5 + 17 <= 40 + 200)%Q
  | None => False
  end.
Proof.
  destruct (position true 17 beside box spot picture) as [[x y]|] eqn:E; [|vm_compute in E; discriminate E].
  destruct (position_inside true 17 beside box spot picture x y E) as (x0 & y0 & _ & H1 & H2).
  destruct (H1 eq_refl ltac:(vm_compute; discriminate) ltac:(vm_compute; discriminate)) as [[A _] _].
  destruct (H2 eq_refl ltac:(vm_compute; discriminate) ltac:(vm_compute; discriminate)) as [[_ B] _].
  split; [exact A|exact B].
Defined.

Lemma flip_mirrors_witness :
  match position true 17 (below "flip") screen (Element 100 20 10 550) menu with
  | Some (x, y) =>
      (y == 570 \/ y == 450)%Q /\
      (outside (axis_top 17 screen menu (Element 100 20 10 550) ("top", None) ("bottom", None)) y <= 70)%Q
  | None => False
  end.
Proof.
  destruct (position true 17 (below "flip") screen (Element 100 20 10 550) menu) as [[x y]|] eqn:E; [|vm_compute in E; discriminate E].
  destruct (flip_mirrors 17 (below "flip") screen (Element 100 20 10 550) menu x y (("left", None), ("top", None)) (("left", None), ("bottom", None))
    E eq_refl eq_refl eq_refl) as (_ & H1 & _ & H2).
  split; [exact H1|]. apply (H2 eq_refl); [done|]. split; intros H; vm_compute in H; discriminate H || (vm_compute; discriminate).
Defined.

(** *** Where the code does not do what it means to *)

(** A space that begins left of the page: an element inside of it is moved out. *)
Definition aside : within := mk_within false (-500) 0 0 0 300 300 "" "" 300 300.
Example fit_leaves : Qeqs (position true 17 (mk_options "left top" "left top" "fit") aside (Element 10 10 (-400) 10) (mk_elem 50 50 0 0 0 0)) 0 10 = true.
Proof. reflexivity. Qed.

(** Flipping away from the left edge moves an element that is wider than its target
    further over it. *)
Example flip_is_worse : Qeqs (position true 17 (mk_options "left top" "left top" "flip") screen (Element 20 20 (-10) 10) (mk_elem 100 20 0 0 0 0)) (-90) 10 = true.
Proof. reflexivity. Qed.

(** The same at the right edge, for an element left of its target. *)
Example flip_is_worse_right : Qeqs (position true 17 (mk_options "right top" "left top" "flip") screen (Element 20 20 850 10) (mk_elem 100 20 0 0 0 0)) 870 10 = true.
Proof. reflexivity. Qed.

(** In an element that is scrolled the scroll position counts twice: the flipped element
    leaves it at the right by more than it left it at the left. *)
Definition scrolled (by_ : Q) : within := mk_within false 0 0 by_ 0 300 300 "hidden" "hidden" 2000 300.
Example flip_in_scrolled :
  let o := mk_options "right top" "left top" "flip" in
  let e := mk_elem 200 20 0 0 0 0 in
  Qeqs (position true 17 o (scrolled 0) (Element 20 20 150 10) e) (-50) 10 = true /\
  Qeqs (position true 17 o (scrolled 1000) (Element 20 20 150 10) e) 170 10 = true.
Proof. split; reflexivity. Qed.

(** There is room above the target, but the menu stays below, where there is none: the new
    place is compared to what overlaps.  Across the same distances are flipped. *)
Definition small : within := mk_within true 0 0 0 0 200 200 "" "" 200 200.
Example room_above :
  Qeqs (position true 17 (mk_options "left top" "left bottom" "flip") small (Element 20 20 0 100) (mk_elem 100 100 0 0 0 0)) 0 120 = true /\
  Qeqs (position true 17 (mk_options "left top" "right top" "flip") small (Element 20 20 100 0) (mk_elem 100 100 0 0 0 0)) 0 0 = true.
Proof. split; reflexivity. Qed.

(** A text that names a side but does not begin with a word raises an exception; one that
    names none is the center; a longer word with a side in it is no side. *)
Example sides :
  normalize "+left top" = None /\ normalize "middle" = Some (("center", None), ("center", None)) /\
  normalize "leftmost" = Some (("leftmost", None), ("center", None)).
Proof. repeat split; reflexivity. Qed.

(** The feedback of the menu above: its target is at its bottom, and at its left. *)
Example told_above : feedback_of (Element 100 20 10 550) menu (10, 450)%Q = mk_feedback "left" "bottom" "vertical".
Proof. reflexivity. Qed.
