(* ===== verification/DpInst.v ===== *)
(** * jQuery UI datepicker: the dates of an instance

    Models the methods of [jquery-ui.js] that move the dates of one datepicker:
    relative dates, bounds, the selected, drawn and current day.  A relative date
    that is first tried as text is parsed with a format without ticks; a parse that
    would never end counts as one that throws. *)

From S2P Require Export DpCheck.

(** A date of the options: nothing, a text, days from today, or a [Date]. *)
Inductive dspec := DNull | DStr (s : string) | DNum (n : Z) | DDate (t : Z).

Record options := mk_options {
  dateFormat : string; defaultDate : dspec; minDate : dspec; maxDate : dspec;
  gotoCurrent : bool; stepMonths : Z; stepBigMonths : Z; showCurrentAtPos : Z;
  numberOfMonths : Z * Z; altField : bool; altFormat : string;
  onSelect : bool; onChangeMonthYear : bool; disabled : bool; isRTL : bool;
  config : settings;
}.

(** What the page is told. *)
Inductive dp_event := ChangedMonthYear (year month : Z) | Selected (date : string) | Changed.

(** A cell of the calendar on the page: the day its link shows, the month and year it is
    marked with, and its classes. *)
Record cell := mk_cell {
  c_day : option Z; c_month : Z; c_year : Z; c_unselectable : bool; c_over : bool; c_current : bool;
}.

(** [table]: the cells of the calendar as it was drawn last. *)
Record inst := mk_inst {
  input : option string; lastVal : option string; altVal : string;
  selectedDay : Z; selectedMonth : Z; selectedYear : Z;
  drawMonth : Z; drawYear : Z;
  currentDay : Z; currentMonth : Z; currentYear : Z;
  keyEvent : bool; showing : bool; told : list dp_event; table : list cell;
}.
#[export] Instance inst_eta : Settable inst := fun i =>
  mk_inst (input i) (lastVal i) (altVal i) (selectedDay i) (selectedMonth i) (selectedYear i)
    (drawMonth i) (drawYear i) (currentDay i) (currentMonth i) (currentYear i)
    (keyEvent i) (showing i) (told i) (table i).

Section instance.
Context (now tz : Z) (o : options).

(** [_getFormatConfig]: the cutoff becomes a number, [NaN] counts as none. *)
Definition getFormatConfig : settings :=
  let c := match shortYearCutoff (config o) with Some c => c | None => CStr "+10" end in
  mk_settings (CNum <$> cutoff_value now c) (dayNamesShort (config o)) (dayNames (config o))
    (monthNamesShort (config o)) (monthNames (config o)).

Definition empty_input (i : inst) : bool :=
  match input i with Some v => String.eqb v "" | None => false end.

Definition getDate_of (i : inst) : option Z :=
  if (currentYear i =? 0) || empty_input i then None
  else Some (daylightSavingAdjust (new_date (currentYear i) (currentMonth i) (currentDay i))).

(** ** [_determineDate] *)

Definition offsetNumeric (offset : Z) : Z := setDate (getDate now + offset) now.

(** The matches of [/([+-]?[0-9]+)\s*(d|D|w|W|m|M|y|Y)?/g]. *)
Fixpoint after_digits (s : string) : string :=
  match s with
  | String c s' => if is_digit c then after_digits s' else s
  | EmptyString => EmptyString
  end.

Definition unit_of (s : string) : ascii * string :=
  match skip_blanks s with
  | String c s' => if is_in "dDwWmMyY" c then (c, s') else ("d"%char, String c s')
  | EmptyString => ("d"%char, EmptyString)
  end.

Fixpoint offsets (fuel : nat) (s : string) : list (Z * ascii) :=
  match fuel, s with
  | S n, String c s' =>
      if ((Ascii.eqb c "+" || Ascii.eqb c "-") && starts_digit s') || is_digit c then
        let num := default 0 (parseInt s) in
        let '(u, rest) := unit_of (after_digits s') in
        (num, u) :: offsets n rest
      else offsets n s'
  | _, _ => []
  end.

Definition add_offset (d : Z * Z * Z) (m : Z * ascii) : Z * Z * Z :=
  let '(year, month, day) := d in
  let '(n, u) := m in
  if is_in "dD" u then (year, month, day + n)
  else if is_in "wW" u then (year, month, day + n * 7)
  else if is_in "mM" u then
    let month := month + n in (year, month, Z.min day (getDaysInMonth year month))
  else
    let year := year + n in (year, month, Z.min day (getDaysInMonth year month)).

Definition offsetString (i : inst) (offset : string) : Z :=
  match parseDate now tz (dateFormat o) offset (Some getFormatConfig) with
  | Ok (Some date) => date
  | _ =>
      let date := match toLowerCase offset with
                  | String c _ => if Ascii.eqb c "c" then default now (getDate_of i) else now
                  | EmptyString => now
                  end in
      let '(year, month, day) := fold_left add_offset (offsets (String.length offset) offset)
                                   (getFullYear date, getMonth date, getDate date) in
      new_date year month day
  end.

Definition determineDate (i : inst) (date : dspec) (defaultDate : option Z) : option Z :=
  let newDate := match date with
    | DNull => defaultDate
    | DStr s => if String.eqb s "" then defaultDate else Some (offsetString i s)
    | DNum n => Some (offsetNumeric n)
    | DDate t => Some t
    end in
  (fun t => daylightSavingAdjust (midnight t)) <$> newDate.

(** ** Bounds *)

Definition getMinDate (i : inst) : option Z := determineDate i (minDate o) None.
Definition getMaxDate (i : inst) : option Z := determineDate i (maxDate o) None.

Definition restrictMinMax (i : inst) (date : Z) : Z :=
  let newDate := match getMinDate i with
                 | Some m => if date <? m then m else date
                 | None => date
                 end in
  match getMaxDate i with
  | Some m => if m <? newDate then m else newDate
  | None => newDate
  end.

Definition isInRange (i : inst) (date : Z) : bool :=
  match getMinDate i with Some m => m <=? date | None => true end &&
  match getMaxDate i with Some m => date <=? m | None => true end.

Definition canAdjustMonth (i : inst) (offset curYear curMonth : Z) : bool :=
  let n := fst (numberOfMonths o) * snd (numberOfMonths o) in
  let date := daylightSavingAdjust
                (new_date curYear (curMonth + (if offset <? 0 then offset else n)) 1) in
  let date := if offset <? 0 then setDate (getDaysInMonth (getFullYear date) (getMonth date)) date
              else date in
  isInRange i date.

Definition getDefaultDate (i : inst) : Z :=
  restrictMinMax i (default now (determineDate i (defaultDate o) (Some now))).

(** ** Moving the selected day *)

Definition notifyChange (i : inst) : inst :=
  if onChangeMonthYear o
  then i <| told := told i ++ [ChangedMonthYear (selectedYear i) (selectedMonth i + 1)] |> else i.

Inductive period := PDay | PMonth | PYear | PNone.
#[global] Instance period_eq_dec : EqDecision period.
Proof. solve_decision. Defined.

Definition show (date : Z) (i : inst) : inst :=
  i <| selectedDay := getDate date |>
    <| drawMonth := getMonth date |> <| selectedMonth := getMonth date |>
    <| drawYear := getFullYear date |> <| selectedYear := getFullYear date |>.

Definition adjustInstDate (offset : Z) (p : period) (i : inst) : inst :=
  let year := drawYear i + (if decide (p = PYear) then offset else 0) in
  let month := drawMonth i + (if decide (p = PMonth) then offset else 0) in
  let day := Z.min (selectedDay i) (getDaysInMonth year month)
             + (if decide (p = PDay) then offset else 0) in
  let date := restrictMinMax i (daylightSavingAdjust (new_date year month day)) in
  let i := show date i in
  match p with PMonth | PYear => notifyChange i | _ => i end.

Definition set_current (date : Z) (i : inst) : inst :=
  i <| currentDay := getDate date |> <| currentMonth := getMonth date |>
    <| currentYear := getFullYear date |>.

Definition no_current (i : inst) : inst :=
  i <| currentDay := 0 |> <| currentMonth := 0 |> <| currentYear := 0 |>.

Definition setDateFromField (noDefault : bool) (i : inst) : inst :=
  match input i with
  | None => i
  | Some val =>
      if decide (lastVal i = Some val) then i
      else
        let i := i <| lastVal := Some val |> in
        let defaultDate := getDefaultDate i in
        let '(date, dates) :=
          match parseDate now tz (dateFormat o) val (Some getFormatConfig) with
          | Ok d => (default defaultDate d, val)
          | _ => (defaultDate, if noDefault then ""%string else val)
          end in
        let i := show date i in
        let i := if String.eqb dates "" then no_current i else set_current date i in
        adjustInstDate 0 PNone i
  end.

Definition formatDate_of (day : option (Z * Z * Z)) (i : inst) : inst * string :=
  let i := match day with
    | Some _ => i
    | None => i <| currentDay := selectedDay i |> <| currentMonth := selectedMonth i |>
                <| currentYear := selectedYear i |>
    end in
  let date := match day with
    | Some (d, m, y) => daylightSavingAdjust (new_date y m d)
    | None => daylightSavingAdjust (new_date (currentYear i) (currentMonth i) (currentDay i))
    end in
  (i, formatDate tz (dateFormat o) (Some date) (Some getFormatConfig)).

(** [!date]. *)
Definition falsy_date (date : dspec) : bool :=
  match date with
  | DNull => true | DStr s => String.eqb s "" | DNum n => n =? 0 | DDate _ => false
  end.

Definition setDate_of (date : dspec) (noChange : bool) (i : inst) : inst :=
  let origMonth := selectedMonth i in
  let origYear := selectedYear i in
  let newDate := restrictMinMax i (default now (determineDate i date (Some now))) in
  let i := set_current newDate (show newDate i) in
  let i := if (negb (origMonth =? selectedMonth i) || negb (origYear =? selectedYear i))
              && negb noChange then notifyChange i else i in
  let i := adjustInstDate 0 PNone i in
  match input i with
  | Some _ =>
      if falsy_date date then i <| input := Some ""%string |>
      else let '(i, s) := formatDate_of None i in i <| input := Some s |>
  | None => i
  end.

Definition updateAlternate (i : inst) : inst :=
  if altField o then
    let f := if String.eqb (altFormat o) "" then dateFormat o else altFormat o in
    i <| altVal := formatDate tz f (getDate_of i) (Some getFormatConfig) |>
  else i.
End instance.
