(* ===== verification/DpCalendar.v ===== *)
(** * jQuery UI datepicker: the calendar

    Models [_generateHTML] and [_generateMonthYearHeader] of [jquery-ui.js] as the
    text they return and their effect on the instance.  The days of a month's table
    are the list [month_dates]; the properties are about that list. *)

From S2P Require Export DpInst.

(** The options that only matter to the display. *)
Record look := mk_look {
  showButtonPanel : bool; hideIfNoPrevNext : bool; navigationAsDateFormat : bool;
  prevText : string; nextText : string; currentText : string; closeText : string;
  firstDay : string; showWeek : bool; weekHeader : string; dayNamesMin : list string;
  showOtherMonths : bool; selectOtherMonths : bool;
  changeMonth : bool; changeYear : bool; showMonthAfterYear : bool;
  yearRange : string; yearSuffix : string;
  beforeShowDay : option (Z -> bool * string * option string);
  calculateWeek : Z -> Z;
}.

Section calendar.
Context (now tz : Z) (o : options) (k : look).

Definition name_at (l : list string) (i : Z) : string := default "undefined" (zlookup l i).

Definition when (b : bool) (s : string) : string := if b then s else EmptyString.

(** ** The years and months to choose from *)

Definition has_sign (s : string) : bool := is_in s "+" || is_in s "-".

(** [/c[+-].*/]. *)
Fixpoint has_c_sign (s : string) : bool :=
  match s with
  | String c s' =>
      (Ascii.eqb c "c" && match s' with
                          | String c' _ => Ascii.eqb c' "+" || Ascii.eqb c' "-"
                          | EmptyString => false
                          end) || has_c_sign s'
  | EmptyString => false
  end.

Definition determineYear (drawYear : Z) (v : string) : Z :=
  let thisYear := getFullYear now in
  let year := if has_c_sign v
              then (fun n => drawYear + n) <$> parseInt (String.substring 1 (String.length v - 1) v)
              else if has_sign v then (fun n => thisYear + n) <$> parseInt v
              else parseInt v in
  default thisYear year.

(** The first and the last year of the list. *)
Definition year_range (drawYear : Z) (minDate maxDate : option Z) : Z * Z :=
  let years := split_on ":" (yearRange k) in
  let year := determineYear drawYear (default "undefined" (years !! 0%nat)) in
  let endYear := Z.max year (determineYear drawYear (default "" (years !! 1%nat))) in
  (match minDate with Some m => Z.max year (getFullYear m) | None => year end,
   match maxDate with Some m => Z.min endYear (getFullYear m) | None => endYear end).

Definition option_tag (value : Z) (selected : bool) (text : string) : string :=
  "<option" +:+ attr "value" (pretty value) +:+ when selected (attr "selected" "selected")
  +:+ ">" +:+ text +:+ "</option>".

Definition month_in_range (drawYear : Z) (minDate maxDate : option Z) (month : Z) : bool :=
  match minDate with
  | Some m => negb (getFullYear m =? drawYear) || (getMonth m <=? month)
  | None => true
  end &&
  match maxDate with
  | Some m => negb (getFullYear m =? drawYear) || (month <=? getMonth m)
  | None => true
  end.

Definition generateMonthYearHeader (drawMonth drawYear : Z) (minDate maxDate : option Z)
    (secondary : bool) : string :=
  let monthHtml :=
    if secondary || negb (changeMonth k)
    then "<span" +:+ attr "class" "ui-datepicker-month" +:+ ">"
         +:+ name_at (names_of monthNames (Some (config o))) drawMonth +:+ "</span>"
    else "<select" +:+ attr "class" "ui-datepicker-month" +:+ attr "data-handler" "selectMonth"
         +:+ attr "data-event" "change" +:+ ">"
         +:+ String.concat "" ((fun m => option_tag m (m =? drawMonth)
               (name_at (names_of monthNamesShort (Some (config o))) m))
             <$> List.filter (month_in_range drawYear minDate maxDate) (zrange 0 12))
         +:+ "</select>" in
  let space := when (secondary || negb (changeMonth k && changeYear k)) "&#xa0;" in
  let yearHtml :=
    if secondary || negb (changeYear k)
    then "<span" +:+ attr "class" "ui-datepicker-year" +:+ ">" +:+ pretty drawYear +:+ "</span>"
    else let '(year, endYear) := year_range drawYear minDate maxDate in
         "<select" +:+ attr "class" "ui-datepicker-year" +:+ attr "data-handler" "selectYear"
         +:+ attr "data-event" "change" +:+ ">"
         +:+ String.concat "" ((fun y => option_tag y (y =? drawYear) (pretty y))
             <$> zrange year (Z.to_nat (endYear + 1 - year)))
         +:+ "</select>" in
  "<div" +:+ attr "class" "ui-datepicker-title" +:+ ">"
  +:+ when (negb (showMonthAfterYear k)) (monthHtml +:+ space)
  +:+ yearHtml +:+ yearSuffix k
  +:+ when (showMonthAfterYear k) (space +:+ monthHtml) +:+ "</div>".

(** ** The days of a month *)

Definition first_day : Z := default 0 (parseInt (firstDay k)).

Definition leadDays (drawYear drawMonth : Z) : Z :=
  Z.rem (getFirstDayOfMonth drawYear drawMonth - first_day + 7) 7.

(** [Math.ceil((leadDays + daysInMonth) / 7)]. *)
Definition curRows (drawYear drawMonth : Z) : Z :=
  (leadDays drawYear drawMonth + getDaysInMonth drawYear drawMonth + 6) / 7.

Definition next_date (t : Z) : Z := daylightSavingAdjust (setDate (getDate t + 1) t).

Fixpoint dates_from (n : nat) (t : Z) : list Z :=
  match n with O => [] | S n' => t :: dates_from n' (next_date t) end.

Definition month_dates (drawYear drawMonth : Z) (numRows : nat) : list Z :=
  dates_from (numRows * 7)
    (daylightSavingAdjust (new_date drawYear drawMonth (1 - leadDays drawYear drawMonth))).

(** What a cell depends on besides its day. *)
Record month_env := mk_month_env {
  e_drawMonth : Z; e_selected : Z; e_selectedMonth : Z; e_key : bool;
  e_default : Z; e_current : Z; e_today : Z; e_min : option Z; e_max : option Z;
}.

Definition daySettings (t : Z) : bool * string * option string :=
  match beforeShowDay k with Some f => f t | None => (true, "", None) end.

Definition otherMonth (e : month_env) (t : Z) : bool := negb (getMonth t =? e_drawMonth e).

Definition unselectable (e : month_env) (t : Z) : bool :=
  (otherMonth e t && negb (selectOtherMonths k)) || negb (fst (fst (daySettings t)))
  || match e_min e with Some m => t <? m | None => false end
  || match e_max e with Some m => m <? t | None => false end.

(** Marked as the day that the keyboard is at; marked as the current day. *)
Definition cell_over (e : month_env) (t : Z) : bool :=
  ((t =? e_selected e) && (e_drawMonth e =? e_selectedMonth e) && e_key e)
  || ((e_default e =? t) && (e_default e =? e_selected e)).
Definition cell_current (e : month_env) (t : Z) : bool :=
  negb (otherMonth e t && negb (showOtherMonths k)) && (t =? e_current e).

(** What the page knows of the cell. *)
Definition cell_of (e : month_env) (t : Z) : cell :=
  mk_cell (if (otherMonth e t && negb (showOtherMonths k)) || unselectable e t then None else Some (getDate t))
    (getMonth t) (getFullYear t) (unselectable e t) (cell_over e t) (cell_current e t).

Definition cell_class (e : month_env) (dow t : Z) : string :=
  when (5 <=? Z.rem (dow + first_day + 6) 7) " ui-datepicker-week-end"
  +:+ when (otherMonth e t) " ui-datepicker-other-month"
  +:+ when (cell_over e t) " ui-datepicker-days-cell-over"
  +:+ when (unselectable e t) " ui-datepicker-unselectable ui-state-disabled"
  +:+ when (negb (otherMonth e t && negb (showOtherMonths k)))
        (" " +:+ snd (fst (daySettings t))
         +:+ when (cell_current e t) " ui-datepicker-current-day"
         +:+ when (t =? e_today e) " ui-datepicker-today").

Definition day_cell (e : month_env) (dow t : Z) : string :=
  let other := otherMonth e t in
  "<td" +:+ attr "class" (cell_class e dow t)
  +:+ match snd (daySettings t) with
      | Some title => when ((negb other || showOtherMonths k) && negb (String.eqb title ""))
                        (attr "title" title)
      | None => EmptyString
      end
  +:+ when (negb (unselectable e t))
        (attr "data-handler" "selectDay" +:+ attr "data-event" "click"
         +:+ attr "data-month" (pretty (getMonth t)) +:+ attr "data-year" (pretty (getFullYear t)))
  +:+ ">"
  +:+ (if other && negb (showOtherMonths k) then "&#xa0;"
       else if unselectable e t
       then "<span" +:+ attr "class" "ui-state-default" +:+ ">" +:+ pretty (getDate t) +:+ "</span>"
       else "<a" +:+ attr "class" ("ui-state-default"
              +:+ when (t =? e_today e) " ui-state-highlight"
              +:+ when (t =? e_current e) " ui-state-active"
              +:+ when other " ui-priority-secondary")
            +:+ attr "href" "#" +:+ ">" +:+ pretty (getDate t) +:+ "</a>")
  +:+ "</td>".

(** One row: the days [t], ... of the columns [dow], .... *)
Fixpoint row_cells (e : month_env) (dow : Z) (ts : list Z) : string :=
  match ts with [] => EmptyString | t :: ts => day_cell e dow t +:+ row_cells e (dow + 1) ts end.

Fixpoint month_rows (e : month_env) (numRows : nat) (ts : list Z) : string :=
  match numRows with
  | O => EmptyString
  | S n =>
      "<tr>"
      +:+ match ts with
          | t :: _ => when (showWeek k) ("<td" +:+ attr "class" "ui-datepicker-week-col" +:+ ">"
                        +:+ pretty (calculateWeek k t) +:+ "</td>")
          | [] => EmptyString
          end
      +:+ row_cells e 0 (take 7 ts) +:+ "</tr>" +:+ month_rows e n (drop 7 ts)
  end.

Definition thead : string :=
  when (showWeek k) ("<th" +:+ attr "class" "ui-datepicker-week-col" +:+ ">" +:+ weekHeader k +:+ "</th>")
  +:+ String.concat "" ((fun dow =>
        let day := Z.rem (dow + first_day) 7 in
        "<th" +:+ when (5 <=? Z.rem (dow + first_day + 6) 7) (attr "class" "ui-datepicker-week-end")
        +:+ ">" +:+ "<span" +:+ attr "title" (name_at (names_of dayNames (Some (config o))) day) +:+ ">"
        +:+ name_at (dayNamesMin k) day +:+ "</span></th>") <$> zrange 0 7).

(** ** One month and all months *)

(** The variables of the loops: the month, the rows, the instance's selected day. *)
Record draw := mk_draw { d_month : Z; d_year : Z; maxRows : Z; d_selectedDay : Z; d_html : string;
  d_cells : list cell }.

Section months.
Context (i : inst) (prev next : string) (currentDate today defaultDate : Z).
Context (minDate maxDate : option Z).

Definition corner (col : Z) : string * string :=
  let cols := snd (numberOfMonths o) in
  if cols <=? 1 then ("", " ui-corner-all")
  else if col =? 0 then (" ui-datepicker-group-first", if isRTL o then " ui-corner-right" else " ui-corner-left")
  else if col =? cols - 1
  then (" ui-datepicker-group-last", if isRTL o then " ui-corner-left" else " ui-corner-right")
  else (" ui-datepicker-group-middle", "").

Definition isMultiMonth : bool :=
  negb (fst (numberOfMonths o) =? 1) || negb (snd (numberOfMonths o) =? 1).

Definition draw_month (row col : Z) (d : draw) : draw :=
  let '(drawYear, drawMonth) := (d_year d, d_month d) in
  let selectedDate := daylightSavingAdjust (new_date drawYear drawMonth (d_selectedDay d)) in
  let '(group, cornerClass) := if isMultiMonth then corner col else ("", " ui-corner-all") in
  let left := String.eqb cornerClass " ui-corner-all" || String.eqb cornerClass " ui-corner-left" in
  let right := String.eqb cornerClass " ui-corner-all" || String.eqb cornerClass " ui-corner-right" in
  let daysInMonth := getDaysInMonth drawYear drawMonth in
  let selectedDay := if (drawYear =? selectedYear i) && (drawMonth =? selectedMonth i)
                     then Z.min (d_selectedDay d) daysInMonth else d_selectedDay d in
  let cur := curRows drawYear drawMonth in
  let numRows := if isMultiMonth then (if cur <? maxRows d then maxRows d else cur) else cur in
  let e := mk_month_env drawMonth selectedDate (selectedMonth i) (keyEvent i)
             defaultDate currentDate today minDate maxDate in
  let calender :=
    when isMultiMonth ("<div" +:+ attr "class" ("ui-datepicker-group" +:+ group) +:+ ">")
    +:+ "<div" +:+ attr "class" ("ui-datepicker-header ui-widget-header ui-helper-clearfix" +:+ cornerClass)
    +:+ ">" +:+ when (left && (row =? 0)) (if isRTL o then next else prev)
    +:+ when (right && (row =? 0)) (if isRTL o then prev else next)
    +:+ generateMonthYearHeader drawMonth drawYear minDate maxDate ((0 <? row) || (0 <? col))
    +:+ "</div><table" +:+ attr "class" "ui-datepicker-calendar" +:+ "><thead><tr>"
    +:+ thead +:+ "</tr></thead><tbody>"
    +:+ month_rows e (Z.to_nat numRows) (month_dates drawYear drawMonth (Z.to_nat numRows))
    +:+ "</tbody></table>"
    +:+ when isMultiMonth ("</div>"
          +:+ when ((0 <? fst (numberOfMonths o)) && (col =? snd (numberOfMonths o) - 1))
                ("<div" +:+ attr "class" "ui-datepicker-row-break" +:+ "></div>")) in
  mk_draw (if 11 <? drawMonth + 1 then 0 else drawMonth + 1)
    (if 11 <? drawMonth + 1 then drawYear + 1 else drawYear)
    numRows selectedDay (d_html d +:+ calender)
    (d_cells d ++ (cell_of e <$> month_dates drawYear drawMonth (Z.to_nat numRows))).

Definition draw_row (d : draw) (row : Z) : draw :=
  fold_left (fun d col => draw_month row col d) (zrange 0 (Z.to_nat (snd (numberOfMonths o))))
    (mk_draw (d_month d) (d_year d) 4 (d_selectedDay d) (d_html d) (d_cells d)).

Definition draw_months (d : draw) : draw :=
  fold_left draw_row (zrange 0 (Z.to_nat (fst (numberOfMonths o)))) d.
End months.

(** The loop that moves the drawn month back until it is not past [maxDraw]. *)
Fixpoint clamp_draw (fuel : nat) (maxDraw drawYear drawMonth : Z) : Z * Z :=
  match fuel with
  | O => (drawYear, drawMonth)
  | S n =>
      if maxDraw <? daylightSavingAdjust (new_date drawYear drawMonth 1) then
        if drawMonth - 1 <? 0 then clamp_draw n maxDraw (drawYear - 1) 11
        else clamp_draw n maxDraw drawYear (drawMonth - 1)
      else (drawYear, drawMonth)
  end.

(** The months from that of [maxDraw] to the drawn one, and one more. *)
Definition clamp_fuel (maxDraw drawYear drawMonth : Z) : nat :=
  Z.to_nat (12 * drawYear + drawMonth - (12 * getFullYear maxDraw + getMonth maxDraw) + 1).

(** The month the drawing begins with. *)
Definition draw_start (i : inst) : Z * Z :=
  let drawMonth := drawMonth i - showCurrentAtPos o in
  let '(drawYear, drawMonth) :=
    if drawMonth <? 0 then (drawYear i - 1, drawMonth + 12) else (drawYear i, drawMonth) in
  match getMaxDate now tz o i with
  | Some maxDate =>
      let n := fst (numberOfMonths o) * snd (numberOfMonths o) in
      let maxDraw := daylightSavingAdjust
                       (new_date (getFullYear maxDate) (getMonth maxDate - n + 1) (getDate maxDate)) in
      let maxDraw := match getMinDate now tz o i with
                     | Some m => if maxDraw <? m then m else maxDraw
                     | None => maxDraw
                     end in
      clamp_draw (clamp_fuel maxDraw drawYear drawMonth) maxDraw drawYear drawMonth
  | None => (drawYear, drawMonth)
  end.

(** A link of the header; [dir] is the side of its icon. *)
Definition nav_link (which text dir : string) (enabled : bool) : string :=
  let body := attr "title" text +:+ "><span" +:+ attr "class" ("ui-icon ui-icon-circle-triangle-" +:+ dir)
              +:+ ">" +:+ text +:+ "</span></a>" in
  if enabled
  then "<a" +:+ attr "class" ("ui-datepicker-" +:+ which +:+ " ui-corner-all")
       +:+ attr "data-handler" which +:+ attr "data-event" "click" +:+ body
  else when (negb (hideIfNoPrevNext k))
         ("<a" +:+ attr "class" ("ui-datepicker-" +:+ which +:+ " ui-corner-all ui-state-disabled") +:+ body).

Definition today_of : Z :=
  daylightSavingAdjust (new_date (getFullYear now) (getMonth now) (getDate now)).

Definition generateHTML (i : inst) : inst * string :=
  let fmt := Some (getFormatConfig now o) in
  let today := today_of in
  let currentDate := daylightSavingAdjust
    (if currentDay i =? 0 then new_date 9999 9 9
     else new_date (currentYear i) (currentMonth i) (currentDay i)) in
  let '(year, month) := draw_start i in
  let i := i <| drawMonth := month |> <| drawYear := year |> in
  let nav text m := if navigationAsDateFormat k
                    then formatDate tz text (Some (daylightSavingAdjust (new_date year m 1))) fmt
                    else text in
  let prev := nav_link "prev" (nav (prevText k) (month - stepMonths o))
                (if isRTL o then "e" else "w") (canAdjustMonth now tz o i (-1) year month) in
  let next := nav_link "next" (nav (nextText k) (month + stepMonths o))
                (if isRTL o then "w" else "e") (canAdjustMonth now tz o i 1 year month) in
  let gotoDate := if gotoCurrent o && negb (currentDay i =? 0) then currentDate else today in
  let current := if navigationAsDateFormat k then formatDate tz (currentText k) (Some gotoDate) fmt
                 else currentText k in
  let controls := when (bool_decide (is_Some (input i)))
    ("<button" +:+ attr "type" "button"
     +:+ attr "class" "ui-datepicker-close ui-state-default ui-priority-primary ui-corner-all"
     +:+ attr "data-handler" "hide" +:+ attr "data-event" "click" +:+ ">" +:+ closeText k +:+ "</button>") in
  let buttonPanel := when (showButtonPanel k)
    ("<div" +:+ attr "class" "ui-datepicker-buttonpane ui-widget-content" +:+ ">"
     +:+ when (isRTL o) controls
     +:+ when (isInRange now tz o i gotoDate)
           ("<button" +:+ attr "type" "button"
            +:+ attr "class" "ui-datepicker-current ui-state-default ui-priority-secondary ui-corner-all"
            +:+ attr "data-handler" "today" +:+ attr "data-event" "click" +:+ ">" +:+ current +:+ "</button>")
     +:+ when (negb (isRTL o)) controls +:+ "</div>") in
  let d := draw_months i prev next currentDate today (getDefaultDate now tz o i)
             (getMinDate now tz o i) (getMaxDate now tz o i)
             (mk_draw month year 4 (selectedDay i) "" []) in
  (i <| selectedDay := d_selectedDay d |> <| keyEvent := false |> <| table := d_cells d |>, d_html d +:+ buttonPanel).

(** [_updateDatepicker], as far as the instance is concerned. *)
Definition updateDatepicker (i : inst) : inst := fst (generateHTML i).
End calendar.
