(* ===== verification/DpControl.v ===== *)
(** * jQuery UI datepicker: the user's actions

    The handlers of [jquery-ui.js] that work on one datepicker with an input field
    (or inline): opening, keys, the links of the calendar, choosing a day.  What
    the page is told is the list [told]; animations and positions are not modelled. *)

From S2P Require Export DpCalendar.

Section control.
Context (now tz : Z) (o : options) (k : look).

Abbreviation adjustInstDate := (adjustInstDate now tz o).
Abbreviation setDateFromField := (setDateFromField now tz o).
Abbreviation formatDate_of := (formatDate_of now tz o).
Abbreviation updateAlternate := (updateAlternate now tz o).
Abbreviation updateDatepicker := (updateDatepicker now tz o k).

Definition hideDatepicker (i : inst) : inst := i <| showing := false |>.

(** [_lastInput] is the field exactly while its calendar is shown. *)
Definition showDatepicker (i : inst) : inst :=
  if disabled o || showing i then i
  else
    let i := setDateFromField false (i <| lastVal := None |>) in
    let i := updateDatepicker i in
    match input i with Some _ => i <| showing := true |> | None => i end.

(** [_selectDate]; [None] is a missing [dateStr]. *)
Definition selectDate (dateStr : option string) (i : inst) : inst :=
  let '(i, dateStr) := match dateStr with
                       | Some s => (i, s)
                       | None => formatDate_of None i
                       end in
  let i := match input i with Some _ => i <| input := Some dateStr |> | None => i end in
  let i := updateAlternate i in
  let i := if onSelect o then i <| told := told i ++ [Selected dateStr] |>
           else match input i with Some _ => i <| told := told i ++ [Changed] |> | None => i end in
  match input i with
  | None => updateDatepicker i
  | Some _ => hideDatepicker i
  end.

(** [_selectDay], given what the cell shows, and whether it has the class of those that
    cannot be selected. *)
Definition selectDay (day month year : Z) (unselectable : bool) (i : inst) : inst :=
  if unselectable || disabled o then i
  else
    let i := i <| selectedDay := day |> <| currentDay := day |>
               <| selectedMonth := month |> <| currentMonth := month |>
               <| selectedYear := year |> <| currentYear := year |> in
    let '(i, s) := formatDate_of (Some (currentDay i, currentMonth i, currentYear i)) i in
    selectDate (Some s) i.

(** [_selectDay] of a cell.  One that can be selected but has no link, as with
    [selectOtherMonths] and without [showOtherMonths], is not modelled. *)
Definition selectCell (month year : Z) (c : cell) (i : inst) : inst :=
  match c_day c with Some day => selectDay day month year (c_unselectable c) i | None => i end.

(** A click on the [n]th cell; a cell that cannot be selected has no handler. *)
Definition clickCell (n : nat) (i : inst) : inst :=
  match table i !! n with
  | Some c => if c_unselectable c then i else selectCell (c_month c) (c_year c) c i
  | None => i
  end.

Definition clearDate (i : inst) : inst := selectDate (Some ""%string) i.

Definition adjustDate (offset : Z) (p : period) (i : inst) : inst :=
  if disabled o then i
  else updateDatepicker
         (adjustInstDate (offset + (if decide (p = PMonth) then showCurrentAtPos o else 0)) p i).

Definition gotoToday (i : inst) : inst :=
  let i :=
    if gotoCurrent o && negb (currentDay i =? 0)
    then i <| selectedDay := currentDay i |>
           <| drawMonth := currentMonth i |> <| selectedMonth := currentMonth i |>
           <| drawYear := currentYear i |> <| selectedYear := currentYear i |>
    else show now i in
  adjustDate 0 PNone (notifyChange o i).

Definition selectMonthYear (p : period) (v : Z) (i : inst) : inst :=
  let i := if decide (p = PMonth) then i <| drawMonth := v |> <| selectedMonth := v |>
           else i <| drawYear := v |> <| selectedYear := v |> in
  adjustDate 0 PNone (notifyChange o i).

(** [_setDateDatepicker] and [_getDateDatepicker]. *)
Definition setDateDatepicker (date : dspec) (i : inst) : inst :=
  updateAlternate (updateDatepicker (setDate_of now tz o date false i)).

Definition getDateDatepicker (noDefault : bool) (i : inst) : inst * option Z :=
  let i := match input i with Some _ => setDateFromField noDefault i | None => i end in
  (i, getDate_of i).

(** ** Keys *)

Record key := mk_key { keyCode : Z; ctrl : bool; meta : bool; alt : bool }.

(** The first cell that the keyboard is at and that is not the current day. *)
Definition over_cell (i : inst) : option cell := List.find (fun c => c_over c && negb (c_current c)) (table i).

(** [_doKeyDown]: the instance, and whether the browser's own action is prevented. *)
Definition doKeyDown (e : key) (i : inst) : inst * bool :=
  let i := i <| keyEvent := true |> in
  let cmd := ctrl e || meta e in
  let step := if ctrl e then stepBigMonths o else stepMonths o in
  if showing i then
    if keyCode e =? 9 then (hideDatepicker i, false)
    else if keyCode e =? 13 then
      let i := match over_cell i with
               | Some c => selectCell (selectedMonth i) (selectedYear i) c i
               | None => i
               end in
      let i := if onSelect o
               then let '(i, s) := formatDate_of None i in i <| told := told i ++ [Selected s] |>
               else hideDatepicker i in
      (i, true)
    else if keyCode e =? 27 then (hideDatepicker i, true)
    else if keyCode e =? 33 then (adjustDate (- step) PMonth i, true)
    else if keyCode e =? 34 then (adjustDate step PMonth i, true)
    else if keyCode e =? 35 then (if cmd then clearDate i else i, cmd)
    else if keyCode e =? 36 then (if cmd then gotoToday i else i, cmd)
    else if keyCode e =? 37 then
      let i := if cmd then adjustDate (if isRTL o then 1 else -1) PDay i else i in
      (if alt e then adjustDate (- step) PMonth i else i, cmd)
    else if keyCode e =? 38 then (if cmd then adjustDate (-7) PDay i else i, cmd)
    else if keyCode e =? 39 then
      let i := if cmd then adjustDate (if isRTL o then -1 else 1) PDay i else i in
      (if alt e then adjustDate step PMonth i else i, cmd)
    else if keyCode e =? 40 then (if cmd then adjustDate 7 PDay i else i, cmd)
    else (i, false)
  else if (keyCode e =? 36) && ctrl e then (showDatepicker i, true)
  else (i, false).

(** [_doKeyPress] with [constrainInput]: whether the character is let through. *)
Definition doKeyPress (e : key) (chr : ascii) : bool :=
  ctrl e || meta e
  || (N_of_ascii chr <? 32)%N
  || match possibleChars (dateFormat o) with
     | None => true
     | Some chars => String.eqb chars "" || is_in chars chr
     end.

(** [_doKeyUp]: the field has the text the user left in it. *)
Definition doKeyUp (i : inst) : inst :=
  match input i with
  | None => i
  | Some val =>
      if decide (lastVal i = Some val) then i
      else match parseDate now tz (dateFormat o) val (Some (getFormatConfig now o)) with
           | Ok (Some _) => updateDatepicker (updateAlternate (setDateFromField false i))
           | _ => i
           end
  end.

(** ** All actions *)

Inductive action :=
  | AShow | AHide | AKey (e : key) | AType (text : string)
  | APrev | ANext | AToday | AMonth (m : Z) | AYear (y : Z)
  | ADay (n : nat) | ASetDate (date : dspec).

Definition act (a : action) (i : inst) : inst :=
  match a with
  | AShow => showDatepicker i
  | AHide => hideDatepicker i
  | AKey e => fst (doKeyDown e i)
  | AType text => match input i with
                  | Some _ => doKeyUp (i <| input := Some text |>)
                  | None => i
                  end
  | APrev => adjustDate (- stepMonths o) PMonth i
  | ANext => adjustDate (stepMonths o) PMonth i
  | AToday => gotoToday i
  | AMonth m => selectMonthYear PMonth m i
  | AYear y => selectMonthYear PYear y i
  | ADay n => clickCell n i
  | ASetDate date => setDateDatepicker date i
  end.
End control.
