(* ===== verification/DpGrid.v ===== *)
(** * jQuery UI datepicker: what the calendar shows

    The table of a month holds consecutive days, from the first column's weekday,
    every day of the month once, and no empty row; the month the drawing starts
    with respects the latest date. *)

From S2P Require Export DpControl.

Section grid.
Context (k : look).

Lemma next_date_midnight d : next_date (d * msPerDay) = (d + 1) * msPerDay.
Proof.
  unfold next_date.
  assert (setDate (getDate (d * msPerDay) + 1) (d * msPerDay) = (d + 1) * msPerDay) as ->
    by (rewrite (Day_TimeWithinDay (setDate _ _)), Day_setDate, TimeWithinDay_setDate, Day_of_midnight;
        unfold TimeWithinDay; rewrite Z.mod_mul by done; lia).
  apply daylightSavingAdjust_midnight.
Qed.

Lemma dates_from_spec n d :
  dates_from n (d * msPerDay) = (fun z => z * msPerDay) <$> zrange d n.
Proof.
  revert d. induction n as [|n IH]; intros d; [done|]. cbn [dates_from].
  rewrite next_date_midnight, IH. unfold zrange. cbn [seq fmap list_fmap].
  rewrite Z.add_0_r. f_equal. rewrite <- !list_fmap_compose, <- (fmap_S_seq 0 n), <- list_fmap_compose.
  apply list_fmap_ext. intros _ x _. cbn. f_equal. lia.
Qed.

Definition first_of_month (y m : Z) : Z := DayFromYear y + MonthStart y m.

Lemma month_dates_spec y m n :
  plain_year y -> 0 <= m < 12 ->
  month_dates k y m n =
  (fun z => z * msPerDay) <$> zrange (first_of_month y m - leadDays k y m) (n * 7).
Proof.
  intros Hy Hm. unfold month_dates. rewrite dsa_new_date, new_date_plain, dates_from_spec by done.
  unfold first_of_month. rewrite MakeDay_civil by done. do 2 f_equal. lia.
Qed.

Context (Hfirst : 0 <= first_day k <= 6).

Lemma leadDays_spec y m :
  plain_year y -> 0 <= m < 12 ->
  0 <= leadDays k y m < 7 /\
  (first_of_month y m - leadDays k y m + 4) mod 7 = first_day k mod 7.
Proof.
  intros Hy Hm. unfold leadDays, getFirstDayOfMonth, getDay, first_of_month.
  rewrite new_date_plain, Day_of_midnight, MakeDay_civil by done.
  set (f := DayFromYear y + MonthStart y m). replace (f + 1 - 1 + 4) with (f + 4) by lia.
  set (w := first_day k) in *.
  assert (0 <= (f + 4) mod 7 < 7) by (apply Z.mod_pos_bound; lia).
  rewrite Z.rem_mod_nonneg by lia. clearbody f w. div_lia.
Qed.

Lemma curRows_spec y m :
  plain_year y -> 0 <= m < 12 ->
  4 <= curRows k y m <= 6 /\
  7 * (curRows k y m - 1) < leadDays k y m + month_length y m <= 7 * curRows k y m.
Proof.
  intros Hy Hm. destruct (leadDays_spec y m Hy Hm) as [Hl _].
  unfold curRows. rewrite getDaysInMonth_month by done.
  pose proof (month_length_bounds y m Hm). div_lia.
Qed.

Lemma same_month y m d :
  0 <= m < 12 ->
  getFullYear (d * msPerDay) = y /\ getMonth (d * msPerDay) = m <->
  first_of_month y m <= d < first_of_month y m + month_length y m.
Proof.
  intros Hm. unfold first_of_month. split.
  - intros [Hy Hmo]. destruct (fields_civil (d * msPerDay)) as [_ Hd].
    pose proof (MakeDay_fields (d * msPerDay)) as HD. rewrite Day_of_midnight in HD.
    rewrite Hy, Hmo in HD, Hd. rewrite MakeDay_civil in HD by done. lia.
  - intros Hd. destruct (fields_MakeDay y m (d - first_of_month y m + 1) (d * msPerDay)) as (-> & -> & _);
      [split; [done|]; unfold first_of_month; lia| |done].
    rewrite Day_of_midnight, MakeDay_civil by done. unfold first_of_month. lia.
Qed.

(** C34.  The table of a month holds consecutive days, every cell of a column on the
    weekday of its heading; the cells from [leadDays] on are the days of the month in
    order, each once, and no other cell is of this month; the first row holds day 1
    and the last row the last day, so that no row is empty or missing. *)
Theorem month_table y m :
  plain_year y -> 0 <= m < 12 ->
  let rows := Z.to_nat (curRows k y m) in
  let cells := month_dates k y m rows in
  length cells = (rows * 7)%nat /\ 4 <= curRows k y m <= 6 /\
  0 <= leadDays k y m < 7 /\
  7 * (curRows k y m - 1) < leadDays k y m + month_length y m <= 7 * curRows k y m /\
  forall n t, cells !! n = Some t ->
    t = (first_of_month y m - leadDays k y m + Z.of_nat n) * msPerDay /\
    getDay t = (first_day k + Z.of_nat n) mod 7 /\
    (getFullYear t = y /\ getMonth t = m <->
     leadDays k y m <= Z.of_nat n < leadDays k y m + month_length y m) /\
    (getFullYear t = y /\ getMonth t = m -> getDate t = Z.of_nat n - leadDays k y m + 1).
Proof.
  intros Hy Hm rows cells. destruct (leadDays_spec y m Hy Hm) as [Hl Hw].
  destruct (curRows_spec y m Hy Hm) as [Hr Hrows]. unfold cells.
  rewrite month_dates_spec by done. rewrite length_fmap, length_zrange.
  split_and!; try done; try lia. intros n t.
  rewrite list_lookup_fmap. destruct (_ !! n) as [d|] eqn:E; [|done]. intros [= <-].
  apply zrange_lookup in E as [_ ->].
  set (f := first_of_month y m) in *. set (l := leadDays k y m) in *.
  split_and!.
  - done.
  - unfold getDay. rewrite Day_of_midnight.
    replace (f - l + Z.of_nat n + 4) with ((f - l + 4) + Z.of_nat n) by lia.
    rewrite Zplus_mod, Hw, <- Zplus_mod. done.
  - rewrite same_month by done. fold f. lia.
  - intros Hs. destruct (fields_MakeDay y m (Z.of_nat n - l + 1) ((f - l + Z.of_nat n) * msPerDay))
      as (_ & _ & ->); [| |done].
    + apply same_month in Hs; [|done]. fold f in Hs. split; [done|lia].
    + rewrite Day_of_midnight, MakeDay_civil by done. unfold f, first_of_month. lia.
Qed.
End grid.

(** ** The month the drawing starts with *)

(** Months as numbers. *)
Definition month_index (y m : Z) : Z := 12 * y + m.

Lemma first_of_month_next y m :
  0 <= m < 12 ->
  first_of_month (y + (m + 1) / 12) ((m + 1) mod 12) = first_of_month y m + month_length y m.
Proof.
  intros Hm. unfold first_of_month, month_length. destruct (decide (m = 11)) as [->|].
  - change ((11 + 1) / 12) with 1. change ((11 + 1) mod 12) with 0. change (11 + 1) with 12.
    rewrite DayFromYear_step, MonthStart_0, MonthStart_12. lia.
  - rewrite Z.div_small, Z.mod_small by lia. rewrite Z.add_0_r. lia.
Qed.

(** First days of months are in the order of the months. *)
Lemma first_of_month_mono y m y' m' :
  0 <= m < 12 -> 0 <= m' < 12 -> month_index y m < month_index y' m' ->
  first_of_month y m + month_length y m <= first_of_month y' m'.
Proof.
  unfold month_index. intros Hm Hm' Hlt. unfold first_of_month, month_length.
  pose proof (MonthStart_mono y (m + 1) 12). pose proof (MonthStart_mono y' 0 m').
  rewrite MonthStart_12, MonthStart_0 in *.
  destruct (decide (y = y')) as [->|Hne].
  - pose proof (MonthStart_mono y' (m + 1) m'). lia.
  - assert (y < y') as Hy by lia.
    assert (DayFromYear (y + 1) <= DayFromYear y').
    { destruct (decide (y + 1 = y')) as [->|]; [lia|]. pose proof (DayFromYear_mono (y + 1) y'). lia. }
    rewrite DayFromYear_step in *. lia.
Qed.

Section clamp.
Context (maxDraw : Z) (Hmid : maxDraw = Day maxDraw * msPerDay).

Lemma after_max y m :
  100 <= y -> 0 <= m < 12 ->
  (maxDraw <? daylightSavingAdjust (new_date y m 1)) = true <->
  month_index (getFullYear maxDraw) (getMonth maxDraw) < month_index y m.
Proof.
  intros Hy Hm. rewrite dsa_new_date, new_date_plain by by right.
  rewrite Z.ltb_lt, Hmid, <- Z.mul_lt_mono_pos_r by done. rewrite <- Hmid.
  rewrite MakeDay_civil by done. replace (DayFromYear y + MonthStart y m + 1 - 1)
    with (first_of_month y m) by (unfold first_of_month; lia).
  set (y' := getFullYear maxDraw). set (m' := getMonth maxDraw).
  assert (0 <= m' < 12) as Hm' by apply fields_civil.
  assert (first_of_month y' m' <= Day maxDraw < first_of_month y' m' + month_length y' m') as HD.
  { apply same_month; [done|]. by rewrite <- Hmid. }
  split; intros Hlt.
  - destruct (Z.lt_trichotomy (month_index y' m') (month_index y m)) as [?|[He|Hgt]]; [done|exfalso..].
    + assert (y' = y /\ m' = m) as [-> ->] by (unfold month_index in He; lia). lia.
    + pose proof (first_of_month_mono _ _ _ _ Hm Hm' Hgt). pose proof (month_length_bounds y m Hm). lia.
  - pose proof (first_of_month_mono _ _ _ _ Hm' Hm Hlt). lia.
Qed.

(** The loop that keeps the calendar from starting past the latest date ends,
    and it ends at the drawn month or at the latest one, whichever is earlier. *)
Theorem clamp_draw_spec y m :
  100 <= y -> 100 <= getFullYear maxDraw -> 0 <= m < 12 ->
  let '(y', m') := clamp_draw (clamp_fuel maxDraw y m) maxDraw y m in
  0 <= m' < 12 /\ (maxDraw <? daylightSavingAdjust (new_date y' m' 1)) = false /\
  month_index y' m' = Z.min (month_index y m) (month_index (getFullYear maxDraw) (getMonth maxDraw)).
Proof.
  intros Hy HY Hm. unfold clamp_fuel.
  fold (month_index y m) (month_index (getFullYear maxDraw) (getMonth maxDraw)).
  set (M := month_index (getFullYear maxDraw) (getMonth maxDraw)).
  assert (month_index 100 0 <= M) as HM.
  { pose proof (proj1 (fields_civil maxDraw)). unfold M, month_index. lia. }
  assert (forall n y m, 100 <= y -> 0 <= m < 12 -> month_index y m - M < Z.of_nat n ->
    let '(y', m') := clamp_draw n maxDraw y m in
    0 <= m' < 12 /\ (maxDraw <? daylightSavingAdjust (new_date y' m' 1)) = false /\
    month_index y' m' = Z.min (month_index y m) M) as H.
  { clear y m Hy Hm. induction n as [|n IH]; intros y m Hy Hm Hn; cbn [clamp_draw].
    - split; [done|]. destruct (maxDraw <? _) eqn:E; [apply after_max in E; [|done..]; fold M in E|]; lia.
    - destruct (maxDraw <? _) eqn:E.
      + apply after_max in E; [|done..]. fold M in E. unfold month_index in *.
        destruct (Z.ltb_spec (m - 1) 0).
        * specialize (IH (y - 1) 11). destruct (clamp_draw n maxDraw (y - 1) 11).
          destruct IH as (? & ? & ->); [lia..|]. split_and!; try done; lia.
        * specialize (IH y (m - 1)). destruct (clamp_draw n maxDraw y (m - 1)).
          destruct IH as (? & ? & ->); [lia..|]. split_and!; try done; lia.
      + split_and!; try done; try lia. rewrite Z.min_l; [done|].
        destruct (Z.le_gt_cases (month_index y m) M) as [|Hgt]; [done|].
        apply (after_max y m Hy Hm) in Hgt. congruence. }
  apply H; [done..|]. lia.
Qed.
End clamp.
