(* ===== verification/DpFlow.v ===== *)
(** * jQuery UI datepicker: sequences of actions

    The selected day stays within the bounds under every action; a chosen day
    survives the way through the text of the field; stepping through the months;
    relative dates as text. *)

From S2P Require Export DpGrid.

Lemma fold_left_inv {A B} (P : A -> Prop) (f : A -> B -> A) l s :
  (forall s x, P s -> P (f s x)) -> P s -> P (fold_left f l s).
Proof. intros Hf. revert s. induction l as [|x l IH]; intros s Hs; [done|]. apply IH, Hf, Hs. Qed.

(** ** Drawing leaves the dates alone *)

Section drawing.
Context (now tz : Z) (o : options) (k : look).

(** The day [t] is the selected one. *)
Definition selects (i : inst) (t : Z) : Prop :=
  t = Day t * msPerDay /\ selectedDay i = getDate t /\ selectedMonth i = getMonth t /\
  selectedYear i = getFullYear t.

(** The month of a date that overflows its month is another. *)
Lemma getDate_in_month y m d : 1 <= d <= 31 -> getMonth (new_date y m d) = m -> getDate (new_date y m d) = d.
Proof.
  intros Hd E. destruct (fields_civil (new_date y m d)) as [Hm _]. rewrite E in Hm. revert E. unfold new_date.
  set (Y := if _ && _ then _ else _). set (t := MakeDay Y m d * msPerDay). assert (Day t = MakeDay Y m d) as Ht by apply Day_of_midnight.
  pose proof (month_length_bounds Y m Hm) as Hl. destruct (Z.le_gt_cases d (month_length Y m)) as [Hle|Hgt]; intros E.
  { apply (fields_MakeDay Y m d t); [split; [done|lia]|done]. }
  assert (0 <= (m + 1) mod 12 < 12) as Hm' by (by apply Z.mod_pos_bound).
  pose proof (month_length_bounds (Y + (m + 1) / 12) ((m + 1) mod 12) Hm') as Hl'.
  destruct (fields_MakeDay (Y + (m + 1) / 12) ((m + 1) mod 12) (d - month_length Y m) t) as (_ & E' & _); [split; [done|lia]| |].
  - rewrite Ht, !MakeDay_civil by done. pose proof (first_of_month_next Y m Hm) as Hf. unfold first_of_month in Hf. lia.
  - exfalso. rewrite E in E'. destruct (decide (m = 11)) as [->|]; [done|]. rewrite Z.mod_small in E' by lia. lia.
Qed.

Lemma month_dates_midnight y m n t : t ∈ month_dates k y m n -> t = Day t * msPerDay.
Proof.
  unfold month_dates. rewrite dsa_new_date. unfold new_date. set (Y := if _ && _ then _ else _).
  rewrite dates_from_spec. intros (z & -> & _)%list_elem_of_fmap. by rewrite Day_of_midnight.
Qed.

(** Drawing keeps the selected day, and draws the cells of days for the bounds given. *)
Lemma draw_cells i t prev next c td dd mn mx (Q : cell -> Prop) d :
  selects i t -> plain_year (getFullYear t) ->
  (forall y e u, e_selected e = daylightSavingAdjust (new_date y (e_drawMonth e) (selectedDay i)) ->
    e_min e = mn -> e_max e = mx -> u = Day u * msPerDay -> Q (cell_of k e u)) ->
  d_selectedDay d = selectedDay i -> Forall Q (d_cells d) ->
  let d' := draw_months now o k i prev next c td dd mn mx d in
  d_selectedDay d' = selectedDay i /\ Forall Q (d_cells d').
Proof.
  intros (_ & Hd & Hm & Hy) Hp HQ H0 C0. unfold draw_months.
  apply (fold_left_inv (fun d => d_selectedDay d = selectedDay i /\ Forall Q (d_cells d))); [|done].
  intros d1 row [H1 C1]. unfold draw_row.
  apply (fold_left_inv (fun d => d_selectedDay d = selectedDay i /\ Forall Q (d_cells d))); [|done].
  intros d2 col [H2 C2]. unfold draw_month. destruct (if isMultiMonth o then _ else _) as [g cc].
  cbn [d_selectedDay d_cells]. rewrite H2. split.
  - destruct (_ && _) eqn:E; [|done].
    apply andb_true_iff in E as [E1%Z.eqb_eq E2%Z.eqb_eq]. rewrite E1, E2, Hy, Hm.
    destruct (fields_civil t) as [Hmo Hda]. rewrite getDaysInMonth_month by done. lia.
  - apply Forall_app. split; [exact C2|]. rewrite Forall_fmap. apply Forall_forall. intros u Hu. cbn.
    apply (HQ (d_year d2)); [done..|]. by apply month_dates_midnight in Hu.
Qed.

Record same_dates (i i' : inst) : Prop := {
  sd_input : input i' = input i;
  sd_day : selectedDay i' = selectedDay i;
  sd_month : selectedMonth i' = selectedMonth i;
  sd_year : selectedYear i' = selectedYear i;
  sd_cday : currentDay i' = currentDay i;
  sd_cmonth : currentMonth i' = currentMonth i;
  sd_cyear : currentYear i' = currentYear i;
  sd_last : lastVal i' = lastVal i;
}.

Lemma updateDatepicker_dates i t :
  selects i t -> plain_year (getFullYear t) -> same_dates i (updateDatepicker now tz o k i).
Proof.
  intros Hs Hp. unfold updateDatepicker, generateHTML.
  destruct (draw_start now tz o i) as [year month]. cbn zeta. cbn [fst].
  split; try done. cbn [selectedDay set_field].
  match goal with |- d_selectedDay (draw_months ?a ?b ?c ?i ?p ?n ?cd ?td ?dd ?mn ?mx ?d) = _ =>
    exact (proj1 (draw_cells i t p n cd td dd mn mx (fun _ => True) d Hs Hp (fun _ _ _ _ _ _ _ => I) eq_refl (Forall_nil_2 _)))
  end.
Qed.

Lemma updateDatepicker_draw i :
  let '(year, month) := draw_start now tz o i in
  drawYear (updateDatepicker now tz o k i) = year /\ drawMonth (updateDatepicker now tz o k i) = month.
Proof.
  unfold updateDatepicker, generateHTML. by destruct (draw_start now tz o i) as [year month].
Qed.

Lemma selects_same i i' t : same_dates i i' -> selects i t -> selects i' t.
Proof. intros [] (? & ? & ? & ?). split_and!; congruence || done. Qed.

Lemma selects_show t i : t = Day t * msPerDay -> selects (show t i) t.
Proof. by split. Qed.
End drawing.

(** ** The selected day is within the bounds *)

Section bounds.
Context (now tz : Z) (o : options) (k : look) (lo : Z) (hi : option Z).

(** Bounds that do not depend on the current day, from the year 100 on. *)
Context (Hlo : forall i, getMinDate now tz o i = Some lo) (Hhi : forall i, getMaxDate now tz o i = hi).
Context (Hlohi : forall h, hi = Some h -> lo <= h).
Context (Hlo_year : 100 <= getFullYear lo).
Context (Henabled : disabled o = false).

Definition in_bounds (t : Z) : Prop := lo <= t /\ forall h, hi = Some h -> t <= h.

Lemma determineDate_midnight i d dflt t :
  determineDate now tz o i d dflt = Some t -> t = Day t * msPerDay.
Proof.
  unfold determineDate. intros H. apply fmap_Some in H as (u & _ & ->).
  unfold midnight. rewrite daylightSavingAdjust_midnight. by rewrite Day_of_midnight.
Qed.

Lemma restrict_bounds i t :
  t = Day t * msPerDay ->
  let r := restrictMinMax now tz o i t in in_bounds r /\ r = Day r * msPerDay.
Proof.
  intros Ht. unfold restrictMinMax. rewrite Hlo, Hhi.
  assert (lo = Day lo * msPerDay) as Hl by exact (determineDate_midnight _ _ _ _ (Hlo i)).
  assert (forall h, hi = Some h -> h = Day h * msPerDay) as Hh.
  { intros h Hh. refine (determineDate_midnight _ _ _ _ (eq_trans (Hhi i) Hh)). }
  unfold in_bounds. destruct hi as [h|].
  - specialize (Hlohi h eq_refl). specialize (Hh h eq_refl).
    assert (forall r, lo <= r <= h -> lo <= r /\ forall h', Some h = Some h' -> r <= h') as Hr
      by (intros r [? ?]; split; [done|by intros ? [= <-]]).
    zcases; (split; [apply Hr; lia|done]).
  - zcases; (split; [split; [lia|done]|done]).
Qed.

Lemma in_bounds_plain t : in_bounds t -> plain_year (getFullYear t).
Proof.
  intros [H _]. right. destruct (Z.le_gt_cases 100 (getFullYear t)) as [|Hlt]; [done|exfalso].
  assert (Day lo <= Day t) as HD by (unfold Day; apply Z.div_le_mono; [done|lia]).
  pose proof (YearFromDay_spec (Day t)) as Ht. pose proof (YearFromDay_spec (Day lo)) as Hl.
  fold (getFullYear t) in Ht. fold (getFullYear lo) in Hl.
  destruct (decide (getFullYear t + 1 = getFullYear lo)) as [E|E]; [rewrite E in Ht; lia|].
  pose proof (DayFromYear_mono (getFullYear t + 1) (getFullYear lo)). lia.
Qed.

Definition good (i : inst) : Prop := exists t, selects i t /\ in_bounds t.

Lemma good_same i i' : same_dates i i' -> good i -> good i'.
Proof. intros Hs (t & Ht & Hb). exists t. split; [by eapply selects_same|done]. Qed.

Lemma good_update i : good i -> good (updateDatepicker now tz o k i).
Proof.
  intros (t & Ht & Hb). exists t. split; [|done].
  eapply selects_same; [|done]. eapply updateDatepicker_dates; [done|by apply in_bounds_plain].
Qed.

Lemma good_notify i : good (notifyChange o i) <-> good i.
Proof. unfold notifyChange. by destruct (onChangeMonthYear o). Qed.

Lemma good_adjust offset p i : good (adjustInstDate now tz o offset p i).
Proof.
  unfold adjustInstDate. rewrite dsa_new_date.
  set (date := new_date _ _ _). destruct (restrict_bounds i date) as [Hb Hm].
  { unfold date, new_date. by rewrite Day_of_midnight. }
  assert (good (show (restrictMinMax now tz o i date) i)) as Hg
    by (eexists; split; [by apply selects_show|done]).
  destruct p; [done|by apply good_notify|by apply good_notify|done].
Qed.

Lemma good_adjustDate offset p i : good (adjustDate now tz o k offset p i).
Proof. unfold adjustDate. rewrite Henabled. apply good_update, good_adjust. Qed.

Lemma good_field noDefault i :
  lastVal i <> input i \/ good i -> input i <> None -> good (setDateFromField now tz o noDefault i).
Proof.
  intros Hor Hin. unfold setDateFromField. destruct (input i) as [v|] eqn:E; [|done].
  case_decide as Hl; [destruct Hor; [congruence|done]|].
  destruct (match parseDate _ _ _ _ _ with Ok _ => _ | _ => _ end). apply good_adjust.
Qed.

Lemma good_input s i : good i -> good (i <| input := s |>).
Proof. intros H. exact H. Qed.

Lemma good_format i : good i -> good (fst (formatDate_of now tz o None i)).
Proof. intros H. exact H. Qed.

Lemma good_setDate date noChange i : good (setDate_of now tz o date noChange i).
Proof.
  unfold setDate_of. set (j := if _ && _ then _ else _).
  pose proof (good_adjust 0 PNone j) as Hg. set (j' := adjustInstDate now tz o 0 PNone j) in *.
  clearbody j'. destruct (input j'); [|done].
  destruct (falsy_date date); [by apply good_input|]. apply good_format in Hg.
  destruct (formatDate_of _ _ _ _ _). by apply good_input.
Qed.

Lemma good_alternate i : good (updateAlternate now tz o i) <-> good i.
Proof. unfold updateAlternate. by destruct (altField o). Qed.

(** *** The cells of the calendar *)

(** A cell with a link shows a day within the bounds. *)
Definition cell_good (c : cell) : Prop :=
  forall day, c_day c = Some day -> exists t, t = Day t * msPerDay /\ getDate t = day /\
    getMonth t = c_month c /\ getFullYear t = c_year c /\ in_bounds t.

(** If days of other months cannot be selected, a cell that the keyboard is at shows the
    selected day. *)
Definition cell_over_good (sel : Z) (c : cell) : Prop :=
  selectOtherMonths k = false -> c_over c = true -> forall day, c_day c = Some day -> day = sel.

Lemma cell_of_good e u : e_min e = Some lo -> e_max e = hi -> u = Day u * msPerDay -> cell_good (cell_of k e u).
Proof.
  intros Hmin Hmax Hu day. unfold cell_of. cbn. destruct (_ || _) eqn:E; [done|]. intros [= <-].
  apply orb_false_iff in E as [_ E]. unfold unselectable in E. rewrite Hmin, Hmax, !orb_false_iff in E. destruct E as [[_ E1] E2].
  exists u. split; [done|]. do 3 (split; [done|]). split; [lia|]. intros h ->. lia.
Qed.

Lemma cell_of_over e u y sel : 1 <= sel <= 31 -> e_selected e = daylightSavingAdjust (new_date y (e_drawMonth e) sel) ->
  cell_over_good sel (cell_of k e u).
Proof.
  intros Hs He Hk Ho day. rewrite dsa_new_date in He. cbn in Ho |- *. destruct (_ || _) eqn:E; [done|]. intros [= <-].
  apply orb_false_iff in E as [_ E]. unfold unselectable in E. rewrite Hk, andb_true_r, !orb_false_iff in E.
  destruct E as [[[E _] _] _]. unfold otherMonth in E. apply negb_false_iff, Z.eqb_eq in E.
  assert (u = e_selected e) as Hu by (unfold cell_over in Ho; lia). rewrite He in Hu. subst u. by apply getDate_in_month.
Qed.

(** A good day, a calendar drawn within the bounds, and while it is shown, drawn for that
    day. *)
Record fine (i : inst) : Prop := {
  fi_good : good i;
  fi_cells : Forall cell_good (table i);
  fi_over : showing i = true -> Forall (cell_over_good (selectedDay i)) (table i);
}.

Lemma fine_same i i' :
  fine i -> selectedDay i' = selectedDay i -> selectedMonth i' = selectedMonth i -> selectedYear i' = selectedYear i ->
  table i' = table i -> (showing i' = true -> showing i = true) -> fine i'.
Proof.
  intros [(t & (H1 & H2 & H3 & H4) & Hb) C O] Ed Em Ey Et Es. split.
  - exists t. split; [|done]. split_and!; congruence || done.
  - by rewrite Et.
  - rewrite Et, Ed. auto.
Qed.

Lemma drawn_cells i : good i ->
  Forall cell_good (table (updateDatepicker now tz o k i)) /\
  Forall (cell_over_good (selectedDay (updateDatepicker now tz o k i))) (table (updateDatepicker now tz o k i)).
Proof.
  intros (t & Ht & Hb). pose proof (in_bounds_plain t Hb) as Hp. rewrite <- Forall_and.
  rewrite (sd_day _ _ (updateDatepicker_dates now tz o k i t Ht Hp)).
  pose proof Ht as (_ & Hd & _). pose proof (getDate_bounds t) as Hdt. rewrite <- Hd in Hdt.
  unfold updateDatepicker, generateHTML. destruct (draw_start now tz o i) as [year month]. cbn zeta. cbn [fst table set_field].
  match goal with |- Forall ?Q (d_cells (draw_months ?a ?b ?c ?i' ?p ?n ?cd ?td ?dd ?mn ?mx ?d)) =>
    refine (proj2 (draw_cells a b c i' t p n cd td dd mn mx Q d Ht Hp _ eq_refl (Forall_nil_2 _)))
  end.
  intros y e u E1 E2 E3 Hu. split; [apply cell_of_good; [by rewrite E2|by rewrite E3|done]|by apply (cell_of_over _ _ y)].
Qed.

Lemma fine_drawn i : good i -> fine (updateDatepicker now tz o k i).
Proof. intros Hg. destruct (drawn_cells i Hg). split; [by apply good_update|done|done]. Qed.

Lemma fine_hidden i : good i -> Forall cell_good (table i) -> fine (hideDatepicker i).
Proof. by split. Qed.

Lemma fine_adjustDate offset p i : fine (adjustDate now tz o k offset p i).
Proof. unfold adjustDate. rewrite Henabled. apply fine_drawn, good_adjust. Qed.

Lemma fine_selectDate s i : good i -> Forall cell_good (table i) -> fine (selectDate now tz o k s i).
Proof.
  intros Hi Ht. unfold selectDate.
  destruct (match s with Some s => (i, s) | None => _ end) as [i1 s1] eqn:E.
  assert (good i1 /\ table i1 = table i) as [H1 T1] by (destruct s; injection E as <- <-; done).
  set (i2 := match input i1 with Some _ => _ | None => i1 end).
  assert (good i2 /\ table i2 = table i) as [H2 T2] by (unfold i2; by destruct (input i1)).
  apply good_alternate in H2. assert (table (updateAlternate now tz o i2) = table i) as T3
    by (unfold updateAlternate; destruct (altField o); done).
  set (i3 := updateAlternate now tz o i2) in *. clearbody i3. set (i4 := if onSelect o then _ else _).
  assert (good i4 /\ table i4 = table i) as [H4 T4] by (unfold i4; destruct (onSelect o); [done|by destruct (input i3)]).
  destruct (input i4); [|by apply fine_drawn]. apply fine_hidden; [done|by rewrite T4].
Qed.

Lemma fine_selectCell m y c i : fine i ->
  (forall day, c_day c = Some day -> exists t, t = Day t * msPerDay /\ getDate t = day /\ getMonth t = m /\ getFullYear t = y /\ in_bounds t) ->
  fine (selectCell now tz o k m y c i).
Proof.
  intros Hi Hc. unfold selectCell. destruct (c_day c) as [day|]; [|done]. destruct (Hc day eq_refl) as (t & Ht & <- & <- & <- & Hb).
  unfold selectDay. rewrite Henabled, orb_false_r. destruct (c_unselectable c); [done|].
  apply fine_selectDate; [|apply Hi]. by exists t.
Qed.

Lemma fine_cell_click n i : fine i -> fine (clickCell now tz o k n i).
Proof.
  intros Hi. unfold clickCell. destruct (table i !! n) as [c|] eqn:E; [|done]. destruct (c_unselectable c); [done|].
  apply fine_selectCell; [done|]. exact (proj1 (Forall_lookup _ _) (fi_cells i Hi) n c E).
Qed.

Lemma fine_show i : fine i \/ input i <> None /\ showing i = false -> fine (showDatepicker now tz o k i).
Proof.
  intros Hi. unfold showDatepicker. rewrite Henabled. cbn [orb].
  destruct (showing i) eqn:Es; [by destruct Hi as [Hi|[_ ?]]|].
  assert (good (setDateFromField now tz o false (i <| lastVal := None |>))) as H.
  { destruct (input i) as [v|] eqn:E.
    - apply good_field; [left; cbn; by rewrite E|cbn; by rewrite E].
    - unfold setDateFromField. cbn. rewrite E. destruct Hi as [Hi|[Hi _]]; [apply Hi|done]. }
  pose proof (drawn_cells _ H) as [Hc Ho]. apply good_update in H.
  set (j := updateDatepicker _ _ _ _ _) in *. clearbody j. by destruct (input j).
Qed.

Lemma fine_alternate i : fine i -> fine (updateAlternate now tz o i).
Proof. intros Hi. unfold updateAlternate. destruct (altField o); [by apply (fine_same i)|done]. Qed.

Lemma fine_keyUp i : fine i -> fine (doKeyUp now tz o k i).
Proof.
  intros Hi. unfold doKeyUp. destruct (input i) as [v|] eqn:E; [|done]. case_decide; [done|].
  destruct (parseDate _ _ _ _ _) as [[]| |]; [|done..]. apply fine_drawn, good_alternate.
  apply good_field; [right; apply Hi|by rewrite E].
Qed.

(** Enter selects a cell only where days of other months cannot be selected. *)
Definition valid (a : action) : Prop :=
  match a with AKey e => keyCode e = 13 -> selectOtherMonths k = false | _ => True end.

Lemma fine_enter i : selectOtherMonths k = false -> showing i = true -> fine i ->
  fine (match over_cell i with Some c => selectCell now tz o k (selectedMonth i) (selectedYear i) c i | None => i end).
Proof.
  intros Hk Hs Hi. unfold over_cell. destruct (List.find _ _) as [c|] eqn:E; [|done].
  apply find_some in E as [Hin [Ho _]%andb_true_iff]. apply fine_selectCell; [done|]. intros day Hd.
  pose proof (fi_over i Hi Hs) as Hov. rewrite Forall_forall in Hov. apply list_elem_of_In in Hin.
  rewrite (Hov c Hin Hk Ho day Hd). destruct (fi_good i Hi) as (t & (H1 & H2 & H3 & H4) & Hb). by exists t.
Qed.

Lemma fine_key e i : valid (AKey e) -> fine i -> fine (fst (doKeyDown now tz o k e i)).
Proof.
  intros Hv Hi. unfold doKeyDown. set (j := i <| keyEvent := true |>).
  assert (fine j) as Hj by by apply (fine_same i).
  assert (forall p n (b : bool), fine (if b then adjustDate now tz o k n p j else j)) as Hadj
    by (intros p n []; [apply fine_adjustDate|done]).
  assert (forall (b : bool) p n x, fine x -> fine (if b then adjustDate now tz o k n p x else x)) as Hadj'
    by (intros [] ??? Hx; [apply fine_adjustDate|exact Hx]).
  assert (fine (hideDatepicker j)) as Hh by by apply (fine_same j).
  destruct (showing j) eqn:Es.
  - destruct (keyCode e =? 9); [exact Hh|]. destruct (Z.eqb_spec (keyCode e) 13) as [E|_].
    { cbn [fst]. pose proof (fine_enter j (Hv E) Es Hj) as Hj'. set (j' := match over_cell j with Some _ => _ | None => _ end) in *.
      destruct (onSelect o); [by apply (fine_same j')|by apply (fine_same j')]. }
    destruct (keyCode e =? 27); [exact Hh|].
    destruct (keyCode e =? 33); [apply fine_adjustDate|].
    destruct (keyCode e =? 34); [apply fine_adjustDate|].
    destruct (keyCode e =? 35); [cbn [fst]; destruct (_ || _); [by apply fine_selectDate; apply Hj|done]|].
    destruct (keyCode e =? 36); [cbn [fst]; destruct (_ || _); [apply fine_adjustDate|done]|].
    destruct (keyCode e =? 37); [apply Hadj', Hadj|].
    destruct (keyCode e =? 38); [apply Hadj|].
    destruct (keyCode e =? 39); [apply Hadj', Hadj|].
    destruct (keyCode e =? 40); [apply Hadj|exact Hj].
  - destruct (_ && _); [apply fine_show; by left|exact Hj].
Qed.

Lemma fine_action a i : valid a -> fine i -> fine (act now tz o k a i).
Proof.
  intros Hv Hi. destruct a; cbn [act].
  - apply fine_show. by left.
  - by apply (fine_same i).
  - by apply fine_key.
  - destruct (input i); [|done]. apply fine_keyUp. by apply (fine_same i).
  - apply fine_adjustDate.
  - apply fine_adjustDate.
  - apply fine_adjustDate.
  - apply fine_adjustDate.
  - apply fine_adjustDate.
  - by apply fine_cell_click.
  - unfold setDateDatepicker. apply fine_alternate, fine_drawn, good_setDate.
Qed.

End bounds.

(** ** A chosen day and the text of the field *)

Section reopen.
Context (now tz : Z) (o : options) (k : look).
Context (Henabled : disabled o = false).

Lemma restrict_id i t :
  isInRange now tz o i t = true -> restrictMinMax now tz o i t = t.
Proof.
  unfold isInRange, restrictMinMax. intros [H1 H2]%andb_true_iff.
  destruct (getMinDate now tz o i) as [m|], (getMaxDate now tz o i) as [h|]; zcases; lia.
Qed.

Lemma adjustInstDate_none i :
  adjustInstDate now tz o 0 PNone i =
  show (restrictMinMax now tz o i (new_date (drawYear i) (drawMonth i)
          (Z.min (selectedDay i) (getDaysInMonth (drawYear i) (drawMonth i))))) i.
Proof.
  unfold adjustInstDate. rewrite !decide_False by done. rewrite !Z.add_0_r, dsa_new_date. done.
Qed.

(** The fields of the dates after a field with the text of [t] is read. *)
Lemma setDateFromField_text i s t :
  input i = Some s -> lastVal i = None -> s <> EmptyString ->
  parseDate now tz (dateFormat o) s (Some (getFormatConfig now o)) = Ok (Some t) ->
  t = Day t * msPerDay -> plain_year (getFullYear t) ->
  (forall j, isInRange now tz o j t = true) ->
  let i' := setDateFromField now tz o false i in
  selects i' t /\ currentDay i' = getDate t /\ currentMonth i' = getMonth t /\
  currentYear i' = getFullYear t /\ input i' = Some s.
Proof.
  intros Hin Hlast Hs Hparse Ht Hp Hrange. unfold setDateFromField. rewrite Hin, Hlast.
  rewrite decide_False by done. cbv zeta. rewrite Hparse. cbn [default from_option]. unfold id.
  rewrite (proj2 (String.eqb_neq s "") Hs).
  set (j := set_current t (show t (i <| lastVal := Some s |>))).
  rewrite adjustInstDate_none.
  assert (new_date (drawYear j) (drawMonth j)
    (Z.min (selectedDay j) (getDaysInMonth (drawYear j) (drawMonth j))) = t) as ->.
  { unfold j. cbn. destruct (fields_civil t) as [Hm Hda]. rewrite getDaysInMonth_month by done.
    rewrite Z.min_l by lia. rewrite new_date_plain, MakeDay_fields by done. done. }
  rewrite restrict_id by apply Hrange. split; [by split|]. unfold j. done.
Qed.

(** C33.  A day chosen in the calendar ends as text in the field, and reopening the
    datepicker parses it back to the same day: it is again the current, the selected
    and the drawn one.  The format and the names are as in [parse_format]. *)
Theorem select_then_reopen i y m dt cut :
  let t := new_date y m dt in
  let cfg := Some (getFormatConfig now o) in
  let ks := scan "dDomMy" false (dateFormat o) in
  input i <> None -> civil y m dt -> 1000 <= y <= 9999 ->
  (forall j, isInRange now tz o j t = true) ->
  reversible ks = true -> determined ks = true ->
  (forall b : bool, let l := if b then names_of dayNames cfg else names_of dayNamesShort cfg in
     length l = 7%nat /\ prefix_free l = true) ->
  (forall b : bool, let l := if b then names_of monthNames cfg else names_of monthNamesShort cfg in
     length l = 12%nat /\ prefix_free l = true) ->
  (has_short_year ks = true ->
     short_cutoff now cfg = Some cut /\ 0 <= cut < 100 /\ 0 <= getFullYear now /\
     1900 <= y /\ century now - 100 + cut < y <= century now + cut) ->
  let i1 := selectDay now tz o k dt m y false i in
  let i2 := showDatepicker now tz o k i1 in
  input i1 = Some (formatDate tz (dateFormat o) (Some t) cfg) /\ showing i1 = false /\
  input i2 = input i1 /\ getDate_of i2 = Some t /\ selects i2 t.
Proof.
  intros t cfg ks Hin Hc Hy Hrange Hrev Hdet Hdays Hmonths Hshort i1 i2.
  assert (plain_year y) as Hp by (right; lia).
  destruct (fields_new_date y m dt Hp Hc) as (Fy & Fm & Fd). fold t in Fy, Fm, Fd.
  assert (t = Day t * msPerDay) as Hmid
    by (unfold t; rewrite new_date_plain by done; by rewrite Day_of_midnight).
  assert (formatDate tz (dateFormat o) (Some t) cfg <> EmptyString) as Hne.
  { apply (format_not_empty tz cfg t); [by rewrite Fy| |].
    - by apply andb_true_iff in Hdet as [? _].
    - intros H. rewrite Fy. by apply Hshort. }
  assert (parseDate now tz (dateFormat o) (formatDate tz (dateFormat o) (Some t) cfg) cfg = Ok (Some t))
    as Hparse by (apply (parse_formatted now tz cfg t (dateFormat o) cut); rewrite ?Fy; done).
  assert (input i1 = Some (formatDate tz (dateFormat o) (Some t) cfg) /\ showing i1 = false) as [Hi1 Hsh].
  { destruct (input i) as [v|] eqn:E; [|done].
    unfold i1, selectDay. rewrite Henabled. cbn [orb].
    unfold formatDate_of. rewrite dsa_new_date. cbn [currentDay currentMonth currentYear set_field].
    fold t cfg. unfold selectDate. cbn [input set_field]. rewrite E. cbn [input set_field].
    unfold updateAlternate. destruct (altField o), (onSelect o); done. }
  clearbody i1. split; [done|]. split; [done|].
  unfold i2, showDatepicker. rewrite Henabled, Hsh. cbn [orb].
  destruct (setDateFromField_text (i1 <| lastVal := None |>)
    (formatDate tz (dateFormat o) (Some t) cfg) t) as (Hs & Hcd & Hcm & Hcy & Hi2);
    [exact Hi1|done|exact Hne|exact Hparse|exact Hmid|by rewrite Fy|exact Hrange|].
  set (j := setDateFromField now tz o false (i1 <| lastVal := None |>)) in *. clearbody j.
  pose proof (updateDatepicker_dates now tz o k j t Hs ltac:(by rewrite Fy)) as Hsd.
  set (j' := updateDatepicker now tz o k j) in *. clearbody j'.
  pose proof (selects_same _ _ _ Hsd Hs) as Hs'. destruct Hsd.
  rewrite sd_input0, Hi2. cbn [input set_field]. rewrite sd_input0, Hi2, Hi1.
  split; [done|]. split; [|exact Hs'].
  unfold getDate_of, empty_input. cbn [input currentYear currentMonth currentDay set_field].
  rewrite sd_input0, Hi2, sd_cyear0, sd_cmonth0, sd_cday0, Hcy, Hcm, Hcd, Fy, Fm, Fd.
  rewrite (proj2 (String.eqb_neq _ "") Hne), orb_false_r, if_false by lia.
  by rewrite dsa_new_date.
Qed.
End reopen.

(** ** Stepping through the months *)

Section months.
Context (now tz : Z) (o : options) (k : look).
Context (Hmin : minDate o = DNull) (Hmax : maxDate o = DNull).

Lemma restrict_free i t : restrictMinMax now tz o i t = t.
Proof. unfold restrictMinMax, getMinDate, getMaxDate. by rewrite Hmin, Hmax. Qed.

Definition drawn (i : inst) : Z := month_index (drawYear i) (drawMonth i).

Lemma month_index_norm y m : month_index (y + m / 12) (m mod 12) = month_index y m.
Proof. unfold month_index. pose proof (Z.div_mod m 12). lia. Qed.

(** Without bounds, stepping by [n] months draws the calendar [n] months later,
    wherever the current month is shown; the selected day becomes the same day of
    the new month, or its last day if it is shorter. *)
Theorem adjust_months n i :
  disabled o = false -> 0 <= showCurrentAtPos o <= 12 -> 1 <= selectedDay i ->
  100 <= drawYear i -> 100 <= drawYear i + (drawMonth i + (n + showCurrentAtPos o)) / 12 ->
  let i' := adjustDate now tz o k n PMonth i in
  drawn i' = drawn i + n /\
  month_index (selectedYear i') (selectedMonth i') = drawn i + n + showCurrentAtPos o /\
  selectedDay i' = Z.min (selectedDay i) (month_length (selectedYear i') (selectedMonth i')).
Proof.
  intros He Hpos Hday Hy Hy' i'.
  set (p := showCurrentAtPos o) in *. set (m' := drawMonth i + (n + p)) in *.
  set (y1 := drawYear i + m' / 12) in *. set (m1 := m' mod 12).
  assert (0 <= m1 < 12) as Hm1 by (apply Z.mod_pos_bound; lia).
  assert (getDaysInMonth (drawYear i) m' = month_length y1 m1) as Hdim
    by (apply getDaysInMonth_spec; by right).
  set (day := Z.min (selectedDay i) (month_length y1 m1)).
  assert (civil y1 m1 day) as Hc
    by (split; [done|]; pose proof (month_length_bounds y1 m1 Hm1); unfold day; lia).
  set (t := new_date y1 m1 day).
  destruct (fields_new_date y1 m1 day (or_intror Hy') Hc) as (Fy & Fm & Fd). fold t in Fy, Fm, Fd.
  assert (adjustInstDate now tz o (n + p) PMonth i = notifyChange o (show t i)) as Hadj.
  { unfold adjustInstDate. rewrite decide_False, decide_True, decide_False by done.
    rewrite !Z.add_0_r. fold m'. rewrite Hdim. fold day.
    rewrite dsa_new_date, restrict_free. do 2 f_equal.
    unfold t. rewrite !new_date_plain by by right. f_equal. apply MakeDay_norm. }
  unfold i', adjustDate. rewrite He, decide_True by done. fold p. rewrite Hadj.
  set (j := notifyChange o (show t i)).
  assert (selects j t) as Hs
    by (unfold j, notifyChange; destruct (onChangeMonthYear o); split_and!; try done;
        unfold t; rewrite new_date_plain by (by right); by rewrite Day_of_midnight).
  assert (drawMonth j = m1 /\ drawYear j = y1) as [Hjm Hjy]
    by (unfold j, notifyChange; destruct (onChangeMonthYear o); done).
  pose proof (updateDatepicker_dates now tz o k j t Hs ltac:(right; lia)) as Hsd.
  pose proof (updateDatepicker_draw now tz o k j) as Hd.
  clearbody j. destruct Hs as (_ & Sd & Sm & Sy).
  unfold draw_start, getMaxDate in Hd. rewrite Hmax in Hd. cbn [determineDate fmap option_fmap option_map] in Hd.
  fold p in Hd. rewrite Hjm, Hjy in Hd.
  assert (month_index y1 m1 = drawn i + n + p) as Hidx
    by (unfold y1, m1; rewrite month_index_norm; unfold drawn, month_index, m'; lia).
  destruct Hsd. rewrite sd_day0, sd_month0, sd_year0, Sd, Sm, Sy, Fy, Fm, Fd.
  split; [|done]. unfold drawn at 1.
  destruct (Z.ltb_spec (m1 - p) 0); destruct Hd as [-> ->]; unfold month_index in *; lia.
Qed.
End months.

(** ** Relative dates as text *)

(** A relative date as it is documented: [+1m -7d]. *)
Definition print_offset (p : Z * ascii) : string :=
  (if fst p <? 0 then "-" else "+") +:+ pretty (Z.abs (fst p)) +:+ String (snd p) " ".

Lemma leading_digits_app p c r : all_digits p = true -> is_digit c = false ->
  leading_digits (p +:+ String c r) = p /\ after_digits (p +:+ String c r) = String c r.
Proof.
  intros Hp Hc. induction p as [|d p IH].
  - rewrite app_string_nil_l. cbn. by rewrite Hc.
  - cbn in Hp. apply andb_true_iff in Hp as [Hd Hp]. rewrite app_string_cons. cbn. rewrite Hd.
    destruct (IH Hp) as [-> ->]. done.
Qed.

Lemma offsets_print_one n p r :
  Z.abs (fst p) < 10000 -> is_in "dDwWmMyY" (snd p) = true ->
  offsets (S n) (print_offset p +:+ r) = p :: offsets n (String " " r).
Proof.
  destruct p as [z u]. cbn [fst snd]. intros Hz Hu. unfold print_offset. cbn [fst snd].
  destruct (numeral_spec 4 (Z.abs z) numerals4 ltac:(change (Z.of_nat (10 ^ 4)) with 10000; lia) false)
    as (N1 & N2 & _). unfold formatNumber in N1, N2.
  set (ds := pretty (Z.abs z)) in *.
  assert (is_digit u = false /\ is_blank u = false) as [Hnd Hnb].
  { cbn in Hu. rewrite !orb_true_iff, !Ascii.eqb_eq in Hu.
    repeat destruct Hu as [->|Hu]; done || (by destruct Hu). }
  assert (((ds +:+ String u " ") +:+ r) = ds +:+ String u (String " " r)) as Hcat
    by (rewrite app_string_assoc; done).
  assert (starts_digit (ds +:+ String u (String " " r)) = true) as Hsd.
  { destruct ds as [|c ds']; [done|]. cbn in N1. by apply andb_true_iff in N1 as [? _]. }
  destruct (leading_digits_app ds u (String " " r) N1 Hnd) as [Hld Hafter].
  assert (forall c : ascii, c = "-"%char \/ c = "+"%char -> (z <? 0) = Ascii.eqb c "-" ->
    offsets (S n) (String c (ds +:+ String u (String " " r))) = (z, u) :: offsets n (String " " r)) as H.
  { intros c Hc Hsign. cbn [offsets]. rewrite Hsd, Hafter.
    replace (Ascii.eqb c "+" || Ascii.eqb c "-") with true by (by destruct Hc as [->| ->]).
    cbn [andb orb]. unfold unit_of. cbn [skip_blanks]. rewrite Hnb, Hu. f_equal. f_equal.
    unfold parseInt. replace (skip_blanks _) with (String c (ds +:+ String u (String " " r)))
      by (by destruct Hc as [->| ->]).
    destruct Hc as [->| ->]; cbn [Ascii.eqb Bool.eqb] in Hsign |- *; rewrite Hld, N2; cbn; lia. }
  destruct (Z.ltb_spec z 0).
  - rewrite !app_string_assoc, app_string_cons, app_string_nil_l. rewrite <- app_string_assoc, Hcat.
    apply H; [by left|]. cbn. lia.
  - rewrite !app_string_assoc, app_string_cons, app_string_nil_l. rewrite <- app_string_assoc, Hcat.
    apply H; [by right|]. cbn. lia.
Qed.

Lemma offsets_fuel l n :
  Forall (fun p => Z.abs (fst p) < 10000 /\ is_in "dDwWmMyY" (snd p) = true) l ->
  (2 * length l <= n)%nat -> offsets n (String.concat "" (print_offset <$> l)) = l.
Proof.
  revert n. induction l as [|p l IH]; intros n Hl Hn; [by destruct n|].
  apply Forall_cons in Hl as [[Hz Hu] Hl]. cbn in Hn. destruct n as [|[|n]]; [lia..|].
  rewrite fmap_cons, concat_cons, offsets_print_one by done.
  f_equal. change (offsets (S n) (String " " ?r)) with (offsets n r). apply IH; [done|lia].
Qed.

Lemma print_offset_length p : (2 <= String.length (print_offset p))%nat.
Proof.
  unfold print_offset.
  assert (forall a b, String.length (a +:+ b) = (String.length a + String.length b)%nat) as Hlen
    by (intros a b; induction a as [|c a IH]; [done|rewrite app_string_cons; cbn; by rewrite IH]).
  rewrite !Hlen. destruct (fst p <? 0); cbn; lia.
Qed.

Lemma print_offsets_length l :
  (2 * length l <= String.length (String.concat "" (print_offset <$> l)))%nat.
Proof.
  induction l as [|p l IH]; [cbn; lia|]. rewrite fmap_cons, concat_cons.
  assert (forall a b, String.length (a +:+ b) = (String.length a + String.length b)%nat) as Hlen
    by (intros a b; induction a as [|c a IHa]; [done|rewrite app_string_cons; cbn; by rewrite IHa]).
  rewrite Hlen. pose proof (print_offset_length p). cbn [length]. lia.
Qed.

(** A relative date written as signed numbers with units, such as [+1m -7d],
    is taken apart into exactly these, in order. *)
Theorem offsets_roundtrip l :
  Forall (fun p => Z.abs (fst p) < 10000 /\ is_in "dDwWmMyY" (snd p) = true) l ->
  let text := String.concat "" (print_offset <$> l) in
  offsets (String.length text) text = l.
Proof. intros Hl text. apply offsets_fuel; [done|]. apply print_offsets_length. Qed.

(** ** Witnesses *)

(** 14 November 2023, and options with an earliest date. *)
Definition a_now : Z := 1699920000000.
Definition some_options (lo hi : dspec) (pos : Z) (onSel : bool) : options :=
  mk_options "mm/dd/yy" DNull lo hi false 1 12 pos (1, 1) false "" onSel true false false
    (mk_settings None None None None None).
Definition some_look : look :=
  mk_look false false false "Prev" "Next" "Today" "Done" "0" false "Wk"
    ["Su"; "Mo"; "Tu"; "We"; "Th"; "Fr"; "Sa"] false false false false false "c-10:c+10" "" None
    iso8601Week.
Definition new_inst (text : string) : inst :=
  mk_inst (Some text) None "" 0 0 0 0 0 0 0 0 false false [] [].

Definition bounded : options := some_options (DDate (new_date 2023 0 15)) (DDate (new_date 2023 10 20)) 0 false.

(** Opened on a field with a date past the latest one; a click on 10 November; opened again,
    a week back by the keyboard; a date before the earliest typed, a day back, entered. *)
Definition some_actions : list action :=
  [ANext; ADay 12; AShow; AKey (mk_key 38 true false false); AType "01/01/1999"; AKey (mk_key 37 true false false);
   AKey (mk_key 13 false false false)].


Lemma select_then_reopen_witness :
  getDate_of (showDatepicker a_now 0 (some_options DNull DNull 0 false) some_look
    (selectDay a_now 0 (some_options DNull DNull 0 false) some_look 29 1 2024 false (new_inst "")))
  = Some (new_date 2024 1 29).
Proof.
  refine (proj1 (proj2 (proj2 (proj2 (select_then_reopen a_now 0 (some_options DNull DNull 0 false)
    some_look eq_refl (new_inst "") 2024 1 29 0 _ _ _ _ _ _ _ _ _))))).
  - discriminate.
  - split; [lia|]. vm_compute. split; discriminate.
  - lia.
  - intros j. reflexivity.
  - reflexivity.
  - reflexivity.
  - intros []; split; vm_compute; reflexivity.
  - intros []; split; vm_compute; reflexivity.
  - discriminate.
Defined.

Lemma adjust_months_witness :
  drawn (adjustDate a_now 0 (some_options DNull DNull 0 false) some_look 1 PMonth
    (showDatepicker a_now 0 (some_options DNull DNull 0 false) some_look (new_inst "01/31/2023")))
  = month_index 2023 1.
Proof.
  pose proof (adjust_months a_now 0 (some_options DNull DNull 0 false) some_look eq_refl eq_refl 1
    (showDatepicker a_now 0 (some_options DNull DNull 0 false) some_look (new_inst "01/31/2023"))) as H.
  assert (drawn (showDatepicker a_now 0 (some_options DNull DNull 0 false) some_look
    (new_inst "01/31/2023")) = month_index 2023 0) as Hd by (vm_compute; reflexivity).
  rewrite Hd in H. apply H.
  - reflexivity.
  - split; discriminate.
  - vm_compute. discriminate.
  - vm_compute. discriminate.
  - vm_compute. discriminate.
Defined.

Lemma offsets_roundtrip_witness : offsets 9 "+1m -7d " = [(1, "m"%char); (-7, "d"%char)].
Proof.
  exact (offsets_roundtrip [(1, "m"%char); (-7, "d"%char)] ltac:(repeat constructor)).
Defined.

Lemma month_table_witness :
  (month_dates some_look 2024 1 (Z.to_nat (curRows some_look 2024 1))) !! 4%nat
  = Some (new_date 2024 1 1) /\ curRows some_look 2024 1 = 5 /\ getDay (new_date 2024 1 1) = 4.
Proof.
  pose proof (month_table some_look ltac:(vm_compute; split; discriminate) 2024 1
    ltac:(right; lia) ltac:(lia)) as (_ & _ & _ & _ & H).
  split; [vm_compute; reflexivity|]. split; [vm_compute; reflexivity|].
  refine (proj1 (proj2 (H 4%nat (new_date 2024 1 1) _))). vm_compute. reflexivity.
Defined.

Lemma clamp_draw_spec_witness :
  clamp_draw (clamp_fuel (new_date 2023 10 20) 2025 3) (new_date 2023 10 20) 2025 3 = (2023, 10).
Proof.
  pose proof (clamp_draw_spec (new_date 2023 10 20) ltac:(vm_compute; reflexivity) 2025 3
    ltac:(lia) ltac:(vm_compute; discriminate) ltac:(lia)) as H.
  assert (month_index (getFullYear (new_date 2023 10 20)) (getMonth (new_date 2023 10 20))
          = month_index 2023 10) as Hm by (vm_compute; reflexivity).
  rewrite Hm in H. destruct (clamp_draw _ _ _ _) as [y m]. destruct H as (H1 & _ & H2).
  change (Z.min _ _) with (12 * 2023 + 10) in H2. unfold month_index in H2. f_equal; lia.
Defined.

(** ** What the actions get wrong *)

(** [setDate(0)] means today but clears the field. *)
Example set_today_clears :
  input (act a_now 0 (some_options DNull DNull 0 false) some_look (ASetDate (DNum 0)) (new_inst "01/31/2023"))
  = Some ""%string.
Proof. vm_compute. reflexivity. Qed.

(** With [showCurrentAtPos] a day key moves back a month: the shift of the drawing
    is only undone for steps of months. *)
Example day_key_moves_month :
  let o := some_options DNull DNull 1 false in
  let i := act a_now 0 o some_look (AKey (mk_key 39 true false false))
             (act a_now 0 o some_look AShow (new_inst "06/15/2023")) in
  (selectedYear i, selectedMonth i, selectedDay i) = (2023, 4, 16).
Proof. vm_compute. reflexivity. Qed.

(** Enter on a day calls [onSelect] twice. *)
Example enter_selects_twice :
  let o := some_options DNull DNull 0 true in
  let press i c ctrl := act a_now 0 o some_look (AKey (mk_key c ctrl false false)) i in
  let i := press (press (press (act a_now 0 o some_look AShow (new_inst "06/15/2023")) 39 true) 39 true) 13 false in
  told i = [Selected "06/17/2023"; Selected "06/17/2023"].
Proof. vm_compute. reflexivity. Qed.

(** With two months shown and days of other months selectable, enter can choose a day
    before the earliest: on 31 March the cell of 1 May in the table of April, the default
    date, is taken for the day the keyboard is at; its number is combined with March. *)
Definition two_months : options :=
  mk_options "mm/dd/yy" (DDate (new_date 2023 4 1)) (DDate (new_date 2023 2 15)) DNull false 1 12 0 (1, 2) false "" false true
    false false (mk_settings None None None None None).
Definition other_look : look :=
  mk_look false false false "Prev" "Next" "Today" "Done" "0" false "Wk"
    ["Su"; "Mo"; "Tu"; "We"; "Th"; "Fr"; "Sa"] true true false false false "c-10:c+10" "" None
    iso8601Week.
Example enter_before_earliest :
  let press i c := act a_now 0 two_months other_look (AKey (mk_key c false false false)) i in
  let i := press (act a_now 0 two_months other_look (ASetDate (DDate (new_date 2023 2 31)))
                    (act a_now 0 two_months other_look AShow (new_inst "03/20/2023"))) 13 in
  input i = Some "03/01/2023"%string.
Proof. vm_compute. reflexivity. Qed.
