(* ===== verification/UiMouse.v ===== *)
(** * jQuery UI mouse: press, drag, release

    Models the widget [ui.mouse] of [2019104287/code/WebContent/js/jquery-ui.js], on
    which the draggable widgets build.  Its four methods "to be overridden" are the
    interface [mouse_plugin]; the widget drives any implementation of it.  Numbers
    are rationals. *)

From S2P Require Export JsRational.
Open Scope Z_scope.

(** A mouse event; [in_cancel] says that its target lies in an element of the option
    [cancel]. *)
Record mevent := mk_mevent {
  target : nat; pageX : Q; pageY : Q; which : Z; button : Z; in_cancel : bool;
}.

(** What a widget built on the mouse provides: its methods, and what it does before the
    inherited [_mouseUp] when it overrides that.  [None] is an exception. *)
Class mouse_plugin (S : Type) := {
  beforeUp : mevent -> S -> S;
  mouseCapture : mevent -> S -> option (S * bool);
  mouseStart : mevent -> option mevent -> S -> S * bool;
  mouseDrag : mevent -> S -> S;
  mouseStop : mevent -> S -> S;
}.

(** The options, and whether the browser is an Internet Explorer before 9. *)
Record mouse_options := mk_mouse_options { distance : Q; delay : Z; old_ie : bool }.

(** The fields of an instance, the flag shared by all instances, and what is bound
    to the document: one number per pair of delegates. *)
Record mouse := mk_mouse {
  mouseHandled : bool;
  mouseStarted : bool;
  mouseDownEvent : option mevent;
  mouseDelayMet : bool;
  delayTimers : nat;
  delegate : option nat;
  bound : list nat;
  preventClick : list nat;
  fresh : nat;
}.
#[export] Instance mouse_eta : Settable mouse := fun m =>
  mk_mouse (mouseHandled m) (mouseStarted m) (mouseDownEvent m) (mouseDelayMet m) (delayTimers m)
    (delegate m) (bound m) (preventClick m) (fresh m).

(** [_mouseInit]. *)
Definition mouseInit : mouse := mk_mouse false false None false 0 None [] [] 0.

Section mouse.
Context {S : Type} `{mouse_plugin S} (o : mouse_options).

Abbreviation world := (mouse * S)%type.

Definition mouseDistanceMet (m : mouse) (e : mevent) : bool :=
  match mouseDownEvent m with
  | Some d => Qle_bool (distance o)
                (Qmax2 (Qabs (pageX d - pageX e)) (Qabs (pageY d - pageY e)))
  | None => false
  end.

(** [unbind('mousemove...', delegate)]; without a delegate it unbinds all. *)
Definition unbind_delegates (m : mouse) : mouse :=
  m <| bound := match delegate m with
                | Some d => filter (fun x => x <> d) (bound m)
                | None => []
                end |>.

Definition mouseUp (e : mevent) (w : world) : world :=
  let '(m, s) := w in
  let s := beforeUp e s in
  let m := unbind_delegates m in
  if mouseStarted m then
    let m := m <| mouseStarted := false |> in
    let m := match mouseDownEvent m with
             | Some d => if decide (target e = target d)
                         then m <| preventClick := target e :: preventClick m |> else m
             | None => m
             end in
    (m, mouseStop e s)
  else (m, s).

Definition mouseDown (e : mevent) (w : world) : option world :=
  if mouseHandled (fst w) then Some w
  else
    let '(m, s) := if mouseStarted (fst w) then mouseUp e w else w in
    let m := m <| mouseDownEvent := Some e |> in
    if negb (which e =? 1) || in_cancel e then Some (m, s)
    else match mouseCapture e s with
         | None => None
         | Some (s, false) => Some (m, s)
         | Some (s, true) =>
             let m := m <| mouseDelayMet := (delay o =? 0) |> in
             let m := if delay o =? 0 then m else m <| delayTimers := Datatypes.S (delayTimers m) |> in
             let '(m, s, go) :=
               if mouseDistanceMet m e && mouseDelayMet m
               then let '(s, ok) := mouseStart e None s in (m <| mouseStarted := ok |>, s, ok)
               else (m, s, true) in
             if negb go then Some (m, s)
             else
               let m := m <| preventClick := filter (fun x => x <> target e) (preventClick m) |>
                          <| delegate := Some (fresh m) |>
                          <| bound := fresh m :: bound m |>
                          <| fresh := Datatypes.S (fresh m) |>
                          <| mouseHandled := true |> in
               Some (m, s)
         end.

Definition mouseMove (e : mevent) (w : world) : world :=
  let '(m, s) := w in
  if old_ie o && (button e =? 0) then mouseUp e w
  else if mouseStarted m then (m, mouseDrag e s)
  else if mouseDistanceMet m e && mouseDelayMet m then
    let '(s, ok) := mouseStart (default e (mouseDownEvent m)) (Some e) s in
    let m := m <| mouseStarted := ok |> in
    if ok then (m, mouseDrag e s) else mouseUp e (m, s)
  else (m, s).

(** [_mouseDestroy]. *)
Definition mouseDestroy (w : world) : world :=
  match delegate (fst w) with
  | Some _ => (unbind_delegates (fst w), snd w)
  | None => w
  end.

(** What the page raises.  A release resets the shared flag before the delegates
    see it; every bound pair of delegates receives the event. *)
Inductive maction := Press (e : mevent) | Move (e : mevent) | Release (e : mevent) | DelayOver
  | Click (t : nat).

Definition mouse_act (a : maction) (w : world) : option world :=
  match a with
  | Press e => mouseDown e w
  | Move e => Some (Nat.iter (length (bound (fst w))) (mouseMove e) w)
  | Release e =>
      Some (Nat.iter (length (bound (fst w))) (mouseUp e) (fst w <| mouseHandled := false |>, snd w))
  | DelayOver =>
      Some (if decide (delayTimers (fst w) = 0%nat) then w
            else (fst w <| mouseDelayMet := true |> <| delayTimers := pred (delayTimers (fst w)) |>, snd w))
  | Click t => Some (fst w <| preventClick := filter (fun x => x <> t) (preventClick (fst w)) |>, snd w)
  end.

Fixpoint mouse_acts (l : list maction) (w : world) : option world :=
  match l with
  | [] => Some w
  | a :: l => match mouse_act a w with Some w => mouse_acts l w | None => None end
  end.

(** ** Phases of a plugin *)

(** What a plugin's methods keep between drags and during one is kept by every action of
    the mouse: drags begin and end in turn, and if the capture raises no exception there
    is none. *)
Section phases.
Context (P0 P1 : S -> Prop).
Context (Hup0 : forall e s, P0 s -> P0 (beforeUp e s)) (Hup1 : forall e s, P1 s -> P1 (beforeUp e s)).
Context (Hcapture : forall e s, P0 s -> exists s' b, mouseCapture e s = Some (s', b) /\ P0 s').
Context (Hstart : forall e e' s, P0 s -> if snd (mouseStart e e' s) then P1 (fst (mouseStart e e' s)) else P0 (fst (mouseStart e e' s))).
Context (Hdrag : forall e s, P1 s -> P1 (mouseDrag e s)).
Context (Hstop : forall e s, P1 s -> P0 (mouseStop e s)).

Definition phase (w : world) : Prop := if mouseStarted (fst w) then P1 (snd w) else P0 (snd w).

Lemma mouseUp_started e w : mouseStarted (fst (mouseUp e w)) = false.
Proof.
  destruct w as [m s]. unfold mouseUp. change (mouseStarted (unbind_delegates m)) with (mouseStarted m).
  destruct (mouseStarted m) eqn:E; [|exact E]. cbn. destruct (mouseDownEvent m); [by case_decide|done].
Qed.

Lemma mouseUp_phase e w : phase w -> P0 (snd (mouseUp e w)).
Proof.
  destruct w as [m s]. unfold phase, mouseUp. change (mouseStarted (unbind_delegates m)) with (mouseStarted m). cbn [fst snd].
  destruct (mouseStarted m); intros H0; [by apply Hstop, Hup1|by apply Hup0].
Qed.

Lemma mouseUp_keeps e w : phase w -> phase (mouseUp e w).
Proof. intros H0. unfold phase. rewrite mouseUp_started. by apply mouseUp_phase. Qed.

Lemma mouseMove_phase e w : phase w -> phase (mouseMove e w).
Proof.
  intros H0. unfold mouseMove. destruct (old_ie o && (button e =? 0)); [destruct w; by apply mouseUp_keeps|].
  destruct w as [m s]. unfold phase in H0. cbn [fst snd] in H0. destruct (mouseStarted m) eqn:Em.
  { unfold phase. cbn. rewrite Em. by apply Hdrag. }
  destruct (_ && _); [|unfold phase; cbn; by rewrite Em].
  pose proof (Hstart (default e (mouseDownEvent m)) (Some e) s H0) as Hs.
  destruct (mouseStart (default e (mouseDownEvent m)) (Some e) s) as [s' []]; cbn [fst snd] in Hs; [by apply Hdrag|].
  by apply mouseUp_keeps.
Qed.

Ltac found := eexists; split; [reflexivity|unfold phase; cbn; auto].

Lemma mouseDown_phase e w : phase w -> exists w', mouseDown e w = Some w' /\ phase w'.
Proof.
  intros H0. unfold mouseDown. destruct (mouseHandled (fst w)); [eauto|].
  assert (P0 (snd (if mouseStarted (fst w) then mouseUp e w else w)) /\ mouseStarted (fst (if mouseStarted (fst w) then mouseUp e w else w)) = false) as [H1 Hm].
  { unfold phase in H0. destruct (mouseStarted (fst w)) eqn:E; [|done]. split; [apply mouseUp_phase; unfold phase; by rewrite E|apply mouseUp_started]. }
  destruct (if mouseStarted (fst w) then mouseUp e w else w) as [m s]. cbn [fst snd] in H1, Hm.
  destruct (_ || _); [found; by rewrite Hm|].
  destruct (Hcapture e s H1) as (s1 & b & -> & H2). destruct b; [|found; by rewrite Hm].
  set (m1 := if delay o =? 0 then _ else _). assert (mouseStarted m1 = false) as Hm1 by (unfold m1; by destruct (delay o =? 0)).
  clearbody m1. destruct (_ && _).
  - pose proof (Hstart e None s1 H2) as Hs. destruct (mouseStart e None s1) as [s2 []]; cbn [fst snd] in Hs; found.
  - found. by rewrite Hm1.
Qed.

Lemma mouse_act_phase a w : phase w -> exists w', mouse_act a w = Some w' /\ phase w'.
Proof.
  intros H0. destruct a; cbn [mouse_act].
  - by apply mouseDown_phase.
  - eexists; split; [done|]. apply Nat.iter_invariant; [intros; by apply mouseMove_phase|done].
  - eexists; split; [done|]. apply Nat.iter_invariant; [intros; by apply mouseUp_keeps|done].
  - eexists; split; [done|]. by case_decide.
  - found.
Qed.
End phases.

(** What all methods keep. *)
Section invariant.
Context (P : S -> Prop) (Hup : forall e s, P s -> P (beforeUp e s)).
Context (Hcapture : forall e s, P s -> exists s' b, mouseCapture e s = Some (s', b) /\ P s').
Context (Hstart : forall e e' s, P s -> P (fst (mouseStart e e' s))).
Context (Hdrag : forall e s, P s -> P (mouseDrag e s)).
Context (Hstop : forall e s, P s -> P (mouseStop e s)).

Lemma mouse_act_inv a w : P (snd w) -> exists w', mouse_act a w = Some w' /\ P (snd w').
Proof.
  intros H0. destruct (mouse_act_phase P P) with (a := a) (w := w) as (w' & E & H1); try done.
  - intros e e' s Hs. apply (Hstart e e') in Hs. by destruct (snd (mouseStart e e' s)).
  - unfold phase. by destruct (mouseStarted (fst w)).
  - exists w'. split; [exact E|]. unfold phase in H1. by destruct (mouseStarted (fst w')).
Qed.
End invariant.

(** ** One pair of delegates *)

(** While delegates are bound, they are those of the last press, and no widget takes
    another press. *)
Record tidy (m : mouse) : Prop := {
  tidy_bound : bound m = [] \/ exists d, bound m = [d] /\ delegate m = Some d /\ mouseHandled m = true;
  tidy_started : mouseStarted m = true -> bound m <> [];
}.

Lemma unbind_one m d : bound m = [d] -> delegate m = Some d -> bound (unbind_delegates m) = [].
Proof.
  intros Hb Hd. unfold unbind_delegates. rewrite Hb, Hd. change (filter (fun x => x <> d) [d] = []).
  rewrite filter_cons, decide_False by (intros []; done). done.
Qed.

Lemma mouseUp_mouse e m s :
  mouseStarted (fst (mouseUp e (m, s))) = false /\
  bound (fst (mouseUp e (m, s))) = bound (unbind_delegates m) /\
  mouseHandled (fst (mouseUp e (m, s))) = mouseHandled m.
Proof.
  unfold mouseUp. change (mouseStarted (unbind_delegates m)) with (mouseStarted m).
  destruct (mouseStarted m) eqn:E; [|cbn; by rewrite E]. cbn.
  destruct (mouseDownEvent m); [case_decide|]; done.
Qed.

Lemma mouseUp_quiet e m s : mouseStarted m = false -> bound m = [] ->
  mouseStarted (fst (mouseUp e (m, s))) = false /\ bound (fst (mouseUp e (m, s))) = [].
Proof.
  intros Hs Hb. destruct (mouseUp_mouse e m s) as (-> & -> & _). split; [done|].
  unfold unbind_delegates. rewrite Hb. by destruct (delegate m).
Qed.

Lemma mouseUp_unbinds e m s d :
  bound m = [d] -> delegate m = Some d ->
  mouseStarted (fst (mouseUp e (m, s))) = false /\ bound (fst (mouseUp e (m, s))) = [].
Proof.
  intros Hb Hd. destruct (mouseUp_mouse e m s) as (-> & -> & _). split; [done|]. by eapply unbind_one.
Qed.

Lemma tidy_idle m : mouseStarted m = false -> bound m = [] -> tidy m.
Proof. intros Hs Hb. split; [by left|]. congruence. Qed.

Lemma tidy_move e m s : tidy m -> tidy (fst (Nat.iter (length (bound m)) (mouseMove e) (m, s))).
Proof.
  intros [[Hb|(d & Hb & Hd & Hh)] Hs]; rewrite Hb; [by split; [left|]|]. cbn [length Nat.iter nat_rect].
  unfold mouseMove.
  destruct (old_ie o && (button e =? 0)).
  { destruct (mouseUp_unbinds e m s d Hb Hd). by apply tidy_idle. }
  destruct (mouseStarted m) eqn:E; [split; [by right; exists d|cbn; by rewrite Hb]|].
  destruct (_ && _); [|split; [by right; exists d|cbn; by rewrite Hb]].
  destruct (mouseStart (default e (mouseDownEvent m)) (Some e) s) as [s' []].
  - split; [by right; exists d|]. cbn. by rewrite Hb.
  - set (m' := m <| mouseStarted := false |>).
    destruct (mouseUp_unbinds e m' s' d Hb Hd). by apply tidy_idle.
Qed.

Lemma tidy_down e m s w' : tidy m -> mouseDown e (m, s) = Some w' -> tidy (fst w').
Proof.
  intros Ht. unfold mouseDown. cbn [fst].
  destruct (mouseHandled m) eqn:Eh; [by intros [= <-]|].
  destruct Ht as [[Hb|(d & _ & _ & ?)] Hs]; [|congruence].
  assert (mouseStarted m = false) as Hm by (destruct (mouseStarted m); [by destruct (Hs eq_refl)|done]).
  rewrite Hm. cbn [mouseDownEvent set_field].
  destruct (_ || _); [intros [= <-]; by apply tidy_idle|].
  destruct (mouseCapture e s) as [[s1 []]|]; [|intros [= <-]; by apply tidy_idle|done].
  set (m1 := if delay o =? 0 then _ else _).
  assert (bound m1 = [] /\ mouseStarted m1 = false) as [Hb1 Hs1]
    by (unfold m1; destruct (delay o =? 0); done).
  clearbody m1.
  destruct (_ && _).
  - destruct (mouseStart e None s1) as [s2 []]; cbn [negb]; intros [= <-]; [|by apply tidy_idle].
    cbn. rewrite Hb1. split; [right; by exists (fresh m1)|done].
  - cbn [negb]. intros [= <-]. cbn. rewrite Hb1. split; [right; by exists (fresh m1)|done].
Qed.

Lemma tidy_release e m s :
  tidy m -> let m' := fst (Nat.iter (length (bound m)) (mouseUp e) (m <| mouseHandled := false |>, s)) in
  bound m' = [] /\ mouseStarted m' = false.
Proof.
  intros [[Hb|(d & Hb & Hd & Hh)] Hs]; rewrite Hb; cbn [length Nat.iter nat_rect].
  - split; [done|]. cbn. destruct (mouseStarted m); [by destruct (Hs eq_refl)|done].
  - set (m' := m <| mouseHandled := false |>). by destruct (mouseUp_unbinds e m' s d Hb Hd).
Qed.

Lemma tidy_act a w w' : tidy (fst w) -> mouse_act a w = Some w' -> tidy (fst w').
Proof.
  destruct w as [m s]. intros Ht. destruct a; cbn [mouse_act fst snd].
  - by apply tidy_down.
  - intros [= <-]. by apply tidy_move.
  - intros [= <-]. destruct (tidy_release e m s Ht). by apply tidy_idle.
  - intros [= <-]. case_decide; [done|]. destruct Ht. by split.
  - intros [= <-]. destruct Ht. by split.
Qed.

(** *** Three phases

    Between the capture of a press and the start of the drag a plugin may keep something
    of its own. *)
Section three_phases.
Context (P0 Pc P1 : S -> Prop).
Context (Hup0 : forall e s, P0 s -> P0 (beforeUp e s)) (Hupc : forall e s, Pc s -> P0 (beforeUp e s)) (Hup1 : forall e s, P1 s -> P1 (beforeUp e s)).
Context (Hcapture : forall e s, P0 s -> exists s' b, mouseCapture e s = Some (s', b) /\ if (b : bool) then Pc s' else P0 s').
Context (Hstart : forall e e' s, Pc s -> if snd (mouseStart e e' s) then P1 (fst (mouseStart e e' s)) else P0 (fst (mouseStart e e' s))).
Context (Hdrag : forall e s, P1 s -> P1 (mouseDrag e s)).
Context (Hstop : forall e s, P1 s -> P0 (mouseStop e s)).

Definition phase3 (w : world) : Prop :=
  tidy (fst w) /\
  if mouseStarted (fst w) then P1 (snd w) else if decide (bound (fst w) = []) then P0 (snd w) else Pc (snd w).

Lemma phase3_idle m s : mouseStarted m = false -> bound m = [] -> P0 s -> phase3 (m, s).
Proof. intros Hm Hb Hs. split; [by apply tidy_idle|]. cbn [fst snd]. by rewrite Hm, decide_True. Qed.

Lemma mouseUp_idle e w : phase3 w ->
  mouseStarted (fst (mouseUp e w)) = false /\ bound (fst (mouseUp e w)) = [] /\ P0 (snd (mouseUp e w)).
Proof.
  destruct w as [m s]. intros [Ht H3]. cbn [fst snd] in Ht, H3.
  assert (forall A B C : Prop, (A /\ B) /\ C -> A /\ B /\ C) as Hassoc by tauto. apply Hassoc. clear Hassoc. split.
  - destruct Ht as [[Hb|(d & Hb & Hd & _)] Hs]; [|by apply (mouseUp_unbinds e m s d)]. apply mouseUp_quiet; [|done].
    destruct (mouseStarted m); [by destruct (Hs eq_refl)|done].
  - unfold mouseUp. change (mouseStarted (unbind_delegates m)) with (mouseStarted m). destruct (mouseStarted m); [by apply Hstop, Hup1|].
    cbn. destruct (decide _); [by apply Hup0|by apply Hupc].
Qed.

Lemma mouseUp_phase3 e w : phase3 w -> phase3 (mouseUp e w).
Proof. intros Hw. destruct (mouseUp_idle e w Hw) as (A & B & C). destruct (mouseUp e w). by apply phase3_idle. Qed.

Lemma mouseMove_phase3 e w : phase3 w -> bound (fst w) <> [] -> phase3 (mouseMove e w).
Proof.
  intros Hw Hb. unfold mouseMove. destruct (old_ie o && (button e =? 0)); [destruct w; by apply mouseUp_phase3|].
  destruct w as [m s]. pose proof Hw as [Ht H3]. cbn [fst snd] in Hb, Ht, H3. destruct (mouseStarted m) eqn:Em.
  { split; [done|]. cbn [fst snd]. rewrite Em. by apply Hdrag. }
  rewrite decide_False in H3 by done. destruct (_ && _); [|done].
  pose proof (Hstart (default e (mouseDownEvent m)) (Some e) s H3) as Hs.
  destruct (mouseStart (default e (mouseDownEvent m)) (Some e) s) as [s' []]; cbn [fst snd] in Hs.
  - split; [|by apply Hdrag]. destruct Ht as [H1 _]. by split.
  - destruct Ht as [[Hn|(d & Hd & He & _)] _]; [done|]. set (m' := m <| mouseStarted := false |>).
    destruct (mouseUp_unbinds e m' s' d Hd He) as [A B].
    assert (snd (mouseUp e (m', s')) = beforeUp e s') as C by done. destruct (mouseUp e (m', s')) as [m2 s2]. cbn [snd] in C. subst s2.
    apply phase3_idle; [done..|by apply Hup0].
Qed.

Lemma mouseDown_phase3 e w : phase3 w -> exists w', mouseDown e w = Some w' /\ phase3 w'.
Proof.
  intros Hw. unfold mouseDown. destruct (mouseHandled (fst w)) eqn:Eh; [eauto|]. destruct w as [m s]. destruct Hw as [Ht H3].
  cbn [fst snd] in *. destruct Ht as [[Hb|(d & _ & _ & ?)] Hs]; [|congruence].
  assert (mouseStarted m = false) as Hm by (destruct (mouseStarted m); [by destruct (Hs eq_refl)|done]).
  rewrite Hm in H3 |- *. rewrite decide_True in H3 by done. cbn [mouseDownEvent set_field].
  destruct (_ || _); [eexists; split; [done|by apply phase3_idle]|].
  destruct (Hcapture e s H3) as (s1 & b & -> & H2). destruct b; [|eexists; split; [done|by apply phase3_idle]].
  set (m1 := if delay o =? 0 then _ else _). assert (mouseStarted m1 = false /\ bound m1 = []) as [Hm1 Hb1] by (unfold m1; by destruct (delay o =? 0)).
  clearbody m1.
  assert (forall m2 s2, bound m2 = [] -> (if mouseStarted m2 then P1 s2 else Pc s2) -> phase3
    (m2 <| preventClick := filter (fun x => x <> target e) (preventClick m2) |> <| delegate := Some (fresh m2) |>
        <| bound := fresh m2 :: bound m2 |> <| fresh := Datatypes.S (fresh m2) |> <| mouseHandled := true |>, s2)) as Hbound.
  { intros m2 s2 E2 Hs2. split; [split; [right; exists (fresh m2); cbn; by rewrite E2|done]|]. cbn [fst snd].
    change (mouseStarted (m2 <| preventClick := _ |> <| delegate := _ |> <| bound := _ |> <| fresh := _ |> <| mouseHandled := true |>))
      with (mouseStarted m2).
    by destruct (mouseStarted m2). }
  destruct (_ && _).
  - pose proof (Hstart e None s1 H2) as Hst. destruct (mouseStart e None s1) as [s2 []]; cbn [fst snd negb] in Hst |- *; eexists; (split; [done|]).
    + by apply Hbound.
    + by apply phase3_idle.
  - cbn [negb]. eexists. split; [done|]. apply Hbound; [done|by rewrite Hm1].
Qed.

Lemma mouse_act_phase3 a w : phase3 w -> exists w', mouse_act a w = Some w' /\ phase3 w'.
Proof.
  intros Hw. destruct a; cbn [mouse_act].
  - by apply mouseDown_phase3.
  - eexists; split; [done|]. pose proof Hw as [[[Hb|(d & Hb & _)] _] _]; rewrite Hb; [done|]. apply mouseMove_phase3; [done|by rewrite Hb].
  - eexists; split; [done|]. destruct w as [m s]. cbn [fst snd]. pose proof Hw as [[[Hb|(d & Hb & Hd & _)] Hs] H3]; cbn [fst snd] in *; rewrite Hb; cbn [length Nat.iter nat_rect].
    + assert (mouseStarted m = false) as Hm by (destruct (mouseStarted m); [by destruct (Hs eq_refl)|done]).
      rewrite Hm, decide_True in H3 by done. by apply phase3_idle.
    + set (m1 := m <| mouseHandled := false |>). destruct (mouseUp_unbinds e m1 s d Hb Hd) as [A B].
      assert (snd (mouseUp e (m1, s)) = snd (mouseUp e (m, s))) as C
        by (unfold mouseUp; change (mouseStarted (unbind_delegates m1)) with (mouseStarted m); change (mouseStarted (unbind_delegates m)) with (mouseStarted m); by destruct (mouseStarted m)).
      pose proof (mouseUp_idle e (m, s) Hw) as (_ & _ & D). rewrite <- C in D. destruct (mouseUp e (m1, s)). by apply phase3_idle.
  - eexists; split; [done|]. case_decide; [done|]. destruct Hw as [[H1 H2] H3]. by split; [split|].
  - eexists; split; [done|]. destruct Hw as [[H1 H2] H3]. by split; [split|].
Qed.
End three_phases.

(** Whatever the mouse and the widget built on it do, at most one pair of
    delegates is bound to the document, it belongs to the last press, and after
    every release nothing is bound and no drag is running. *)
Theorem one_delegate l e s w :
  mouse_acts (l ++ [Release e]) (mouseInit, s) = Some w ->
  (forall l1 l2 w1, l = l1 ++ l2 -> mouse_acts l1 (mouseInit, s) = Some w1 ->
     (length (bound (fst w1)) <= 1)%nat) /\
  bound (fst w) = [] /\ mouseStarted (fst w) = false /\ mouseHandled (fst w) = false.
Proof.
  assert (forall l w w', tidy (fst w) -> mouse_acts l w = Some w' -> tidy (fst w')) as Hrun.
  { clear. induction l as [|a l IH]; intros w w' Ht; [by intros [= <-]|]. cbn.
    destruct (mouse_act a w) as [w1|] eqn:E; [|done]. apply IH. by eapply tidy_act. }
  assert (tidy mouseInit) as H0 by by apply tidy_idle.
  intros Hw. split.
  { intros l1 l2 w1 _ H1. apply Hrun in H1; [|done]. destruct H1 as [[->|(d & -> & _)] _]; cbn; lia. }
  assert (forall l w, mouse_acts (l ++ [Release e]) w =
    match mouse_acts l w with Some w => mouse_act (Release e) w | None => None end) as Happ.
  { clear. induction l as [|a l IH]; intros w; cbn; [done|]. destruct (mouse_act a w); [apply IH|done]. }
  rewrite Happ in Hw. destruct (mouse_acts l (mouseInit, s)) as [[m s1]|] eqn:E; [|done].
  apply Hrun in E; [|done]. cbn in E, Hw. injection Hw as <-.
  destruct (tidy_release e m s1 E) as [-> ->]. split_and!; [done..|].
  destruct E as [[->|(d & -> & _)] _]; [done|]. cbn [length Nat.iter nat_rect].
  by destruct (mouseUp_mouse e (m <| mouseHandled := false |>) s1) as (_ & _ & ->).
Qed.
End mouse.
