(* ===== verification/UiSlider.v ===== *)
(** * jQuery UI slider

    Models the widget [ui.slider] of [2019104287/code/WebContent/js/jquery-ui.js]: its
    values, keys, mouse handling ([mouse_plugin]), events and the styles of its
    handles.  A number is a rational or [NaN] ([None]); rounding of doubles and
    infinities are not modelled (a slider that is clicked has a size), and a style is
    the one an animation ends with.  The page's listeners of [start] and [slide] only
    answer ([allow]); the markup holds no handles of its own. *)

From S2P Require Export UiMouse.

(** ** Numbers *)

Abbreviation jsnum := (option Q).

Definition nlt (a b : jsnum) : bool :=
  match a, b with Some a, Some b => qless a b | _, _ => false end.
(** [a === b]. *)
Definition nsame (a b : jsnum) : bool :=
  match a, b with Some a, Some b => Qeq_bool a b | _, _ => false end.
Definition nlift (f : Q -> Q -> Q) (a b : jsnum) : jsnum :=
  match a, b with Some a, Some b => Some (f a b) | _, _ => None end.
Definition ndiv (a b : jsnum) : jsnum :=
  match b with Some b => if Qeq_bool b 0 then None else nlift Qdiv a (Some b) | None => None end.

(** [a % b]: the quotient is truncated. *)
Definition Qrem (a b : Q) : Q :=
  let q := (a / b)%Q in (a - b * inject_Z (Z.quot (Qnum q) (Zpos (Qden q))))%Q.

(** [parseFloat(a.toFixed(5))]: halves are rounded away from zero. *)
Definition round5 (a : Q) : Z := (2 * Qnum a * 100000 + Zpos (Qden a)) / (2 * Zpos (Qden a)).
Definition toFixed5 (a : Q) : Q :=
  if Qle_bool 0 a then round5 a # 100000 else - (round5 (- a) # 100000).

(** [a[i] = v] extends the array when [i] is out of range. *)
Definition js_set {A} (d : A) (i : nat) (v : A) (l : list A) : list A :=
  if (i <? length l)%nat then <[i := v]> l else l ++ repeat d (i - length l) ++ [v].

(** ** State *)

(** [range]: [false], [true], ["min"] or ["max"]. *)
Inductive range_option := RangeNone | RangeTrue | RangeMin | RangeMax.
#[global] Instance range_eq_dec : EqDecision range_option.
Proof. solve_decision. Defined.

(** Percentages; [None] is a style that was never set. *)
Record style := mk_style {
  st_left : option jsnum; st_bottom : option jsnum; st_width : option jsnum; st_height : option jsnum;
}.
#[export] Instance style_eta : Settable style := fun s =>
  mk_style (st_left s) (st_bottom s) (st_width s) (st_height s).

Record handle := mk_handle { h_style : style; h_active : bool; h_hover : bool; h_focus : bool }.
#[export] Instance handle_eta : Settable handle := fun h =>
  mk_handle (h_style h) (h_active h) (h_hover h) (h_focus h).

(** What the listeners are told: the handle, its value and all values. *)
Inductive sevent :=
  | SlideStart (i : nat) (v : jsnum) (vs : option (list jsnum))
  | Slide (i : nat) (v : jsnum) (vs : option (list jsnum))
  | SlideStop (i : nat) (v : jsnum) (vs : option (list jsnum))
  | SlideChange (i : nat) (v : jsnum) (vs : option (list jsnum)).

Record slider := mk_slider {
  o_min : Q; o_max : Q; o_step : Q; o_range : range_option; o_vertical : bool; o_disabled : bool;
  o_value : jsnum; o_values : option (list jsnum);
  vertical : bool;
  keySliding : bool; mouseSliding : bool; handleIndex : option nat; clickOffset : option (Q * Q);
  handles : list handle; rangeStyle : style; told : list sevent;
}.
#[export] Instance slider_eta : Settable slider := fun s =>
  mk_slider (o_min s) (o_max s) (o_step s) (o_range s) (o_vertical s) (o_disabled s)
    (o_value s) (o_values s) (vertical s) (keySliding s) (mouseSliding s) (handleIndex s)
    (clickOffset s) (handles s) (rangeStyle s) (told s).

(** ** Values *)

Definition trimAlignValue (s : slider) (val : jsnum) : jsnum :=
  match val with
  | None => None
  | Some val =>
      if Qle_bool val (o_min s) then Some (o_min s)
      else if Qle_bool (o_max s) val then Some (o_max s)
      else
        let step := if qless 0 (o_step s) then o_step s else 1%Q in
        let valModStep := Qrem (val - o_min s) step in
        let alignValue := (val - valModStep)%Q in
        let alignValue := if Qle_bool step (Qabs valModStep * 2)
                          then (alignValue + (if qless 0 valModStep then step else - step))%Q
                          else alignValue in
        Some (toFixed5 alignValue)
  end.

(** [this.options.values && this.options.values.length]. *)
Definition some_values (s : slider) : option (list jsnum) :=
  match o_values s with Some [] => None | vs => vs end.

Definition get_value (s : slider) : jsnum := trimAlignValue s (o_value s).

(** [this.values(i)] and [this.values()]. *)
Definition values_at (s : slider) (i : nat) : jsnum :=
  match some_values s with
  | Some vs => trimAlignValue s (default None (vs !! i))
  | None => get_value s
  end.

Definition all_values (s : slider) : option (list jsnum) :=
  (fun vs : list jsnum => trimAlignValue s <$> vs) <$> some_values s.

(** [uiHash] without the handle. *)
Definition hash_value (s : slider) (i : nat) : jsnum :=
  match some_values s with Some _ => values_at s i | None => get_value s end.

Definition tell (ev : sevent) (s : slider) : slider := s <| told := told s ++ [ev] |>.

Section slider.
(** The box of the slider, where a press takes hold of a handle ([clickOffset]), and
    the listeners' answers. *)
Context (width height left top : Q).
Context (grab : mevent -> nat -> option (Q * Q)).
Context (allow : sevent -> bool).

Definition start (i : nat) (s : slider) : slider * bool :=
  let ev := SlideStart i (hash_value s i) (all_values s) in (tell ev s, allow ev).

Definition stop (i : nat) (s : slider) : slider :=
  tell (SlideStop i (hash_value s i) (all_values s)) s.

Definition change (i : nat) (s : slider) : slider :=
  if negb (keySliding s) && negb (mouseSliding s)
  then tell (SlideChange i (hash_value s i) (all_values s)) s else s.

(** ** [_refreshValue] *)

Definition set_pos (s : slider) (v : jsnum) (st : style) : style :=
  if vertical s then st <| st_bottom := Some v |> else st <| st_left := Some v |>.
Definition set_size (s : slider) (v : jsnum) (st : style) : style :=
  if vertical s then st <| st_height := Some v |> else st <| st_width := Some v |>.

Definition percent (s : slider) (v : jsnum) : jsnum :=
  nlift Qmult (ndiv (nlift Qminus v (Some (o_min s))) (Some (o_max s - o_min s)%Q)) (Some 100%Q).

Definition value_percent (s : slider) : jsnum :=
  if Qeq_bool (o_max s) (o_min s) then Some 0%Q else percent s (get_value s).

(** The handles; without [values] only the first one is moved. *)
Definition handle_styles (s : slider) : list handle :=
  match some_values s with
  | Some _ => imap (fun i h => h <| h_style := set_pos s (percent s (values_at s i)) (h_style h) |>)
                (handles s)
  | None => imap (fun i h => if decide (i = 0%nat)
                             then h <| h_style := set_pos s (value_percent s) (h_style h) |> else h)
              (handles s)
  end.

Definition bar_style (s : slider) : style :=
  let st := rangeStyle s in
  match some_values s with
  | Some _ =>
      if decide (o_range s = RangeTrue) then
        let p i := percent s (values_at s i) in
        let st := if (0 <? length (handles s))%nat then set_pos s (p 0%nat) st else st in
        if (1 <? length (handles s))%nat then set_size s (nlift Qminus (p 1%nat) (p 0%nat)) st else st
      else st
  | None =>
      match o_range s with
      | RangeMin => set_size s (value_percent s) st
      | RangeMax => set_size s (nlift Qminus (Some 100%Q) (value_percent s)) st
      | _ => st
      end
  end.

Definition refreshValue (s : slider) : slider :=
  s <| handles := handle_styles s |> <| rangeStyle := bar_style s |>.

(** ** Setters *)

Definition set_value (v : jsnum) (s : slider) : slider :=
  change 0 (refreshValue (s <| o_value := trimAlignValue s v |>)).

Definition set_values_at (i : nat) (v : jsnum) (s : slider) : slider :=
  change i (refreshValue
    (s <| o_values := js_set None i (trimAlignValue s v) <$> o_values s |>)).

(** [values(array)]: every element is followed by its event, the drawing comes last.
    Without values it is an exception. *)
Definition set_all_values (new : list jsnum) (s : slider) : option slider :=
  match o_values s with
  | Some vs =>
      Some (refreshValue (fold_left
        (fun s i => change i (s <| o_values :=
            (fun vs => <[i := trimAlignValue s (default None (new !! i))]> vs) <$> o_values s |>))
        (seq 0 (length vs)) s))
  | None => None
  end.

Definition slide (i : nat) (newVal : jsnum) (s : slider) : slider :=
  match some_values s with
  | Some vs =>
      let otherVal := values_at s (if (i =? 0)%nat then 1 else 0) in
      let newVal :=
        if (length vs =? 2)%nat && bool_decide (o_range s = RangeTrue)
           && (((i =? 0)%nat && nlt otherVal newVal) || ((i =? 1)%nat && nlt newVal otherVal))
        then otherVal else newVal in
      if nsame newVal (values_at s i) then s
      else
        let newValues := js_set None i newVal (trimAlignValue s <$> vs) in
        let ev := Slide i newVal (Some newValues) in
        let s := tell ev s in
        if allow ev then set_values_at i newVal s else s
  | None =>
      if nsame newVal (get_value s) then s
      else
        let ev := Slide i newVal None in
        let s := tell ev s in
        if allow ev then set_value newVal s else s
  end.

(** ** Mouse *)

Definition normValueFromMouse (s : slider) (e : mevent) : jsnum :=
  let '(cl, ct) := default (0%Q, 0%Q) (clickOffset s) in
  let '(pixelTotal, pixelMouse) :=
    if vertical s then (height, (pageY e - top - ct)%Q) else (width, (pageX e - left - cl)%Q) in
  let percentMouse := ndiv (Some pixelMouse) (Some pixelTotal) in
  let percentMouse := if nlt (Some 1%Q) percentMouse then Some 1%Q else percentMouse in
  let percentMouse := if nlt percentMouse (Some 0%Q) then Some 0%Q else percentMouse in
  let percentMouse := if vertical s then nlift Qminus (Some 1%Q) percentMouse else percentMouse in
  let valueTotal := (o_max s - o_min s)%Q in
  trimAlignValue s (nlift Qplus (Some (o_min s)) (nlift Qmult percentMouse (Some valueTotal))).

(** The nearest handle, the first of several; [distance] starts beyond every value. *)
Definition closer (s : slider) (normValue : jsnum) (acc : jsnum * option nat) (i : nat) :=
  let '(distance, index) := acc in
  let thisDistance := Qabs <$> nlift Qminus normValue (values_at s i) in
  if nlt thisDistance distance then (thisDistance, Some i) else (distance, index).

Definition closest (s : slider) (normValue : jsnum) : jsnum * option nat :=
  fold_left (closer s normValue) (seq 0 (length (handles s)))
    (Some (o_max s - o_min s + 1)%Q, None).

Definition set_handle (f : handle -> handle) (i : nat) (s : slider) : slider :=
  s <| handles := alter f i (handles s) |>.

(** Focusing a handle takes the focus from the others; on a disabled slider it is
    lost again. *)
Definition focus (i : nat) (s : slider) : slider :=
  if o_disabled s then set_handle (fun h => h <| h_focus := false |>) i s
  else set_handle (fun h => h <| h_focus := true |>) i
         (s <| handles := (fun h => h <| h_focus := false |>) <$> handles s |>).

(** An exception is raised when no handle is nearest, or when a handle beyond the
    last one would be grabbed. *)
Definition slider_capture (e : mevent) (s : slider) : option (slider * bool) :=
  if o_disabled s then Some (s, false)
  else
    let normValue := normValueFromMouse s e in
    match snd (closest s normValue) with
    | None => None
    | Some index =>
        let index := if bool_decide (o_range s = RangeTrue) && nsame (values_at s 1) (Some (o_min s))
                     then S index else index in
        let '(s, allowed) := start index s in
        if negb allowed then Some (s, false)
        else
          let s := s <| mouseSliding := true |> <| handleIndex := Some index |> in
          let s := match handles s !! index with
                   | Some _ => focus index (set_handle (fun h => h <| h_active := true |>) index s)
                   | None => s
                   end in
          match grab e index, handles s !! index with
          | Some _, None => None
          | grabbed, _ =>
              let s := s <| clickOffset := Some (default (0%Q, 0%Q) grabbed) |> in
              Some (if existsb h_hover (handles s) then s else slide index normValue s, true)
          end
    end.

(** [handleIndex] is [null] only outside a gesture. *)
Definition slider_drag (e : mevent) (s : slider) : slider :=
  match handleIndex s with
  | Some i => slide i (normValueFromMouse s e) s
  | None => s
  end.

Definition slider_stop (e : mevent) (s : slider) : slider :=
  let s := s <| handles := (fun h => h <| h_active := false |>) <$> handles s |>
             <| mouseSliding := false |> in
  let s := match handleIndex s with Some i => change i (stop i s) | None => s end in
  s <| handleIndex := None |> <| clickOffset := None |>.

#[export] Instance slider_plugin : mouse_plugin slider := {
  beforeUp _ s := s;
  mouseCapture := slider_capture;
  mouseStart _ _ s := (s, true);
  mouseDrag := slider_drag;
  mouseStop := slider_stop;
}.

(** ** Keys *)

Inductive skey := KHome | KEnd | KPageUp | KPageDown | KUp | KRight | KDown | KLeft | KOther.
#[global] Instance skey_eq_dec : EqDecision skey.
Proof. solve_decision. Defined.

(** [numPages]. *)
Definition numPages : Q := 5.

(** [None] ends the handler: the value is at its end. *)
Definition key_value (k : skey) (s : slider) (curVal : jsnum) : option jsnum :=
  let page := Some ((o_max s - o_min s) / numPages)%Q in
  match k with
  | KHome => Some (Some (o_min s))
  | KEnd => Some (Some (o_max s))
  | KPageUp => Some (trimAlignValue s (nlift Qplus curVal page))
  | KPageDown => Some (trimAlignValue s (nlift Qminus curVal page))
  | KUp | KRight =>
      if nsame curVal (Some (o_max s)) then None
      else Some (trimAlignValue s (nlift Qplus curVal (Some (o_step s))))
  | KDown | KLeft =>
      if nsame curVal (Some (o_min s)) then None
      else Some (trimAlignValue s (nlift Qminus curVal (Some (o_step s))))
  | KOther => Some curVal
  end.

Definition keydown (k : skey) (i : nat) (s : slider) : slider :=
  if o_disabled s then s
  else
    let '(s, go) :=
      if bool_decide (k <> KOther) && negb (keySliding s) then
        start i (set_handle (fun h => h <| h_active := true |>) i (s <| keySliding := true |>))
      else (s, true) in
    if negb go then s
    else match key_value k s (hash_value s i) with
         | Some newVal => slide i newVal s
         | None => s
         end.

Definition keyup (i : nat) (s : slider) : slider :=
  if o_disabled s then s
  else if keySliding s then
    set_handle (fun h => h <| h_active := false |>) i
      (change i (stop i (s <| keySliding := false |>)))
  else s.

(** ** Pointer and focus on a handle *)

Definition mouseenter (i : nat) (s : slider) : slider :=
  if o_disabled s then s else set_handle (fun h => h <| h_hover := true |>) i s.
Definition mouseleave (i : nat) (s : slider) : slider :=
  set_handle (fun h => h <| h_hover := false |>) i s.
Definition blur (i : nat) (s : slider) : slider :=
  set_handle (fun h => h <| h_focus := false |>) i s.

(** ** Options *)

Inductive soption := SetDisabled (b : bool) | SetVertical (b : bool) | SetValue (v : jsnum)
  | SetValues (vs : option (list jsnum)) | SetMin (v : Q) | SetMax (v : Q) | SetStep (v : Q)
  | SetRange (r : range_option).

Definition setOption (c : soption) (s : slider) : slider :=
  let valsLength := match o_values s with Some vs => length vs | None => 0%nat end in
  match c with
  | SetDisabled true =>
      s <| o_disabled := true |>
        <| handles := (fun h => h <| h_focus := false |> <| h_hover := false |>) <$> handles s |>
  | SetDisabled false => s <| o_disabled := false |>
  | SetVertical b => refreshValue (s <| o_vertical := b |> <| vertical := b |>)
  | SetValue v => change 0 (refreshValue (s <| o_value := v |>))
  | SetValues vs => fold_left (fun s i => change i s) (seq 0 valsLength)
                      (refreshValue (s <| o_values := vs |>))
  | SetMin v => refreshValue (s <| o_min := v |>)
  | SetMax v => refreshValue (s <| o_max := v |>)
  | SetStep v => s <| o_step := v |>
  | SetRange r => s <| o_range := r |>
  end.

(** [_create], for options as the page gives them. *)
Definition create (min max step : Q) (range : range_option) (vert dis : bool) (value : jsnum)
    (values : option (list jsnum)) : slider :=
  let values :=
    if decide (range = RangeTrue) then
      let vs := default [Some min; Some min] values in
      match vs with
      | [] => Some []
      | v :: _ => if (length vs =? 2)%nat then Some vs else Some [v; v]
      end
    else values in
  let handleCount := match values with Some ((_ :: _) as vs) => length vs | _ => 1%nat end in
  refreshValue (mk_slider min max step range vert dis value values vert false false None None
    (repeat (mk_handle (mk_style None None None None) false false false) handleCount)
    (mk_style None None None None) []).

(** ** All actions of a user *)

Inductive saction := MouseOn (a : maction) | KeyDown (k : skey) (i : nat) | KeyUp (i : nat)
  | Enter (i : nat) | Leave (i : nat) | Focus (i : nat) | Blur (i : nat)
  | Option_ (c : soption)
  | Value (v : jsnum) | ValuesAt (i : nat) (v : jsnum) | ValuesAll (vs : list jsnum).

Context (mo : mouse_options).

Definition slider_act (a : saction) (w : mouse * slider) : option (mouse * slider) :=
  match a with
  | MouseOn a => mouse_act mo a w
  | KeyDown k i => Some (fst w, keydown k i (snd w))
  | KeyUp i => Some (fst w, keyup i (snd w))
  | Enter i => Some (fst w, mouseenter i (snd w))
  | Leave i => Some (fst w, mouseleave i (snd w))
  | Focus i => Some (fst w, focus i (snd w))
  | Blur i => Some (fst w, blur i (snd w))
  | Option_ c => Some (fst w, setOption c (snd w))
  | Value v => Some (fst w, set_value v (snd w))
  | ValuesAt i v => match o_values (snd w) with
                    | Some _ => Some (fst w, set_values_at i v (snd w))
                    | None => None
                    end
  | ValuesAll vs => pair (fst w) <$> set_all_values vs (snd w)
  end.

Fixpoint slider_acts (l : list saction) (w : mouse * slider) : option (mouse * slider) :=
  match l with
  | [] => Some w
  | a :: l => match slider_act a w with Some w => slider_acts l w | None => None end
  end.
End slider.
