(* ===== verification/SliderFlow.v ===== *)
(** * jQuery UI slider: values, handles and gestures

    On options that form a grid of at most five decimals the values are the grid
    points nearest to what is asked for; a user's actions keep the handles on the
    grid, in order and drawn where their values are; a gesture of the mouse is a
    start, slides, a stop and a change. *)

From S2P Require Export UiSlider.
From Stdlib Require Import Qround Qfield.

(** ** Five decimals *)

Definition five (x : Q) : Prop := exists a, x == a # 100000.

Lemma round5_five a x : x == a # 100000 -> round5 x = a.
Proof.
  unfold Qeq, round5. cbn [Qnum Qden]. intros Hx.
  symmetry. apply (Z.div_unique _ _ _ (Zpos (Qden x))); [left; lia|]. lia.
Qed.

Lemma toFixed5_five x : five x -> toFixed5 x == x.
Proof.
  intros [a Ha]. unfold toFixed5. destruct (Qle_bool 0 x).
  - by rewrite (round5_five a x Ha), Ha.
  - rewrite (round5_five (- a) (- x)); unfold Qeq in *; cbn in *; lia.
Qed.

Lemma five_grid a b k : five a -> five b -> five (a + inject_Z k * b).
Proof.
  intros [x Hx] [y Hy]. exists (x + k * y)%Z. rewrite Hx, Hy.
  unfold Qeq, Qplus, Qmult, inject_Z. cbn [Qnum Qden]. lia.
Qed.

Lemma Qrem_pos a b :
  (0 <= a -> 0 < b ->
   exists m, (0 <= m)%Z /\ a == inject_Z m * b + Qrem a b /\ 0 <= Qrem a b /\ Qrem a b < b)%Q.
Proof.
  intros Ha Hb. unfold Qrem. set (q := (a / b)%Q).
  assert (q * b == a)%Q as Hq by (unfold q; field; lra).
  assert (0 <= q)%Q as Hq0 by (unfold q; apply Qle_shift_div_l; lra).
  clearbody q. assert (0 <= Qnum q)%Z as Hn by (change (0 <= Qnum q * 1)%Z in Hq0; lia).
  assert (Z.quot (Qnum q) (Zpos (Qden q)) = Qfloor q) as ->
    by (rewrite Z.quot_div_nonneg by lia; by destruct q).
  pose proof (Qfloor_le q) as H1. pose proof (Qlt_floor q) as H2.
  rewrite inject_Z_plus in H2. change (inject_Z 1) with 1%Q in H2.
  assert (0 <= Qfloor q)%Z as Hm by (destruct q; cbn in *; apply Z.div_pos; lia).
  exists (Qfloor q). split; [exact Hm|].
  assert (inject_Z (Qfloor q) * b <= q * b)%Q by (apply Qmult_le_compat_r; lra).
  assert (q * b < (inject_Z (Qfloor q) + 1) * b)%Q by (apply Qmult_lt_r; lra).
  split_and!; lra.
Qed.

(** ** The grid of a slider *)

Section grid.
Context (mn mx st : Q) (n : Z).
Context (Hmn : five mn) (Hst : five st) (Hpos : (0 < st)%Q) (Hn : (0 < n)%Z).
Context (Hmx : mx == (mn + inject_Z n * st)%Q).

Definition point (k : Z) : Q := (mn + inject_Z k * st)%Q.

Lemma point_le j k : (j <= k)%Z -> (point j <= point k)%Q.
Proof.
  intros H. unfold point. rewrite Zle_Qle in H.
  assert (inject_Z j * st <= inject_Z k * st)%Q by (apply Qmult_le_compat_r; lra). lra.
Qed.

Lemma point_succ k : point (k + 1) == (point k + st)%Q.
Proof. unfold point. rewrite inject_Z_plus. change (inject_Z 1) with 1%Q. ring. Qed.

Lemma point_0 : point 0 == mn.
Proof. unfold point. change (inject_Z 0) with 0%Q. ring. Qed.

Lemma mn_lt_mx : (mn < mx)%Q.
Proof.
  rewrite Hmx. assert (point 1 <= point n)%Q as H by (apply point_le; lia).
  pose proof (point_succ 0) as H1. change (0 + 1)%Z with 1%Z in H1. pose proof point_0.
  change (mn < point n)%Q. lra.
Qed.

(** [v] is the point [k] of the grid. *)
Definition at_point (k : Z) (v : jsnum) : Prop := exists q, v = Some q /\ q == point k /\ (0 <= k <= n)%Z.

Definition options_of (s : slider) : Prop := o_min s = mn /\ o_max s = mx /\ o_step s = st.

(** Between two points the nearer one is nearest of all. *)
Lemma near_low val m r j :
  val == (point m + r)%Q -> (0 <= r)%Q -> (r * 2 <= st)%Q ->
  (Qabs (val - point m) <= Qabs (val - point j))%Q.
Proof.
  intros Hv H0 Hr. rewrite Hv, Qabs_pos by lra. destruct (Z.le_gt_cases j m) as [Hj|Hj].
  - apply point_le in Hj. rewrite Qabs_pos; lra.
  - assert (point (m + 1) <= point j)%Q as Hp by (apply point_le; lia). rewrite point_succ in Hp.
    rewrite Qabs_neg; lra.
Qed.

Lemma near_high val m r j :
  val == (point m + r)%Q -> (r < st)%Q -> (st <= r * 2)%Q ->
  (Qabs (val - point (m + 1)) <= Qabs (val - point j))%Q.
Proof.
  intros Hv H0 Hr. rewrite Hv, point_succ, Qabs_neg by lra. destruct (Z.le_gt_cases j m) as [Hj|Hj].
  - apply point_le in Hj. rewrite Qabs_pos; lra.
  - assert (point (m + 1) <= point j)%Q as Hp by (apply point_le; lia). rewrite point_succ in Hp.
    rewrite Qabs_neg; lra.
Qed.

(** Rounding to five decimals leaves a point alone. *)
Lemma toFixed5_point x k : x == point k -> toFixed5 x == point k.
Proof.
  intros Hx. rewrite toFixed5_five; [done|]. destruct (five_grid mn st k Hmn Hst) as [a Ha].
  exists a. by rewrite Hx.
Qed.

(** The value is the point nearest to the number. *)
Lemma trim_nearest s val :
  options_of s ->
  exists k q, trimAlignValue s (Some val) = Some q /\ q == point k /\ (0 <= k <= n)%Z /\
    forall j, (0 <= j <= n)%Z -> (Qabs (val - q) <= Qabs (val - point j))%Q.
Proof.
  intros (Emn & Emx & Est). unfold trimAlignValue. rewrite Emn, Emx, Est.
  destruct (Qle_bool val mn) eqn:E1; [apply Qle_bool_iff in E1|].
  { exists 0%Z, mn. split_and!; [done|by rewrite point_0|lia|lia|].
    intros j Hj. assert (point 0 <= point j)%Q as H by (apply point_le; lia). rewrite point_0 in H.
    rewrite !Qabs_neg; lra. }
  destruct (Qle_bool mx val) eqn:E2; [apply Qle_bool_iff in E2|].
  { exists n, mx. split_and!; [done|by rewrite Hmx|lia|lia|].
    intros j Hj. assert (point j <= point n)%Q as H by (apply point_le; lia).
    change (point n) with (mn + inject_Z n * st)%Q in H. rewrite <- Hmx in H. rewrite !Qabs_pos; lra. }
  assert (mn < val /\ val < mx)%Q as [V1 V2].
  { split; apply qless_spec; unfold qless; by rewrite ?E1, ?E2. }
  rewrite (proj2 (qless_spec 0 st) Hpos).
  destruct (Qrem_pos (val - mn) st) as (m & Hm & Hr & R1 & R2); [lra|done|].
  set (r := Qrem (val - mn) st) in *. clearbody r.
  pose proof (Qabs_pos r R1) as Hr'.
  assert (val == point m + r)%Q as Hv by (unfold point; lra).
  assert (m < n)%Z as Hmn'.
  { apply Z.nle_gt. intros H. apply point_le in H. rewrite Hmx in V2. unfold point in *. lra. }
  destruct (Qle_bool st (Qabs r * 2)) eqn:E3.
  - apply Qle_bool_iff in E3. assert (0 < r)%Q as Hr0 by lra. rewrite (proj2 (qless_spec 0 r) Hr0).
    assert (toFixed5 (val - r + st) == point (m + 1))%Q as Hq
      by (apply toFixed5_point; rewrite point_succ; lra).
    exists (m + 1)%Z, (toFixed5 (val - r + st)). split_and!; [done|done|lia|lia|].
    intros j _. rewrite Hq. apply (near_high val m r); [done|done|lra].
  - assert (Qabs r * 2 < st)%Q as E3' by (apply qless_spec; unfold qless; by rewrite E3).
    assert (toFixed5 (val - r) == point m)%Q as Hq by (apply toFixed5_point; lra).
    exists m, (toFixed5 (val - r)). split_and!; [done|done|lia|lia|].
    intros j _. rewrite Hq. apply (near_low val m r); [done|done|lra].
Qed.

Lemma trim_at s val : options_of s -> exists k, at_point k (trimAlignValue s (Some val)).
Proof.
  intros Ho. destruct (trim_nearest s val Ho) as (k & q & E & Hq & Hk & _).
  exists k, q. done.
Qed.

(** Points stay where they are. *)
Lemma trim_fix s k v : options_of s -> at_point k v -> at_point k (trimAlignValue s v).
Proof.
  intros Ho (q & -> & Hq & Hk).
  destruct (trim_nearest s q Ho) as (k' & q' & E & Hq' & Hk' & Hnear). exists q'. split; [done|].
  split; [|done]. specialize (Hnear k Hk). rewrite Hq in Hnear at 2.
  assert (point k - point k == 0)%Q as H0 by ring. rewrite H0 in Hnear.
  change (Qabs 0) with 0%Q in Hnear.
  rewrite <- Hq. apply Qabs_Qle_condition in Hnear. lra.
Qed.
(** ** What a slider shows *)

Context (rg : range_option).

(** Axis of the handles and of the bar. *)
Definition pos_of (s : slider) (st : style) : option jsnum :=
  if vertical s then st_bottom st else st_left st.
Definition size_of (s : slider) (st : style) : option jsnum :=
  if vertical s then st_height st else st_width st.

(** The values are numbers, one per handle; a range has two in order. *)
Record sound (s : slider) : Prop := {
  so_options : options_of s;
  so_range : o_range s = rg;
  so_value : exists q, o_value s = Some q;
  so_values : Forall is_Some (default [] (o_values s));
  so_handles : length (handles s) = match some_values s with Some vs => length vs | None => 1%nat end;
  so_ordered : rg = RangeTrue -> length (handles s) = 2%nat /\ is_Some (some_values s) /\
    exists j k, at_point j (values_at s 0) /\ at_point k (values_at s 1) /\ (j <= k)%Z;
  so_index : forall i, handleIndex s = Some i -> (i < length (handles s))%nat;
}.

(** Every handle stands at the percentage of its value, and the bar of a range
    reaches from the first to the second. *)
Record drawn (s : slider) : Prop := {
  dr_handles : forall i h, handles s !! i = Some h ->
    pos_of s (h_style h) = Some (percent s (values_at s i));
  dr_bar : rg = RangeTrue -> size_of s (rangeStyle s)
    = Some (nlift Qminus (percent s (values_at s 1)) (percent s (values_at s 0)));
}.

Lemma some_values_nonempty s vs : some_values s = Some vs -> o_values s = Some vs /\ vs <> [].
Proof. unfold some_values. destruct (o_values s) as [[]|]; [done|by intros [= <-]|done]. Qed.

Lemma get_value_at s : sound s -> exists k, at_point k (get_value s).
Proof. intros Hs. unfold get_value. destruct (so_value s Hs) as [q ->]. apply trim_at, Hs. Qed.

Lemma values_at_point s i : sound s -> (i < length (handles s))%nat -> exists k, at_point k (values_at s i).
Proof.
  intros Hs Hi. unfold values_at. rewrite (so_handles s Hs) in Hi.
  destruct (some_values s) as [vs|] eqn:E; [|by apply get_value_at].
  apply some_values_nonempty in E as [E _]. pose proof (so_values s Hs) as Hv. rewrite E in Hv.
  apply lookup_lt_is_Some in Hi as [v Hi]. rewrite Hi.
  apply (Forall_lookup_1 _ _ _ _ Hv) in Hi as [q ->]. apply trim_at, Hs.
Qed.

(** ** Operations that leave the values and the styles alone *)

Definition values_view (s : slider) :=
  (o_min s, o_max s, o_step s, o_range s, o_value s, o_values s).
Definition style_view (s : slider) := (vertical s, h_style <$> handles s, rangeStyle s).

Lemma values_at_view s s' i : values_view s = values_view s' -> values_at s i = values_at s' i.
Proof.
  unfold values_view. destruct s, s'. cbn. intros [= -> -> -> -> -> ->]. reflexivity.
Qed.

Lemma percent_view s s' v : values_view s = values_view s' -> percent s v = percent s' v.
Proof. unfold values_view. destruct s, s'. cbn. intros [= -> -> -> -> -> ->]. reflexivity. Qed.

Lemma some_values_view s s' : values_view s = values_view s' -> some_values s = some_values s'.
Proof. unfold values_view. destruct s, s'. cbn. intros [= -> -> -> -> -> ->]. reflexivity. Qed.

Lemma sound_view s s' :
  values_view s = values_view s' -> length (handles s) = length (handles s') ->
  (forall i, handleIndex s' = Some i -> (i < length (handles s))%nat) ->
  sound s -> sound s'.
Proof.
  intros Hv Hl Hi Hs. pose proof Hv as Hv'. injection Hv' as E1 E2 E3 E4 E5 E6.
  destruct Hs as [[O1 [O2 O3]] ? ? ? ? Ho ?]. split.
  - unfold options_of. by rewrite <- E1, <- E2, <- E3.
  - by rewrite <- E4.
  - by rewrite <- E5.
  - by rewrite <- E6.
  - by rewrite <- Hl, <- (some_values_view s s' Hv).
  - rewrite <- Hl, <- (some_values_view s s' Hv), <- !(values_at_view s s' _ Hv). exact Ho.
  - intros i Hi'. rewrite <- Hl. by apply Hi.
Qed.

Lemma drawn_view s s' :
  values_view s = values_view s' -> style_view s = style_view s' -> drawn s -> drawn s'.
Proof.
  intros Hv Hy [Hh Hb]. injection Hy as Y1 Y2 Y3. split.
  - intros i h Hi. rewrite <- (values_at_view s s' _ Hv), <- (percent_view s s' _ Hv).
    assert ((h_style <$> handles s') !! i = Some (h_style h)) as Hi' by (by rewrite list_lookup_fmap, Hi).
    rewrite <- Y2, list_lookup_fmap in Hi'. destruct (handles s !! i) as [h'|] eqn:E; [|done].
    injection Hi' as <-. rewrite <- (Hh i h' E). unfold pos_of. by rewrite Y1.
  - rewrite <- !(values_at_view s s' _ Hv), <- !(percent_view s s' _ Hv). intros Hr.
    rewrite <- (Hb Hr). unfold size_of. by rewrite Y1, Y3.
Qed.

(** What every action keeps. *)
Definition fine (s : slider) : Prop := sound s /\ drawn s.

Lemma fine_view s s' :
  values_view s = values_view s' -> style_view s = style_view s' ->
  (forall i, handleIndex s' = Some i -> (i < length (handles s))%nat) -> fine s -> fine s'.
Proof.
  intros Hv Hy Hi [Hs Hd]. split; [|by eapply drawn_view]. eapply sound_view; [done| |done..].
  injection Hy as _ Y2 _. apply (f_equal length) in Y2. by rewrite !length_fmap in Y2.
Qed.

Lemma fine_tell ev s : fine s -> fine (tell ev s).
Proof. intros Hs. apply (fine_view s); [done..|apply Hs|done]. Qed.

Lemma fine_change i s : fine s -> fine (change i s).
Proof. intros Hs. unfold change. apply if_pred; [by apply fine_tell|done]. Qed.

Lemma change_told i s : keySliding s = false -> mouseSliding s = false ->
  told (change i s) = told s ++ [SlideChange i (hash_value s i) (all_values s)].
Proof. intros H1 H2. unfold change. by rewrite H1, H2. Qed.

Lemma handles_style f i (l : list handle) :
  (forall h, h_style (f h) = h_style h) -> h_style <$> alter f i l = h_style <$> l.
Proof.
  intros Hf. revert i. induction l as [|h l IH]; intros [|i]; cbn; [done..|by rewrite Hf|].
  f_equal. apply IH.
Qed.

Lemma fine_handle f i s : (forall h, h_style (f h) = h_style h) -> fine s -> fine (set_handle f i s).
Proof.
  intros Hf Hs. apply (fine_view s); [done| |apply Hs|done].
  unfold style_view, set_handle. cbn. by rewrite handles_style.
Qed.

Lemma fine_all f s :
  (forall h, h_style (f h) = h_style h) -> fine s -> fine (s <| handles := f <$> handles s |>).
Proof.
  intros Hf Hs. apply (fine_view s); [done| |apply Hs|done].
  unfold style_view. cbn. f_equal. f_equal. rewrite <- list_fmap_compose.
  apply list_fmap_ext. intros j h _. cbn. by rewrite Hf.
Qed.

Lemma fine_focus i s : fine s -> fine (focus i s).
Proof.
  intros Hs. unfold focus. destruct (o_disabled s); apply fine_handle; try done. by apply fine_all.
Qed.

(** ** Drawing *)

Lemma refresh_view s :
  values_view (refreshValue s) = values_view s /\ length (handles (refreshValue s)) = length (handles s) /\
  handleIndex (refreshValue s) = handleIndex s.
Proof.
  split_and!; [reflexivity| |reflexivity].
  cbn. unfold handle_styles. destruct (some_values s); apply length_imap.
Qed.

Lemma pos_set_pos s v st0 : pos_of s (set_pos s v st0) = Some v.
Proof. unfold pos_of, set_pos. by destruct (vertical s). Qed.

Lemma value_percent_eq s : options_of s -> value_percent s = percent s (get_value s).
Proof.
  intros (Emn & Emx & _). unfold value_percent. rewrite Emn, Emx.
  destruct (Qeq_bool mx mn) eqn:Eq; [|done]. apply Qeq_bool_iff in Eq. pose proof mn_lt_mx. lra.
Qed.

Lemma handle_styles_pos s i h :
  sound s -> handle_styles s !! i = Some h -> pos_of s (h_style h) = Some (percent s (values_at s i)).
Proof.
  intros Hs. pose proof (so_handles s Hs) as Hh. unfold handle_styles, values_at.
  destruct (some_values s) as [vs|] eqn:E; rewrite list_lookup_imap;
    destruct (handles s !! i) as [h'|] eqn:Ei; try done; intros [= <-].
  - cbn. by rewrite pos_set_pos.
  - apply lookup_lt_Some in Ei. rewrite Hh in Ei. assert (i = 0%nat) as -> by lia.
    rewrite decide_True by done. cbn. by rewrite pos_set_pos, value_percent_eq by apply Hs.
Qed.

Lemma fine_refresh s : sound s -> fine (refreshValue s).
Proof.
  intros Hs. destruct (refresh_view s) as (Hv & Hl & Hi). symmetry in Hv.
  split; [eapply sound_view; [done..| |done]; rewrite Hi; apply Hs|].
  split; intros; rewrite <- ?(values_at_view _ _ _ Hv), <- ?(percent_view _ _ _ Hv).
  - exact (handle_styles_pos s i h Hs H).
  - destruct (so_ordered s Hs H) as (Hl2 & [vs E] & _). cbn. unfold bar_style. rewrite E.
    rewrite decide_True by by rewrite (so_range s Hs). rewrite Hl2. cbn.
    change (size_of (refreshValue s)) with (size_of s).
    unfold size_of, set_size, set_pos. by destruct (vertical s).
Qed.
(** ** Changing values *)

Lemma point_inj j k : (point j <= point k)%Q -> (j <= k)%Z.
Proof.
  intros H. apply Z.nlt_ge. intros Hlt. assert (point (k + 1) <= point j)%Q by (apply point_le; lia).
  pose proof (point_succ k). lra.
Qed.

Lemma at_point_le j k v w : at_point j v -> at_point k w -> nlt w v = false -> (j <= k)%Z.
Proof.
  intros (q & -> & Hq & _) (r & -> & Hr & _) H. apply point_inj. rewrite <- Hq, <- Hr.
  cbn [nlt] in H. apply Qnot_lt_le. intros Hlt. by rewrite (proj2 (qless_spec _ _) Hlt) in H.
Qed.

Lemma at_point_some k v : at_point k v -> is_Some v.
Proof. intros (q & -> & _). by eexists. Qed.

Lemma sound_value s x : sound s -> sound (s <| o_value := trimAlignValue s (Some x) |>).
Proof.
  intros Hs. set (v := Some x). destruct (trim_at s x (so_options s Hs)) as (k & q & E & _).
  assert (forall i, some_values s <> None ->
    values_at (s <| o_value := trimAlignValue s v |>) i = values_at s i) as Hva.
  { intros i Hne. unfold values_at. change (some_values (s <| o_value := _ |>)) with (some_values s).
    by destruct (some_values s). }
  destruct Hs as [? ? ? ? ? Ho ?]. split; try done; [by exists q|].
  intros Hr. destruct (Ho Hr) as (H1 & H2 & j & k' & H3 & H4 & H5). split_and!; [done..|].
  assert (some_values s <> None) as Hne by (by destruct H2 as [? ->]).
  exists j, k'. by rewrite !Hva.
Qed.

Lemma fine_set_value s q : sound s -> fine (set_value (Some q) s).
Proof. intros Hs. apply fine_change, fine_refresh. by apply sound_value. Qed.

(** The options and the other values stay; the new one is a point. *)
Lemma some_values_js_set s i w vs :
  some_values s = Some vs -> (i < length vs)%nat ->
  some_values (s <| o_values := js_set None i w <$> o_values s |>) = Some (<[i := w]> vs).
Proof.
  intros [E Hne]%some_values_nonempty Hi. unfold some_values. cbn. rewrite E. cbn.
  unfold js_set. rewrite (proj2 (Nat.ltb_lt _ _) Hi).
  destruct vs as [|v vs]; [done|]. by destruct i.
Qed.

Lemma fine_set_values_at s i v k vs :
  sound s -> some_values s = Some vs -> (i < length vs)%nat -> at_point k v ->
  (rg = RangeTrue -> exists j, at_point j (values_at s (1 - i)) /\
     (i = 0%nat /\ (k <= j)%Z \/ i = 1%nat /\ (j <= k)%Z)) ->
  fine (set_values_at i v s).
Proof.
  intros Hs E Hi Hv Hord. apply fine_change, fine_refresh.
  pose proof (trim_fix s k v (so_options s Hs) Hv) as Hw. set (w := trimAlignValue s v) in *.
  pose proof (some_values_js_set s i w vs E Hi) as E'.
  set (s' := s <| o_values := js_set None i w <$> o_values s |>) in *.
  assert (at_point k (values_at s' i)) as Hnew.
  { unfold values_at. rewrite E', list_lookup_insert_eq by done. by apply (trim_fix s'); [apply Hs|]. }
  assert (forall j, j <> i -> values_at s' j = values_at s j) as Hold.
  { intros j Hj. unfold values_at. by rewrite E', E, list_lookup_insert_ne. }
  pose proof (some_values_nonempty s vs E) as [E1 Hne].
  assert (o_values s' = Some (<[i := w]> vs)) as E2
    by (unfold s'; cbn; rewrite E1; cbn; unfold js_set; by rewrite (proj2 (Nat.ltb_lt _ _) Hi)).
  split; try apply Hs.
  - rewrite E2. cbn. pose proof (so_values s Hs) as Hvs. rewrite E1 in Hvs. cbn in Hvs.
    apply Forall_insert; [done|]. by eapply at_point_some.
  - change (handles s') with (handles s). rewrite E', length_insert, (so_handles s Hs), E. done.
  - intros Hr. destruct (so_ordered s Hs Hr) as (H1 & H2 & _). destruct (Hord Hr) as (j & Hj & Hij).
    split; [done|]. split; [by rewrite E'|].
    destruct Hij as [[-> Hle]|[-> Hle]]; cbn in Hj.
    + exists k, j. by rewrite (Hold 1%nat).
    + exists j, k. by rewrite (Hold 0%nat).
Qed.

Section user.
Context (width height left top : Q) (grab : mevent -> nat -> option (Q * Q)) (allow : sevent -> bool).
Context (Hwidth : ~ width == 0) (Hheight : ~ height == 0).

Lemma fine_slide s i v k :
  fine s -> (i < length (handles s))%nat -> at_point k v -> fine (slide allow i v s).
Proof.
  intros Hf Hi Hv. pose proof (proj1 Hf) as Hs. unfold slide.
  destruct (some_values s) as [vs|] eqn:E.
  - rewrite (so_handles s Hs), E in Hi.
    set (other := values_at s (if (i =? 0)%nat then 1%nat else 0%nat)).
    set (v' := if _ && _ then other else v).
    assert (exists k', at_point k' v' /\ (rg = RangeTrue -> exists j, at_point j (values_at s (1 - i)) /\
       (i = 0%nat /\ (k' <= j)%Z \/ i = 1%nat /\ (j <= k')%Z))) as (k' & Hv' & Hord).
    { destruct (decide (rg = RangeTrue)) as [Hr|Hr].
      - destruct (so_ordered s Hs Hr) as (Hl & _ & j0 & j1 & H0 & H1 & Hj).
        rewrite (so_handles s Hs), E in Hl. unfold v'. rewrite Hl, (so_range s Hs), Hr.
        rewrite bool_decide_eq_true_2 by done. cbn [Nat.eqb andb].
        destruct i as [|[|]]; [..|lia]; cbn [Nat.eqb andb orb] in *; unfold other in *; cbn [Nat.sub].
        + rewrite orb_false_r. destruct (nlt (values_at s 1) v) eqn:En.
          * exists j1. split; [done|]. intros _. exists j1. split; [done|]. left. split; [done|lia].
          * exists k. split; [done|]. intros _. exists j1. split; [done|]. left. split; [done|].
            by eapply at_point_le.
        + destruct (nlt v (values_at s 0)) eqn:En.
          * exists j0. split; [done|]. intros _. exists j0. split; [done|]. right. split; [done|lia].
          * exists k. split; [done|]. intros _. exists j0. split; [done|]. right. split; [done|].
            by eapply at_point_le.
      - exists k. split; [|done]. unfold v'. rewrite (so_range s Hs).
        rewrite (bool_decide_eq_false_2 (rg = RangeTrue)) by done. by rewrite andb_false_r. }
    clearbody v'. destruct (nsame v' (values_at s i)); [done|].
    set (ev := Slide _ _ _). apply (if_pred fine); [|by apply fine_tell].
    apply (fine_set_values_at _ _ _ k' vs); [by apply fine_tell|exact E|done|done|exact Hord].
  - destruct (nsame v (get_value s)); [done|]. apply (if_pred fine); [|by apply fine_tell].
    destruct Hv as (q & -> & _). by apply fine_set_value, fine_tell.
Qed.

Abbreviation norm := (normValueFromMouse width height left top).

Lemma norm_point s e : sound s -> exists k, at_point k (norm s e).
Proof.
  intros Hs. unfold normValueFromMouse. destruct (default _ (clickOffset s)) as [cl ct].
  set (p := if vertical s then _ else _).
  assert (exists a b, p = (a, b) /\ Qeq_bool a 0 = false) as (a & b & -> & Ha).
  { unfold p. destruct (vertical s); eexists _, _; (split; [reflexivity|]);
      apply not_true_iff_false; by rewrite Qeq_bool_iff. }
  unfold ndiv. rewrite Ha. cbn [nlift].
  assert (forall (x y : jsnum), is_Some x -> is_Some y -> is_Some (if nlt x y then x else y)) as Hmax
    by (intros; by destruct (nlt x y)).
  set (x1 := if nlt (Some 1%Q) _ then _ else _).
  assert (is_Some x1) as [q1 Hx1] by (unfold x1; destruct (nlt _ _); by eexists). clearbody x1. subst x1.
  set (x2 := if nlt _ (Some 0%Q) then _ else _).
  assert (is_Some x2) as [q2 Hx2] by (unfold x2; destruct (nlt _ _); by eexists). clearbody x2. subst x2.
  destruct (vertical s); cbn [nlift]; apply trim_at, Hs.
Qed.
(** ** Pressing *)

Lemma closest_rest s v l d i :
  (i < length (handles s))%nat -> (forall j, j ∈ l -> (j < length (handles s))%nat) ->
  exists d' i', (i' < length (handles s))%nat /\
    fold_left (closer s v) l (Some d, Some i) = (Some d', Some i').
Proof.
  revert d i. induction l as [|j l IH]; intros d i Hi Hl; [by exists d, i|].
  cbn [fold_left]. unfold closer at 2.
  destruct (Qabs <$> nlift Qminus v (values_at s j)) as [d1|] eqn:E.
  - cbv zeta. destruct (nlt (Some d1) (Some d)); apply IH; set_solver.
  - cbn [nlt]. apply IH; [done|set_solver].
Qed.

(** The distance to a value is less than the one the search begins with. *)
Lemma first_closer j k v w :
  at_point j v -> at_point k w ->
  nlt (Qabs <$> nlift Qminus v w) (Some (mx - mn + 1)%Q) = true.
Proof.
  intros (q & -> & Hq & Hj) (r & -> & Hr & Hk). apply qless_spec.
  assert (forall i, (0 <= i <= n)%Z -> mn <= point i /\ point i <= mx)%Q as Hb.
  { intros i Hi. rewrite <- point_0 at 1. rewrite Hmx. split; apply point_le; lia. }
  pose proof (Hb j Hj). pose proof (Hb k Hk). rewrite <- Hq, <- Hr in *.
  apply Qle_lt_trans with (mx - mn)%Q; [|lra]. apply Qabs_Qle_condition. lra.
Qed.

Lemma closest_some s e : sound s ->
  exists i, snd (closest s (norm s e)) = Some i /\ (i < length (handles s))%nat.
Proof.
  intros Hs. destruct (norm_point s e Hs) as [j Hj]. unfold closest.
  destruct (length (handles s)) as [|m] eqn:El.
  { rewrite (so_handles s Hs) in El. destruct (some_values s) as [vs|] eqn:E; [|done].
    apply some_values_nonempty in E as [_ E]. by destruct vs. }
  destruct (values_at_point s 0 Hs) as [k Hk]; [lia|].
  destruct (so_options s Hs) as (Emn & Emx & _). cbn [seq fold_left].
  unfold closer at 2. rewrite Emn, Emx, (first_closer j k _ _ Hj Hk).
  assert (is_Some (Qabs <$> nlift Qminus (norm s e) (values_at s 0))) as [d ->]
    by (destruct Hj as (? & -> & _), Hk as (? & -> & _); by eexists).
  destruct (closest_rest s (norm s e) (seq 1 m) d 0) as (d' & i' & Hi' & ->); [lia| |].
  - intros i Hi. apply elem_of_seq in Hi. lia.
  - exists i'. split; [done|]. lia.
Qed.

(** Of two handles on the same point the first is found. *)
Lemma closest_same s e : sound s -> length (handles s) = 2%nat ->
  (exists k, at_point k (values_at s 0) /\ at_point k (values_at s 1)) ->
  snd (closest s (norm s e)) = Some 0%nat.
Proof.
  intros Hs Hl (k & H0 & H1). destruct (norm_point s e Hs) as [j Hj]. unfold closest. rewrite Hl.
  destruct (so_options s Hs) as (Emn & Emx & _). cbn [seq fold_left].
  unfold closer. rewrite Emn, Emx, (first_closer j k _ _ Hj H0).
  destruct Hj as (q & -> & _), H0 as (q0 & -> & E0 & _), H1 as (q1 & -> & E1 & _).
  cbn [nlift fmap option_fmap option_map nlt].
  destruct (qless _ _) eqn:E; [|done]. apply qless_spec in E. rewrite E0, E1 in E. lra.
Qed.

Abbreviation capture := (slider_capture width height left top grab allow).

Lemma fine_flags s f (Hf : forall s, values_view (f s) = values_view s /\ style_view (f s) = style_view s) :
  (forall i, handleIndex (f s) = Some i -> (i < length (handles s))%nat) -> fine s -> fine (f s).
Proof. intros Hi. destruct (Hf s) as [H1 H2]. by apply fine_view. Qed.

Lemma focus_length i s : length (handles (focus i s)) = length (handles s).
Proof.
  unfold focus, set_handle. destruct (o_disabled s); cbn; rewrite length_alter; [done|].
  by rewrite length_fmap.
Qed.

Lemma fine_capture e s : fine s -> exists s' b, capture e s = Some (s', b) /\ fine s'.
Proof.
  intros Hf. pose proof (proj1 Hf) as Hs. unfold slider_capture.
  destruct (o_disabled s); [by eexists _, _|].
  destruct (closest_some s e Hs) as (i0 & Hc & Hi0). rewrite Hc.
  set (i := if _ && _ then S i0 else i0).
  assert (i < length (handles s))%nat as Hi.
  { unfold i. rewrite (so_range s Hs). case_bool_decide as Hr; [|done]. cbn [andb].
    destruct (nsame (values_at s 1) _) eqn:E; [|done].
    destruct (so_ordered s Hs Hr) as (Hl & _ & j & k & Hj & Hk & Hjk).
    assert (k = 0)%Z as ->.
    { destruct Hk as (q & Eq & Hq & Hk). rewrite Eq in E. apply Qeq_bool_iff in E.
      destruct (so_options s Hs) as (Emn & _). rewrite Emn in E.
      assert (k <= 0)%Z; [|lia]. apply point_inj. rewrite <- Hq, E, point_0. lra. }
    assert (j = 0)%Z as -> by (destruct Hj as (? & _ & _ & ?); lia).
    rewrite closest_same in Hc by (try done; by exists 0%Z). injection Hc as <-. lia. }
  clearbody i. unfold start. destruct (allow _); cbn [negb]; [|by eexists _, _; split; [done|by apply fine_tell]].
  set (s1 := _ <| handleIndex := Some i |>).
  assert (fine s1) as H1.
  { apply (fine_view s); [done..| |done]. by intros ? [= <-]. }
  assert (length (handles s1) = length (handles s)) as L1 by done. clearbody s1.
  destruct (lookup_lt_is_Some_2 (handles s1) i) as [h ->]; [lia|].
  set (s2 := focus i _). assert (fine s2) as H2 by by apply fine_focus, fine_handle.
  assert (length (handles s2) = length (handles s)) as L2.
  { unfold s2. rewrite focus_length. cbn. by rewrite length_alter. }
  clearbody s2. destruct (lookup_lt_is_Some_2 (handles s2) i) as [h2 ->]; [lia|].
  assert (forall g, fine (s2 <| clickOffset := Some g |>)) as H3
    by (intros g; apply (fine_view s2); [done..|apply H2|done]).
  destruct (norm_point s e Hs) as [k Hk].
  destruct (grab e i); (eexists _, _; split; [done|]); (apply (if_pred fine); [apply H3|]);
    apply (fine_slide _ _ _ k); try done; cbn; lia.
Qed.

Lemma fine_drag e s : fine s -> fine (slider_drag width height left top allow e s).
Proof.
  intros Hf. unfold slider_drag. destruct (handleIndex s) as [i|] eqn:E; [|done].
  destruct (norm_point s e (proj1 Hf)) as [k Hk].
  apply (fine_slide _ _ _ k); [done| |done]. by apply (so_index s (proj1 Hf)).
Qed.

Lemma fine_stop e s : fine s -> fine (slider_stop e s).
Proof.
  intros Hf. unfold slider_stop. set (s1 := _ <| mouseSliding := false |>).
  assert (fine s1) as H1.
  { apply (fine_view (s <| handles := (fun h => h <| h_active := false |>) <$> handles s |>));
      [done..| |by apply fine_all]. cbn. rewrite length_fmap. apply Hf. }
  clearbody s1. set (s2 := match handleIndex s1 with Some _ => _ | None => _ end).
  assert (fine s2) as H2 by (unfold s2; destruct (handleIndex s1); [by apply fine_change, fine_tell|done]).
  clearbody s2. by apply (fine_view s2).
Qed.
(** ** Keys, options and the whole run *)

Lemma key_value_point k s i v :
  sound s -> (i < length (handles s))%nat -> key_value k s (hash_value s i) = Some v ->
  exists j, at_point j v.
Proof.
  intros Hs Hi. assert (exists j, at_point j (hash_value s i)) as [j Hj].
  { unfold hash_value. pose proof (values_at_point s i Hs Hi) as H. unfold values_at in *.
    by destruct (some_values s). }
  assert (exists q, hash_value s i = Some q) as [q Eq] by (by destruct Hj as (q & ? & _); exists q).
  rewrite Eq in Hj |- *. pose proof (so_options s Hs) as (Emn & Emx & Est).
  assert (exists j, at_point j (Some mn)) as H0 by (exists 0%Z, mn; split_and!; [done|by rewrite point_0|lia..]).
  assert (exists j, at_point j (Some mx)) as H1 by (exists n, mx; split_and!; [done|by rewrite Hmx|lia..]).
  pose proof (fun q => trim_at s q (so_options s Hs)) as Ht.
  unfold key_value. cbn [nlift]. rewrite Emn, Emx.
  destruct k; try (intros [= <-]; first [done|apply Ht|by exists j]);
    (destruct (nsame _ _); [done|intros [= <-]; apply Ht]).
Qed.

Lemma fine_keydown k i s : fine s -> (i < length (handles s))%nat -> fine (keydown allow k i s).
Proof.
  intros Hf Hi. unfold keydown. destruct (o_disabled s); [done|].
  set (s0 := set_handle (fun h => h <| h_active := true |>) i (s <| keySliding := true |>)).
  assert (fine s0 /\ length (handles s0) = length (handles s)) as [H0 L0].
  { split; [|unfold s0, set_handle; cbn; by rewrite length_alter].
    apply fine_handle; [done|]. apply (fine_view s); [done..|apply Hf|done]. }
  clearbody s0.
  assert (exists s1 go, (if bool_decide (k <> KOther) && negb (keySliding s) then start allow i s0 else (s, true))
    = (s1, go) /\ fine s1 /\ length (handles s1) = length (handles s)) as (s1 & go & -> & H1 & L1).
  { destruct (_ && _); [|by eexists _, _]. eexists _, _. split; [done|]. by split; [apply fine_tell|]. }
  destruct (negb go); [done|]. destruct (key_value k s1 _) as [v|] eqn:E; [|done].
  destruct (key_value_point k s1 i v) as [j Hj]; [apply H1|lia|done|].
  apply (fine_slide _ _ _ j); [done|lia|done].
Qed.

Lemma fine_keyup i s : fine s -> fine (keyup i s).
Proof.
  intros Hf. unfold keyup. destruct (o_disabled s); [done|]. destruct (keySliding s); [|done].
  apply fine_handle; [done|]. apply fine_change, fine_tell.
  apply (fine_view s); [done..|apply Hf|done].
Qed.

Lemma fine_setOption c s :
  match c with SetDisabled _ | SetVertical _ => True | _ => False end -> fine s -> fine (setOption c s).
Proof.
  intros Hc Hf. destruct c as [[]|b| | | | | |]; try done; cbn.
  - apply (fine_view (s <| handles := (fun h => h <| h_focus := false |> <| h_hover := false |>) <$> handles s |>));
      [done..| |by apply fine_all]. cbn. rewrite length_fmap. apply Hf.
  - apply (fine_view s); [done..|apply Hf|done].
  - apply fine_refresh. eapply sound_view; [..|apply Hf]; [done..|apply Hf].
Qed.

Context (mo : mouse_options).
Abbreviation acts := (slider_act width height left top grab allow mo).

(** What a user and a careful page do: keys on the slider's own handles, no change
    of the range or of single values. *)
Definition user_ok (a : saction) (s : slider) : Prop :=
  match a with
  | KeyDown _ i => (i < length (handles s))%nat
  | Option_ (SetDisabled _) | Option_ (SetVertical _) => True
  | Option_ _ | ValuesAt _ _ | ValuesAll _ | Value None => False
  | _ => True
  end.

Lemma fine_act a w : user_ok a (snd w) -> fine (snd w) -> exists w', acts a w = Some w' /\ fine (snd w').
Proof.
  intros Ha Hf. destruct a; cbn in Ha |- *; try (by destruct Ha);
    try (eexists; split; [reflexivity|cbn]).
  - apply mouse_act_inv; [done|apply fine_capture|done|apply fine_drag|apply fine_stop|done].
  - by apply fine_keydown.
  - by apply fine_keyup.
  - unfold mouseenter. apply (if_pred fine); [done|by apply fine_handle].
  - by apply fine_handle.
  - by apply fine_focus.
  - by apply fine_handle.
  - apply fine_setOption; [by destruct c|done].
  - destruct v as [q|]; [|done]. apply fine_set_value, Hf.
Qed.
Fixpoint user_run (l : list saction) (w : mouse * slider) : Prop :=
  match l with
  | [] => True
  | a :: l => user_ok a (snd w) /\
              match acts a w with Some w' => user_run l w' | None => True end
  end.

(** ** A new slider *)

(** The two values of a range come in order. *)
Definition range_ok (values : option (list jsnum)) : Prop :=
  match values with
  | None => True
  | Some [] => False
  | Some [Some a; Some b] => a = b \/ (a < b)%Q
  | Some _ => True
  end.

Lemma trim_mono s a b : options_of s -> a = b \/ (a < b)%Q ->
  exists j k, at_point j (trimAlignValue s (Some a)) /\ at_point k (trimAlignValue s (Some b)) /\ (j <= k)%Z.
Proof.
  intros Ho Hab. destruct (trim_nearest s a Ho) as (j & qa & Ea & Ha & Hj & Na).
  destruct (trim_nearest s b Ho) as (k & qb & Eb & Hb & Hk & Nb).
  destruct Hab as [<-|Hab].
  { rewrite Ea in Eb. injection Eb as <-. exists j, j. split_and!; [by exists qa|by exists qa|lia]. }
  exists j, k. split_and!; [by exists qa|by exists qb|]. apply Z.nlt_ge. intros Hlt.
  specialize (Na k Hk). specialize (Nb j Hj). rewrite Ha in Na. rewrite Hb in Nb.
  assert (point (k + 1) <= point j)%Q as Hp by (apply point_le; lia). rewrite point_succ in Hp.
  revert Na Nb. apply Qabs_case; intros ?; apply Qabs_case; intros ?; intros Na;
    apply Qabs_case; intros ?; apply Qabs_case; intros ?; intros Nb; lra.
Qed.

Lemma create_fine vert dis q values :
  Forall is_Some (default [] values) -> (rg = RangeTrue -> range_ok values) ->
  fine (create mn mx st rg vert dis (Some q) values).
Proof.
  intros Hv Hr. unfold create.
  set (vs := if decide (rg = RangeTrue) then _ else values).
  assert (Forall is_Some (default [] vs) /\ (rg = RangeTrue ->
    exists a b, vs = Some [Some a; Some b] /\ (a = b \/ (a < b)%Q))) as [Hvs Hord].
  { unfold vs. case_decide as Er; [|done]. specialize (Hr Er).
    destruct values as [[|v l]|]; cbn in Hv, Hr |- *; [done| |].
    - apply Forall_cons in Hv as [[a ->] Hl]. destruct l as [|w [|]]; cbn.
      + split; [by repeat constructor|]. intros _. exists a, a. auto.
      + apply Forall_cons in Hl as [[b ->] _]. split; [by repeat constructor|]. intros _. by exists a, b.
      + split; [by repeat constructor|]. intros _. exists a, a. auto.
    - split; [by repeat constructor|]. intros _. exists mn, mn. auto. }
  clearbody vs. apply fine_refresh.
  set (s := mk_slider _ _ _ _ _ _ _ _ _ _ _ _ _ _ _ _).
  assert (options_of s) as Ho by done.
  split; try done; [by exists q| |].
  - cbn. rewrite repeat_length. unfold some_values. cbn. by destruct vs as [[]|].
  - intros Er. destruct (Hord Er) as (a & b & E & Hab). unfold s in *. rewrite E in Ho |- *.
    split_and!; [done|by eexists|]. by apply trim_mono.
Qed.

End user.

(** Setting the value of a plain slider takes the point of the grid nearest to
    it, draws the first handle there and tells the change once. *)
Theorem set_value_nearest s x :
  sound s -> o_values s = None -> keySliding s = false -> mouseSliding s = false ->
  let s' := set_value (Some x) s in
  exists k v, get_value s' = Some v /\ v == point k /\ (0 <= k <= n)%Z /\
    (forall j, (0 <= j <= n)%Z -> (Qabs (x - v) <= Qabs (x - point j))%Q) /\
    (forall h, handles s' !! 0%nat = Some h -> pos_of s' (h_style h) = Some (percent s' (Some v))) /\
    told s' = told s ++ [SlideChange 0 (Some v) None].
Proof.
  intros Hs Hnone Hk Hm s'. destruct (trim_nearest s x (so_options s Hs)) as (k & q & E & Hq & Hkn & Hnear).
  set (s1 := refreshValue (s <| o_value := trimAlignValue s (Some x) |>)).
  assert (get_value s1 = trimAlignValue s (trimAlignValue s (Some x))) as Hg1 by done.
  assert (get_value s' = get_value s1) as Hg.
  { unfold s', set_value. fold s1. unfold change. by destruct (_ && _). }
  destruct (trim_fix s k (Some q) (so_options s Hs)) as (v & Ev & Hv & _); [by exists q|].
  rewrite E, Ev in Hg1. rewrite Hg1 in Hg. exists k, v.
  assert (values_at s' 0 = Some v) as Hva.
  { unfold values_at. assert (some_values s' = None) as -> by (unfold s', set_value, change, some_values;
      destruct (_ && _); cbn; by rewrite Hnone). done. }
  split_and!; [done|done|lia|lia| | |].
  - intros j Hj. rewrite Hv, <- Hq. by apply Hnear.
  - intros h Hh. rewrite <- Hva. apply (dr_handles s' (proj2 (fine_set_value s x Hs)) 0%nat h Hh).
  - assert (some_values s1 = None) as Hn1 by (unfold some_values, s1; cbn; by rewrite Hnone).
    unfold s', set_value. fold s1. rewrite change_told by done.
    unfold hash_value, all_values. rewrite Hn1. by rewrite Hg1.
Qed.
End grid.
