(* ===== verification/SliderGesture.v ===== *)
(** * jQuery UI slider: gestures and what they get wrong

    A press, moves and a release on a slider that does not ask for a distance or a
    delay come to a start, slides, a stop and a change; the examples are the ways to
    leave that path. *)

From S2P Require Export SliderFlow.

Section gesture.
Context (width height left top : Q) (grab : mevent -> nat -> option (Q * Q)) (allow : sevent -> bool).
Context (mo : mouse_options).
Context (Hdistance : (distance mo <= 0)%Q) (Hdelay : delay mo = 0%Z) (Hie : old_ie mo = false).

Abbreviation plugin := (slider_plugin width height left top grab allow).
Abbreviation slide := (slide allow).

Definition is_slide (i : nat) (ev : sevent) : bool :=
  match ev with Slide j _ _ => (j =? i)%nat | _ => false end.

(** While handle [i] is dragged: slides of it are told, nothing else is. *)
Record dragged (i : nat) (s s' : slider) : Prop := {
  dg_told : exists evs, forallb (is_slide i) evs = true /\ told s' = told s ++ evs;
  dg_mouse : mouseSliding s' = mouseSliding s;
  dg_key : keySliding s' = keySliding s;
  dg_index : handleIndex s' = handleIndex s;
}.

Lemma dragged_refl i s : dragged i s s.
Proof. split; [|done..]. exists []. by rewrite app_nil_r. Qed.

Lemma dragged_trans i s1 s2 s3 : dragged i s1 s2 -> dragged i s2 s3 -> dragged i s1 s3.
Proof.
  intros [(l1 & F1 & E1) A1 B1 C1] [(l2 & F2 & E2) A2 B2 C2]. split; [|congruence..].
  exists (l1 ++ l2). by rewrite forallb_app, F1, F2, E2, E1, app_assoc.
Qed.

Lemma quiet_change i j s s0 :
  mouseSliding s0 = true -> told s = told s0 -> mouseSliding s = mouseSliding s0 ->
  keySliding s = keySliding s0 -> handleIndex s = handleIndex s0 -> dragged i s0 (change j s).
Proof.
  intros Hm Ht Hm' Hk Hi. unfold change. rewrite Hm', Hm, andb_false_r.
  split; [exists []; by rewrite app_nil_r|done..].
Qed.

Lemma slide_dragged i v s : mouseSliding s = true -> dragged i s (slide i v s).
Proof.
  intros Hm. unfold slide.
  assert (forall ev, is_slide i ev = true -> dragged i s (tell ev s)) as Htell.
  { intros ev Hev. split; [|done..]. exists [ev]. cbn. by rewrite Hev. }
  assert (forall vs w, is_slide i (Slide i w vs) = true) as Hs by (intros; apply Nat.eqb_refl).
  destruct (some_values s) as [vs|].
  - set (w := if _ && _ then _ else v). destruct (nsame w _); [apply dragged_refl|].
    apply if_pred; [|by apply Htell]. eapply dragged_trans; [by apply Htell|]. by apply quiet_change.
  - destruct (nsame v _); [apply dragged_refl|].
    apply if_pred; [|by apply Htell]. eapply dragged_trans; [by apply Htell|]. by apply quiet_change.
Qed.

Lemma drag_dragged i e s : mouseSliding s = true -> handleIndex s = Some i ->
  dragged i s (slider_drag width height left top allow e s).
Proof. intros Hm Hi. unfold slider_drag. rewrite Hi. by apply slide_dragged. Qed.

(** A press that is accepted tells the start and maybe a first slide. *)
Lemma capture_told e s s1 b :
  slider_capture width height left top grab allow e s = Some (s1, b) ->
  (o_disabled s = true /\ b = false /\ s1 = s) \/
  exists i, let ev := SlideStart i (hash_value s i) (all_values s) in
    (allow ev = false /\ b = false /\ s1 = tell ev s) \/
    (allow ev = true /\ b = true /\ mouseSliding s1 = true /\ handleIndex s1 = Some i /\
     keySliding s1 = keySliding s /\
     exists evs, forallb (is_slide i) evs = true /\ told s1 = told s ++ ev :: evs).
Proof.
  unfold slider_capture. destruct (o_disabled s) eqn:Ed; [intros [= <- <-]; by left|]. intros H. right.
  destruct (snd (closest _ _)) as [i0|]; [|done].
  set (i := if _ && _ then S i0 else i0) in H. exists i. cbv zeta. unfold start in H.
  set (ev := SlideStart _ _ _) in *.
  destruct (allow ev); cbn [negb] in H; [|left; by injection H as <- <-]. right.
  set (s2 := tell ev s <| mouseSliding := true |> <| handleIndex := Some i |>) in H.
  set (s3 := match handles s2 !! i with Some _ => _ | None => s2 end) in H.
  assert (told s3 = told s ++ [ev] /\ mouseSliding s3 = true /\ handleIndex s3 = Some i /\
          keySliding s3 = keySliding s) as (T3 & M3 & I3 & K3).
  { unfold s3. destruct (handles s2 !! i); [|done]. unfold focus. by destruct (o_disabled _). }
  clearbody s3. set (g := match grab e i with Some _ => _ | None => _ end) in H.
  assert (exists o, Some (if existsb h_hover (handles (s3 <| clickOffset := o |>))
      then s3 <| clickOffset := o |>
      else slide i (normValueFromMouse width height left top s e) (s3 <| clickOffset := o |>), true)
    = Some (s1, b)) as (o & Ho).
  { unfold g in H. destruct (grab e i) as [p|].
    - destruct (handles s3 !! i); [|done]. exists (Some p). exact H.
    - exists (Some (0%Q, 0%Q)). exact H. }
  clear H g. injection Ho as E1 <-. set (s4 := s3 <| clickOffset := o |>) in *.
  assert (dragged i s4 s1) as [(evs & F & E) Hm Hk Hi].
  { rewrite <- E1. destruct (existsb _ _); [apply dragged_refl|by apply slide_dragged]. }
  rewrite E, Hm, Hk, Hi. split_and!; try done. exists evs. split; [done|].
  change (told s4) with (told s3). by rewrite T3, <- app_assoc.
Qed.

Existing Instance slider_plugin.
Abbreviation macts := (mouse_acts (H := plugin) mo).

(** A mouse that drags: one pair of delegates, the press that began it. *)
Record dragging (e : mevent) (m : mouse) : Prop := {
  mg_started : mouseStarted m = true;
  mg_bound : exists d, bound m = [d] /\ delegate m = Some d;
  mg_event : mouseDownEvent m = Some e;
}.

Lemma distance_met m e : mouseDownEvent m = Some e -> mouseDistanceMet mo m e = true.
Proof.
  intros E. unfold mouseDistanceMet. rewrite E. apply Qle_bool_iff.
  unfold Qmax2. pose proof (Qabs_nonneg (pageX e - pageX e)). pose proof (Qabs_nonneg (pageY e - pageY e)).
  destruct (Qle_bool _ _); lra.
Qed.

(** The moves of a drag. *)
Lemma moves_dragged i e es m s :
  dragging e m -> mouseSliding s = true -> handleIndex s = Some i ->
  exists s', macts (Move <$> es) (m, s) = Some (m, s') /\ dragged i s s'.
Proof.
  revert s. induction es as [|e1 es IH]; intros s Hd Hm Hi; [exists s; split; [done|apply dragged_refl]|].
  cbn [fmap list_fmap mouse_acts mouse_act fst]. destruct (mg_bound e m Hd) as (d & Hb & _).
  rewrite Hb. cbn [length Nat.iter nat_rect]. unfold mouseMove.
  rewrite Hie, (mg_started e m Hd). cbn [andb].
  change (mouseDrag e1 s) with (slider_drag width height left top allow e1 s).
  pose proof (drag_dragged i e1 s Hm Hi) as H1.
  set (s1 := slider_drag width height left top allow e1 s) in *. clearbody s1.
  destruct (IH s1 Hd) as (s2 & E2 & H2); [by rewrite (dg_mouse _ _ _ H1)|by rewrite (dg_index _ _ _ H1)|].
  exists s2. split; [exact E2|]. by eapply dragged_trans.
Qed.

(** Nothing is bound: moves and a release pass by. *)
Lemma idle_moves es m s : bound m = [] -> macts (Move <$> es) (m, s) = Some (m, s).
Proof.
  intros Hb. induction es as [|e1 es IH]; [done|].
  cbn [fmap list_fmap mouse_acts mouse_act fst]. rewrite Hb. exact IH.
Qed.

(** The release tells the stop and the change, with the values reached. *)
Lemma stop_told i e s : handleIndex s = Some i -> keySliding s = false ->
  let s' := slider_stop e s in
  told s' = told s ++ [SlideStop i (hash_value s' i) (all_values s'); SlideChange i (hash_value s' i) (all_values s')]
  /\ mouseSliding s' = false /\ handleIndex s' = None /\ clickOffset s' = None.
Proof.
  intros Hi Hk s'. unfold s', slider_stop. cbn [handleIndex set_field]. rewrite Hi.
  unfold change. cbn [keySliding mouseSliding stop tell set_field]. rewrite Hk. cbn [andb negb].
  split_and!; try done. cbn. by rewrite <- app_assoc.
Qed.

(** One gesture: a press by the left button, any moves and a release come to
    nothing on a disabled slider, to a start alone if the listeners refuse it, and
    otherwise to a start, slides of the same handle, a stop and one change, both
    with the values reached; afterwards no handle is held. *)
Theorem gesture_told e es e' m s w :
  mouseHandled m = false -> mouseStarted m = false -> bound m = [] ->
  which e = 1 -> in_cancel e = false -> keySliding s = false ->
  macts (Press e :: (Move <$> es) ++ [Release e']) (m, s) = Some w ->
  let s' := snd w in
  (o_disabled s = true /\ s' = s) \/
  exists i, let ev := SlideStart i (hash_value s i) (all_values s) in
    (allow ev = false /\ s' = tell ev s) \/
    (allow ev = true /\ mouseSliding s' = false /\ handleIndex s' = None /\ clickOffset s' = None /\
     exists slides, forallb (is_slide i) slides = true /\
       told s' = told s ++ ev :: slides ++ [SlideStop i (hash_value s' i) (all_values s');
                                            SlideChange i (hash_value s' i) (all_values s')]).
Proof.
  intros Hh Hst Hb Hw Hc Hk. cbn [mouse_acts mouse_act]. unfold mouseDown. cbn [fst].
  rewrite Hh, Hst. cbn [mouseDownEvent set_field]. rewrite Hw, Hc. cbn [negb orb Z.eqb Pos.eqb].
  change (mouseCapture e s) with (slider_capture width height left top grab allow e s).
  assert (forall w', macts ((Move <$> es) ++ [Release e']) w' =
    match macts (Move <$> es) w' with Some w => mouse_act (H := plugin) mo (Release e') w | None => None end) as Happ.
  { clear. induction es as [|e1 es IH]; intros w'; [by cbn|]. apply IH. }
  destruct (slider_capture _ _ _ _ _ _ e s) as [[s1 b]|] eqn:Ec; [|done].
  destruct (capture_told e s s1 b Ec) as [(Hd & -> & ->)|(i & [(Ha & -> & ->)|
    (Ha & -> & Hm1 & Hi1 & Hk1 & evs & Fe & Te)])].
  - rewrite Happ, idle_moves by done. intros [= <-]. left. cbn. by rewrite Hb.
  - rewrite Happ, idle_moves by done. intros [= <-]. right. exists i. left. cbn. by rewrite Hb.
  - rewrite Hdelay. cbn [Z.eqb]. rewrite distance_met by done. cbn [andb mouseDelayMet set_field].
    change (mouseStart e None s1) with (s1, true). cbn [negb]. rewrite Happ.
    set (m2 := _ <| mouseHandled := true |>).
    assert (dragging e m2) as Hg by (split; [done|exists (fresh m); by rewrite <- Hb|done]).
    assert (bound m2 = [fresh m]) as Hb2 by (cbn; by rewrite Hb). clearbody m2.
    destruct (moves_dragged i e es m2 s1 Hg Hm1 Hi1) as (s2 & -> & [(evs2 & F2 & T2) Hm2 Hk2 Hi2]).
    cbn [mouse_act fst snd]. rewrite Hb2. cbn [length Nat.iter nat_rect]. unfold mouseUp.
    set (m3 := unbind_delegates _). assert (mouseStarted m3 = true) as -> by apply (mg_started e m2 Hg).
    intros [= <-]. cbn [snd]. right. exists i. right.
    change (mouseStop e' s2) with (slider_stop e' s2).
    destruct (stop_told i e' s2) as (T3 & M3 & I3 & C3); [congruence..|].
    split_and!; [done..|]. exists (evs ++ evs2).
    split; [by rewrite forallb_app, Fe, F2|]. rewrite T3, T2, Te. by rewrite <- !app_assoc.
Qed.
End gesture.

(** ** Examples *)

Definition at_x (x : Q) : mevent := mk_mevent 0 x 0 1 1 false.
Definition track : mevent -> nat -> option (Q * Q) := fun _ _ => None.
Definition yes : sevent -> bool := fun _ => true.
Definition default_mouse : mouse_options := mk_mouse_options 0 0 false.
Definition plain (mn mx st : Q) (q : Q) : slider := create mn mx st RangeNone false false (Some q) None.

(** A drag from 10 to 42 pixels of 100. *)
Example a_drag :
  match slider_acts 100 10 0 0 track yes default_mouse
      [MouseOn (Press (at_x 10)); MouseOn (Move (at_x 42)); MouseOn (Release (at_x 42))]
      (mouseInit, plain 0 100 1 0) with
  | Some (_, s) => told s = [SlideStart 0 (Some 0%Q) None; Slide 0 (Some (1000000 # 100000)) None;
                             Slide 0 (Some (4200000 # 100000)) None;
                             SlideStop 0 (Some (4200000 # 100000)) None;
                             SlideChange 0 (Some (4200000 # 100000)) None]
  | None => False
  end.
Proof. vm_compute. reflexivity. Qed.

(** With a step that does not divide the range a value beyond [max] comes out. *)
Example value_beyond_max : get_value (plain 0 10 6 (95 # 10)) = Some (1200000 # 100000).
Proof. vm_compute. reflexivity. Qed.

(** A start the page refuses is refused once: the repeated key slides. *)
Example refused_start_slides :
  let allow ev := match ev with SlideStart _ _ _ => false | _ => true end in
  let s := keydown allow KRight 0 (keydown allow KRight 0 (plain 0 100 1 0)) in
  told s = [SlideStart 0 (Some 0%Q) None; Slide 0 (Some (100000 # 100000)) None].
Proof. vm_compute. reflexivity. Qed.

(** With a [distance] a click slides without a stop and a change, and no later change
    by a key is told. *)
Example click_without_change :
  match slider_acts 100 10 0 0 track yes (mk_mouse_options 5 0 false)
      [MouseOn (Press (at_x 10)); MouseOn (Release (at_x 10)); KeyDown KRight 0; KeyUp 0]
      (mouseInit, plain 0 100 1 0) with
  | Some (_, s) =>
      mouseSliding s = true /\
      told s = [SlideStart 0 (Some 0%Q) None; Slide 0 (Some (1000000 # 100000)) None;
                SlideStart 0 (Some (1000000 # 100000)) None;
                Slide 0 (Some (1100000 # 100000)) None; SlideStop 0 (Some (1100000 # 100000)) None]
  | None => False
  end.
Proof. vm_compute. split; reflexivity. Qed.

(** ** Witnesses *)

Lemma gesture_told_witness :
  exists w slides v,
    mouse_acts (H := slider_plugin 100 10 0 0 track yes) default_mouse
      [Press (at_x 10); Move (at_x 42); Release (at_x 42)] (mouseInit, plain 0 100 1 0) = Some w /\
    told (snd w) = SlideStart 0 (Some 0%Q) None :: slides ++ [SlideStop 0 v None; SlideChange 0 v None].
Proof.
  destruct (mouse_acts (H := slider_plugin 100 10 0 0 track yes) default_mouse
    [Press (at_x 10); Move (at_x 42); Release (at_x 42)] (mouseInit, plain 0 100 1 0)) as [w|] eqn:E;
    [|vm_compute in E; discriminate].
  destruct (gesture_told 100 10 0 0 track yes default_mouse ltac:(discriminate) eq_refl eq_refl
    (at_x 10) [at_x 42] (at_x 42) mouseInit (plain 0 100 1 0) w
    eq_refl eq_refl eq_refl eq_refl eq_refl eq_refl E) as [[H _]|(i & [[H _]|H])];
    [discriminate H|discriminate H|].
  destruct H as (_ & _ & _ & _ & slides & _ & T).
  assert (all_values (snd w) = None /\ i = 0%nat) as [Ha ->].
  { vm_compute in E. injection E as <-. split; [reflexivity|]. vm_compute in T. by injection T. }
  rewrite Ha in T. eexists w, slides, _. split; [reflexivity|]. exact T.
Defined.

Lemma one_delegate_witness :
  exists w, mouse_acts (H := slider_plugin 100 10 0 0 track yes) default_mouse
      ([Press (at_x 10); Move (at_x 42)] ++ [Release (at_x 42)]) (mouseInit, plain 0 100 1 0) = Some w /\
    bound (fst w) = [] /\ mouseStarted (fst w) = false.
Proof.
  destruct (mouse_acts (H := slider_plugin 100 10 0 0 track yes) default_mouse
    ([Press (at_x 10); Move (at_x 42)] ++ [Release (at_x 42)]) (mouseInit, plain 0 100 1 0)) as [w|] eqn:E;
    [|vm_compute in E; discriminate].
  exists w. split; [reflexivity|].
  destruct (one_delegate (H := slider_plugin 100 10 0 0 track yes) default_mouse
    [Press (at_x 10); Move (at_x 42)] (at_x 42) (plain 0 100 1 0) w E) as (_ & H1 & H2 & _).
  split; [exact H1|exact H2].
Defined.

(** A range of 0 to 10 by halves. *)
Definition some_user : list saction :=
  [MouseOn (Press (at_x 10)); MouseOn (Move (at_x 90)); MouseOn (Release (at_x 90)); KeyDown KEnd 0; KeyUp 0].


Lemma set_value_nearest_witness :
  exists k v, get_value (set_value (Some (37 # 10)%Q) (plain 0 10 (1 # 2) 0)) = Some v /\
    (v == point 0 (1 # 2) k)%Q /\ 0 <= k <= 20.
Proof.
  assert (sound 0 10 (1 # 2) 20 RangeNone (plain 0 10 (1 # 2) 0)) as Hs.
  { refine (proj1 (create_fine 0 10 (1 # 2) 20 _ _ _ _ _ RangeNone false false 0 None _ _)).
    all: first [reflexivity|by exists 0|by exists 50000|by constructor|discriminate]. }
  pose proof (set_value_nearest 0 10 (1 # 2) 20 ltac:(by exists 0) ltac:(by exists 50000) ltac:(reflexivity)
    ltac:(reflexivity) ltac:(reflexivity) RangeNone (plain 0 10 (1 # 2) 0) (37 # 10) Hs
    eq_refl eq_refl eq_refl) as H.
  cbv zeta in H. destruct H as (k & v & H1 & H2 & H3 & _). exists k, v.
  split; [exact H1|]. split; [exact H2|exact H3].
Defined.
