(* ===== verification/UiResizable.v ===== *)
(** * Resizable of jQuery UI

    Models the widget [ui.resizable] of [2019104287/code/WebContent/js/jquery-ui.js] over
    the mouse ([mouse_plugin]), with its option [grid].  The element is resized itself:
    helpers, animations, containers, other elements that are resized with it and elements
    that are wrapped are left out.  Lengths are rationals; an element that is resized has
    a height. *)

From S2P Require Export UiMouse.
From Stdlib Require Export Qround.
Open Scope Z_scope.

Module Resizable.

Inductive handle := N | E | S | W | SE | SW | NE | NW.
#[global] Instance handle_eq_dec : EqDecision handle.
Proof. solve_decision. Defined.

(** A position and a size. *)
Record rbox := mk_box { left : Q; top : Q; width : Q; height : Q }.
#[export] Instance rbox_eta : Settable rbox := fun b => mk_box (left b) (top b) (width b) (height b).

(** What the page is told: [ui.position] and [ui.size]. *)
Inductive revent := ResizeStart (b : rbox) | Resize (b : rbox) | ResizeStop (b : rbox).

(** The attributes that change; [None] is one that is missing or [null]. *)
Record rdata := mk_data { d_left : option Q; d_top : option Q; d_width : option Q; d_height : option Q }.
#[export] Instance rdata_eta : Settable rdata := fun d => mk_data (d_left d) (d_top d) (d_width d) (d_height d).

(** Options: [None] is no number.  [o_aspect] is [!!o.aspectRatio]; [el] is what the style
    of the element says, [current] is [position] and [size], [original] what they were. *)
Record resizable := mk_resizable {
  o_aspect : bool; o_ratio : option Q;
  o_minWidth : option Q; o_maxWidth : option Q; o_minHeight : option Q; o_maxHeight : option Q;
  o_grid : option (Q * Q); o_disabled : bool;
  axis : option handle; resizing : bool;
  el : rbox; current : rbox; original : rbox; originalMouse : Q * Q; aspectRatio : Q;
  told : list revent;
}.
#[export] Instance resizable_eta : Settable resizable := fun s =>
  mk_resizable (o_aspect s) (o_ratio s) (o_minWidth s) (o_maxWidth s) (o_minHeight s) (o_maxHeight s) (o_grid s) (o_disabled s)
    (axis s) (resizing s) (el s) (current s) (original s) (originalMouse s) (aspectRatio s) (told s).

Definition tell (e : revent) (s : resizable) : resizable := s <| told := told s ++ [e] |>.

Definition is_west (a : handle) : bool := match a with SW | NW | W => true | _ => false end.
Definition is_north (a : handle) : bool := match a with NW | NE | N => true | _ => false end.

(** [num]: [parseInt(v, 10) || 0]. *)
Definition num (q : Q) : Q := inject_Z (Z.quot (Qnum q) (Zpos (Qden q))).

(** [Math.round]. *)
Definition round (q : Q) : Q := inject_Z (Qfloor (q + (1 # 2))%Q).

(** ** A move *)

(** [$.extend(a, b)]: what [b] has overrides. *)
Definition orelse (a b : option Q) : option Q := match a with Some _ => a | None => b end.
Definition extend (a b : rdata) : rdata :=
  mk_data (orelse (d_left b) (d_left a)) (orelse (d_top b) (d_top a)) (orelse (d_width b) (d_width a)) (orelse (d_height b) (d_height a)).

(** [_change]. *)
Definition change (a : handle) (o : rbox) (dx dy : Q) : rdata :=
  let e := mk_data None None (Some (width o + dx)%Q) None in
  let w := mk_data (Some (left o + dx)%Q) None (Some (width o - dx)%Q) None in
  let n := mk_data None (Some (top o + dy)%Q) None (Some (height o - dy)%Q) in
  let s := mk_data None None None (Some (height o + dy)%Q) in
  match a with
  | E => e | W => w | N => n | S => s
  | SE => extend s e | SW => extend s w | NE => extend n e | NW => extend n w
  end.

(** [_updateVirtualBoundaries]; [None] is infinite. *)
Record bounds := mk_bounds { minWidth : Q; maxWidth : option Q; minHeight : Q; maxHeight : option Q }.

Definition smaller (a b : option Q) : option Q :=
  match a, b with Some x, Some y => Some (if qless y x then y else x) | Some x, None => Some x | None, y => y end.

Definition updateVirtualBoundaries (ratio : bool) (s : resizable) : bounds :=
  let b := mk_bounds (default 0%Q (o_minWidth s)) (o_maxWidth s) (default 0%Q (o_minHeight s)) (o_maxHeight s) in
  if ratio then
    let r := aspectRatio s in
    mk_bounds
      (if qless (minWidth b) (minHeight b * r) then (minHeight b * r)%Q else minWidth b)
      (smaller (maxWidth b) ((fun h => h * r)%Q <$> maxHeight b))
      (if qless (minHeight b) (minWidth b / r) then (minWidth b / r)%Q else minHeight b)
      (smaller (maxHeight b) ((fun w => w / r)%Q <$> maxWidth b))
  else b.

Definition updateRatio (a : handle) (s : resizable) (d : rdata) : rdata :=
  let d := match d_height d, d_width d with
           | Some h, _ => d <| d_width := Some (h * aspectRatio s)%Q |>
           | None, Some w => d <| d_height := Some (w / aspectRatio s)%Q |>
           | None, None => d
           end in
  let c := current s in
  let l := (fun w => left c + (width c - w))%Q <$> d_width d in
  let t := (fun h => top c + (height c - h))%Q <$> d_height d in
  if decide (a = SW) then d <| d_left := l |> <| d_top := None |>
  else if decide (a = NW) then d <| d_top := t |> <| d_left := l |>
  else d.

(** A number that is there and not 0. *)
Definition given (o : option Q) : bool := match o with Some q => negb (Qeq_bool q 0) | None => false end.

Definition below (v : option Q) (m : Q) : bool := match v with Some v => negb (Qeq_bool m 0) && qless v m | None => false end.
Definition above (v : option Q) (m : option Q) : bool :=
  match v, m with Some v, Some m => negb (Qeq_bool m 0) && qless m v | _, _ => false end.

Definition respectSize (a : handle) (b : bounds) (s : resizable) (d : rdata) : rdata :=
  let ismaxw := above (d_width d) (maxWidth b) in
  let ismaxh := above (d_height d) (maxHeight b) in
  let isminw := below (d_width d) (minWidth b) in
  let isminh := below (d_height d) (minHeight b) in
  let d := if isminw then d <| d_width := Some (minWidth b) |> else d in
  let d := if isminh then d <| d_height := Some (minHeight b) |> else d in
  let d := if ismaxw then d <| d_width := maxWidth b |> else d in
  let d := if ismaxh then d <| d_height := maxHeight b |> else d in
  let dw := (left (original s) + width (original s))%Q in
  let dh := (top (current s) + height (current s))%Q in
  let d := if isminw && is_west a then d <| d_left := Some (dw - minWidth b)%Q |> else d in
  let d := if ismaxw && is_west a then d <| d_left := (fun m => dw - m)%Q <$> maxWidth b |> else d in
  let d := if isminh && is_north a then d <| d_top := Some (dh - minHeight b)%Q |> else d in
  let d := if ismaxh && is_north a then d <| d_top := (fun m => dh - m)%Q <$> maxHeight b |> else d in
  let isNotwh := negb (given (d_width d)) && negb (given (d_height d)) in
  if isNotwh && negb (given (d_left d)) && given (d_top d) then d <| d_top := None |>
  else if isNotwh && negb (given (d_top d)) && given (d_left d) then d <| d_left := None |>
  else d.

Definition updateCache (d : rdata) (s : resizable) : resizable :=
  let c := current s in
  s <| current := mk_box (default (left c) (d_left d)) (default (top c) (d_top d)) (default (width c) (d_width d)) (default (height c) (d_height d)) |>.

(** The plug-in [grid], at a [resize]. *)
Definition or_one (g : Q) : Q := if Qeq_bool g 0 then 1 else g.
Definition snap (a : handle) (gx gy : Q) (s : resizable) : resizable :=
  let c := current s in
  let o := original s in
  let ox := (round ((width c - width o) / or_one gx) * or_one gx)%Q in
  let oy := (round ((height c - height o) / or_one gy) * or_one gy)%Q in
  let c := c <| width := (width o + ox)%Q |> <| height := (height o + oy)%Q |> in
  let c := if decide (a ∈ [SE; S; E]) then c
           else if decide (a = NE) then c <| top := (top o - oy)%Q |>
           else if decide (a = SW) then c <| left := (left o - ox)%Q |>
           else c <| top := (top o - oy)%Q |> <| left := (left o - ox)%Q |> in
  s <| current := c |>.

Section resizable.
(** Which element is a handle, and whether the shift key is down. *)
Context (handle_of : nat -> option handle) (shiftKey : mevent -> bool).

Definition resize_capture (e : mevent) (s : resizable) : option (resizable * bool) :=
  Some (s, negb (o_disabled s) && bool_decide (handle_of (target e) <> None)).

Definition resize_start (e : mevent) (s : resizable) : resizable :=
  let s := s <| resizing := true |> in
  let b := el s <| left := num (left (el s)) |> <| top := num (top (el s)) |> in
  let s := s <| current := b |> <| original := b |> <| originalMouse := (pageX e, pageY e) |> in
  let own := (width b / height b)%Q in
  let s := s <| aspectRatio := match o_ratio s with Some r => r | None => if Qeq_bool own 0 then 1%Q else own end |> in
  tell (ResizeStart (current s)) s.

Definition resize_drag (e : mevent) (s : resizable) : resizable :=
  match axis s with
  | None => s
  | Some a =>
      let dx := (pageX e - fst (originalMouse s))%Q in
      let dy := (pageY e - snd (originalMouse s))%Q in
      let data := change a (original s) dx dy in
      let ratio := o_aspect s || shiftKey e in
      let b := updateVirtualBoundaries ratio s in
      let data := if ratio then updateRatio a s data else data in
      let data := respectSize a b s data in
      let s := match o_grid s with Some (gx, gy) => snap a gx gy s | None => s end in
      let s := s <| el := current s |> in
      let s := updateCache data s in
      tell (Resize (current s)) s
  end.

Definition resize_stop (e : mevent) (s : resizable) : resizable :=
  tell (ResizeStop (current s)) (s <| resizing := false |>).

#[export] Instance resizable_plugin : mouse_plugin resizable := {
  beforeUp _ s := s;
  mouseCapture := resize_capture;
  mouseStart e _ s := (resize_start e s, true);
  mouseDrag := resize_drag;
  mouseStop := resize_stop;
}.

(** The pointer enters a handle. *)
Definition mouseover (t : nat) (s : resizable) : resizable :=
  if resizing s then s else match handle_of t with Some a => s <| axis := Some a |> | None => s end.

(** What happens: the mouse, the pointer over an element, and the option [disabled]. *)
Inductive raction := MouseOn (a : maction) | Over (t : nat) | Disable (b : bool).

Context (mo : mouse_options).

Definition resize_act (a : raction) (w : mouse * resizable) : option (mouse * resizable) :=
  match a with
  | MouseOn a => mouse_act mo a w
  | Over t => Some (fst w, mouseover t (snd w))
  | Disable b => Some (fst w, snd w <| o_disabled := b |>)
  end.

Fixpoint resize_acts (l : list raction) (w : mouse * resizable) : option (mouse * resizable) :=
  match l with
  | [] => Some w
  | a :: l => match resize_act a w with Some w => resize_acts l w | None => None end
  end.
End resizable.

(** [_create], for an element of a given box. *)
Definition create (aspect : bool) (ratio minW maxW minH maxH : option Q) (grid : option (Q * Q)) (b : rbox) : resizable :=
  mk_resizable aspect ratio minW maxW minH maxH grid false None false b b b (0%Q, 0%Q) (width b / height b)%Q [].
End Resizable.
