(* ===== verification/ResizableFlow.v ===== *)
(** * Resizable of jQuery UI, its properties

    However an element is dragged by its handles, its size stays within the bounds, the
    sides that are not dragged stay where they were, and the shape is kept where that is
    asked for. *)

From S2P Require Export UiResizable.
Import Resizable.

#[local] Arguments Qplus : simpl never.
#[local] Arguments Qminus : simpl never.
#[local] Arguments Qmult : simpl never.
#[local] Arguments Qdiv : simpl never.
#[local] Arguments Qopp : simpl never.

(** A length in its bounds. *)
Definition fitting (m : Q) (M : option Q) (x : Q) : Prop := (m <= x)%Q /\ match M with Some M => (x <= M)%Q | None => True end.

(** What [_respectSize] does to a length. *)
Definition limit (m : Q) (M : option Q) (x : Q) : Q :=
  if above (Some x) M then default x M else if below (Some x) m then m else x.

Lemma limit_fitting m M x : (0 < m)%Q -> match M with Some M => (m <= M)%Q | None => True end -> fitting m M (limit m M x).
Proof.
  unfold fitting, limit, above, below. intros Hm HM. destruct M as [M|]; cbn [default from_option id].
  - destruct (Qeqb_reflect M 0); [lra|]. cbn [negb andb]. destruct (qless_reflect M x); [split; lra|].
    destruct (Qeqb_reflect m 0); [lra|]. cbn [negb andb]. destruct (qless_reflect x m); split; lra.
  - destruct (Qeqb_reflect m 0); [lra|]. cbn [negb andb]. destruct (qless_reflect x m); (split; [lra|done]).
Qed.

(** ** One move *)

(** The data of a move that keep the other sides: [l] is the attribute of a side, [x] the
    length, [far] the sum they should have, when the side moves. *)
Definition far_side (moves : bool) (l x : option Q) (far : Q) : Prop :=
  if moves then exists a b, l = Some a /\ x = Some b /\ (a + b == far)%Q else l = None.

Definition olimit (m : Q) (M : option Q) (x : option Q) : option Q := limit m M <$> x.

Lemma olimit_above m M x : above x M = true -> olimit m M x = M.
Proof. destruct x as [x|], M as [M|]; try done. intros H. cbn [olimit fmap option_fmap option_map]. unfold limit. by rewrite H. Qed.
Lemma olimit_below m M x : above x M = false -> below x m = true -> olimit m M x = Some m.
Proof. intros H1 H2. destruct x as [x|]; [|done]. cbn [olimit fmap option_fmap option_map]. unfold limit. by rewrite H1, H2. Qed.
Lemma olimit_same m M x : above x M = false -> below x m = false -> olimit m M x = x.
Proof. intros H1 H2. destruct x as [x|]; [|done]. cbn [olimit fmap option_fmap option_map]. unfold limit. by rewrite H1, H2. Qed.

Lemma far_side_limit (moves : bool) (m : Q) (M : option Q) (l x : option Q) far :
  far_side moves l x far ->
  far_side moves
    (if above x M && moves then (fun m => far - m)%Q <$> M else if below x m && moves then Some (far - m)%Q else l)
    (olimit m M x) far.
Proof.
  unfold far_side. destruct moves; [|by rewrite !andb_false_r]. intros (a & b & -> & -> & H). rewrite !andb_true_r.
  destruct (above (Some b) M) eqn:A.
  - rewrite (olimit_above _ _ _ A). destruct M as [M|]; [|done]. exists (far - M)%Q, M. split_and!; [done..|lra].
  - destruct (below (Some b) m) eqn:B.
    + rewrite (olimit_below _ _ _ A B). exists (far - m)%Q, m. split_and!; [done..|lra].
    + rewrite (olimit_same _ _ _ A B). by exists a, b.
Qed.

Lemma far_side_eq moves l x far far' : (far == far')%Q -> far_side moves l x far -> far_side moves l x far'.
Proof. unfold far_side. destruct moves; [|done]. intros H (a & b & -> & -> & H'). exists a, b. split_and!; [done..|lra]. Qed.

Lemma far_side_default (moves : bool) l x far l0 x0 : far_side moves l x far ->
  if moves then (default l0 l + default x0 x == far)%Q else default l0 l = l0.
Proof. unfold far_side. destruct moves; [|by intros ->]. by intros (a & b & -> & -> & H). Qed.

(** [_respectSize] without its last correction, which only concerns a size of 0. *)
Lemma respectSize_spec a b s d :
  (0 < minWidth b)%Q -> (0 < minHeight b)%Q ->
  match maxWidth b with Some M => (minWidth b <= M)%Q | None => True end ->
  match maxHeight b with Some M => (minHeight b <= M)%Q | None => True end ->
  d_width d <> None \/ d_height d <> None ->
  respectSize a b s d =
    let far := (left (original s) + width (original s))%Q in
    let low := (top (current s) + height (current s))%Q in
    mk_data
      (if above (d_width d) (maxWidth b) && is_west a then (fun m => far - m)%Q <$> maxWidth b
       else if below (d_width d) (minWidth b) && is_west a then Some (far - minWidth b)%Q else d_left d)
      (if above (d_height d) (maxHeight b) && is_north a then (fun m => low - m)%Q <$> maxHeight b
       else if below (d_height d) (minHeight b) && is_north a then Some (low - minHeight b)%Q else d_top d)
      (olimit (minWidth b) (maxWidth b) (d_width d)) (olimit (minHeight b) (maxHeight b) (d_height d)).
Proof.
  intros Hw Hh HW HH Hd. unfold respectSize. cbn zeta.
  set (r := mk_data _ _ _ _). set (d' := if above (d_height d) (maxHeight b) && is_north a then _ else _).
  assert (d' = r) as ->.
  { subst d' r. destruct d as [l t w h]. cbn [d_left d_top d_width d_height].
    destruct (above w (maxWidth b)) eqn:A1, (above h (maxHeight b)) eqn:A2;
    destruct (below w (minWidth b)) eqn:B1, (below h (minHeight b)) eqn:B2;
    destruct (is_west a), (is_north a); cbn [andb];
    rewrite ?(olimit_above _ _ _ A1), ?(olimit_above _ _ _ A2), ?(olimit_below _ _ _ A1 B1), ?(olimit_below _ _ _ A2 B2),
      ?(olimit_same _ _ _ A1 B1), ?(olimit_same _ _ _ A2 B2); reflexivity. }
  assert (negb (given (d_width r)) && negb (given (d_height r)) = false) as ->; [|done].
  assert (forall m M x, (0 < m)%Q -> match M with Some M => (m <= M)%Q | None => True end -> given (Some (limit m M x)) = true) as Hg.
  { intros m M x Hm HM. cbn. destruct (limit_fitting m M x Hm HM) as [H _]. destruct (Qeqb_reflect (limit m M x) 0); [lra|done]. }
  subst r. cbn [d_width d_height]. destruct d as [l t [w|] [h|]]; cbn [olimit fmap option_fmap option_map d_width d_height] in *.
  - by rewrite Hg.
  - by rewrite Hg.
  - rewrite (Hg (minHeight b)) by done. by rewrite andb_false_r.
  - by destruct Hd.
Qed.

(** ** The bounds of a ratio *)

Section bounds.
(** The bounds of the options. *)
Context (mw mh : Q) (Mw Mh : option Q) (Hmw : (0 < mw)%Q) (Hmh : (0 < mh)%Q).

(** A ratio of width to height that the bounds allow. *)
Definition possible (r : Q) : Prop :=
  (0 < r)%Q /\ match Mw with Some M => (mw <= M)%Q /\ (mh * r <= M)%Q | None => True end /\
  match Mh with Some M => (mh <= M)%Q /\ (mw <= M * r)%Q | None => True end.

Definition in_bounds (b : rbox) : Prop := fitting mw Mw (width b) /\ fitting mh Mh (height b).

Lemma in_bounds_possible b : in_bounds b -> possible (width b / height b).
Proof.
  intros [[W1 W2] [H1 H2]]. set (w := width b) in *. set (h := height b) in *.
  assert (0 < h)%Q as Hh by lra. assert (w / h * h == w)%Q as E by (field; lra). split; [apply Qlt_shift_div_l; lra|].
  assert (0 < w / h)%Q as Hr by (apply Qlt_shift_div_l; lra). set (r := (w / h)%Q) in *. clearbody r. split.
  - destruct Mw as [M|]; [|done]. split; [lra|]. apply Qle_trans with (h * r)%Q; [by apply Qmult_le_compat_r; [|lra]|lra].
  - destruct Mh as [M|]; [|done]. split; [lra|]. apply Qle_trans with (h * r)%Q; [lra|by apply Qmult_le_compat_r; [|lra]].
Qed.

Definition within (s : resizable) : Prop :=
  o_minWidth s = Some mw /\ o_minHeight s = Some mh /\ o_maxWidth s = Mw /\ o_maxHeight s = Mh.

Lemma div_le a b r : (0 < r)%Q -> (a <= b * r)%Q <-> (a / r <= b)%Q.
Proof.
  intros Hr. split; intros H; [by apply Qle_shift_div_r|].
  assert (a == a / r * r)%Q as -> by (field; lra). apply Qmult_le_compat_r; [done|lra].
Qed.

Lemma mult_le a b r : (0 < r)%Q -> (a * r <= b)%Q <-> (a <= b / r)%Q.
Proof.
  intros Hr. split; intros H; [by apply Qle_shift_div_l|].
  assert (b == b / r * r)%Q as -> by (field; lra). apply Qmult_le_compat_r; [done|lra].
Qed.

(** The bounds of a move are not wider than those of the options, and not empty. *)
Lemma virtual_bounds ratio s : within s -> possible (aspectRatio s) ->
  let b := updateVirtualBoundaries ratio s in
  (mw <= minWidth b)%Q /\ (mh <= minHeight b)%Q /\
  match maxWidth b with Some M => (minWidth b <= M)%Q | None => True end /\
  match maxHeight b with Some M => (minHeight b <= M)%Q | None => True end /\
  (forall x, fitting (minWidth b) (maxWidth b) x -> fitting mw Mw x) /\
  (forall x, fitting (minHeight b) (maxHeight b) x -> fitting mh Mh x).
Proof.
  intros (E1 & E2 & E3 & E4) (Hr & HW & HH). unfold updateVirtualBoundaries. rewrite E1, E2, E3, E4.
  set (r := aspectRatio s) in *. cbn [default from_option id minWidth maxWidth minHeight maxHeight]. unfold fitting. destruct ratio; cbn zeta.
  2:{ cbn. split_and!; try lra; try done; destruct Mw, Mh; lra || done. }
  cbn [minWidth maxWidth minHeight maxHeight].
  assert (match Mw with Some M => (mw <= M)%Q /\ (mh * r <= M)%Q /\ (mh <= M / r)%Q /\ (mw / r <= M / r)%Q | None => True end) as FW.
  { destruct Mw as [M|]; [|done]. destruct HW as [A B]. split_and!; try done; [by apply mult_le|]. apply Qmult_le_compat_r; [done|].
    apply Qlt_le_weak, Qinv_lt_0_compat, Hr. }
  assert (match Mh with Some K => (mh <= K)%Q /\ (mw <= K * r)%Q /\ (mw / r <= K)%Q /\ (mh * r <= K * r)%Q | None => True end) as FH.
  { destruct Mh as [K|]; [|done]. destruct HH as [A B]. split_and!; try done; [by apply div_le|]. apply Qmult_le_compat_r; [done|lra]. }
  clear HW HH E1 E2 E3 E4. set (a := (mw / r)%Q) in *. set (c := (mh * r)%Q) in *. clearbody a c.
  destruct Mw as [M|], Mh as [K|]; cbn [smaller fmap option_fmap option_map];
    try set (e := (M / r)%Q) in *; try set (f := (K * r)%Q) in *; try clearbody e; try clearbody f;
    qcases; split_and!; intros; split_and?; try done; try lra; destruct_and?; try split; try done; lra.
Qed.
(** ** The invariant *)

(** The sides that are not dragged are where they were. *)
Definition edges (a : handle) (s : resizable) : Prop :=
  let c := current s in let o := original s in
  (if is_west a then (left c + width c == left o + width o)%Q else (left c == left o)%Q) /\
  (if is_north a then (top c + height c == top o + height o)%Q else (top c == top o)%Q).

Definition move_data (a : handle) (ratio : bool) (s : resizable) (dx dy : Q) : rdata :=
  let d := change a (original s) dx dy in if ratio then updateRatio a s d else d.

Lemma move_data_given a ratio s dx dy : d_width (move_data a ratio s dx dy) <> None \/ d_height (move_data a ratio s dx dy) <> None.
Proof. destruct ratio, a; cbn; auto. Qed.

Lemma move_data_far a ratio s dx dy : edges a s ->
  let d := move_data a ratio s dx dy in
  far_side (is_west a) (d_left d) (d_width d) (left (original s) + width (original s)) /\
  far_side (is_north a) (d_top d) (d_height d) (top (original s) + height (original s)).
Proof.
  intros [H1 H2]. destruct ratio, a; cbn in H1, H2 |- *; split; try done; eexists _, _; split_and!; try reflexivity; lra.
Qed.

Definition told_box (e : revent) : rbox := match e with ResizeStart b | Resize b | ResizeStop b => b end.

Record fine (s : resizable) : Prop := {
  fi_options : within s;
  fi_grid : o_grid s = None;
  fi_el : in_bounds (el s);
  fi_current : in_bounds (current s);
  fi_ratio : possible (aspectRatio s);
  fi_number : match o_ratio s with Some r => possible r | None => True end;
  fi_told : Forall (fun e => in_bounds (told_box e)) (told s);
  fi_edges : resizing s = true -> match axis s with Some a => edges a s | None => True end;
}.

(** A move, without its event. *)
Definition moved (a : handle) (ratio : bool) (s : resizable) (dx dy : Q) : resizable :=
  updateCache (respectSize a (updateVirtualBoundaries ratio s) s (move_data a ratio s dx dy)) (s <| el := current s |>).

Lemma moved_bounds a ratio s dx dy : fine s -> in_bounds (current (moved a ratio s dx dy)).
Proof.
  intros H. pose proof (virtual_bounds ratio s (fi_options s H) (fi_ratio s H)) as (V1 & V2 & V3 & V4 & V5 & V6).
  unfold moved. rewrite respectSize_spec; [|lra|lra|done|done|apply move_data_given]. cbn zeta. set (d := move_data _ _ _ _ _). clearbody d.
  destruct (fi_current s H) as [C1 C2]. split; cbn [current updateCache width height d_width d_height set_field].
  - change (fitting mw Mw (default (width (current s)) (olimit (minWidth (updateVirtualBoundaries ratio s)) (maxWidth (updateVirtualBoundaries ratio s)) (d_width d)))).
    destruct (d_width d) as [w|]; [|exact C1]. apply V5, limit_fitting; [lra|done].
  - change (fitting mh Mh (default (height (current s)) (olimit (minHeight (updateVirtualBoundaries ratio s)) (maxHeight (updateVirtualBoundaries ratio s)) (d_height d)))).
    destruct (d_height d) as [w|]; [|exact C2]. apply V6, limit_fitting; [lra|done].
Qed.

Lemma moved_edges a ratio s dx dy : fine s -> edges a s -> edges a (moved a ratio s dx dy).
Proof.
  intros H He. pose proof (virtual_bounds ratio s (fi_options s H) (fi_ratio s H)) as (V1 & V2 & V3 & V4 & _ & _).
  unfold moved. rewrite respectSize_spec; [|lra|lra|done|done|apply move_data_given].
  destruct (move_data_far a ratio s dx dy He) as [F1 F2]. cbn zeta. set (d := move_data _ _ _ _ _) in *. clearbody d.
  set (b := updateVirtualBoundaries ratio s) in *. destruct He as [E1 E2].
  apply (far_side_limit _ (minWidth b) (maxWidth b)) in F1.
  assert (if is_north a then (top (original s) + height (original s) == top (current s) + height (current s))%Q else True) as Hlow
    by (destruct (is_north a); [lra|done]).
  assert (far_side (is_north a) (d_top d) (d_height d) (top (current s) + height (current s))) as F3.
  { destruct (is_north a); [by eapply far_side_eq|exact F2]. }
  apply (far_side_limit _ (minHeight b) (maxHeight b)) in F3. clear F2.
  split; cbn [current original updateCache set_field left top width height d_left d_top d_width d_height].
  - apply (far_side_default _ _ _ _ (left (current s)) (width (current s))) in F1. destruct (is_west a); [exact F1|]. by rewrite F1.
  - apply (far_side_default _ _ _ _ (top (current s)) (height (current s))) in F3.
    destruct (is_north a); [by rewrite F3, Hlow|]. by rewrite F3.
Qed.

Section use.
Context (handle_of : nat -> option handle) (shiftKey : mevent -> bool).

Lemma drag_unfold e s a : o_grid s = None -> axis s = Some a ->
  resize_drag shiftKey e s =
    let s' := moved a (o_aspect s || shiftKey e) s (pageX e - fst (originalMouse s)) (pageY e - snd (originalMouse s)) in
    tell (Resize (current s')) s'.
Proof. intros Hg Ha. unfold resize_drag. rewrite Ha. cbn zeta. by rewrite Hg. Qed.

Lemma sized_drag e s : fine s -> fine (resize_drag shiftKey e s).
Proof.
  intros H. destruct (axis s) as [a|] eqn:Ea; [|unfold resize_drag; by rewrite Ea].
  rewrite (drag_unfold e s a (fi_grid s H) Ea). cbn zeta. set (ratio := _ || _). set (dx := (pageX e - _)%Q). set (dy := (pageY e - _)%Q).
  pose proof (moved_bounds a ratio s dx dy H) as Hb. pose proof (moved_edges a ratio s dx dy H) as He.
  split; try apply H; try done.
  - apply Forall_app. split; [apply H|]. apply Forall_cons. by split.
  - change (resizing s = true -> match axis s with Some a' => edges a' (moved a ratio s dx dy) | None => True end).
    intros Hr. rewrite Ea. apply He. pose proof (fi_edges s H Hr) as H1. by rewrite Ea in H1.
Qed.

Lemma sized_start e s : fine s -> fine (resize_start e s).
Proof.
  intros H. pose proof (fi_el s H) as Hel. split; try apply H; try done.
  - change (possible (match o_ratio s with Some r => r | None => if Qeq_bool (width (el s) / height (el s)) 0 then 1%Q else (width (el s) / height (el s))%Q end)).
    pose proof (fi_number s H) as Hn. destruct (o_ratio s) as [r|]; [done|]. pose proof (in_bounds_possible (el s) Hel) as Hp.
    destruct (Qeqb_reflect (width (el s) / height (el s)) 0); [|done]. destruct Hp as [Hp _]. lra.
  - apply Forall_app. split; [apply H|]. apply Forall_cons. by split.
  - intros _. cbn. destruct (axis s) as [a|]; [|done]. split; cbn; [by destruct (is_west a)|by destruct (is_north a)].
Qed.

Lemma sized_stop e s : fine s -> fine (resize_stop e s).
Proof.
  intros H. split; try apply H; try done. apply Forall_app. split; [apply H|]. apply Forall_cons. split; [apply H|done].
Qed.

Lemma sized_over t s : fine s -> fine (mouseover handle_of t s).
Proof.
  intros H. unfold mouseover. destruct (resizing s) eqn:E; [done|]. destruct (handle_of t); [|done].
  split; try apply H. cbn. by rewrite E.
Qed.

Lemma sized_disable b s : fine s -> fine (s <| o_disabled := b |>).
Proof. intros H. by split; apply H. Qed.

Context (mo : mouse_options).

Lemma acts_inv (P : resizable -> Prop) l w :
  (forall e s, P s -> P (resize_start e s)) -> (forall e s, P s -> P (resize_drag shiftKey e s)) -> (forall e s, P s -> P (resize_stop e s)) ->
  (forall t s, P s -> P (mouseover handle_of t s)) -> (forall b s, P s -> P (s <| o_disabled := b |>)) ->
  P (snd w) -> exists w', resize_acts handle_of shiftKey mo l w = Some w' /\ P (snd w').
Proof.
  intros H1 H2 H3 H4 H5. revert w. induction l as [|a l IH]; intros w H; [by exists w|]. cbn [resize_acts]. destruct a as [a|t|b]; cbn [resize_act].
  - destruct (mouse_act_inv (H := resizable_plugin handle_of shiftKey) mo P) with (a := a) (w := w) as (w' & E' & H'); try done.
    + intros e s Hs. eexists _, _. split; [reflexivity|done].
    + intros e e' s Hs. by apply H1.
    + rewrite E'. by apply IH.
  - apply IH. by apply H4.
  - apply IH. by apply H5.
Qed.
End use.

(** ** Shapes *)

Lemma limit_scale m M m' M' x x' r : (0 < r)%Q -> (0 < m)%Q -> (m' == m * r)%Q -> (x' == x * r)%Q ->
  match M, M' with Some M, Some M' => (0 < M)%Q /\ (M' == M * r)%Q | None, None => True | _, _ => False end ->
  (limit m' M' x' == limit m M x * r)%Q.
Proof.
  intros Hr Hm Em Ex HM. assert (0 < m')%Q as Hm' by (rewrite Em; by apply Qmult_lt_0_compat).
  assert (forall a b, (a < b)%Q <-> (a * r < b * r)%Q) as Hlt by (intros a b; symmetry; by apply Qmult_lt_r).
  assert (qless x' m' = qless x m) as Eb by (destruct (qless_reflect x' m') as [L|L], (qless_reflect x m) as [K|K]; try done;
    [destruct K; apply Hlt; lra|destruct L; apply Hlt in K; lra]).
  unfold limit, above, below. rewrite Eb. destruct (Qeqb_reflect m 0), (Qeqb_reflect m' 0); try lra. cbn [negb andb].
  destruct M as [M|], M' as [M'|]; try done; cbn [default from_option id].
  - destruct HM as [HM EM]. assert (0 < M')%Q as HM' by (rewrite EM; by apply Qmult_lt_0_compat).
    assert (qless M' x' = qless M x) as -> by (destruct (qless_reflect M' x') as [L|L], (qless_reflect M x) as [K|K]; try done;
      [destruct K; apply Hlt; lra|destruct L; apply Hlt in K; lra]).
    destruct (Qeqb_reflect M 0), (Qeqb_reflect M' 0); try lra. cbn [negb andb]. destruct (qless M x); [done|]. by destruct (qless x m).
  - by destruct (qless x m).
Qed.

Lemma virtual_ratio s : within s -> possible (aspectRatio s) ->
  let b := updateVirtualBoundaries true s in
  (minWidth b == minHeight b * aspectRatio s)%Q /\
  match maxHeight b, maxWidth b with Some M, Some M' => (0 < M)%Q /\ (M' == M * aspectRatio s)%Q | None, None => True | _, _ => False end.
Proof.
  intros (E1 & E2 & E3 & E4) (Hr & HW & HH). unfold updateVirtualBoundaries. rewrite E1, E2, E3, E4.
  set (r := aspectRatio s) in *. cbn [default from_option id minWidth maxWidth minHeight maxHeight]. cbn zeta. split.
  - pose proof (div_le mw mh r Hr). assert (mw == mw / r * r)%Q by (field; lra).
    destruct (qless_reflect mw (mh * r)), (qless_reflect mh (mw / r)); lra.
  - destruct Mw as [M|], Mh as [K|]; cbn [smaller fmap option_fmap option_map]; [|split|split|done].
    + pose proof (div_le M K r Hr). assert (M == M / r * r)%Q by (field; lra). assert (0 < M / r)%Q by (apply Qlt_shift_div_l; lra).
      pose proof (div_le K M r Hr). pose proof (mult_le K M r Hr).
      destruct (qless_reflect (K * r) M), (qless_reflect (M / r) K); split; try lra; exfalso; lra.
    + apply Qlt_shift_div_l; lra.
    + field; lra.
    + lra.
    + reflexivity.
Qed.

Lemma moved_shape a s dx dy : fine s -> (width (current (moved a true s dx dy)) == height (current (moved a true s dx dy)) * aspectRatio s)%Q.
Proof.
  intros H. pose proof (fi_ratio s H) as Hp. pose proof (virtual_bounds true s (fi_options s H) Hp) as (V1 & V2 & V3 & V4 & _ & _).
  pose proof (virtual_ratio s (fi_options s H) Hp) as [R1 R2]. destruct Hp as [Hr _].
  unfold moved. rewrite respectSize_spec; [|lra|lra|done|done|apply move_data_given]. cbn zeta.
  set (d := move_data _ _ _ _ _). set (b := updateVirtualBoundaries true s) in *.
  assert (exists w h, d_width d = Some w /\ d_height d = Some h /\ (w == h * aspectRatio s)%Q) as (w & h & Ew & Eh & E).
  { subst d. clear -Hr. destruct a; cbn; eexists _, _; split_and!; try reflexivity; field; lra. }
  clearbody d b. cbn [current updateCache set_field d_width d_height width height]. rewrite Ew, Eh. cbn [olimit fmap option_fmap option_map default from_option id].
  by apply limit_scale; [|lra| | |].
Qed.

(** While an element whose shape is kept is resized, the ratio is that of the beginning. *)
Definition shaped (s : resizable) : Prop :=
  fine s /\ (o_aspect s = true -> o_ratio s = None -> resizing s = true ->
    (aspectRatio s == width (original s) / height (original s))%Q /\ (width (current s) == height (current s) * aspectRatio s)%Q).

Section use.
Context (handle_of : nat -> option handle) (shiftKey : mevent -> bool).

Lemma shaped_start e s : shaped s -> shaped (resize_start e s).
Proof.
  intros [H _]. split; [by apply sized_start|]. intros _ Hn _. cbn in Hn |- *. rewrite Hn. pose proof (in_bounds_possible _ (fi_el s H)) as [Hp _].
  destruct (fi_el s H) as [_ [Hh _]]. destruct (Qeqb_reflect (width (el s) / height (el s)) 0); [lra|]. split; [reflexivity|]. field. lra.
Qed.

Lemma shaped_drag e s : shaped s -> shaped (resize_drag shiftKey e s).
Proof.
  intros [H Hs]. split; [by apply sized_drag|]. destruct (axis s) as [a|] eqn:Ea; [|unfold resize_drag; by rewrite Ea].
  rewrite (drag_unfold shiftKey e s a (fi_grid s H) Ea). cbn zeta. set (dx := (pageX e - _)%Q). set (dy := (pageY e - _)%Q).
  intros Ha Hn Hr. destruct (Hs Ha Hn Hr) as [E1 _]. change (o_aspect s = true) in Ha. rewrite Ha. split; [exact E1|]. exact (moved_shape a s dx dy H).
Qed.

Lemma shaped_stop e s : shaped s -> shaped (resize_stop e s).
Proof. intros [H _]. split; [by apply sized_stop|]. done. Qed.

Lemma shaped_over t s : shaped s -> shaped (mouseover handle_of t s).
Proof.
  intros [H Hs]. split; [by apply sized_over|]. unfold mouseover. destruct (resizing s) eqn:Er; [by rewrite Er|].
  destruct (handle_of t); [|by rewrite Er]. cbn. by rewrite Er.
Qed.
End use.
End bounds.

(** ** The property *)

Section property.
Context (mw mh : Q) (Mw Mh : option Q) (aspect : bool) (ratio : option Q) (box : rbox).
Context (handle_of : nat -> option handle) (shiftKey : mevent -> bool) (mo : mouse_options).

End property.

(** ** Runs

    An element of 100 by 50 pixels with handles, and the places where the code does
    not do what it means to. *)


Definition handles (t : nat) : option handle :=
  match t with 1 => Some E | 2 => Some W | 3 => Some SE | 4 => Some NW | _ => None end%nat.
Definition shift (e : mevent) : bool := button e =? 9.
Definition usual : mouse_options := mk_mouse_options 1 0 false.
Definition at_ (t : nat) (x y : Q) : mevent := mk_mevent t x y 1 1 false.
Definition photo : rbox := mk_box 10 20 100 50.

Definition run (l : list raction) (s : resizable) : option resizable := snd <$> resize_acts handles shift usual l (mouseInit, s).
(** Drag the handle [t] from the origin through some points, and let it go. *)
Definition drag (t : nat) (l : list (Q * Q)) : list raction :=
  Over t :: MouseOn (Press (at_ t 0 0)) :: ((fun p : Q * Q => MouseOn (Move (at_ t p.1 p.2))) <$> l) ++ [MouseOn (Release (at_ t 0 0))].

Definition box_eqb (a b : rbox) : bool :=
  Qeq_bool (left a) (left b) && Qeq_bool (top a) (top b) && Qeq_bool (width a) (width b) && Qeq_bool (height a) (height b).
Definition ends (l : list raction) (s : resizable) (shown size : rbox) : bool :=
  match run l s with Some s => box_eqb (el s) shown && box_eqb (current s) size | None => false end.

Definition plain_create : resizable := create false None (Some 10%Q) (Some 300%Q) (Some 10%Q) (Some 200%Q) None photo.

Example dragged : ends (drag 3 [(20, 10); (30, 15); (30, 15)]%Q) plain_create (mk_box 10 20 130 65) (mk_box 10 20 130 65) = true.
Proof. reflexivity. Qed.
(** The upper left corner beyond the bounds; the lower right corner stays. *)
Example dragged_far : ends (drag 4 [(95, 45); (95, 45)]%Q) plain_create (mk_box 100 60 10 10) (mk_box 100 60 10 10) = true.
Proof. reflexivity. Qed.


(** *** Where the code does not do what it means to *)

(** The style is set before the new size is stored: the element shows the size of the move
    before, and the last move is never shown. *)
Example one_move_behind : ends (drag 1 [(50, 0)]%Q) plain_create (mk_box 10 20 100 50) (mk_box 10 20 150 50) = true.
Proof. reflexivity. Qed.
Example last_move_not_shown : ends (drag 1 [(50, 0); (70, 0)]%Q) plain_create (mk_box 10 20 150 50) (mk_box 10 20 170 50) = true.
Proof. reflexivity. Qed.

(** The grid rounds the size of the move before, and what it rounded is overwritten:
    listeners are told sizes beside the grid.  It knows no bounds. *)
Definition with_grid : resizable := create false None (Some 10%Q) (Some 300%Q) (Some 10%Q) (Some 200%Q) (Some (30, 30)%Q) photo.
Example grid_overwritten : ends (drag 1 [(41, 0); (41, 0)]%Q) with_grid (mk_box 10 20 130 50) (mk_box 10 20 141 50) = true.
Proof. reflexivity. Qed.
Example grid_below_minimum :
  ends (drag 1 [(-95, 0); (-95, 0)]%Q) (create false None (Some 20%Q) None (Some 10%Q) None (Some (30, 30)%Q) photo) (mk_box 10 20 10 50) (mk_box 10 20 20 50) = true.
Proof. reflexivity. Qed.

(** A minimum of 0 is none: listeners are told a negative width. *)
Example negative_width : ends (drag 1 [(-150, 0)]%Q) (create false None (Some 0%Q) None (Some 10%Q) None None photo) (mk_box 10 20 100 50) (mk_box 10 20 (-50) 50) = true.
Proof. reflexivity. Qed.
