(* ===== verification/UiDraggable.v ===== *)
(** * Draggable of jQuery UI

    Models the widget [ui.draggable] of [2019104287/code/WebContent/js/jquery-ui.js] over
    the mouse ([mouse_plugin]): helpers, containment, grid, reverting and events.  What it
    asks of the manager of droppables is the interface [drop_host].  Where the element is
    on the page is an argument; listeners of [drag] do not stop the drag; scrolling,
    snapping, stacks and connected sortables are left out. *)

From S2P Require Export UiMouse.
From Stdlib Require Export Qround.
Open Scope Z_scope.

(** What the manager learns of a drag: [positionAbs], the size of the helper, and where it
    was taken. *)
Record dragged := mk_dragged { x1 : Q; y1 : Q; d_width : Q; d_height : Q; d_click : Q * Q }.

(** [$.ui.ddmanager]: [prepareOffsets] (is the event that of the press), [drag] and
    [drop]. *)
Class drop_host (M : Type) := {
  prepareOffsets : bool -> M -> M;
  dd_drag : dragged -> M -> M;
  dd_drop : dragged -> M -> M * bool;
}.

Module Draggable.

Inductive axis_option := AxisAny | AxisX | AxisY.
Inductive revert_option := RevertNo | RevertYes | RevertInvalid | RevertValid | RevertAsk (f : bool -> bool).
#[global] Instance axis_eq_dec : EqDecision axis_option.
Proof. solve_decision. Defined.

(** Left, top, right and bottom. *)
Record sides := mk_sides { s_left : Q; s_top : Q; s_right : Q; s_bottom : Q }.

(** The option [containment]: an array; the document or the window, with its scroll
    position and size; an element, with its offset, the widths of its borders and
    paddings, and the size of what it holds. *)
Inductive containment_option :=
  | NoContainment
  | InArray (b : sides)
  | InDocument (w h : Q)
  | InWindow (scroll : Q * Q) (w h : Q)
  | InElement (offset : Q * Q) (border padding : sides) (w h : Q).

Inductive devent := DragStart (p : Q * Q) | Drag (p : Q * Q) | DragStop (p : Q * Q).

(** Where an element with a given style is: [element.offset()], its margins, its size, and
    the offsets [relative] and [parent] and the scroll position that [_generatePosition]
    subtracts. *)
Record layout := mk_layout { l_offset : Q * Q; l_margins : sides; l_width : Q; l_height : Q; l_relative : Q * Q; l_parent : Q * Q; l_scroll : Q * Q }.

(** [el] is the style of the element, [helper] that of the helper while there is one;
    [containment] are the bounds and the container they are relative to. *)
Record draggable := mk_draggable {
  o_axis : axis_option; o_containment : containment_option; o_grid : option (Q * Q); o_revert : revert_option; o_clone : bool;
  o_cursorAt : option (Q * Q); o_disabled : bool;
  el : Q * Q; helper : option (Q * Q); reverting : bool;
  page_layout : layout; click : Q * Q; position : Q * Q; positionAbs : Q * Q; originalPosition : option (Q * Q); originalPage : Q * Q;
  containment : option (sides * option (Q * Q)); told : list devent;
}.
#[export] Instance draggable_eta : Settable draggable := fun s =>
  mk_draggable (o_axis s) (o_containment s) (o_grid s) (o_revert s) (o_clone s) (o_cursorAt s) (o_disabled s)
    (el s) (helper s) (reverting s) (page_layout s) (click s) (position s) (positionAbs s) (originalPosition s) (originalPage s)
    (containment s) (told s).

Definition tell (e : devent) (s : draggable) : draggable := s <| told := told s ++ [e] |>.

(** ** Positions *)

Definition round (q : Q) : Q := inject_Z (Qfloor (q + (1 # 2))%Q).

(** One coordinate of [_generatePosition]: of the mouse, where the element was taken, the
    bounds, the grid, and the mouse at the beginning. *)
Definition clamp (page click : Q) (bounds : option (Q * Q)) : Q :=
  match bounds with
  | Some (a, b) =>
      let p := if qless (page - click) a then (a + click)%Q else page in
      if qless b (page - click) then (b + click)%Q else p
  | None => page
  end.

Definition on_grid (page click : Q) (bounds : option (Q * Q)) (grid : option Q) (start : Q) : Q :=
  match grid with
  | None => page
  | Some g =>
      let p := if Qeq_bool g 0 then start else (start + round ((page - start) / g) * g)%Q in
      match bounds with
      | Some (a, b) =>
          if negb (qless (p - click) a || qless b (p - click)) then p
          else if negb (qless (p - click) a) then (p - g)%Q else (p + g)%Q
      | None => p
      end
  end.

(** [containment] with the offset of its container. *)
Definition bounds_of (s : draggable) : option sides :=
  match containment s with
  | Some (b, Some co) => Some (mk_sides (s_left b + co.1) (s_top b + co.2) (s_right b + co.1) (s_bottom b + co.2))
  | Some (b, None) => Some b
  | None => None
  end.

Definition constrain (e : mevent) (s : draggable) : Q * Q :=
  match originalPosition s with
  | None => (pageX e, pageY e)
  | Some _ =>
      let bx := (fun b => (s_left b, s_right b)) <$> bounds_of s in
      let by_ := (fun b => (s_top b, s_bottom b)) <$> bounds_of s in
      (on_grid (clamp (pageX e) (click s).1 bx) (click s).1 bx (fst <$> o_grid s) (originalPage s).1,
       on_grid (clamp (pageY e) (click s).2 by_) (click s).2 by_ (snd <$> o_grid s) (originalPage s).2)
  end.

Definition generatePosition (e : mevent) (s : draggable) : Q * Q :=
  let p := constrain e s in
  let l := page_layout s in
  ((p.1 - (click s).1 - (l_relative l).1 - (l_parent l).1 + (l_scroll l).1)%Q,
   (p.2 - (click s).2 - (l_relative l).2 - (l_parent l).2 + (l_scroll l).2)%Q).

(** [_convertPositionTo("absolute")]. *)
Definition to_absolute (s : draggable) (p : Q * Q) : Q * Q :=
  let l := page_layout s in
  ((p.1 + (l_relative l).1 + (l_parent l).1 - (l_scroll l).1)%Q, (p.2 + (l_relative l).2 + (l_parent l).2 - (l_scroll l).2)%Q).

Definition setContainment (s : draggable) : draggable :=
  let l := page_layout s in
  let m := l_margins l in
  match o_containment s with
  | NoContainment => s
  | InArray b => s <| containment := Some (b, match containment s with Some (_, co) => co | None => None end) |>
  | InDocument w h => s <| containment := Some (mk_sides 0 0 (w - l_width l - s_left m) (h - l_height l - s_top m), match containment s with Some (_, co) => co | None => None end) |>
  | InWindow scroll w h =>
      s <| containment := Some
        (mk_sides (scroll.1 - (l_relative l).1 - (l_parent l).1) (scroll.2 - (l_relative l).2 - (l_parent l).2)
           (scroll.1 + w - l_width l - s_left m) (scroll.2 + h - l_height l - s_top m), match containment s with Some (_, co) => co | None => None end) |>
  | InElement offset b p w h =>
      s <| containment := Some
        (mk_sides (s_left b + s_left p) (s_top b + s_top p)
           (w - s_left b - s_right p - l_width l - s_left m - s_right m)
           (h - s_top b - s_bottom p - l_height l - s_top m - s_bottom m), Some offset) |>
  end.

(** [_clear]. *)
Definition clear (s : draggable) : draggable := s <| helper := None |> <| reverting := false |>.

Definition dragged_of (s : draggable) : dragged :=
  mk_dragged (positionAbs s).1 (positionAbs s).2 (l_width (page_layout s)) (l_height (page_layout s)) (click s).

(** The style of the helper, which may be the element. *)
Definition set_style (p : Q * Q) (s : draggable) : draggable :=
  let s := s <| helper := Some p |> in if o_clone s then s else s <| el := p |>.

Section draggable.
Context {M : Type} `{drop_host M}.
(** Where the page puts an element with a given style; whether an event is on a handle of
    the draggable; the answers of listeners. *)
Context (lay : Q * Q -> layout) (on_handle : mevent -> bool) (allow : devent -> bool).

Abbreviation dstate := (draggable * M)%type.

Definition drag_capture (e : mevent) (w : dstate) : option (dstate * bool) :=
  let s := w.1 in
  Some (w, match helper s with Some _ => false | None => negb (o_disabled s) && on_handle e end).

(** [_mouseDrag]; [silent] is [noPropagation]. *)
Definition drag_move (silent : bool) (e : mevent) (w : dstate) : dstate :=
  let '(s, m) := w in
  let s := s <| position := generatePosition e s |> in
  let s := s <| positionAbs := to_absolute s (position s) |> in
  let s := if silent then s else tell (Drag (position s)) s in
  let old := default (el s) (helper s) in
  let s := set_style (if decide (o_axis s = AxisY) then old.1 else (position s).1, if decide (o_axis s = AxisX) then old.2 else (position s).2) s in
  (s, dd_drag (dragged_of s) m).

Definition drag_start (e : mevent) (w : dstate) : dstate * bool :=
  let '(s, m) := w in
  let l := lay (el s) in
  let s := s <| helper := Some (el s) |> <| page_layout := l |> in
  let offset := ((l_offset l).1 - s_left (l_margins l), (l_offset l).2 - s_top (l_margins l))%Q in
  let s := s <| positionAbs := l_offset l |> <| click := ((pageX e - offset.1)%Q, (pageY e - offset.2)%Q) |> in
  let p := generatePosition e s in
  let s := s <| position := p |> <| originalPosition := Some p |> <| originalPage := (pageX e, pageY e) |> in
  let s := match o_cursorAt s with
           | Some c => s <| click := ((c.1 + s_left (l_margins l))%Q, (c.2 + s_top (l_margins l))%Q) |>
           | None => s
           end in
  let s := setContainment s in
  let ev := DragStart (position s) in
  let s := tell ev s in
  if allow ev then (drag_move true e (s, prepareOffsets true m), true)
  else ((clear s, m), false).

(** The end of a drag: [stop] is told, and the helper goes unless that is refused. *)
Definition finish (s : draggable) : draggable :=
  let ev := DragStop (position s) in
  let s := tell ev s in if allow ev then clear s else s.

Definition reverts (o : revert_option) (dropped : bool) : bool :=
  match o with RevertNo => false | RevertYes => true | RevertInvalid => negb dropped | RevertValid => dropped | RevertAsk f => f dropped end.

Definition drag_stop (e : mevent) (w : dstate) : dstate :=
  let '(m, dropped) := dd_drop (dragged_of w.1) w.2 in
  (if reverts (o_revert w.1) dropped then w.1 <| reverting := true |> else finish w.1, m).

(** The end of the animation that takes the helper back. *)
Definition revert_end (s : draggable) : draggable :=
  if reverting s then
    let s := s <| reverting := false |> in
    finish (match originalPosition s with Some p => set_style p s | None => s end)
  else s.

(** The overridden [_mouseUp] looks for the droppables again ([ddmanager.dragStop]). *)
#[export] Instance draggable_plugin : mouse_plugin dstate := {
  beforeUp _ w := (w.1, prepareOffsets false w.2);
  mouseCapture := drag_capture;
  mouseStart e _ := drag_start e;
  mouseDrag := drag_move false;
  mouseStop := drag_stop;
}.

Context (mo : mouse_options).

(** What happens to a draggable: the mouse, the end of an animation, the option
    [disabled], and the method [cancel], which raises an exception without a helper. *)
Inductive daction := MouseOn (a : maction) | RevertEnd | Disable (b : bool) | Cancel.

(** The event [{}], whose target is none. *)
Definition no_event (m : mouse) : mevent :=
  mk_mevent (match mouseDownEvent m with Some d => Datatypes.S (target d) | None => 0%nat end) 0 0 0 0 false.

Definition drag_act (a : daction) (w : mouse * dstate) : option (mouse * dstate) :=
  let '(m, s) := w in
  match a with
  | MouseOn a => mouse_act mo a w
  | RevertEnd => Some (m, (revert_end s.1, s.2))
  | Disable b => Some (m, (s.1 <| o_disabled := b |>, s.2))
  | Cancel => match helper s.1 with Some _ => Some (mouseUp (no_event m) w) | None => None end
  end.
End draggable.

Definition create (ax : axis_option) (c : containment_option) (g : option (Q * Q)) (r : revert_option) (clone : bool) (cursor : option (Q * Q))
    (style : Q * Q) (l : layout) : draggable :=
  mk_draggable ax c g r clone cursor false style None false l (0, 0)%Q (0, 0)%Q (0, 0)%Q None (0, 0)%Q None [].
End Draggable.
