(* ===== verification/UiDroppable.v ===== *)
(** * Droppables of jQuery UI

    Models the widget [ui.droppable] and [$.ui.ddmanager] of
    [2019104287/code/WebContent/js/jquery-ui.js], the implementation of [drop_host], and the
    page with one draggable and its droppables.  All have one scope; the draggable is no
    droppable and holds none; a droppable is not destroyed. *)

From S2P Require Export UiDraggable.

Module Droppable.

Inductive tolerance := Fit | Intersect | Pointer | Touch | NoTolerance.

(** What listeners are told, of the droppable with an index. *)
Inductive pevent := Activate | Deactivate | Over | Out | Drop.
#[global] Instance pevent_eq_dec : EqDecision pevent.
Proof. solve_decision. Defined.

(** [accept] says whether the draggable is accepted, [box] and [display] are what the page
    shows, [parent] is the nearest droppable around, and [offset] and [proportions] are
    what the manager remembers. *)
Record box_of := mk_box_of { b_left : Q; b_top : Q; b_width : Q; b_height : Q }.
Record droppable := mk_droppable {
  accept : bool; greedy : bool; p_disabled : bool; tol : tolerance; activeClass : bool; hoverClass : bool; parent : option nat;
  box : box_of; display : bool;
  offset : option (Q * Q); proportions : Q * Q; visible : bool; isover : bool; isout : bool; greedyChild : bool;
  has_active : bool; has_hover : bool;
}.
#[export] Instance droppable_eta : Settable droppable := fun p =>
  mk_droppable (accept p) (greedy p) (p_disabled p) (tol p) (activeClass p) (hoverClass p) (parent p) (box p) (display p)
    (offset p) (proportions p) (visible p) (isover p) (isout p) (greedyChild p) (has_active p) (has_hover p).

Record manager := mk_manager { droppables : list droppable; p_told : list (nat * pevent) }.
#[export] Instance manager_eta : Settable manager := fun m => mk_manager (droppables m) (p_told m).

Definition ptell (i : nat) (e : pevent) (m : manager) : manager := m <| p_told := p_told m ++ [(i, e)] |>.
Definition on (i : nat) (f : droppable -> droppable) (m : manager) : manager := m <| droppables := alter f i (droppables m) |>.

(** ** [$.ui.intersect] *)

Definition isOverAxis (x reference size : Q) : bool := qless reference x && qless x (reference + size).

Definition intersect (d : dragged) (p : droppable) : bool :=
  match offset p with
  | None => false
  | Some (l, t) =>
      let x1 := x1 d in let x2 := (x1 + d_width d)%Q in
      let y1 := y1 d in let y2 := (y1 + d_height d)%Q in
      let r := (l + (proportions p).1)%Q in let b := (t + (proportions p).2)%Q in
      match tol p with
      | Fit => Qle_bool l x1 && Qle_bool x2 r && Qle_bool t y1 && Qle_bool y2 b
      | Intersect =>
          qless l (x1 + d_width d / 2) && qless (x2 - d_width d / 2) r && qless t (y1 + d_height d / 2) && qless (y2 - d_height d / 2) b
      | Pointer =>
          isOverAxis (y1 + (d_click d).2) t (proportions p).2 && isOverAxis (x1 + (d_click d).1) l (proportions p).1
      | Touch =>
          (Qle_bool t y1 && Qle_bool y1 b || Qle_bool t y2 && Qle_bool y2 b || qless y1 t && qless b y2) &&
          (Qle_bool l x1 && Qle_bool x1 r || Qle_bool l x2 && Qle_bool x2 r || qless x1 l && qless r x2)
      | NoTolerance => false
      end
  end.

(** ** The methods of a droppable *)

Definition activate (i : nat) (m : manager) : manager :=
  ptell i Activate (on i (fun p => p <| has_active := has_active p || activeClass p |>) m).
Definition deactivate (i : nat) (m : manager) : manager :=
  ptell i Deactivate (on i (fun p => p <| has_active := has_active p && negb (activeClass p) |>) m).

Definition over (i : nat) (m : manager) : manager :=
  match droppables m !! i with
  | Some p => if accept p then ptell i Over (on i (fun p => p <| has_hover := has_hover p || hoverClass p |>) m) else m
  | None => m
  end.
Definition out (i : nat) (m : manager) : manager :=
  match droppables m !! i with
  | Some p => if accept p then ptell i Out (on i (fun p => p <| has_hover := has_hover p && negb (hoverClass p) |>) m) else m
  | None => m
  end.

(** Is the droppable [j] inside of [i]? *)
Fixpoint inside (fuel : nat) (ps : list droppable) (j i : nat) : bool :=
  match fuel, ps !! j with
  | S fuel, Some p => match parent p with Some k => (k =? i)%nat || inside fuel ps k i | None => false end
  | _, _ => false
  end.

Definition offset_now (p : droppable) : droppable := p <| offset := Some (b_left (box p), b_top (box p)) |>.

(** Does a greedy droppable inside of [i] take the draggable?  Those that are asked are
    located again. *)
Fixpoint children_intersect (d : dragged) (js : list nat) (m : manager) : manager * bool :=
  match js with
  | [] => (m, false)
  | j :: js =>
      match droppables m !! j with
      | Some p =>
          if greedy p && negb (p_disabled p) && accept p then
            let m := on j offset_now m in
            if intersect d (offset_now p) then (m, true) else children_intersect d js m
          else children_intersect d js m
      | None => children_intersect d js m
      end
  end.

Definition descendants (m : manager) (i : nat) : list nat :=
  List.filter (fun j => inside (length (droppables m)) (droppables m) j i) (seq 0 (length (droppables m))).

(** [_drop]. *)
Definition drop (d : dragged) (i : nat) (m : manager) : manager * bool :=
  let '(m, taken) := children_intersect d (descendants m i) m in
  match droppables m !! i with
  | Some p =>
      if negb taken && accept p then
        (ptell i Drop (on i (fun p => p <| has_active := has_active p && negb (activeClass p) |> <| has_hover := has_hover p && negb (hoverClass p) |>) m), true)
      else (m, false)
  | None => (m, false)
  end.

(** ** [$.ui.ddmanager] *)

Definition prepare_one (pressed : bool) (m : manager) (i : nat) : manager :=
  match droppables m !! i with
  | Some p =>
      if p_disabled p || negb (accept p) then m
      else
        let m := on i (fun p => p <| visible := display p |>) m in
        if negb (display p) then m
        else
          let m := if pressed then activate i m else m in
          on i (fun p => offset_now p <| proportions := (b_width (box p), b_height (box p)) |>) m
  | None => m
  end.
Definition prepare (pressed : bool) (m : manager) : manager := fold_left (prepare_one pressed) (seq 0 (length (droppables m))) m.

Definition drag_one (d : dragged) (m : manager) (i : nat) : manager :=
  match droppables m !! i with
  | Some p =>
      if p_disabled p || greedyChild p || negb (visible p) then m
      else
        let intersects := intersect d p in
        if Bool.eqb intersects (isover p) then m
        else
          let around := if greedy p then parent p else None in
          let m := match around with
                   | Some j =>
                       let m := on j (fun q => q <| greedyChild := intersects |>) m in
                       if intersects then out j (on j (fun q => q <| isover := false |> <| isout := true |>) m) else m
                   | None => m
                   end in
          let m := on i (fun p => p <| isover := intersects |> <| isout := negb intersects |>) m in
          let m := if intersects then over i m else out i m in
          match around with
          | Some j => if intersects then m else over j (on j (fun q => q <| isover := true |> <| isout := false |>) m)
          | None => m
          end
  | None => m
  end.
Definition drag_all (d : dragged) (m : manager) : manager := fold_left (drag_one d) (seq 0 (length (droppables m))) m.

Definition drop_one (d : dragged) (acc : manager * bool) (i : nat) : manager * bool :=
  let '(m, dropped) := acc in
  match droppables m !! i with
  | Some p =>
      let '(m, dropped) := if negb (p_disabled p) && visible p && intersect d p
                           then let '(m, b) := drop d i m in (m, b || dropped) else (m, dropped) in
      if negb (p_disabled p) && visible p && accept p
      then (deactivate i (on i (fun p => p <| isout := true |> <| isover := false |>) m), dropped) else (m, dropped)
  | None => acc
  end.
Definition drop_all (d : dragged) (m : manager) : manager * bool := fold_left (drop_one d) (seq 0 (length (droppables m))) (m, false).

#[export] Instance manager_host : drop_host manager := {
  prepareOffsets := prepare;
  dd_drag := drag_all;
  dd_drop := drop_all;
}.

(** ** A page *)

Definition page : Type := mouse * (Draggable.draggable * manager).

(** What happens on a page: the draggable is used, a droppable gets another box, is shown or
    hidden, or has its options [accept] and [disabled] changed. *)
Inductive page_action :=
  | Use (a : Draggable.daction) | Place (i : nat) (b : box_of) | Display (i : nat) (b : bool)
  | Accept (i : nat) (b : bool) | DisableDrop (i : nat) (b : bool).

Section page.
Context (lay : Q * Q -> Draggable.layout) (on_handle : mevent -> bool) (allow : Draggable.devent -> bool) (mo : mouse_options).

Definition change (i : nat) (f : droppable -> droppable) (w : page) : page := (w.1, (w.2.1, on i f w.2.2)).

Definition page_act (a : page_action) (w : page) : option page :=
  match a with
  | Use a => Draggable.drag_act lay on_handle allow mo a w
  | Place i b => Some (change i (fun p => p <| box := b |>) w)
  | Display i b => Some (change i (fun p => p <| display := b |>) w)
  | Accept i b => Some (change i (fun p => p <| accept := b |>) w)
  | DisableDrop i b => Some (change i (fun p => p <| p_disabled := b |>) w)
  end.

Fixpoint page_acts (l : list page_action) (w : page) : option page :=
  match l with
  | [] => Some w
  | a :: l => match page_act a w with Some w => page_acts l w | None => None end
  end.
End page.

(** [_create]. *)
Definition new_droppable (acc gr : bool) (t : tolerance) (par : option nat) (b : box_of) : droppable :=
  mk_droppable acc gr false t true true par b true None (b_width b, b_height b) false false true false false false.
End Droppable.
