(* ===== verification/DropFlow.v ===== *)
(** * Dragging and dropping, properties

    What droppables are told under any use of a draggable, and where a draggable goes. *)

From S2P Require Export UiDroppable.
Import Droppable.

(** ** What a droppable is told *)

Inductive dstage := Idle | Armed | Hovering | Taken.
#[global] Instance dstage_eq_dec : EqDecision dstage.
Proof. solve_decision. Defined.

(** The order of events: activated, over and out in turn, dropped on, deactivated. *)
Definition stage_step (st : dstage) (e : pevent) : option dstage :=
  match st, e with
  | Idle, Activate => Some Armed
  | Armed, Over => Some Hovering
  | Hovering, Out => Some Armed
  | (Armed | Hovering), Drop => Some Taken
  | (Armed | Hovering | Taken), Deactivate => Some Idle
  | _, _ => None
  end.

Definition stage_run (l : list pevent) (st : dstage) : option dstage := fold_left (fun o e => o ≫= fun st => stage_step st e) l (Some st).

Lemma stage_run_snoc l st st' e : stage_run l st = Some st' -> stage_run (l ++ [e]) st = stage_step st' e.
Proof. unfold stage_run. rewrite fold_left_app. by intros ->. Qed.

Definition heard_in (l : list (nat * pevent)) (i : nat) : list pevent := snd <$> filter (fun x => x.1 = i) l.
Definition heard (i : nat) (m : manager) : list pevent := heard_in (p_told m) i.

Lemma heard_tell i e m : heard i (ptell i e m) = heard i m ++ [e].
Proof. unfold heard, heard_in, ptell. cbn. rewrite filter_app, fmap_app. f_equal. by rewrite filter_cons, decide_True. Qed.
Lemma heard_tell_ne i j e m : i <> j -> heard i (ptell j e m) = heard i m.
Proof.
  intros Hne. unfold heard, heard_in, ptell. cbn. rewrite filter_app, fmap_app. rewrite filter_cons, decide_False by (cbn; congruence).
  by rewrite app_nil_r.
Qed.
Lemma heard_on i j f m : heard i (on j f m) = heard i m.
Proof. done. Qed.

(** One droppable, and what it was told. *)
Definition one (m : manager) (i : nat) : option droppable := droppables m !! i.

Lemma one_on i f m : one (on i f m) i = f <$> one m i.
Proof. unfold one, on. cbn. by rewrite list_lookup_alter, decide_True. Qed.
Lemma one_on_ne i j f m : i <> j -> one (on j f m) i = one m i.
Proof. intros H. unfold one, on. cbn. by rewrite list_lookup_alter, decide_False by congruence. Qed.
Lemma one_tell i j e m : one (ptell j e m) i = one m i.
Proof. done. Qed.

Create Rewrite HintDb dd.
#[local] Hint Rewrite heard_tell heard_on one_on one_tell : dd.

(** What an operation on the droppable [j] leaves alone: the others, as they are and as
    they were told; and no droppable gets greedy. *)
Record only (j : nat) (m m' : manager) : Prop := {
  on_others : forall i, i <> j -> one m' i = one m i /\ heard i m' = heard i m;
  on_length : length (droppables m') = length (droppables m);
}.

Lemma only_refl j m : only j m m.
Proof. by split. Qed.
Lemma only_trans j m1 m2 m3 : only j m1 m2 -> only j m2 m3 -> only j m1 m3.
Proof.
  intros [A B] [C D]. split; [|congruence]. intros i Hi. destruct (C i Hi) as [-> ->]. by apply A.
Qed.
Lemma only_on j f m : only j m (on j f m).
Proof. split; [|apply length_alter]. intros i Hi. by rewrite one_on_ne. Qed.
Lemma only_tell j e m : only j m (ptell j e m).
Proof. split; [|done]. intros i Hi. by rewrite heard_tell_ne. Qed.
Lemma only_both j e f m : only j m (ptell j e (on j f m)).
Proof. eapply only_trans; [apply only_on|apply only_tell]. Qed.
#[local] Hint Resolve only_refl only_on only_tell only_both : dd.

(** A loop over the droppables, each step of which takes one from [A] to [B] and leaves the
    others alone. *)
Section loop.
Context {T : Type} (get : T -> manager) (step : T -> nat -> T) (A B : droppable -> list pevent -> Prop).
Definition all (A : droppable -> list pevent -> Prop) (m : manager) : Prop := forall i p, one m i = Some p -> A p (heard i m).
Definition upto (n : nat) (m : manager) : Prop := forall i p, one m i = Some p -> (if (i <? n)%nat then B else A) p (heard i m).
Context (Honly : forall x n, upto n (get x) -> only n (get x) (get (step x n))).
Context (Hstep : forall x n, upto n (get x) -> forall p, one (get x) n = Some p -> A p (heard n (get x)) ->
  forall p', one (get (step x n)) n = Some p' -> B p' (heard n (get (step x n)))).

Lemma loop_from k n x : upto k (get x) -> upto (k + n) (get (fold_left step (seq k n) x)) /\
  length (droppables (get (fold_left step (seq k n) x))) = length (droppables (get x)).
Proof.
  revert k x. induction n as [|n IH]; intros k x H; [by rewrite Nat.add_0_r|]. cbn [seq fold_left].
  replace (k + S n)%nat with (S k + n)%nat by lia.
  assert (upto (S k) (get (step x k))) as H1.
  { intros i p Hi. destruct (decide (i = k)) as [->|Hne].
    - rewrite (proj2 (Nat.ltb_lt k (S k))) by lia. destruct (one (get x) k) as [q|] eqn:Eq.
      + eapply Hstep; [exact H|exact Eq| |exact Hi]. specialize (H k q Eq). by rewrite Nat.ltb_irrefl in H.
      + apply lookup_lt_Some in Hi. rewrite (on_length _ _ _ (Honly x k H)) in Hi. apply lookup_ge_None in Eq. lia.
    - destruct (on_others _ _ _ (Honly x k H) i Hne) as [E1 E2]. rewrite E1 in Hi. rewrite E2. specialize (H i p Hi).
      assert ((i <? S k)%nat = (i <? k)%nat) as -> by (destruct (Nat.ltb_spec i k), (Nat.ltb_spec i (S k)); done || lia). done. }
  destruct (IH (S k) (step x k) H1) as [H2 H3]. split; [exact H2|]. by rewrite H3, (on_length _ _ _ (Honly x k H)).
Qed.

Lemma loop_all x : all A (get x) -> all B (get (fold_left step (seq 0 (length (droppables (get x)))) x)).
Proof.
  intros H. destruct (loop_from 0 (length (droppables (get x))) x) as [H1 H2]; [intros i p Hi; by apply H|].
  intros i p Hi. pose proof (lookup_lt_Some _ _ _ Hi) as Hl. rewrite H2 in Hl. specialize (H1 i p Hi).
  by rewrite (proj2 (Nat.ltb_lt i _)) in H1.
Qed.
End loop.

(** ** Between drags and in one *)

(** A droppable that takes part in drags. *)
Definition eligible (p : droppable) : bool := accept p && negb (p_disabled p) && display p.

Definition apart (p : droppable) (l : list pevent) : Prop := visible p = false /\ isover p = false /\ l = [].
Definition flat (p : droppable) : Prop := greedy p = false /\ greedyChild p = false.

Definition resting (p : droppable) (l : list pevent) : Prop :=
  flat p /\ if eligible p then isover p = false /\ has_active p = false /\ stage_run l Idle = Some Idle else apart p l.
Definition dragging (p : droppable) (l : list pevent) : Prop :=
  flat p /\ if eligible p
            then visible p = true /\ has_active p = activeClass p /\ stage_run l Idle = Some (if isover p then Hovering else Armed)
            else apart p l.

Lemma upto_flat (A B : droppable -> list pevent -> Prop) n m : (forall p l, A p l -> flat p) -> (forall p l, B p l -> flat p) ->
  upto A B n m -> forall i p, one m i = Some p -> flat p.
Proof. intros HA HB H i p Hi. specialize (H i p Hi). destruct (i <? n)%nat; eauto. Qed.

Lemma resting_flat p l : resting p l -> flat p.
Proof. by intros []. Qed.
Lemma dragging_flat p l : dragging p l -> flat p.
Proof. by intros []. Qed.
#[local] Hint Resolve resting_flat dragging_flat : dd.

Lemma prepare_only pressed m i : only i m (prepare_one pressed m i).
Proof.
  unfold prepare_one. destruct (droppables m !! i); [|apply only_refl]. destruct (_ || _); [apply only_refl|].
  cbn zeta. destruct (negb _); [apply only_on|]. eapply only_trans; [apply only_on|]. eapply only_trans; [|apply only_on].
  destruct pressed; [apply only_both|apply only_refl].
Qed.

(** What [prepareOffsets] does to one droppable. *)
Lemma prepare_spec pressed m i p : one m i = Some p ->
  let m' := prepare_one pressed m i in
  if accept p && negb (p_disabled p) then
    if display p then
      one m' i = Some (offset_now p <| visible := true |> <| proportions := (b_width (box p), b_height (box p)) |>
                         <| has_active := has_active p || (pressed && activeClass p) |>) /\
      heard i m' = heard i m ++ (if pressed then [Activate] else [])
    else one m' i = Some (p <| visible := false |>) /\ heard i m' = heard i m
  else m' = m.
Proof.
  intros Hp. unfold prepare_one. unfold one in Hp. rewrite Hp. destruct (p_disabled p), (accept p); cbn [orb negb andb]; try done.
  cbn zeta. destruct (display p) eqn:Ed; cbn [negb].
  - destruct pressed; unfold activate; rewrite ?one_on, ?one_tell, ?one_on, ?heard_on, ?heard_tell, ?heard_on; unfold one; rewrite Hp; cbn [fmap option_fmap option_map].
    + split; [|done]. destruct p; cbn in *. by rewrite Ed.
    + split; [|by rewrite app_nil_r]. destruct p; cbn in *. rewrite Ed. by rewrite orb_false_r.
  - rewrite one_on. unfold one. rewrite Hp. split; [|done]. destruct p; cbn in *. by rewrite Ed.
Qed.

Lemma prepare_pressed m i p l : one m i = Some p -> heard i m = l -> resting p l ->
  forall p', one (prepare_one true m i) i = Some p' -> dragging p' (heard i (prepare_one true m i)).
Proof.
  intros Hp Hl [Hf Hr] p' Hp'. pose proof (prepare_spec true m i p Hp) as Hs. cbn zeta in Hs. unfold eligible in Hr.
  destruct (accept p && negb (p_disabled p)) eqn:Ea; cbn [andb] in Hr.
  - destruct (display p) eqn:Ed.
    + destruct Hs as [E1 E2]. rewrite E1 in Hp'. injection Hp' as <-. destruct Hr as (R1 & R2 & R3). rewrite E2. split; [exact Hf|].
      unfold eligible. cbn. rewrite Ea, Ed. cbn.
      rewrite R1, R2. split; [done|]. split; [done|]. rewrite Hl. by rewrite (stage_run_snoc _ _ _ _ R3).
    + destruct Hs as [E1 E2]. rewrite E1 in Hp'. injection Hp' as <-. split; [exact Hf|]. rewrite E2, Hl. unfold eligible. cbn. rewrite Ea, Ed. cbn.
      by destruct Hr as (R1 & R2 & R3).
  - rewrite Hs in Hp' |- *. rewrite Hp in Hp'. injection Hp' as <-. split; [exact Hf|]. unfold eligible. rewrite Ea, Hl. exact Hr.
Qed.

Lemma prepare_released m i p l (R : droppable -> list pevent -> Prop) : R = resting \/ R = dragging -> one m i = Some p -> heard i m = l -> R p l ->
  forall p', one (prepare_one false m i) i = Some p' -> R p' (heard i (prepare_one false m i)).
Proof.
  intros HR Hp Hl Hr p' Hp'. pose proof (prepare_spec false m i p Hp) as Hs. cbn zeta in Hs.
  destruct (accept p && negb (p_disabled p)) eqn:Ea.
  - destruct (display p) eqn:Ed.
    + destruct Hs as [E1 E2]. rewrite E1 in Hp'. injection Hp' as <-. rewrite E2, app_nil_r, Hl.
      destruct HR as [->| ->]; destruct Hr as [Hf Hr]; (split; [exact Hf|]); unfold eligible in *; cbn; rewrite Ea, Ed in *; cbn [andb] in *;
        by rewrite orb_false_r; destruct Hr as (R1 & R2 & R3).
    + destruct Hs as [E1 E2]. rewrite E1 in Hp'. injection Hp' as <-. rewrite E2, Hl.
      destruct HR as [->| ->]; destruct Hr as [Hf Hr]; (split; [exact Hf|]); unfold eligible in *; cbn; rewrite Ea, Ed in *; cbn [andb] in *;
        by destruct Hr as (R1 & R2 & R3).
  - rewrite Hs in Hp' |- *. rewrite Hp in Hp'. injection Hp' as <-. by rewrite Hl.
Qed.

(** ** A move, and the end of a drag *)

Lemma drag_spec d m i p : one m i = Some p -> flat p ->
  drag_one d m i =
    if p_disabled p || negb (visible p) then m
    else if Bool.eqb (intersect d p) (isover p) then m
    else let m := on i (fun p => p <| isover := intersect d p |> <| isout := negb (intersect d p) |>) m in
         if intersect d p then over i m else out i m.
Proof.
  intros Hp [Hg Hc]. unfold drag_one. unfold one in Hp. rewrite Hp, Hg, Hc, orb_false_r. destruct (_ || _); [done|]. cbn zeta.
  destruct (Bool.eqb _ _); [done|]. 
  assert (on i (fun q => q <| isover := intersect d p |> <| isout := negb (intersect d p) |>) m =
          on i (fun q => q <| isover := intersect d q |> <| isout := negb (intersect d q) |>) m) as <-; [|by destruct (intersect d p)].
  unfold on. f_equal. apply list_eq. intros k. rewrite !list_lookup_alter. case_decide as Hk; [|done]. subst k. by rewrite Hp.
Qed.

Lemma over_out_only i m : only i m (over i m) /\ only i m (out i m).
Proof.
  unfold over, out. destruct (droppables m !! i) as [p|]; [|by split; apply only_refl].
  destruct (accept p); split; by (apply only_both || apply only_refl).
Qed.

Lemma drag_only d m i : (forall p, one m i = Some p -> flat p) -> only i m (drag_one d m i).
Proof.
  intros Hf. destruct (one m i) as [p|] eqn:Hp; [|unfold drag_one; unfold one in Hp; rewrite Hp; apply only_refl].
  rewrite (drag_spec d m i p Hp (Hf p eq_refl)). destruct (_ || _); [apply only_refl|]. destruct (Bool.eqb _ _); [apply only_refl|]. cbn zeta.
  eapply only_trans; [apply only_on|]. destruct (intersect d p); apply over_out_only.
Qed.

Lemma drag_keeps d m i p l : one m i = Some p -> heard i m = l -> dragging p l ->
  forall p', one (drag_one d m i) i = Some p' -> dragging p' (heard i (drag_one d m i)).
Proof.
  intros Hp Hl [Hf Hr] p' Hp'. rewrite (drag_spec d m i p Hp Hf) in Hp' |- *.
  assert (dragging p l) as Hd by (by split). destruct (p_disabled p || negb (visible p)) eqn:Ev.
  { rewrite Hp in Hp'. injection Hp' as <-. by rewrite Hl. }
  destruct (Bool.eqb (intersect d p) (isover p)) eqn:Eb; [rewrite Hp in Hp'; injection Hp' as <-; by rewrite Hl|].
  apply orb_false_iff in Ev as [Ed Ev%negb_false_iff]. destruct (eligible p) eqn:Ee; [|by destruct Hr as [R1 _]; congruence].
  destruct Hr as (R1 & R2 & R3). unfold eligible in Ee. apply andb_prop in Ee as [[Ea _]%andb_prop Edi].
  cbn zeta in Hp' |- *. set (f := fun q : droppable => q <| isover := intersect d q |> <| isout := negb (intersect d q) |>) in *.
  assert (droppables (on i f m) !! i = Some (f p)) as Hq by (pose proof (one_on i f m) as H; rewrite Hp in H; exact H).
  destruct (intersect d p) eqn:Ei; [unfold over in Hp' |- *|unfold out in Hp' |- *]; rewrite Hq in Hp' |- *;
    change (accept (f p)) with (accept p) in Hp' |- *; rewrite Ea in Hp' |- *; rewrite one_tell, one_on in Hp'; unfold one in Hp'; rewrite Hq in Hp';
    cbn [fmap option_fmap option_map] in Hp'; injection Hp' as <-; rewrite heard_tell, !heard_on, Hl; (split; [exact Hf|]);
    unfold eligible; cbn; rewrite Ea, Ed, Edi; cbn; rewrite Ei; split_and!; try done.
  - destruct (isover p); [done|]. by rewrite (stage_run_snoc _ _ _ _ R3).
  - destruct (isover p); [|done]. by rewrite (stage_run_snoc _ _ _ _ R3).
Qed.

Lemma children_none d js m : (forall j p, one m j = Some p -> greedy p = false) -> children_intersect d js m = (m, false).
Proof.
  intros Hg. induction js as [|j js IH]; cbn; [done|]. destruct (droppables m !! j) as [p|] eqn:E; [|done].
  by rewrite (Hg j p E).
Qed.

Lemma drop_spec d m i p b : one m i = Some p -> (forall j p, one m j = Some p -> greedy p = false) ->
  drop_one d (m, b) i =
    if negb (p_disabled p) && visible p then
      let taken := intersect d p && accept p in
      let m := if taken then ptell i Drop (on i (fun p => p <| has_active := has_active p && negb (activeClass p) |> <| has_hover := has_hover p && negb (hoverClass p) |>) m) else m in
      if accept p then (deactivate i (on i (fun p => p <| isout := true |> <| isover := false |>) m), taken || b) else (m, taken || b)
    else (m, b).
Proof.
  intros Hp Hg. unfold drop_one. pose proof Hp as Hp1. unfold one in Hp1. rewrite Hp1. destruct (negb (p_disabled p) && visible p); [|done]. cbn [andb].
  destruct (intersect d p); cbn [andb]; [|by destruct (accept p)]. unfold drop. rewrite children_none by done. rewrite Hp1. cbn [negb andb].
  by destruct (accept p).
Qed.

Lemma drop_only d m b i : (forall j p, one m j = Some p -> greedy p = false) -> only i m (drop_one d (m, b) i).1.
Proof.
  intros Hg. destruct (one m i) as [p|] eqn:Hp; [|unfold drop_one; unfold one in Hp; rewrite Hp; apply only_refl].
  rewrite (drop_spec d m i p b Hp Hg). destruct (_ && visible p); [|apply only_refl]. cbn zeta.
  set (m1 := if intersect d p && accept p then _ else m).
  assert (only i m m1) as H1 by (unfold m1; destruct (_ && _); [apply only_both|apply only_refl]). clearbody m1.
  destruct (accept p); [|exact H1]. eapply only_trans; [exact H1|]. eapply only_trans; [apply only_on|apply only_both].
Qed.

Lemma drop_ends d m b i p l : (forall j p, one m j = Some p -> greedy p = false) -> one m i = Some p -> heard i m = l -> dragging p l ->
  forall p', one (drop_one d (m, b) i).1 i = Some p' -> resting p' (heard i (drop_one d (m, b) i).1).
Proof.
  intros Hg Hp Hl [Hf Hr] p' Hp'. rewrite (drop_spec d m i p b Hp Hg) in Hp' |- *. unfold eligible in Hr.
  destruct (accept p) eqn:Ea; cbn [andb] in Hr.
  2:{ destruct Hr as (R1 & R2 & R3). rewrite R1, andb_false_r in Hp' |- *. cbn [fst] in Hp' |- *. rewrite Hp in Hp'. injection Hp' as <-.
      split; [exact Hf|]. unfold eligible. rewrite Ea. cbn. by rewrite Hl. }
  destruct (p_disabled p) eqn:Ed; cbn [negb andb] in Hr, Hp' |- *.
  { cbn [fst] in Hp' |- *. rewrite Hp in Hp'. injection Hp' as <-. split; [exact Hf|]. unfold eligible. rewrite Ea, Ed. cbn. by rewrite Hl. }
  destruct (display p) eqn:Edi.
  2:{ destruct Hr as (R1 & R2 & R3). rewrite R1 in Hp' |- *. cbn [fst] in Hp' |- *. rewrite Hp in Hp'. injection Hp' as <-.
      split; [exact Hf|]. unfold eligible. rewrite Ea, Ed, Edi. cbn. by rewrite Hl. }
  destruct Hr as (R1 & R2 & R3). rewrite R1, andb_true_r in Hp' |- *. cbn zeta in Hp' |- *. cbn [fst] in Hp' |- *.
  destruct (intersect d p); unfold deactivate in Hp' |- *;
    rewrite !one_tell, !one_on, ?one_tell, ?one_on in Hp'; rewrite Hp in Hp'; cbn [fmap option_fmap option_map] in Hp'; injection Hp' as <-;
    rewrite heard_tell, !heard_on, ?heard_tell, ?heard_on, Hl; (split; [exact Hf|]); unfold eligible; cbn; rewrite Ea, Ed, Edi; cbn;
    (split; [done|]); rewrite R2; (split; [by destruct (activeClass p)|]).
  - rewrite (stage_run_snoc (l ++ [Drop]) Idle Taken Deactivate); [done|]. rewrite (stage_run_snoc _ _ _ _ R3). by destruct (isover p).
  - rewrite (stage_run_snoc _ _ _ _ R3). by destruct (isover p).
Qed.

(** ** All droppables *)

Lemma prepare_all pressed m (A B : droppable -> list pevent -> Prop) :
  (forall m i p, one m i = Some p -> A p (heard i m) -> forall p', one (prepare_one pressed m i) i = Some p' -> B p' (heard i (prepare_one pressed m i))) ->
  all A m -> all B (prepare pressed m).
Proof.
  intros Hs H. unfold prepare. apply (loop_all (fun m => m) (prepare_one pressed) A B).
  - intros x n _. apply prepare_only.
  - intros x n _ p Hp HA. by apply Hs with p.
  - exact H.
Qed.

Lemma prepare_down m : all resting m -> all dragging (prepare true m).
Proof. apply prepare_all. intros m' i p Hp HA. by eapply prepare_pressed. Qed.

Lemma prepare_up m R : R = resting \/ R = dragging -> all R m -> all R (prepare false m).
Proof. intros HR. apply prepare_all. intros m' i p Hp HA. by eapply prepare_released. Qed.

Lemma drag_dragging d m : all dragging m -> all dragging (drag_all d m).
Proof.
  intros H. unfold drag_all. apply (loop_all (fun m => m) (drag_one d) dragging dragging).
  - intros x n Hx. apply drag_only. intros p Hp. by eapply upto_flat in Hx; eauto with dd.
  - intros x n Hx p Hp HA. by eapply drag_keeps.
  - exact H.
Qed.

Lemma drop_resting d m : all dragging m -> all resting (drop_all d m).1.
Proof.
  intros H. unfold drop_all. change (length (droppables m)) with (length (droppables (fst (m, false)))).
  assert (forall (x : manager * bool) n, upto dragging resting n x.1 -> forall j p, one x.1 j = Some p -> greedy p = false) as Hg.
  { intros x n Hx j p Hp. by eapply upto_flat in Hx as [Hx _]; eauto with dd. }
  apply (loop_all fst (drop_one d) dragging resting).
  - intros [x b] n Hx. apply drop_only. by eapply (Hg (x, b)).
  - intros [x b] n Hx p Hp HA. eapply drop_ends; [by eapply (Hg (x, b))|exact Hp|reflexivity|exact HA].
  - exact H.
Qed.

(** ** The page *)

(** Between drags and in one, for a draggable and the manager. *)
Definition at_rest (w : Draggable.draggable * manager) : Prop := all resting w.2.
Definition in_drag (w : Draggable.draggable * manager) : Prop := all dragging w.2.

(** An action that changes neither who takes part nor how. *)
Definition steady (a : page_action) : bool := match a with Use _ | Place _ _ => true | _ => false end.

Section page.
Context (lay : Q * Q -> Draggable.layout) (on_handle : mevent -> bool) (allow : Draggable.devent -> bool) (mo : mouse_options).

Lemma start_phase e w : at_rest w ->
  if (Draggable.drag_start lay allow e w).2 then in_drag (Draggable.drag_start lay allow e w).1 else at_rest (Draggable.drag_start lay allow e w).1.
Proof.
  intros H. destruct w as [s m]. unfold Draggable.drag_start. cbn zeta. destruct (allow _); [|exact H].
  cbn [fst snd]. unfold in_drag. cbn. by apply drag_dragging, prepare_down.
Qed.

Lemma stop_phase e w : in_drag w -> at_rest (Draggable.drag_stop allow e w).
Proof.
  intros H. unfold Draggable.drag_stop, at_rest. pose proof (drop_resting (Draggable.dragged_of w.1) w.2 H) as H1.
  change (dd_drop (Draggable.dragged_of w.1) w.2) with (drop_all (Draggable.dragged_of w.1) w.2).
  by destruct (drop_all (Draggable.dragged_of w.1) w.2) as [m b].
Qed.

Definition page_phase : page -> Prop := phase at_rest in_drag.

Lemma place_all (R : droppable -> list pevent -> Prop) i b m : R = resting \/ R = dragging -> all R m -> all R (on i (fun p => p <| box := b |>) m).
Proof.
  intros HR H j p Hp. destruct (decide (j = i)) as [->|Hne].
  - rewrite one_on in Hp. destruct (one m i) as [q|] eqn:Eq; [|done]. injection Hp as <-. specialize (H i q Eq). rewrite heard_on.
    by destruct HR as [->| ->].
  - rewrite one_on_ne in Hp by done. by apply H.
Qed.

Lemma page_act_phase a w w' : steady a = true -> page_phase w -> page_act lay on_handle allow mo a w = Some w' -> page_phase w'.
Proof.
  intros Hs H E. destruct a as [a|i b| | |]; try done; cbn [page_act] in E.
  - unfold Draggable.drag_act in E. destruct w as [m s], a as [a| |b|].
    + destruct (mouse_act_phase (H := Draggable.draggable_plugin lay on_handle allow) mo at_rest in_drag) with (a := a) (w := (m, s)) as (w1 & E1 & H1).
      * intros e s1 H1. by apply prepare_up; [left|].
      * intros e s1 H1. by apply prepare_up; [right|].
      * intros e s1 H1. eexists _, _. split; [reflexivity|done].
      * intros e e' s1 H1. by apply start_phase.
      * intros e [s1 m1] H1. by apply drag_dragging.
      * intros e s1 H1. by apply stop_phase.
      * exact H.
      * rewrite E1 in E. by injection E as <-.
    + injection E as <-. exact H.
    + injection E as <-. exact H.
    + destruct (Draggable.helper s.1); [|done].
      match type of E with Some ?x = _ => assert (x = w') as <- by (injection E as E; exact E) end. apply (mouseUp_keeps (H := Draggable.draggable_plugin lay on_handle allow)).
      * intros e s1 H1. by apply prepare_up; [left|].
      * intros e s1 H1. by apply prepare_up; [right|].
      * intros e s1 H1. by apply stop_phase.
      * exact H.
  - injection E as <-. unfold page_phase, phase, change in *. cbn. destruct (mouseStarted w.1); by apply place_all; [auto|].
Qed.

Lemma page_acts_phase l w w' : forallb steady l = true -> page_phase w -> page_acts lay on_handle allow mo l w = Some w' -> page_phase w'.
Proof.
  revert w. induction l as [|a l IH]; intros w Hl H E; cbn in Hl, E; [by injection E as <-|].
  apply andb_prop in Hl as [Ha Hl]. destruct (page_act lay on_handle allow mo a w) as [w1|] eqn:E1; [|done].
  eapply IH; [done|by eapply page_act_phase|done].
Qed.
End page.

(** ** Where a draggable goes *)

Import Draggable.

Lemma round_near q : (q - (1 # 2) < round q)%Q /\ (round q <= q + (1 # 2))%Q.
Proof.
  unfold round. pose proof (Qfloor_le (q + (1 # 2))) as H1. pose proof (Qlt_floor (q + (1 # 2))) as H2.
  rewrite inject_Z_plus in H2. change (inject_Z 1) with 1%Q in H2. split; lra.
Qed.

Lemma clamp_inside page click a b : (a <= b)%Q -> (a <= clamp page click (Some (a, b)) - click)%Q /\ (clamp page click (Some (a, b)) - click <= b)%Q.
Proof. intros Hab. unfold clamp. qcases; split; lra. Qed.

(** A grid that is not wider than the bounds keeps within them. *)
Lemma grid_inside page click a b g start : (0 < g)%Q -> (g <= b - a)%Q -> (a <= page - click)%Q -> (page - click <= b)%Q ->
  let p := on_grid page click (Some (a, b)) (Some g) start in (a <= p - click)%Q /\ (p - click <= b)%Q.
Proof.
  intros Hg Hw H1 H2. unfold on_grid. destruct (Qeqb_reflect g 0); [lra|]. cbn zeta.
  pose proof (round_near ((page - start) / g)) as [N1 N2]. set (r := round _) in *. clearbody r.
  assert ((page - start) / g * g == page - start)%Q as E by (field; lra). set (q := ((page - start) / g)%Q) in *. clearbody q.
  assert ((q - (1 # 2)) * g < r * g)%Q as M1 by (by apply Qmult_lt_r). assert (r * g <= (q + (1 # 2)) * g)%Q as M2 by (apply Qmult_le_compat_r; lra).
  set (rg := (r * g)%Q) in *. clearbody rg. qcases; split; lra.
Qed.

(** The bounds of a coordinate, and a grid that fits. *)
Definition fits (a b : Q) (g : option Q) : Prop := (a <= b)%Q /\ match g with Some g => (0 < g)%Q /\ (g <= b - a)%Q | None => True end.

Lemma coordinate_inside page click a b g start : fits a b g ->
  let p := on_grid (clamp page click (Some (a, b))) click (Some (a, b)) g start in (a <= p - click)%Q /\ (p - click <= b)%Q.
Proof.
  intros [Hab Hg]. destruct (clamp_inside page click a b Hab) as [H1 H2]. destruct g as [g|]; [|done].
  destruct Hg as [G1 G2]. by apply grid_inside.
Qed.

(** *** The container

    What the documentation promises for one coordinate [x] of the outer edge of the margin
    of the helper: that it lies in the array, and otherwise that border and padding of the
    helper are within the document or the window, or its margin within the content of the
    element. *)
Section axis.
Context (fst_of : Q * Q -> Q) (low high : sides -> Q) (size : layout -> Q) (extent : Q -> Q -> Q).

Definition holds (c : containment_option) (l : layout) (x : Q) : Prop :=
  match c with
  | NoContainment => True
  | InArray b => (low b <= x <= high b)%Q
  | InDocument w h => (0 <= x /\ x + low (l_margins l) + size l <= extent w h)%Q
  | InWindow scroll w h => (fst_of scroll <= x /\ x + low (l_margins l) + size l <= fst_of scroll + extent w h)%Q
  | InElement offset b p w h =>
      (fst_of offset + low b + low p <= x /\
       x + low (l_margins l) + size l + high (l_margins l) <= fst_of offset + extent w h - high b - high p)%Q
  end.

(** Where the code computes the container right: a window only for a helper that is
    positioned from the corner of the page, an element only with equal borders. *)
Definition fair (c : containment_option) (l : layout) : Prop :=
  match c with
  | InWindow _ _ _ => (fst_of (l_relative l) + fst_of (l_parent l) == 0)%Q
  | InElement _ b _ _ _ => (low b == high b)%Q
  | _ => True
  end.

(** The container has room for the helper, and for a cell of the grid. *)
Definition room (c : containment_option) (l : layout) (g : option Q) : Prop :=
  match g with
  | None => exists x, holds c l x
  | Some g => (0 < g)%Q /\ exists x, holds c l x /\ holds c l (x + g)%Q
  end.

Definition exact_bounds (c : containment_option) (l : layout) (b : sides) : Prop :=
  forall x, (low b <= x /\ x <= high b)%Q <-> holds c l x.

Lemma room_fits c l g b : exact_bounds c l b -> room c l g -> fits (low b) (high b) g.
Proof.
  intros Hb. unfold room, fits. destruct g as [g|].
  - intros (Hg & x & [H1 H2]%Hb & [H3 H4]%Hb). split; [lra|]. split; lra.
  - intros (x & [H1 H2]%Hb). split; [lra|done].
Qed.
End axis.

Definition holds_x := holds fst s_left s_right l_width (fun w _ => w).
Definition holds_y := holds snd s_top s_bottom l_height (fun _ h => h).
Definition fair_x := fair fst s_left s_right.
Definition fair_y := fair snd s_top s_bottom.
Definition room_x := room fst s_left s_right l_width (fun w _ => w).
Definition room_y := room snd s_top s_bottom l_height (fun _ h => h).

(** No offset of a container is left over from another containment. *)
Definition offset_ok (s : draggable) : Prop :=
  match containment s with Some (_, Some _) => match o_containment s with InElement _ _ _ _ _ => True | _ => False end | _ => True end.

Definition bounded (s : draggable) : Prop :=
  o_containment s <> NoContainment ->
  exists b, bounds_of s = Some b /\
    (fair_x (o_containment s) (page_layout s) -> exact_bounds fst s_left s_right l_width (fun w _ => w) (o_containment s) (page_layout s) b) /\
    (fair_y (o_containment s) (page_layout s) -> exact_bounds snd s_top s_bottom l_height (fun _ h => h) (o_containment s) (page_layout s) b).

Lemma setContainment_bounded s : offset_ok s -> bounded (setContainment s) /\ offset_ok (setContainment s) /\
  o_containment (setContainment s) = o_containment s.
Proof.
  intros H. unfold offset_ok, bounded, bounds_of, setContainment in *.
  assert (match o_containment s with InElement _ _ _ _ _ => True | _ => match containment s with Some (_, co) => co | None => None end = None end) as Hco
    by (destruct (o_containment s), (containment s) as [[? [?|]]|]; done).
  destruct (o_containment s) as [|b0|w h|sc w h|off b0 pd w h] eqn:Ec; cbn; rewrite ?Ec; (split; [|split; [try done; by rewrite ?Hco|done]]);
    intros Hne; [done|rewrite ?Hco; eexists; (split; [reflexivity|]); unfold fair_x, fair_y, fair, exact_bounds, holds; cbn; (split; intros Hf x; lra)..].
Qed.

(** Where a style puts the helper: the inverse of what [_generatePosition] subtracts. *)
Definition on_page (l : layout) (p : Q * Q) : Q * Q :=
  ((p.1 + (l_relative l).1 + (l_parent l).1 - (l_scroll l).1)%Q, (p.2 + (l_relative l).2 + (l_parent l).2 - (l_scroll l).2)%Q).

(** The helper has a style that puts it into the container, where the option axis lets it
    move. *)
Definition in_container (s : draggable) (p : Q * Q) : Prop :=
  let c := o_containment s in let l := page_layout s in
  (o_axis s <> AxisY -> fair_x c l -> room_x c l (fst <$> o_grid s) -> holds_x c l (on_page l p).1) /\
  (o_axis s <> AxisX -> fair_y c l -> room_y c l (snd <$> o_grid s) -> holds_y c l (on_page l p).2).

Definition placed (s : draggable) : Prop :=
  exists p, helper s = Some p /\ (o_clone s = false -> el s = p) /\ in_container s p.

Lemma holds_same fst_of low high size extent c l x y : (x == y)%Q -> holds fst_of low high size extent c l x -> holds fst_of low high size extent c l y.
Proof. intros E. unfold holds. destruct c; lra || done. Qed.

Lemma constrained e s : originalPosition s <> None -> bounded s ->
  let c := o_containment s in let l := page_layout s in
  (fair_x c l -> room_x c l (fst <$> o_grid s) -> holds_x c l (on_page l (generatePosition e s)).1) /\
  (fair_y c l -> room_y c l (snd <$> o_grid s) -> holds_y c l (on_page l (generatePosition e s)).2).
Proof.
  intros Ho Hb c l. assert ((on_page l (generatePosition e s)).1 == (constrain e s).1 - (click s).1)%Q as E1 by (cbn; fold l; ring).
  assert ((on_page l (generatePosition e s)).2 == (constrain e s).2 - (click s).2)%Q as E2 by (cbn; fold l; ring).
  destruct (match c with NoContainment => true | _ => false end) eqn:Ec; [by destruct c|].
  destruct Hb as (b & Eb & Hx & Hy); [by intros E; fold c in E; rewrite E in Ec|]. fold c l in Hx, Hy.
  unfold constrain in E1, E2. destruct (originalPosition s); [|done]. rewrite Eb in E1, E2. cbn [fmap option_fmap option_map fst snd] in E1, E2.
  split; intros Hf Hr.
  - specialize (Hx Hf). eapply holds_same; [symmetry; exact E1|]. apply Hx, coordinate_inside.
    exact (room_fits fst s_left s_right l_width (fun w _ => w) c l _ b Hx Hr).
  - specialize (Hy Hf). eapply holds_same; [symmetry; exact E2|]. apply Hy, coordinate_inside.
    exact (room_fits snd s_top s_bottom l_height (fun _ h => h) c l _ b Hy Hr).
Qed.

(** What lasts while an element is dragged. *)
Definition in_motion (s : draggable) : Prop := originalPosition s <> None /\ bounded s /\ offset_ok s /\ reverting s = false.

Section contained.
Context {M : Type} `{drop_host M}.
Context (lay : Q * Q -> layout) (on_handle : mevent -> bool) (allow : devent -> bool).

Definition idle_d (w : draggable * M) : Prop := offset_ok w.1 /\ (reverting w.1 = true -> helper w.1 <> None).
Definition captured_d (w : draggable * M) : Prop := offset_ok w.1 /\ reverting w.1 = false.
Definition moving_d (w : draggable * M) : Prop := in_motion w.1 /\ placed w.1.

Lemma move_contained silent e (w : draggable * M) : in_motion w.1 -> moving_d (drag_move silent e w).
Proof.
  destruct w as [s m]. cbn [fst]. intros (Ho & Hb & Hof & Hr). destruct (constrained e s Ho Hb) as [Hx Hy].
  set (p := generatePosition e s) in *.
  unfold drag_move. fold p. set (s1 := if silent then _ else _).
  assert (exists t, s1 = s <| position := p |> <| positionAbs := to_absolute (s <| position := p |>) p |> <| told := t |>) as [t E].
  { unfold s1. destruct silent; [exists (told s)|exists (told s ++ [Drag p])]; by destruct s. }
  clearbody s1. subst s1. set (s1 := s <| position := p |> <| positionAbs := _ |> <| told := t |>).
  change (o_axis s1) with (o_axis s). change (position s1) with p.
  set (q := (if decide (o_axis s = AxisY) then _ else _, if decide (o_axis s = AxisX) then _ else _)).
  assert (in_container s q) as Hq.
  { split; intros Ha; unfold q, on_page; cbn [fst snd]; rewrite decide_False by done; [exact Hx|exact Hy]. }
  unfold set_style. change (o_clone (s1 <| helper := Some q |>)) with (o_clone s).
  unfold moving_d, placed. destruct (o_clone s) eqn:Ec; cbn [fst]; (split; [by split_and!|]); exists q; (split; [done|]); (split; [cbn; congruence|exact Hq]).
Qed.

Lemma start_contained e (w : draggable * M) : captured_d w ->
  if (drag_start lay allow e w).2 then moving_d (drag_start lay allow e w).1 else idle_d (drag_start lay allow e w).1.
Proof.
  destruct w as [s m]. intros [Hof Hr]. unfold drag_start. cbn zeta.
  set (s1 := match o_cursorAt _ with Some _ => _ | None => _ end).
  assert (offset_ok s1 /\ reverting s1 = false /\ originalPosition s1 <> None) as (H1 & H2 & H3).
  { unfold s1. destruct (o_cursorAt _); unfold offset_ok in *; cbn; by split_and!. }
  clearbody s1. destruct (setContainment_bounded s1 H1) as (B1 & B2 & _).
  assert (reverting (setContainment s1) = false /\ originalPosition (setContainment s1) <> None) as [B3 B4]
    by (unfold setContainment; by destruct (o_containment s1)).
  destruct (allow _).
  - cbn [fst snd]. by apply move_contained.
  - cbn [fst snd]. by split.
Qed.

Lemma stop_contained e (w : draggable * M) : moving_d w -> idle_d (drag_stop allow e w).
Proof.
  intros [(Ho & Hb & Hof & Hr) (p & Hp & _)]. unfold drag_stop. destruct (dd_drop _ _) as [m b]. unfold idle_d. cbn [fst].
  destruct (reverts _ _); [split; [exact Hof|]; intros _; cbn; by rewrite Hp|]. unfold finish. destruct (allow _); split; try exact Hof; cbn; congruence.
Qed.

Lemma capture_contained e (w : draggable * M) : idle_d w ->
  exists w' b, drag_capture on_handle e w = Some (w', b) /\ if (b : bool) then captured_d w' else idle_d w'.
Proof.
  intros [Hof Hr]. eexists _, _. split; [reflexivity|]. destruct (helper w.1) eqn:Eh; [by split; rewrite ?Eh|].
  destruct (_ && _); [|by split; rewrite ?Eh]. split; [done|]. destruct (reverting w.1); [by destruct (Hr eq_refl)|done].
Qed.

(** The end of the animation, which runs only between drags. *)
Lemma revert_contained (w : draggable * M) : offset_ok w.1 -> reverting w.1 = true ->
  offset_ok (revert_end allow w.1) /\ reverting (revert_end allow w.1) = false.
Proof.
  intros Hof Hr. unfold revert_end. rewrite Hr. cbn zeta. set (q := match originalPosition _ with Some p => _ | None => _ end).
  assert (offset_ok q /\ reverting q = false) as [Q1 Q2].
  { unfold q. destruct (originalPosition _); [|done]. unfold set_style. by destruct (o_clone _). }
  clearbody q. unfold finish. by destruct (allow _).
Qed.
End contained.

(** ** Going back *)

Definition same_place (p q : Q * Q) : Prop := (p.1 == q.1 /\ p.2 == q.2)%Q.

(** The layout of the page is that of the style: an element is where its style puts it,
    from where it is positioned. *)
Definition layout_of_style (lay : Q * Q -> layout) : Prop := forall p,
  same_place ((l_offset (lay p)).1 - s_left (l_margins (lay p)), (l_offset (lay p)).2 - s_top (l_margins (lay p)))%Q
    (p.1 + (l_relative (lay p)).1 + (l_parent (lay p)).1 - (l_scroll (lay p)).1, p.2 + (l_relative (lay p)).2 + (l_parent (lay p)).2 - (l_scroll (lay p)).2)%Q.

Section revert.
Context {M : Type} `{drop_host M}.
Context (lay : Q * Q -> layout) (on_handle : mevent -> bool) (allow : devent -> bool).

Definition home (s : draggable) (c : Q * Q) : Prop := exists p, originalPosition s = Some p /\ same_place p c.

Lemma move_home silent e (w : draggable * M) : originalPosition (drag_move silent e w).1 = originalPosition w.1.
Proof. destruct w as [s m]. unfold drag_move, set_style. destruct silent; cbn -[generatePosition to_absolute]; by destruct (o_clone s). Qed.

Lemma start_home e (w : draggable * M) : layout_of_style lay -> (drag_start lay allow e w).2 = true ->
  originalPosition w.1 = None \/ (o_grid w.1 = None /\ containment w.1 = None) ->
  home (drag_start lay allow e w).1.1 (el w.1).
Proof.
  intros Hl Hok Hw. destruct w as [s m]. unfold drag_start in Hok |- *. cbn zeta in Hok |- *. destruct (allow _); [|done]. cbn [fst snd] in Hok, Hw |- *.
  unfold home. rewrite move_home. cbn [fst]. set (l := lay (el s)) in *.
  set (cl := ((pageX e - ((l_offset l).1 - s_left (l_margins l)))%Q, (pageY e - ((l_offset l).2 - s_top (l_margins l)))%Q)).
  set (s1 := s <| helper := Some (el s) |> <| page_layout := l |> <| positionAbs := l_offset l |> <| click := cl |>).
  exists (generatePosition e s1). split.
  { unfold setContainment, tell. destruct (o_containment _); cbn -[generatePosition]; by destruct (o_cursorAt s). }
  assert (constrain e s1 = (pageX e, pageY e)) as Hc.
  { unfold constrain. change (originalPosition s1) with (originalPosition s). destruct Hw as [->|[Hg Hn]]; [done|].
    destruct (originalPosition s); [|done]. unfold bounds_of. change (containment s1) with (containment s). change (o_grid s1) with (o_grid s).
    by rewrite Hg, Hn. }
  destruct (Hl (el s)) as [L1 L2]. fold l in L1, L2. cbn [fst snd] in L1, L2. unfold generatePosition. rewrite Hc. cbn -[Qminus Qplus].
  split; cbn -[Qminus Qplus].
  - assert (pageX e - (pageX e - ((l_offset l).1 - s_left (l_margins l))) == (l_offset l).1 - s_left (l_margins l))%Q as -> by ring. rewrite L1. ring.
  - assert (pageY e - (pageY e - ((l_offset l).2 - s_top (l_margins l))) == (l_offset l).2 - s_top (l_margins l))%Q as -> by ring. rewrite L2. ring.
Qed.

(** What moves the element: only the style of the helper is set. *)
Definition moves (es : list mevent) (w : draggable * M) : draggable * M := fold_left (fun w e => drag_move false e w) es w.

Lemma moves_home es (w : draggable * M) : originalPosition (moves es w).1 = originalPosition w.1.
Proof. revert w. induction es as [|e es IH]; intros w; [done|]. cbn. by rewrite IH, move_home. Qed.

(** A drag that is reverted ends with the element where it was: with the first drag, and
    with every drag without a grid and bounds; then [stop] is told. *)
Lemma reverted_home e es e' (w : draggable * M) : layout_of_style lay -> o_clone w.1 = false ->
  originalPosition w.1 = None \/ (o_grid w.1 = None /\ containment w.1 = None) ->
  (drag_start lay allow e w).2 = true ->
  let s := (drag_stop allow e' (moves es (drag_start lay allow e w).1)).1 in
  reverting s = true -> same_place (el (revert_end allow s)) (el w.1).
Proof.
  intros Hl Hcl Hw Hok s Hr. destruct (start_home e w Hl Hok Hw) as (p & Hp & Hs).
  set (w1 := (drag_start lay allow e w).1) in *.
  assert (forall silent e (v : draggable * M), o_clone (drag_move silent e v).1 = o_clone v.1) as Hmc.
  { intros silent e0 [s0 m0]. unfold drag_move, set_style. destruct silent; cbn -[generatePosition to_absolute]; destruct (o_clone s0) eqn:Ec; exact Ec. }
  assert (o_clone (moves es w1).1 = false) as Hc.
  { assert (o_clone w1.1 = false) as H1.
    { unfold w1, drag_start. destruct w as [s0 m0]. cbn zeta. destruct (allow _); cbn [fst]; [rewrite Hmc|]; cbn -[generatePosition];
        unfold setContainment; destruct (o_containment _); cbn -[generatePosition]; by destruct (o_cursorAt s0). }
    clear -H1 Hmc. clearbody w1. revert w1 H1. induction es as [|e0 es IH]; intros w1 H1; [done|]. cbn. apply IH. by rewrite Hmc. }
  pose proof (moves_home es w1) as Hh. rewrite Hp in Hh.
  assert (originalPosition s = Some p /\ o_clone s = false) as [Ho Hc'].
  { unfold s, drag_stop. destruct (dd_drop _ _) as [m b]. cbn [fst]. destruct (reverts _ _); [by split|].
    unfold finish. destruct (allow _); by split. }
  unfold revert_end. rewrite Hr. cbn zeta. change (originalPosition (s <| reverting := false |>)) with (originalPosition s). rewrite Ho. unfold set_style. change (o_clone (s <| reverting := false |> <| helper := Some p |>)) with (o_clone s).
  rewrite Hc'. unfold finish. by destruct (allow _).
Qed.
End revert.

(** ** The properties *)

Section properties.
Context (lay : Q * Q -> layout) (on_handle : mevent -> bool) (allow : devent -> bool) (mo : mouse_options).

(** A droppable of a new page that is not greedy. *)
Definition fresh_drop (p : droppable) : Prop := flat p /\ visible p = false /\ isover p = false /\ has_active p = false.

(** C12. Droppables that are not greedy and that are, while the mouse is used, moved about but
    neither shown nor hidden, disabled, enabled or given another [accept], are told their events
    in order: whatever is pressed, moved, released and cancelled, and wherever they lie
    meanwhile, one that takes part is told in turns to be activated, that the draggable is over
    it and out of it, that it is dropped on, and to be deactivated; between drags it is told all
    of it, it is over none and has not the class of the active; one that does not take part is
    told nothing. *)
Theorem droppable_told l s ps w : Forall fresh_drop ps -> forallb steady l = true ->
  page_acts lay on_handle allow mo l (mouseInit, (s, mk_manager ps [])) = Some w ->
  forall i p, droppables w.2.2 !! i = Some p ->
  if eligible p then
    stage_run (heard i w.2.2) Idle = Some (if mouseStarted w.1 then (if isover p then Hovering else Armed) else Idle) /\
    has_active p = mouseStarted w.1 && activeClass p /\ (mouseStarted w.1 = false -> isover p = false)
  else heard i w.2.2 = [] /\ isover p = false.
Proof.
  intros Hps Hl E i p Hp. assert (page_phase (mouseInit, (s, mk_manager ps []))) as H0.
  { intros j q Hq. pose proof (proj1 (Forall_lookup _ _) Hps j q Hq) as (F1 & F2 & F3 & F4). split; [done|]. by destruct (eligible q). }
  pose proof (page_acts_phase lay on_handle allow mo l _ w Hl H0 E) as H. unfold page_phase, phase in H.
  destruct (mouseStarted w.1); destruct (H i p Hp) as [_ Hq]; destruct (eligible p).
  - destruct Hq as (_ & Q2 & Q3). by split_and!.
  - by destruct Hq as (_ & Q2 & Q3).
  - destruct Hq as (Q1 & Q2 & Q3). by split_and!.
  - by destruct Hq as (_ & Q2 & Q3).
Qed.

Definition page_contained : page -> Prop := phase3 idle_d captured_d moving_d.

Lemma page_act_contained a w w' : page_contained w -> page_act lay on_handle allow mo a w = Some w' -> page_contained w'.
Proof.
  intros Hw E. destruct a as [a|i b|i b|i b|i b]; cbn [page_act] in E; try (injection E as <-; exact Hw).
  assert (forall e v, idle_d (M := manager) v -> idle_d (beforeUp (mouse_plugin := draggable_plugin lay on_handle allow) e v)) as Hup0 by done.
  unfold drag_act in E. destruct w as [m s], a as [a| |b|].
  - destruct (mouse_act_phase3 (H := draggable_plugin lay on_handle allow) mo idle_d captured_d moving_d) with (a := a) (w := (m, s)) as (w2 & E2 & H2); try done.
    + intros e v [V1 V2]. split; [done|]. cbn. by rewrite V2.
    + intros e v. apply capture_contained.
    + intros e e' v. apply start_contained.
    + intros e v [Hv _]. by apply move_contained.
    + intros e v. apply stop_contained.
    + rewrite E2 in E. by injection E as <-.
  - injection E as <-. destruct Hw as [Ht H3]. split; [exact Ht|]. cbn [fst snd] in *.
    assert (reverting s.1 = false -> revert_end allow s.1 = s.1) as Hid by (intros Er; unfold revert_end; by rewrite Er).
    destruct (mouseStarted m); [|destruct (decide _)].
    + destruct H3 as [H3 H4]. pose proof H3 as (_ & _ & _ & Er). rewrite Hid by done. by split.
    + destruct H3 as [H3 H4]. destruct (reverting s.1) eqn:Er; [|rewrite Hid by done; by split; cbn; rewrite ?Er].
      destruct (revert_contained allow s H3 Er) as [R1 R2]. split; cbn [fst]; [done|congruence].
    + destruct H3 as [H3 H4]. rewrite Hid by done. by split.
  - injection E as <-. exact Hw.
  - destruct (helper s.1); [|done]. match type of E with Some ?x = _ => assert (x = w') as <- by (injection E as E; exact E) end.
    apply (mouseUp_phase3 (H := draggable_plugin lay on_handle allow) idle_d captured_d moving_d); try done.
    + intros e v [V1 V2]. split; [done|]. cbn. by rewrite V2.
    + intros e v. apply stop_contained.
Qed.

(** C30. While a draggable is dragged, the style that is written to its helper, and to the
    element itself if that is the helper, puts it into its container, in each direction that the
    option [axis] lets it move: its position into an array; its border box into the document, or
    into the window if it is positioned from the corner of the page; its margin box into the
    content of an element whose borders on the two sides are equal; provided that the container
    has room for the helper and, with a grid, for a cell more. *)
Theorem draggable_contained ax c g r clone cursor style l0 ps l w :
  page_acts lay on_handle allow mo l (mouseInit, (create ax c g r clone cursor style l0, mk_manager ps [])) = Some w ->
  mouseStarted w.1 = true -> placed w.2.1.
Proof.
  intros E Hs. enough (page_contained w) as [_ H] by (rewrite Hs in H; apply H). revert E.
  assert (page_contained (mouseInit, (create ax c g r clone cursor style l0, mk_manager ps []))) as H0 by (by apply phase3_idle).
  revert H0. generalize ((mouseInit, (create ax c g r clone cursor style l0, mk_manager ps [])) : page).
  induction l as [|a l IH]; intros w0 H0 E; cbn in E; [by injection E as <-|].
  destruct (page_act lay on_handle allow mo a w0) as [w1|] eqn:E1; [|done]. apply (IH w1); [by eapply page_act_contained|done].
Qed.
End properties.

(** ** Runs

    A picture of 40 by 40 pixels that is dragged over bins, and the places where the code
    does not do what it means to. *)

Definition desk (p : Q * Q) : layout := mk_layout (100 + p.1, 50 + p.2)%Q (mk_sides 0 0 0 0) 40 40 (0, 0)%Q (100, 50)%Q (0, 0)%Q.
Definition quick : mouse_options := mk_mouse_options 1 0 false.
Definition pointer (x y : Q) : mevent := mk_mevent 7 x y 1 1 false.
Abbreviation run l s ps := (page_acts desk (fun _ => true) (fun _ => true) quick l (mouseInit, (s, mk_manager ps []))).
Definition press (x y : Q) : page_action := Use (MouseOn (Press (pointer x y))).
Definition move (x y : Q) : page_action := Use (MouseOn (Move (pointer x y))).
Definition release (x y : Q) : page_action := Use (MouseOn (Release (pointer x y))).

Definition picture : draggable := create AxisAny NoContainment None RevertNo false None (0, 0)%Q (desk (0, 0)%Q).
Definition bin : droppable := new_droppable true false Intersect None (mk_box_of 200 50 100 100).
Definition wall : droppable := new_droppable false false Intersect None (mk_box_of 200 50 100 100).

Lemma droppable_told_witness :
  let l := [press 110 60; move 215 65; move 120 60; Place 0 (mk_box_of 180 50 100 100); move 230 80; release 230 80] in
  match run l picture [bin; wall] with
  | Some w => heard 0 w.2.2 = [Activate; Over; Out; Over; Drop; Deactivate] /\ stage_run (heard 0 w.2.2) Idle = Some Idle /\ heard 1 w.2.2 = []
  | None => False
  end.
Proof.
  intros l. destruct (run l picture [bin; wall]) as [w|] eqn:E; [|vm_compute in E; discriminate E].
  assert (Forall fresh_drop [bin; wall]) as Hps by (repeat constructor).
  pose proof (droppable_told desk (fun _ => true) (fun _ => true) quick l picture [bin; wall] w Hps eq_refl E) as H.
  vm_compute in E. injection E as <-. split; [reflexivity|].
  split; [exact (proj1 (H 0%nat _ eq_refl))|exact (proj1 (H 1%nat _ eq_refl))].
Defined.

(** In an element of 300 by 200 pixels with a border of 5 and a padding of 10, on a grid. *)
Definition framed : draggable :=
  create AxisAny (InElement (100, 50)%Q (mk_sides 5 5 5 5) (mk_sides 10 10 10 10) 300 200) (Some (30, 30)%Q) RevertNo false None (20, 20)%Q (desk (20, 20)%Q).

Lemma draggable_contained_witness :
  match run [press 130 80; move 500 60; move 170 400] framed [bin] with
  | Some w => placed w.2.1 /\ exists p, helper w.2.1 = Some p /\
      holds_x (o_containment framed) (page_layout w.2.1) (on_page (page_layout w.2.1) p).1 /\
      holds_y (o_containment framed) (page_layout w.2.1) (on_page (page_layout w.2.1) p).2
  | None => False
  end.
Proof.
  destruct (run [press 130 80; move 500 60; move 170 400] framed [bin]) as [w|] eqn:E; [|vm_compute in E; discriminate E].
  pose proof (draggable_contained desk (fun _ => true) (fun _ => true) quick AxisAny
    (InElement (100, 50)%Q (mk_sides 5 5 5 5) (mk_sides 10 10 10 10) 300 200) (Some (30, 30)%Q) RevertNo false None
    (20, 20)%Q (desk (20, 20)%Q) [bin] _ w E) as H.
  vm_compute in E. injection E as <-. specialize (H eq_refl). split; [exact H|].
  destruct H as (p & Hp & _ & Hx & Hy). exists p. split; [exact Hp|]. split.
  - apply Hx; [done|reflexivity|]. split; [reflexivity|]. exists 120%Q. repeat split; vm_compute; discriminate.
  - apply Hy; [done|reflexivity|]. split; [reflexivity|]. exists 70%Q. repeat split; vm_compute; discriminate.
Defined.

Definition told_to (i : nat) (o : option page) : option (list pevent) := (fun w : page => heard i w.2.2) <$> o.
Definition state_of (i : nat) (o : option page) : option droppable := o ≫= fun w : page => droppables w.2.2 !! i.

(** After a drop on a greedy droppable the one around it is still taken to be left for it:
    it is not told of the next drag over it. *)
Definition tray : droppable := new_droppable true false Intersect None (mk_box_of 200 50 300 300).
Definition slot : droppable := new_droppable true true Intersect (Some 0%nat) (mk_box_of 220 70 60 60).
Example parent_stays_deaf :
  let first := [press 110 60; move 240 90; release 240 90; Use RevertEnd] in
  let second := [press 110 60; move 410 210; move 411 211] in
  let s := create AxisAny NoContainment None RevertYes false None (0, 0)%Q (desk (0, 0)%Q) in
  told_to 0 (run second s [tray; slot]) = Some [Activate; Over] /\
  told_to 0 (run (first ++ second) s [tray; slot]) = Some [Activate; Over; Out; Deactivate; Activate] /\
  greedyChild <$> state_of 0 (run (first ++ second) s [tray; slot]) = Some true.
Proof. repeat split; reflexivity. Qed.

(** When the inner droppable was made first, the one around it is told that the draggable
    left it, but not that it came. *)
Definition inner_first : list droppable :=
  [new_droppable true true Intersect (Some 1%nat) (mk_box_of 220 70 60 60); new_droppable true false Intersect None (mk_box_of 200 50 300 300)].
Example out_without_over :
  told_to 1 (run [press 110 60; move 240 90] picture inner_first) = Some [Activate; Out] /\ stage_run [Activate; Out] Idle = None.
Proof. split; reflexivity. Qed.

(** With the option axis the droppables are asked about the mouse, not about the element: a
    bin is told that it is over it, and gets it, but it is beside. *)
Example axis_ignored :
  let low := new_droppable true false Intersect None (mk_box_of 200 350 100 100) in
  let s := create AxisX NoContainment None RevertNo false None (0, 0)%Q (desk (0, 0)%Q) in
  told_to 0 (run [press 110 60; move 230 380; release 230 380] s [low]) = Some [Activate; Over; Drop; Deactivate] /\
  (fun w : page => el w.2.1) <$> run [press 110 60; move 230 380; release 230 380] s [low] = Some (120, 0)%Q.
Proof. split; vm_compute; reflexivity. Qed.

(** A droppable that is hidden, or accepts the draggable no longer, during a drag is never
    deactivated; one that moves away at the end keeps the class of the hovered. *)
Example stays_active :
  let l := [press 110 60; move 215 65] in
  has_active <$> state_of 0 (run (l ++ [Display 0 false; release 215 65]) picture [bin]) = Some true /\
  has_active <$> state_of 0 (run (l ++ [Accept 0 false; release 215 65]) picture [bin]) = Some true /\
  has_hover <$> state_of 0 (run (l ++ [Place 0 (mk_box_of 600 50 100 100); release 215 65]) picture [bin]) = Some true.
Proof. repeat split; reflexivity. Qed.

(** The original position of a second drag is put on the grid of the first: reverting it
    takes the element to a place where it never was. *)
Definition gridded : draggable := create AxisAny NoContainment (Some (30, 30)%Q) RevertYes false None (0, 0)%Q (desk (0, 0)%Q).
Example reverts_elsewhere :
  let drag x := [press x 60; move (x + 60) 60; release (x + 60) 60; Use RevertEnd] in
  let ends l x := match run l gridded [] with Some w => Qeq_bool (el w.2.1).1 x | None => false end in
  ends (drag 110%Q) 0%Q = true /\ ends (drag 110%Q ++ drag 122%Q) (-12)%Q = true.
Proof. split; vm_compute; reflexivity. Qed.

(** With cells that are larger than the space an element that begins outside stays there. *)
Example grid_leaves :
  let s := create AxisAny (InArray (mk_sides 100 50 120 120)) (Some (50, 50)%Q) RevertNo false None (-10, 0)%Q (desk (-10, 0)%Q) in
  match run [press 90 60; move 500 60] s [] with Some w => qless (positionAbs w.2.1).1 100 | None => false end = true.
Proof. vm_compute. reflexivity. Qed.

(** The right bound of an element is computed with its left border: within an element whose
    right border is wider, a draggable covers the border. *)
Example wrong_border :
  let s := create AxisAny (InElement (0, 0)%Q (mk_sides 1 1 21 1) (mk_sides 0 0 0 0) 300 300) None RevertNo false None (0, 0)%Q (desk (0, 0)%Q) in
  match bounds_of (setContainment s) with Some b => qless (300 - 21) (s_right b + 40) | None => false end = true.
Proof. reflexivity. Qed.

(** The left bound of a window is computed without what positions the helper: it can be
    dragged out of the window by the offset of its parent. *)
Example out_of_window :
  let s := create AxisAny (InWindow (0, 0)%Q 800 600) None RevertNo false None (0, 0)%Q (desk (0, 0)%Q) in
  match run [press 110 60; move (-200) 60] s [] with Some w => Qeq_bool (on_page (page_layout w.2.1) (el w.2.1)).1 (-100) | None => false end = true.
Proof. vm_compute. reflexivity. Qed.
