(* ===== verification/UiSpinner.v ===== *)
(** * jQuery UI spinner

    Models the widget [ui.spinner] of [2019104287/code/WebContent/js/jquery-ui.js]: the
    text of the input, its value, steps and pages, the timers of a button or key that is
    held and of the wheel, the events [start], [spin], [stop] and [change], and the focus.
    Globalize is not loaded; icons and the wrapper around the input are left out.  The
    rounding of the sum that [_adjustValue] repairs with [toFixed] is a parameter, the
    interface [Rounding]. *)

From S2P Require Export JsDecimal.

Module Spinner.

(** What options and [value] are given: a text, a number or [null]. *)
Inductive sval := VText (s : string) | VNum (n : option dec) | VNull.

(** [incremental]: a function, or true or false. *)
Inductive incremental := Always1 | Growing | Own (f : Z -> dec).

Inductive sevent := EvStart | EvSpin (value : option dec) | EvStop | EvChange | Thrown.

(** What was put off with [_delay]. *)
Inductive later := Repeat (steps : dec) | WheelOver | SetPrevious (p : option string) | BlurOver (p : option string).

(** [counter] is 0 when it is not set; [aria] are the three attributes. *)
Record spinner := mk_spinner {
  o_max : option dec; o_min : option dec; o_step : option dec; o_page : dec; o_incremental : incremental; disabled : bool;
  text : string; aria : option dec * option dec * option dec;
  counter : Z; spinning : bool; timer : option nat; wheelTimer : option nat; pending : list (nat * later); ids : nat;
  previous : option string; focused : bool; cancelBlur : bool; destroyed : bool; told : list sevent;
}.
#[export] Instance spinner_eta : Settable spinner := fun s =>
  mk_spinner (o_max s) (o_min s) (o_step s) (o_page s) (o_incremental s) (disabled s) (text s) (aria s)
    (counter s) (spinning s) (timer s) (wheelTimer s) (pending s) (ids s)
    (previous s) (focused s) (cancelBlur s) (destroyed s) (told s).

(** An operation ends, or it throws and leaves the state it had reached. *)
Definition M : Type := spinner -> spinner * bool.
Definition pure (f : spinner -> spinner) : M := fun s => (f s, true).
Definition throw : M := fun s => (s <| told := told s ++ [Thrown] |>, false).
Definition andThen (f g : M) : M := fun s => let r := f s in if r.2 then g r.1 else r.

Definition tell (ev : sevent) (s : spinner) : spinner := s <| told := told s ++ [ev] |>.

(** ** Values *)

(** [_parse]; [None] is [null]. *)
Definition parse (v : sval) : option dec :=
  match v with
  | VText s => if String.eqb s "" then None else text_number s
  | VNum n => n
  | VNull => None
  end.

(** [.val(v)]. *)
Definition val_text (v : sval) : string :=
  match v with
  | VText s => s
  | VNum (Some d) => dec_text d
  | VNum None => "NaN"
  | VNull => ""
  end.

(** [value()]. *)
Definition value (s : spinner) : option dec := parse (VText (text s)).

Definition precision (s : spinner) (step : dec) : nat :=
  match o_min s with
  | Some m => Nat.max (precisionOf step) (precisionOf m)
  | None => precisionOf step
  end.

(** The double that the sum of [_adjustValue] yields for its exact value, a parameter: the
    errors of its difference, quotient, product and sum taken together.  Other sums are exact. *)
Class Rounding := rounded : dec -> dec.

Section arithmetic.
Context `{R : Rounding}.

(** [_adjustValue], which throws if there is no step. *)
Inductive adjusted := Throws | Adjusted (v : option dec).

Definition clamp (s : spinner) (v : dec) : dec :=
  match o_max s with
  | Some mx =>
      if dec_ltb mx v then mx
      else match o_min s with Some mn => if dec_ltb v mn then mn else v | None => v end
  | None => match o_min s with Some mn => if dec_ltb v mn then mn else v | None => v end
  end.

Definition adjustValue (s : spinner) (v : dec) : adjusted :=
  match o_step s with
  | None => Throws
  | Some step =>
      let base := default (dec_of 0) (o_min s) in
      match round_quotient (dec_sub v base) step with
      | None => Adjusted None
      | Some n =>
          let v := rounded (dec_add base (dec_mul (dec_of n) step)) in
          Adjusted (Some (clamp s (toFixed (precision s step) v)))
      end
  end.

Definition refresh (s : spinner) : spinner := s <| aria := (o_min s, o_max s, value s) |>.

(** [_value]. *)
Definition put_value (v : sval) (allowAny : bool) : M := fun s =>
  let write (v : sval) := (refresh (s <| text := val_text v |>), true) in
  match v with
  | VText EmptyString => write v
  | _ =>
      match parse v with
      | None => write v
      | Some d =>
          if allowAny then write (VNum (Some d))
          else match adjustValue s d with
               | Throws => throw s
               | Adjusted v => write (VNum v)
               end
      end
  end.

(** [modifier]. *)
Definition modifier (f : M) : M := fun s =>
  let old := text s in
  andThen f (pure (fun s =>
    let s := refresh s in
    if String.eqb old (text s) then s else tell EvChange s)) s.

(** ** Spinning *)

Section spinner.
(** Listeners of the page only allow or prevent. *)
Context (allow : sevent -> bool).

(** [Math.floor(i*i*i/50000 - i*i/500 + 17*i/200 + 1)]. *)
Definition growing (i : Z) : Z := (i * i * i - 100 * i * i + 4250 * i + 50000) / 50000.

Definition increment (s : spinner) (i : Z) : dec :=
  match o_incremental s with
  | Always1 => dec_of 1
  | Growing => dec_of (growing i)
  | Own f => f i
  end.

(** [_start]: the answer, and the state. *)
Definition start (s : spinner) : spinner * bool :=
  let fired := negb (spinning s) in
  let s := if fired then tell EvStart s else s in
  if fired && negb (allow EvStart) then (s, false)
  else (s <| counter := if counter s =? 0 then 1 else counter s |> <| spinning := true |>, true).

(** [_spin], by [steps] steps. *)
Definition spin (steps : dec) : M := fun s =>
  let v := default (dec_of 0) (value s) in
  let s := s <| counter := if counter s =? 0 then 1 else counter s |> in
  match o_step s with
  | None => throw s
  | Some step =>
      match adjustValue s (dec_add v (dec_mul (dec_mul steps step) (increment s (counter s)))) with
      | Throws => throw s
      | Adjusted v =>
          let s' := if spinning s then tell (EvSpin v) s else s in
          if negb (spinning s) || allow (EvSpin v)
          then andThen (put_value (VNum v) false) (pure (fun s => s <| counter := counter s + 1 |>)) s'
          else (s', true)
      end
  end.

Definition clearTimeout (h : option nat) (s : spinner) : spinner :=
  match h with
  | Some n => s <| pending := List.filter (fun p => negb (p.1 =? n)%nat) (pending s) |>
  | None => s
  end.

Definition delay (l : later) (s : spinner) : spinner := s <| pending := pending s ++ [(ids s, l)] |> <| ids := S (ids s) |>.

(** [_repeat]. *)
Definition repeat (steps : dec) : M := fun s =>
  let s := clearTimeout (timer s) s in
  let s := delay (Repeat steps) (s <| timer := Some (ids s) |>) in
  spin steps s.

(** [_stop]. *)
Definition stop (s : spinner) : spinner :=
  if spinning s
  then
    let s := clearTimeout (timer s) s in
    let s := clearTimeout (wheelTimer s) s in
    tell EvStop (s <| counter := 0 |> <| spinning := false |>)
  else s.

(** ** Keys, wheel and buttons *)

Inductive skey := KUp | KDown | KPageUp | KPageDown | KOther.

(** [_keydown]. *)
Definition key_steps (k : skey) (s : spinner) : option dec :=
  match k with
  | KUp => Some (dec_of 1)
  | KDown => Some (dec_of (-1))
  | KPageUp => Some (o_page s)
  | KPageDown => Some (dec_opp (o_page s))
  | KOther => None
  end.

Definition keydown (k : skey) : M := fun s =>
  let r := start s in
  if r.2 then match key_steps k r.1 with Some n => repeat n r.1 | None => (r.1, true) end else (r.1, true).

Definition mousewheel (delta : Z) : M := fun s =>
  if delta =? 0 then (s, true)
  else
    let r := if spinning s then (s, true) else start s in
    if negb r.2 then (r.1, true)
    else
      andThen (spin (dec_of (if 0 <? delta then 1 else -1)))
        (pure (fun s =>
          let s := clearTimeout (wheelTimer s) s in
          delay WheelOver (s <| wheelTimer := Some (ids s) |>))) r.1.

(** The element gets the focus: [previous] is remembered unless the widget is disabled. *)
Definition focus (s : spinner) : spinner :=
  if disabled s then s else s <| focused := true |> <| previous := Some (text s) |>.

Definition blur (s : spinner) : spinner :=
  let s := s <| focused := false |> in
  if disabled s || destroyed s then s
  else if cancelBlur s then s <| cancelBlur := false |>
  else
    let s := refresh s in
    if bool_decide (previous s = Some (text s)) then s else tell EvChange s.

(** [checkFocus] of a press of a button. *)
Definition checkFocus (p : option string) (s : spinner) : spinner :=
  if focused s then s
  else delay (SetPrevious p) (focus s <| previous := p |>).

Definition button_press (up : bool) : M := fun s =>
  let p := if focused s then previous s else Some (text s) in
  let s := checkFocus p s in
  let s := delay (BlurOver p) (s <| cancelBlur := true |>) in
  let r := start s in
  if r.2 then repeat (dec_of (if up then 1 else -1)) r.1 else (r.1, true).

(** The pointer comes back to a button; [active] if the button was pressed. *)
Definition button_enter (up active : bool) : M := fun s =>
  if negb active then (s, true)
  else
    let r := start s in
    if r.2 then repeat (dec_of (if up then 1 else -1)) r.1 else (r.1, true).

(** A call that was put off. *)
Definition fire (n : nat) : M := fun s =>
  match list_find (fun p => p.1 = n) (pending s) with
  | None => (s, true)
  | Some (_, (_, l)) =>
      let s := s <| pending := List.filter (fun p => negb (p.1 =? n)%nat) (pending s) |> in
      match l with
      | Repeat steps => repeat steps s
      | WheelOver => (if spinning s then stop s else s, true)
      | SetPrevious p => (s <| previous := p |>, true)
      | BlurOver p => (checkFocus p (s <| cancelBlur := false |>), true)
      end
  end.

(** ** Options and methods *)

Inductive soption :=
  | OMax (v : sval) | OMin (v : sval) | OStep (v : sval) | OPage (n : dec) | OIncremental (i : incremental)
  | ODisabled (b : bool) | OCulture.

(** [_setOption]. *)
Definition setOption (o : soption) (s : spinner) : spinner :=
  match o with
  | OMax v => s <| o_max := parse v |>
  | OMin v => s <| o_min := parse v |>
  | OStep v => s <| o_step := parse v |>
  | OPage n => s <| o_page := n |>
  | OIncremental i => s <| o_incremental := i |>
  | ODisabled b => s <| disabled := b |>
  | OCulture => s <| text := val_text (match value s with Some d => VNum (Some d) | None => VNull end) |>
  end.

Definition setOptions (l : list soption) : M := modifier (fun s =>
  let s := fold_left (fun s o => setOption o s) l s in
  put_value (VText (text s)) false s).

(** A number of steps or pages that is 0 or missing is 1. *)
Definition or_one (n : dec) : dec := if mant n =? 0 then dec_of 1 else n.

Definition stepUp (n : dec) : M := modifier (spin (or_one n)).
Definition stepDown (n : dec) : M := modifier (spin (dec_opp (or_one n))).
Definition pageUp (n : dec) : M := modifier (fun s => spin (or_one (dec_mul (or_one n) (o_page s))) s).
Definition pageDown (n : dec) : M := modifier (fun s => spin (dec_opp (or_one (dec_mul (or_one n) (o_page s)))) s).
Definition set_value (v : sval) : M := modifier (put_value v false).

Definition destroy (s : spinner) : spinner := s <| aria := (None, None, None) |> <| destroyed := true |>.

(** [_create], on an input with the text [t]. *)
Definition create (mx mn step : sval) (page : dec) (inc : incremental) (dis : bool) (t : string) : spinner :=
  let s := mk_spinner (parse mx) (parse mn) (parse step) page inc dis t (None, None, None)
             0 false None None [] 0 None false false false [] in
  refresh (put_value (VText t) true s).1.

(** What happens to a spinner; its handlers do nothing while it is disabled. *)
Inductive saction :=
  | KeyDown (k : skey) | KeyUp | Focus | Blur | Wheel (delta : Z) | Press (up : bool) | Release
  | Enter (up active : bool) | Leave | Fire (n : nat) | Type_ (t : string)
  | SetOptions (l : list soption) | Disable (b : bool) | StepUp (n : dec) | StepDown (n : dec) | PageUp (n : dec)
  | PageDown (n : dec) | SetValue (v : sval) | Destroy.

Definition handled (f : M) (s : spinner) : spinner := if disabled s || destroyed s then s else (f s).1.

Definition called (f : M) (s : spinner) : spinner := if destroyed s then tell Thrown s else (f s).1.

Definition act (a : saction) (s : spinner) : spinner :=
  match a with
  | KeyDown k => handled (keydown k) s
  | KeyUp | Release | Leave => handled (pure stop) s
  | Focus => if destroyed s then s <| focused := true |> else focus s
  | Blur => blur s
  | Wheel delta => handled (mousewheel delta) s
  | Press up => handled (button_press up) s
  | Enter up active => handled (button_enter up active) s
  | Fire n => (fire n s).1
  | Type_ t => s <| text := t |>
  | SetOptions l => called (setOptions l) s
  | Disable b => called (pure (setOption (ODisabled b))) s
  | StepUp n => called (stepUp n) s
  | StepDown n => called (stepDown n) s
  | PageUp n => called (pageUp n) s
  | PageDown n => called (pageDown n) s
  | SetValue v => called (set_value v) s
  | Destroy => called (pure destroy) s
  end.
End spinner.
End arithmetic.
End Spinner.
