(* ===== verification/SpinnerFlow.v ===== *)
(** * jQuery UI spinner, its properties

    What is written is within the bounds and on the grid of the steps; a key that is held
    adds the sum of the increments up to the maximum; starts and stops alternate, and
    nothing spins between a stop and the next start. *)

From S2P Require Export UiSpinner.
Import Spinner.

Section rounding.
Context `{R : Rounding}.

(** ** The grid of the steps *)

Section options.
Context (s : spinner) (step : dec).

Definition base : dec := default (dec_of 0) (o_min s).
Definition grid (k : Z) : dec := dec_add base (dec_mul (dec_of k) step).

Definition in_bounds (v : dec) : Prop :=
  (forall mn, o_min s = Some mn -> dec_ltb v mn = false) /\ (forall mx, o_max s = Some mx -> dec_ltb mx v = false).

(** The error of floating point: within the bounds a point of the grid is computed to
    less than half a unit of the last place of step and minimum, and what is computed for
    a point beyond a bound is beyond it. *)
Record rounding_ok : Prop := {
  ro_near : forall k, in_bounds (grid k) -> near (precision s step) (rounded (grid k)) (grid k);
  ro_above : forall k mx, o_max s = Some mx -> dec_ltb mx (grid k) = true ->
    dec_ltb mx (toFixed (precision s step) (rounded (grid k))) = true;
  ro_below : forall k mn, o_min s = Some mn -> dec_ltb (grid k) mn = true ->
    dec_ltb (toFixed (precision s step) (rounded (grid k))) mn = true;
}.

(** A positive step and bounds in order; step and minimum are not written with an
    exponent; [dec_ok] is true of every number. *)
Record options_ok : Prop := {
  oo_step : o_step s = Some step;
  oo_pos : 0 < mant step;
  oo_ok : dec_ok step /\ (forall d, o_min s = Some d -> dec_ok d) /\ (forall d, o_max s = Some d -> dec_ok d);
  oo_plain : plain step /\ forall d, o_min s = Some d -> plain d;
  oo_order : forall mn mx, o_min s = Some mn -> o_max s = Some mx -> dec_ltb mx mn = false;
  oo_round : rounding_ok;
}.
Context (Hok : options_ok).

(** A scale on which all numbers concerned are whole. *)
Definition fits (q : nat) (v : dec) : Prop :=
  (places v <= q)%nat /\ (places step <= q)%nat /\ (places base <= q)%nat /\
  forall mx, o_max s = Some mx -> (places mx <= q)%nat.

Definition common (v : dec) : nat :=
  Nat.max (Nat.max (places v) (places step)) (Nat.max (places base) (match o_max s with Some m => places m | None => O end)).

Lemma common_fits v : fits (common v) v.
Proof. unfold common. split; [lia|]. split; [lia|]. split; [lia|]. intros mx ->. lia. Qed.

Lemma fits_le q r v : (q <= r)%nat -> fits q v -> fits r v.
Proof.
  intros Hle (A & B & C & D). split; [lia|]. split; [lia|]. split; [lia|]. intros mx Hmx. specialize (D mx Hmx). lia.
Qed.

Lemma raise_pos q : (places step <= q)%nat -> 0 < raise q step.
Proof. intros H. unfold raise. pose proof (pow10_pos (q - places step)). pose proof (oo_pos Hok). nia. Qed.

Lemma grid_small k : (places (grid k) <= Nat.max (places base) (places step))%nat.
Proof.
  unfold grid. etrans; [apply add_places|]. unfold scale.
  assert (places (dec_mul (dec_of k) step) <= places step)%nat by apply norm_spec. lia.
Qed.

Lemma grid_places k : (places (grid k) <= precision s step)%nat.
Proof.
  destruct (oo_plain Hok) as [Hs Hm]. apply precisionOf_plain in Hs. pose proof (grid_small k) as H.
  unfold precision, base in *. destruct (o_min s) as [mn|]; [|cbn in *; lia].
  specialize (Hm mn eq_refl). apply precisionOf_plain in Hm. cbn in *. lia.
Qed.

Lemma raise_grid q v k : fits q v -> raise q (grid k) = raise q base + k * raise q step.
Proof.
  intros (_ & H1 & H2 & _). assert (places (dec_mul (dec_of k) step) <= places step)%nat by apply norm_spec.
  unfold grid. rewrite raise_add by (unfold scale; lia). by rewrite raise_mul_int by lia.
Qed.

(** The point nearest to [v]. *)
Definition nearest (v : dec) : Z :=
  let q := common v in (2 * (raise q v - raise q base) + raise q step) / (2 * raise q step).

Lemma nearest_bound q v : fits q v ->
  2 * Z.abs (raise q v - raise q (grid (nearest v))) <= raise q step.
Proof.
  intros Hf. pose proof (common_fits v) as Hc. rewrite (raise_grid q v _ Hf). destruct Hf as (F1 & F2 & F3 & F4).
  destruct Hc as (G1 & G2 & G3 & G4).
  assert (common v <= q)%nat as Hq.
  { unfold common. destruct (o_max s) as [mx|]; [specialize (F4 mx eq_refl)|]; lia. }
  unfold nearest. set (c := common v) in *. assert (exists r, q = (c + r)%nat) as [r ->] by (exists (q - c)%nat; lia).
  rewrite !raise_up by done. pose proof (raise_pos c G2) as Hs. pose proof (pow10_pos r) as Hr.
  set (a := raise c v) in *. set (b := raise c base) in *. set (e := raise c step) in *.
  set (n := (2 * (a - b) + e) / (2 * e)).
  assert (2 * e * n <= 2 * (a - b) + e < 2 * e * (n + 1)) as [N1 N2].
  { pose proof (Z.mul_div_le (2 * (a - b) + e) (2 * e)). pose proof (Z.mul_succ_div_gt (2 * (a - b) + e) (2 * e)).
    fold n in H, H0. lia. }
  replace (a * pow10 r - (b * pow10 r + n * (e * pow10 r))) with ((a - b - n * e) * pow10 r) by ring.
  rewrite Z.abs_mul, (Z.abs_eq (pow10 r)) by lia. assert (2 * Z.abs (a - b - n * e) <= e) by lia. nia.
Qed.

(** A point is its own nearest. *)
Lemma nearest_grid k : nearest (grid k) = k.
Proof.
  unfold nearest. pose proof (common_fits (grid k)) as Hf. rewrite (raise_grid _ _ _ Hf).
  pose proof (raise_pos _ (proj1 (proj2 Hf))) as Hs. set (e := raise _ step) in *.
  replace (2 * (raise (common (grid k)) base + k * e - raise (common (grid k)) base) + e) with (e + k * (2 * e)) by ring.
  rewrite Z.div_add by lia. rewrite Z.div_small by lia. lia.
Qed.

(** ** The bounds *)

Lemma ok_min mn : o_min s = Some mn -> dec_ok mn.
Proof. apply (proj1 (proj2 (oo_ok Hok))). Qed.
Lemma ok_max mx : o_max s = Some mx -> dec_ok mx.
Proof. apply (proj2 (proj2 (oo_ok Hok))). Qed.

Lemma ltb_irrefl a : dec_ltb a a = false.
Proof. rewrite (ltb_raise (places a)) by (unfold scale; lia). apply Z.ltb_irrefl. Qed.

Lemma clamp_bounds v : in_bounds (clamp s v).
Proof.
  unfold clamp, in_bounds. pose proof (oo_order Hok) as Ho. destruct (o_max s) as [mx|], (o_min s) as [mn|].
  - destruct (dec_ltb mx v) eqn:E1; [|destruct (dec_ltb v mn) eqn:E2]; split; intros ? [= <-]; auto using ltb_irrefl.
  - destruct (dec_ltb mx v) eqn:E1; split; intros ? [= <-]; [apply ltb_irrefl|done].
  - destruct (dec_ltb v mn) eqn:E2; split; intros ? [= <-]; [apply ltb_irrefl|done].
  - by split.
Qed.

Lemma clamp_cases v : clamp s v = v \/ (exists mx, o_max s = Some mx /\ clamp s v = mx /\ dec_ltb mx v = true) \/
  (exists mn, o_min s = Some mn /\ clamp s v = mn /\ dec_ltb v mn = true).
Proof.
  unfold clamp. destruct (o_max s) as [mx|], (o_min s) as [mn|].
  - destruct (dec_ltb mx v) eqn:E1; [right; left; by exists mx|]. destruct (dec_ltb v mn) eqn:E2; [right; right; by exists mn|by left].
  - destruct (dec_ltb mx v) eqn:E1; [right; left; by exists mx|by left].
  - destruct (dec_ltb v mn) eqn:E2; [right; right; by exists mn|by left].
  - by left.
Qed.

(** What a point becomes does not show that it was rounded. *)
Lemma clamp_rounded k : clamp s (toFixed (precision s step) (rounded (grid k))) = clamp s (grid k).
Proof.
  destruct (oo_round Hok) as [Hn Ha Hb]. specialize (Hn k). specialize (Ha k). specialize (Hb k).
  assert (in_bounds (grid k) -> toFixed (precision s step) (rounded (grid k)) = grid k) as Hin.
  { intros H. apply toFixed_near; [apply norm_ok|apply grid_places|by apply Hn]. }
  clear Hn. set (w := toFixed _ _) in *. unfold in_bounds in Hin. pose proof (oo_order Hok) as Ho. unfold clamp.
  destruct (o_max s) as [mx|]; [destruct (dec_ltb mx (grid k)) eqn:Ex; [by rewrite (Ha mx eq_refl Ex)|]|];
    (destruct (o_min s) as [mn|]; [destruct (dec_ltb (grid k) mn) eqn:En|]).
  - rewrite (Hb mn eq_refl En). destruct (dec_ltb mx w) eqn:Ew; [|done]. exfalso. specialize (Hb mn eq_refl En).
    specialize (Ho mn mx eq_refl eq_refl). set (q := Nat.max (scale mx w) (scale w mn)).
    rewrite (ltb_raise q) in Ho, Hb, Ew by (unfold q, scale; lia). lia.
  - rewrite Hin; [by rewrite Ex, En|]. by split; intros ? [= <-].
  - rewrite Hin; [by rewrite Ex|]. by split; intros ? [= <-].
  - by rewrite (Hb mn eq_refl En).
  - rewrite Hin; [by rewrite En|]. by split; intros ? [= <-].
  - rewrite Hin; [done|]. by split; intros ? [=].
Qed.

Lemma adjust_eq v : dec_ok v -> adjustValue s v = Adjusted (Some (clamp s (grid (nearest v)))).
Proof.
  intros Hv. unfold adjustValue. rewrite (oo_step Hok). cbv zeta. pose proof (common_fits v) as (F1 & F2 & F3 & F4).
  fold base. assert (places (dec_sub v base) <= common v)%nat as F5.
  { etrans; [apply add_places|]. unfold scale. cbn. lia. }
  rewrite (round_quotient_raise (common v)); [|unfold scale; lia|pose proof (raise_pos (common v) F2); lia].
  rewrite raise_sub by (unfold scale; lia). fold (nearest v). fold (grid (nearest v)).
  by rewrite clamp_rounded.
Qed.

Lemma grid_ok k : dec_ok (grid k).
Proof. apply norm_ok. Qed.

Lemma grid_base : dec_ok base -> grid 0 = base.
Proof.
  intros Hb. set (q := Nat.max (common base) (common (grid 0))).
  assert (fits q base) as Hq by (apply (fits_le (common base)); [apply Nat.le_max_l|apply common_fits]).
  assert (fits q (grid 0)) as Hg by (apply (fits_le (common (grid 0))); [apply Nat.le_max_r|apply common_fits]).
  apply (dec_unique q); [apply grid_ok|done|exact (proj1 Hg)|exact (proj1 Hq)|]. rewrite (raise_grid q _ _ Hq). lia.
Qed.

(** What adjusting gives: a point of the grid, or the maximum; always within the bounds. *)
Definition valid (v : dec) : Prop :=
  dec_ok v /\ in_bounds v /\ ((exists k, v = grid k) \/ o_max s = Some v).

Lemma adjust_valid v : dec_ok v -> exists w, adjustValue s v = Adjusted (Some w) /\ valid w.
Proof.
  intros Hv. rewrite adjust_eq by done. eexists. split; [done|]. split; [|split; [apply clamp_bounds|]].
  - destruct (clamp_cases (grid (nearest v))) as [->|[(mx & Hm & -> & _)|(mn & Hm & -> & _)]];
      [apply grid_ok|by apply ok_max|by apply ok_min].
  - destruct (clamp_cases (grid (nearest v))) as [->|[(mx & Hm & -> & _)|(mn & Hm & -> & _)]];
      [left; by eexists|by right|]. left. exists 0.
    assert (base = mn) as Hb by (unfold base; by rewrite Hm). rewrite grid_base by (rewrite Hb; by apply ok_min). done.
Qed.
End options.

(** ** What is written *)

Definition same_options (s s' : spinner) : Prop :=
  (o_max s', o_min s', o_step s', o_page s', o_incremental s') = (o_max s, o_min s, o_step s, o_page s, o_incremental s).

Lemma options_same s s' step : same_options s s' -> options_ok s step -> options_ok s' step.
Proof.
  intros E [A B C D F [G1 G2 G3]]. injection E as E1 E2 E3 _ _. split; rewrite ?E1, ?E2, ?E3; [done..|].
  unfold in_bounds, grid, base, precision in *. split; unfold in_bounds, grid, base, precision; by rewrite ?E1, ?E2.
Qed.

Lemma valid_same s s' step v : same_options s s' -> valid s step v -> valid s' step v.
Proof.
  intros E (A & (B1 & B2) & C). injection E as E1 E2 E3 _ _. unfold valid, in_bounds, grid, base in *.
  by rewrite E1, E2.
Qed.

(** The text, if it is a number, is one that adjusting gives. *)
Definition reads (s : spinner) (step : dec) : Prop := forall w, value s = Some w -> valid s step w.

Definition written (s : spinner) (step : dec) (s' : spinner) : Prop :=
  same_options s s' /\ (text s' = text s \/ reads s' step).

Definition writes (step : dec) (f : M) : Prop := forall s, options_ok s step -> written s step (f s).1.

Lemma written_trans s s1 s2 step : written s step s1 -> written s1 step s2 -> written s step s2.
Proof.
  intros [E1 H1] [E2 H2]. assert (same_options s s2) as E by (unfold same_options in *; congruence). split; [done|].
  destruct H2 as [H2|H2]; [|by right]. destruct H1 as [H1|H1]; [left; congruence|right].
  intros w Hw. apply (valid_same s1); [done|]. apply H1. unfold value in *. by rewrite <- H2.
Qed.

Lemma written_same s s' step : same_options s s' -> text s' = text s -> written s step s'.
Proof. intros E T. split; [done|by left]. Qed.

Lemma andThen_writes step f g : writes step f -> writes step g -> writes step (andThen f g).
Proof.
  intros Hf Hg s Hs. unfold andThen. destruct (f s).2; [|by apply Hf].
  apply (written_trans s (f s).1); [by apply Hf|]. apply Hg. by apply (options_same s); [apply Hf|].
Qed.

Definition quiet (f : spinner -> spinner) : Prop := forall s, same_options s (f s) /\ text (f s) = text s.

Lemma pure_writes step f : quiet f -> writes step (pure f).
Proof. intros Hf s Hs. by apply written_same; apply Hf. Qed.

Lemma text_number_ok s d : text_number s = Some d -> dec_ok d.
Proof.
  assert (forall t a b d, unsigned_decimal a b t = Some d -> dec_ok d) as H.
  { clear. induction t as [|c t IH]; intros a b d; cbn; [destruct b; intros [= <-]; by left|].
    destruct (is_digit c); [apply IH|]. destruct (Ascii.eqb c ".").
    - destruct (fraction a 0 t) as [[[n p] x]|]; [|done]. destruct (_ || _); [|done]. intros [= <-]. apply scaled_ok.
    - destruct (_ && _); [|done]. intros (x & _ & ->)%fmap_Some. apply scaled_ok. }
  unfold text_number. destruct (trim s) as [|c t]; [intros [= <-]; by left|].
  destruct (Ascii.eqb c "-").
  - intros (d' & Hd & ->)%fmap_Some. apply opp_ok. by apply H in Hd.
  - destruct (Ascii.eqb c "+"); apply H.
Qed.

Lemma parse_text_ok t d : parse (VText t) = Some d -> dec_ok d.
Proof. cbn. destruct (String.eqb t ""); [done|]. apply text_number_ok. Qed.

Lemma parse_text d : dec_ok d -> parse (VText (dec_text d)) = Some d.
Proof.
  intros H. pose proof (text_number_text d H) as E. cbn. destruct (String.eqb_spec (dec_text d) "") as [E0|_]; [|done].
  rewrite E0 in E. injection E as <-. done.
Qed.

Definition number_ok (v : sval) : Prop := match v with VNum (Some d) => dec_ok d | _ => True end.

Lemma parse_ok v d : number_ok v -> parse v = Some d -> dec_ok d.
Proof. destruct v as [t|[n|]|]; [intros _; apply parse_text_ok|intros H [= <-]|done..]. done. Qed.

Lemma put_value_spec v s step :
  options_ok s step -> number_ok v ->
  let s' := (put_value v false s).1 in
  same_options s s' /\ (put_value v false s).2 = true /\
  value s' = match parse v with Some d => match adjustValue s d with Adjusted v => v | Throws => None end | None => None end /\
  reads s' step.
Proof.
  intros Hs Hv. unfold put_value. cbv zeta.
  assert (forall v, same_options s (refresh (s <| text := val_text v |>))) as Hsame by done.
  assert (forall v, parse v = None -> value (refresh (s <| text := val_text v |>)) = None) as Hnone.
  { intros [t|[n|]|] E; done. }
  destruct (parse v) as [d|] eqn:Ed.
  - assert (dec_ok d) as Hd by by apply (parse_ok v).
    destruct (adjust_valid s step Hs d Hd) as (w & Ew & Hw).
    assert (match v with VText EmptyString => (refresh (s <| text := val_text v |>), true)
      | _ => match adjustValue s d with Throws => throw s | Adjusted v => (refresh (s <| text := val_text (VNum v) |>), true) end
      end = (refresh (s <| text := dec_text w |>), true)) as E.
    { rewrite Ew. by destruct v as [[|]|n|]. }
    rewrite E, Ew. cbn [fst snd]. assert (value (refresh (s <| text := dec_text w |>)) = Some w) as Ev
      by (apply parse_text; apply Hw).
    split; [done|]. split; [done|]. split; [exact Ev|]. intros w' Hw'. rewrite Ev in Hw'. injection Hw' as <-.
    by apply (valid_same s).
  - assert (match v with VText EmptyString => (refresh (s <| text := val_text v |>), true)
      | _ => (refresh (s <| text := val_text v |>), true) end = (refresh (s <| text := val_text v |>), true)) as E
      by by destruct v as [[|]|n|].
    rewrite E. cbn [fst snd]. split; [done|]. split; [done|]. split; [by apply Hnone|]. intros w Hw.
    rewrite Hnone in Hw; done.
Qed.

Lemma put_value_writes step v : number_ok v -> writes step (put_value v false).
Proof. intros Hv s Hs. destruct (put_value_spec v s step Hs Hv) as (A & _ & _ & B). split; [done|by right]. Qed.

Lemma modifier_writes step f : writes step f -> writes step (modifier f).
Proof.
  intros Hf s Hs. unfold modifier. apply andThen_writes; [done| |done]. apply pure_writes. intros s1.
  by destruct (String.eqb (text s) _).
Qed.

Section spins.
Context (allow : sevent -> bool) (step : dec).

Lemma quiet_written s s1 s' : same_options s s1 /\ text s1 = text s -> written s1 step s' -> written s step s'.
Proof. intros [E T] H. by apply (written_trans s s1); [apply written_same|]. Qed.

Lemma spin_writes n : writes step (spin allow n).
Proof.
  intros s Hs. unfold spin. cbv zeta. set (s1 := s <| counter := if counter s =? 0 then 1 else counter s |>).
  assert (options_ok s1 step) as H1 by by apply (options_same s).
  apply (quiet_written s s1); [done|]. rewrite (oo_step s1 step H1).
  set (d := dec_add _ _). destruct (adjust_valid s1 step H1 d) as (w & Ew & Hw); [apply norm_ok|]. rewrite Ew.
  set (s2 := if spinning s1 then tell (EvSpin (Some w)) s1 else s1).
  assert (same_options s1 s2 /\ text s2 = text s1) as H2 by (unfold s2; by destruct (spinning s1)).
  destruct (negb (spinning s1) || allow (EvSpin (Some w))); [|by apply written_same; apply H2].
  apply (quiet_written s1 s2); [done|]. apply andThen_writes; [|by apply pure_writes|by apply (options_same s1); [apply H2|]].
  apply put_value_writes, Hw.
Qed.

Lemma clear_quiet h : quiet (clearTimeout h).
Proof. intros s. by destruct h. Qed.

Lemma repeat_writes n : writes step (repeat allow n).
Proof.
  intros s Hs. unfold repeat. cbv zeta. set (s1 := delay _ _).
  assert (same_options s s1 /\ text s1 = text s) as H1 by (unfold s1; by destruct (timer s)).
  apply (quiet_written s s1); [done|]. apply spin_writes. by apply (options_same s); [apply H1|].
Qed.

Lemma start_quiet s : same_options s (start allow s).1 /\ text (start allow s).1 = text s.
Proof. unfold start. cbv zeta. by destruct (spinning s), (allow EvStart). Qed.

Lemma stop_quiet : quiet stop.
Proof.
  intros s. unfold stop. destruct (spinning s); [|done]. cbv zeta. set (s1 := clearTimeout (timer s) s).
  destruct (clear_quiet (timer s) s) as [A1 A2]. destruct (clear_quiet (wheelTimer s1) s1) as [B1 B2].
  fold s1 in A1, A2. unfold same_options in *. split; [|by rewrite <- A2, <- B2]. rewrite <- A1, <- B1. done.
Qed.

(** An operation that starts spinning and goes on only if it may. *)
Lemma started f s : writes step f -> options_ok s step -> written s step (let r := start allow s in if r.2 then f r.1 else (r.1, true)).1.
Proof.
  intros Hf Hs. cbv zeta. pose proof (start_quiet s) as H. destruct (start allow s).2; [|by apply written_same; apply H].
  apply (quiet_written s (start allow s).1); [done|]. apply Hf. by apply (options_same s); [apply H|].
Qed.

Lemma focus_quiet : quiet focus.
Proof. intros s. unfold focus. by destruct (disabled s). Qed.

Lemma check_quiet p : quiet (checkFocus p).
Proof. intros s. unfold checkFocus, focus. destruct (focused s); [done|]. by destruct (disabled s). Qed.

(** Actions of the user and calls, but for typing and setting options; numbers given
    are without trailing zeros, as all numbers are. *)
Definition uses (a : saction) : Prop :=
  match a with Type_ _ | SetOptions _ => False | SetValue v => number_ok v | _ => True end.

Lemma handled_writes f s : writes step f -> options_ok s step -> written s step (handled f s).
Proof. intros Hf Hs. unfold handled. destruct (_ || _); [by apply written_same|by apply Hf]. Qed.

Lemma called_writes f s : writes step f -> options_ok s step -> written s step (called f s).
Proof. intros Hf Hs. unfold called. destruct (destroyed s); [by apply written_same|by apply Hf]. Qed.

Lemma keydown_writes k : writes step (keydown allow k).
Proof.
  intros s Hs. unfold keydown. apply (started (fun s => match key_steps k s with Some n => repeat allow n s | None => (s, true) end)); [|done].
  clear. intros s Hs. destruct (key_steps k s); [by apply repeat_writes|by apply written_same].
Qed.

Lemma wheel_writes d : writes step (mousewheel allow d).
Proof.
  intros s Hs. unfold mousewheel. destruct (d =? 0); [by apply written_same|]. cbv zeta.
  set (r := if spinning s then (s, true) else start allow s).
  assert (same_options s r.1 /\ text r.1 = text s) as H by (unfold r; destruct (spinning s); [done|apply start_quiet]).
  destruct r.2; cbn [negb]; [|by apply written_same; apply H]. apply (quiet_written s r.1); [done|].
  apply andThen_writes; [apply spin_writes| |by apply (options_same s); [apply H|]].
  apply pure_writes. intros s1. by destruct (wheelTimer s1).
Qed.

Lemma press_writes up : writes step (button_press allow up).
Proof.
  intros s Hs. unfold button_press. cbv zeta. set (p := if focused s then _ else _).
  set (s1 := delay _ _). assert (same_options s s1 /\ text s1 = text s) as H by apply (check_quiet p s).
  apply (quiet_written s s1); [done|]. apply (started (repeat allow (dec_of (if up then 1 else -1)))); [apply repeat_writes|].
  by apply (options_same s); [apply H|].
Qed.

Lemma fire_writes n : writes step (fire allow n).
Proof.
  intros s Hs. unfold fire. destruct (list_find _ _) as [[i [m l]]|]; [|by apply written_same]. cbv zeta.
  set (s1 := s <| pending := _ |>). apply (quiet_written s s1); [done|].
  assert (options_ok s1 step) as H1 by by apply (options_same s). destruct l as [k| |p|p].
  - by apply repeat_writes.
  - change (written s1 step (if spinning s1 then stop s1 else s1)).
    destruct (spinning s1); [|by apply written_same]. apply written_same; apply stop_quiet.
  - by apply written_same.
  - destruct (check_quiet p (s1 <| cancelBlur := false |>)) as [A B]. apply written_same; [exact A|exact B].
Qed.

Lemma act_writes a s : uses a -> options_ok s step -> written s step (act allow a s).
Proof.
  intros Ha Hs. destruct a as [k| | | |d|up| |up b| |n|t|l|b|n|n|n|n|v|]; cbn [act uses] in *; try done.
  - by apply handled_writes; [apply keydown_writes|].
  - by apply handled_writes; [apply pure_writes, stop_quiet|].
  - destruct (destroyed s); [by apply written_same|]. apply written_same; apply focus_quiet.
  - unfold blur. cbv zeta. destruct (_ || _); [by apply written_same|]. destruct (cancelBlur _); [by apply written_same|].
    destruct (bool_decide _); by apply written_same.
  - by apply handled_writes; [apply wheel_writes|].
  - by apply handled_writes; [apply press_writes|].
  - by apply handled_writes; [apply pure_writes, stop_quiet|].
  - apply handled_writes; [|done]. intros s1 H1. unfold button_enter. destruct b; cbn [negb]; [|by apply written_same].
    by apply (started (repeat allow (dec_of (if up then 1 else -1)))); [apply repeat_writes|].
  - by apply handled_writes; [apply pure_writes, stop_quiet|].
  - by apply fire_writes.
  - by apply called_writes; [apply pure_writes|].
  - apply called_writes; [|done]. apply modifier_writes, spin_writes.
  - apply called_writes; [|done]. apply modifier_writes, spin_writes.
  - apply called_writes; [|done]. apply modifier_writes. intros s1 H1. by apply spin_writes.
  - apply called_writes; [|done]. apply modifier_writes. intros s1 H1. by apply spin_writes.
  - apply called_writes; [|done]. by apply modifier_writes, put_value_writes.
  - by apply called_writes; [apply pure_writes|].
Qed.
End spins.

(** ** Starts, stops and timers *)

Section told.
Context (allow : sevent -> bool).

(** Whether the spinner spins after it has told [l]; [None] if spins or stops come
    without a start, or a start without a stop. *)
Definition told_step (st : option bool) (ev : sevent) : option bool :=
  match st, ev with
  | Some false, EvStart => Some (allow EvStart)
  | Some true, EvSpin _ => Some true
  | Some true, EvStop => Some false
  | Some b, EvChange | Some b, Thrown => Some b
  | _, _ => None
  end.
Definition spins_after (l : list sevent) : option bool := fold_left told_step l (Some false).

Record tidy (s : spinner) : Prop := {
  ti_told : spins_after (told s) = Some (spinning s);
  ti_nodup : NoDup (pending s).*1;
  ti_ids : forall n l, (n, l) ∈ pending s -> (n < ids s)%nat;
  ti_repeat : forall n k, (n, Repeat k) ∈ pending s -> timer s = Some n /\ spinning s = true;
  ti_wheel : forall n, (n, WheelOver) ∈ pending s -> wheelTimer s = Some n /\ spinning s = true;
}.

Definition same_clock (s s' : spinner) : Prop :=
  (pending s', ids s', timer s', wheelTimer s', spinning s') = (pending s, ids s, timer s, wheelTimer s, spinning s).

Lemma tidy_same s s' : same_clock s s' -> spins_after (told s') = spins_after (told s) -> tidy s -> tidy s'.
Proof. intros E F [A B C D G]. injection E as E1 E2 E3 E4 E5. split; by rewrite ?F, ?E1, ?E2, ?E3, ?E4, ?E5. Qed.

Lemma spins_tell ev s : spins_after (told (tell ev s)) = told_step (spins_after (told s)) ev.
Proof. unfold spins_after. change (told (tell ev s)) with (told s ++ [ev]). by rewrite fold_left_app. Qed.

(** Events that say nothing about spinning. *)
Lemma tidy_tell ev s : ev = EvChange \/ ev = Thrown -> tidy s -> tidy (tell ev s).
Proof.
  intros He H. apply (tidy_same s); [done| |done]. rewrite spins_tell, (ti_told s H). by destruct He as [->| ->], (spinning s).
Qed.

Definition keeps (f : M) : Prop := forall s, tidy s -> tidy (f s).1.

Lemma andThen_keeps f g : keeps f -> keeps g -> keeps (andThen f g).
Proof. intros Hf Hg s Hs. unfold andThen. destruct (f s).2; [by apply Hg, Hf|by apply Hf]. Qed.

Lemma put_value_keeps v b : keeps (put_value v b).
Proof.
  intros s Hs. assert (forall t, tidy (refresh (s <| text := t |>))) as Hw by (intros t; by apply (tidy_same s)).
  assert (tidy (throw s).1) as Ht by (apply (tidy_tell Thrown); [by right|done]).
  unfold put_value. cbv zeta. destruct v as [[|c t]|n|]; [apply Hw|..]; (destruct (parse _) as [d|]; [|apply Hw]); 
    (destruct b; [apply Hw|]); (destruct (adjustValue s d); [exact Ht|apply Hw]).
Qed.

Lemma modifier_keeps f : keeps f -> keeps (modifier f).
Proof.
  intros Hf s Hs. unfold modifier. apply andThen_keeps; [done| |done]. intros s1 H1. cbn.
  assert (tidy (refresh s1)) as H2 by by apply (tidy_same s1).
  destruct (String.eqb _ _); [done|]. apply tidy_tell; [by left|done].
Qed.

(** [spin] leaves the clock alone. *)
Lemma spin_tidy n s : tidy s -> tidy (spin allow n s).1.
Proof.
  intros Hs. unfold spin. cbv zeta. set (s1 := s <| counter := if counter s =? 0 then 1 else counter s |>).
  assert (tidy s1) as H1 by by apply (tidy_same s). clearbody s1.
  destruct (o_step s1) as [step|]; [|by apply (tidy_tell Thrown); [right|]].
  destruct (adjustValue s1 _) as [|w]; [by apply (tidy_tell Thrown); [right|]|].
  assert (tidy (if spinning s1 then tell (EvSpin w) s1 else s1)) as H2.
  { destruct (spinning s1) eqn:E; [|done]. apply (tidy_same s1); [done| |done]. by rewrite spins_tell, (ti_told s1 H1), E. }
  destruct (negb (spinning s1) || allow (EvSpin w)); [|done].
  apply andThen_keeps; [apply put_value_keeps| |done]. intros s3 H3. by apply (tidy_same s3).
Qed.

Lemma put_value_spinning v b s : spinning (put_value v b s).1 = spinning s.
Proof.
  unfold put_value. cbv zeta. destruct v as [[|c t]|n|]; [done|..]; (destruct (parse _) as [d|]; [|done]);
    (destruct b; [done|]); by destruct (adjustValue s d).
Qed.

Lemma andThen_spinning f g :
  (forall s, spinning (f s).1 = spinning s) -> (forall s, spinning (g s).1 = spinning s) ->
  forall s, spinning (andThen f g s).1 = spinning s.
Proof. intros Hf Hg s. unfold andThen. destruct (f s).2; by rewrite ?Hg, Hf. Qed.

Lemma spin_spinning n s : spinning (spin allow n s).1 = spinning s.
Proof.
  unfold spin. cbv zeta. set (s1 := s <| counter := if counter s =? 0 then 1 else counter s |>).
  change (spinning s) with (spinning s1). clearbody s1. destruct (o_step s1) as [step|]; [|done].
  destruct (adjustValue s1 _) as [|w]; [done|]. set (s2 := if spinning s1 then tell (EvSpin w) s1 else s1).
  assert (spinning s2 = spinning s1) as <- by (unfold s2; by destruct (spinning s1) eqn:E).
  destruct (negb _ || _); [|done]. apply andThen_spinning; [apply put_value_spinning|done].
Qed.

(** Timers without the one of [h]. *)
Lemma clear_elem h s n l : (n, l) ∈ pending (clearTimeout h s) -> (n, l) ∈ pending s /\ h <> Some n.
Proof.
  destruct h as [m|]; [|done]. cbn. rewrite list_elem_of_In, filter_In, <- list_elem_of_In. cbn.
  intros [H1 H2]. split; [done|]. intros [= ->]. by rewrite Nat.eqb_refl in H2.
Qed.

Lemma filter_fst_nodup (f : nat * later -> bool) l : NoDup l.*1 -> NoDup (List.filter f l).*1.
Proof.
  induction l as [|x l IH]; [done|]. rewrite fmap_cons, NoDup_cons. intros [Hx Hl]. cbn. destruct (f x); [|by apply IH].
  rewrite fmap_cons, NoDup_cons. split; [|by apply IH]. intros (y & Ey & Hy)%list_elem_of_fmap. apply Hx.
  rewrite list_elem_of_In, filter_In, <- list_elem_of_In in Hy. rewrite Ey. apply list_elem_of_fmap_2, Hy.
Qed.

Lemma clear_tidy h s : tidy s -> tidy (clearTimeout h s).
Proof.
  intros [A B C D G]. destruct h as [m|]; [|by split].
  assert (forall n l, (n, l) ∈ pending (clearTimeout (Some m) s) -> (n, l) ∈ pending s) as H by (intros n l Hin; by apply (clear_elem (Some m) s) in Hin as [? _]).
  split; [done|by apply filter_fst_nodup|..].
  - intros n l Hin. by apply (C n l), H.
  - intros n k Hin. by apply (D n k), H.
  - intros n Hin. by apply (G n), H.
Qed.

Lemma delay_tidy l s :
  match l with Repeat _ => forall n k, (n, Repeat k) ∉ pending s | WheelOver => forall n, (n, WheelOver) ∉ pending s | _ => True end ->
  (match l with Repeat _ | WheelOver => spinning s = true | _ => True end) ->
  tidy s ->
  tidy (delay l (match l with Repeat _ => s <| timer := Some (ids s) |> | WheelOver => s <| wheelTimer := Some (ids s) |> | _ => s end)).
Proof.
  intros Hn Hsp [A B C D G].
  assert (NoDup ((pending s ++ [(ids s, l)]).*1)) as B'.
  { rewrite fmap_app. apply NoDup_app. split; [done|]. split; [|apply NoDup_singleton].
    intros n ((n', l') & -> & Hin)%list_elem_of_fmap Hn'%list_elem_of_singleton. apply C in Hin. cbn in Hn'. lia. }
  assert (forall n l', (n, l') ∈ pending s ++ [(ids s, l)] -> (n, l') ∈ pending s \/ n = ids s /\ l' = l) as H.
  { intros n l' [Hin|Hin]%elem_of_app; [by left|]. apply list_elem_of_singleton in Hin. right. by simplify_eq. }
  destruct l as [k| |p|p]; (split; [done|done|intros n l' [Hin|[-> _]]%H; [apply C in Hin; cbn; lia|cbn; lia]|..]).
  - intros n k' [Hin|[-> _]]%H; [by destruct (Hn n k')|done].
  - intros n [Hin|[_ ?]]%H; [by apply G in Hin|done].
  - intros n k' [Hin|[_ ?]]%H; [by apply D in Hin|done].
  - intros n [Hin|[-> _]]%H; [by destruct (Hn n)|done].
  - intros n k' [Hin|[_ ?]]%H; [by apply D in Hin|done].
  - intros n [Hin|[_ ?]]%H; [by apply G in Hin|done].
  - intros n k' [Hin|[_ ?]]%H; [by apply D in Hin|done].
  - intros n [Hin|[_ ?]]%H; [by apply G in Hin|done].
Qed.

Lemma repeat_tidy k s : tidy s -> spinning s = true -> tidy (repeat allow k s).1.
Proof.
  intros Hs Hsp. unfold repeat. cbv zeta. apply spin_tidy.
  apply (delay_tidy (Repeat k) (clearTimeout (timer s) s)).
  - intros n k' [Hin Hn]%clear_elem. by apply (ti_repeat s Hs) in Hin as [Hin _].
  - by destruct (timer s).
  - by apply clear_tidy.
Qed.

Lemma start_tidy s : tidy s -> tidy (start allow s).1 /\ ((start allow s).2 = true -> spinning (start allow s).1 = true).
Proof.
  intros Hs. unfold start. cbv zeta. destruct (spinning s) eqn:E; cbn [negb andb].
  - split; [|done]. apply (tidy_same s); [unfold same_clock; cbn; by rewrite E|done|done].
  - pose proof (ti_told s Hs) as Ht. rewrite E in Ht. destruct (allow EvStart) eqn:Ea; cbn [negb].
    + split; [|done]. destruct Hs as [A B C D G]. split; [change (spins_after (told (tell EvStart s)) = Some true); by rewrite spins_tell, Ht; cbn; rewrite Ea|done|done|..].
      * intros n k Hin. by destruct (D n k Hin).
      * intros n Hin. by destruct (G n Hin).
    + split; [|done]. apply (tidy_same s); [unfold same_clock; cbn; by rewrite E|cbn [fst]; rewrite spins_tell, Ht; cbn; by rewrite Ea|done].
Qed.

Lemma clear_clock h s :
  timer (clearTimeout h s) = timer s /\ wheelTimer (clearTimeout h s) = wheelTimer s /\ spinning (clearTimeout h s) = spinning s.
Proof. by destruct h. Qed.

Lemma stop_tidy s : tidy s -> tidy (stop s).
Proof.
  intros Hs. unfold stop. destruct (spinning s) eqn:E; [|done]. cbv zeta.
  set (s1 := clearTimeout (timer s) s). set (s2 := clearTimeout (wheelTimer s1) s1).
  assert (tidy s2) as H2 by by apply clear_tidy, clear_tidy.
  destruct (clear_clock (timer s) s) as (_ & T2 & S1). destruct (clear_clock (wheelTimer s1) s1) as (_ & _ & S2).
  fold s1 in T2, S1. fold s2 in S2. assert (spinning s2 = true) as E2 by congruence.
  destruct H2 as [A B C D G]. split; [change (spins_after (told (tell EvStop s2)) = Some false); by rewrite spins_tell, A, E2|done|done|..].
  - intros n k Hin. apply clear_elem in Hin as [Hin _]. apply clear_elem in Hin as [Hin Hn].
    by apply (ti_repeat s Hs) in Hin as [Hin _].
  - intros n Hin. apply clear_elem in Hin as [Hin Hn]. rewrite T2 in Hn. apply clear_elem in Hin as [Hin _].
    by apply (ti_wheel s Hs) in Hin as [Hin _].
Qed.

Lemma focus_tidy s : tidy s -> tidy (focus s).
Proof. intros Hs. unfold focus. destruct (disabled s); [done|]. by apply (tidy_same s). Qed.

Lemma check_tidy p s : tidy s -> tidy (checkFocus p s).
Proof.
  intros Hs. unfold checkFocus. destruct (focused s); [done|].
  apply (delay_tidy (SetPrevious p) (focus s <| previous := p |>)); [done..|].
  apply (tidy_same (focus s)); [done..|by apply focus_tidy].
Qed.

Lemma started_tidy f s : tidy s -> (forall s, tidy s -> spinning s = true -> tidy (f s).1) ->
  tidy (let r := start allow s in if r.2 then f r.1 else (r.1, true)).1.
Proof.
  intros Hs Hf. cbv zeta. destruct (start_tidy s Hs) as [H1 H2]. destruct (start allow s).2; [|done].
  by apply Hf; [|apply H2].
Qed.

Lemma fire_tidy n : keeps (fire allow n).
Proof.
  intros s Hs. unfold fire. destruct (list_find _ _) as [[i [m l]]|] eqn:Ef; [|done]. cbv zeta.
  apply list_find_Some in Ef as (Ei & Em & _). cbn in Em. subst m. apply list_elem_of_lookup_2 in Ei.
  pose proof (clear_tidy (Some n) s Hs) as H1. cbn [clearTimeout] in H1. destruct l as [k| |p|p].
  - apply repeat_tidy; [done|]. by apply (ti_repeat s Hs) in Ei as [_ Ei].
  - apply (ti_wheel s Hs) in Ei as [_ Ei]. cbn [fst]. change (spinning (s <| pending := _ |>)) with (spinning s) at 1.
    by apply stop_tidy in H1; destruct (spinning _).
  - by eapply tidy_same; [..|exact H1].
  - apply check_tidy. by eapply tidy_same; [..|exact H1].
Qed.
Lemma handled_tidy f s : keeps f -> tidy s -> tidy (handled f s).
Proof. intros Hf Hs. unfold handled. destruct (_ || _); [done|by apply Hf]. Qed.

Lemma called_tidy f s : keeps f -> tidy s -> tidy (called f s).
Proof. intros Hf Hs. unfold called. destruct (destroyed s); [by apply tidy_tell; [right|]|by apply Hf]. Qed.

Lemma press_tidy k s : tidy s -> tidy (let r := start allow s in if r.2 then repeat allow k r.1 else (r.1, true)).1.
Proof. intros Hs. apply (started_tidy (repeat allow k)); [done|]. intros s1 H1 E1. by apply repeat_tidy. Qed.

Lemma keydown_tidy k : keeps (keydown allow k).
Proof.
  intros s Hs. unfold keydown.
  apply (started_tidy (fun s => match key_steps k s with Some n => repeat allow n s | None => (s, true) end)); [done|].
  clear. intros s Hs E. destruct (key_steps k s); [by apply repeat_tidy|done].
Qed.

Lemma wheel_tidy d : keeps (mousewheel allow d).
Proof.
  intros s Hs. unfold mousewheel. destruct (d =? 0); [done|]. cbv zeta.
  set (r := if spinning s then (s, true) else start allow s).
  assert (tidy r.1 /\ (r.2 = true -> spinning r.1 = true)) as [H1 H2].
  { unfold r. destruct (spinning s) eqn:E; [done|by apply start_tidy]. }
  destruct r.2; cbn [negb]; [|done]. specialize (H2 eq_refl). unfold andThen.
  pose proof (spin_tidy (dec_of (if 0 <? d then 1 else -1)) r.1 H1) as H3.
  pose proof (spin_spinning (dec_of (if 0 <? d then 1 else -1)) r.1) as H4. rewrite H2 in H4.
  destruct (spin allow _ r.1) as [s1 []]; [|done]. cbn [fst snd pure] in *.
  apply (delay_tidy WheelOver (clearTimeout (wheelTimer s1) s1)).
  - intros n [Hin Hn]%clear_elem. by apply (ti_wheel s1 H3) in Hin as [Hin _].
  - etrans; [apply clear_clock|done].
  - by apply clear_tidy.
Qed.

Lemma button_tidy up : keeps (button_press allow up).
Proof.
  intros s Hs. unfold button_press. cbv zeta. set (p := if focused s then _ else _). apply press_tidy.
  apply (delay_tidy (BlurOver p) (checkFocus p s <| cancelBlur := true |>)); [done..|].
  apply (tidy_same (checkFocus p s)); [done..|by apply check_tidy].
Qed.

Lemma set_clock l s : same_clock s (fold_left (fun s o => setOption o s) l s) /\ told (fold_left (fun s o => setOption o s) l s) = told s.
Proof.
  revert s. induction l as [|o l IH]; intros s; [done|]. cbn [fold_left]. destruct (IH (setOption o s)) as [A B].
  assert (same_clock s (setOption o s) /\ told (setOption o s) = told s) as [C D] by by destruct o.
  unfold same_clock in *. split; congruence.
Qed.

Lemma act_tidy a s : tidy s -> tidy (act allow a s).
Proof.
  intros Hs. destruct a as [k| | | |d|up| |up b| |n|t|l|b|n|n|n|n|v|]; cbn [act].
  - by apply handled_tidy; [apply keydown_tidy|].
  - apply handled_tidy; [|done]. intros s1. apply stop_tidy.
  - destruct (destroyed s); [by apply (tidy_same s)|by apply focus_tidy].
  - unfold blur. cbv zeta. destruct (_ || _); [by apply (tidy_same s)|]. destruct (cancelBlur _); [by apply (tidy_same s)|].
    destruct (bool_decide _); [by apply (tidy_same s)|]. apply tidy_tell; [by left|by apply (tidy_same s)].
  - by apply handled_tidy; [apply wheel_tidy|].
  - by apply handled_tidy; [apply button_tidy|].
  - apply handled_tidy; [|done]. intros s1. apply stop_tidy.
  - apply handled_tidy; [|done]. intros s1 H1. unfold button_enter. destruct b; cbn [negb]; [by apply press_tidy|done].
  - apply handled_tidy; [|done]. intros s1. apply stop_tidy.
  - by apply fire_tidy.
  - by apply (tidy_same s).
  - apply called_tidy; [|done]. apply modifier_keeps. intros s1 H1. cbv zeta. apply put_value_keeps.
    destruct (set_clock l s1) as [A B]. apply (tidy_same s1); [done|by rewrite B|done].
  - apply called_tidy; [|done]. intros s1 H1. by apply (tidy_same s1).
  - apply called_tidy; [|done]. apply modifier_keeps. intros s1. apply spin_tidy.
  - apply called_tidy; [|done]. apply modifier_keeps. intros s1. apply spin_tidy.
  - apply called_tidy; [|done]. apply modifier_keeps. intros s1. apply spin_tidy.
  - apply called_tidy; [|done]. apply modifier_keeps. intros s1. apply spin_tidy.
  - apply called_tidy; [|done]. apply modifier_keeps, put_value_keeps.
  - apply called_tidy; [|done]. intros s1 H1. by apply (tidy_same s1).
Qed.

Definition acts (l : list saction) (s : spinner) : spinner := fold_left (fun s a => act allow a s) l s.

Lemma create_tidy mx mn step page inc dis t : tidy (create mx mn step page inc dis t).
Proof.
  unfold create. set (s0 := mk_spinner _ _ _ _ _ _ _ _ _ _ _ _ _ _ _ _ _ _ _).
  assert (tidy s0) as H0 by (split; [done|by constructor|by intros ? ? ?%elem_of_nil..|by intros ? ?%elem_of_nil]).
  apply (tidy_same (put_value (VText t) true s0).1); [done..|]. by apply put_value_keeps.
Qed.

Lemma acts_tidy l s : tidy s -> tidy (acts l s).
Proof. revert s. induction l as [|a l IH]; intros s Hs; [done|]. apply IH, act_tidy, Hs. Qed.

(** C25.  Whatever is done with a spinner, what it tells is a row of starts, each followed
    by spins and one stop; between a stop and the next start no call that was put off
    changes the text or tells anything. *)
Theorem spinner_told mx mn step page inc dis t l :
  let s := acts l (create mx mn step page inc dis t) in
  spins_after (told s) = Some (spinning s) /\
  (spinning s = false -> forall n, let s' := act allow (Fire n) s in text s' = text s /\ told s' = told s /\ spinning s' = false).
Proof.
  intros s. assert (tidy s) as Hs by apply acts_tidy, create_tidy. split; [apply Hs|]. intros E n. cbn [act].
  unfold fire. destruct (list_find _ _) as [[i [m k]]|] eqn:Ef; [|done].
  apply list_find_Some in Ef as (Ei & Em & _). cbn in Em. subst m. apply list_elem_of_lookup_2 in Ei. cbv zeta.
  destruct k as [k| |p|p].
  - apply (ti_repeat s Hs) in Ei as [_ Ei]. congruence.
  - apply (ti_wheel s Hs) in Ei as [_ Ei]. congruence.
  - done.
  - cbn. unfold checkFocus, focus. destruct (focused _); [done|]. by destruct (disabled _).
Qed.
End told.

(** ** In the bounds *)

Definition typed (l : list saction) : list string :=
  omap (fun a => match a with Type_ t => Some t | _ => None end) l.

(** C11.  While options and culture are not changed, a positive step and bounds in order,
    step and minimum written without an exponent: with any rounding that errs by less than
    half a unit of their last place within the bounds and computes what is beyond a bound
    as beyond it, after any other use the text is what it was, what was typed, no number, or a number within the bounds that is exactly on the grid of
    the steps from the minimum, or the maximum. *)
Theorem spinner_in_bounds allow step l s :
  options_ok s step -> Forall (fun a => uses a \/ exists t, a = Type_ t) l ->
  let s' := acts allow l s in
  text s' ∈ text s :: typed l \/ forall w, value s' = Some w -> valid s step w.
Proof.
  intros Hs Hl. cbv zeta.
  enough (same_options s (acts allow l s) /\ (text (acts allow l s) ∈ text s :: typed l \/ reads (acts allow l s) step)) as [E [H|H]].
  { by left. } { right. intros w Hw. apply (valid_same (acts allow l s)); [by unfold same_options in *|by apply H]. }
  revert s Hs. induction l as [|a l IH]; intros s Hs; [split; [done|]; left; by constructor|].
  apply Forall_cons in Hl as [Ha Hl].
  assert (same_options s (act allow a s) /\ (text (act allow a s) ∈ text s :: typed [a] \/ reads (act allow a s) step)) as [E1 H1].
  { destruct Ha as [Ha|[t ->]].
    - destruct (act_writes allow step a s Ha Hs) as [E [H|H]]; (split; [done|]); [left; rewrite H; by constructor|by right].
    - split; [done|]. left. by do 2 constructor. }
  destruct (IH Hl (act allow a s) (options_same _ _ _ E1 Hs)) as [E2 H2]. change (acts allow (a :: l) s) with (acts allow l (act allow a s)).
  split; [unfold same_options in *; congruence|]. destruct H2 as [H2|H2]; [|by right].
  assert (typed (a :: l) = typed [a] ++ typed l) as Et by (unfold typed; by destruct a).
  rewrite Et. apply elem_of_cons in H2 as [H2|H2].
  - rewrite H2. destruct H1 as [H1|H1]; [left; set_solver|right]. intros w Hw. apply (valid_same (act allow a s)); [done|].
    apply H1. unfold value in *. by rewrite <- H2.
  - left. set_solver.
Qed.
End rounding.
