(* ===== verification/SpinnerHold.v ===== *)
(** * jQuery UI spinner: a key that is held

    While the key up is held, the value is the start plus the sum of the increments, up
    to what the maximum is adjusted to. *)

From S2P Require Export SpinnerFlow.
Import Spinner.

Section rounding.
Context `{R : Rounding}.

Section up.
Context (s : spinner) (step : dec) (Hok : options_ok s step).

Abbreviation grid := (SpinnerFlow.grid s step).
Abbreviation nearest := (SpinnerFlow.nearest s step).
Abbreviation base := (SpinnerFlow.base s).

(** One scale for the options. *)
Let Q := common s step base.

Definition small (v : dec) : Prop := (places v <= Q)%nat.

Lemma small_fits v : small v -> fits s step Q v.
Proof. intros H. destruct (common_fits s step base) as (A & B & C & D). by split. Qed.

Lemma small_grid k : small (grid k).
Proof.
  unfold small. etrans; [apply grid_small|]. destruct (common_fits s step base) as (A & B & C & D). fold Q in A, B. lia.
Qed.

Lemma small_min mn : o_min s = Some mn -> small mn.
Proof.
  intros H. destruct (common_fits s step base) as (A & _). fold Q in A. revert A. unfold small.
  assert (base = mn) as -> by (unfold SpinnerFlow.base; by rewrite H). done.
Qed.

Lemma small_max mx : o_max s = Some mx -> small mx.
Proof. intros H. exact (proj2 (proj2 (proj2 (common_fits s step base))) mx H). Qed.

Ltac smalls := first [apply small_grid | by apply small_max | by apply small_min].

Lemma common_small v : small v -> common s step v = Q.
Proof. unfold small, Q, common. lia. Qed.

Definition at_Q (v : dec) : Z := raise Q v.

Lemma at_grid k : at_Q (grid k) = at_Q base + k * at_Q step.
Proof. apply (raise_grid s step Q base). apply small_fits. exact (proj1 (common_fits s step base)). Qed.

Lemma at_step : 0 < at_Q step.
Proof. exact (raise_pos s step Hok Q (proj1 (proj2 (common_fits s step base)))). Qed.

Lemma ltb_at a b : small a -> small b -> dec_ltb a b = (at_Q a <? at_Q b).
Proof. intros A B. apply ltb_raise. unfold scale. unfold small in *. lia. Qed.

Lemma nearest_at v : small v -> nearest v = (2 * (at_Q v - at_Q base) + at_Q step) / (2 * at_Q step).
Proof. intros Hv. unfold SpinnerFlow.nearest. by rewrite common_small. Qed.

(** The index of a point that is not below the minimum. *)
Definition above (k : Z) : Prop := o_min s = None \/ 0 <= k.

Lemma clamp_grid k : above k ->
  clamp s (grid k) = match o_max s with Some mx => if dec_ltb mx (grid k) then mx else grid k | None => grid k end.
Proof.
  intros Hk. assert (forall mn, o_min s = Some mn -> dec_ltb (grid k) mn = false) as H.
  { intros mn Hm. destruct Hk as [Hk|Hk]; [congruence|]. rewrite ltb_at by smalls.
    rewrite at_grid. assert (base = mn) as -> by (unfold SpinnerFlow.base; by rewrite Hm). pose proof at_step. apply Z.ltb_ge. nia. }
  unfold clamp. destruct (o_max s) as [mx|], (o_min s) as [mn|]; try done; by rewrite (H mn eq_refl).
Qed.

(** What point [k] becomes. *)
Definition cap (k : Z) : dec :=
  match o_max s with
  | Some mx => if dec_ltb mx (grid k) then clamp s (grid (nearest mx)) else grid k
  | None => grid k
  end.

Lemma nearest_max mx : o_max s = Some mx -> above (nearest mx).
Proof.
  intros Hm. destruct (o_min s) as [mn|] eqn:En; [right|by left].
  pose proof (oo_order s step Hok mn mx En Hm) as Ho. rewrite ltb_at in Ho by smalls.
  assert (base = mn) as Hb by (unfold SpinnerFlow.base; by rewrite En). rewrite nearest_at by by apply small_max.
  rewrite Hb. pose proof at_step. apply Z.ltb_ge in Ho. apply Z.div_pos; lia.
Qed.

Lemma small_clamp k : small (clamp s (grid k)).
Proof.
  destruct (clamp_cases s (grid k)) as [->|[(mx & Hm & -> & _)|(mn & Hm & -> & _)]];
    [apply small_grid|by apply small_max|by apply small_min].
Qed.

Lemma nearest_more v n w : small v -> small w -> at_Q w = at_Q v + n * at_Q step -> nearest w = nearest v + n.
Proof.
  intros Hv Hw E. rewrite !nearest_at by done. rewrite E. pose proof at_step.
  replace (2 * (at_Q v + n * at_Q step - at_Q base) + at_Q step)
    with (2 * (at_Q v - at_Q base) + at_Q step + n * (2 * at_Q step)) by ring.
  apply Z.div_add. lia.
Qed.

Lemma cap_over k : above k -> (forall mx, o_max s = Some mx -> dec_ltb mx (grid k) = false) \/
  exists mx, o_max s = Some mx /\ at_Q mx < at_Q (grid k) /\ cap k = clamp s (grid (nearest mx)).
Proof.
  intros Hk. unfold cap. destruct (o_max s) as [mx|] eqn:Em; [|by left].
  destruct (dec_ltb mx (grid k)) eqn:E; [right|left; by intros ? [= <-]]. exists mx. split; [done|]. split; [|done].
  rewrite ltb_at in E by smalls. lia.
Qed.

(** Adjusting twice after a step of [n]. *)
Lemma step_up k n :
  above k -> 1 <= n ->
  let w := clamp s (grid (nearest (cap k) + n)) in clamp s (grid (nearest w)) = cap (k + n).
Proof.
  intros Hk Hn. cbv zeta. pose proof at_step as Hstep.
  assert (above (k + n)) as Hkn by (destruct Hk; [by left|right; lia]).
  destruct (cap_over k Hk) as [Hin|(mx & Em & Hover & Ec)].
  - assert (cap k = grid k) as -> by (unfold cap; destruct (o_max s) as [mx|] eqn:Em; [by rewrite (Hin mx)|done]).
    rewrite (nearest_grid s step Hok), (clamp_grid (k + n) Hkn). unfold cap. destruct (o_max s) as [mx|] eqn:Em.
    + destruct (dec_ltb mx (grid (k + n))) eqn:E; [done|]. rewrite (nearest_grid s step Hok), (clamp_grid (k + n) Hkn).
      by rewrite Em, E.
    + rewrite (nearest_grid s step Hok), (clamp_grid (k + n) Hkn). by rewrite Em.
  - assert (forall i, above i -> at_Q mx < at_Q (grid i) -> clamp s (grid i) = mx) as Htop.
    { intros i Hi Hlt. rewrite clamp_grid, Em by done. rewrite ltb_at by smalls.
      by rewrite (proj2 (Z.ltb_lt _ _) Hlt). }
    assert (cap (k + n) = clamp s (grid (nearest mx))) as ->.
    { unfold cap. rewrite Em. rewrite ltb_at by smalls.
      assert (at_Q mx < at_Q (grid (k + n))) as Hlt by (rewrite at_grid in *; nia). by rewrite (proj2 (Z.ltb_lt _ _) Hlt). }
    rewrite Ec. pose proof (nearest_max mx Em) as Hm.
    enough (clamp s (grid (nearest (clamp s (grid (nearest mx))) + n)) = mx) as -> by done.
    destruct (Z.lt_ge_cases (at_Q mx) (at_Q (grid (nearest mx)))) as [Hlt|Hge].
    + rewrite (Htop _ Hm Hlt). apply Htop; [destruct Hm; [by left|right; lia]|]. rewrite at_grid in *. nia.
    + assert (clamp s (grid (nearest mx)) = grid (nearest mx)) as ->.
      { rewrite clamp_grid, Em by done. rewrite ltb_at by smalls.
        by rewrite (proj2 (Z.ltb_ge _ _) Hge). }
      rewrite (nearest_grid s step Hok). apply Htop; [destruct Hm; [by left|right; lia]|].
      pose proof (nearest_bound s step Hok Q mx (small_fits mx (small_max mx Em))) as Hb.
      fold (at_Q mx) (at_Q (grid (nearest mx))) (at_Q step) in Hb. rewrite at_grid in *. nia.
Qed.
End up.

Lemma growing_pos i : 1 <= i -> 1 <= growing i.
Proof.
  intros Hi. unfold growing. apply Z.div_le_lower_bound; [lia|].
  assert (0 <= i * (i * i - 100 * i + 4250)) by (apply Z.mul_nonneg_nonneg; [lia|]; pose proof (Z.square_nonneg (i - 50)); lia).
  lia.
Qed.

Lemma cap_same s s' step k : same_options s s' -> cap s' step k = cap s step k.
Proof.
  intros E. injection E as E1 E2 _ _ _. unfold cap, nearest, common, grid, base, clamp. by rewrite E1, E2.
Qed.

(** The sum of the first [n] increments. *)
Fixpoint total (f : Z -> Z) (n : nat) : Z := match n with O => 0 | S m => total f m + f (Z.of_nat n) end.

Lemma put_value_frame v b s : exists t a l, (put_value v b s).1 = s <| text := t |> <| aria := a |> <| told := l |>.
Proof.
  assert (forall s', s' = s \/ (exists t, s' = refresh (s <| text := t |>)) \/ s' = tell Thrown s ->
    exists t a l, s' = s <| text := t |> <| aria := a |> <| told := l |>) as H.
  { intros s' [->|[(t & ->)| ->]]; [exists (text s), (aria s), (told s)|exists t, (o_min s, o_max s, value (s <| text := t |>)), (told s)|
      exists (text s), (aria s), (told s ++ [Thrown])]; by destruct s. }
  apply H. unfold put_value. cbv zeta. destruct v as [[|c t]|n|]; [right; left; by eexists|..]; (destruct (parse _) as [d|]; [|right; left; by eexists]);
    (destruct b; [right; left; by eexists|]); (destruct (adjustValue s d); [by right; right|right; left; by eexists]).
Qed.

End rounding.

Section hold.
Context `{R : Rounding}.
Context (allow : sevent -> bool) (Hallow : forall ev, allow ev = true).
Context (s0 : spinner) (step : dec) (Hok : options_ok s0 step).
(** The increments are whole and positive. *)
Context (f : Z -> Z) (Hf : forall i, 1 <= i -> increment s0 i = dec_of (f i) /\ 1 <= f i).

Abbreviation cap := (cap s0 step).

(** Spinning, with [c] the next counter, the value being what point [j] becomes. *)
Record holding (s : spinner) (j c : Z) : Prop := {
  ho_options : same_options s0 s;
  ho_spinning : spinning s = true;
  ho_counter : counter s = c;
  ho_value : value s = Some (cap j);
  ho_tidy : tidy allow s;
}.

Lemma cap_small j : small s0 step (cap j).
Proof. unfold SpinnerHold.cap. destruct (o_max s0); [destruct (dec_ltb _ _)|]; apply small_clamp || apply small_grid; done. Qed.

Lemma mul_places a n : (places (dec_mul a (dec_of n)) <= places a)%nat.
Proof. etrans; [apply norm_spec|]. cbn. lia. Qed.

Lemma raise_mul_right q a n : (places a <= q)%nat -> raise q (dec_mul a (dec_of n)) = n * raise q a.
Proof. intros H. unfold dec_mul. rewrite raise_norm by (cbn; lia). unfold raise. cbn. rewrite Nat.add_0_r. ring. Qed.

(** The value after a step. *)
Lemma step_value s j c :
  same_options s0 s -> above s0 j -> 1 <= c ->
  exists w, adjustValue s (dec_add (cap j) (dec_mul (dec_mul (dec_of 1) step) (increment s c))) = Adjusted (Some w) /\
    dec_ok w /\ adjustValue s w = Adjusted (Some (cap (j + f c))).
Proof.
  intros E Hj Hc. assert (increment s c = dec_of (f c)) as ->.
  { rewrite <- (proj1 (Hf c Hc)). unfold increment. unfold same_options in E. by assert (o_incremental s = o_incremental s0) as -> by congruence. }
  assert (forall v, adjustValue s v = adjustValue s0 v) as Ea.
  { intros v. unfold adjustValue, precision, clamp. injection E as E1 E2 E3 _ _. by rewrite E1, E2, E3. }
  destruct (Hf c Hc) as [_ Hfc]. set (x := dec_add _ _).
  pose proof (cap_small j) as Hcs. destruct (common_fits s0 step (base s0)) as (_ & Hst & _).
  assert (places (dec_mul (dec_mul (dec_of 1) step) (dec_of (f c))) <= places step)%nat as Hp.
  { etrans; [apply mul_places|]. apply norm_spec. }
  assert (small s0 step x) as Hx.
  { unfold small, x. etrans; [apply add_places|]. unfold scale. unfold small in Hcs. lia. }
  assert (at_Q s0 step x = at_Q s0 step (cap j) + f c * at_Q s0 step step) as Hv.
  { unfold at_Q, x. rewrite raise_add by (unfold scale; unfold small in Hcs; lia).
    rewrite raise_mul_right by (etrans; [apply norm_spec|done]). by rewrite raise_mul_int, Z.mul_1_l by done. }
  rewrite !Ea, (adjust_eq s0 step Hok x) by apply norm_ok.
  rewrite (nearest_more s0 step Hok (cap j) (f c) x Hcs Hx Hv).
  eexists. split; [done|]. set (w := clamp s0 _). assert (dec_ok w) as Hw.
  { destruct (clamp_cases s0 (grid s0 step (nearest s0 step (cap j) + f c))) as [H|[(mx & Hm & H & _)|(mn & Hm & H & _)]];
      fold w in H; rewrite H; [apply grid_ok|by apply (ok_max s0 step Hok)|by apply (ok_min s0 step Hok)]. }
  split; [done|]. rewrite Ea, (adjust_eq s0 step Hok w Hw). do 2 f_equal. by apply (step_up s0 step Hok j (f c)).
Qed.

Lemma spin_holding s j c :
  holding s j c -> above s0 j -> 1 <= c -> holding (spin allow (dec_of 1) s).1 (j + f c) (c + 1).
Proof.
  intros [E Sp Co Va Ti] Hj Hc. pose proof (spin_tidy allow (dec_of 1) s Ti) as Ti'.
  pose proof (spin_spinning allow (dec_of 1) s) as Sp'. rewrite Sp in Sp'.
  destruct (spin_writes allow step (dec_of 1) s (options_same _ _ _ E Hok)) as [E' _].
  enough (counter (spin allow (dec_of 1) s).1 = c + 1 /\ value (spin allow (dec_of 1) s).1 = Some (cap (j + f c))) as [H1 H2].
  { split; try done. unfold same_options in *. congruence. }
  clear Ti' Sp' E'. unfold spin. cbv zeta. rewrite Va. change (default (dec_of 0) (Some (cap j))) with (cap j).
  replace (if counter s =? 0 then 1 else counter s) with c by (rewrite Co; by destruct (Z.eqb_spec c 0); [lia|]).
  set (s1 := s <| counter := c |>). assert (same_options s0 s1) as E1 by done.
  pose proof (options_same s0 s1 step E1 Hok) as Hok1. rewrite (oo_step s1 step Hok1).
  change (counter s1) with c. destruct (step_value s1 j c E1 Hj Hc) as (w & -> & Hw & Hw2).
  assert (spinning s1 = true) as Sp1 by done. rewrite Sp1, Hallow. cbn [negb orb].
  set (s2 := tell (EvSpin (Some w)) s1). assert (options_ok s2 step) as Hok2 by by apply (options_same s1).
  destruct (put_value_spec (VNum (Some w)) s2 step Hok2 Hw) as (_ & P2 & P3 & _).
  destruct (put_value_frame (VNum (Some w)) false s2) as (t & a & l & Ep).
  unfold andThen. rewrite P2. cbn [fst pure]. split.
  - change (counter (put_value (VNum (Some w)) false s2).1 + 1 = c + 1). by rewrite Ep.
  - change (value (put_value (VNum (Some w)) false s2).1 = Some (cap (j + f c))). rewrite P3. cbn [parse].
    by assert (adjustValue s2 w = adjustValue s1 w) as -> by done; rewrite Hw2.
Qed.

Definition armed (s : spinner) : Prop := exists t, timer s = Some t /\ (t, Repeat (dec_of 1)) ∈ pending s.

Lemma put_value_armed v b s : armed s -> armed (put_value v b s).1.
Proof. destruct (put_value_frame v b s) as (t & a & l & ->). done. Qed.

Lemma spin_armed n s : armed s -> armed (spin allow n s).1.
Proof.
  intros H. unfold spin. cbv zeta. set (s1 := s <| counter := _ |>). assert (armed s1) as H1 by done. clearbody s1.
  destruct (o_step s1); [|done]. destruct (adjustValue s1 _); [done|].
  set (s2 := if spinning s1 then _ else _). assert (armed s2) as H2 by (unfold s2; by destruct (spinning s1)).
  destruct (_ || _); [|done]. unfold andThen. pose proof (put_value_armed (VNum v) false s2 H2).
  by destruct (put_value _ _ _).2.
Qed.

Lemma repeat_holding s j c :
  holding s j c -> above s0 j -> 1 <= c ->
  let s' := (repeat allow (dec_of 1) s).1 in holding s' (j + f c) (c + 1) /\ armed s'.
Proof.
  intros H Hj Hc. unfold repeat. cbv zeta.
  set (s1 := delay (Repeat (dec_of 1)) (clearTimeout (timer s) s <| timer := Some (ids (clearTimeout (timer s) s)) |>)).
  assert (armed s1) as Ha by (exists (ids (clearTimeout (timer s) s)); split; [done|]; apply elem_of_app; right; by constructor).
  assert (holding s1 j c) as H1.
  { destruct H as [E Sp Co Va Ti]. split; [by unfold s1; destruct (timer s)..|].
    apply (delay_tidy allow (Repeat (dec_of 1)) (clearTimeout (timer s) s)).
    - intros n k' [Hin Hn]%clear_elem. by apply (ti_repeat allow s Ti) in Hin as [Hin _].
    - by destruct (timer s).
    - by apply clear_tidy. }
  split; [by apply spin_holding|by apply spin_armed].
Qed.

(** The timer of the key that is held. *)
Definition elapse (s : spinner) : spinner := match timer s with Some t => act allow (Fire t) s | None => s end.

Lemma elapse_holding s j c :
  holding s j c -> armed s -> above s0 j -> 1 <= c -> holding (elapse s) (j + f c) (c + 1) /\ armed (elapse s).
Proof.
  intros H (t & Et & Hin) Hj Hc. unfold elapse. rewrite Et. cbn [act]. unfold fire.
  assert (exists i, list_find (fun p => p.1 = t) (pending s) = Some (i, (t, Repeat (dec_of 1)))) as [i ->].
  { destruct (list_find_elem_of (fun p : nat * later => p.1 = t) (pending s) (t, Repeat (dec_of 1)) Hin eq_refl) as [[i [t' l]] Ef].
    exists i. rewrite Ef. apply list_find_Some in Ef as (Ei & Em & _). cbn in Em. subst t'.
    apply list_elem_of_lookup_2 in Ei. apply list_elem_of_lookup in Ei as [a Ha]. apply list_elem_of_lookup in Hin as [b Hb].
    destruct H as [_ _ _ _ Ti].
    assert (a = b) as -> by (eapply (NoDup_lookup _ _ _ t (ti_nodup allow s Ti)); rewrite list_lookup_fmap, ?Ha, ?Hb; done).
    rewrite Ha in Hb. by simplify_eq. }
  cbv zeta. apply repeat_holding; [|done..]. destruct H as [E Sp Co Va Ti]. split; try done.
  exact (clear_tidy allow (Some t) s Ti).
Qed.

(** From a point of the grid within the bounds, a press of the key up and [n] more
    periods of its timer lead to the point further up by the sum of the increments, or,
    if that is above the maximum, to what the maximum is adjusted to. *)
Theorem held_key n k :
  spinning s0 = false -> counter s0 = 0 -> disabled s0 = false -> destroyed s0 = false -> tidy allow s0 ->
  above s0 k -> (forall mx, o_max s0 = Some mx -> dec_ltb mx (grid s0 step k) = false) -> value s0 = Some (grid s0 step k) ->
  value (Nat.iter n elapse (act allow (KeyDown KUp) s0)) = Some (cap (k + total f (S n))).
Proof.
  intros Sp Co Di De Ti Hk Hmx Va.
  enough (holding (Nat.iter n elapse (act allow (KeyDown KUp) s0)) (k + total f (S n)) (Z.of_nat (S n) + 1) /\
    armed (Nat.iter n elapse (act allow (KeyDown KUp) s0))) as [H _] by apply (ho_value _ _ _ H).
  assert (forall m, 0 <= total f m) as Ht.
  { induction m as [|m IH]; [done|]. cbn [total]. destruct (Hf (Z.of_nat (S m)) ltac:(lia)). lia. }
  induction n as [|n IH].
  - cbn [Nat.iter nat_rect act]. unfold handled. rewrite Di, De. cbn [orb]. unfold keydown.
    destruct (start_tidy allow s0 Ti) as [T1 T2]. revert T1 T2. unfold start. rewrite Sp, Hallow. cbn [negb andb].
    cbv zeta. cbn [fst snd key_steps]. set (s1 := _ <| spinning := true |>). intros T1 _.
    assert (holding s1 k 1) as H1.
    { split; try done; [unfold s1; cbn; by rewrite Co|]. change (value s1) with (value s0). rewrite Va. f_equal.
      unfold SpinnerHold.cap. destruct (o_max s0) as [mx|]; [by rewrite (Hmx mx eq_refl)|done]. }
    apply (repeat_holding s1 k 1 H1 Hk). lia.
  - destruct IH as [H1 H2]. change (Nat.iter (S n) elapse ?x) with (elapse (Nat.iter n elapse x)).
    destruct (elapse_holding _ _ _ H1 H2) as [H3 H4]; [|lia|].
    + destruct Hk as [Hk|Hk]; [by left|right]. specialize (Ht (S n)). lia.
    + split; [|done]. replace (k + total f (S (S n))) with (k + total f (S n) + f (Z.of_nat (S n) + 1))
        by (cbn [total]; rewrite (Nat2Z.inj_succ (S n)); unfold Z.succ; lia).
      by replace (Z.of_nat (S (S n)) + 1) with (Z.of_nat (S n) + 1 + 1) by lia.
Qed.
End hold.

(** ** Runs

    The theorems of [SpinnerFlow] and [SpinnerHold] at spinners, and runs in which the
    spinner does not do what it means to. *)


Definition yes : sevent -> bool := fun _ => true.

(** A rounding with an error of 4e-17. *)
#[local] Instance noisy : Rounding := fun v => dec_add v (mk_dec 4 17).

Lemma noisy_near p v : (p <= 15)%nat -> near p (rounded v) v.
Proof.
  intros Hp. split; [apply norm_ok|]. change (rounded v) with (dec_add v (mk_dec 4 17)).
  set (w := dec_add _ _). set (c := scale w v). set (q := Nat.max (Nat.max c (places v)) 17).
  enough (2 * pow10 p * Z.abs (raise q w - raise q v) < pow10 q) as H.
  { replace q with (c + (q - c))%nat in H by (unfold q; lia). rewrite !raise_up, pow10_add in H by (unfold c, scale; lia).
    pose proof (pow10_pos (q - c)) as Hr. rewrite <- Z.mul_sub_distr_r, Z.abs_mul, (Z.abs_eq (pow10 (q - c))) in H by lia. nia. }
  unfold w. rewrite raise_add by (unfold scale, q; cbn; lia). rewrite Z.add_simpl_l. unfold raise. cbn [mant places].
  replace q with ((q - 17) + ((17 - p) + p))%nat at 2 by (unfold q; lia). rewrite !pow10_add.
  pose proof (pow10_pos p). pose proof (pow10_pos (q - 17)). assert (100 <= pow10 (17 - p)) as H2.
  { replace (17 - p)%nat with (S (S (15 - p))) by lia. rewrite !pow10_S. pose proof (pow10_pos (15 - p)). lia. }
  rewrite Z.abs_eq by lia. nia.
Qed.

(** Rounding that is always near. *)
Lemma near_rounding s step :
  (forall k, dec_ok (grid s step k) /\ (places (grid s step k) <= precision s step)%nat) -> (precision s step <= 15)%nat -> rounding_ok s step.
Proof.
  intros Hp H. split; intros k; destruct (Hp k) as [A B]; [intros _; by apply noisy_near|..];
    intros m _; by rewrite (toFixed_near _ _ _ A B (noisy_near _ _ H)).
Qed.

(** From 0 to 10 in steps of 0.25. *)
Definition quarters (t : string) : spinner :=
  create (VText "10") (VText "0") (VText "0.25") (dec_of 10) Growing false t.

Lemma quarters_ok t : options_ok (quarters t) (mk_dec 25 2).
Proof.
  assert (o_step (quarters t) = Some (mk_dec 25 2) /\ o_min (quarters t) = Some (dec_of 0) /\ o_max (quarters t) = Some (dec_of 10))
    as (A & B & C).
  { unfold quarters, create. destruct (put_value_frame (VText t) true
      (mk_spinner (parse (VText "10")) (parse (VText "0")) (parse (VText "0.25")) (dec_of 10) Growing false t (None, None, None)
        0 false None None [] 0 None false false false [])) as (t' & a & l & E). rewrite E. by vm_compute. }
  split; [done|done|..].
  - split; [by right|]. split; [intros d; rewrite B|intros d; rewrite C]; intros [= <-]; by left.
  - split; [right; by vm_compute|]. intros d. rewrite B. intros [= <-]. by left.
  - intros mn mx. rewrite B, C. by intros [= <-] [= <-].
  - assert (precision (quarters t) (mk_dec 25 2) = 2%nat) as P by (unfold precision; by rewrite B).
    apply near_rounding; [|rewrite P; lia]. intros k. split; [apply norm_ok|]. rewrite P. etrans; [apply grid_small|].
    unfold SpinnerFlow.base. rewrite B. cbn. lia.
Qed.

Example spinner_told_witness :
  let s := acts yes [Press true; Fire 1; Fire 2; Release]%nat (create VNull VNull (VText "1") (dec_of 10) Growing false "7") in
  spins_after yes (told s) = Some (spinning s).
Proof. apply (spinner_told yes VNull VNull (VText "1")). Defined.

Example spinner_in_bounds_witness :
  let s := acts yes [Type_ "99.9"; KeyDown KUp; KeyUp]%string (quarters "1.1") in
  text s ∈ ["1.1"; "99.9"]%string \/ forall w, value s = Some w -> valid (quarters "1.1") (mk_dec 25 2) w.
Proof.
  apply (spinner_in_bounds yes (mk_dec 25 2) [Type_ "99.9"; KeyDown KUp; KeyUp] (quarters "1.1") (quarters_ok "1.1")).
  apply Forall_cons; split; [right; by eexists|]. apply Forall_cons; split; [by left|]. apply Forall_cons; by split; [left|].
Defined.

Example held_key_witness :
  value (Nat.iter 3 (elapse yes) (act yes (KeyDown KUp) (quarters "1"))) =
    Some (cap (quarters "1") (mk_dec 25 2) (4 + total growing 4)).
Proof.
  apply (held_key yes (fun _ => eq_refl) (quarters "1") (mk_dec 25 2) (quarters_ok "1") growing);
    [|by vm_compute..|by apply create_tidy|by right|by intros mx [= <-]|by vm_compute].
  intros i Hi. split; [done|by apply growing_pos].
Defined.

Example held_values :
  text (Nat.iter 3 (elapse yes) (act yes (KeyDown KUp) (quarters "1"))) = "2"%string /\
  text (Nat.iter 60 (elapse yes) (act yes (KeyDown KUp) (quarters "1"))) = "10"%string.
Proof. by vm_compute. Qed.

(** *** A maximum that is not on the grid

    The event tells the maximum, but [_value] adjusts it once more: the input shows the
    point below. *)
Example told_is_not_shown :
  let s := act yes (KeyDown KUp) (create (VText "4") (VText "0") (VText "3") (dec_of 10) Growing false "3") in
  told s = [EvStart; EvSpin (Some (dec_of 4))] /\ text s = "3"%string.
Proof. by vm_compute. Qed.

(** *** Disabled while a button is held

    The release is not handled any more: the timer spins on for ever. *)
Example spins_on :
  let s := acts yes [Press true; Disable true; Release]%nat (create VNull VNull (VText "1") (dec_of 10) Always1 false "7") in
  spinning s = true /\ text s = "8"%string /\
  text (Nat.iter 5 (elapse yes) s) = "13"%string /\ spinning (Nat.iter 5 (elapse yes) s) = true.
Proof. by vm_compute. Qed.

(** *** A step that is no number

    [step="any"], as HTML allows, becomes [null]; every step then throws. *)
Example any_step :
  told (act yes (KeyDown KUp) (create VNull VNull (VText "any") (dec_of 10) Growing false "7")) = [EvStart; Thrown].
Proof. by vm_compute. Qed.

(** *** A step of 0 writes a text that is no number *)
Example zero_step :
  text (act yes (StepUp (dec_of 1)) (create VNull VNull (VText "0") (dec_of 10) Growing false "7")) = "NaN"%string.
Proof. by vm_compute. Qed.

(** *** Typing tells starts and stops *)
Example typing_spins :
  told (acts yes [KeyDown KOther; Type_ "71"; KeyUp] (create VNull VNull (VText "1") (dec_of 10) Growing false "7")) = [EvStart; EvStop].
Proof. by vm_compute. Qed.

(** *** A step that is written with an exponent

    The text [1e-7] has no point: the precision is 0, and no step leaves 0. *)
Example tiny_step :
  precisionOf (mk_dec 1 7) = O /\
  text (Nat.iter 5 (elapse yes) (act yes (KeyDown KUp) (create VNull VNull (VText "0.0000001") (dec_of 10) Always1 false "0"))) = "0"%string.
Proof. by vm_compute. Qed.
