(* ===== verification/UiAccordion.v ===== *)
(** * jQuery UI accordion

    Models the widget [ui.accordion] of [2019104287/code/WebContent/js/jquery-ui.js] with
    its deprecated additions: headers, each with the panel after it, their classes and
    ARIA attributes, the animations of panels, keys and options.  Heights, durations and
    the places of elements are left out; listeners of the page only allow or prevent. *)

From S2P Require Export JsValue.

Module Accordion.

(** The headers and panels a toggle is about, as the events tell them. *)
Record change := mk_change { c_old : option nat; c_new : option nat }.
#[global] Instance change_eq_dec : EqDecision change.
Proof. solve_decision. Defined.

(** An animation of a panel, with what it completes. *)
Record anim := mk_anim { showing : bool; completes : option change }.

(** A header and its panel.  [h_active] are the two classes of an active header, [h_icon]
    the icon of one; [h_top] and [h_all] the classes of corners; [h_selected] and
    [p_expanded] the ARIA attributes; [h_stop] says that its [tabIndex] is 0. *)
Record header := mk_header {
  h_active : bool; h_icon : bool; h_all : bool; h_top : bool; h_selected : bool; h_stop : bool; h_disabled : bool;
  p_active : bool; p_expanded : bool; p_shown : bool; p_anim : option anim;
}.
#[export] Instance header_eta : Settable header := fun h =>
  mk_header (h_active h) (h_icon h) (h_all h) (h_top h) (h_selected h) (h_stop h) (h_disabled h)
    (p_active h) (p_expanded h) (p_shown h) (p_anim h).

Inductive aevent := EvBeforeActivate (c : change) | EvChangeStart (c : change) | EvActivate (c : change) | EvChange (c : change).

(** [o_active] is an index or [false]; [o_event] are the names of the events bound. *)
Record accordion := mk_accordion {
  headers : list header; active : option nat; prevShow : option nat; prevHide : option nat;
  o_active : option Z; o_animate : bool; o_collapsible : bool; o_icons : bool; o_event : list string; o_disabled : bool;
  focused : option nat; destroyed : bool; told : list aevent;
}.
#[export] Instance accordion_eta : Settable accordion := fun s =>
  mk_accordion (headers s) (active s) (prevShow s) (prevHide s) (o_active s) (o_animate s) (o_collapsible s)
    (o_icons s) (o_event s) (o_disabled s) (focused s) (destroyed s) (told s).

Definition tell (ev : aevent) (s : accordion) : accordion := s <| told := told s ++ [ev] |>.

(** A jQuery object of at most one header. *)
Definition on (i : option nat) (f : header -> header) (s : accordion) : accordion :=
  match i with Some i => s <| headers := alter f i (headers s) |> | None => s end.
Definition on_all (f : header -> header) (s : accordion) : accordion := s <| headers := f <$> headers s |>.

(** ** Which header *)

(** What [active] may be given: a number, [false] or [null], or a selector with the index
    of the first header it matches. *)
Inductive index_arg := AtIndex (z : Z) | NoIndex | Selects (found : option nat).

(** [eq]: a negative index counts from the end. *)
Definition eq_index (n : nat) (z : Z) : option nat :=
  let i := if z <? 0 then z + Z.of_nat n else z in
  if (0 <=? i) && (i <? Z.of_nat n) then Some (Z.to_nat i) else None.

(** [_findActive]. *)
Definition findActive (s : accordion) (a : index_arg) : option nat :=
  let n := length (headers s) in
  match a with
  | AtIndex z => if z =? -1 then None else eq_index n z
  | NoIndex => None
  | Selects found => match found with Some i => eq_index n (Z.of_nat i) | None => None end
  end.

Section accordion.
Context (allow : aevent -> bool).
(** Whether [attr("tabIndex")] gives a number, as it did before jQuery 1.9. *)
Context (numeric : bool).

(** ** Toggling *)

(** [_trigger] with the events of old. *)
Definition trigger_activate (c : change) (s : accordion) : accordion :=
  let s := tell (EvActivate c) s in
  if allow (EvActivate c) then tell (EvChange c) s else s.

Definition trigger_beforeActivate (c : change) (s : accordion) : accordion * bool :=
  let s := tell (EvBeforeActivate c) s in
  if allow (EvBeforeActivate c) then (tell (EvChangeStart c) s, allow (EvChangeStart c)) else (s, false).

Definition toggleComplete (c : change) (s : accordion) : accordion :=
  let s := on (c_old c) (fun h => h <| p_active := false |> <| h_top := false |> <| h_all := true |>) s in
  trigger_activate c s.

(** An animation of the panel [i] ends: one that hides leaves it hidden. *)
Definition anim_end (i : nat) (s : accordion) : accordion :=
  match headers s !! i ≫= p_anim with
  | None => s
  | Some a =>
      let s := on (Some i) (fun h => (if showing a then h else h <| p_shown := false |>) <| p_anim := None |>) s in
      match completes a with Some c => toggleComplete c s | None => s end
  end.

(** [prevShow.add(prevHide).stop(true, true)], in the order of the document. *)
Definition stop_both (s : accordion) : accordion :=
  let on_opt (i : option nat) s := match i with Some i => anim_end i s | None => s end in
  match prevShow s, prevHide s with
  | Some i, Some j => if (i <=? j)%nat then anim_end j (anim_end i s) else anim_end i (anim_end j s)
  | i, j => on_opt j (on_opt i s)
  end.

Definition show_panel (i : option nat) (s : accordion) : accordion := on i (fun h => h <| p_shown := true |>) s.
Definition hide_panel (i : option nat) (s : accordion) : accordion := on i (fun h => h <| p_shown := false |>) s.

Definition animate_panel (sh : bool) (c : option change) (i : option nat) (s : accordion) : accordion :=
  on i (fun h => h <| p_shown := true |> <| p_anim := Some (mk_anim sh c) |>) s.

(** [_animate]. *)
Definition animate (toShow toHide : option nat) (c : change) (s : accordion) : accordion :=
  match toHide, toShow with
  | None, _ => animate_panel true (Some c) toShow s
  | _, None => animate_panel false (Some c) toHide s
  | _, _ => animate_panel true (Some c) toShow (animate_panel false None toHide s)
  end.

(** [_toggle]. *)
Definition toggle (c : change) (s : accordion) : accordion :=
  let toShow := c_new c in
  let toHide := match prevShow s with Some i => Some i | None => c_old c end in
  let s := stop_both s <| prevShow := toShow |> <| prevHide := toHide |> in
  let s := if o_animate s then animate toShow toHide c s
           else toggleComplete c (show_panel toShow (hide_panel toHide s)) in
  let s := on toHide (fun h => h <| p_expanded := false |> <| h_selected := false |>) s in
  let s := match toShow, toHide with
           | Some _, Some _ => on toHide (fun h => h <| h_stop := false |>) s
           | Some _, None => if numeric then on_all (fun h => h <| h_stop := false |>) s else s
           | None, _ => s
           end in
  on toShow (fun h => h <| p_expanded := true |> <| h_selected := true |> <| h_stop := true |>) s.

(** [_eventHandler], for the header [i]. *)
Definition eventHandler (i : nat) (s : accordion) : accordion :=
  let old := active s in
  let clickedIsActive := bool_decide (old = Some i) in
  let collapsing := clickedIsActive && o_collapsible s in
  let c := mk_change old (if collapsing then None else Some i) in
  if clickedIsActive && negb (o_collapsible s) then s
  else
    let r := trigger_beforeActivate c s in
    if negb r.2 then r.1
    else
      let s := r.1 <| o_active := if collapsing then None else Some (Z.of_nat i) |>
                   <| active := if clickedIsActive then None else Some i |> in
      let s := toggle c s in
      let s := on old (fun h => let h := h <| h_active := false |> in
                                if o_icons s then h <| h_icon := false |> else h) s in
      if clickedIsActive then s
      else on (Some i) (fun h => let h := h <| h_all := false |> <| h_active := true |> <| h_top := true |> in
                                 (if o_icons s then h <| h_icon := true |> else h) <| p_active := true |>) s.

(** [_activate], which is also the method [activate]. *)
Definition activate (a : index_arg) (s : accordion) : accordion :=
  let found := findActive s a in
  if bool_decide (found = active s) then s
  else match (match found with Some i => Some i | None => active s end) with
       | Some i => eventHandler i s
       | None => s
       end.

(** ** Keys *)

Inductive akey := KNext | KPrevious | KToggle | KHome | KEnd | KOther.

(** [_keydown] on the header [i]; [inner] if the target is an element in it. *)
Definition keydown (k : akey) (i : nat) (inner : bool) (s : accordion) : accordion :=
  let length := Z.of_nat (length (headers s)) in
  let currentIndex := if inner then -1 else Z.of_nat i in
  let go (z : Z) (s : accordion) : accordion :=
    if (0 <=? z) && (z <? length) then
      let s := if inner then s else on (Some i) (fun h => h <| h_stop := false |>) s in
      on (Some (Z.to_nat z)) (fun h => h <| h_stop := true |>) s <| focused := Some (Z.to_nat z) |>
    else s in
  match k with
  | KNext => go ((currentIndex + 1) mod length) s
  | KPrevious => go (Z.rem (currentIndex - 1 + length) length) s
  | KToggle => eventHandler i s
  | KHome => go 0 s
  | KEnd => go (length - 1) s
  | KOther => s
  end.

(** [_panelKeyDown]: the keys up and control in the panel [i]. *)
Definition panelKeyDown (i : nat) (s : accordion) : accordion := s <| focused := Some i |>.

(** ** Options *)

Definition createIcons (s : accordion) : accordion :=
  if o_icons s then on (active s) (fun h => h <| h_icon := true |>) s else s.
Definition destroyIcons (s : accordion) : accordion := on_all (fun h => h <| h_icon := false |>) s.

Inductive aoption :=
  | OActive (a : index_arg) | OEvent (l : list string) | OCollapsible (b : bool) | OIcons (b : bool)
  | ODisabled (b : bool) | OAnimate (b : bool).

(** [_setOption]. *)
Definition setOption (o : aoption) (s : accordion) : accordion :=
  match o with
  | OActive a => activate a s
  | OEvent l => s <| o_event := l |>
  | OCollapsible b =>
      let s := s <| o_collapsible := b |> in
      if negb b && bool_decide (o_active s = None) then activate (AtIndex 0) s else s
  | OIcons b =>
      let s := destroyIcons (s <| o_icons := b |>) in
      if b then createIcons s else s
  | ODisabled b => on_all (fun h => h <| h_disabled := b |>) (s <| o_disabled := b |>)
  | OAnimate b => s <| o_animate := b |>
  end.

Definition blank : header := mk_header false false false false false false false false false true None.

(** [_destroy]: animations go on. *)
Definition destroy (s : accordion) : accordion :=
  on_all (fun h => blank <| p_anim := p_anim h |>) s <| destroyed := true |>.

(** ** Creating *)

(** A header with its panel as [_create] leaves it when it is not the active one. *)
Definition closed : header := mk_header false false true false false false false false false false None.

(** [_create] with [n] headers; [navigation] is the header or panel with the current link,
    counted among both. *)
Definition create (n : nat) (act : option Z) (animate collapsible icons : bool) (events : list string)
    (navigation : option nat) : accordion :=
  let act := match navigation with Some k => Some (Z.of_nat (k / 2)) | None => act end in
  let act := if negb collapsible && bool_decide (act = None) then Some 0 else act in
  let act := (fun z => if z <? 0 then z + Z.of_nat n else z) <$> act in
  let s := mk_accordion (List.repeat closed n) None None None act animate collapsible icons events false None false [] in
  let a := findActive s (match act with Some z => AtIndex z | None => NoIndex end) in
  let s := s <| active := a |> in
  let s := on a (fun h => h <| h_active := true |> <| h_all := false |> <| h_top := true |> <| p_active := true |> <| p_shown := true |>) s in
  let s := createIcons s in
  match a with
  | None => on (Some 0%nat) (fun h => h <| h_stop := true |>) s
  | Some _ => on a (fun h => h <| h_selected := true |> <| h_stop := true |> <| p_expanded := true |>) s
  end.

(** What happens to an accordion. *)
Inductive aaction :=
  | Event (name : string) (i : nat) | KeyDown (k : akey) (i : nat) (inner : bool) | PanelKeyDown (i : nat)
  | SetOption (o : aoption) | Activate (a : index_arg) | AnimEnd (i : nat) | Destroy.

Definition listens (i : nat) (s : accordion) : bool :=
  match headers s !! i with
  | Some h => negb (o_disabled s || h_disabled h || destroyed s)
  | None => false
  end.

Definition act (a : aaction) (s : accordion) : accordion :=
  match a with
  | Event name i => if listens i s && bool_decide (name ∈ o_event s) then eventHandler i s else s
  | KeyDown k i inner => if listens i s then keydown k i inner s else s
  | PanelKeyDown i => if listens i s then panelKeyDown i s else s
  | SetOption o => if destroyed s then s else setOption o s
  | Activate a => if destroyed s then s else activate a s
  | AnimEnd i => anim_end i s
  | Destroy => if destroyed s then s else destroy s
  end.
End accordion.
End Accordion.
