(* ===== verification/AccordionFlow.v ===== *)
(** * jQuery UI accordion, its properties

    Under any use exactly the active header is marked, and once the animations are over
    exactly its panel is shown; an accordion that is not collapsible keeps one open; what
    is active follows the clicks as simply as a radio button. *)

From S2P Require Export UiAccordion.
Import Accordion.

Section flow.
Context (allow : aevent -> bool) (numeric : bool).

(** ** Headers *)

(** [s'] has the headers of [s] changed by [g]; the rest is told apart. *)
Definition maps (s s' : accordion) (g : nat -> header -> header) : Prop :=
  forall i, headers s' !! i = g i <$> headers s !! i.

Definition rest (s : accordion) :=
  (active s, prevShow s, prevHide s, o_active s, o_animate s, o_collapsible s, o_icons s).

Record changes (s s' : accordion) (g : nat -> header -> header) : Prop := {
  ch_maps : maps s s' g;
  ch_rest : rest s' = rest s;
}.

Lemma changes_comp s1 s2 s3 g1 g2 : changes s1 s2 g1 -> changes s2 s3 g2 -> changes s1 s3 (fun i h => g2 i (g1 i h)).
Proof.
  intros [A B] [C D]. split; [|congruence]. intros i. rewrite (C i), (A i). by destruct (headers s1 !! i).
Qed.

Lemma changes_on j f s : changes s (on j f s) (fun i h => if bool_decide (j = Some i) then f h else h).
Proof.
  split; [|by destruct j]. intros i. destruct j as [j|]; cbn [on].
  - change (headers (s <| headers := alter f j (headers s) |>)) with (alter f j (headers s)).
    rewrite list_lookup_alter. destruct (decide (j = i)) as [->|Hne].
    + by rewrite bool_decide_eq_true_2.
    + rewrite bool_decide_eq_false_2 by congruence. by destruct (headers s !! i).
  - rewrite bool_decide_eq_false_2 by done. by destruct (headers s !! i).
Qed.

Lemma changes_tell ev s : changes s (tell ev s) (fun _ h => h).
Proof. split; [|done]. intros i. cbn. by destruct (headers s !! i). Qed.

Lemma changes_id s : changes s s (fun _ h => h).
Proof. split; [|done]. intros i. by destruct (headers s !! i). Qed.

Lemma changes_trigger c s : changes s (trigger_activate allow c s) (fun _ h => h).
Proof.
  unfold trigger_activate. destruct (allow _); [|apply changes_tell]. split; [|done]. intros i. cbn. by destruct (headers s !! i).
Qed.

Definition completed (c : change) (i : nat) (h : header) : header :=
  if bool_decide (c_old c = Some i) then h <| p_active := false |> <| h_top := false |> <| h_all := true |> else h.

Lemma changes_complete c s : changes s (toggleComplete allow c s) (completed c).
Proof. exact (changes_comp _ _ _ _ _ (changes_on _ _ s) (changes_trigger c _)). Qed.

Lemma changes_length s s' g : changes s s' g -> length (headers s') = length (headers s).
Proof.
  intros [M _]. apply Nat.le_antisymm; apply Nat.nlt_ge; intros Hlt.
  - destruct (lookup_lt_is_Some_2 (headers s') (length (headers s)) Hlt) as [h Hh].
    rewrite (M _), lookup_ge_None_2 in Hh by done. done.
  - destruct (lookup_lt_is_Some_2 (headers s) (length (headers s')) Hlt) as [h Hh].
    pose proof (M (length (headers s'))) as E. rewrite Hh, lookup_ge_None_2 in E by done. done.
Qed.

(** ** What a header looks like *)

(** It is the active one ([isa]) or the last that was ([iso]); the animation of the panel
    that is shown ([sh]) or hidden ([hi]) may still run; [none] if none is active. *)
Definition face_of (isa iso none sh hi : bool) (c : change) (stop dis icon : bool) : header :=
  let top := isa || iso && (if none then hi else sh) in
  mk_header isa icon (negb top) top isa stop dis top isa (isa || iso && hi)
    (if isa && sh then Some (mk_anim true (Some c))
     else if iso && hi then Some (mk_anim false (if none then Some c else None)) else None).

Definition is_none (a : option nat) : bool := match a with None => true | _ => false end.

Definition face (a : option nat) (c : change) (sh hi : bool) (i : nat) (h : header) : Prop :=
  exists stop dis icon, h = face_of (bool_decide (a = Some i)) (bool_decide (c_old c = Some i)) (is_none a) sh hi c stop dis icon.

(** The headers and panels, with [a] active after the toggle [c]. *)
Record paints (s : accordion) (a : option nat) (c : change) (sh hi : bool) : Prop := {
  sh_index : forall i, a = Some i -> (i < length (headers s))%nat;
  sh_new : c_new c = a;
  sh_old : forall i, c_old c = Some i -> a <> Some i /\ (i < length (headers s))%nat;
  sh_prev : prevShow s = None \/ prevShow s = a;
  sh_stopped : sh || hi = true -> prevShow s = a /\ prevHide s = c_old c;
  sh_none : (a = None -> sh = false) /\ (c_old c = None -> hi = false);
  sh_face : forall i h, headers s !! i = Some h -> face a c sh hi i h;
}.

Lemma paints_changes s s' g a c sh hi sh' hi' :
  paints s a c sh hi -> changes s s' g -> (sh' || hi' = true -> sh || hi = true) ->
  (a = None -> sh' = false) /\ (c_old c = None -> hi' = false) ->
  (forall i h, face a c sh hi i h -> face a c sh' hi' i (g i h)) ->
  paints s' a c sh' hi'.
Proof.
  intros [C D E F G H I] Hc Hsh Hn Hf. pose proof (changes_length _ _ _ Hc) as Hl. destruct Hc as [M R].
  injection R as R1 R2 R3 R4 _ _ _. rewrite <- R2 in F.
  split; [rewrite Hl; done|done|rewrite Hl; done|done|rewrite R2, R3; by intros Hs; apply G, Hsh|done|].
  - intros i h' Hh'. rewrite (M i) in Hh'. destruct (headers s !! i) as [h|] eqn:Eh; [|done]. injection Hh' as <-.
    by apply Hf, I.
Qed.

(** ** Ends of animations *)

Lemma anim_end_face s a c sh hi i h :
  paints s a c sh hi -> headers s !! i = Some h ->
  p_anim h = if bool_decide (a = Some i) && sh then Some (mk_anim true (Some c))
             else if bool_decide (c_old c = Some i) && hi then Some (mk_anim false (if is_none a then Some c else None)) else None.
Proof. intros H Hh. by destruct (sh_face _ _ _ _ _ H i h Hh) as (st & di & ic & ->). Qed.

(** The end of the animation of a panel. *)
Lemma anim_end_paints s a c sh hi i :
  paints s a c sh hi ->
  paints (anim_end allow i s) a c (sh && negb (bool_decide (a = Some i))) (hi && negb (bool_decide (c_old c = Some i))).
Proof.
  intros H. pose proof (sh_old _ _ _ _ _ H) as Ho. pose proof (sh_none _ _ _ _ _ H) as [Hn1 Hn2].
  unfold anim_end. destruct (headers s !! i) as [h|] eqn:Eh; cbn [mbind option_bind].
  2: { apply lookup_ge_None in Eh. rewrite !bool_decide_eq_false_2, !andb_true_r; [done|..].
    - intros Hc. apply Ho in Hc. lia.
    - intros Ha. apply (sh_index _ _ _ _ _ H) in Ha. lia. }
  rewrite (anim_end_face s a c sh hi i h H Eh).
  destruct (bool_decide_reflect (a = Some i)) as [Ea|Ea]; [rewrite bool_decide_eq_false_2 by (intros Hc; by apply Ho in Hc as [Hc _])|];
    cbn [andb negb]; rewrite ?andb_true_r.
  - destruct sh; [|by rewrite andb_false_l]. cbn [completes].
    apply (paints_changes s _ _ a c true hi _ _ H (changes_comp _ _ _ _ _ (changes_on _ _ s) (changes_complete c _))); [by destruct hi|done|].
    intros j h' (st & di & ic & ->). exists st, di, ic. unfold completed.
    destruct (bool_decide_reflect (Some i = Some j)) as [[= <-]|Hne].
    + rewrite (bool_decide_eq_true_2 _ Ea). rewrite (bool_decide_eq_false_2 (c_old c = Some i)) by (intros Hc; by apply Ho in Hc as [Hc _]).
      by destruct hi.
    + rewrite (bool_decide_eq_false_2 (a = Some j)) by congruence. subst a. by destruct (bool_decide (c_old c = Some j)), hi.
  - destruct (bool_decide_reflect (c_old c = Some i)) as [Ec|Ec]; cbn [andb negb]; rewrite ?andb_false_r, ?andb_true_r; [|done].
    destruct hi; [|done]. cbn [completes]. destruct a as [a|]; cbn [is_none].
    + apply (paints_changes s _ _ (Some a) c sh true _ _ H (changes_on _ _ s)); [by destruct sh|done|].
      intros j h' (st & di & ic & ->). exists st, di, ic. destruct (bool_decide_reflect (Some i = Some j)) as [[= <-]|Hne].
      * rewrite (bool_decide_eq_true_2 _ Ec), (bool_decide_eq_false_2 _ Ea). by destruct sh.
      * rewrite (bool_decide_eq_false_2 (c_old c = Some j)) by congruence. by destruct (bool_decide (Some a = Some j)), sh.
    + rewrite Hn1 in * by done.
      apply (paints_changes s _ _ None c false true _ _ H (changes_comp _ _ _ _ _ (changes_on _ _ s) (changes_complete c _))); [done|done|].
      intros j h' (st & di & ic & ->). exists st, di, ic. unfold completed. destruct (bool_decide_reflect (Some i = Some j)) as [[= <-]|Hne].
      * by rewrite (bool_decide_eq_true_2 _ Ec).
      * by rewrite !(bool_decide_eq_false_2 (c_old c = Some j)) by congruence.
Qed.

(** The animations of the last toggle are stopped. *)
Lemma stop_both_paints s a c sh hi : paints s a c sh hi -> paints (stop_both allow s) a c false false.
Proof.
  intros H. assert (forall s, paints s a c false false -> forall i, paints (anim_end allow i s) a c false false) as H0.
  { intros s1 H1 i. exact (anim_end_paints s1 a c false false i H1). }
  destruct (sh || hi) eqn:Eb.
  - destruct (sh_stopped _ _ _ _ _ H Eb) as [E1 E2]. pose proof (sh_none _ _ _ _ _ H) as [Hn1 Hn2].
    unfold stop_both. rewrite E1, E2.
    assert (forall i, a = Some i -> paints (anim_end allow i s) a c false (hi && negb (bool_decide (c_old c = Some i)))) as Ha.
    { intros i Hi. pose proof (anim_end_paints s a c sh hi i H) as H1. rewrite (bool_decide_eq_true_2 _ Hi), andb_false_r in H1. done. }
    assert (forall s i sh, paints s a c sh hi -> c_old c = Some i -> paints (anim_end allow i s) a c (sh && negb (bool_decide (a = Some i))) false) as Hc.
    { intros s1 i sh1 H1 Hi. pose proof (anim_end_paints s1 a c sh1 hi i H1) as H2. rewrite (bool_decide_eq_true_2 (c_old c = Some i) Hi), andb_false_r in H2. done. }
    destruct a as [i|], (c_old c) as [j|] eqn:Ec.
    + pose proof (sh_old _ _ _ _ _ H j Ec) as [Hne _].
      assert (bool_decide (Some j = Some i) = false) as N1 by (apply bool_decide_eq_false; congruence).
      assert (bool_decide (Some i = Some j) = false) as N2 by (apply bool_decide_eq_false; congruence).
      destruct (i <=? j)%nat.
      * specialize (Ha i eq_refl). rewrite N1, andb_true_r in Ha. by apply (Hc _ j false).
      * pose proof (Hc s j sh H eq_refl) as H1. rewrite N2, andb_true_r in H1.
        pose proof (anim_end_paints _ _ _ _ _ i H1) as H2. by rewrite bool_decide_eq_true_2, andb_false_r in H2.
    + specialize (Ha i eq_refl). by rewrite Hn2 in Ha.
    + by rewrite Hn1 in * by done; apply (Hc s j false).
    + by rewrite Hn1, Hn2 in H.
  - apply orb_false_iff in Eb as [-> ->]. unfold stop_both.
    destruct (prevShow s) as [i|], (prevHide s) as [j|]; [destruct (i <=? j)%nat| | |]; auto.
Qed.

Lemma rest_complete c s : rest (toggleComplete allow c s) = rest s.
Proof. apply (ch_rest _ _ _ (changes_complete c s)). Qed.

Lemma rest_on j f s : rest (on j f s) = rest s.
Proof. apply (ch_rest _ _ _ (changes_on j f s)). Qed.

Lemma rest_anim_end i s : rest (anim_end allow i s) = rest s.
Proof.
  unfold anim_end. destruct (headers s !! i ≫= p_anim) as [an|]; [|done].
  destruct (completes an); by rewrite ?rest_complete, rest_on.
Qed.

Lemma rest_stop s : rest (stop_both allow s) = rest s.
Proof.
  unfold stop_both. destruct (prevShow s), (prevHide s); [destruct (_ <=? _)%nat| | |]; by rewrite ?rest_anim_end.
Qed.

(** ** Toggling *)

(** The accordion, with [a] active. *)
Record shows (s : accordion) (a : option nat) (c : change) (sh hi : bool) : Prop := {
  sh_active : active s = a;
  sh_option : o_active s = Z.of_nat <$> a;
  sh_paints : paints s a c sh hi;
}.

(** What [toggle] does to a header at rest. *)
Definition toggled (an : bool) (c : change) (i : nat) (h : header) : header :=
  let isn := bool_decide (c_new c = Some i) in let iso := bool_decide (c_old c = Some i) in
  mk_header (h_active h) (h_icon h) (if iso && negb an then true else h_all h) (if iso && negb an then false else h_top h)
    (if isn then true else if iso then false else h_selected h)
    (if isn then true else match c_new c, c_old c with
       | Some _, Some _ => if iso then false else h_stop h
       | Some _, None => if numeric then false else h_stop h
       | None, _ => h_stop h end)
    (h_disabled h) (if iso && negb an then false else p_active h)
    (if isn then true else if iso then false else p_expanded h)
    (if isn then true else if iso then an else p_shown h)
    (if an then if isn then Some (mk_anim true (Some c))
       else if iso then Some (mk_anim false (match c_new c with Some _ => None | None => Some c end)) else p_anim h
     else p_anim h).

Lemma on_lookup j f s i : headers (on j f s) !! i = (fun h => if bool_decide (j = Some i) then f h else h) <$> headers s !! i.
Proof. exact (ch_maps _ _ _ (changes_on j f s) i). Qed.

Lemma complete_lookup c s i : headers (toggleComplete allow c s) !! i = completed c i <$> headers s !! i.
Proof. exact (ch_maps _ _ _ (changes_complete c s) i). Qed.

Lemma all_lookup f s i : headers (on_all f s) !! i = f <$> headers s !! i.
Proof. exact (list_lookup_fmap f (headers s) i). Qed.

Definition fixed (s : accordion) := (active s, o_active s, o_animate s, o_collapsible s, o_icons s).

Lemma fixed_rest s s' : rest s' = rest s -> fixed s' = fixed s /\ prevShow s' = prevShow s /\ prevHide s' = prevHide s.
Proof. unfold rest, fixed. intros [= -> -> -> -> -> -> ->]. done. Qed.

Lemma fixed_on j f s : fixed (on j f s) = fixed s /\ prevShow (on j f s) = prevShow s /\ prevHide (on j f s) = prevHide s.
Proof. apply fixed_rest, rest_on. Qed.

Lemma fixed_complete c s :
  fixed (toggleComplete allow c s) = fixed s /\ prevShow (toggleComplete allow c s) = prevShow s /\
  prevHide (toggleComplete allow c s) = prevHide s.
Proof. apply fixed_rest, rest_complete. Qed.

(** The part of [toggle] before the attributes. *)
Definition move (c : change) (toHide : option nat) (s : accordion) : accordion :=
  if o_animate s then animate (c_new c) toHide c s
  else toggleComplete allow c (show_panel (c_new c) (hide_panel toHide s)).

Definition attributes (c : change) (toHide : option nat) (s : accordion) : accordion :=
  let s := on toHide (fun h => h <| p_expanded := false |> <| h_selected := false |>) s in
  let s := match c_new c, toHide with
           | Some _, Some _ => on toHide (fun h => h <| h_stop := false |>) s
           | Some _, None => if numeric then on_all (fun h => h <| h_stop := false |>) s else s
           | None, _ => s
           end in
  on (c_new c) (fun h => h <| p_expanded := true |> <| h_selected := true |> <| h_stop := true |>) s.

Lemma toggle_eq c s :
  toggle allow numeric c s =
  let toHide := match prevShow s with Some i => Some i | None => c_old c end in
  attributes c toHide (move c toHide (stop_both allow s <| prevShow := c_new c |> <| prevHide := toHide |>)).
Proof. done. Qed.

Lemma move_fixed c s :
  fixed (move c (c_old c) s) = fixed s /\ prevShow (move c (c_old c) s) = prevShow s /\ prevHide (move c (c_old c) s) = prevHide s.
Proof.
  unfold move, animate, animate_panel, show_panel, hide_panel. apply fixed_rest. destruct (o_animate s).
  - destruct (c_old c), (c_new c); by rewrite ?rest_on.
  - by rewrite rest_complete, !rest_on.
Qed.

Lemma attributes_fixed c s :
  fixed (attributes c (c_old c) s) = fixed s /\ prevShow (attributes c (c_old c) s) = prevShow s /\
  prevHide (attributes c (c_old c) s) = prevHide s.
Proof.
  unfold attributes. apply fixed_rest. rewrite rest_on. destruct (c_new c), (c_old c); [| |done..]; [by rewrite !rest_on|].
  by destruct numeric.
Qed.

Lemma attributes_move c s i :
  (forall o n, c_old c = Some o -> c_new c = Some n -> o <> n) -> (c_new c <> None \/ c_old c <> None) ->
  headers (attributes c (c_old c) (move c (c_old c) s)) !! i = toggled (o_animate s) c i <$> headers s !! i.
Proof.
  intros Hne Hsome. unfold attributes, move, animate, animate_panel, show_panel, hide_panel, toggled.
  destruct (c_new c) as [n|] eqn:En, (c_old c) as [o|] eqn:Eo; [| | |by destruct Hsome].
  - specialize (Hne o n eq_refl eq_refl).
    assert (bool_decide (Some n = Some i) && bool_decide (Some o = Some i) = false) as Hb.
    { apply andb_false_iff. rewrite !bool_decide_eq_false. destruct (decide (Some n = Some i)); [right|by left]. congruence. }
    destruct (o_animate s); rewrite ?on_lookup, ?complete_lookup, ?on_lookup; unfold completed; rewrite ?Eo;
      (destruct (headers s !! i) as [h|]; [|done]); cbn;
      destruct (bool_decide (Some n = Some i)), (bool_decide (Some o = Some i)); try done; by destruct h.
  - destruct (o_animate s), numeric; rewrite ?on_lookup, ?all_lookup, ?on_lookup, ?complete_lookup, ?on_lookup; unfold completed; rewrite ?Eo;
      (destruct (headers s !! i) as [h|]; [|done]); cbn; destruct (bool_decide (Some n = Some i)); by destruct h.
  - destruct (o_animate s); rewrite ?on_lookup, ?complete_lookup, ?on_lookup; unfold completed; rewrite ?Eo;
      (destruct (headers s !! i) as [h|]; [|done]); cbn; destruct (bool_decide (Some o = Some i)); by destruct h.
Qed.

Definition len (s : accordion) : nat := length (headers s).

Lemma len_on j f s : len (on j f s) = len s.
Proof. apply (changes_length s _ _ (changes_on j f s)). Qed.
Lemma len_all f s : len (on_all f s) = len s.
Proof. apply length_fmap. Qed.
Lemma len_complete c s : len (toggleComplete allow c s) = len s.
Proof. apply (changes_length s _ _ (changes_complete c s)). Qed.

Lemma len_anim_end i s : len (anim_end allow i s) = len s.
Proof.
  unfold anim_end. destruct (headers s !! i ≫= p_anim) as [an|]; [|done].
  destruct (completes an); by rewrite ?len_complete, len_on.
Qed.

Lemma len_stop s : len (stop_both allow s) = len s.
Proof. unfold stop_both. destruct (prevShow s), (prevHide s); [destruct (_ <=? _)%nat| | |]; by rewrite ?len_anim_end. Qed.

Lemma len_toggle c s : len (toggle allow numeric c s) = len s.
Proof.
  rewrite toggle_eq. cbv zeta. set (t := match prevShow s with Some i => Some i | None => c_old c end).
  assert (forall s, len (attributes c t s) = len s) as ->.
  { intros s1. unfold attributes. rewrite len_on. destruct (c_new c), t; [by rewrite !len_on|destruct numeric; [by rewrite len_all|done]|by rewrite len_on|done]. }
  assert (forall s, len (move c t s) = len s) as ->.
  { intros s1. unfold move, animate, animate_panel, show_panel, hide_panel. destruct (o_animate s1).
    - destruct t, (c_new c); by rewrite ?len_on.
    - by rewrite len_complete, !len_on. }
  apply len_stop.
Qed.

Lemma toggle_paints c s a c0 sh hi :
  paints s a c0 sh hi -> c_old c = a -> (forall o n, c_old c = Some o -> c_new c = Some n -> o <> n) ->
  (c_new c <> None \/ c_old c <> None) ->
  let s' := toggle allow numeric c s in
  exists s1, paints s1 a c0 false false /\ (forall i, headers s' !! i = toggled (o_animate s) c i <$> headers s1 !! i) /\
  fixed s' = fixed s /\ prevShow s' = c_new c /\ prevHide s' = c_old c.
Proof.
  intros H Ho Hne Hsome. cbv zeta. rewrite toggle_eq. cbv zeta.
  assert ((match prevShow s with Some i => Some i | None => c_old c end) = c_old c) as ->.
  { destruct (sh_prev _ _ _ _ _ H) as [E|E]; rewrite E; [done|]. rewrite Ho. by destruct a. }
  pose proof (stop_both_paints s a c0 sh hi H) as H1. destruct (fixed_rest _ _ (rest_stop s)) as (F1 & _ & _).
  revert H1 F1. generalize (stop_both allow s) as s1. intros s1 H1 F1. exists s1.
  set (s2 := s1 <| prevShow := c_new c |> <| prevHide := c_old c |>).
  assert (o_animate s = o_animate s2) as -> by (unfold fixed in F1; change (o_animate s = o_animate s1); congruence).
  destruct (move_fixed c s2) as (M1 & M2 & M3). destruct (attributes_fixed c (move c (c_old c) s2)) as (A1 & A2 & A3).
  split; [done|]. split; [intros i; apply (attributes_move c s2 i Hne Hsome)|].
  split; [rewrite A1, M1; exact F1|]. split; [by rewrite A2, M2|]. by rewrite A3, M3.
Qed.

(** ** Clicks *)

Definition is_some (a : option nat) : bool := negb (is_none a).

(** The change a click makes, and what is active after it. *)
Definition click (collapsible : bool) (a : option nat) (i : nat) : option nat :=
  if bool_decide (a = Some i) then if collapsible then None else a else Some i.

Definition clicked_change (collapsible : bool) (a : option nat) (i : nat) : change :=
  mk_change a (if bool_decide (a = Some i) && collapsible then None else Some i).

Lemma trigger_before c s :
  headers (trigger_beforeActivate allow c s).1 = headers s /\ rest (trigger_beforeActivate allow c s).1 = rest s /\ ((trigger_beforeActivate allow c s).2 = allow (EvBeforeActivate c) && allow (EvChangeStart c)).
Proof. unfold trigger_beforeActivate. by destruct (allow (EvBeforeActivate c)). Qed.

Lemma paints_same s s' a c sh hi : headers s' = headers s -> prevShow s' = prevShow s -> prevHide s' = prevHide s ->
  paints s a c sh hi -> paints s' a c sh hi.
Proof. intros E1 E2 E3 [A B C D F G H]. by split; rewrite ?E1, ?E2, ?E3. Qed.

Lemma shows_same s s' a c sh hi : headers s' = headers s -> rest s' = rest s -> shows s a c sh hi -> shows s' a c sh hi.
Proof.
  intros E R [A B C]. unfold rest in R. injection R as R1 R2 R3 R4 _ _ _.
  split; [congruence|congruence|by apply (paints_same s)].
Qed.

(** Marking the headers after the toggle. *)
Definition mark (icons : bool) (old : option nat) (same : bool) (i : nat) (s : accordion) : accordion :=
  let s := on old (fun h => let h := h <| h_active := false |> in if icons then h <| h_icon := false |> else h) s in
  if same then s
  else on (Some i) (fun h => let h := h <| h_all := false |> <| h_active := true |> <| h_top := true |> in
                             (if icons then h <| h_icon := true |> else h) <| p_active := true |>) s.

Lemma mark_rest icons old same i s : rest (mark icons old same i s) = rest s.
Proof. unfold mark. destruct same; by rewrite ?rest_on. Qed.

Lemma mark_toggled s s1 s2 a c0 i coll icons :
  paints s1 a c0 false false -> (i < len s1)%nat -> len s2 = len s1 ->
  let c := clicked_change coll a i in
  (bool_decide (a = Some i) && negb coll = false) ->
  (forall j, headers s2 !! j = toggled (o_animate s) c j <$> headers s1 !! j) ->
  prevShow s2 = c_new c -> prevHide s2 = c_old c ->
  paints (mark icons a (bool_decide (a = Some i)) i s2) (click coll a i) c
    (o_animate s && is_some (click coll a i)) (o_animate s && is_some a).
Proof.
  intros H Hi Hl c Hc Hh Hps Hph. unfold c, clicked_change, click in *. cbn [c_new c_old] in *.
  assert (forall s', prevShow s' = prevShow s2 -> prevHide s' = prevHide s2 -> len s' = len s2 -> forall a' sh hi,
    a' = (if bool_decide (a = Some i) && coll then None else Some i) ->
    (a' = None -> sh = false) /\ (a = None -> hi = false) ->
    (forall j h, headers s' !! j = Some h -> face a' (mk_change a a') sh hi j h) ->
    paints s' a' (mk_change a a') sh hi) as Hgo.
  { intros s' E1 E2 E3 a' sh hi Ea' Hn Hf. split; cbn [c_new c_old]; try done.
    - intros j Hj. fold (len s'). rewrite E3, Hl. subst a'. destruct (_ && _); [done|]. by injection Hj as <-.
    - intros j Hj. fold (len s'). rewrite E3, Hl. split; [|by apply (sh_index _ _ _ _ _ H)].
      intros Hx. rewrite Ea' in Hx. destruct (bool_decide_reflect (a = Some i)) as [Hi'|Hi']; cbn in Hc, Hx.
      + destruct coll; [done|]. done.
      + congruence.
    - right. by rewrite E1, Hps.
    - intros _. rewrite E1, E2. split; [by rewrite Hps|done]. }
  assert ((if bool_decide (a = Some i) then if coll then None else a else Some i) =
          (if bool_decide (a = Some i) && coll then None else Some i)) as ->.
  { destruct (bool_decide_reflect (a = Some i)) as [->|_]; [by destruct coll|done]. }
  apply Hgo; clear Hgo.
  - by unfold mark; destruct (bool_decide _); rewrite ?(proj1 (proj2 (fixed_on _ _ _))).
  - by unfold mark; destruct (bool_decide _); rewrite ?(proj2 (proj2 (fixed_on _ _ _))).
  - by unfold mark; destruct (bool_decide _); rewrite ?len_on.
  - done.
  - split; intros Ha; rewrite Ha; by rewrite andb_false_r.
  - intros j h'. unfold mark.
    assert (forall j h, headers s2 !! j = Some h -> exists st di ic, h =
      toggled (o_animate s) (mk_change a (if bool_decide (a = Some i) && coll then None else Some i)) j
        (face_of (bool_decide (a = Some j)) false (is_none a) false false c0 st di ic)) as Hs2.
    { intros k h Hk. rewrite Hh in Hk. destruct (headers s1 !! k) as [h1|] eqn:E1; [|done]. injection Hk as <-.
      destruct (sh_face _ _ _ _ _ H k h1 E1) as (st & di & ic & ->). exists st, di, ic. f_equal.
      by destruct (bool_decide (c_old c0 = Some k)), (is_none a). }
    destruct (bool_decide_reflect (a = Some i)) as [Ea|Ea]; cbn [andb] in *.
    + destruct coll; [|done]. rewrite on_lookup. destruct (headers s2 !! j) as [h|] eqn:Ej; [|done]. intros [= <-].
      destruct (Hs2 j h Ej) as (st & di & ic & ->). clear Hps Hph. subst a. unfold face, toggled. cbn [c_old c_new is_none is_some negb].
      rewrite (bool_decide_eq_false_2 (None = Some j)) by done. destruct (bool_decide (Some i = Some j)), (o_animate s), icons; by eexists _, _, _.
    + rewrite !on_lookup. destruct (headers s2 !! j) as [h|] eqn:Ej; [|done]. intros [= <-].
      destruct (Hs2 j h Ej) as (st & di & ic & ->). unfold face, toggled. cbn [c_old c_new is_none].
      assert (bool_decide (Some i = Some j) && bool_decide (a = Some j) = false) as Hb.
      { apply andb_false_iff. rewrite !bool_decide_eq_false. destruct (decide (Some i = Some j)); [right|by left]. congruence. }
      destruct a as [o|]; cbn [is_none is_some negb]; [|rewrite (bool_decide_eq_false_2 (None = Some j)) by done].
      * destruct (bool_decide (Some i = Some j)), (bool_decide (Some o = Some j)), (o_animate s), icons; try done; by eexists _, _, _.
      * destruct (bool_decide (Some i = Some j)), (o_animate s), icons; by eexists _, _, _.
Qed.

Lemma eventHandler_eq i s :
  eventHandler allow numeric i s =
  let old := active s in
  let same := bool_decide (old = Some i) in
  let c := clicked_change (o_collapsible s) old i in
  if same && negb (o_collapsible s) then s
  else
    let r := trigger_beforeActivate allow c s in
    if negb r.2 then r.1
    else
      let s1 := toggle allow numeric c
        (r.1 <| o_active := if same && o_collapsible s then None else Some (Z.of_nat i) |> <| active := if same then None else Some i |>) in
      mark (o_icons s1) old same i s1.
Proof.
  unfold eventHandler, clicked_change, mark. cbv zeta.
  destruct (bool_decide (active s = Some i) && negb (o_collapsible s)); [done|].
  destruct (negb _); [done|]. set (s1 := toggle _ _ _ _).
  assert (o_icons (on (active s) (fun h => if o_icons s1 then h <| h_active := false |> <| h_icon := false |> else h <| h_active := false |>) s1) = o_icons s1) as E.
  { pose proof (rest_on (active s) (fun h => if o_icons s1 then h <| h_active := false |> <| h_icon := false |> else h <| h_active := false |>) s1) as R.
    unfold rest in R. congruence. }
  by rewrite E.
Qed.

Lemma eventHandler_shows i s a c sh hi :
  shows s a c sh hi -> (i < len s)%nat ->
  let s' := eventHandler allow numeric i s in
  let c' := clicked_change (o_collapsible s) a i in
  o_collapsible s' = o_collapsible s /\ len s' = len s /\
  if bool_decide (a = Some i) && negb (o_collapsible s) then s' = s
  else if allow (EvBeforeActivate c') && allow (EvChangeStart c')
  then shows s' (click (o_collapsible s) a i) c' (o_animate s && is_some (click (o_collapsible s) a i)) (o_animate s && is_some a)
  else shows s' a c sh hi.
Proof.
  intros H Hi. cbv zeta. rewrite eventHandler_eq. cbv zeta. rewrite (sh_active _ _ _ _ _ H).
  set (c' := clicked_change (o_collapsible s) a i).
  destruct (bool_decide (a = Some i) && negb (o_collapsible s)) eqn:Es; [done|].
  destruct (trigger_before c' s) as (E1 & E2 & ->). set (r := (trigger_beforeActivate allow c' s).1) in *.
  assert (shows r a c sh hi) as Hr by by apply (shows_same s). assert (o_collapsible r = o_collapsible s) as Ecoll by (unfold rest in E2; congruence).
  assert (len r = len s) as El by (unfold len; by rewrite E1).
  destruct (allow (EvBeforeActivate c') && allow (EvChangeStart c')); cbn [negb]; [|done].
  set (s0 := r <| o_active := _ |> <| active := _ |>).
  assert (paints s0 a c sh hi) as H0 by (apply (paints_same r); [done..|apply Hr]).
  destruct (toggle_paints c' s0 a c sh hi H0) as (s1 & P1 & M1 & F1 & V1 & V2).
  - done.
  - unfold c', clicked_change. cbn. intros o n -> En. destruct (bool_decide_reflect (Some o = Some i)) as [Eo|Eo]; cbn in *.
    + destruct (o_collapsible s); [done|]. done.
    + congruence.
  - unfold c', clicked_change. cbn. destruct (bool_decide_reflect (a = Some i)) as [->|]; [by right|by left].
  - set (s2 := toggle allow numeric c' s0) in *. assert (o_animate s = o_animate s0) as -> by (unfold rest in E2; change (o_animate s = o_animate r); congruence).
    assert (len s2 = len s) as L2 by (unfold s2; rewrite len_toggle; exact El).
    assert (len s1 = len s2) as L1.
    { apply Nat.le_antisymm; apply Nat.nlt_ge; intros Hlt.
      - destruct (lookup_lt_is_Some_2 (headers s1) (len s2) Hlt) as [h Hh]. pose proof (M1 (len s2)) as E.
        rewrite Hh, lookup_ge_None_2 in E by done. done.
      - destruct (lookup_lt_is_Some_2 (headers s2) (len s1) Hlt) as [h Hh].
        rewrite (M1 _), lookup_ge_None_2 in Hh by done. done. }
    pose proof (mark_rest (o_icons s2) a (bool_decide (a = Some i)) i s2) as Rm.
    assert (fixed (mark (o_icons s2) a (bool_decide (a = Some i)) i s2) = fixed s0) as Fm.
    { destruct (fixed_rest _ _ Rm) as (-> & _ & _). done. }
    split; [unfold fixed in Fm; change (o_collapsible s0) with (o_collapsible r) in Fm; congruence|].
    split; [unfold mark; destruct (bool_decide _); by rewrite ?len_on|].
    assert (click (o_collapsible s) a i = active s0) as Ea.
    { unfold click, s0. cbn. destruct (bool_decide_reflect (a = Some i)) as [->|]; [|done]. by destruct (o_collapsible s). }
    split.
    + rewrite Ea. unfold fixed in Fm. congruence.
    + rewrite Ea. transitivity (o_active s0); [unfold fixed in Fm; congruence|]. unfold s0. cbn.
      destruct (bool_decide (a = Some i)), (o_collapsible s); done.
    + apply (mark_toggled s0 s1 s2 a c i (o_collapsible s) (o_icons s2)); [done|lia|done|done|exact M1|done|done].
Qed.

(** ** What no toggle changes *)

Definition env (s : accordion) := (o_event s, o_disabled s, destroyed s, h_disabled <$> headers s).

Lemma env_on j f s : (forall h, h_disabled (f h) = h_disabled h) -> env (on j f s) = env s.
Proof.
  intros Hf. destruct j as [j|]; [|done]. unfold env. f_equal. cbn.
  apply list_eq. intros i. rewrite !list_lookup_fmap, list_lookup_alter. destruct (decide (j = i)) as [->|]; [|done].
  destruct (headers s !! i); cbn; by rewrite ?Hf.
Qed.

Lemma env_all f s : (forall h, h_disabled (f h) = h_disabled h) -> env (on_all f s) = env s.
Proof. intros Hf. unfold env. f_equal. cbn. rewrite <- list_fmap_compose. apply list_fmap_ext. intros i x _. apply Hf. Qed.

Lemma env_trigger c s : env (trigger_activate allow c s) = env s.
Proof. unfold trigger_activate. by destruct (allow _). Qed.

Lemma env_complete c s : env (toggleComplete allow c s) = env s.
Proof. unfold toggleComplete. by rewrite env_trigger, env_on. Qed.

Lemma env_anim_end i s : env (anim_end allow i s) = env s.
Proof.
  unfold anim_end. destruct (headers s !! i ≫= p_anim) as [an|]; [|done].
  destruct (completes an); rewrite ?env_complete; apply env_on; intros h; by destruct (showing an).
Qed.

Lemma env_stop s : env (stop_both allow s) = env s.
Proof. unfold stop_both. destruct (prevShow s), (prevHide s); [destruct (_ <=? _)%nat| | |]; by rewrite ?env_anim_end. Qed.

Lemma env_toggle c s : env (toggle allow numeric c s) = env s.
Proof.
  rewrite toggle_eq. cbv zeta. set (t := match prevShow s with Some i => Some i | None => c_old c end).
  assert (forall s, env (attributes c t s) = env s) as ->.
  { intros s1. unfold attributes. rewrite env_on by done.
    destruct (c_new c), t; [by rewrite !env_on|destruct numeric; [by rewrite env_all|done]|by rewrite env_on|done]. }
  assert (forall s, env (move c t s) = env s) as ->.
  { intros s1. unfold move, animate, animate_panel, show_panel, hide_panel. destruct (o_animate s1).
    - destruct t, (c_new c); by rewrite ?env_on.
    - by rewrite env_complete, !env_on. }
  etrans; [|apply env_stop]. done.
Qed.

Lemma env_eventHandler i s : env (eventHandler allow numeric i s) = env s.
Proof.
  rewrite eventHandler_eq. cbv zeta. destruct (_ && _); [done|].
  set (r := trigger_beforeActivate allow _ s). assert (env r.1 = env s) as Er by (unfold r, trigger_beforeActivate; by destruct (allow _)).
  destruct (negb r.2); [done|]. unfold mark. set (s1 := toggle _ _ _ _).
  assert (env s1 = env s) as E1 by (unfold s1; rewrite env_toggle; exact Er). clearbody s1.
  destruct (bool_decide _); rewrite ?env_on; try done; intros h; by destruct (o_icons s1).
Qed.

(** ** What is told

    The changes that were accepted, and those that were told to be done. *)

Definition accepted (l : list aevent) : list change :=
  omap (fun ev => match ev with EvChangeStart c => if allow (EvChangeStart c) then Some c else None | _ => None end) l.
Definition done_changes (l : list aevent) : list change :=
  omap (fun ev => match ev with EvActivate c => Some c | _ => None end) l.

Definition tally (s : accordion) := (accepted (told s), done_changes (told s)).
#[local] Arguments tally : simpl never.

(** The change whose end is awaited. *)
Definition pending (a : option nat) (c : change) (sh hi : bool) : list change :=
  if match a with Some _ => sh | None => hi end then [c] else [].

Lemma tally_on j f s : tally (on j f s) = tally s.
Proof. by destruct j. Qed.

Lemma tally_tell ev s : tally (tell ev s) = ((tally s).1 ++ accepted [ev], (tally s).2 ++ done_changes [ev]).
Proof. unfold tally, accepted, done_changes. change (told (tell ev s)) with (told s ++ [ev]). by rewrite !omap_app. Qed.

Lemma tally_complete c s : tally (toggleComplete allow c s) = ((tally s).1, (tally s).2 ++ [c]).
Proof.
  unfold toggleComplete. rewrite <- (tally_on (c_old c) (fun h => h <| p_active := false |> <| h_top := false |> <| h_all := true |>) s).
  generalize (on (c_old c) (fun h => h <| p_active := false |> <| h_top := false |> <| h_all := true |>) s). intros s1.
  unfold trigger_activate. destruct (allow (EvActivate c)); rewrite !tally_tell; cbn; by rewrite !app_nil_r.
Qed.

Lemma tally_anim_end i s a c sh hi : paints s a c sh hi ->
  tally (anim_end allow i s) = ((tally s).1, (tally s).2 ++
    (if match a with Some _ => sh && bool_decide (a = Some i) | None => hi && bool_decide (c_old c = Some i) end then [c] else [])).
Proof.
  intros H. pose proof (sh_none _ _ _ _ _ H) as [Hn1 Hn2]. unfold anim_end. destruct (headers s !! i) as [h|] eqn:Eh; cbn [mbind option_bind].
  2: { apply lookup_ge_None in Eh. assert (match a with Some _ => sh && bool_decide (a = Some i) | None => hi && bool_decide (c_old c = Some i) end = false) as ->.
    { destruct a as [a|]; rewrite bool_decide_eq_false_2, andb_false_r; try done.
      - intros [= ->]. pose proof (sh_index _ _ _ _ _ H i eq_refl). lia.
      - intros Hc. apply (sh_old _ _ _ _ _ H) in Hc. lia. }
    rewrite app_nil_r. by destruct (tally s). }
  rewrite (anim_end_face s a c sh hi i h H Eh). rewrite !(andb_comm (bool_decide _)). destruct a as [a|]; cbn [is_none].
  - destruct (sh && _) eqn:E1; cbn [completes]; [by rewrite tally_complete, tally_on|]. rewrite app_nil_r, <- surjective_pairing.
    destruct (hi && _); cbn [completes]; [apply tally_on|done].
  - rewrite Hn1 by done. cbn [andb]. destruct (hi && _); cbn [completes]; [by rewrite tally_complete, tally_on|].
    rewrite app_nil_r. by destruct (tally s).
Qed.

Lemma tally_stop s a c sh hi : paints s a c sh hi ->
  tally (stop_both allow s) = ((tally s).1, (tally s).2 ++ pending a c sh hi).
Proof.
  intros H. assert (forall s i, paints s a c false false -> tally (anim_end allow i s) = tally s) as H0.
  { intros s1 i H1. rewrite (tally_anim_end i s1 a c false false H1). destruct a; rewrite !andb_false_l, app_nil_r; by destruct (tally s1). }
  assert (forall s i, paints s a c false false -> paints (anim_end allow i s) a c false false) as P0
    by (intros s1 i H1; exact (anim_end_paints s1 a c false false i H1)).
  pose proof (sh_none _ _ _ _ _ H) as [Hn1 Hn2]. unfold pending. destruct (sh || hi) eqn:Eb.
  - destruct (sh_stopped _ _ _ _ _ H Eb) as [E1 E2]. unfold stop_both. rewrite E1, E2.
    assert (forall s i sh hi, paints s a c sh hi -> a = Some i -> tally (anim_end allow i s) = ((tally s).1, (tally s).2 ++ (if sh then [c] else []))) as Ta.
    { intros s1 i sh1 hi1 H1 ->. rewrite (tally_anim_end i s1 _ c sh1 hi1 H1). by rewrite bool_decide_eq_true_2, andb_true_r. }
    assert (forall s j sh hi, paints s a c sh hi -> c_old c = Some j -> tally (anim_end allow j s) =
      ((tally s).1, (tally s).2 ++ (if match a with Some _ => false | None => hi end then [c] else []))) as Tc.
    { intros s1 j sh1 hi1 H1 Hj. rewrite (tally_anim_end j s1 a c sh1 hi1 H1). rewrite (bool_decide_eq_true_2 _ Hj), andb_true_r.
      destruct a as [a|]; [|done]. rewrite bool_decide_eq_false_2, andb_false_r; [done|]. by apply (sh_old _ _ _ _ _ H1). }
    assert (forall s, tally s = ((tally s).1, (tally s).2 ++ [])) as Hid by (intros s1; rewrite app_nil_r; by destruct (tally s1)).
    destruct a as [i|], (c_old c) as [j|] eqn:Ec.
    + pose proof (anim_end_paints s _ c sh hi i H) as Pi. pose proof (anim_end_paints s _ c sh hi j H) as Pj.
      destruct (sh_old _ _ _ _ _ H j Ec) as [Hne _]. rewrite (bool_decide_eq_false_2 (Some i = Some j) Hne), andb_true_r in Pj.
      destruct (i <=? j)%nat.
      * rewrite (Tc _ j _ _ Pi eq_refl), (Ta _ i _ _ H eq_refl). cbn. by rewrite app_nil_r.
      * rewrite (Ta _ i _ _ Pj eq_refl), (Tc _ j _ _ H eq_refl). cbn. by rewrite app_nil_r.
    + by apply (Ta s i sh hi H).
    + by apply (Tc s j sh hi H).
    + by rewrite Hn1, Hn2 in Eb.
  - apply orb_false_iff in Eb as [-> ->]. assert ((if match a with Some _ => false | None => false end then [c] else []) = []) as -> by by destruct a.
    rewrite app_nil_r, <- surjective_pairing. unfold stop_both.
    destruct (prevShow s), (prevHide s); [destruct (_ <=? _)%nat| | |]; rewrite ?H0; auto.
Qed.

Lemma tally_toggle c' s a c sh hi : paints s a c sh hi ->
  tally (toggle allow numeric c' s) = ((tally s).1, (tally s).2 ++ pending a c sh hi ++ (if o_animate s then [] else [c'])).
Proof.
  intros H. rewrite toggle_eq. cbv zeta. set (t := match prevShow s with Some i => Some i | None => c_old c' end).
  assert (forall s, tally (attributes c' t s) = tally s) as ->.
  { intros s1. unfold attributes. rewrite tally_on. destruct (c_new c'), t; rewrite ?tally_on; [done|by destruct numeric|done|done]. }
  assert (forall s, tally (move c' t s) = ((tally s).1, (tally s).2 ++ (if o_animate s then [] else [c']))) as ->.
  { intros s1. unfold move, animate, animate_panel, show_panel, hide_panel. destruct (o_animate s1).
    - rewrite app_nil_r, <- surjective_pairing. destruct t, (c_new c'); by rewrite ?tally_on.
    - by rewrite tally_complete, !tally_on. }
  pose proof (tally_stop s a c sh hi H) as Ht. pose proof (rest_stop s) as R. unfold rest in R.
  change (tally (stop_both allow s <| prevShow := c_new c' |> <| prevHide := t |>)) with (tally (stop_both allow s)).
  change (o_animate (stop_both allow s <| prevShow := c_new c' |> <| prevHide := t |>)) with (o_animate (stop_both allow s)).
  rewrite Ht. cbn. rewrite <- app_assoc. do 4 f_equal. assert (o_animate (stop_both allow s) = o_animate s) as -> by congruence. done.
Qed.

Definition counts (s : accordion) (a : option nat) (c : change) (sh hi : bool) : Prop :=
  (tally s).1 = (tally s).2 ++ pending a c sh hi.

Lemma counts_eventHandler i s a c sh hi :
  shows s a c sh hi -> counts s a c sh hi ->
  let s' := eventHandler allow numeric i s in
  let c' := clicked_change (o_collapsible s) a i in
  if bool_decide (a = Some i) && negb (o_collapsible s) then s' = s
  else if allow (EvBeforeActivate c') && allow (EvChangeStart c')
  then counts s' (click (o_collapsible s) a i) c' (o_animate s && is_some (click (o_collapsible s) a i)) (o_animate s && is_some a)
  else counts s' a c sh hi.
Proof.
  intros H Hc. cbv zeta. rewrite eventHandler_eq. cbv zeta. rewrite (sh_active _ _ _ _ _ H).
  set (c' := clicked_change (o_collapsible s) a i).
  destruct (bool_decide (a = Some i) && negb (o_collapsible s)) eqn:Es; [done|].
  destruct (trigger_before c' s) as (E1 & E2 & Er). rewrite Er.
  assert (tally (trigger_beforeActivate allow c' s).1 =
    ((tally s).1 ++ (if allow (EvBeforeActivate c') && allow (EvChangeStart c') then [c'] else []), (tally s).2)) as Ht.
  { unfold trigger_beforeActivate. destruct (allow (EvBeforeActivate c')); cbn [fst andb].
    - rewrite !tally_tell. cbn. rewrite !app_nil_r. by destruct (allow (EvChangeStart c')).
    - rewrite tally_tell. cbn. by rewrite !app_nil_r. }
  revert E1 E2 Ht. generalize (trigger_beforeActivate allow c' s).1. intros r E1 E2 Ht.
  destruct (allow (EvBeforeActivate c') && allow (EvChangeStart c')); cbn [negb].
  2: { unfold counts. rewrite Ht. cbn. rewrite app_nil_r. exact Hc. }
  set (s0 := r <| o_active := _ |> <| active := _ |>).
  assert (paints s0 a c sh hi) as H0 by (apply (paints_same s); [exact E1|unfold rest in E2; change (prevShow r = prevShow s); congruence|
    unfold rest in E2; change (prevHide r = prevHide s); congruence|apply H]).
  assert (o_animate s0 = o_animate s) as Ean by (unfold rest in E2; change (o_animate r = o_animate s); congruence).
  unfold counts. set (s2 := toggle allow numeric c' s0).
  assert (tally (mark (o_icons s2) a (bool_decide (a = Some i)) i s2) = tally s2) as ->
    by (unfold mark; destruct (bool_decide _); by rewrite ?tally_on).
  unfold s2. rewrite (tally_toggle c' s0 a c sh hi H0), Ean. change (tally s0) with (tally r). rewrite Ht. cbn.
  unfold counts in Hc. rewrite Hc, <- !app_assoc. do 2 f_equal. unfold pending, click.
  destruct (bool_decide_reflect (a = Some i)) as [->|Hne]; cbn in Es.
  - destruct (o_collapsible s); [|done]. cbn. by destruct (o_animate s).
  - cbn. by destruct (o_animate s).
Qed.

(** ** The abstract accordion

    Which header is active, and the options that matter for it. *)
Record spec := mk_spec { sp_active : option nat; sp_collapsible : bool; sp_events : list string; sp_disabled : bool; sp_length : nat }.
#[local] Instance spec_eta : Settable spec := fun p =>
  mk_spec (sp_active p) (sp_collapsible p) (sp_events p) (sp_disabled p) (sp_length p).

Definition spec_of (s : accordion) : spec := mk_spec (active s) (o_collapsible s) (o_event s) (o_disabled s) (len s).

Definition spec_click (i : nat) (p : spec) : spec :=
  let c := clicked_change (sp_collapsible p) (sp_active p) i in
  if allow (EvBeforeActivate c) && allow (EvChangeStart c) then p <| sp_active := click (sp_collapsible p) (sp_active p) i |> else p.

Definition spec_find (p : spec) (a : index_arg) : option nat :=
  match a with
  | AtIndex z => if z =? -1 then None else eq_index (sp_length p) z
  | NoIndex => None
  | Selects found => i ← found; eq_index (sp_length p) (Z.of_nat i)
  end.

Definition spec_activate (a : index_arg) (p : spec) : spec :=
  let found := spec_find p a in
  if bool_decide (found = sp_active p) then p
  else match (match found with Some i => Some i | None => sp_active p end) with Some i => spec_click i p | None => p end.

Definition spec_step (p : spec) (a : aaction) : spec :=
  let on_header (i : nat) (p' : spec) := if (i <? sp_length p)%nat && negb (sp_disabled p) then p' else p in
  match a with
  | Event name i => on_header i (if bool_decide (name ∈ sp_events p) then spec_click i p else p)
  | KeyDown KToggle i _ => on_header i (spec_click i p)
  | Activate a | SetOption (OActive a) => spec_activate a p
  | SetOption (OEvent l) => p <| sp_events := l |>
  | SetOption (ODisabled b) => p <| sp_disabled := b |>
  | SetOption (OCollapsible b) =>
      let p := p <| sp_collapsible := b |> in
      if negb b && is_none (sp_active p) then spec_activate (AtIndex 0) p else p
  | _ => p
  end.

Definition holds (s : accordion) : Prop :=
  (exists a c sh hi, shows s a c sh hi /\ counts s a c sh hi) /\ destroyed s = false /\
  (forall i h, headers s !! i = Some h -> h_disabled h = o_disabled s).

Lemma holds_env s s' : env s' = env s -> (exists a c sh hi, shows s' a c sh hi /\ counts s' a c sh hi) -> holds s -> holds s'.
Proof.
  unfold env. intros [= E1 E2 E3 E4] Hs (_ & Hd & Hh). split; [done|]. split; [congruence|].
  intros i h Hi. assert ((h_disabled <$> headers s') !! i = Some (h_disabled h)) as H by by rewrite list_lookup_fmap, Hi.
  rewrite E4, list_lookup_fmap in H. destruct (headers s !! i) as [h0|] eqn:E0; [|done]. injection H as H.
  rewrite E2, <- (Hh i h0 E0). done.
Qed.

Lemma click_holds i s : holds s -> (i < len s)%nat ->
  holds (eventHandler allow numeric i s) /\ spec_of (eventHandler allow numeric i s) = spec_click i (spec_of s).
Proof.
  intros Hs Hi. pose proof Hs as ((a & c & sh & hi & H & Hn) & _). pose proof (eventHandler_shows i s a c sh hi H Hi) as (E1 & E2 & E3).
  pose proof (counts_eventHandler i s a c sh hi H Hn) as E4. cbv zeta in E4.
  pose proof (env_eventHandler i s) as Ev. revert E1 E2 E3 E4 Ev. generalize (eventHandler allow numeric i s) as s'. intros s' E1 E2 E3 E4 Ev.
  pose proof (sh_active _ _ _ _ _ H) as Ea.
  assert (spec_of s' = spec_of s <| sp_active := active s' |>) as Es by (unfold env in Ev; injection Ev as V1 V2 _ _; unfold spec_of; rewrite E1, E2, V1, V2; done).
  rewrite Es. unfold spec_click. cbn [sp_collapsible sp_active spec_of]. rewrite Ea.
  destruct (bool_decide (a = Some i) && negb (o_collapsible s)) eqn:Eb.
  - subst s'. split; [done|]. apply andb_true_iff in Eb as [Eb1 Eb2]. apply bool_decide_eq_true in Eb1.
    assert (click (o_collapsible s) a i = a) as ->.
    { unfold click. rewrite bool_decide_eq_true_2 by done. by destruct (o_collapsible s). }
    rewrite Ea. destruct (_ && _); unfold spec_of; rewrite ?Ea; done.
  - destruct (allow (EvBeforeActivate (clicked_change (o_collapsible s) a i)) &&
      allow (EvChangeStart (clicked_change (o_collapsible s) a i))).
    + split; [apply (holds_env s); [done|by do 4 eexists|done]|]. by rewrite (sh_active _ _ _ _ _ E3).
    + split; [apply (holds_env s); [done|by do 4 eexists|done]|]. rewrite (sh_active _ _ _ _ _ E3).
      unfold spec_of. by rewrite Ea.
Qed.

Lemma found_lt n z i : eq_index n z = Some i -> (i < n)%nat.
Proof.
  unfold eq_index. set (k := if z <? 0 then z + Z.of_nat n else z). clearbody k.
  destruct (Z.leb_spec 0 k), (Z.ltb_spec k (Z.of_nat n)); cbn; try done. intros [= <-]. lia.
Qed.

Lemma activate_holds x s : holds s ->
  holds (activate allow numeric x s) /\ spec_of (activate allow numeric x s) = spec_activate x (spec_of s).
Proof.
  intros Hs. unfold activate, spec_activate. assert (findActive s x = spec_find (spec_of s) x) as -> by by destruct x as [z| |[i|]].
  cbn [sp_active spec_of]. destruct (bool_decide _); [done|].
  destruct (spec_find (spec_of s) x) as [i|] eqn:Ef.
  - apply click_holds; [done|]. destruct x as [z| |[k|]]; cbn in Ef; try done; [destruct (z =? -1); [done|]|]; by apply found_lt in Ef.
  - destruct (active s) as [i|] eqn:Ea; [|done]. apply click_holds; [done|]. destruct Hs as ((a & c & sh & hi & H & _) & _).
    rewrite (sh_active _ _ _ _ _ H) in Ea. by apply (sh_index _ _ _ _ _ (sh_paints _ _ _ _ _ H)).
Qed.

Lemma option_holds s' s : env s' = env s -> len s' = len s -> o_collapsible s' = o_collapsible s ->
  told s' = told s -> (forall a c sh hi, shows s a c sh hi -> shows s' a c sh hi) -> holds s -> holds s' /\ spec_of s' = spec_of s.
Proof.
  intros Ev El Ec Et Hsh Hs. pose proof Hs as ((a & c & sh & hi & H & Hn) & _). split.
  - apply (holds_env s); [done| |done]. exists a, c, sh, hi. split; [by apply Hsh|]. unfold counts, tally in *. by rewrite Et.
  - unfold env in Ev. injection Ev as V1 V2 _ _. unfold spec_of.
    by rewrite El, Ec, V1, V2, (sh_active _ _ _ _ _ H), (sh_active _ _ _ _ _ (Hsh _ _ _ _ H)).
Qed.

(** Changes of what the account does not look at. *)
Lemma shows_changes s s' g a c sh hi :
  shows s a c sh hi -> changes s s' g -> (forall i h, face a c sh hi i h -> face a c sh hi i (g i h)) -> shows s' a c sh hi.
Proof.
  intros [A B C] Hc Hf. pose proof (ch_rest _ _ _ Hc) as R. unfold rest in R. split; [congruence|congruence|].
  apply (paints_changes s s' g a c sh hi); try done. apply (sh_none _ _ _ _ _ C).
Qed.

Lemma shows_on j f s a c sh hi :
  shows s a c sh hi -> (forall i h, face a c sh hi i h -> face a c sh hi i (f h)) -> shows (on j f s) a c sh hi.
Proof.
  intros H Hf. apply (shows_changes s _ _ _ _ _ _ H (changes_on j f s)). intros i h Hh.
  destruct (bool_decide _); [by apply Hf|done].
Qed.

Lemma shows_all f s a c sh hi :
  shows s a c sh hi -> (forall i h, face a c sh hi i h -> face a c sh hi i (f h)) -> shows (on_all f s) a c sh hi.
Proof.
  intros H Hf. apply (shows_changes s _ (fun _ => f) _ _ _ _ H); [|apply Hf]. split; [intros i; apply all_lookup|done].
Qed.

Lemma anim_end_holds i s : holds s -> holds (anim_end allow i s) /\ spec_of (anim_end allow i s) = spec_of s.
Proof.
  intros Hs. pose proof Hs as ((a & c & sh & hi & [A B C] & Hn) & _).
  pose proof (rest_anim_end i s) as R. unfold rest in R. pose proof (env_anim_end i s) as Ev.
  assert (exists sh' hi', shows (anim_end allow i s) a c sh' hi' /\ counts (anim_end allow i s) a c sh' hi') as (sh' & hi' & H' & Hn').
  { do 2 eexists. split; [split; [| |by apply anim_end_paints]; congruence|]. unfold counts in *. rewrite (tally_anim_end i s a c sh hi C). cbn.
    rewrite Hn, <- app_assoc. f_equal. unfold pending. destruct a as [a|].
    - destruct sh, (bool_decide (Some a = Some i)); done.
    - destruct hi, (bool_decide (c_old c = Some i)); done. }
  split; [apply (holds_env s); [done|by do 4 eexists|done]|].
  unfold env in Ev. injection Ev as V1 V2 _ _. unfold spec_of. rewrite len_anim_end, V1, V2. congruence.
Qed.

Lemma keydown_holds k i inner s : holds s -> (i < len s)%nat ->
  holds (keydown allow numeric k i inner s) /\
  spec_of (keydown allow numeric k i inner s) = match k with KToggle => spec_click i (spec_of s) | _ => spec_of s end.
Proof.
  intros Hs Hi. set (go := fun (z : Z) (s : accordion) => if (0 <=? z) && (z <? Z.of_nat (length (headers s))) then
      let s := if inner then s else on (Some i) (fun h => h <| h_stop := false |>) s in
      on (Some (Z.to_nat z)) (fun h => h <| h_stop := true |>) s <| focused := Some (Z.to_nat z) |> else s).
  assert (forall z, holds (go z s) /\ spec_of (go z s) = spec_of s) as Hgo.
  { intros z. unfold go. destruct (_ && _); [|done].
    set (s1 := if inner then s else on (Some i) (fun h => h <| h_stop := false |>) s). cbv zeta.
    assert (env s1 = env s /\ len s1 = len s /\ rest s1 = rest s) as (V & L & R)
      by (unfold s1; destruct inner; by rewrite ?env_on, ?len_on, ?rest_on).
    apply option_holds; [|cbn|cbn| | |done].
    - transitivity (env (on (Some (Z.to_nat z)) (fun h => h <| h_stop := true |>) s1)); [done|]. by rewrite env_on.
    - transitivity (len (on (Some (Z.to_nat z)) (fun h => h <| h_stop := true |>) s1)); [done|]. by rewrite len_on.
    - unfold rest in R. congruence.
    - unfold s1. by destruct inner.
    - intros a c sh hi H. apply (shows_same (on (Some (Z.to_nat z)) (fun h => h <| h_stop := true |>) s1)); [done..|].
      apply shows_on; [|by intros j h (st & di & ic & ->); by exists true, di, ic].
      unfold s1. destruct inner; [done|]. apply shows_on; [done|]. intros j h (st & di & ic & ->). by exists false, di, ic. }
  destruct k; try apply Hgo; [by apply click_holds|done].
Qed.

Lemma setOption_holds o s : holds s ->
  holds (setOption allow numeric o s) /\ spec_of (setOption allow numeric o s) = spec_step (spec_of s) (SetOption o).
Proof.
  intros Hs. destruct o as [x|l|b|b|b|b]; cbn [setOption spec_step].
  - by apply activate_holds.
  - split; [|done]. destruct Hs as ((a & c & sh & hi & H & Hn) & Hd & Hh). split; [|done]. exists a, c, sh, hi. split; [by apply (shows_same s)|exact Hn].
  - set (s1 := s <| o_collapsible := b |>). assert (holds s1 /\ spec_of s1 = spec_of s <| sp_collapsible := b |>) as [H1 E1].
    { split; [|done]. destruct Hs as ((a & c & sh & hi & [A B C] & Hn) & Hd & Hh). split; [|done]. exists a, c, sh, hi.
      split; [split; [done|done|by apply (paints_same s)]|exact Hn]. }
    cbv zeta. fold s1. rewrite <- E1. assert (bool_decide (o_active s1 = None) = is_none (active s1)) as ->.
    { destruct H1 as ((a & c & sh & hi & H & _) & _). rewrite (sh_option _ _ _ _ _ H), (sh_active _ _ _ _ _ H). by destruct a. }
    change (sp_active (spec_of s1)) with (active s1). destruct (negb b && is_none (active s1)); [by apply activate_holds|done].
  - assert (forall j h a c sh hi v, face a c sh hi j h -> face a c sh hi j (h <| h_icon := v |>)) as Hic.
    { intros j h a c sh hi v (st & di & ic & ->). by exists st, di, v. }
    apply option_holds; [| | | | |done].
    + unfold createIcons, destroyIcons. destruct b; [destruct (o_icons _)|]; rewrite ?env_on, ?env_all; done.
    + unfold createIcons, destroyIcons. destruct b; [destruct (o_icons _)|]; rewrite ?len_on, ?len_all; done.
    + unfold createIcons, destroyIcons. destruct b; [|done]. destruct (o_icons _); [|done]. by destruct (active _).
    + unfold createIcons, destroyIcons. destruct b; [|done]. destruct (o_icons _); [|done]. by destruct (active _).
    + intros a c sh hi [A B C]. assert (shows (destroyIcons (s <| o_icons := b |>)) a c sh hi) as H1.
      { apply (shows_all _ (s <| o_icons := b |>)); [|intros; by apply Hic]. split; [done|done|by apply (paints_same s)]. }
      destruct b; [|done]. unfold createIcons. destruct (o_icons _); [|done]. apply shows_on; [done|]. intros; by apply Hic.
  - destruct Hs as ((a & c & sh & hi & H & Hn) & Hd & Hh).
    assert (shows (on_all (fun h => h <| h_disabled := b |>) (s <| o_disabled := b |>)) a c sh hi) as H1.
    { apply (shows_all _ (s <| o_disabled := b |>)); [by apply (shows_same s)|]. intros j h (st & di & ic & ->). by exists st, b, ic. }
    split; [split; [by do 4 eexists|]; split; [done|]|].
    + intros j h. rewrite all_lookup. cbn. destruct (headers s !! j); [|done]. by intros [= <-].
    + unfold spec_of. rewrite len_all. done.
  - split; [|done]. destruct Hs as ((a & c & sh & hi & [A B C] & Hn) & Hd & Hh). split; [|done]. exists a, c, sh, hi.
    split; [split; [done|done|by apply (paints_same s)]|exact Hn].
Qed.

Definition uses (a : aaction) : Prop := a <> Destroy.

Lemma act_holds a s : holds s -> uses a ->
  holds (act allow numeric a s) /\ spec_of (act allow numeric a s) = spec_step (spec_of s) a.
Proof.
  intros Hs Ha. pose proof Hs as (_ & Hd & Hh).
  assert (forall i, listens i s = (i <? len s)%nat && negb (o_disabled s)) as Hl.
  { intros i. unfold listens, len. destruct (headers s !! i) as [h|] eqn:E.
    - rewrite (Hh i h E), Hd, orb_false_r, orb_diag. apply lookup_lt_Some in E. by rewrite (proj2 (Nat.ltb_lt _ _) E).
    - apply lookup_ge_None in E. by rewrite (proj2 (Nat.ltb_ge _ _) E). }
  destruct a as [name i|k i inner|i|o|x|i|]; cbn [act spec_step]; rewrite ?Hl, ?Hd.
  - cbn [sp_length sp_disabled spec_of sp_events]. destruct (Nat.ltb_spec i (len s)); cbn [andb]; [|done].
    destruct (o_disabled s); cbn [negb andb]; [done|]. destruct (bool_decide _); [by apply click_holds|done].
  - assert ((i <? len s)%nat && negb (o_disabled s) = true -> holds (keydown allow numeric k i inner s) /\
      spec_of (keydown allow numeric k i inner s) = match k with KToggle => spec_click i (spec_of s) | _ => spec_of s end) as Hk.
    { intros [Hi _]%andb_true_iff. apply keydown_holds; [done|]. by apply Nat.ltb_lt. }
    cbn [sp_length sp_disabled spec_of]. destruct ((i <? len s)%nat && negb (o_disabled s)); [by destruct (Hk eq_refl); destruct k|by destruct k].
  - destruct (_ && _); [|done]. unfold panelKeyDown. split; [|done]. destruct Hs as ((a & c & sh & hi & H & Hn) & _). split; [|done].
    exists a, c, sh, hi. split; [by apply (shows_same s)|exact Hn].
  - by apply setOption_holds.
  - by apply activate_holds.
  - by apply anim_end_holds.
  - by destruct Ha.
Qed.

Lemma eq_index_of n i : (i < n)%nat -> eq_index n (Z.of_nat i) = Some i.
Proof.
  intros Hi. unfold eq_index. rewrite (proj2 (Z.ltb_ge _ _)) by lia.
  by rewrite (proj2 (Z.leb_le 0 _)), (proj2 (Z.ltb_lt (Z.of_nat i) _)), Nat2Z.id by lia.
Qed.


Lemma spec_length_step p a : sp_length (spec_step p a) = sp_length p.
Proof.
  assert (forall i p, sp_length (spec_click i p) = sp_length p) as Hk by (intros; unfold spec_click; by destruct (_ && _)).
  assert (forall x p, sp_length (spec_activate x p) = sp_length p) as Ha.
  { intros x q. unfold spec_activate. destruct (bool_decide _); [done|]. destruct (spec_find q x); [apply Hk|].
    destruct (sp_active q); [apply Hk|done]. }
  destruct a as [name i|[] i inner|i|[x|l|b|b|b|b]|x|i|]; cbn [spec_step]; try done; try (destruct (_ && _); [|done]); rewrite ?Ha, ?Hk; try done.
  destruct (bool_decide _); by rewrite ?Hk.
Qed.

Lemma spec_length l p : sp_length (fold_left spec_step l p) = sp_length p.
Proof. revert p. induction l as [|a l IH]; intros p; [done|]. cbn. by rewrite IH, spec_length_step. Qed.

(** Not being collapsible, it has an active header. *)
Definition stays_open (p : spec) : Prop := sp_collapsible p = false -> exists i, sp_active p = Some i.

Lemma click_stays_open i p : stays_open p -> stays_open (spec_click i p).
Proof.
  intros Hp. unfold spec_click. destruct (_ && _); [|done]. intros Hc. cbn in *. unfold click.
  destruct (bool_decide _); [rewrite Hc; by apply Hp|by exists i].
Qed.

Lemma activate_stays_open x p : stays_open p -> stays_open (spec_activate x p).
Proof.
  intros Hp. unfold spec_activate. destruct (bool_decide _); [done|].
  destruct (spec_find p x); [by apply click_stays_open|]. destruct (sp_active p); [by apply click_stays_open|done].
Qed.

Lemma spec_stays_open l p :
  (forall i, let c := mk_change None (Some i) in allow (EvBeforeActivate c) && allow (EvChangeStart c) = true) ->
  (0 < sp_length p)%nat -> stays_open p -> stays_open (fold_left spec_step l p).
Proof.
  intros Hpage. revert p. induction l as [|a l IH]; intros p Hn Hp; [done|]. cbn. apply IH; [by rewrite spec_length_step|].
  destruct a as [name i|[] i inner|i|[x|ev|b|b|b|b]|x|i|]; cbn [spec_step]; try done; try (by apply activate_stays_open).
  - destruct (_ && _); [|done]. destruct (bool_decide _); [by apply click_stays_open|done].
  - destruct (_ && _); [by apply click_stays_open|done].
  - destruct b; cbn [negb andb]; [done|]. cbn. destruct (sp_active p) as [i|] eqn:Ea; [by intros _; exists i|]. cbn.
    unfold spec_activate. cbn [spec_find sp_length sp_active]. change (0 =? -1) with false. cbv iota.
    change (sp_active (p <| sp_collapsible := false |>)) with (sp_active p). change (sp_length (p <| sp_collapsible := false |>)) with (sp_length p).
    rewrite Ea, (eq_index_of (sp_length p) 0 Hn : eq_index (sp_length p) 0 = Some 0%nat). cbn.
    unfold spec_click. cbn. rewrite ?Ea. 
    change (clicked_change false None 0) with (mk_change None (Some 0%nat)). pose proof (Hpage 0%nat) as ->. by intros _; exists 0%nat.
Qed.

(** ** From the creation on *)

Definition acts (l : list aaction) (s : accordion) : accordion := fold_left (fun s a => act allow numeric a s) l s.

Lemma acts_holds l s : holds s -> Forall uses l -> holds (acts l s) /\ spec_of (acts l s) = fold_left spec_step l (spec_of s).
Proof.
  intros Hs Hl. revert s Hs. induction Hl as [|a l Ha _ IH]; intros s Hs; [done|].
  destruct (act_holds a s Hs Ha) as [H E]. cbn. rewrite <- E. by apply IH.
Qed.

(** There is a header, and what is asked to be active is one of them. *)
Definition sensible (n : nat) (act : option Z) (navigation : option nat) : Prop :=
  (0 < n)%nat /\ (forall z, act = Some z -> - Z.of_nat n <= z < Z.of_nat n) /\ (forall k, navigation = Some k -> (k / 2 < n)%nat).

(** The header that is active at first. *)
Definition first_active (n : nat) (act : option Z) (collapsible : bool) (navigation : option nat) : option nat :=
  match navigation with
  | Some k => Some (k / 2)%nat
  | None => match act with
            | Some z => Some (Z.to_nat (if z <? 0 then z + Z.of_nat n else z))
            | None => if collapsible then None else Some 0%nat
            end
  end.

(** What [create] makes once it is known which header is active. *)
Definition bare (n : nat) (a : option nat) (an coll icons : bool) (events : list string) : accordion :=
  mk_accordion (List.repeat closed n) a None None (Z.of_nat <$> a) an coll icons events false None false [].

Definition opened (h : header) : header :=
  h <| h_active := true |> <| h_all := false |> <| h_top := true |> <| p_active := true |> <| p_shown := true |>.
Definition reachable (a : option nat) (h : header) : header :=
  match a with
  | None => h <| h_stop := true |>
  | Some _ => h <| h_selected := true |> <| h_stop := true |> <| p_expanded := true |>
  end.

Definition created (n : nat) (a : option nat) (an coll icons : bool) (events : list string) : accordion :=
  let s := on a opened (bare n a an coll icons events) in
  let s := on (if icons then a else None) (fun h => h <| h_icon := true |>) s in
  on (match a with None => Some 0%nat | _ => a end) (reachable a) s.

Lemma first_active_lt n act coll navigation i :
  sensible n act navigation -> first_active n act coll navigation = Some i -> (i < n)%nat.
Proof.
  intros (Hn & Hz & Hk). unfold first_active. destruct navigation as [k|]; [intros [= <-]; by apply Hk|].
  destruct act as [z|]; [|destruct coll; [done|by intros [= <-]]]. intros [= <-]. pose proof (Hz z eq_refl). destruct (Z.ltb_spec z 0); lia.
Qed.

Lemma create_created n act an coll icons events navigation : sensible n act navigation ->
  create n act an coll icons events navigation = created n (first_active n act coll navigation) an coll icons events.
Proof.
  intros Hs. pose proof (first_active_lt n act coll navigation) as Hlt. unfold create, created. cbv zeta.
  set (act1 := match navigation with Some k => Some (Z.of_nat (k / 2)) | None => act end).
  set (act2 := (fun z => if z <? 0 then z + Z.of_nat n else z) <$> (if negb coll && bool_decide (act1 = None) then Some 0 else act1)).
  assert (act2 = Z.of_nat <$> first_active n act coll navigation) as E2.
  { destruct Hs as (Hn & Hz & Hk). unfold act2, act1, first_active. destruct navigation as [k|].
    - rewrite (bool_decide_eq_false_2 (Some _ = None)), andb_false_r by done. cbn [fmap option_fmap option_map].
      by rewrite (proj2 (Z.ltb_ge _ _)) by lia.
    - destruct act as [z|].
      + rewrite (bool_decide_eq_false_2 (Some _ = None)), andb_false_r by done. cbn. f_equal. pose proof (Hz z eq_refl).
        destruct (Z.ltb_spec z 0); lia.
      + by destruct coll. }
  rewrite E2. destruct (first_active n act coll navigation) as [i|] eqn:Ef; cbn [fmap option_fmap option_map]; [|by destruct icons].
  unfold findActive. cbn [headers]. rewrite repeat_length, (proj2 (Z.eqb_neq _ _)) by lia.
  rewrite eq_index_of by (by apply Hlt). by destruct icons.
Qed.

Lemma created_holds n a an coll icons events : (0 < n)%nat -> (forall i, a = Some i -> (i < n)%nat) ->
  holds (created n a an coll icons events) /\
  spec_of (created n a an coll icons events) = mk_spec a coll events false n.
Proof.
  intros Hn Ha. set (s0 := bare n a an coll icons events).
  assert (exists g, changes s0 (created n a an coll icons events) g /\ env (created n a an coll icons events) = env s0 /\
    tally (created n a an coll icons events) = tally s0 /\
    forall i, exists st ic, g i closed = face_of (bool_decide (a = Some i)) false (is_none a) false false (mk_change None a) st false ic)
    as (g & Hg & Ev & Et & Hf).
  { eexists. split; [exact (changes_comp _ _ _ _ _ (changes_comp _ _ _ _ _ (changes_on _ _ s0) (changes_on _ _ _)) (changes_on _ _ _))|].
    split; [unfold created; rewrite !env_on; [done|done|done|by destruct a]|]. split; [unfold created; by rewrite !tally_on|].
    intros i. destruct a as [a|]; cbn [reachable is_none].
    - destruct (bool_decide (Some a = Some i)) eqn:E, icons; cbv beta; rewrite ?E, ?(bool_decide_eq_false_2 (None = Some i)) by done; by eexists _, _.
    - rewrite (bool_decide_eq_false_2 (None = Some i)) by done.
      destruct icons; rewrite ?(bool_decide_eq_false_2 (None = Some i)) by done; destruct (bool_decide _); by eexists _, _. }
  revert Hg Ev Et. generalize (created n a an coll icons events). intros s Hg Ev Et.
  assert (len s = n) as Hl by (unfold len; rewrite (changes_length _ _ _ Hg); apply repeat_length).
  pose proof (ch_rest _ _ _ Hg) as R. unfold rest in R. unfold env in Ev.
  assert (active s = a) as Ea by (transitivity (active s0); [congruence|done]).
  split; [split; [|split]|].
  - exists a, (mk_change None a), false, false. split; [split|].
    + done.
    + transitivity (o_active s0); [congruence|done].
    + split; cbn [c_old c_new]; try done; [fold (len s); by rewrite Hl|left; transitivity (prevShow s0); [congruence|done]|].
      intros i h Hh. rewrite (ch_maps _ _ _ Hg i) in Hh. change (headers s0) with (List.repeat closed n) in Hh.
      destruct (List.repeat closed n !! i) as [h0|] eqn:E0; [|done]. injection Hh as <-.
      apply list_elem_of_lookup_2, list_elem_of_In, repeat_spec in E0. subst h0.
      destruct (Hf i) as (st & ic & ->). by exists st, false, ic.
    + unfold counts. rewrite Et. by destruct a.
  - transitivity (destroyed s0); [congruence|done].
  - intros i h Hh. rewrite (ch_maps _ _ _ Hg i) in Hh. change (headers s0) with (List.repeat closed n) in Hh.
    destruct (List.repeat closed n !! i) as [h0|] eqn:E0; [|done]. injection Hh as <-.
    apply list_elem_of_lookup_2, list_elem_of_In, repeat_spec in E0. subst h0.
    destruct (Hf i) as (st & ic & ->). cbn. symmetry. transitivity (o_disabled s0); [congruence|done].
  - unfold spec_of. injection Ev as V1 V2 _ _. rewrite Hl, Ea, V1, V2. f_equal. transitivity (o_collapsible s0); [congruence|done].
Qed.

Lemma created_acts n act an coll icons events navigation l : sensible n act navigation -> Forall uses l ->
  let s := acts l (create n act an coll icons events navigation) in
  holds s /\ spec_of s = fold_left spec_step l (mk_spec (first_active n act coll navigation) coll events false n).
Proof.
  intros Hs Hl. cbv zeta. rewrite create_created by done.
  destruct (created_holds n (first_active n act coll navigation) an coll icons events (proj1 Hs)) as [H E].
  { intros i. by apply first_active_lt. }
  rewrite <- E. by apply acts_holds.
Qed.

(** ** Properties *)

(** Nothing moves. *)
Definition still (s : accordion) : Prop := forall i h, headers s !! i = Some h -> p_anim h = None.

(** What one sees of a header and its panel when [a] is the active one. *)
Record looks (a : option nat) (quiet : Prop) (i : nat) (h : header) : Prop := {
  lk_active : h_active h = bool_decide (a = Some i);
  lk_selected : h_selected h = bool_decide (a = Some i);
  lk_expanded : p_expanded h = bool_decide (a = Some i);
  lk_shown : a = Some i -> p_shown h = true;
  lk_moves : p_shown h = true -> a = Some i \/ p_anim h <> None;
  lk_quiet : quiet -> p_shown h = bool_decide (a = Some i) /\ p_active h = bool_decide (a = Some i) /\
             h_top h = bool_decide (a = Some i) /\ h_all h = negb (bool_decide (a = Some i));
}.

(** C9. However an accordion is used, the option [active] is the index of the header that is active, which exists; that
    header alone has the classes and ARIA attributes of the active one and its panel is shown; another panel is shown only
    while it is being hidden, and when nothing moves the active panel alone is shown and marked. *)
Theorem accordion_marks_active n act0 an coll icons events navigation l :
  sensible n act0 navigation -> Forall uses l ->
  let s := acts l (create n act0 an coll icons events navigation) in
  o_active s = Z.of_nat <$> active s /\ length (headers s) = n /\ (forall i, active s = Some i -> (i < n)%nat) /\
  forall i h, headers s !! i = Some h -> looks (active s) (still s) i h.
Proof.
  intros Hs Hl. cbv zeta. destruct (created_acts n act0 an coll icons events navigation l Hs Hl) as [((a & c & sh & hi & [A B C] & _) & _) E].
  revert A B C E. generalize (acts l (create n act0 an coll icons events navigation)). intros s A B C E.
  assert (length (headers s) = n) as El.
  { change (sp_length (spec_of s) = n). rewrite E. apply spec_length. }
  split; [by rewrite A, B|]. split; [done|]. split; [intros i Hi; rewrite A in Hi; rewrite <- El; by apply (sh_index _ _ _ _ _ C)|].
  intros i h Hh. rewrite A. destruct (sh_face _ _ _ _ _ C i h Hh) as (st & di & ic & ->).
  pose proof (sh_old _ _ _ _ _ C i) as Hold. pose proof (sh_none _ _ _ _ _ C) as [Hn1 Hn2].
  split; cbn; try done.
  - intros Ha. by rewrite bool_decide_eq_true_2.
  - destruct (bool_decide_reflect (a = Some i)) as [Ha|Ha]; [by left|]. cbn. intros Hx. right.
    destruct (bool_decide (c_old c = Some i)), hi; done.
  - intros Hq. assert (sh = false /\ hi = false) as [-> ->].
    { assert (forall j, a = Some j -> sh = false) as Hqa.
      { intros j Hj. destruct (lookup_lt_is_Some_2 (headers s) j (sh_index _ _ _ _ _ C j Hj)) as [hj Ej].
        pose proof (Hq j hj Ej) as Hm. rewrite (anim_end_face s a c sh hi j hj C Ej), (bool_decide_eq_true_2 _ Hj) in Hm. by destruct sh. }
      assert (forall j, c_old c = Some j -> hi = false) as Hqc.
      { intros j Hj. pose proof (sh_old _ _ _ _ _ C j Hj) as [Hne Hlt]. destruct (lookup_lt_is_Some_2 (headers s) j Hlt) as [hj Ej].
        pose proof (Hq j hj Ej) as Hm. rewrite (anim_end_face s a c sh hi j hj C Ej), (bool_decide_eq_true_2 _ Hj), (bool_decide_eq_false_2 _ Hne) in Hm.
        by destruct hi. }
      split; [destruct a as [j|]; [by apply (Hqa j)|by apply Hn1]|destruct (c_old c) as [j|]; [by apply (Hqc j)|by apply Hn2]]. }
    by destruct (bool_decide (a = Some i)), (bool_decide (c_old c = Some i)), (is_none a).
Qed.

(** C14. Which header is active, whatever the events, keys, options, methods and ends of animations, is what the simple
    account says: a click that the page allows opens the header, or closes it if it is open and the accordion
    collapsible; [active] names a header by its index or an element; the rest changes nothing. *)
Theorem accordion_as_specified n act0 an coll icons events navigation l :
  sensible n act0 navigation -> Forall uses l ->
  spec_of (acts l (create n act0 an coll icons events navigation)) =
  fold_left spec_step l (mk_spec (first_active n act0 coll navigation) coll events false n).
Proof. intros Hs Hl. apply (created_acts n act0 an coll icons events navigation l Hs Hl). Qed.

(** Every change the page was told to begin and did not prevent is told to be done, once, in that order; only the
    last can still be awaited, and it is not when nothing moves. *)
Theorem accordion_tells_all n act0 an coll icons events navigation l :
  sensible n act0 navigation -> Forall uses l ->
  let s := acts l (create n act0 an coll icons events navigation) in
  exists waiting, accepted (told s) = done_changes (told s) ++ waiting /\ (length waiting <= 1)%nat /\ (still s -> waiting = []).
Proof.
  intros Hs Hl. cbv zeta. destruct (created_acts n act0 an coll icons events navigation l Hs Hl) as [((a & c & sh & hi & [A B C] & Hc) & _) _].
  revert A B C Hc. generalize (acts l (create n act0 an coll icons events navigation)). intros s A B C Hc.
  exists (pending a c sh hi). split; [exact Hc|]. unfold pending. split; [by destruct (match a with Some _ => sh | None => hi end); cbn; lia|].
  intros Hq. pose proof (sh_none _ _ _ _ _ C) as [Hn1 Hn2]. destruct a as [i|].
  - destruct (lookup_lt_is_Some_2 (headers s) i (sh_index _ _ _ _ _ C i eq_refl)) as [h Eh]. pose proof (Hq i h Eh) as Hm.
    rewrite (anim_end_face s _ c sh hi i h C Eh), (bool_decide_eq_true_2 (Some i = Some i) eq_refl) in Hm. by destruct sh.
  - destruct (c_old c) as [j|] eqn:Ec; [|by rewrite Hn2]. pose proof (sh_old _ _ _ _ _ C j Ec) as [Hne Hlt].
    destruct (lookup_lt_is_Some_2 (headers s) j Hlt) as [h Eh]. pose proof (Hq j h Eh) as Hm.
    rewrite (anim_end_face s _ c sh hi j h C Eh), Ec, (bool_decide_eq_true_2 (Some j = Some j) eq_refl) in Hm. by destruct hi.
Qed.

(** An accordion that is not collapsible always has an active header, unless the page prevents the opening of a
    header when none is open. *)
Theorem accordion_stays_open n act0 an coll icons events navigation l :
  sensible n act0 navigation -> Forall uses l ->
  (forall i, let c := mk_change None (Some i) in allow (EvBeforeActivate c) && allow (EvChangeStart c) = true) ->
  let s := acts l (create n act0 an coll icons events navigation) in
  o_collapsible s = false -> exists i, active s = Some i.
Proof.
  intros Hs Hl Hpage. cbv zeta. destruct (created_acts n act0 an coll icons events navigation l Hs Hl) as [_ E].
  revert E. generalize (acts l (create n act0 an coll icons events navigation)). intros s E Hc.
  assert (stays_open (spec_of s)) as Hi; [|exact (Hi Hc)].
  rewrite E. apply spec_stays_open; [done|apply Hs|]. intros Hcoll. cbn in *. subst coll. unfold first_active.
  destruct navigation; [by eexists|]. destruct act0; by eexists.
Qed.
End flow.

(** ** Runs

    Runs of the accordion, for which its theorems are used, and runs that show what
    the code does in corners: tab stops, a destroyed accordion, an index that is out
    of range. *)


Definition yes : aevent -> bool := fun _ => true.
Definition clicks (l : list nat) : list aaction := (fun i => Event "click" i) <$> l.

(** Three headers; [active] and [collapsible] are given. *)
Definition three (act : option Z) (collapsible : bool) : accordion :=
  create 3 act true collapsible true ["click"] None.

Lemma three_sensible act : (forall z, act = Some z -> -3 <= z < 3) -> sensible 3 act None.
Proof. by split; [lia|]. Qed.

(** Two clicks; the first animation is cut short by the second click. *)
Definition busy : list aaction := clicks [2; 1]%nat ++ [AnimEnd 2%nat; KeyDown KToggle 0 false; SetOption (OActive NoIndex)].

Lemma busy_uses : Forall uses busy.
Proof. repeat constructor; done. Qed.

Example accordion_marks_active_witness :
  let s := acts yes false busy (three (Some (-3)) false) in
  o_active s = Z.of_nat <$> active s /\ length (headers s) = 3%nat /\ (forall i, active s = Some i -> (i < 3)%nat) /\
  forall i h, headers s !! i = Some h -> looks (active s) (still s) i h.
Proof.
  apply (accordion_marks_active yes false 3 (Some (-3)) true false true ["click"] None busy);
    [apply three_sensible; intros z [= <-]; lia|exact busy_uses].
Defined.

Example accordion_as_specified_witness :
  sp_active (spec_of (acts yes false busy (three None true))) = None.
Proof.
  transitivity (sp_active (fold_left (spec_step yes) busy (mk_spec None true ["click"] false 3))); [|by vm_compute].
  apply (f_equal sp_active), (accordion_as_specified yes false 3 None true true true ["click"] None busy);
    [by apply three_sensible|exact busy_uses].
Defined.

Example accordion_tells_all_witness :
  let s := acts yes false busy (three None true) in
  exists waiting, accepted yes (told s) = done_changes (told s) ++ waiting /\ (length waiting <= 1)%nat /\ (still s -> waiting = []).
Proof.
  apply (accordion_tells_all yes false 3 None true true true ["click"] None busy);
    [by apply three_sensible|exact busy_uses].
Defined.

Example accordion_stays_open_witness :
  exists i, active (acts yes false (SetOption (OCollapsible false) :: busy) (three None true)) = Some i.
Proof.
  apply (accordion_stays_open yes false 3 None true true true ["click"] None (SetOption (OCollapsible false) :: busy));
    [by apply three_sensible|constructor; [done|exact busy_uses]|done|by vm_compute].
Defined.

(** A run with everything in it. *)
Example busy_told :
  accepted yes (told (acts yes false busy (three None true))) =
    [mk_change None (Some 2); mk_change (Some 2) (Some 1); mk_change (Some 1) (Some 0); mk_change (Some 0) None]%nat /\
  done_changes (told (acts yes false busy (three None true))) =
    [mk_change None (Some 2); mk_change (Some 2) (Some 1); mk_change (Some 1) (Some 0)]%nat.
Proof. by vm_compute. Qed.

(** *** The tab stop that stays

    With a jQuery whose [attr("tabIndex")] is a text, opening a header while none is open
    leaves the first header a tab stop too; with numbers it does not. *)
Example two_stops :
  h_stop <$> headers (acts yes false (clicks [2%nat]) (three None true)) = [true; false; true] /\
  h_stop <$> headers (acts yes true (clicks [2%nat]) (three None true)) = [false; false; true].
Proof. by vm_compute. Qed.

(** *** Destroyed while a panel is hidden

    The animation goes on: the panel stays hidden, its header lies in the corner classes
    and [activate] is told after the end of the accordion. *)
Example hidden_for_good :
  let s := acts yes false [Activate NoIndex; Destroy; AnimEnd 0%nat] (three (Some 0) true) in
  destroyed s = true /\ p_shown <$> headers s = [false; true; true] /\ h_all <$> headers s = [true; false; false] /\
  done_changes (told s) = [mk_change (Some 0%nat) None].
Proof. by vm_compute. Qed.

(** *** An index that is out of range

    Nothing is open although the accordion is not collapsible, and the option keeps the
    index. *)
Example none_open :
  active (three (Some 7) false) = None /\ o_active (three (Some 7) false) = Some 7 /\ o_collapsible (three (Some 7) false) = false.
Proof. by vm_compute. Qed.
