(* ===== verification/UiOptions.v ===== *)
(** * Widget factory of jQuery UI: options

    Models [$.widget.extend] and the method [option] of every widget, in
    [2019104287/code/WebContent/js/jquery-ui.js]: options are trees of plain objects,
    addressed by keys with dots. *)

From S2P Require Export JsValue.

Module Options.

Unset Elimination Schemes.
(** Values of options.  [WOther] stands for functions, arrays and elements, which are
    kept by reference; a plain object has no key twice. *)
Inductive wval :=
  | WUndef | WNull | WBool (b : bool) | WNum (n : Z) | WStr (s : string) | WOther (n : nat)
  | WObj (l : list (string * wval)).
Set Elimination Schemes.

Abbreviation fields := (list (string * wval)).

Fixpoint wval_ind (P : wval -> Prop) (HU : P WUndef) (HN : P WNull) (HB : forall b, P (WBool b)) (HZ : forall n, P (WNum n))
    (HS : forall s, P (WStr s)) (HO : forall n, P (WOther n)) (HF : forall l, Forall (fun p => P p.2) l -> P (WObj l))
    (v : wval) {struct v} : P v :=
  match v with
  | WUndef => HU | WNull => HN | WBool b => HB b | WNum n => HZ n | WStr s => HS s | WOther n => HO n
  | WObj l => HF l ((fix go (l : fields) : Forall (fun p => P p.2) l :=
      match l with
      | [] => List.Forall_nil _
      | p :: l => List.Forall_cons _ _ _ (wval_ind P HU HN HB HZ HS HO HF p.2) (go l)
      end) l)
  end.

(** ** Objects *)

Fixpoint field (k : string) (l : fields) : wval :=
  match l with
  | [] => WUndef
  | p :: l => if String.eqb k p.1 then p.2 else field k l
  end.

Fixpoint set_field (k : string) (v : wval) (l : fields) : fields :=
  match l with
  | [] => [(k, v)]
  | p :: l => if String.eqb k p.1 then (k, v) :: l else p :: set_field k v l
  end.

Definition truthy (v : wval) : bool :=
  match v with
  | WUndef | WNull => false
  | WBool b => b
  | WNum n => negb (n =? 0)
  | WStr s => negb (String.eqb s "")
  | WOther _ | WObj _ => true
  end.

Definition is_undefined (v : wval) : bool := match v with WUndef => true | _ => false end.
Definition or_null (v : wval) : wval := match v with WUndef => WNull | _ => v end.

(** ** [$.widget.extend] *)

(** A plain object extending an empty one: a copy of the objects, without [undefined]. *)
Fixpoint copy (v : wval) : wval :=
  match v with
  | WObj l =>
      WObj ((fix go (l : fields) : fields :=
        match l with
        | [] => []
        | (k, w) :: l => if is_undefined w then go l else (k, copy w) :: go l
        end) l)
  | _ => v
  end.

Definition copy_fields (l : fields) : fields := match copy (WObj l) with WObj l => l | _ => [] end.

(** One more input [v], a plain object. *)
Fixpoint extend1 (target : fields) (v : wval) : fields :=
  match v with
  | WObj l =>
      (fix go (target : fields) (l : fields) : fields :=
        match l with
        | [] => target
        | (key, value) :: l =>
            go (match value with
                | WUndef => target
                | WObj _ =>
                    match field key target with
                    | WObj t => set_field key (WObj (extend1 (copy_fields t) value)) target
                    | _ => set_field key (WObj (extend1 [] value)) target
                    end
                | _ => set_field key value target
                end) l
        end) target l
  | _ => target
  end.

Definition extend (target : fields) (inputs : list fields) : fields :=
  fold_left (fun t i => extend1 t (WObj i)) inputs target.

(** ** Keys with dots *)

Section option.
(** The properties of a value that is no plain object; the fields of an object that is no
    plain one. *)
Context (property : wval -> string -> wval) (enumerated : nat -> fields).

(** [v[k]], which throws for [undefined] and [null]. *)
Definition read (v : wval) (k : string) : option wval :=
  match v with
  | WUndef | WNull => None
  | WObj l => Some (field k l)
  | _ => Some (property v k)
  end.

(** [v[k] = w], of which the owner of [v] keeps the value; an object that is no plain one
    stays the same reference. *)
Definition write (v : wval) (k : string) (w : wval) : option wval :=
  match v with
  | WUndef | WNull => None
  | WObj l => Some (WObj (set_field k w l))
  | _ => Some v
  end.

(** [v[k] = v[k] || {}], and what [v[k]] is then. *)
Definition step_into (v : wval) (k : string) : option wval :=
  c ← read v k;
  Some (if truthy c then c else match v with WObj _ | WOther _ => WObj [] | _ => c end).

Fixpoint get_path (cur : wval) (parts : list string) : option wval :=
  match parts with
  | [] => Some cur
  | [key] => read cur key
  | p :: parts => c ← step_into cur p; get_path c parts
  end.

Fixpoint set_path (cur : wval) (parts : list string) (value : wval) : option wval :=
  match parts with
  | [] => Some value
  | [key] => write cur key value
  | p :: parts => c ← step_into cur p; c' ← set_path c parts value; write cur p c'
  end.

(** A string has its characters as fields. *)
Fixpoint characters (i : Z) (s : string) : fields :=
  match s with
  | EmptyString => []
  | String c s => (pretty i, WStr (String c EmptyString)) :: characters (i + 1) s
  end.

(** [$.widget.extend({}, v)]. *)
Definition clone (v : wval) : wval :=
  WObj (match v with
        | WObj l => copy_fields l
        | WStr s => characters 0 s
        | WOther n => copy_fields (enumerated n)
        | _ => []
        end).

(** [option(key)]; [None] if it throws. *)
Definition option_get (options : fields) (key : string) : option wval :=
  match split_on "." key with
  | k :: p :: parts => v ← get_path (clone (field k options)) (p :: parts); Some (or_null v)
  | _ => Some (or_null (field key options))
  end.

(** The options [option(key, value)] hands to [_setOptions]. *)
Definition option_set (options : fields) (key : string) (value : wval) : option fields :=
  match split_on "." key with
  | k :: p :: parts => v ← set_path (clone (field k options)) (p :: parts) value; Some [(k, v)]
  | _ => Some [(key, value)]
  end.
End option.
End Options.
