(* ===== verification/OptionsFlow.v ===== *)
(** * Widget factory of jQuery UI: options, their properties

    An option that is set under a key with dots is read back under it, the others stay;
    options that are given override the defaults field by field. *)

From S2P Require Export UiOptions.
Import Options.

(** ** Objects *)

Abbreviation keys l := (l.*1).

(** No object has a key twice. *)
Inductive wf : wval -> Prop :=
  | wf_object l : NoDup (keys l) -> Forall (fun p => wf p.2) l -> wf (WObj l)
  | wf_other v : (forall l, v <> WObj l) -> wf v.

Lemma wf_obj_inv l : wf (WObj l) -> NoDup (keys l) /\ Forall (fun p => wf p.2) l.
Proof. inversion 1 as [? H1 H2|? H1]; subst; [done|by destruct (H1 l)]. Qed.

Lemma wf_nil : wf (WObj []).
Proof. by repeat constructor. Qed.

Lemma field_in k l : field k l <> WUndef -> (k, field k l) ∈ l.
Proof.
  induction l as [|[k' v] l IH]; cbn; [done|]. destruct (String.eqb_spec k k') as [->|]; [by left|].
  intros H. right. by apply IH.
Qed.

Lemma field_none k l : k ∉ keys l -> field k l = WUndef.
Proof.
  induction l as [|[k' v] l IH]; cbn; [done|]. intros [Hne Hk]%not_elem_of_cons.
  destruct (String.eqb_spec k k') as [->|]; [done|by apply IH].
Qed.

Lemma wf_field k l : wf (WObj l) -> wf (field k l).
Proof.
  intros [_ H]%wf_obj_inv. induction H as [|[k' v] l Hv _ IH]; cbn; [by constructor|].
  by destruct (String.eqb k k').
Qed.

Lemma field_set k k' v l : field k (set_field k' v l) = if String.eqb k k' then v else field k l.
Proof.
  induction l as [|[j w] l IH]; cbn; [done|]. destruct (String.eqb_spec k' j) as [->|Hj]; cbn.
  - by destruct (String.eqb k j).
  - rewrite IH. destruct (String.eqb_spec k j) as [->|]; [|done].
    destruct (String.eqb_spec j k'); congruence.
Qed.

Lemma keys_set k v l : keys (set_field k v l) = if decide (k ∈ keys l) then keys l else keys l ++ [k].
Proof.
  induction l as [|[j w] l IH]; [done|]. cbn [set_field fst]. destruct (String.eqb_spec k j) as [->|Hj]; cbn.
  - by rewrite decide_True by by left.
  - rewrite IH. destruct (decide (k ∈ keys l)) as [H|H].
    + by rewrite decide_True by by right.
    + rewrite decide_False; [done|]. by intros [->|?]%elem_of_cons.
Qed.

Lemma wf_set k v l : wf v -> wf (WObj l) -> wf (WObj (set_field k v l)).
Proof.
  intros Hv [H1 H2]%wf_obj_inv. constructor.
  - rewrite keys_set. destruct (decide _) as [H|H]; [done|]. apply NoDup_app. split; [done|].
    split; [|apply NoDup_singleton]. by intros x Hx ->%list_elem_of_singleton.
  - clear H1. induction H2 as [|[j w] l Hw H2 IH]; cbn.
    + apply List.Forall_cons; [exact Hv|apply List.Forall_nil].
    + destruct (String.eqb k j); by apply List.Forall_cons.
Qed.

(** ** Copies *)

Lemma copy_fields_cons k w l :
  copy_fields ((k, w) :: l) = if is_undefined w then copy_fields l else (k, copy w) :: copy_fields l.
Proof. unfold copy_fields. cbn [copy]. by destruct (is_undefined w). Qed.

Lemma copy_obj l : copy (WObj l) = WObj (copy_fields l).
Proof. done. Qed.

Lemma copy_undefined v : copy v = WUndef <-> v = WUndef.
Proof. by destruct v. Qed.

Lemma keys_copy k l : k ∈ keys (copy_fields l) -> k ∈ keys l.
Proof.
  induction l as [|[j w] l IH]; [done|]. rewrite copy_fields_cons. destruct (is_undefined w); cbn; rewrite ?elem_of_cons; tauto.
Qed.

Lemma field_copy k l : NoDup (keys l) -> field k (copy_fields l) = copy (field k l).
Proof.
  induction l as [|[j w] l IH]; [done|]. cbn [fmap list_fmap fst]. intros [Hj Hl]%NoDup_cons.
  rewrite copy_fields_cons. cbn [field fst snd]. destruct (is_undefined w) eqn:Ew.
  - destruct (String.eqb_spec k j) as [->|]; [|by apply IH]. destruct w; try done.
    rewrite field_none; [done|]. by intros H%keys_copy.
  - cbn [field fst snd]. destruct (String.eqb k j); [done|by apply IH].
Qed.

Lemma wf_copy v : wf v -> wf (copy v).
Proof.
  induction v as [ | | | | | | l IH] using wval_ind; try done. intros [H1 H2]%wf_obj_inv. rewrite copy_obj.
  induction l as [|[j w] l IHl]; [exact wf_nil|].
  apply Forall_cons in IH as [IHw IH]. apply Forall_cons in H2 as [Hw H2]. cbn [fmap list_fmap fst] in H1. apply NoDup_cons in H1 as [Hj H1].
  specialize (IHl IH H1 H2). rewrite copy_fields_cons. destruct (is_undefined w); [done|].
  apply wf_obj_inv in IHl as [A B]. constructor; cbn.
  - constructor; [|done]. by intros H%keys_copy.
  - constructor; [by apply IHw|done].
Qed.

Lemma copy_copy v : copy (copy v) = copy v.
Proof.
  induction v as [ | | | | | | l IH] using wval_ind; try done. rewrite copy_obj, copy_obj. f_equal.
  induction IH as [|[j w] l Hw _ IH]; [done|]. rewrite copy_fields_cons. destruct (is_undefined w) eqn:E; [done|].
  rewrite copy_fields_cons, IH. cbn in Hw. rewrite Hw. by destruct w.
Qed.

(** Equal but for fields that are [undefined]. *)
Definition same (v w : wval) : Prop := v = w \/ wf v /\ wf w /\ copy v = copy w.

#[export] Instance same_equivalence : Equivalence same.
Proof.
  split.
  - by left.
  - intros v w [->|(A & B & E)]; [by left|by right].
  - intros u v w [->|(A & B & E)]; [done|]. intros [<-|(C & D & F)]; right; split_and!; try done. congruence.
Qed.

Lemma same_copy v : wf v -> same (copy v) v.
Proof. intros H. right. split_and!; [by apply wf_copy|done|apply copy_copy]. Qed.

Lemma same_copies v w : same v w -> copy v = copy w.
Proof. by intros [->|(_ & _ & E)]. Qed.

#[export] Instance truthy_same : Proper (same ==> eq) truthy.
Proof. intros v w [->|(_ & _ & E)]; [done|]. destruct v, w; cbn in E; simplify_eq; try done.
Qed.

Lemma same_cases v w : same v w -> v = w \/ exists l m, v = WObj l /\ w = WObj m /\ wf v /\ wf w /\ copy v = copy w.
Proof. intros [->|(A & B & E)]; [by left|]. destruct v as [ | | | | | |l], w as [ | | | | | |m]; first [left; cbn in E; by simplify_eq|right; by exists l, m]. Qed.

Lemma same_field k l m : wf (WObj l) -> wf (WObj m) -> copy (WObj l) = copy (WObj m) -> same (field k l) (field k m).
Proof.
  intros Hl Hm E. right. split; [by apply wf_field|]. split; [by apply wf_field|].
  apply wf_obj_inv in Hl as [Hl _], Hm as [Hm _]. rewrite <- !field_copy by done. rewrite !copy_obj in E. by injection E as ->.
Qed.

(** ** Paths *)

Section paths.
Context (property : wval -> string -> wval) (enumerated : nat -> fields).

Definition same_result : relation (option wval) := option_Forall2 same.

#[local] Instance read_same : Proper (same ==> eq ==> same_result) (read property).
Proof.
  intros v w H k _ <-. destruct (same_cases v w H) as [->|(l & m & -> & -> & A & B & E)].
  - destruct w; constructor; reflexivity.
  - constructor. by apply same_field.
Qed.

#[local] Instance step_into_same : Proper (same ==> eq ==> same_result) (step_into property).
Proof.
  intros v w H k _ <-. unfold step_into. destruct (read_same v w H k k eq_refl) as [c d Hc|]; cbn; [|constructor].
  rewrite (truthy_same _ _ Hc). constructor. destruct (truthy d); [done|].
  destruct (same_cases v w H) as [->|(l & m & -> & -> & _)]; [by destruct w|reflexivity].
Qed.

#[local] Instance get_path_same : Proper (same ==> eq ==> same_result) (get_path property).
Proof.
  intros v w H ps _ <-. revert v w H. induction ps as [|p [|q ps] IH]; intros v w H.
  - by constructor.
  - by apply read_same.
  - cbn [get_path]. destruct (step_into_same v w H p p eq_refl) as [c d Hc|]; [|constructor]. by apply IH.
Qed.

(** The path goes through objects; where it ends early, it ends at nothing. *)
Fixpoint walkable (l : fields) (ps : list string) : Prop :=
  match ps with
  | [] => False
  | [_] => True
  | p :: ps => match field p l with WObj c => walkable c ps | w => truthy w = false end
  end.

Lemma walkable_nil ps : ps <> [] -> walkable [] ps.
Proof. by destruct ps as [|p [|q ps]]. Qed.

Lemma step_walkable l p ps :
  ps <> [] -> walkable l (p :: ps) ->
  exists c, step_into property (WObj l) p = Some (WObj c) /\ walkable c ps /\ (field p l = WObj c \/ c = [] /\ truthy (field p l) = false).
Proof.
  intros Hps Hw. destruct ps as [|q ps]; [done|]. cbn [walkable] in Hw. unfold step_into. cbn [read option_bind mbind].
  destruct (field p l) as [ | | | | | |c] eqn:E; try (rewrite Hw; exists []; split; [done|]; split; [by apply walkable_nil|by right]).
  exists c. split; [done|]. split; [done|by left].
Qed.

Lemma set_path_spec ps v l : walkable l ps ->
  exists l', set_path property (WObj l) ps v = Some (WObj l') /\ get_path property (WObj l') ps = Some v /\
    walkable l' ps /\ (wf v -> wf (WObj l) -> wf (WObj l')).
Proof.
  revert l. induction ps as [|p [|q ps] IH]; intros l Hw; [done|..].
  - exists (set_field p v l). split; [done|]. split; [cbn; by rewrite field_set, String.eqb_refl|]. split; [done|by apply wf_set].
  - destruct (step_walkable l p (q :: ps)) as (c & Ec & Hc & Hf); [done|done|]. destruct (IH c Hc) as (c' & E1 & E2 & Hc' & E3).
    exists (set_field p (WObj c') l). cbn [set_path get_path] in *. rewrite Ec. cbn [mbind option_bind]. rewrite E1. split; [done|].
    split; [unfold step_into; cbn [read mbind option_bind]; by rewrite field_set, String.eqb_refl|].
    split; [cbn [walkable]; by rewrite field_set, String.eqb_refl|]. intros Hv Hl. apply wf_set; [|done]. apply E3; [done|]. destruct Hf as [Hf|[-> _]]; [rewrite <- Hf; by apply wf_field|apply wf_nil].
Qed.

(** Neither path begins the other. *)
Fixpoint apart (ps qs : list string) : Prop :=
  match ps, qs with
  | p :: ps, q :: qs => p <> q \/ p = q /\ apart ps qs
  | _, _ => False
  end.

Lemma step_set_ne p q v l : p <> q -> step_into property (WObj (set_field p v l)) q = step_into property (WObj l) q.
Proof. intros H. unfold step_into. cbn. rewrite field_set. by rewrite (proj2 (String.eqb_neq q p)) by congruence. Qed.

Lemma get_path_ne p q v l qs : p <> q -> get_path property (WObj (set_field p v l)) (q :: qs) = get_path property (WObj l) (q :: qs).
Proof.
  intros H. destruct qs as [|r qs]; cbn [get_path].
  - cbn. rewrite field_set. by rewrite (proj2 (String.eqb_neq q p)) by congruence.
  - by rewrite step_set_ne.
Qed.

Lemma set_path_apart ps qs v l l' : walkable l ps -> apart ps qs ->
  set_path property (WObj l) ps v = Some (WObj l') -> get_path property (WObj l') qs = get_path property (WObj l) qs.
Proof.
  revert qs l l'. induction ps as [|p [|p' ps] IH]; intros [|q qs] l l' Hw Ha; try done.
  - cbn. intros [= <-]. destruct Ha as [Ha|[_ Ha]]; [by apply get_path_ne|by destruct qs].
  - destruct (step_walkable l p (p' :: ps)) as (c & Ec & Hc & Hf); [done|done|]. cbn [set_path]. rewrite Ec. cbn [mbind option_bind].
    destruct (set_path_spec (p' :: ps) v c Hc) as (c' & E1 & E2 & _ & _). cbn [set_path] in E1. rewrite E1. cbn [mbind option_bind write]. intros [= <-].
    destruct Ha as [Ha|[<- Ha]]; [by apply get_path_ne|]. destruct qs as [|r qs]; [done|]. cbn [get_path].
    rewrite Ec. assert (step_into property (WObj (set_field p (WObj c') l)) p = Some (WObj c')) as ->
      by (unfold step_into; cbn [read mbind option_bind]; by rewrite field_set, String.eqb_refl).
    by apply (IH (r :: qs)).
Qed.
End paths.

(** ** The method [option] *)

Lemma split_single c s w : split_on c s = [w] -> w = s.
Proof.
  revert w. induction s as [|d s IH]; intros w; cbn; [by intros [= <-]|]. destruct (Ascii.eqb c d).
  - destruct (split_on c s) eqn:E; [|done]. exfalso. clear -E. destruct s as [|e s]; cbn in E; [done|].
    destruct (Ascii.eqb c e); [done|]. by destruct (split_on c s).
  - destruct (split_on c s) as [|u [|]] eqn:E; try done; intros [= <-].
    + exfalso. clear -E. destruct s as [|e s]; cbn in E; [done|]. destruct (Ascii.eqb c e); [done|]. by destruct (split_on c s).
    + f_equal. by apply IH.
Qed.

Lemma split_some c s : split_on c s <> [].
Proof. destruct s as [|d s]; cbn; [done|]. destruct (Ascii.eqb c d); [done|]. by destruct (split_on c s). Qed.

(** [_setOptions] of a widget that does not override [_setOption]. *)
Definition store (l options : fields) : fields := fold_left (fun o p => set_field p.1 p.2 o) l options.

Lemma walkable_copy l ps : wf (WObj l) -> walkable l ps -> walkable (copy_fields l) ps.
Proof.
  revert l. induction ps as [|p [|q ps] IH]; intros l Hl Hw; [done|done|]. cbn [walkable] in *.
  rewrite field_copy by apply (wf_obj_inv l Hl). destruct (field p l) as [ | | | | | |c] eqn:E; try done.
  rewrite copy_obj. apply IH; [|done]. rewrite <- E. by apply wf_field.
Qed.

Lemma get_path_copy property l ps : wf (WObj l) -> walkable l ps ->
  get_path property (WObj (copy_fields l)) ps = option_map copy (get_path property (WObj l) ps).
Proof.
  revert l. induction ps as [|p [|q ps] IH]; intros l Hl Hw; [done|..].
  - cbn. by rewrite field_copy by apply (wf_obj_inv l Hl).
  - destruct (step_walkable property l p (q :: ps)) as (c & Ec & Hcw & Hf); [done|done|].
    assert (step_into property (WObj (copy_fields l)) p = Some (copy (WObj c)) /\ wf (WObj c)) as [Ec' Hc].
    { unfold step_into. cbn [read mbind option_bind]. rewrite field_copy by apply (wf_obj_inv l Hl). destruct Hf as [Hf|[-> Hf]].
      - rewrite Hf. split; [done|]. rewrite <- Hf. by apply wf_field.
      - split; [|apply wf_nil]. by destruct (field p l); cbn in Hf |- *; rewrite ?Hf. }
    cbn [get_path]. rewrite Ec, Ec'. by apply IH.
Qed.

Section method.
Context (property : wval -> string -> wval) (enumerated : nat -> fields).

Abbreviation get := (option_get property enumerated).
Abbreviation set := (option_set property enumerated).

Lemma walkable_clone k ps options : ps <> [] -> walkable options (k :: ps) -> wf (WObj options) ->
  exists c, clone enumerated (field k options) = WObj c /\ walkable c ps /\ wf (WObj c).
Proof.
  intros Hps Hw Hwf.
  destruct ps as [|q ps]; [done|]. cbn [walkable] in Hw. unfold clone. destruct (field k options) as [ | |b|n|s|n|c] eqn:E.
  1, 2, 3, 4: exists []; split; [done|]; split; [by apply walkable_nil|apply wf_nil].
  - destruct s; [|done]. exists []. split; [done|]. split; [by apply walkable_nil|apply wf_nil].
  - done.
  - exists (copy_fields c). assert (wf (WObj c)) as Hc by (rewrite <- E; by apply wf_field). split; [done|].
    split; [by apply walkable_copy|]. rewrite <- copy_obj. by apply wf_copy.
Qed.

Lemma get_plain options key k : split_on "." key = [k] -> get options key = Some (or_null (field key options)).
Proof. intros E. unfold option_get. by rewrite E. Qed.

Lemma get_nested options key k p ps : split_on "." key = k :: p :: ps ->
  get options key = v ← get_path property (clone enumerated (field k options)) (p :: ps); Some (or_null v).
Proof. intros E. unfold option_get. by rewrite E. Qed.

(** What is under a key depends only on the field that the first part names. *)
Lemma get_field key k ps options options' :
  split_on "." key = k :: ps -> field k options' = field k options -> get options' key = get options key.
Proof.
  intros E H. destruct ps as [|p ps].
  - pose proof (split_single _ _ _ E) as Ek. rewrite !(get_plain _ _ _ E). subst k. by rewrite H.
  - rewrite !(get_nested _ _ _ _ _ E). by rewrite H.
Qed.

Lemma or_null_same v w : same v w -> copy (or_null v) = copy (or_null w).
Proof. intros H. destruct (same_cases v w H) as [->|(l & m & -> & -> & _ & _ & E)]; [done|exact E]. Qed.

(** C15. If the path of a key with dots goes through objects and ends early, if at all, at
    nothing (a value that counts as false), then a value that is not [undefined] and that
    copying keeps as it is, is read back under the key after it was set; and what is read under
    any other key, none of the two beginning the other, is the same as before, up to fields that
    are [undefined]. *)
Theorem option_reads_back options key v :
  wf (WObj options) -> walkable options (split_on "." key) -> wf v -> copy v = v -> v <> WUndef ->
  exists l, set options key v = Some l /\ wf (WObj (store l options)) /\ get (store l options) key = Some v /\
    forall key', apart (split_on "." key) (split_on "." key') ->
      option_map copy (get (store l options) key') = option_map copy (get options key').
Proof.
  intros Hwf Hw Hv Hc Hu. unfold option_set. destruct (split_on "." key) as [|k ps] eqn:Ek; [by apply split_some in Ek|].
  assert (or_null v = v) as Hnull by by destruct v.
  assert (forall w key' k' qs, split_on "." key' = k' :: qs -> k <> k' -> get (set_field k w options) key' = get options key') as Hother.
  { intros w key' k' qs Ek' Hne. apply (get_field _ _ _ _ _ Ek'). rewrite field_set. by rewrite (proj2 (String.eqb_neq k' k)) by congruence. }
  destruct ps as [|p ps].
  - pose proof (split_single _ _ _ Ek) as Hk. exists [(key, v)]. split; [done|]. cbn [store fold_left fst snd].
    split; [by apply wf_set|]. rewrite (get_plain _ _ _ Ek), field_set, String.eqb_refl, Hnull. split; [done|].
    intros key' Ha. destruct (split_on "." key') as [|k' qs] eqn:Ek'; [done|]. destruct Ha as [Ha|[_ Ha]]; [|done].
    rewrite <- Hk. by rewrite (Hother v key' k' qs).
  - destruct (walkable_clone k (p :: ps) options) as (c & Ec & Hcw & Hcwf); [done..|]. cbn [List.tl]. rewrite Ec.
    destruct (set_path_spec property (p :: ps) v c Hcw) as (c' & E1 & E2 & Hw' & E3). rewrite E1. cbn [mbind option_bind].
    exists [(k, WObj c')]. split; [done|]. cbn [store fold_left fst snd]. specialize (E3 Hv Hcwf).
    split; [by apply wf_set|].
    assert (clone enumerated (field k (set_field k (WObj c') options)) = copy (WObj c')) as Ecl by by rewrite field_set, String.eqb_refl.
    assert (forall qs, same_result (get_path property (copy (WObj c')) qs) (get_path property (WObj c') qs)) as Hsame.
    { intros qs. apply get_path_same; [|done]. by apply same_copy. }
    split.
    + rewrite (get_nested _ _ _ _ _ Ek), Ecl, copy_obj, get_path_copy, E2 by done. cbn. by rewrite Hc, Hnull.
    + intros key' Ha. destruct (split_on "." key') as [|k' qs] eqn:Ek'; [done|]. destruct Ha as [Ha|[<- Ha]]; [by rewrite (Hother _ key' k' qs)|].
      destruct qs as [|q qs]; [done|]. rewrite !(get_nested _ _ _ _ _ Ek'), Ecl, Ec.
      rewrite <- (set_path_apart property (p :: ps) (q :: qs) v c c' Hcw Ha E1).
      destruct (Hsame (q :: qs)) as [x y Hxy|]; [|done]. cbn. by rewrite (or_null_same x y).
Qed.
End method.

(** ** Extending *)

(** The value one field gets. *)
Definition over (old new : wval) : wval :=
  match new with
  | WUndef => old
  | WObj _ => WObj (extend1 (match old with WObj t => copy_fields t | _ => [] end) new)
  | _ => new
  end.

Lemma extend1_cons t k v l :
  extend1 t (WObj ((k, v) :: l)) = extend1 (if is_undefined v then t else set_field k (over (field k t) v) t) (WObj l).
Proof. cbn [extend1]. destruct v; try done. by destruct (field k t). Qed.

Lemma extend1_field k t l : NoDup (keys l) -> field k (extend1 t (WObj l)) = over (field k t) (field k l).
Proof.
  revert t. induction l as [|[j v] l IH]; intros t; [done|]. cbn [fmap list_fmap fst]. intros [Hj Hl]%NoDup_cons.
  rewrite extend1_cons, IH by done. cbn [field fst snd]. destruct (String.eqb_spec k j) as [->|Hne].
  - rewrite (field_none j l Hj). cbn [over]. destruct v; cbn [is_undefined]; by rewrite ?field_set, ?String.eqb_refl.
  - destruct (is_undefined v); [done|]. rewrite field_set. by rewrite (proj2 (String.eqb_neq k j)).
Qed.

Fixpoint at_path (v : wval) (ps : list string) : wval :=
  match ps with
  | [] => v
  | p :: ps => match v with WObj l => at_path (field p l) ps | _ => WUndef end
  end.

Definition is_object (v : wval) : bool := match v with WObj _ => true | _ => false end.

(** The input says nothing about the path: it ends at something undefined on the way. *)
Fixpoint silent (v : wval) (ps : list string) : Prop :=
  match ps with
  | [] => False
  | p :: ps => match v with WObj l => field p l = WUndef \/ silent (field p l) ps | _ => False end
  end.

Lemma at_undefined ps : at_path WUndef ps = WUndef.
Proof. by destruct ps. Qed.

Lemma at_copy v ps : wf v -> copy (at_path (copy v) ps) = copy (at_path v ps).
Proof.
  revert v. induction ps as [|p ps IH]; intros v Hv; cbn [at_path]; [apply copy_copy|].
  destruct v as [ | | | | | |l]; try done. rewrite copy_obj, field_copy by apply (wf_obj_inv l Hv). apply IH. by apply wf_field.
Qed.

(** Options that are given override the defaults at every path where they have a value, and leave the default where
    they have none; only [undefined] is lost. *)
Theorem extend_overrides t l : wf (WObj t) -> wf (WObj l) ->
  let r := WObj (extend t [l]) in
  (forall ps, ps <> [] -> at_path (WObj l) ps <> WUndef -> is_object (at_path (WObj l) ps) = false ->
    at_path r ps = at_path (WObj l) ps) /\
  (forall ps, silent (WObj l) ps -> copy (at_path r ps) = copy (at_path (WObj t) ps)).
Proof.
  intros Ht Hl. cbv zeta. change (extend t [l]) with (extend1 t (WObj l)). split; intros ps.
  - revert t l Ht Hl. induction ps as [|p ps IH]; intros t l Ht Hl Hne Hd Ho; [done|]. cbn [at_path] in *.
    rewrite extend1_field by apply (wf_obj_inv l Hl). pose proof (wf_field p l Hl) as Hf.
    destruct (field p l) as [ | | | | | |m]; try done.
    + by rewrite at_undefined in Hd.
    + destruct ps as [|q ps]; [done|]. cbn [over]. apply IH; try done.
      pose proof (wf_field p t Ht) as Hft. destruct (field p t) as [ | | | | | |c]; try apply wf_nil. rewrite <- copy_obj. by apply wf_copy.
  - revert t l Ht Hl. induction ps as [|p ps IH]; intros t l Ht Hl Hs; [done|]. cbn [at_path silent] in *.
    rewrite extend1_field by apply (wf_obj_inv l Hl). pose proof (wf_field p l Hl) as Hf. destruct Hs as [Hs|Hs]; [by rewrite Hs|].
    destruct (field p l) as [ | | | | | |m]; try by destruct ps. cbn [over]. pose proof (wf_field p t Ht) as Hft. rewrite IH; try done.
    + destruct (field p t) as [ | | | | | |c]; try (destruct ps as [|q ps]; [done|]; cbn; by destruct ps).
      rewrite <- copy_obj. by apply at_copy.
    + destruct (field p t) as [ | | | | | |c]; try apply wf_nil. rewrite <- copy_obj. by apply wf_copy.
Qed.
