(* ===== verification/UiClass.v ===== *)
(** * Widget factory of jQuery UI: classes

    Models [$.widget] of [2019104287/code/WebContent/js/jquery-ui.js]: the constructors it
    makes, their prototypes and options, redefinition, and how methods call those of the
    base through [this._super].

    A body of a method is a value of [prog]: what it does itself, its calls and the
    exceptions it throws or catches; what it computes is left to the language here. *)

From S2P Require Export UiOptions.

Module Class.
Import Options.

(** ** Methods *)

(** [Super a k]: [this._super(a)], and [k] goes on with its result; [Call m a k]:
    [this.m(a)]; [Try p k]: [k] runs after [p], whether or not it throws. *)
Inductive prog :=
  | Return (v : Z) | Throw | Emit (e : string) (k : prog)
  | Super (a : Z) (k : Z -> prog) | Call (m : string) (a : Z) (k : Z -> prog) | Try (p k : prog).

Abbreviation method := (Z -> prog).

(** What [$.widget] is given. *)
Record proto := mk_proto { p_methods : list (string * method); p_options : fields; p_prefix : option string }.

(** A constructor; [children] is gone once it was replaced. *)
Record ctor := mk_ctor {
  name : string; base : option nat; own : proto; options : fields; prefix : string; children : option (list nat);
}.
#[export] Instance ctor_eta : Settable ctor := fun c =>
  mk_ctor (name c) (base c) (own c) (options c) (prefix c) (children c).

Abbreviation heap := (list ctor).

Fixpoint method_in (m : string) (l : list (string * method)) : option method :=
  match l with
  | [] => None
  | p :: l => if String.eqb m p.1 then Some p.2 else method_in m l
  end.

(** [prototype[m]]: the constructor that has the method, and it; a base is older than what
    inherits from it. *)
Fixpoint resolve_fuel (fuel : nat) (h : heap) (c : nat) (m : string) : option (nat * method) :=
  match fuel with
  | O => None
  | S fuel =>
      x ← h !! c;
      match method_in m (p_methods (own x)) with
      | Some f => Some (c, f)
      | None => b ← base x; resolve_fuel fuel h b m
      end
  end.

Definition resolve (h : heap) (c : nat) (m : string) : option (nat * method) := resolve_fuel (S c) h c m.

(** ** Calls *)

Inductive outcome := Value (v : Z) | Thrown.

(** [_super], as the wrapper of the method [m] of a constructor sets it: what it calls is
    [base.prototype[m]]. *)
Definition super := (nat * string)%type.

(** A run: what is emitted, how it ends and [this._super] then; [None] when the fuel is
    used up. *)
Definition run_result := option (list string * outcome * option super).

Section runs.
Context (h : heap) (this : nat).

(** [base.prototype[m]] for the wrapper of a method of [c]. *)
Definition super_method (s : super) : option (nat * method) := x ← h !! s.1; b ← base x; resolve h b s.2.

(** The methods of [$.Widget] itself are not wrapped. *)
Definition is_wrapped (c : nat) : bool := bool_decide (is_Some (h !! c ≫= base)).

(** A body, with [this._super] on the way.  The wrapper of a method sets it before the
    body and puts the old one back after it, unless the body throws. *)
Fixpoint exec (fuel : nat) (s : option super) (p : prog) : run_result :=
  match fuel with
  | O => None
  | S fuel =>
      let called (f : option (nat * method)) (m : string) (a : Z) (k : Z -> prog) : run_result :=
        match f with
        | None => Some ([], Thrown, s)
        | Some (c, f) =>
            match exec fuel (if is_wrapped c then Some (c, m) else s) (f a) with
            | None => None
            | Some (l, Thrown, s') => Some (l, Thrown, s')
            | Some (l, Value v, s') =>
                match exec fuel (if is_wrapped c then s else s') (k v) with
                | Some (l', o, s') => Some (l ++ l', o, s')
                | None => None
                end
            end
        end in
      match p with
      | Return v => Some ([], Value v, s)
      | Throw => Some ([], Thrown, s)
      | Emit e k => match exec fuel s k with Some (l, o, s') => Some (e :: l, o, s') | None => None end
      | Super a k =>
          match s with
          | None => Some ([], Thrown, s)
          | Some (c, m) => called (super_method (c, m)) m a k
          end
      | Call m a k => called (resolve h this m) m a k
      | Try p k =>
          match exec fuel s p with
          | None => None
          | Some (l, _, s') =>
              match exec fuel s' k with Some (l', o, s'') => Some (l ++ l', o, s'') | None => None end
          end
      end
  end.
End runs.

(** ** [$.widget] *)

(** The constructors, and those that are found under a name. *)
Record registry := mk_registry { ctors : heap; found : gmap string nat }.
#[export] Instance registry_eta : Settable registry := fun r => mk_registry (ctors r) (found r).

Definition set_children (l : option (list nat)) (c : nat) (r : registry) : registry :=
  r <| ctors := alter (fun x => x <| children := l |>) c (ctors r) |>.

(** The constructor, before the children are looked at. *)
Definition construct (n : string) (b : nat) (p : proto) (existing : bool) (r : registry) : ctor :=
  let bx := default (mk_ctor "" None (mk_proto [] [] None) [] "" None) (ctors r !! b) in
  mk_ctor n (Some b) p
    (extend1 (copy_fields (options bx)) (WObj (p_options p)))
    (default (if existing then prefix bx else n) (p_prefix p)) (Some []).

(** [$.widget(n, b, p)]; [None] when it throws or the fuel is used up. *)
Fixpoint widget (fuel : nat) (n : string) (b : nat) (p : proto) (r : registry) : option registry :=
  match fuel with
  | O => None
  | S fuel =>
      let existing := found r !! n in
      let new := length (ctors r) in
      let r1 := r <| ctors := ctors r ++ [construct n b p (bool_decide (is_Some existing)) r] |> <| found := <[n := new]> (found r) |> in
      match existing with
      | Some e =>
          x ← ctors r !! e;
          r2 ← fold_left (fun (r : option registry) child =>
                 r ← r; y ← ctors r !! child; widget fuel (name y) new (own y) r) (default [] (children x)) (Some r1);
          Some (set_children None e r2)
      | None =>
          x ← ctors r !! b;
          l ← children x;
          Some (set_children (Some (l ++ [new])) b r1)
      end
  end.

(** [$.Widget] alone. *)
Definition no_widgets : registry :=
  mk_registry [mk_ctor "widget" None (mk_proto [] [] None) [("disabled", WBool false); ("create", WNull)] "" (Some [])] ∅.
End Class.
