(* ===== verification/ClassFlow.v ===== *)
(** * Widget factory of jQuery UI: classes, their properties

    [this._super] is as good as a call that names the base class, as long as no exception
    is caught; a class that is redefined passes on to the classes that inherit from it. *)

From S2P Require Export UiClass.
Import Class.

Section runs.
Context (h : heap) (this : nat).

(** ** What is meant

    A run in which the base method is known from where the body stands. *)
Fixpoint meaning (fuel : nat) (here : option super) (p : prog) : option (list string * outcome) :=
  match fuel with
  | O => None
  | S fuel =>
      let called (f : option (nat * method)) (m : string) (a : Z) (k : Z -> prog) :=
        match f with
        | None => Some ([], Thrown)
        | Some (c, f) =>
            match meaning fuel (Some (c, m)) (f a) with
            | None => None
            | Some (l, Thrown) => Some (l, Thrown)
            | Some (l, Value v) =>
                match meaning fuel here (k v) with Some (l', o) => Some (l ++ l', o) | None => None end
            end
        end in
      match p with
      | Return v => Some ([], Value v)
      | Throw => Some ([], Thrown)
      | Emit e k => match meaning fuel here k with Some (l, o) => Some (e :: l, o) | None => None end
      | Super a k => match here with None => Some ([], Thrown) | Some s => called (super_method h s) s.2 a k end
      | Call m a k => called (resolve h this m) m a k
      | Try p k =>
          match meaning fuel here p with
          | None => None
          | Some (l, _) => match meaning fuel here k with Some (l', o) => Some (l ++ l', o) | None => None end
          end
      end
  end.

(** No exception is caught; nor is [_super] called, if [root]. *)
Inductive simple (root : bool) : prog -> Prop :=
  | simple_return v : simple root (Return v)
  | simple_throw : simple root Throw
  | simple_emit e k : simple root k -> simple root (Emit e k)
  | simple_super a k : root = false -> (forall v, simple root (k v)) -> simple root (Super a k)
  | simple_call m a k : (forall v, simple root (k v)) -> simple root (Call m a k).

(** Every method of the classes is. *)
Definition simple_heap : Prop :=
  forall c x m f, h !! c = Some x -> method_in m (p_methods (own x)) = Some f -> forall a, simple (negb (is_wrapped h c)) (f a).

Lemma resolve_own fuel c m b f : resolve_fuel fuel h c m = Some (b, f) ->
  exists x, h !! b = Some x /\ method_in m (p_methods (own x)) = Some f.
Proof.
  revert c. induction fuel as [|fuel IH]; intros c; [done|]. cbn [resolve_fuel].
  destruct (h !! c) as [x|] eqn:Ex; [|done]. cbn [mbind option_bind].
  destruct (method_in m (p_methods (own x))) as [g|] eqn:Em; [intros [= <- <-]; by exists x|].
  destruct (base x); [apply IH|done].
Qed.

(** What [_super] is while a body runs: where it stands, unless the body is one of
    [$.Widget] itself, which does not ask. *)
Definition agrees (root : bool) (s here : option super) : Prop := root = true \/ s = here.

Lemma exec_meaning fuel root s here p :
  simple_heap -> simple root p -> agrees root s here ->
  match meaning fuel here p with
  | None => exec h this fuel s p = None
  | Some (l, o) => exists s', exec h this fuel s p = Some (l, o, s') /\ (forall v, o = Value v -> s' = s)
  end.
Proof.
  intros Hh. revert root s here p. induction fuel as [|fuel IH]; intros root s here p Hp Ha; [done|].
  assert (forall m a k c (f : method), (forall v, simple root (k v)) -> (forall a, simple (negb (is_wrapped h c)) (f a)) ->
    match (match meaning fuel (Some (c, m)) (f a) with
           | None => None
           | Some (l, Thrown) => Some (l, Thrown)
           | Some (l, Value v) => match meaning fuel here (k v) with Some (l', o) => Some (l ++ l', o) | None => None end
           end) with
    | None => (match exec h this fuel (if is_wrapped h c then Some (c, m) else s) (f a) with
               | None => None
               | Some (l, Thrown, s') => Some (l, Thrown, s')
               | Some (l, Value v, s') =>
                   match exec h this fuel (if is_wrapped h c then s else s') (k v) with
                   | Some (l', o, s') => Some (l ++ l', o, s') | None => None end
               end) = None
    | Some (l, o) => exists s', (match exec h this fuel (if is_wrapped h c then Some (c, m) else s) (f a) with
               | None => None
               | Some (l, Thrown, s') => Some (l, Thrown, s')
               | Some (l, Value v, s') =>
                   match exec h this fuel (if is_wrapped h c then s else s') (k v) with
                   | Some (l', o, s') => Some (l ++ l', o, s') | None => None end
               end) = Some (l, o, s') /\ (forall v, o = Value v -> s' = s)
    end) as Hcall.
  { intros m a k c f Hk Hf. pose proof (IH (negb (is_wrapped h c)) (if is_wrapped h c then Some (c, m) else s) (Some (c, m)) (f a) (Hf a)) as H.
    destruct (meaning fuel (Some (c, m)) (f a)) as [[l [v|]]|].
    - destruct H as (s' & E & Es); [destruct (is_wrapped h c); [by right|by left]|]. rewrite E, (Es v eq_refl).
      assert ((if is_wrapped h c then s else if is_wrapped h c then Some (c, m) else s) = s) as -> by by destruct (is_wrapped h c).
      specialize (IH root s here (k v) (Hk v) Ha). destruct (meaning fuel here (k v)) as [[l' o]|].
      + destruct IH as (s2 & -> & E2). by exists s2.
      + by rewrite IH.
    - destruct H as (s' & E & _); [destruct (is_wrapped h c); [by right|by left]|]. rewrite E. by exists s'.
    - rewrite H; [done|]. destruct (is_wrapped h c); [by right|by left]. }
  destruct Hp as [v| |e k Hk|a k Hr Hk|m a k Hk]; cbn [meaning exec].
  - by exists s.
  - by exists s.
  - specialize (IH root s here k Hk Ha). destruct (meaning fuel here k) as [[l o]|]; [|by rewrite IH].
    destruct IH as (s' & -> & E). by exists s'.
  - destruct Ha as [Ha|<-]; [congruence|]. destruct s as [[c m]|]; [|by eexists].
    destruct (super_method h (c, m)) as [[b f]|] eqn:Eb; [|by exists (Some (c, m))]. apply Hcall; [done|].
    intros a'. unfold super_method in Eb. cbn [fst snd] in Eb. destruct (h !! c) as [x|]; [|done]. cbn [mbind option_bind] in Eb. destruct (base x) as [b0|]; [|done]. cbn [mbind option_bind] in Eb.
    destruct (resolve_own _ _ _ _ _ Eb) as (y & Ey & Em). by apply (Hh b y m).
  - destruct (resolve h this m) as [[b f]|] eqn:Eb; [|by exists s]. apply Hcall; [done|].
    destruct (resolve_own _ _ _ _ _ Eb) as (y & Ey & Em). by apply (Hh b y m).
Qed.

(** C4. As long as no method catches exceptions, [this._super] always calls the method of the base of the class in which
    the caller was written, however the calls nest; and it is put back when a method returns. *)
Theorem super_is_base fuel m a k :
  simple_heap -> (forall v, simple false (k v)) ->
  match meaning fuel None (Call m a k) with
  | None => exec h this fuel None (Call m a k) = None
  | Some (l, o) => exists s, exec h this fuel None (Call m a k) = Some (l, o, s) /\ (forall v, o = Value v -> s = None)
  end.
Proof. intros Hh Hk. apply (exec_meaning fuel false); [done|by constructor|by right]. Qed.
End runs.

(** ** Redefinition *)

Definition listed (r : registry) (q c : nat) : Prop :=
  exists x l, ctors r !! q = Some x /\ children x = Some l /\ c ∈ l.
Definition named (r : registry) (c : nat) (n : string) : Prop := exists x, ctors r !! c = Some x /\ name x = n.

(** The registry: the youngest constructor of a name is found; a constructor is listed at
    most once, with a base that is older, and no other one that is listed has its name. *)
Record wf (r : registry) : Prop := {
  w_found : forall n i, found r !! n = Some i -> named r i n;
  w_latest : forall c n, c <> 0%nat -> named r c n -> exists i, found r !! n = Some i /\ (c <= i)%nat;
  w_listed : forall q c, listed r q c -> (q < c)%nat /\ exists n, named r c n;
  w_once : forall q c q' c' n, listed r q c -> listed r q' c' -> named r c n -> named r c' n -> q = q' /\ c = c';
  w_nodup : forall q x l, ctors r !! q = Some x -> children x = Some l -> NoDup l;
}.

(** More constructors, none of them with children, and the others the same but for
    children that are gone. *)
Record extends (r r' : registry) : Prop := {
  e_same : forall i x, ctors r !! i = Some x -> exists x', ctors r' !! i = Some x' /\ name x' = name x /\ base x' = base x /\ own x' = own x;
  e_listed : forall q c, listed r' q c -> listed r q c;
  e_found : forall n i, found r' !! n = Some i -> found r !! n = Some i \/ (length (ctors r) <= i)%nat;
}.

Lemma same_length r r' :
  (forall i x, ctors r !! i = Some x -> exists x', ctors r' !! i = Some x' /\ name x' = name x /\ base x' = base x /\ own x' = own x) ->
  (length (ctors r) <= length (ctors r'))%nat.
Proof.
  intros H. destruct (Nat.le_gt_cases (length (ctors r)) (length (ctors r'))) as [Hle|Hlt]; [done|].
  destruct (lookup_lt_is_Some_2 (ctors r) _ Hlt) as [x Hx]. destruct (H _ x Hx) as (y & Hy & _). apply lookup_lt_Some in Hy. lia.
Qed.

#[local] Instance extends_preorder : PreOrder extends.
Proof.
  split.
  - intros r. split; [|done|by left]. intros i x Hx. by exists x.
  - intros r1 r2 r3 [A B E] [C D F]. split; [|by intros q c H; apply B, D|].
    + intros i x Hx. destruct (A i x Hx) as (y & Hy & ? & ? & ?). destruct (C i y Hy) as (z & Hz & ? & ? & ?). exists z. split_and!; congruence.
    + intros n i [Hi|Hi]%F; [by apply E|]. right. pose proof (same_length r1 r2 A). lia.
Qed.

Lemma extends_named r r' c n : extends r r' -> named r c n -> named r' c n.
Proof. intros H (x & Hx & <-). destruct (e_same _ _ H c x Hx) as (y & Hy & E & _). by exists y. Qed.

Lemma listed_named r q c : wf r -> listed r q c -> exists n, named r c n.
Proof. intros H Hl. by apply (w_listed _ H q). Qed.

Lemma named_unique r c n n' : named r c n -> named r c n' -> n = n'.
Proof. intros (x & Hx & <-) (y & Hy & <-). congruence. Qed.

(** A constructor more, under a name that is found. *)
Lemma add_ctor r n e x0 : wf r -> found r !! n = Some e -> name x0 = n -> children x0 = Some [] ->
  let r1 := r <| ctors := ctors r ++ [x0] |> <| found := <[n := length (ctors r)]> (found r) |> in
  wf r1 /\ extends r r1.
Proof.
  intros Hr He Hn Hc. cbv zeta. set (r1 := r <| ctors := _ |> <| found := _ |>).
  assert (forall i x, ctors r !! i = Some x -> ctors r1 !! i = Some x) as Hold.
  { intros i x Hx. exact (lookup_app_l_Some _ _ _ _ Hx). }
  assert (forall i x, ctors r1 !! i = Some x -> ctors r !! i = Some x \/ i = length (ctors r) /\ x = x0) as Hnew.
  { intros i x Hx. apply lookup_app_Some in Hx as [Hx|[Hi Hx]]; [by left|]. right. destruct (i - length (ctors r))%nat eqn:E; [|done].
    injection Hx as <-. split; [lia|done]. }
  assert (forall q c, listed r1 q c -> listed r q c) as Hl.
  { intros q c (x & l & Hx & El & Hcl). destruct (Hnew q x Hx) as [Hx'|[_ ->]]; [by exists x, l|]. rewrite Hc in El. injection El as <-. by apply not_elem_of_nil in Hcl. }
  assert (forall c m, named r1 c m -> named r c m \/ c = length (ctors r) /\ m = n) as Hm.
  { intros c m (x & Hx & <-). destruct (Hnew c x Hx) as [Hx'|[-> ->]]; [left; by exists x|by right]. }
  assert (forall c m, named r c m -> named r1 c m) as Hm' by (intros c m (x & Hx & <-); exists x; split; [by apply Hold|done]).
  split; [split|].
  - intros m i. change (found r1) with (<[n := length (ctors r)]> (found r)). rewrite lookup_insert_Some. intros [[<- <-]|[_ Hi]].
    + exists x0. split; [|done]. cbn. by rewrite lookup_app_r, Nat.sub_diag by done.
    + by apply Hm', (w_found _ Hr).
  - intros c m Hc0 H. change (found r1) with (<[n := length (ctors r)]> (found r)). destruct (decide (n = m)) as [<-|Hne].
    + exists (length (ctors r)). split; [apply lookup_insert_eq|]. destruct (Hm c n H) as [(x & Hx & _)|[-> _]]; [|done].
      apply lookup_lt_Some in Hx. lia.
    + rewrite lookup_insert_ne by done. destruct (Hm c m H) as [H'|[_ ->]]; [by apply (w_latest _ Hr)|done].
  - intros q c H. destruct (w_listed _ Hr q c (Hl q c H)) as [H1 [m H2]]. split; [done|]. exists m. by apply Hm'.
  - intros q c q' c' m H1 H2 H3 H4. pose proof (w_listed _ Hr q c (Hl q c H1)) as [_ [k Hk]]. pose proof (w_listed _ Hr q' c' (Hl q' c' H2)) as [_ [k' Hk']].
    pose proof (named_unique _ _ _ _ H3 (Hm' _ _ Hk)) as ->. pose proof (named_unique _ _ _ _ H4 (Hm' _ _ Hk')) as ->.
    apply (w_once _ Hr q c q' c' k'); auto.
  - intros q x l Hx El. destruct (Hnew q x Hx) as [Hx'|[_ ->]]; [by apply (w_nodup _ Hr q x)|]. rewrite Hc in El. injection El as <-. constructor.
  - split; [|done|].
    + intros i x Hx. exists x. split; [by apply Hold|done].
    + intros m i. change (found r1) with (<[n := length (ctors r)]> (found r)). rewrite lookup_insert_Some.
      intros [[_ <-]|[_ Hi]]; [by right|by left].
Qed.

(** The children of a constructor are forgotten. *)
Lemma drop_children r e : wf r -> wf (set_children None e r) /\ extends r (set_children None e r).
Proof.
  intros Hr. set (r1 := set_children None e r).
  assert (forall i x, ctors r1 !! i = Some x -> exists y, ctors r !! i = Some y /\ name x = name y /\ (children x = children y \/ children x = None)) as Hold.
  { intros i x. change (ctors r1) with (alter (fun x => x <| children := None |>) e (ctors r)). rewrite list_lookup_alter.
    destruct (decide (e = i)) as [->|]; [|intros Hx; exists x; auto]. destruct (ctors r !! i) as [y|]; [|done]. intros [= <-]. exists y. auto. }
  assert (forall i x, ctors r !! i = Some x -> exists y, ctors r1 !! i = Some y /\ name y = name x /\ base y = base x /\ own y = own x) as Hnew.
  { intros i x Hx. change (ctors r1) with (alter (fun x => x <| children := None |>) e (ctors r)). rewrite list_lookup_alter, ?Hx.
    destruct (decide (e = i)) as [->|]; [rewrite Hx; by exists (x <| children := None |>)|by exists x]. }
  assert (forall q c, listed r1 q c -> listed r q c) as Hl.
  { intros q c (x & l & Hx & El & Hc). destruct (Hold q x Hx) as (y & Hy & _ & [E|E]); [|congruence]. exists y, l. split; [done|]. split; [congruence|done]. }
  assert (forall c m, named r1 c m <-> named r c m) as Hm.
  { intros c m. split; intros (x & Hx & <-); [destruct (Hold c x Hx) as (y & Hy & E & _)|destruct (Hnew c x Hx) as (y & Hy & E & _)]; by exists y. }
  split; [split|split; [done..|by left]].
  - intros m i H. apply Hm, (w_found _ Hr), H.
  - intros c m H0 H. apply (w_latest _ Hr c m H0), Hm, H.
  - intros q c H. destruct (w_listed _ Hr q c (Hl q c H)) as [H1 [m H2]]. split; [done|]. exists m. by apply Hm.
  - intros q c q' c' m H1 H2 H3 H4. apply (w_once _ Hr q c q' c' m); [by apply Hl|by apply Hl|by apply Hm|by apply Hm].
  - intros q x l Hx El. destruct (Hold q x Hx) as (y & Hy & _ & [E|E]); [|congruence]. apply (w_nodup _ Hr q y); [done|congruence].
Qed.

(** The class found under a name has the base [b] and was made from [p]. *)
Definition made (r : registry) (n : string) (b : nat) (p : proto) : Prop :=
  exists i x, found r !! n = Some i /\ ctors r !! i = Some x /\ name x = n /\ base x = Some b /\ own x = p.

Lemma made_extends r r' n b p : extends r r' -> found r' !! n = found r !! n -> made r n b p -> made r' n b p.
Proof.
  intros H E (i & x & Hi & Hx & N & B & O). destruct (e_same _ _ H i x Hx) as (y & Hy & ? & ? & ?). exists i, y. split_and!; congruence.
Qed.

Lemma latest_above r q c n e : wf r -> listed r q c -> named r c n -> found r !! n = Some e -> (q < e)%nat.
Proof.
  intros Hr Hl Hn He. destruct (w_listed _ Hr q c Hl) as [Hq _]. destruct (w_latest _ Hr c n ltac:(lia) Hn) as (i & Hi & Hle).
  rewrite He in Hi. injection Hi as <-. lia.
Qed.

(** The names of the descendants of a constructor: of its children, and of the children of
    what is found under their names. *)
Inductive descends (r : registry) : nat -> string -> Prop :=
  | child_of q c n : listed r q c -> named r c n -> descends r q n
  | child_below q c m i n : listed r q c -> named r c m -> found r !! m = Some i -> descends r i n -> descends r q n.

(** A descendant is a child of a constructor that is not older. *)
Lemma descends_above r q n : wf r -> descends r q n -> exists q' c, (q <= q')%nat /\ listed r q' c /\ named r c n.
Proof.
  intros Hr. induction 1 as [q c n Hl Hn|q c m i n Hl Hn Hi _ (q' & d & Hle & H1 & H2)]; [by exists q, c|].
  exists q', d. split; [|done]. pose proof (latest_above r q c m i Hr Hl Hn Hi). lia.
Qed.

Lemma listed_back r r' q c n : wf r -> extends r r' -> listed r' q c -> named r' c n -> listed r q c /\ named r c n.
Proof.
  intros Hr Hx H1 H2. pose proof (e_listed _ _ Hx q c H1) as H3. split; [done|].
  destruct (w_listed _ Hr q c H3) as [_ [k Hk]]. by rewrite (named_unique _ _ _ _ H2 (extends_named _ _ _ _ Hx Hk)).
Qed.

(** What was added has no descendants. *)
Lemma descends_new r q n : descends r q n -> (q < length (ctors r))%nat.
Proof. destruct 1 as [? ? ? (x & _ & Hx & _)|? ? ? ? ? (x & _ & Hx & _)]; by apply lookup_lt_Some in Hx. Qed.

Lemma descends_back r r' q n : wf r -> extends r r' -> descends r' q n -> descends r q n.
Proof.
  intros Hr Hx. induction 1 as [q c n Hl Hn|q c m i n Hl Hn Hi _ IH]; destruct (listed_back r r' q c _ Hr Hx Hl Hn) as [H1 H2].
  - by apply (child_of r q c).
  - destruct (e_found _ _ Hx m i Hi) as [Hi'|Hi']; [by apply (child_below r q c m i)|].
    apply descends_new in IH. lia.
Qed.

(** What a call of [$.widget] for a name that is found, by the constructor [e], has done. *)
Record redefined (r r' : registry) (n : string) (e b : nat) (p : proto) : Prop := {
  rd_wf : wf r';
  rd_extends : extends r r';
  rd_new : found r' !! n = Some (length (ctors r));
  rd_made : made r' n b p;
  rd_others : forall n', n' <> n -> ~ descends r e n' -> found r' !! n' = found r !! n';
  rd_children : forall c y, listed r e c -> ctors r !! c = Some y -> made r' (name y) (length (ctors r)) (own y);
}.

(** The loop over the children. *)
Section loop.
Context (fuel new e : nat) (n : string) (r r1 : registry).
Context (IH : forall n' b p r' e', wf r' -> extends r1 r' -> found r' !! n' = Some e' -> (e < e')%nat -> (exists c, listed r e c) ->
  exists r'', widget fuel n' b p r' = Some r'' /\ redefined r' r'' n' e' b p).
Context (Hr : wf r) (Hr1 : wf r1) (He : found r !! n = Some e) (Hx : extends r r1).

Lemma children_loop l r2 : NoDup l -> (forall c, c ∈ l -> listed r e c) -> wf r2 -> extends r1 r2 ->
  exists r3, fold_left (fun (r : option registry) child =>
      r ← r; y ← ctors r !! child; widget fuel (name y) new (own y) r) l (Some r2) = Some r3 /\ wf r3 /\ extends r1 r3 /\
    found r3 !! n = found r2 !! n /\
    (forall n', ~ descends r e n' -> found r3 !! n' = found r2 !! n') /\
    (forall n' b p, made r2 n' b p -> (forall c, c ∈ l -> ~ named r c n') ->
      (forall q c, (e < q)%nat -> listed r q c -> ~ named r c n') -> made r3 n' b p) /\
    (forall c y, c ∈ l -> ctors r !! c = Some y -> made r3 (name y) new (own y)).
Proof.
  revert r2. induction l as [|c l IHl]; intros r2 Hnd Hl Hr2 Hx2.
  { exists r2. split_and!; try done. by intros c y ?%not_elem_of_nil. }
  apply NoDup_cons in Hnd as [Hc Hnd]. pose proof (Hl c ltac:(by left)) as Hlc.
  destruct (w_listed _ Hr e c Hlc) as [Hec [m (y & Hy & <-)]].
  assert (extends r r2) as Hxr by by etrans.
  destruct (e_same _ _ Hxr c y Hy) as (y2 & Hy2 & En & _ & Eo).
  destruct (w_latest _ Hr2 c (name y) ltac:(lia)) as (e2 & He2 & Hle); [by exists y2|].
  destruct (IH (name y) new (own y) r2 e2) as (r3 & E3 & R3); [done..|lia|by exists c|].
  pose proof (rd_extends _ _ _ _ _ _ R3) as Hx3.
  destruct (IHl r3) as (r4 & E4 & W4 & X4 & F4 & O4 & M4 & C4); [done|by intros d Hd; apply Hl; right|by apply R3|by etrans|].
  assert (forall n', n' <> name y -> ~ descends r e n' -> found r3 !! n' = found r2 !! n') as O3.
  { intros n' Hne Hno. apply (rd_others _ _ _ _ _ _ R3 n' Hne). intros Hd%(descends_back r r2 _ _ Hr Hxr). apply Hno.
    destruct (e_found _ _ Hxr (name y) e2 He2) as [H2|H2]; [|apply descends_new in Hd; lia].
    apply (child_below r e c (name y) e2); [done|by exists y|done|done]. }
  assert (forall n', n' <> name y -> (forall q d, (e < q)%nat -> listed r q d -> ~ named r d n') -> found r3 !! n' = found r2 !! n') as O3'.
  { intros n' Hne Hno. apply (rd_others _ _ _ _ _ _ R3 n' Hne). intros (q & d & Hq & H1 & H2)%(descends_above r2 _ _ Hr2).
    destruct (listed_back r r2 q d n' Hr Hxr H1 H2) as [H3 H4]. by apply (Hno q d ltac:(lia) H3). }
  assert (forall q d, (e <= q)%nat -> listed r q d -> named r d n -> False) as Hnn.
  { intros q d Hq H1 H2. pose proof (latest_above r q d n e Hr H1 H2 He). lia. }
  exists r4. split_and!.
  - cbn [fold_left mbind option_bind]. rewrite Hy2. cbn [mbind option_bind]. by rewrite En, Eo, E3.
  - done.
  - done.
  - rewrite F4. apply O3'.
    + intros ->. apply (Hnn e c); [done|done|by exists y].
    + intros q d Hq H1 H2. by apply (Hnn q d ltac:(lia)).
  - intros n' Hno. rewrite O4 by done. apply O3; [|done].
    intros ->. apply Hno. apply (child_of r e c); [done|by exists y].
  - intros n' b p Hm Hno1 Hno2. apply M4; [|by intros d Hd; apply Hno1; right|done]. apply (made_extends r2); [done| |done]. apply O3'; [|done].
    intros ->. apply (Hno1 c); [by left|by exists y].
  - intros d z Hd Hz. apply elem_of_cons in Hd as [->|Hd]; [|by apply (C4 d)]. rewrite Hy in Hz. injection Hz as <-.
    apply M4; [by apply R3|..].
    + intros d Hd Hn. destruct (w_once _ Hr e c e d (name y)) as [_ <-]; [done|by apply Hl; right|by exists y|done|done].
    + intros q d Hq H1 Hn. destruct (w_once _ Hr e c q d (name y)) as [<- _]; [done|done|by exists y|done|lia].
Qed.
End loop.

Lemma construct_made n b p ex r : name (construct n b p ex r) = n /\ base (construct n b p ex r) = Some b /\ own (construct n b p ex r) = p /\
  children (construct n b p ex r) = Some [].
Proof. done. Qed.

Lemma widget_redefines fuel K n b p r e :
  wf r -> (forall q c, listed r q c -> (q < K)%nat) -> found r !! n = Some e -> (K - e < fuel)%nat ->
  exists r', widget fuel n b p r = Some r' /\ redefined r r' n e b p.
Proof.
  revert n b p r e. induction fuel as [|fuel IH]; intros n b p r e Hr HK He Hf; [lia|].
  cbn [widget]. rewrite He. set (x0 := construct n b p _ r). set (r1 := r <| ctors := _ |> <| found := _ |>).
  destruct (add_ctor r n e x0 Hr He eq_refl eq_refl) as [Hr1 Hx1]. fold r1 in Hr1, Hx1.
  destruct (w_found _ Hr n e He) as (x & Ex & _). rewrite Ex. cbn [mbind option_bind].
  assert (forall c, c ∈ default [] (children x) -> listed r e c) as Hl.
  { intros c Hc. destruct (children x) as [l|] eqn:El; [by exists x, l|by apply not_elem_of_nil in Hc]. }
  assert (made r1 n b p) as Hm.
  { exists (length (ctors r)), x0. split; [apply lookup_insert_eq|]. split; [|done]. cbn. by rewrite lookup_app_r, Nat.sub_diag by done. }
  destruct (children_loop fuel (length (ctors r)) e n r r1) with (l := default [] (children x)) (r2 := r1) as (r3 & E3 & W3 & X3 & F3 & O3 & M3 & C3); try done.
  - intros n' b' p' r' e' H1 H2 H3 H4 [c Hc]. apply (IH n' b' p' r' e' H1); [|done|].
    + intros q d Hq. apply (HK q d). apply (e_listed _ _ Hx1), (e_listed _ _ H2), Hq.
    + pose proof (HK e c Hc). lia.
  - destruct (children x) as [l|] eqn:El; [by apply (w_nodup _ Hr e x)|constructor].
  - rewrite E3. cbn [mbind option_bind]. destruct (drop_children r3 e W3) as [W4 X4]. exists (set_children None e r3). split; [done|].
    assert (forall m, found (set_children None e r3) !! m = found r3 !! m) as Ef by done.
    split.
    + done.
    + etrans; [exact Hx1|]. by etrans.
    + rewrite Ef, F3. apply lookup_insert_eq.
    + apply (made_extends r3); [done|done|]. apply M3; [done|..].
      * intros c Hc Hn. pose proof (latest_above r e c n e Hr (Hl c Hc) Hn He). lia.
      * intros q c Hq H1 H2. pose proof (latest_above r q c n e Hr H1 H2 He). lia.
    + intros n' Hne Hno. rewrite Ef, O3 by done. by apply lookup_insert_ne.
    + intros c y (x' & l & Ex' & El & Hc) Hy. apply (made_extends r3); [done|done|]. apply (C3 c y); [|done].
      rewrite Ex in Ex'. injection Ex' as <-. by rewrite El.
Qed.

(** A name that is new: the base gets a child more. *)
Lemma widget_defines fuel n b p r r' :
  wf r -> found r !! n = None -> widget (S fuel) n b p r = Some r' -> wf r'.
Proof.
  intros Hr Hn. cbn [widget]. rewrite Hn. set (x0 := construct n b p _ r). set (new := length (ctors r)).
  destruct (ctors r !! b) as [x|] eqn:Ex; [|done]. cbn [mbind option_bind]. destruct (children x) as [l|] eqn:El; [|done].
  cbn [mbind option_bind]. intros [= <-]. set (r1 := set_children _ b _).
  assert (b < new)%nat as Hb by (by apply lookup_lt_Some in Ex).
  assert (forall i y, ctors r1 !! i = Some y -> i = new /\ y = x0 \/
    exists z, ctors r !! i = Some z /\ name y = name z /\ (i <> b /\ children y = children z \/ i = b /\ children y = Some (l ++ [new]))) as Hold.
  { intros i y. change (ctors r1) with (alter (fun x => x <| children := Some (l ++ [new]) |>) b (ctors r ++ [x0])). rewrite list_lookup_alter.
    destruct (decide (b = i)) as [<-|Hne].
    - rewrite (lookup_app_l_Some _ _ _ _ Ex). intros [= <-]. right. exists x. split; [done|]. split; [done|by right].
    - intros [H|[Hi H]]%lookup_app_Some; [right; exists y; auto|]. destruct (i - length (ctors r))%nat eqn:E; [|done]. injection H as <-. left. split; [unfold new; lia|done]. }
  assert (forall c m, named r c m -> named r1 c m) as Hm'.
  { intros c m (y & Hy & <-). unfold named. change (ctors r1) with (alter (fun x => x <| children := Some (l ++ [new]) |>) b (ctors r ++ [x0])).
    rewrite list_lookup_alter. destruct (decide (b = c)) as [->|]; rewrite (lookup_app_l_Some _ _ _ _ Hy); by eexists. }
  assert (forall c m, named r1 c m -> named r c m \/ c = new /\ m = n) as Hm.
  { intros c m (y & Hy & <-). destruct (Hold c y Hy) as [[-> ->]|(z & Hz & -> & _)]; [by right|left; by exists z]. }
  assert (named r1 new n) as Hnew.
  { exists x0. split; [|done]. change (ctors r1) with (alter (fun x => x <| children := Some (l ++ [new]) |>) b (ctors r ++ [x0])).
    rewrite list_lookup_alter, decide_False by lia. unfold new. by rewrite lookup_app_r, Nat.sub_diag by done. }
  assert (forall q c, listed r1 q c -> listed r q c \/ q = b /\ c = new) as Hl.
  { intros q c (y & l' & Hy & El' & Hc). destruct (Hold q y Hy) as [[-> ->]|(z & Hz & _ & [[_ E]|[-> E]])].
    - injection El' as <-. by apply not_elem_of_nil in Hc.
    - left. exists z, l'. split; [done|]. split; [congruence|done].
    - rewrite E in El'. injection El' as <-. apply elem_of_app in Hc as [Hc|Hc%list_elem_of_singleton]; [|by right].
      left. exists x, l. split_and!; done. }
  assert (forall q c m, listed r q c -> named r c m -> m <> n) as Hne.
  { intros q c m H1 H2 ->. destruct (w_listed _ Hr q c H1) as [Hq _]. destruct (w_latest _ Hr c n ltac:(lia) H2) as (i & Hi & _). congruence. }
  assert (forall q c, listed r q c -> c <> new) as Hc0.
  { intros q c H ->. destruct (w_listed _ Hr q new H) as [_ [m (y & Hy & _)]]. apply lookup_lt_Some in Hy. unfold new in Hy. lia. }
  split.
  - intros m i. change (found r1) with (<[n := new]> (found r)). rewrite lookup_insert_Some. intros [[<- <-]|[_ Hi]]; [done|by apply Hm', (w_found _ Hr)].
  - intros c m H0 H. change (found r1) with (<[n := new]> (found r)). destruct (Hm c m H) as [H'|[-> ->]].
    + destruct (w_latest _ Hr c m H0 H') as (i & Hi & Hle). exists i. split; [|done]. rewrite lookup_insert_ne; [done|congruence].
    + exists new. split; [apply lookup_insert_eq|done].
  - intros q c H. destruct (Hl q c H) as [H'|[-> ->]]; [|by split; [|exists n]].
    destruct (w_listed _ Hr q c H') as [Hq [m Hcm]]. split; [done|]. exists m. by apply Hm'.
  - intros q c q' c' m H1 H2 H3 H4. destruct (Hl q c H1) as [H1'|[-> ->]], (Hl q' c' H2) as [H2'|[-> ->]]; [| | |done].
    + destruct (w_listed _ Hr q c H1') as [_ [k Hk]], (w_listed _ Hr q' c' H2') as [_ [k' Hk']].
      pose proof (named_unique _ _ _ _ H3 (Hm' _ _ Hk)) as ->. pose proof (named_unique _ _ _ _ H4 (Hm' _ _ Hk')) as ->.
      by apply (w_once _ Hr q c q' c' k').
    + exfalso. destruct (w_listed _ Hr q c H1') as [_ [k Hk]]. pose proof (named_unique _ _ _ _ H3 (Hm' _ _ Hk)) as ->.
      pose proof (named_unique _ _ _ _ H4 Hnew) as ->. by apply (Hne q c n).
    + exfalso. destruct (w_listed _ Hr q' c' H2') as [_ [k Hk]]. pose proof (named_unique _ _ _ _ H4 (Hm' _ _ Hk)) as ->.
      pose proof (named_unique _ _ _ _ H3 Hnew) as ->. by apply (Hne q' c' n).
  - intros q y l' Hy El'. destruct (Hold q y Hy) as [[-> ->]|(z & Hz & _ & [[_ E]|[-> E]])].
    + injection El' as <-. constructor.
    + apply (w_nodup _ Hr q z); [done|congruence].
    + rewrite E in El'. injection El' as <-. apply NoDup_app. split; [by apply (w_nodup _ Hr b x)|]. split; [|apply NoDup_singleton].
      intros c Hc ->%list_elem_of_singleton. apply (Hc0 b new); [|done]. by exists x, l.
Qed.

(** The fuel of a call. *)
Definition define (n : string) (b : nat) (p : proto) (r : registry) : option registry := widget (S (length (ctors r))) n b p r.

Definition define_all (l : list (string * nat * proto)) : option registry :=
  fold_left (fun r d => r ← r; define d.1.1 d.1.2 d.2 r) l (Some no_widgets).

Lemma define_redefines n b p r e : wf r -> found r !! n = Some e -> exists r', define n b p r = Some r' /\ redefined r r' n e b p.
Proof.
  intros Hr He. apply (widget_redefines _ (length (ctors r))); [done| |done|lia]. intros q c H.
  destruct (w_listed _ Hr q c H) as [Hq [m (x & Hx & _)]]. apply lookup_lt_Some in Hx. lia.
Qed.

Lemma no_widgets_wf : wf no_widgets.
Proof.
  assert (forall q c, ~ listed no_widgets q c) as H.
  { intros [|q] c (x & l & Hx & El & Hc); [|done]. injection Hx as <-. injection El as <-. by apply not_elem_of_nil in Hc. }
  split.
  - done.
  - by intros [|c] n Hc (x & Hx & _).
  - by intros q c Hc%H.
  - by intros q c q' c' n Hc%H.
  - intros [|q] x l Hx El; [|done]. injection Hx as <-. injection El as <-. constructor.
Qed.

Lemma define_all_wf l r : define_all l = Some r -> wf r.
Proof.
  unfold define_all. assert (forall r0, wf r0 -> fold_left (fun r d => r ← r; define d.1.1 d.1.2 d.2 r) l (Some r0) = Some r -> wf r) as H;
    [|by apply H, no_widgets_wf].
  induction l as [|[[n b] p] l IH]; intros r0 Hr; cbn [fold_left]; [by intros [= <-]|]. cbn [mbind option_bind fst snd].
  destruct (define n b p r0) as [r1|] eqn:E.
  - apply IH. destruct (found r0 !! n) as [e|] eqn:He; [|by apply (widget_defines (length (ctors r0)) n b p r0)].
    destruct (define_redefines n b p r0 e Hr He) as (r' & E' & R). rewrite E in E'. injection E' as <-. apply R.
  - clear IH. assert (fold_left (fun r d => r ← r; define d.1.1 d.1.2 d.2 r) l None = None) as ->; [|done]. by induction l.
Qed.

(** C18. After any classes were defined, a class can be defined again with any base, and without end to the recursion:
    its name then stands for the new constructor, and every class that is still a child of the old one is made again from
    its own methods and options over the new constructor; no name is touched but those of its descendants:
    of its children, and of the children of what their names stand for. *)
Theorem redefinition_reaches l r n b p e :
  define_all l = Some r -> found r !! n = Some e ->
  exists r', define n b p r = Some r' /\ found r' !! n = Some (length (ctors r)) /\ made r' n b p /\
    (forall c y, listed r e c -> ctors r !! c = Some y -> made r' (name y) (length (ctors r)) (own y)) /\
    (forall n', n' <> n -> ~ descends r e n' -> found r' !! n' = found r !! n').
Proof.
  intros Hl He. destruct (define_redefines n b p r e (define_all_wf l r Hl) He) as (r' & E & R).
  exists r'. split; [done|]. split; [apply R|]. split; [apply R|]. split; [apply R|apply R].
Qed.
