(* ===== verification/ClassRun.v ===== *)
(** * Widget factory of jQuery UI, runs

    The theorems of [OptionsFlow] and [ClassFlow] at options and classes like those of
    the page, and what redefinition and exceptions do to them. *)

From S2P Require Import OptionsFlow.
From S2P Require Import ClassFlow.
Import Options Class.

(** ** Options *)

Definition no_property (v : wval) (k : string) : wval := WUndef.
Definition no_fields (n : nat) : fields := [].

(** Of an accordion. *)
Definition defaults : fields :=
  [("active", WNum 0); ("animate", WObj []); ("collapsible", WBool false);
   ("icons", WObj [("activeHeader", WStr "ui-icon-triangle-1-s"); ("header", WStr "ui-icon-triangle-1-e")]); ("activate", WNull)].

Lemma defaults_wf : OptionsFlow.wf (WObj defaults).
Proof.
  constructor; [apply (bool_decide_unpack _); by vm_compute|].
  repeat (apply List.Forall_cons; [first [by apply wf_other|apply wf_nil|idtac]|]); [|apply List.Forall_nil].
  constructor; [apply (bool_decide_unpack _); by vm_compute|]. by repeat (apply List.Forall_cons; [by apply wf_other|]).
Qed.

Example option_reads_back_witness :
  exists l, option_set no_property no_fields defaults "animate.down.duration" (WNum 1000) = Some l /\
    OptionsFlow.wf (WObj (store l defaults)) /\ option_get no_property no_fields (store l defaults) "animate.down.duration" = Some (WNum 1000) /\
    forall key', apart (split_on "." "animate.down.duration") (split_on "." key') ->
      option_map copy (option_get no_property no_fields (store l defaults) key') = option_map copy (option_get no_property no_fields defaults key').
Proof.
  apply (option_reads_back no_property no_fields defaults "animate.down.duration" (WNum 1000));
    [exact defaults_wf|by vm_compute|by apply wf_other|done|done].
Defined.

Definition given : fields := [("icons", WObj [("header", WStr "ui-icon-plus")]); ("active", WUndef)].

Lemma given_wf : OptionsFlow.wf (WObj given).
Proof.
  constructor; [apply (bool_decide_unpack _); by vm_compute|].
  apply List.Forall_cons; [|apply List.Forall_cons; [by apply wf_other|apply List.Forall_nil]].
  constructor; [apply (bool_decide_unpack _); by vm_compute|]. apply List.Forall_cons; [by apply wf_other|apply List.Forall_nil].
Qed.

Example extend_overrides_witness :
  at_path (WObj (extend defaults [given])) ["icons"; "header"] = WStr "ui-icon-plus" /\
  copy (at_path (WObj (extend defaults [given])) ["icons"; "activeHeader"]) = WStr "ui-icon-triangle-1-s" /\
  copy (at_path (WObj (extend defaults [given])) ["active"]) = WNum 0.
Proof.
  split; [exact (proj1 (extend_overrides defaults given defaults_wf given_wf) ["icons"; "header"] (fun H => ltac:(discriminate H)) (fun H => ltac:(discriminate H)) eq_refl)|].
  split; [exact (proj2 (extend_overrides defaults given defaults_wf given_wf) ["icons"; "activeHeader"] (or_intror (or_introl eq_refl)))|].
  exact (proj2 (extend_overrides defaults given defaults_wf given_wf) ["active"] (or_introl eq_refl)).
Defined.

(** ** A number where an object is expected

    The path cannot be entered: the option is set again to what it was, or the access to
    [undefined] throws when the path goes on. *)
Definition with_number : fields := [("animate", WObj [("down", WNum 300)])].

Example number_stays :
  option_set no_property no_fields with_number "animate.down.easing" (WStr "swing") = Some [("animate", WObj [("down", WNum 300)])] /\
  option_set no_property no_fields with_number "animate.down.easing.name" (WStr "swing") = None.
Proof. by vm_compute. Qed.

(** ** Classes *)

Definition with_methods (l : list (string * method)) : proto := mk_proto l [] None.

(** The mouse, a widget that inherits from it, and one that inherits from that; [_init]
    calls up and another method in turn. *)
Definition mouse : proto := with_methods [("_init", fun a => Emit "mouse" (Return (a + 1))); ("refresh", fun _ => Emit "mouse refresh" (Return 0))].
Definition slider : proto := with_methods
  [("_init", fun a => Emit "slider" (Call "refresh" a (fun _ => Super (2 * a) Return)));
   ("refresh", fun a => Super a (fun _ => Emit "slider refresh" (Return 0)))].
Definition timeline : proto := with_methods [("_init", fun a => Super a (fun v => Emit "timeline" (Super v Return)))].

Definition widgets : option registry := define_all [("mouse", 0%nat, mouse); ("slider", 1%nat, slider); ("timeline", 2%nat, timeline)].
Definition classes : heap := match widgets with Some r => ctors r | None => [] end.

Lemma classes_simple : simple_heap classes.
Proof.
  intros c x m f Hx Hf a. assert (own <$> classes = [mk_proto [] [] None; mouse; slider; timeline]) as H by reflexivity.
  assert ((own <$> classes) !! c = Some (own x)) as Ho by by rewrite list_lookup_fmap, Hx. rewrite H in Ho. clear H Hx.
  destruct c as [|[|[|[|c]]]]; [..|done]; injection Ho as Ho; rewrite <- Ho in Hf; clear Ho; cbn [p_methods method_in mouse slider timeline with_methods fst snd] in Hf;
    repeat match type of Hf with context [if ?b then _ else _] => destruct b; [injection Hf as <-|] end; try discriminate Hf; repeat constructor.
Qed.

Example super_is_base_witness :
  exists s, exec classes 3 9 None (Call "_init" 5 Return) =
    Some (["slider"; "mouse refresh"; "slider refresh"; "mouse"; "timeline"; "slider"; "mouse refresh"; "slider refresh"; "mouse"], Value 23, s) /\
    (forall v, Value 23 = Value v -> s = None).
Proof. exact (super_is_base classes 3 9 "_init" 5 Return classes_simple (simple_return false)). Defined.

Definition defined (l : list (string * nat * proto)) : registry := default no_widgets (define_all l).

(** What a name stands for. *)
Definition class_of (r : registry) (n : string) : option (option nat * string * list string) :=
  i ← found r !! n; x ← ctors r !! i; Some (base x, prefix x, (p_methods (own x)).*1).

Definition mouse2 : proto := with_methods [("_mouseStart", fun _ => Return 0)].

Example redefinition_reaches_witness :
  exists r', define "mouse" 1 mouse2 (defined [("mouse", 0%nat, mouse); ("slider", 1%nat, slider)]) = Some r' /\
    found r' !! "mouse" = Some 3%nat /\ made r' "mouse" 1 mouse2 /\
    (forall c y, listed (defined [("mouse", 0%nat, mouse); ("slider", 1%nat, slider)]) 1 c ->
       ctors (defined [("mouse", 0%nat, mouse); ("slider", 1%nat, slider)]) !! c = Some y -> made r' (name y) 3 (own y)) /\
    (forall n', n' <> "mouse" -> ~ descends (defined [("mouse", 0%nat, mouse); ("slider", 1%nat, slider)]) 1 n' ->
       found r' !! n' = found (defined [("mouse", 0%nat, mouse); ("slider", 1%nat, slider)]) !! n').
Proof.
  exact (redefinition_reaches [("mouse", 0%nat, mouse); ("slider", 1%nat, slider)]
    (defined [("mouse", 0%nat, mouse); ("slider", 1%nat, slider)]) "mouse" 1 mouse2 1 eq_refl eq_refl).
Defined.

(** ** Redefined a second time

    The first time the slider is made again over the new mouse; but it is not a child of
    it, so that the second time it stays with the first. *)
Example second_time :
  let once := [("mouse", 0%nat, mouse); ("slider", 1%nat, slider); ("mouse", 1%nat, mouse2)] in
  class_of (defined once) "slider" = Some (Some 3%nat, "mouse", ["_init"; "refresh"]) /\
  found (defined once) !! "mouse" = Some 3%nat /\
  let twice := once ++ [("mouse", 3%nat, mouse2)] in
  class_of (defined twice) "slider" = Some (Some 3%nat, "mouse", ["_init"; "refresh"]) /\
  found (defined twice) !! "mouse" = Some 5%nat.
Proof. by vm_compute. Qed.

(** ** A redefinition that is lost

    The children are kept as they were first defined: when the base is defined again, the
    widget is made from its first methods. *)
Example lost :
  let l := [("mouse", 0%nat, mouse); ("slider", 1%nat, slider); ("slider", 2%nat, timeline)] in
  class_of (defined l) "slider" = Some (Some 2%nat, "slider", ["_init"]) /\
  class_of (defined (l ++ [("mouse", 1%nat, mouse2)])) "slider" = Some (Some 4%nat, "mouse", ["_init"; "refresh"]).
Proof. by vm_compute. Qed.

(** ** The prefix of the events

    Made again over a new base, a widget tells its events with the prefix of the base. *)
Example prefix_changes :
  let l := [("mouse", 0%nat, mouse); ("selectable", 1%nat, timeline)] in
  class_of (defined l) "selectable" = Some (Some 1%nat, "selectable", ["_init"]) /\
  class_of (defined (l ++ [("mouse", 1%nat, mouse2)])) "selectable" = Some (Some 3%nat, "mouse", ["_init"]).
Proof. by vm_compute. Qed.

(** ** An exception that is caught

    The wrapper does not put [_super] back when the body throws: a method that catches
    the exception of another calls the base of that other's class and name. *)
Definition throwing : option registry := define_all
  [("mouse", 0%nat, with_methods [("_init", fun _ => Emit "mouse" (Return 0)); ("refresh", fun _ => Emit "wrong" (Return 0))]);
   ("slider", 1%nat, with_methods
     [("_init", fun _ => Try (Call "refresh" 0 Return) (Super 0 Return)); ("refresh", fun _ => Throw)])].

Example super_is_lost :
  match throwing with
  | Some r => exec (ctors r) 2 9 None (Call "_init" 0 Return) = Some (["wrong"], Value 0, None) /\
              meaning (ctors r) 2 9 None (Call "_init" 0 Return) = Some (["mouse"], Value 0)
  | None => False
  end.
Proof. by vm_compute. Qed.
