(* ===== verification/UiDialog.v ===== *)
(** * jQuery UI dialog

    Models the widget [ui.dialog] of [2019104287/code/WebContent/js/jquery-ui.js]: which
    dialogs are open, the places in depth of dialogs and overlays, the overlays of modal
    dialogs and their reuse, what the document listens to while there is one, and the
    escape key.  Titles, buttons, sizes and positions are left out. *)

From S2P Require Export JsValue.

Module Dialog.

Inductive devent := EvOpen | EvFocus | EvBeforeClose | EvClose.

(** [d_overlay] is the element of [this.overlay], which stays after a close. *)
Record dialog := mk_dialog {
  d_open : bool; d_z : Z; d_overlay : option nat; d_alive : bool;
  o_modal : bool; o_stack : bool; o_zIndex : Z; o_closeOnEscape : bool; o_hide : bool;
}.
#[export] Instance dialog_eta : Settable dialog := fun d =>
  mk_dialog (d_open d) (d_z d) (d_overlay d) (d_alive d) (o_modal d) (o_stack d) (o_zIndex d) (o_closeOnEscape d) (o_hide d).

(** An element that is an overlay. *)
Record overlay := mk_overlay { v_z : Z; v_attached : bool }.
#[export] Instance overlay_eta : Settable overlay := fun v => mk_overlay (v_z v) (v_attached v).

(** What [overlay.create] binds to the document: the key that closes [dialog], if [el] is
    the overlay on top; what cancels the events below the overlays. *)
Inductive handler := KeyClose (dialog el : nat) | Block.
#[global] Instance handler_eq_dec : EqDecision handler.
Proof. solve_decision. Defined.

(** [maxZ] is [$.ui.dialog.maxZ], [v_maxZ] is [$.ui.dialog.overlay.maxZ]; [timers] counts
    the bindings that were put off; [hiding] are dialogs whose hiding is animated. *)
Record page := mk_page {
  dialogs : list dialog; maxZ : Z;
  overlays : list overlay; instances : list nat; oldInstances : list nat; v_maxZ : Z;
  doc : list handler; timers : nat; hiding : list nat; told : list (nat * devent);
}.
#[export] Instance page_eta : Settable page := fun p =>
  mk_page (dialogs p) (maxZ p) (overlays p) (instances p) (oldInstances p) (v_maxZ p) (doc p) (timers p) (hiding p) (told p).

Definition tell (i : nat) (ev : devent) (p : page) : page := p <| told := told p ++ [(i, ev)] |>.
Definition on (i : nat) (f : dialog -> dialog) (p : page) : page := p <| dialogs := alter f i (dialogs p) |>.

Definition z_of (p : page) (e : nat) : Z := match overlays p !! e with Some v => v_z v | None => 0 end.

(** ** Overlays *)

(** [overlay.create]: the last element that is free is used again. *)
Definition create_overlay (i : nat) (p : page) : page * nat :=
  let p := match instances p with [] => p <| timers := S (timers p) |> | _ => p end in
  let reused := last (oldInstances p) in
  let el := default (length (overlays p)) reused in
  let p := match reused with
           | Some _ => p <| oldInstances := removelast (oldInstances p) |>
           | None => p <| overlays := overlays p ++ [mk_overlay 0 false] |>
           end in
  let p := p <| doc := doc p ++ [KeyClose i el] |>
             <| overlays := alter (fun v => v <| v_attached := true |>) el (overlays p) |>
             <| instances := instances p ++ [el] |> in
  (p, el).

(** The call that [create_overlay] put off. *)
Definition bind_events (p : page) : page :=
  match timers p with
  | O => p
  | S n =>
      let p := p <| timers := n |> in
      match instances p with [] => p | _ => p <| doc := doc p ++ [Block] |> end
  end.

(** The first occurrence is taken out. *)
Fixpoint take_out (e : nat) (l : list nat) : list nat :=
  match l with
  | [] => []
  | x :: l => if decide (x = e) then l else x :: take_out e l
  end.

(** [overlay.destroy]. *)
Definition destroy_overlay (e : nat) (p : page) : page :=
  let p := if decide (e ∈ instances p)
           then p <| oldInstances := oldInstances p ++ [e] |> <| instances := take_out e (instances p) |> else p in
  let p := match instances p with [] => p <| doc := [] |> | _ => p end in
  let p := p <| overlays := alter (fun v => v <| v_attached := false |>) e (overlays p) |> in
  p <| v_maxZ := fold_left (fun m x => Z.max m (z_of p x)) (instances p) 0 |>.

(** ** Dialogs *)

Section dialog.
(** Whether the page lets a dialog close. *)
Context (allow : nat -> bool).

Definition set_overlay_z (v : option nat) (p : page) : page :=
  match v with
  | Some e =>
      let p := p <| maxZ := maxZ p + 1 |> in
      p <| v_maxZ := maxZ p |> <| overlays := alter (fun v => v <| v_z := maxZ p |>) e (overlays p) |>
  | None => p
  end.

(** [moveToTop]. *)
Definition moveToTop (force : bool) (i : nat) (p : page) : page :=
  match dialogs p !! i with
  | None => p
  | Some d =>
      if (o_modal d && negb force) || (negb (o_stack d) && negb (o_modal d)) then tell i EvFocus p
      else
        let p := if maxZ p <? o_zIndex d then p <| maxZ := o_zIndex d |> else p in
        let p := set_overlay_z (d_overlay d) p in
        let p := p <| maxZ := maxZ p + 1 |> in
        tell i EvFocus (on i (fun d => d <| d_z := maxZ p |>) p)
  end.

(** [open]. *)
Definition open (i : nat) (p : page) : page :=
  match dialogs p !! i with
  | None => p
  | Some d =>
      if d_open d then p
      else
        let r := if o_modal d then let r := create_overlay i p in (r.1, Some r.2) else (p, None) in
        let p := on i (fun d => d <| d_overlay := r.2 |>) r.1 in
        let p := moveToTop true i p in
        tell i EvOpen (on i (fun d => d <| d_open := true |>) p)
  end.

(** The greatest place in depth of the other dialogs of the document. *)
Definition others_z (i : nat) (p : page) : Z :=
  foldr Z.max 0 (imap (fun j d => if decide (i = j) then 0 else if d_alive d then d_z d else 0) (dialogs p)).

(** [close]. *)
Definition close (i : nat) (p : page) : page :=
  match dialogs p !! i with
  | None => p
  | Some d =>
      if negb (d_open d) then p
      else
        let p := tell i EvBeforeClose p in
        if negb (allow i) then p
        else
          let p := on i (fun d => d <| d_open := false |>) p in
          let p := match d_overlay d with Some e => destroy_overlay e p | None => p end in
          let p := if o_hide d then p <| hiding := hiding p ++ [i] |> else tell i EvClose p in
          if o_modal d then p <| maxZ := others_z i p |> else p
  end.

(** The animated hiding of a dialog ends. *)
Definition hidden (i : nat) (p : page) : page :=
  if decide (i ∈ hiding p) then tell i EvClose (p <| hiding := take_out i (hiding p) |>) else p.

Definition destroy (i : nat) (p : page) : page :=
  match dialogs p !! i with
  | None => p
  | Some d =>
      let p := match d_overlay d with Some e => destroy_overlay e p | None => p end in
      on i (fun d => d <| d_alive := false |> <| d_open := false |>) p
  end.

(** [_create] and [_init]. *)
Definition create (modal stack : bool) (zIndex : Z) (closeOnEscape hide autoOpen : bool) (p : page) : page :=
  let i := length (dialogs p) in
  let p := p <| dialogs := dialogs p ++ [mk_dialog false zIndex None true modal stack zIndex closeOnEscape hide] |> in
  if autoOpen then open i p else p.

(** ** Events *)

(** The place in depth of an element: in a dialog, or outside of all. *)
Definition target_z (t : option nat) (p : page) : Z :=
  match t with
  | Some i => match dialogs p !! i with Some d => d_z d | None => 0 end
  | None => 0
  end.

(** One handler of the document at the escape key, and whether it was prevented. *)
Definition key_step (t : option nat) (r : page * bool) (h : handler) : page * bool :=
  let '(p, prevented) := r in
  match h with
  | Block => (p, prevented || (target_z t p <? v_maxZ p))
  | KeyClose i el =>
      match dialogs p !! i with
      | Some d =>
          if bool_decide (last (instances p) = Some el) && o_closeOnEscape d && negb prevented
          then (close i p, true) else (p, prevented)
      | None => (p, prevented)
      end
  end.

(** The escape key with the focus at [t]: first the dialog the focus is in, then the
    handlers of the document that were bound when the key was pressed. *)
Definition escape (t : option nat) (p : page) : page :=
  let r := match t with
           | Some i => match dialogs p !! i with
                       | Some d => if d_alive d && o_closeOnEscape d then (close i p, true) else (p, false)
                       | None => (p, false)
                       end
           | None => (p, false)
           end in
  (fold_left (key_step t) (doc r.1) r).1.

(** What is done at an element of this place is cancelled. *)
Definition blocked (z : Z) (p : page) : bool := bool_decide (Block ∈ doc p) && (z <? v_maxZ p).

Inductive doption := OModal (b : bool) | OStack (b : bool) | OZIndex (z : Z) | OCloseOnEscape (b : bool) | OHide (b : bool).

Definition setOption (o : doption) (i : nat) (p : page) : page :=
  on i (fun d => match o with
                 | OModal b => d <| o_modal := b |>
                 | OStack b => d <| o_stack := b |>
                 | OZIndex z => d <| o_zIndex := z |>
                 | OCloseOnEscape b => d <| o_closeOnEscape := b |>
                 | OHide b => d <| o_hide := b |>
                 end) p.

Inductive daction :=
  | Create (modal stack : bool) (zIndex : Z) (closeOnEscape hide autoOpen : bool)
  | Open (i : nat) | Close (i : nat) | MoveToTop (i : nat) | Escape (t : option nat)
  | SetOption (o : doption) (i : nat) | BindEvents | Hidden (i : nat) | Destroy (i : nat).

Definition alive (i : nat) (p : page) : bool := match dialogs p !! i with Some d => d_alive d | None => false end.

Definition act (a : daction) (p : page) : page :=
  match a with
  | Create modal stack z esc hide auto => create modal stack z esc hide auto p
  | Open i => if alive i p then open i p else p
  | Close i => if alive i p then close i p else p
  | MoveToTop i => if alive i p then moveToTop false i p else p
  | Escape t => escape t p
  | SetOption o i => if alive i p then setOption o i p else p
  | BindEvents => bind_events p
  | Hidden i => hidden i p
  | Destroy i => if alive i p then destroy i p else p
  end.

Definition empty_page : page := mk_page [] 0 [] [] [] 0 [] 0 [] [].
End dialog.
End Dialog.
