(* ===== verification/DialogFlow.v ===== *)
(** * jQuery UI dialog, its properties

    The modal dialogs that are open lie on each other in the order in which they were
    opened, each over its own overlay; only the one on top can be used; an escape key
    closes one dialog at most. *)

From S2P Require Export UiDialog.
Import Dialog.

(** ** Layers *)

(** Overlays and dialogs, from below: each above the one before. *)
Fixpoint ordered (lo : Z) (l : list (Z * Z)) : Prop :=
  match l with
  | [] => True
  | (v, d) :: l => lo < v /\ v < d /\ ordered d l
  end.

Lemma ordered_mono lo lo' l : lo' <= lo -> ordered lo l -> ordered lo' l.
Proof. destruct l as [|[v d] l]; cbn; [done|]. intros H (A & B & C). split_and!; [lia|done|done]. Qed.

Lemma ordered_drop lo l1 x l2 : ordered lo (l1 ++ x :: l2) -> ordered lo (l1 ++ l2).
Proof.
  revert lo. induction l1 as [|[v d] l1 IH]; intros lo; cbn.
  - destruct x as [v d]. intros (A & B & C). by apply (ordered_mono d); [lia|].
  - intros (A & B & C). split_and!; [done|done|by apply IH].
Qed.

Lemma ordered_snoc lo l v d m :
  ordered lo l -> lo <= m -> Forall (fun x => x.2 <= m) l -> m < v -> v < d -> ordered lo (l ++ [(v, d)]).
Proof.
  intros Ho Hlo Hl Hv Hd. revert lo Ho Hlo. induction Hl as [|[v' d'] l Hx _ IH]; intros lo Ho Hlo; cbn in *.
  - split_and!; [lia|done|done].
  - destruct Ho as (A & B & C). split_and!; [done|done|by apply IH].
Qed.

Lemma ordered_above lo l : ordered lo l -> Forall (fun x => lo < x.1 /\ x.1 < x.2) l.
Proof.
  revert lo. induction l as [|[v d] l IH]; intros lo; cbn; [constructor|]. intros (A & B & C). constructor; [done|].
  eapply Forall_impl; [by apply IH|]. intros [v' d'] [D E]. cbn in *. lia.
Qed.

(** All but the last lie below the last overlay. *)
Lemma ordered_last lo l x : ordered lo (l ++ [x]) -> Forall (fun y => y.2 < x.1 /\ y.1 < x.1) l.
Proof.
  revert lo. induction l as [|[v d] l IH]; intros lo; cbn; [constructor|]. intros (A & B & C). constructor; [|by apply (IH d)].
  cbn. apply ordered_above in C. apply Forall_app in C as [_ C]. apply Forall_cons in C as [C _]. lia.
Qed.

(** ** The stack *)

Definition dz (p : page) (i : nat) : Z := match dialogs p !! i with Some d => d_z d | None => 0 end.
Definition layer (p : page) (x : nat * nat) : Z * Z := (z_of p x.2, dz p x.1).

Definition is_open_modal (d : dialog) : bool := d_open d && o_modal d && d_alive d.
Definition open_modal (p : page) (i : nat) : Prop := exists d, dialogs p !! i = Some d /\ is_open_modal d = true.

Definition attached (p : page) (e : nat) : Prop := exists v, overlays p !! e = Some v /\ v_attached v = true.

(** What holds of a page with the open modal dialogs and overlays [st], from below. *)
Record stacked (p : page) (st : list (nat * nat)) : Prop := {
  st_nodup : NoDup st.*1;
  st_open : forall i, open_modal p i <-> i ∈ st.*1;
  st_own : forall i e d, (i, e) ∈ st -> dialogs p !! i = Some d -> d_overlay d = Some e;
  st_instances : instances p = st.*2;
  st_fresh : NoDup (instances p ++ oldInstances p);
  st_known : forall e, e ∈ instances p ++ oldInstances p -> (e < length (overlays p))%nat;
  st_attached : forall e, attached p e <-> e ∈ instances p;
  st_order : ordered 0 (layer p <$> st);
  st_top : v_maxZ p = default 0 (z_of p <$> last (instances p));
  st_max : 0 <= maxZ p /\ Forall (fun x => dz p x.1 <= maxZ p) st;
  st_block : instances p <> [] -> Block ∈ doc p \/ (0 < timers p)%nat;
  st_plain : forall i d, dialogs p !! i = Some d -> o_modal d = false -> d_overlay d = None;
  st_dead : forall i d, dialogs p !! i = Some d -> d_open d = true -> d_alive d = true;
}.

Definition good (p : page) : Prop := exists st, stacked p st.

Lemma empty_good : stacked empty_page [].
Proof.
  assert (forall e : nat, ~ e ∈ ([] : list nat)) as Hno by by intros e ?%not_elem_of_nil.
  split; cbn; try done; try (by constructor).
  - intros i. split; [by intros (d & Hd & _)|by intros ?%Hno].
  - by intros e ?%Hno.
  - intros e. split; [by intros (v & Hv & _)|by intros ?%Hno].
Qed.

(** Pages that look the same to the stack. *)
Definition view (d : dialog) : bool * bool * option nat := (is_open_modal d, o_modal d, d_overlay d).

Lemma view_modal p p' i : option_map view (dialogs p' !! i) = option_map view (dialogs p !! i) -> open_modal p' i <-> open_modal p i.
Proof.
  intros H. unfold open_modal. split; intros (d & Hi & Ho); rewrite Hi in H.
  - destruct (dialogs p !! i) as [d0|]; [|done]. injection H as H1 _ _. exists d0. by rewrite <- H1.
  - destruct (dialogs p' !! i) as [d0|]; [|done]. injection H as H1 _ _. exists d0. by rewrite H1.
Qed.

Lemma stacked_same p p' st :
  (forall i, option_map view (dialogs p' !! i) = option_map view (dialogs p !! i)) ->
  (forall i d, dialogs p' !! i = Some d -> d_open d = true -> d_alive d = true) ->
  (forall x, x ∈ st -> dz p' x.1 = dz p x.1) ->
  overlays p' = overlays p -> instances p' = instances p -> oldInstances p' = oldInstances p -> v_maxZ p' = v_maxZ p ->
  (instances p <> [] -> Block ∈ doc p \/ (0 < timers p)%nat -> Block ∈ doc p' \/ (0 < timers p')%nat) -> maxZ p <= maxZ p' ->
  stacked p st -> stacked p' st.
Proof.
  intros Hd Hop Hz Eo Ei Eold Ev Hb Em [A B C D E F G H I [J1 J2] K L M].
  assert (forall i d', dialogs p' !! i = Some d' -> exists d, dialogs p !! i = Some d /\ view d = view d') as Hback.
  { intros i d' Hi. specialize (Hd i). rewrite Hi in Hd. destruct (dialogs p !! i) as [d|]; [|done]. exists d. split; [done|]. cbn in Hd. congruence. }
  assert (forall e, z_of p' e = z_of p e) as Hze by (intros e; unfold z_of; by rewrite Eo).
  split; rewrite ?Eo, ?Ei, ?Eold, ?Ev; try done.
  - intros i. rewrite <- B. apply view_modal, Hd.
  - intros i e d' Hin Hi. destruct (Hback i d' Hi) as (d & Hd0 & Hv). unfold view in Hv. injection Hv as _ _ <-. by apply (C i).
  - intros e. unfold attached. rewrite Eo. apply G.
  - erewrite list_fmap_ext; [exact H|]. intros k x Hx. apply list_elem_of_lookup_2 in Hx. unfold layer. by rewrite Hze, Hz.
  - rewrite I. f_equal. destruct (last (instances p)); [|done]. cbn. by rewrite Hze.
  - split; [lia|]. apply Forall_forall. intros x Hx. rewrite Hz by done. rewrite Forall_forall in J2. specialize (J2 x Hx). lia.
  - intros Hne. apply Hb; [done|by apply K].
  - intros i d' Hi Hm. destruct (Hback i d' Hi) as (d & Hd0 & Hv). unfold view in Hv. injection Hv as _ Hv <-. apply (L i d Hd0). congruence.
Qed.

Lemma dialog_lookup i f p j : dialogs (on i f p) !! j = if decide (i = j) then f <$> dialogs p !! j else dialogs p !! j.
Proof. unfold on. cbn. rewrite list_lookup_alter. destruct (decide (i = j)) as [->|]; done. Qed.

Lemma tell_stacked i ev p st : stacked p st -> stacked (tell i ev p) st.
Proof. intros H. apply (stacked_same p); try done. apply (st_dead _ _ H). Qed.

(** A dialog changed in what the stack does not see. *)
Lemma on_stacked i f p st :
  (forall d, dialogs p !! i = Some d -> view (f d) = view d /\ (d_open (f d) = true -> d_alive (f d) = true)) ->
  (forall e, (i, e) ∈ st -> forall d, d_z (f d) = d_z d) ->
  stacked p st -> stacked (on i f p) st.
Proof.
  intros Hf Hz H. apply (stacked_same p); try done.
  - intros j. rewrite dialog_lookup. destruct (decide (i = j)) as [<-|]; [|done]. destruct (dialogs p !! i) as [d|] eqn:Ed; [|done].
    cbn. f_equal. by apply Hf.
  - intros j d. rewrite dialog_lookup. destruct (decide (i = j)) as [<-|]; [|apply (st_dead _ _ H)].
    destruct (dialogs p !! i) as [d0|] eqn:Ed; [|done]. intros [= <-]. by apply Hf.
  - intros [j e] Hx. unfold dz. cbn [fst]. rewrite dialog_lookup. destruct (decide (i = j)) as [<-|]; [|done].
    destruct (dialogs p !! i); [|done]. cbn. by apply (Hz e).
Qed.

(** ** Closing *)

Lemma take_out_app e l1 l2 : e ∉ l1 -> take_out e (l1 ++ e :: l2) = l1 ++ l2.
Proof.
  induction l1 as [|x l1 IH]; cbn; [by rewrite decide_True by done|]. intros [Hne Hin]%not_elem_of_cons.
  rewrite decide_False by congruence. by rewrite IH.
Qed.

Lemma max_is_last lo l : ordered lo l ->
  fold_left (fun m x => Z.max m x) (l.*1) lo = default lo (fst <$> last l).
Proof.
  revert lo. induction l as [|[v d] l IH]; intros lo Ho; [done|]. destruct Ho as (A & B & C).
  cbn [fmap list_fmap fold_left fst]. rewrite Z.max_r by lia. rewrite IH by (apply (ordered_mono d); [lia|done]).
  destruct l as [|y l]; [done|]. change (last ((v, d) :: y :: l)) with (last (y :: l)). destruct (last (y :: l)) eqn:E; [done|]. by apply last_None in E.
Qed.

Lemma last_fmap_list {A B} (f : A -> B) l : last (f <$> l) = f <$> last l.
Proof. induction l as [|x [|y l] IH]; [done|done|exact IH]. Qed.

Lemma top_overlay p st : ordered 0 (layer p <$> st) ->
  fold_left (fun m x => Z.max m (z_of p x)) (st.*2) 0 = default 0 (z_of p <$> last (st.*2)).
Proof.
  intros Ho. pose proof (max_is_last 0 (layer p <$> st) Ho) as H.
  assert ((layer p <$> st).*1 = z_of p <$> st.*2) as E by by rewrite <- !list_fmap_compose.
  rewrite E in H. assert (fst <$> last (layer p <$> st) = z_of p <$> last (st.*2)) as E2.
  { rewrite !last_fmap_list. by destruct (last st). }
  rewrite E2 in H. rewrite <- H. clear. generalize (st.*2) as l, 0. induction l as [|x l IH]; intros m; [done|]. apply IH.
Qed.

Lemma destroy_overlay_facts e p : e ∈ instances p ->
  let p' := destroy_overlay e p in
  dialogs p' = dialogs p /\ maxZ p' = maxZ p /\ overlays p' = alter (fun v => v <| v_attached := false |>) e (overlays p) /\
  instances p' = take_out e (instances p) /\ oldInstances p' = oldInstances p ++ [e] /\
  v_maxZ p' = fold_left (fun m x => Z.max m (z_of p' x)) (instances p') 0 /\
  (instances p' <> [] -> doc p' = doc p) /\ timers p' = timers p.
Proof.
  intros He. cbv zeta. unfold destroy_overlay. rewrite decide_True by done. cbv zeta.
  change (instances (p <| oldInstances := oldInstances p ++ [e] |> <| instances := take_out e (instances p) |>)) with (take_out e (instances p)).
  destruct (take_out e (instances p)) eqn:E; cbn; rewrite ?E; split_and!; done.
Qed.

Lemma z_of_alter f e p x : (forall v, v_z (f v) = v_z v) -> match alter f e (overlays p) !! x with Some v => v_z v | None => 0 end = z_of p x.
Proof. intros Hf. unfold z_of. rewrite list_lookup_alter. destruct (decide (e = x)) as [->|]; [|done]. destruct (overlays p !! x); cbn; by rewrite ?Hf. Qed.

Lemma drop_stacked p f i e l1 l2 :
  stacked p (l1 ++ (i, e) :: l2) ->
  (forall d, d_open (f d) = false /\ o_modal (f d) = o_modal d /\ d_overlay (f d) = d_overlay d) ->
  stacked (on i f (destroy_overlay e p)) (l1 ++ l2).
Proof.
  intros H Hf. pose proof H as [A B C D E F G Ho I [J1 J2] K L M].
  assert (e ∈ instances p) as He by (rewrite D, fmap_app; apply elem_of_app; right; by left).
  destruct (destroy_overlay_facts e p He) as (Ed & Em & Ev & Ei & Eold & Evm & Edoc & Et).
  rewrite fmap_app in A, D. cbn [fmap list_fmap fst snd] in A, D.
  apply NoDup_app in A as (A1 & A2 & A3). apply NoDup_cons in A3 as [A3 A4].
  rewrite D in E. apply NoDup_app in E as (E1 & E2 & E3). apply NoDup_app in E1 as (E4 & E5 & E6). apply NoDup_cons in E6 as [E6 E7].
  assert (e ∉ l1.*2) as He1 by (intros Hin; apply (E5 e Hin); by left).
  rewrite D, take_out_app in Ei by done.
  assert (forall x, z_of (destroy_overlay e p) x = z_of p x) as Hz by (intros x; unfold z_of at 1; rewrite Ev; by apply z_of_alter).
  assert (i ∉ l1.*1) as Hi1 by (intros Hin; apply (A2 i Hin); by left).
  assert (forall x, x ∈ l1 ++ l2 -> x.1 <> i) as Hne.
  { intros x Hx Hxi. apply elem_of_app in Hx as [Hx|Hx]; [apply Hi1|apply A3]; rewrite <- Hxi; apply list_elem_of_fmap_2, Hx. }
  revert Ed Em Ev Ei Eold Evm Edoc Et Hz. generalize (destroy_overlay e p) as q. intros q Ed Em Ev Ei Eold Evm Edoc Et Hz.
  assert (forall x, x ∈ l1 ++ l2 -> layer (on i f q) x = layer p x) as Hlayer.
  { intros x Hx. unfold layer, dz. rewrite dialog_lookup, decide_False, Ed by (intros Hix; by apply (Hne x)). f_equal. exact (Hz x.2). }
  assert (ordered 0 (layer p <$> l1 ++ l2)) as Ho' by (rewrite fmap_app in *; cbn in Ho; by apply ordered_drop in Ho).
  split; change (instances (on i f q)) with (instances q); change (oldInstances (on i f q)) with (oldInstances q);
    change (overlays (on i f q)) with (overlays q); change (v_maxZ (on i f q)) with (v_maxZ q);
    change (maxZ (on i f q)) with (maxZ q); change (doc (on i f q)) with (doc q); change (timers (on i f q)) with (timers q).
  - rewrite fmap_app. apply NoDup_app. split; [done|]. split; [|done]. intros x Hx Hx2. apply (A2 x Hx). by right.
  - intros j. assert (j ∈ (l1 ++ l2).*1 <-> j ∈ (l1 ++ (i, e) :: l2).*1 /\ j <> i) as ->.
    { rewrite !fmap_app. cbn. rewrite !elem_of_app, elem_of_cons. split.
      - intros [Hj|Hj]; (split; [tauto|]); intros ->; tauto.
      - intros [[Hj|[Hj|Hj]] Hji]; tauto. }
    rewrite <- B. unfold open_modal. rewrite dialog_lookup, Ed. destruct (decide (i = j)) as [<-|Hij].
    + split; [|by intros [_ ?]]. intros (d & Hd & Hx). destruct (dialogs p !! i) as [d0|]; [|done]. injection Hd as <-.
      unfold is_open_modal in Hx. by rewrite (proj1 (Hf d0)) in Hx.
    + split; [by split|tauto].
  - intros j e' d Hin. rewrite dialog_lookup, Ed. assert (j <> i) as Hji by exact (Hne (j, e') Hin). rewrite decide_False by done.
    apply C. apply elem_of_app in Hin as [Hin|Hin]; apply elem_of_app; [by left|right; by right].
  - by rewrite Ei, fmap_app.
  - rewrite Ei, Eold. apply NoDup_app. split; [|split].
    + apply NoDup_app. split; [done|]. split; [|done]. intros x Hx Hx2. apply (E5 x Hx). by right.
    + intros x Hx Hx2. assert (x ∈ l1.*2 ++ e :: l2.*2) as Hx' by (apply elem_of_app in Hx as [Hx|Hx]; apply elem_of_app; [by left|right; by right]).
      apply elem_of_app in Hx2 as [Hx2|Hx2%list_elem_of_singleton]; [by apply (E2 x)|]. subst x. apply elem_of_app in Hx as [Hx|Hx]; [by apply He1|by apply E6].
    + apply NoDup_app. split; [done|]. split; [|apply NoDup_singleton]. intros x Hx ->%list_elem_of_singleton.
      apply (E2 e); [apply elem_of_app; right; by left|done].
  - intros x Hx. rewrite Ev, length_alter. apply F. rewrite D. rewrite Ei, Eold in Hx. rewrite !elem_of_app in *. rewrite elem_of_cons.
    rewrite list_elem_of_singleton in Hx. tauto.
  - intros x. unfold attached. change (overlays (on i f q)) with (overlays q). rewrite Ev, list_lookup_alter. rewrite Ei. destruct (decide (e = x)) as [<-|Hex].
    + split.
      * intros (v & Hv & Ha). destruct (overlays p !! e); [|done]. injection Hv as <-. done.
      * intros [Hx|Hx]%elem_of_app; [by destruct He1|by destruct E6].
    + specialize (G x). rewrite D, elem_of_app, elem_of_cons in G. unfold attached in G. rewrite G, elem_of_app. split; [|tauto].
      intros [Hx|[Hx|Hx]]; [by left|congruence|by right].
  - erewrite list_fmap_ext; [exact Ho'|]. intros k x Hx. apply list_elem_of_lookup_2 in Hx. by apply Hlayer.
  - rewrite Evm, Ei, <- fmap_app. assert (forall x, z_of (on i f q) x = z_of p x) as Hz' by exact Hz.
    rewrite <- (top_overlay q); [done|]. erewrite list_fmap_ext; [exact Ho'|]. intros k x Hx. apply list_elem_of_lookup_2 in Hx.
    rewrite <- (Hlayer x Hx). unfold layer, dz. rewrite dialog_lookup, decide_False by (intros Hix; by apply (Hne x)). done.
  - split; [lia|]. rewrite Em. apply Forall_forall. intros x Hx. rewrite Forall_forall in J2.
    pose proof (f_equal snd (Hlayer x Hx)) as Hl. cbn [layer snd] in Hl. rewrite Hl. apply J2.
    apply elem_of_app in Hx as [Hx|Hx]; apply elem_of_app; [by left|right; by right].
  - intros Hx. rewrite Edoc, Et by done. apply K. rewrite D. by destruct l1.*2.
  - intros j d. rewrite dialog_lookup, Ed. destruct (decide (i = j)) as [<-|]; [|apply L]. destruct (dialogs p !! i) as [d0|] eqn:E0; [|done].
    intros [= <-]. destruct (Hf d0) as (_ & -> & ->). by apply (L i).
  - intros j d. rewrite dialog_lookup, Ed. destruct (decide (i = j)) as [<-|]; [|apply M]. destruct (dialogs p !! i) as [d0|] eqn:E0; [|done].
    intros [= <-]. by rewrite (proj1 (Hf d0)).
Qed.

Lemma destroy_on e i f p : destroy_overlay e (on i f p) = on i f (destroy_overlay e p).
Proof.
  destruct p as [ds m vs ins os vm dc ts hs ts']. unfold destroy_overlay, on. cbn. destruct (decide (e ∈ ins)); cbn.
  - by destruct (take_out e ins).
  - by destruct ins.
Qed.

(** The greatest place in depth may be anything above the open modal dialogs. *)
Lemma max_stacked p m st :
  stacked p st -> 0 <= m -> Forall (fun x => dz p x.1 <= m) st -> stacked (p <| maxZ := m |>) st.
Proof. intros [A B C D E F G H I J K L M] H0 Hm. by split. Qed.

Lemma others_z_spec i p : 0 <= others_z i p /\
  forall j d, dialogs p !! j = Some d -> j <> i -> d_alive d = true -> d_z d <= others_z i p.
Proof.
  unfold others_z. set (g := fun (j : nat) (d : dialog) => if decide (i = j) then 0 else if d_alive d then d_z d else 0).
  assert (forall l : list Z, 0 <= foldr Z.max 0 l /\ forall x, x ∈ l -> x <= foldr Z.max 0 l) as Hmax.
  { induction l as [|y l [IH1 IH2]]; cbn; [split; [done|by intros x ?%not_elem_of_nil]|].
    split; [lia|]. intros x [->|Hx]%elem_of_cons; [lia|]. specialize (IH2 x Hx). lia. }
  split; [apply (proj1 (Hmax _))|]. intros j d Hd Hji Ha. apply (proj2 (Hmax _)). apply list_elem_of_lookup. exists j. rewrite list_lookup_imap, Hd. cbn.
  unfold g. by rewrite decide_False, Ha by congruence.
Qed.

(** ** Opening *)

Lemma not_stacked p st i d : stacked p st -> dialogs p !! i = Some d -> is_open_modal d = false -> i ∉ st.*1.
Proof. intros H Hd Hx Hi. apply (st_open _ _ H) in Hi as (d' & Hd' & Hx'). congruence. Qed.

Lemma move_stacked force i d p st :
  stacked p st -> dialogs p !! i = Some d -> o_modal d = false -> stacked (moveToTop force i p) st.
Proof.
  intros H Hd Hm. unfold moveToTop. rewrite Hd, Hm. cbn [andb negb orb]. rewrite andb_true_r.
  destruct (o_stack d); cbn [negb]; [|by apply tell_stacked]. rewrite (st_plain _ _ H i d Hd Hm). cbn [set_overlay_z].
  pose proof (st_max _ _ H) as [M1 M2]. cbv zeta. apply tell_stacked.
  set (q := if maxZ p <? o_zIndex d then _ else _). assert (stacked q st /\ dialogs q = dialogs p) as [H1 E1].
  { unfold q. destruct (Z.ltb_spec (maxZ p) (o_zIndex d)); [|done]. split; [|done]. apply max_stacked; [done|lia|].
    eapply Forall_impl; [exact M2|]. intros x Hx. cbn in Hx. lia. }
  clearbody q.
  pose proof (st_max _ _ H1) as [N1 N2]. apply on_stacked.
  - intros d' Hd'. split; [done|]. exact (st_dead _ _ H1 i d' Hd').
  - intros e Hin. destruct (not_stacked p st i d H Hd).
    + unfold is_open_modal. by rewrite Hm, andb_false_r.
    + exact (list_elem_of_fmap_2 fst _ _ Hin).
  - apply max_stacked; [done|lia|]. eapply Forall_impl; [exact N2|]. intros x Hx. cbn in Hx. lia.
Qed.

Record overlaid (i : nat) (p p' : page) (el : nat) : Prop := {
  ov_dialogs : dialogs p' = dialogs p;
  ov_max : maxZ p' = maxZ p;
  ov_instances : instances p' = instances p ++ [el];
  ov_fresh : NoDup (instances p' ++ oldInstances p');
  ov_known : forall e, e ∈ instances p' ++ oldInstances p' -> (e < length (overlays p'))%nat;
  ov_attached : forall e, attached p' e <-> e = el \/ attached p e;
  ov_z : forall e, e ∈ instances p -> z_of p' e = z_of p e;
  ov_block : Block ∈ doc p' \/ (0 < timers p')%nat;
}.

Lemma removelast_snoc {A} (l : list A) x : last l = Some x -> l = removelast l ++ [x].
Proof.
  induction l as [|y [|z l] IH]; [done|by intros [= ->]|]. intros H. change (removelast (y :: z :: l)) with (y :: removelast (z :: l)).
  cbn [app]. f_equal. by apply IH.
Qed.

Lemma create_overlaid i p st : stacked p st -> overlaid i p (create_overlay i p).1 (create_overlay i p).2.
Proof.
  intros H. pose proof (st_fresh _ _ H) as Hf. pose proof (st_known _ _ H) as Hk. pose proof (st_block _ _ H) as Hb.
  unfold create_overlay. set (p0 := match instances p with [] => _ | _ => _ end).
  assert (instances p0 = instances p /\ oldInstances p0 = oldInstances p /\ overlays p0 = overlays p /\ dialogs p0 = dialogs p /\ maxZ p0 = maxZ p /\
    doc p0 = doc p /\ (Block ∈ doc p \/ (0 < timers p0)%nat)) as (E1 & E2 & E3 & E4 & E5 & E6 & E7).
  { unfold p0. destruct (instances p) eqn:E; cbn; rewrite ?E; split_and!; try done; [right; lia|]. by apply Hb. }
  rewrite E2, E3. clearbody p0. cbv zeta. destruct (last (oldInstances p)) as [el|] eqn:El; cbn [default fst snd].
  - pose proof (removelast_snoc _ _ El) as Eold. rewrite Eold in Hf, Hk.
    assert (el < length (overlays p))%nat as Hel by (apply Hk; rewrite !elem_of_app; right; right; by left).
    split; cbn; rewrite ?E1, ?E3, ?E4, ?E5, ?E6, ?E2; try done.
    + rewrite <- app_assoc. by rewrite (Permutation_app_comm [el] (removelast (oldInstances p))).
    + intros e He. rewrite length_alter. apply Hk. rewrite !elem_of_app in *. tauto.
    + intros e. unfold attached. cbn. rewrite ?E3, list_lookup_alter. destruct (decide (el = e)) as [<-|Hne].
      * destruct (lookup_lt_is_Some_2 _ _ Hel) as [v Hv]. rewrite Hv. cbn. split; [by left|]. intros _. by eexists.
      * split; [by right|]. by intros [->|?].
    + intros e He. unfold z_of. cbn. rewrite ?E3, list_lookup_alter. destruct (decide (el = e)) as [<-|Hne]; [|done]. by destruct (overlays p !! el).
    + destruct E7 as [E7|E7]; [left; apply elem_of_app; by left|by right].
  - apply last_None in El. rewrite El, app_nil_r in Hf, Hk.
    split; cbn; rewrite ?E1, ?E3, ?E4, ?E5, ?E6, ?E2, ?El, ?app_nil_r; try done.
    + apply NoDup_app. split; [done|]. split; [|apply NoDup_singleton]. intros e He ->%list_elem_of_singleton. specialize (Hk _ He). lia.
    + intros e He. rewrite length_alter, length_app. cbn. apply elem_of_app in He as [He| ->%list_elem_of_singleton]; [specialize (Hk e He)|]; lia.
    + intros e. unfold attached. cbn. rewrite ?E3, list_lookup_alter. destruct (decide (length (overlays p) = e)) as [<-|Hne].
      * rewrite lookup_app_r, Nat.sub_diag by done. cbn. split; [by left|]. intros _. by eexists.
      * split.
        -- intros (v & Hv & Ha). right. apply lookup_app_Some in Hv as [Hv|[Hle Hv]]; [by exists v|]. destruct (e - length (overlays p))%nat eqn:E; [lia|done].
        -- intros [->|(v & Hv & Ha)]; [done|]. exists v. by rewrite (lookup_app_l_Some _ _ _ _ Hv).
    + intros e He. specialize (Hk e He). unfold z_of. cbn. rewrite ?E3, list_lookup_alter, decide_False by lia. by rewrite lookup_app_l.
    + destruct E7 as [E7|E7]; [left; apply elem_of_app; by left|by right].
Qed.

Lemma alter_twice {A} (f g : A -> A) (i : nat) (l : list A) : alter f i (alter g i l) = alter (fun x => f (g x)) i l.
Proof.
  revert i. induction l as [|x l IH]; intros [|i]; try done. exact (f_equal (cons x) (IH i)).
Qed.

(** What [open] makes of a modal dialog. *)
Lemma open_modal_facts i p d : dialogs p !! i = Some d -> d_open d = false -> o_modal d = true ->
  dialogs (create_overlay i p).1 = dialogs p -> maxZ (create_overlay i p).1 = maxZ p ->
  let m := Z.max (maxZ p) (o_zIndex d) in let r := create_overlay i p in let p' := open i p in
  dialogs p' = alter (fun d => d <| d_overlay := Some r.2 |> <| d_z := m + 1 + 1 |> <| d_open := true |>) i (dialogs p) /\
  maxZ p' = m + 1 + 1 /\ overlays p' = alter (fun v => v <| v_z := m + 1 |>) r.2 (overlays r.1) /\
  instances p' = instances r.1 /\ oldInstances p' = oldInstances r.1 /\ v_maxZ p' = m + 1 /\ doc p' = doc r.1 /\ timers p' = timers r.1.
Proof.
  intros Hd Ho Hm Ed Emx. cbv zeta. unfold open. rewrite Hd, Ho, Hm. revert Ed Emx. generalize (create_overlay i p) as r. intros [q el]. cbn [fst snd].
  intros Ed Emx. unfold moveToTop. rewrite dialog_lookup, decide_True, Ed, Hd by done. cbn [fmap option_fmap option_map].
  change (o_modal (d <| d_overlay := Some el |>)) with (o_modal d). change (o_stack (d <| d_overlay := Some el |>)) with (o_stack d).
  change (d_overlay (d <| d_overlay := Some el |>)) with (Some el). change (o_zIndex (d <| d_overlay := Some el |>)) with (o_zIndex d).
  rewrite Hm. cbn [andb negb orb]. rewrite andb_false_r. cbn [set_overlay_z].
  change (maxZ (on i (fun d => d <| d_overlay := Some el |>) q)) with (maxZ q). rewrite Emx.
  set (q1 := if maxZ p <? o_zIndex d then _ else _).
  assert (maxZ q1 = Z.max (maxZ p) (o_zIndex d) /\ dialogs q1 = alter (fun d => d <| d_overlay := Some el |>) i (dialogs q) /\ overlays q1 = overlays q /\
    instances q1 = instances q /\ oldInstances q1 = oldInstances q /\ doc q1 = doc q /\ timers q1 = timers q) as (F1 & F2 & F3 & F4 & F5 & F6 & F7).
  { unfold q1. destruct (Z.ltb_spec (maxZ p) (o_zIndex d)); cbn; split_and!; try done; lia. }
  clearbody q1.
  rewrite <- F1, <- F3, <- F4, <- F5, <- F6, <- F7, <- Ed. split_and!; try done.
  cbn. rewrite F2, !alter_twice. apply list_alter_ext; done.
Qed.
Lemma open_modal_stacked i p d st :
  stacked p st -> dialogs p !! i = Some d -> d_alive d = true -> d_open d = false -> o_modal d = true ->
  stacked (open i p) (st ++ [(i, (create_overlay i p).2)]).
Proof.
  intros H Hd Ha Ho Hm. pose proof (create_overlaid i p st H) as V.
  destruct (open_modal_facts i p d Hd Ho Hm (ov_dialogs _ _ _ _ V) (ov_max _ _ _ _ V)) as (D1 & D2 & D3 & D4 & D5 & D6 & D7 & D8).
  cbv zeta in *. revert V D1 D3 D4 D5 D7 D8. generalize (create_overlay i p) as r. intros [q el]. cbn [fst snd]. intros [V1 V2 V3 V4 V5 V6 V7 V8].
  revert D2 D6. generalize (open i p) as p'. intros p' D2 D6 D1 D3 D4 D5 D7 D8. set (m := Z.max (maxZ p) (o_zIndex d)) in *.
  assert (i ∉ st.*1) as Hi by (apply (not_stacked p st i d H Hd); unfold is_open_modal; by rewrite Ho).
  assert (el ∉ instances p) as Hel.
  { rewrite V3 in V4. apply NoDup_app in V4 as (V4 & _ & _). apply NoDup_app in V4 as (_ & V4 & _). intros Hin. apply (V4 el Hin). by left. }
  destruct H as [A B C D E F G Ho' I [J1 J2] K L M].
  assert (forall x, x ∈ st -> layer p' x = layer p x) as Hlayer.
  { intros [j e] Hx. unfold layer, dz. cbn [fst snd]. rewrite D1, list_lookup_alter, decide_False.
    - f_equal. unfold z_of. rewrite D3, list_lookup_alter, decide_False; [apply V7; rewrite D; exact (list_elem_of_fmap_2 snd _ _ Hx)|].
      intros ->. apply Hel. rewrite D. exact (list_elem_of_fmap_2 snd _ _ Hx).
    - intros ->. apply Hi. exact (list_elem_of_fmap_2 fst _ _ Hx). }
  assert (el < length (overlays q))%nat as Hlt by (apply V5; rewrite V3, !elem_of_app; left; right; by left).
  assert (z_of p' el = m + 1) as Hz. { unfold z_of. rewrite D3, list_lookup_alter, decide_True by done. destruct (lookup_lt_is_Some_2 _ _ Hlt) as [v ->]. done. }
  assert (dz p' i = m + 1 + 1) as Hdz by (unfold dz; by rewrite D1, list_lookup_alter, decide_True, Hd by done).
  assert (Forall (fun x => dz p' x.1 <= maxZ p) st) as J3.
  { apply Forall_forall. intros x Hx. pose proof (f_equal snd (Hlayer x Hx)) as Hs. cbn [layer snd] in Hs. rewrite Hs. by apply (proj1 (Forall_forall _ _) J2). }
  split; rewrite ?D4, ?D5, ?D6, ?D7, ?D8; try done.
  - rewrite fmap_app. apply NoDup_app. split; [done|]. split; [|apply NoDup_singleton]. intros x Hx ->%list_elem_of_singleton. by apply Hi.
  - intros j. rewrite fmap_app, elem_of_app, <- B. cbn. rewrite list_elem_of_singleton. unfold open_modal. rewrite D1, list_lookup_alter.
    destruct (decide (i = j)) as [<-|Hne].
    + rewrite Hd. split; [by right|]. intros _. eexists. split; [reflexivity|]. unfold is_open_modal. cbn. by rewrite Hm, Ha.
    + split; [by left|]. by intros [?| ->].
  - intros j e d' [Hin|Hin%list_elem_of_singleton]%elem_of_app Hd'; rewrite D1, list_lookup_alter in Hd'.
    + rewrite decide_False in Hd' by (intros ->; apply Hi; exact (list_elem_of_fmap_2 fst _ _ Hin)). by apply (C j).
    + injection Hin as -> ->. rewrite decide_True, Hd in Hd' by done. by injection Hd' as <-.
  - by rewrite V3, D, fmap_app.
  - intros e He. rewrite D3, length_alter. by apply V5.
  - intros e. rewrite V3, elem_of_app, list_elem_of_singleton, <- (G e). specialize (V6 e). unfold attached in *. rewrite D3, list_lookup_alter.
    destruct (decide (el = e)) as [<-|Hne].
    + split; [by right|]. intros _. destruct (proj2 V6 (or_introl eq_refl)) as (v & Hv & Hva). rewrite Hv. by exists (v <| v_z := m + 1 |>).
    + rewrite V6. split; [intros [->|?]; [done|by left]|]. intros [?| ->]; [by right|done].
  - rewrite fmap_app. cbn [fmap list_fmap]. unfold layer at 2. cbn [fst snd]. rewrite Hz, Hdz.
    apply (ordered_snoc 0 _ _ _ (maxZ p)); [|done| |unfold m; lia|lia].
    + erewrite list_fmap_ext; [exact Ho'|]. intros k x Hx. apply list_elem_of_lookup_2 in Hx. by apply Hlayer.
    + apply Forall_fmap. eapply Forall_impl; [exact J3|]. done.
  - rewrite V3, last_snoc. cbn. by rewrite Hz.
  - rewrite D2. split; [unfold m; lia|]. apply Forall_app. split.
    + eapply Forall_impl; [exact J3|]. intros x Hx. cbn in Hx. unfold m. lia.
    + apply Forall_singleton. cbn [fst]. rewrite Hdz. lia.
  - intros j d'. rewrite D1, list_lookup_alter. destruct (decide (i = j)) as [<-|]; [|apply L]. rewrite Hd. intros [= <-]. cbn. congruence.
  - intros j d'. rewrite D1, list_lookup_alter. destruct (decide (i = j)) as [<-|]; [|apply M]. rewrite Hd. by intros [= <-].
Qed.

Lemma open_stacked i p d st :
  stacked p st -> dialogs p !! i = Some d -> d_alive d = true ->
  stacked (open i p) (if d_open d then st else if o_modal d then st ++ [(i, (create_overlay i p).2)] else st).
Proof.
  intros H Hd Ha. destruct (d_open d) eqn:Ho; [unfold open; by rewrite Hd, Ho|]. destruct (o_modal d) eqn:Hm; [by apply (open_modal_stacked i p d)|].
  unfold open. rewrite Hd, Ho, Hm. cbn [fst snd]. apply tell_stacked.
  assert (stacked (on i (fun d => d <| d_overlay := None |>) p) st) as H1.
  { apply on_stacked; [| |done].
    - intros d' Hd'. rewrite Hd in Hd'. injection Hd' as <-. split; [|done]. unfold view. f_equal. cbn. by rewrite (st_plain _ _ H i d Hd Hm).
    - done. }
  set (p1 := on i (fun d => d <| d_overlay := None |>) p) in *.
  assert (dialogs p1 !! i = Some (d <| d_overlay := None |>)) as Hd1 by (unfold p1; by rewrite dialog_lookup, decide_True, Hd by done).
  pose proof (move_stacked true i _ p1 st H1 Hd1 Hm) as H2.
  assert (exists d2, dialogs (moveToTop true i p1) !! i = Some d2 /\ o_modal d2 = false /\ d_alive d2 = true /\ d_open d2 = false) as (d2 & Hd2 & Hm2 & Ha2 & Ho2).
  { unfold moveToTop. rewrite Hd1. destruct (_ || _); [by eexists|].
    cbv zeta. cbn [d_overlay set_overlay_z]. set (q := if _ <? _ then _ else _). assert (dialogs q = dialogs p1) as Eq by (unfold q; by destruct (_ <? _)).
    change (dialogs (tell i EvFocus ?p)) with (dialogs p). rewrite dialog_lookup, decide_True by done. cbn. rewrite Eq, Hd1. cbn. by eexists. }
  apply on_stacked; [|done|done]. intros d' Hd'. rewrite Hd2 in Hd'. injection Hd' as <-. split; [|done].
  unfold view, is_open_modal. cbn. by rewrite Hm2, !andb_false_r.
Qed.

Section allow.
Context (allow : nat -> bool).

(** The stack without the dialog [i]. *)
Definition without (i : nat) (st : list (nat * nat)) : list (nat * nat) := filter (fun x => x.1 <> i) st.

Lemma without_none i st : i ∉ st.*1 -> without i st = st.
Proof.
  unfold without. induction st as [|[j e] st IH]; [done|]. cbn [fmap list_fmap fst]. intros [Hj Hi]%not_elem_of_cons.
  rewrite filter_cons_True by (cbn; congruence). by rewrite IH.
Qed.

Lemma without_split i e l1 l2 : NoDup (l1 ++ (i, e) :: l2).*1 -> without i (l1 ++ (i, e) :: l2) = l1 ++ l2.
Proof.
  rewrite fmap_app. cbn. intros (A & B & C)%NoDup_app. apply NoDup_cons in C as [C D]. unfold without.
  rewrite filter_app, filter_cons_False by (cbn; tauto).
  change (without i l1 ++ without i l2 = l1 ++ l2). rewrite !without_none; [done|done|]. intros Hi. apply (B i Hi). by left.
Qed.

(** A dialog that is open is gone from the stack. *)
Lemma leave_stacked p f i d st :
  stacked p st -> dialogs p !! i = Some d -> d_open d = true ->
  (forall d, d_open (f d) = false /\ o_modal (f d) = o_modal d /\ d_overlay (f d) = d_overlay d) ->
  stacked (on i f (match d_overlay d with Some e => destroy_overlay e p | None => p end)) (without i st).
Proof.
  intros H Hd Ho Hf. destruct (o_modal d) eqn:Em.
  - assert (i ∈ st.*1) as Hi. { apply (st_open _ _ H). exists d. split; [done|]. unfold is_open_modal. by rewrite Ho, Em, (st_dead _ _ H i d Hd Ho). }
    apply list_elem_of_fmap in Hi as ([j e] & -> & Hin). cbn [fst] in *. rewrite (st_own _ _ H j e d Hin Hd).
    apply list_elem_of_split in Hin as (l1 & l2 & ->). rewrite without_split by apply (st_nodup _ _ H). by apply drop_stacked.
  - rewrite (st_plain _ _ H i d Hd Em). assert (i ∉ st.*1) as Hi.
    { intros Hi. apply (st_open _ _ H) in Hi as (d' & Hd' & Hx). rewrite Hd in Hd'. injection Hd' as <-. unfold is_open_modal in Hx. by rewrite Em, andb_false_r in Hx. }
    rewrite without_none by done. apply on_stacked; [| |done].
    + intros d' Hd'. rewrite Hd in Hd'. injection Hd' as <-. destruct (Hf d) as (E1 & E2 & E3). split; [|by rewrite E1].
      unfold view, is_open_modal. rewrite E1, E2, E3, Em. by destruct (d_open d).
    + intros e Hin. destruct Hi. exact (list_elem_of_fmap_2 fst _ _ Hin).
Qed.

(** The end of [close]. *)
Definition finish (i : nat) (d : dialog) (q : page) : page :=
  let q := if o_hide d then q <| hiding := hiding q ++ [i] |> else tell i EvClose q in
  if o_modal d then q <| maxZ := others_z i q |> else q.

Lemma finish_stacked i d q st : stacked q (without i st) -> stacked (finish i d q) (without i st).
Proof.
  intros H2. unfold finish. set (q1 := if o_hide d then _ else _). assert (stacked q1 (without i st)) as H3.
  { unfold q1. destruct (o_hide d); [|by apply tell_stacked]. apply (stacked_same q); try done. apply (st_dead _ _ H2). }
  cbv zeta. destruct (o_modal d); [|done]. destruct (others_z_spec i q1) as [Z1 Z2]. apply max_stacked; [done|done|].
  apply Forall_forall. intros [j e] Hx. cbn [fst]. assert (j ∈ (without i st).*1) as Hj by exact (list_elem_of_fmap_2 fst _ _ Hx).
  apply (st_open _ _ H3) in Hj as (d' & Hd' & Ho'). unfold dz. rewrite Hd'. apply (Z2 j d'); [done| |].
  - apply list_elem_of_filter in Hx as [Hne _]. exact Hne.
  - unfold is_open_modal in Ho'. by apply andb_true_iff in Ho' as [_ ?].
Qed.

Lemma close_stacked i p st : stacked p st ->
  stacked (close allow i p) (if allow i then without i st else st) \/ stacked (close allow i p) st /\ (forall d, dialogs p !! i = Some d -> d_open d = false).
Proof.
  intros H. unfold close. destruct (dialogs p !! i) as [d|] eqn:Ed; [|by right].
  destruct (d_open d) eqn:Eo; [|by right; split; [|intros d' [= <-]]]. cbn [negb]. left.
  pose proof (tell_stacked i EvBeforeClose p st H) as H1. destruct (allow i); cbn [negb]; [|done].
  set (p1 := tell i EvBeforeClose p) in *. assert (dialogs p1 !! i = Some d) as Ed1 by done.
  pose proof (leave_stacked p1 (fun d => d <| d_open := false |>) i d st H1 Ed1 Eo) as H2.
  assert ((match d_overlay d with Some e => destroy_overlay e (on i (fun d => d <| d_open := false |>) p1) | None => on i (fun d => d <| d_open := false |>) p1 end) =
    on i (fun d => d <| d_open := false |>) (match d_overlay d with Some e => destroy_overlay e p1 | None => p1 end)) as ->.
  { destruct (d_overlay d) as [e|]; [apply destroy_on|done]. }
  specialize (H2 (fun d => conj eq_refl (conj eq_refl eq_refl))).
  by apply finish_stacked.
Qed.

Lemma close_good i p : good p -> good (close allow i p).
Proof. intros [st H]. destruct (close_stacked i p st H) as [H1|[H1 _]]; by eexists. Qed.

(** ** Everything else *)

Lemma add_stacked p d st :
  stacked p st -> d_open d = false -> d_overlay d = None -> stacked (p <| dialogs := dialogs p ++ [d] |>) st.
Proof.
  intros H Ho Hv. destruct H as [A B C D E F G Ho' I J K L M]. set (p' := p <| dialogs := _ |>).
  assert (forall i d', dialogs p' !! i = Some d' -> dialogs p !! i = Some d' \/ d' = d) as Hnew.
  { intros i d' Hd. apply lookup_app_Some in Hd as [Hd|[_ Hd]]; [by left|]. right. by apply list_lookup_singleton_Some in Hd as [_ <-]. }
  assert (forall i d', dialogs p !! i = Some d' -> dialogs p' !! i = Some d') as Hold by (intros i d' Hd; by apply lookup_app_l_Some).
  assert (forall x, x ∈ st -> dz p' x.1 = dz p x.1) as Hz.
  { intros x Hx. assert (x.1 ∈ st.*1) as Hx1 by by apply list_elem_of_fmap_2. apply B in Hx1 as (d' & Hd & _). unfold dz. by rewrite Hd, (Hold _ _ Hd). }
  split; try done.
  - intros i. rewrite <- B. split; intros (d' & Hd & Hx).
    + destruct (Hnew i d' Hd) as [Hd'| ->]; [by exists d'|]. unfold is_open_modal in Hx. by rewrite Ho in Hx.
    + exists d'. auto.
  - intros i e d' Hin Hd. assert (i ∈ st.*1) as Hi by exact (list_elem_of_fmap_2 fst _ _ Hin). apply B in Hi as (d0 & Hd0 & _).
    rewrite (Hold i d0 Hd0) in Hd. injection Hd as <-. by apply (C i).
  - erewrite list_fmap_ext; [exact Ho'|]. intros k x Hx. apply list_elem_of_lookup_2 in Hx. unfold layer. f_equal. by apply Hz.
  - split; [apply J|]. apply Forall_forall. intros x Hx. rewrite (Hz x Hx). exact (proj1 (Forall_forall _ _) (proj2 J) x Hx).
  - intros i d' Hd Hm. destruct (Hnew i d' Hd) as [Hd'| ->]; [by apply (L i)|done].
  - intros i d' Hd Hx. destruct (Hnew i d' Hd) as [Hd'| ->]; [by apply (M i)|congruence].
Qed.

(** The step at one handler does nothing, or closes one dialog and prevents the others. *)
Lemma keys_after t l p : (fold_left (key_step allow t) l (p, true)).1 = p.
Proof.
  induction l as [|[i el|] l IH]; cbn; [done| |done]. destruct (dialogs p !! i); [|done]. by rewrite andb_false_r.
Qed.

Lemma keys_one t l p b :
  (fold_left (key_step allow t) l (p, b)).1 = p \/ exists i, (fold_left (key_step allow t) l (p, b)).1 = close allow i p.
Proof.
  revert b. induction l as [|[i el|] l IH]; intros b; cbn [fold_left key_step]; [by left| |apply IH].
  destruct (dialogs p !! i) as [d|]; [|apply IH]. destruct (_ && negb b); [|apply IH]. right. exists i. apply keys_after.
Qed.

Lemma escape_one_close t p : escape allow t p = p \/ exists i, escape allow t p = close allow i p.
Proof.
  unfold escape. destruct t as [i|]; [|apply keys_one]. destruct (dialogs p !! i) as [d|]; [|apply keys_one].
  destruct (d_alive d && o_closeOnEscape d); [|apply keys_one]. right. exists i. apply keys_after.
Qed.

(** No dialog changes its option [modal], and none is destroyed that had been closed and is modal. *)
Definition careful (p : page) (a : daction) : Prop :=
  match a with
  | SetOption (OModal _) _ => False
  | Destroy i => forall d, dialogs p !! i = Some d -> d_open d = true \/ d_overlay d = None
  | _ => True
  end.

Lemma setOption_stacked o i p st : stacked p st -> careful p (SetOption o i) -> stacked (setOption o i p) st.
Proof.
  intros H Hc. unfold setOption. apply on_stacked; [| |done].
  - intros d Hd. pose proof (st_dead _ _ H i d Hd). destruct o; [done|..]; by split.
  - intros e _ d. by destruct o.
Qed.

Lemma destroy_good i p : good p -> careful p (Destroy i) -> good (destroy i p).
Proof.
  intros [st H] Hc. unfold destroy. destruct (dialogs p !! i) as [d|] eqn:Ed; [|by exists st]. cbn in Hc. rewrite Ed in Hc.
  set (f := fun d : dialog => d <| d_alive := false |> <| d_open := false |>).
  destruct (d_open d) eqn:Eo; [exists (without i st); by apply (leave_stacked p f i d)|].
  destruct (Hc d eq_refl) as [?|Ev]; [congruence|]. rewrite Ev. exists st. apply on_stacked; [| |done].
  - intros d' Hd'. rewrite Ed in Hd'. injection Hd' as <-. split; [|done]. unfold view, is_open_modal. cbn. by rewrite Eo.
  - done.
Qed.

Lemma act_good a p : good p -> careful p a -> good (act allow a p).
Proof.
  intros Hp Hc. destruct a as [m sk z esc h auto|i|i|i|t|o i| |i|i]; cbn [act]; try (destruct (alive i p) eqn:Ea; [|done]).
  - destruct Hp as [st H]. unfold create. set (d := mk_dialog _ _ _ _ _ _ _ _ _). pose proof (add_stacked p d st H eq_refl eq_refl) as H1.
    destruct auto; [|by exists st]. eexists. apply (open_stacked _ _ d st H1); [|done]. cbn. by rewrite lookup_app_r, Nat.sub_diag by done.
  - destruct Hp as [st H]. unfold alive in Ea. destruct (dialogs p !! i) as [d|] eqn:Ed; [|done]. eexists. by apply (open_stacked i p d st).
  - by apply close_good.
  - destruct Hp as [st H]. unfold alive in Ea. destruct (dialogs p !! i) as [d|] eqn:Ed; [|done]. destruct (o_modal d) eqn:Em.
    + exists st. unfold moveToTop. rewrite Ed, Em. by apply tell_stacked.
    + exists st. by apply (move_stacked false i d).
  - destruct (escape_one_close t p) as [->|[i ->]]; [done|by apply close_good].
  - destruct Hp as [st H]. exists st. by apply setOption_stacked.
  - destruct Hp as [st H]. exists st. unfold bind_events. destruct (timers p) as [|n] eqn:Et; [done|].
    destruct (instances p) as [|e l] eqn:Ei; cbn; rewrite ?Ei; apply (stacked_same p); try done; try apply (st_dead _ _ H).
    intros _ _. left. apply elem_of_app. right. by left.
  - destruct Hp as [st H]. exists st. unfold hidden. destruct (decide _); [|done]. apply tell_stacked. apply (stacked_same p); try done. apply (st_dead _ _ H).
  - by apply destroy_good.
Qed.

(** ** Properties *)

Definition acts (l : list daction) (p : page) : page := fold_left (fun p a => act allow a p) l p.

Fixpoint all_careful (l : list daction) (p : page) : Prop :=
  match l with [] => True | a :: l => careful p a /\ all_careful l (act allow a p) end.

Lemma acts_good l p : good p -> all_careful l p -> good (acts l p).
Proof. revert p. induction l as [|a l IH]; intros p Hp; [done|]. intros [Hc Hl]. by apply IH; [apply act_good|]. Qed.

(** C2. However dialogs are opened, closed, moved, set and destroyed, as long as no dialog
    changes its option [modal] once it is made and none is destroyed that is closed and still
    refers to an overlay: the open modal ones lie in an order, each above its own overlay and
    below the overlay of the next; exactly their overlays are in the document and none is
    shared; and once the document listens, every open modal dialog but the one on top is
    blocked, and that one is not. *)
Theorem modal_stack l :
  all_careful l empty_page ->
  let p := acts l empty_page in
  exists st, NoDup st.*1 /\ (forall i, open_modal p i <-> i ∈ st.*1) /\
    instances p = st.*2 /\ NoDup (instances p) /\ (forall e, attached p e <-> e ∈ instances p) /\
    ordered 0 (layer p <$> st) /\
    (timers p = 0%nat -> forall i, open_modal p i -> blocked (dz p i) p = negb (bool_decide (last st.*1 = Some i))).
Proof.
  intros Hl. cbv zeta. destruct (acts_good l empty_page) as [st H]; [exists []; apply empty_good|done|].
  revert H. generalize (acts l empty_page). intros p [A B C D E F G Ho I J K L M]. exists st.
  split; [done|]. split; [done|]. split; [done|]. split; [by apply NoDup_app in E as (E & _ & _)|]. split; [done|]. split; [done|].
  intros Ht i Hi. apply B in Hi. destruct (last_is_Some st) as [_ Hlast].
  destruct (last st) as [[j e]|] eqn:El; [clear Hlast|apply last_None in El; subst st; by apply not_elem_of_nil in Hi].
  assert (instances p <> []) as Hne by (rewrite D; destruct st; [done|by intros [=]]).
  destruct (K Hne) as [Hb|Hb]; [|lia]. unfold blocked. rewrite bool_decide_eq_true_2 by done. cbn [andb].
  rewrite I, D, !last_fmap_list, El. cbn [fmap option_fmap option_map default fst snd].
  apply last_Some in El as [st0 ->]. rewrite fmap_app in Ho. rewrite fmap_app in Hi. rewrite fmap_app in A. cbn [fmap list_fmap fst] in Ho, Hi, A.
  pose proof (ordered_last _ _ _ Ho) as Hlow. cbn [layer fst snd] in Hlow.
  apply NoDup_app in A as (_ & A & _). apply elem_of_app in Hi as [Hi|Hi%list_elem_of_singleton].
  - rewrite (bool_decide_eq_false_2 (Some j = Some i)); [|intros [= ->]; apply (A i Hi); by left]. cbn [negb]. apply Z.ltb_lt.
    apply list_elem_of_fmap in Hi as (x & -> & Hx). rewrite Forall_fmap, Forall_forall in Hlow. exact (proj1 (Hlow x Hx)).
  - subst j. rewrite bool_decide_eq_true_2 by done. cbn [negb]. apply Z.ltb_ge.
    pose proof (ordered_above _ _ Ho) as Ha. apply Forall_app in Ha as [_ Ha]. apply Forall_cons in Ha as [Ha _]. exact (Z.lt_le_incl _ _ (proj2 Ha)).
Qed.

(** C29. The escape key, wherever the focus is, closes one dialog at most; with the focus in the open modal dialog on top,
    which the key may close, it closes that one and leaves the others in their order. *)
Theorem escape_peels l t :
  all_careful l empty_page ->
  let p := acts l empty_page in
  (escape allow t p = p \/ exists i, escape allow t p = close allow i p) /\
  forall st i e d, stacked p (st ++ [(i, e)]) -> t = Some i -> dialogs p !! i = Some d -> o_closeOnEscape d = true -> allow i = true ->
    stacked (escape allow t p) st.
Proof.
  intros Hl. cbv zeta. split; [apply escape_one_close|]. intros st i e d H -> Hd He Hallow.
  assert (open_modal (acts l empty_page) i) as Hi by (apply (st_open _ _ H); rewrite fmap_app; apply elem_of_app; right; by left).
  destruct Hi as (d' & Hd' & Ho). rewrite Hd in Hd'. injection Hd' as <-.
  assert (escape allow (Some i) (acts l empty_page) = close allow i (acts l empty_page)) as ->.
  { unfold escape. rewrite Hd, He. unfold is_open_modal in Ho. apply andb_true_iff in Ho as [_ ->]. apply keys_after. }
  pose proof (without_split i e st [] (st_nodup _ _ H)) as Hw. rewrite app_nil_r in Hw.
  destruct (close_stacked i _ _ H) as [H1|[_ H1]]; [by rewrite Hallow, Hw in H1|].
  unfold is_open_modal in Ho. rewrite (H1 d Hd) in Ho. done.
Qed.
End allow.

(** ** Runs

    The theorems of [DialogFlow] at some dialogs, and runs in which overlays that are
    used again, and handlers that stay, do what they should not. *)


Definition yes : nat -> bool := fun _ => true.

(** A modal dialog that opens itself, and a plain one. *)
Definition modal : daction := Create true true 1000 true false true.
Definition plain : daction := Create false true 1000 true false true.

Definition session : list daction :=
  [modal; BindEvents; plain; modal; modal; MoveToTop 1; Close 2; Open 2; Escape (Some 2%nat); Destroy 0].

Lemma session_careful : all_careful yes session empty_page.
Proof. vm_compute. repeat (split; [done|]). split; [intros d [= <-]; by left|done]. Qed.

Example modal_stack_witness :
  let p := acts yes session empty_page in
  exists st, NoDup st.*1 /\ (forall i, open_modal p i <-> i ∈ st.*1) /\
    instances p = st.*2 /\ NoDup (instances p) /\ (forall e, attached p e <-> e ∈ instances p) /\
    ordered 0 (layer p <$> st) /\
    (timers p = 0%nat -> forall i, open_modal p i -> blocked (dz p i) p = negb (bool_decide (last st.*1 = Some i))).
Proof. exact (modal_stack yes session session_careful). Defined.

Example escape_peels_witness :
  let p := acts yes [modal; modal] empty_page in
  escape yes None p = p \/ exists i, escape yes None p = close yes i p.
Proof. exact (proj1 (escape_peels yes [modal; modal] None (conj I (conj I I)))). Defined.

(** Open dialogs, overlays of the document, and places in depth. *)
Definition summary (p : page) : list bool * list bool * list Z * list Z :=
  (d_open <$> dialogs p, v_attached <$> overlays p, d_z <$> dialogs p, v_z <$> overlays p).

Example session_runs :
  summary (acts yes (take 5 session) empty_page) = ([true; true; true; true], [true; true; true], [1002; 1003; 1005; 1007], [1001; 1004; 1006]) /\
  summary (acts yes session empty_page) = ([false; true; false; true], [false; false; true], [1002; 1008; 1010; 1007], [1001; 1009; 1006]).
Proof. by vm_compute. Qed.

(** *** The escape key that closes nothing

    The second dialog binds its key after the handler that cancels events below the
    overlay: with the focus outside of the dialogs, that one prevents the key first. *)
Example escape_is_cancelled :
  d_open <$> dialogs (acts yes [modal; Escape None] empty_page) = [false] /\
  d_open <$> dialogs (acts yes [modal; BindEvents; Escape None] empty_page) = [false] /\
  d_open <$> dialogs (acts yes [modal; BindEvents; modal; Escape None] empty_page) = [true; true].
Proof. by vm_compute. Qed.

(** The overlay of a dialog that was closed is used again, but its key is still bound for
    the dialog that was closed, and prevents the one for the dialog that is open. *)
Example stale_key :
  d_open <$> dialogs (acts yes [modal; modal; Close 1; modal; Escape None] empty_page) = [true; false; true].
Proof. by vm_compute. Qed.

(** *** The overlay that is taken away

    A dialog that was closed still holds its overlay, which another uses now: when it is
    destroyed, the open one is left without overlay. *)
Example overlay_is_taken :
  let p := acts yes [modal; BindEvents; Close 0; modal; BindEvents; Destroy 0] empty_page in
  d_open <$> dialogs p = [false; true] /\ v_attached <$> overlays p = [false] /\ instances p = [] /\ doc p = [].
Proof. by vm_compute. Qed.
