(* ===== verification/UiMenu.v ===== *)
(** * jQuery UI menu, without submenus

    Models the widget [ui.menu] of [2019104287/code/WebContent/js/jquery-ui.js] for a
    menu of one level, as the autocomplete uses it: the active item, moving it, and
    the timer that collapses the menu.  The widget tells its owner that an item got
    the focus or was selected; the owner is the interface [menu_host].  A menu
    without items is never shown, so nothing moves in it. *)

From S2P Require Export JsValue.

(** What caused a call: the type of the event, if there is one. *)
Inductive origin := ByKeydown | ByKeypress | ByMouse | ByOther.
#[global] Instance origin_eq_dec : EqDecision origin.
Proof. solve_decision. Defined.

(** What [this.timer] will do: close submenus (nothing here), or collapse. *)
Inductive menu_timer := CloseSubmenus | CollapseAll.

Record menu (A : Type) := mk_menu {
  m_items : list A; active : option nat; visible : bool; m_timer : option menu_timer;
}.
#[global] Arguments mk_menu {A}.
#[global] Arguments m_items {A}.
#[global] Arguments active {A}.
#[global] Arguments visible {A}.
#[global] Arguments m_timer {A}.
#[export] Instance menu_eta A : Settable (menu A) := fun m =>
  mk_menu (m_items m) (active m) (visible m) (m_timer m).

Class menu_host (A S : Type) := {
  the_menu : S -> menu A;
  put_menu : menu A -> S -> S;
  menufocus : origin -> nat -> S -> S;
  menuselect : origin -> nat -> S -> S;
}.

Section plain.
Context {A : Type}.
Implicit Types m : menu A.

(** [blur], not from a focus event. *)
Definition menu_blur m : menu A := m <| m_timer := None |> <| active := None |>.

Definition isFirstItem m : bool := bool_decide (active m = Some 0%nat).
Definition isLastItem m : bool :=
  match active m with Some i => (length (m_items m) <=? S i)%nat | None => false end.

(** [refresh] after the items were replaced: an active item is gone. *)
Definition menu_refresh (items : list A) m : menu A :=
  let m := m <| m_items := items |> in
  match active m with Some _ => menu_blur m | None => m end.

Definition collapseAll m : menu A := m <| m_timer := Some CollapseAll |>.

Definition menu_tick m : menu A :=
  match m_timer m with
  | Some CollapseAll => menu_blur m
  | Some CloseSubmenus => m <| m_timer := None |>
  | None => m
  end.
End plain.

Section hosted.
Context {A S : Type} `{menu_host A S}.
(** Whether the menu scrolls, its height and the offset of its items. *)
Context (hasScroll : bool) (height : Z) (top : nat -> Z).

Definition menu_focus (o : origin) (i : nat) (s : S) : S :=
  let m := menu_blur (the_menu s) in
  let m := m <| active := Some i |> in
  let m := if decide (o = ByKeydown) then m else m <| m_timer := Some CloseSubmenus |> in
  menufocus o i (put_menu m s).

(** [_move] with "next" and "first", or "prev" and "last". *)
Definition menu_move (forward : bool) (o : origin) (s : S) : S :=
  let m := the_menu s in
  let n := length (m_items m) in
  if (n =? 0)%nat then s
  else
    let next :=
      match active m with
      | Some i => if forward then (if (Datatypes.S i <? n)%nat then Datatypes.S i else 0%nat)
                  else (if (i =? 0)%nat then pred n else pred i)
      | None => if forward then 0%nat else pred n
      end in
    menu_focus o next s.

Definition menu_next : origin -> S -> S := menu_move true.
Definition menu_previous : origin -> S -> S := menu_move false.

(** The first of the items [l] for which [stop] holds, or the last of them. *)
Fixpoint page_item (stop : nat -> bool) (l : list nat) : option nat :=
  match l with
  | [] => None
  | i :: l => if stop i then Some i else match page_item stop l with Some j => Some j | None => Some i end
  end.

Definition menu_nextPage (o : origin) (s : S) : S :=
  let m := the_menu s in
  let n := length (m_items m) in
  match active m with
  | None => menu_next o s
  | Some i =>
      if isLastItem m then s
      else if hasScroll then
        match page_item (fun j => 0 <=? top j - top i - height) (seq (Datatypes.S i) (n - Datatypes.S i)) with
        | Some j => menu_focus o j s
        | None => s
        end
      else menu_focus o (pred n) s
  end.

Definition menu_previousPage (o : origin) (s : S) : S :=
  let m := the_menu s in
  match active m with
  | None => menu_next o s
  | Some i =>
      if isFirstItem m then s
      else if hasScroll then
        match page_item (fun j => top j - top i + height <=? 0) (rev (seq 0 i)) with
        | Some j => menu_focus o j s
        | None => s
        end
      else menu_focus o 0%nat s
  end.

(** [select]; [target] is the item clicked, if any. *)
Definition menu_select (o : origin) (target : option nat) (s : S) : S :=
  let m := the_menu s in
  let m := m <| active := match active m with Some i => Some i | None => target end |> in
  match active m with
  | Some i => menuselect o i (put_menu (collapseAll m) s)
  | None => s
  end.
End hosted.
