(* ===== verification/UiComplete.v ===== *)
(** * jQuery UI autocomplete

    Models the widget [ui.autocomplete] of
    [2019104287/code/WebContent/js/jquery-ui.js] (with the live region extension) over
    the menu of [UiMenu]: the search timer, requests and responses with their shared
    counter, the keys, and what the input shows.  The page's listeners only answer
    ([allow]).  Text is ASCII, and so is the case folding of the filter.  Labels are
    strings; the size and place of the menu are not modelled. *)

From S2P Require Export UiMenu.

(** ** Items and sources *)

(** An element of a response: a string, or an object with its two properties. *)
Inductive raw_item := RStr (s : string) | RObj (label value : option string).

(** What is attached to an entry of the menu. *)
Record item := mk_item { label : option string; it_value : option string }.
#[global] Instance item_eq_dec : EqDecision item.
Proof. solve_decision. Defined.

Definition truthy (s : option string) : bool :=
  match s with Some s => negb (String.eqb s "") | None => false end.
(** [a || b]. *)
Definition or_else (a b : option string) : option string := if truthy a then a else b.

Definition raw_fields (r : raw_item) : item :=
  match r with RStr _ => mk_item None None | RObj l v => mk_item l v end.

(** A property of the object itself wins over the computed one. *)
Definition own (computed mine : option string) : option string :=
  match mine with Some m => Some m | None => computed end.

Definition normalize_item (r : raw_item) : item :=
  match r with
  | RStr s => mk_item (Some s) (Some s)
  | RObj l v => mk_item (own (or_else l v) l) (own (or_else v l) v)
  end.

Definition normalize (items : list raw_item) : list item :=
  match items with
  | RObj l v :: _ => if truthy l && truthy v then raw_fields <$> items else normalize_item <$> items
  | _ => normalize_item <$> items
  end.

(** *** [escapeRegex] and [filter] *)

(** The class [[\-\[\]{}()*+?.,\\\^$|#\s]]. *)
Definition escaped (c : ascii) : bool :=
  is_in "-[]{}()*+?.,\^$|#" c || is_blank c.

Fixpoint escapeRegex (s : string) : string :=
  match s with
  | EmptyString => EmptyString
  | String c s => if escaped c then String "\" (String c (escapeRegex s)) else String c (escapeRegex s)
  end.

(** The characters a pattern of literals and escaped literals stands for; [None] is a
    pattern with an operator in it. *)
Fixpoint literals (p : string) : option string :=
  match p with
  | EmptyString => Some EmptyString
  | String c p =>
      if Ascii.eqb c "\" then
        match p with
        | String c' p' => if escaped c' then String c' <$> literals p' else None
        | EmptyString => None
        end
      else if is_in "[]{}()*+?.^$|" c then None
      else String c <$> literals p
  end.

(** [new RegExp(p, "i").test(s)] for a pattern of literals. *)
Definition matches (p s : string) : bool :=
  match literals p with Some l => occurs (toLowerCase l) (toLowerCase s) | None => false end.

(** [value.label || value.value || value] as text. *)
Definition item_text (r : raw_item) : string :=
  match r with
  | RStr s => s
  | RObj l v => match or_else l v with
                | Some s => if String.eqb s "" then "[object Object]" else s
                | None => "[object Object]"
                end
  end.

Definition filter_items (array : list raw_item) (term : string) : list raw_item :=
  List.filter (fun r => matches (escapeRegex term) (item_text r)) array.

(** [options.source]: an array, an address, or a function of the page that answers
    some time. *)
Inductive source := SArray (l : list raw_item) | SUrl | SFunction.

Record ac_options := mk_ac_options {
  minLength : nat; autoFocus : bool; isMultiLine : bool; readOnly : bool; src : source;
}.

(** ** State *)

Inductive ac_event :=
  | EvSearch | EvResponse (content : option (list item)) | EvOpen | EvClose
  | EvFocus (i : item) | EvSelect (i : item) | EvChange (i : option item).

(** Functions handed to [_delay] without a time. *)
Inductive delayed := ClearCancelBlur | WatchMouse | Restore (previous : option string) (i : item).

Record ac := mk_ac {
  val : string;
  hasFocus : bool;
  disabled : bool;
  term : option string;
  previous : option string;
  selectedItem : option item;
  pending : Z;
  loading : bool;
  cancelSearch : bool;
  isNewMenu : bool;
  searching : bool;
  cancelBlur : bool;
  suppressKeyPress : bool;
  suppressKeyPressRepeat : bool;
  suppressInput : bool;
  requestIndex : nat;
  inFlight : list nat;
  xhr : option nat;
  queue : list delayed;
  watching : nat;
  replay : list nat;
  liveRegion : string;
  ac_menu : menu item;
  told : list ac_event;
}.
#[export] Instance ac_eta : Settable ac := fun s =>
  mk_ac (val s) (hasFocus s) (disabled s) (term s) (previous s) (selectedItem s) (pending s)
    (loading s) (cancelSearch s) (isNewMenu s) (searching s) (cancelBlur s) (suppressKeyPress s)
    (suppressKeyPressRepeat s) (suppressInput s) (requestIndex s) (inFlight s) (xhr s) (queue s)
    (watching s) (replay s) (liveRegion s) (ac_menu s) (told s).

(** [_create]; [index] is the counter all instances share. *)
Definition ac_create (text : string) (index : nat) : ac :=
  mk_ac text false false None None None 0 false false true false false false false false index [] None
    [] 0 [] "" (mk_menu [] None false None) [].

Definition tell (ev : ac_event) (s : ac) : ac := s <| told := told s ++ [ev] |>.

Definition val_of (i : item) : string := default EmptyString (it_value i).

Section complete.
Context (o : ac_options) (allow : ac_event -> bool).
Context (hasScroll : bool) (height : Z) (top : nat -> Z).

(** ** Closing *)

Definition close_menu (s : ac) : ac :=
  if visible (ac_menu s) then
    tell EvClose (s <| ac_menu := menu_blur (ac_menu s <| visible := false |>) |> <| isNewMenu := true |>)
  else s.

Definition close (s : ac) : ac := close_menu (s <| cancelSearch := true |>).

Definition trigger_change (s : ac) : ac :=
  if decide (previous s = Some (val s)) then s else tell (EvChange (selectedItem s)) s.

(** ** What the menu tells the widget

    The handlers are silent while the widget is disabled. *)

(** A first focus by the mouse on a new menu is put off until the mouse moves. *)
Definition on_menufocus (by_ : origin) (i : nat) (s : ac) : ac :=
  if disabled s then s
  else if isNewMenu s && bool_decide (by_ = ByMouse) then
    s <| isNewMenu := false |> <| ac_menu := menu_blur (ac_menu s) |> <| replay := replay s ++ [i] |>
  else
    let s := s <| isNewMenu := false |> in
    match m_items (ac_menu s) !! i with
    | Some it =>
        let s := tell (EvFocus it) s in
        if allow (EvFocus it)
        then if bool_decide (by_ = ByKeydown \/ by_ = ByKeypress) then s <| val := val_of it |> else s
        else match it_value it with Some v => s <| liveRegion := v |> | None => s end
    | None => s
    end.

Definition on_menuselect (by_ : origin) (i : nat) (s : ac) : ac :=
  if disabled s then s
  else match m_items (ac_menu s) !! i with
  | Some it =>
      let prev := previous s in
      let s := if hasFocus s then s
               else s <| hasFocus := true |> <| selectedItem := None |> <| previous := prev |>
                      <| queue := queue s ++ [Restore prev it] |> in
      let s := tell (EvSelect it) s in
      let s := if allow (EvSelect it) then s <| val := val_of it |> else s in
      let s := close (s <| term := Some (val s) |>) in
      s <| selectedItem := Some it |>
  | None => s
  end.

#[export] Instance ac_host : menu_host item ac := {
  the_menu := ac_menu;
  put_menu m s := s <| ac_menu := m |>;
  menufocus := on_menufocus;
  menuselect := on_menuselect;
}.

(** ** Responses *)

(** A focus that was put off for an item now removed is not followed. *)
Definition suggest (items : list item) (s : ac) : ac :=
  let m := menu_refresh items (ac_menu s) in
  let s := s <| ac_menu := m <| visible := true |> |> <| replay := [] |> in
  if autoFocus o then menu_next ByOther s else s.

Definition results (n : nat) : string :=
  pretty n +:+ (if (1 <? n)%nat then " results are" else " result is")
  +:+ " available, use up and down arrow keys to navigate.".

(** [__response]; [None] is a response without content. *)
Definition base_response (content : option (list raw_item)) (s : ac) : ac :=
  let content := normalize <$> content in
  let s := tell (EvResponse content) s in
  match content with
  | Some (it :: l) => if negb (disabled s) && negb (cancelSearch s)
                      then tell EvOpen (suggest (it :: l) s) else close_menu s
  | _ => close_menu s
  end.

(** The live region extension of [__response]. *)
Definition handle_response (content : option (list raw_item)) (s : ac) : ac :=
  let s := base_response content s in
  if disabled s || cancelSearch s then s
  else s <| liveRegion := match content with
                          | Some (r :: l) => results (length (r :: l))
                          | _ => "No search results."
                          end |>.

(** The function [_response] returns, for the request [index]. *)
Definition respond (index : nat) (content : option (list raw_item)) (s : ac) : ac :=
  let s := s <| inFlight := filter (fun j => j <> index) (inFlight s) |> in
  let s := if (index =? requestIndex s)%nat then handle_response content s else s in
  let s := s <| pending := pending s - 1 |> in
  if pending s =? 0 then s <| loading := false |> else s.

(** [xhr.abort()]: a request still on its way fails at once. *)
Definition abort_xhr (s : ac) : ac :=
  match xhr s with
  | Some index => if bool_decide (index ∈ inFlight s) then respond index (Some []) s else s
  | None => s
  end.

(** ** Searching *)

Definition start_search (v : string) (s : ac) : ac :=
  let s := s <| pending := pending s + 1 |> <| loading := true |> <| cancelSearch := false |> in
  let index := S (requestIndex s) in
  let s := s <| requestIndex := index |> <| inFlight := inFlight s ++ [index] |> in
  match src o with
  | SArray l => respond index (Some (filter_items l v)) s
  | SUrl => abort_xhr s <| xhr := Some index |>
  | SFunction => s
  end.

(** [search(null)] and [search(value)]. *)
Definition search (value : option string) (s : ac) : ac :=
  let v := default (val s) value in
  let s := s <| term := Some (val s) |> in
  if (String.length v <? minLength o)%nat then close s
  else
    let s := tell EvSearch s in
    if allow EvSearch then start_search v s else s.

Definition searchTimeout (s : ac) : ac := s <| searching := true |>.

Definition search_tick (s : ac) : ac :=
  if searching s then
    let s := s <| searching := false |> in
    if decide (term s = Some (val s)) then s else search None (s <| selectedItem := None |>)
  else s.

(** ** Keys *)

Inductive direction := DNext | DPrevious | DNextPage | DPreviousPage.

Definition move (d : direction) (by_ : origin) (s : ac) : ac :=
  if negb (visible (ac_menu s)) then search None s
  else
    let back := match d with DPrevious | DPreviousPage => true | _ => false end in
    if (isFirstItem (ac_menu s) && back) || (isLastItem (ac_menu s) && negb back) then
      s <| val := default EmptyString (term s) |> <| ac_menu := menu_blur (ac_menu s) |>
    else match d with
         | DNext => menu_next by_ s
         | DPrevious => menu_previous by_ s
         | DNextPage => menu_nextPage hasScroll height top by_ s
         | DPreviousPage => menu_previousPage hasScroll height top by_ s
         end.

Definition keyEvent (d : direction) (by_ : origin) (s : ac) : ac :=
  if negb (isMultiLine o) || visible (ac_menu s) then move d by_ s else s.

Inductive ackey := KPageUp | KPageDown | KUp | KDown | KEnter | KTab | KEscape | KOther.

Definition keydown (k : ackey) (s : ac) : ac :=
  if disabled s then s
  else if readOnly o then
    s <| suppressKeyPress := true |> <| suppressInput := true |> <| suppressKeyPressRepeat := true |>
  else
    let s := s <| suppressKeyPress := false |> <| suppressInput := false |>
               <| suppressKeyPressRepeat := false |> in
    match k with
    | KPageUp => move DPreviousPage ByKeydown (s <| suppressKeyPress := true |>)
    | KPageDown => move DNextPage ByKeydown (s <| suppressKeyPress := true |>)
    | KUp => keyEvent DPrevious ByKeydown (s <| suppressKeyPress := true |>)
    | KDown => keyEvent DNext ByKeydown (s <| suppressKeyPress := true |>)
    | KEnter => match active (ac_menu s) with
                | Some _ => menu_select ByKeydown None (s <| suppressKeyPress := true |>)
                | None => s
                end
    | KTab => match active (ac_menu s) with
              | Some _ => menu_select ByKeydown None s
              | None => s
              end
    | KEscape => if visible (ac_menu s)
                 then close (s <| val := default EmptyString (term s) |>) else s
    | KOther => searchTimeout (s <| suppressKeyPressRepeat := true |>)
    end.

Definition keypress (k : ackey) (s : ac) : ac :=
  if disabled s then s
  else if suppressKeyPress s then s <| suppressKeyPress := false |>
  else if suppressKeyPressRepeat s then s
  else match k with
       | KPageUp => move DPreviousPage ByKeypress s
       | KPageDown => move DNextPage ByKeypress s
       | KUp => keyEvent DPrevious ByKeypress s
       | KDown => keyEvent DNext ByKeypress s
       | _ => s
       end.

(** The field has the text [v] when [input] is raised. *)
Definition input (v : string) (s : ac) : ac :=
  let s := s <| val := v |> in
  if disabled s then s
  else if suppressInput s then s <| suppressInput := false |> else searchTimeout s.

Definition on_focus (s : ac) : ac :=
  let s := s <| hasFocus := true |> in
  if disabled s then s else s <| selectedItem := None |> <| previous := Some (val s) |>.

Definition on_blur (s : ac) : ac :=
  let s := s <| hasFocus := false |> in
  if disabled s then s
  else if cancelBlur s then s <| cancelBlur := false |>
  else trigger_change (close (s <| searching := false |>)).

(** ** Mouse *)

(** A press on the menu, on an item or beside the items. *)
Definition menu_mousedown (on_item : bool) (s : ac) : ac :=
  if disabled s then s
  else
    s <| cancelBlur := true |>
      <| queue := queue s ++ ClearCancelBlur :: (if on_item then [] else [WatchMouse]) |>.

Definition run_delayed (s : ac) : ac :=
  match queue s with
  | [] => s
  | d :: q =>
      let s := s <| queue := q |> in
      match d with
      | ClearCancelBlur => s <| cancelBlur := false |>
      | WatchMouse => s <| watching := S (watching s) |>
      | Restore p it => s <| previous := p |> <| selectedItem := Some it |>
      end
  end.

(** A click: an item that is still active afterwards stays so. *)
Definition menu_click (i : nat) (s : ac) : ac :=
  let s := menu_select ByMouse (Some i) s in
  match active (ac_menu s) with
  | Some _ => s <| ac_menu := ac_menu s <| m_timer := None |> |>
  | None => s
  end.

(** The next press anywhere, outside the field and its menu or not. *)
Definition document_mousedown (outside : bool) (s : ac) : ac :=
  let n := watching s in
  let s := s <| watching := 0%nat |> in
  if outside then Nat.iter n close s else s.

(** The pointer moves after a first focus was put off. *)
Definition mousemove (s : ac) : ac :=
  fold_left (fun s i => menu_focus ByMouse i s) (replay s) (s <| replay := [] |>).

(** ** The page *)

Inductive ac_action :=
  | Key (k : ackey) | KeyPress (k : ackey) | Input (v : string) | Focus | Blur
  | SearchTick | Response (index : nat) (content : option (list raw_item))
  | MenuDown (on_item : bool) | MenuEnter (i : nat) | MenuLeave | MenuClick (i : nat) | MenuTick
  | DocumentClick
  | Delayed | DocumentDown (outside : bool) | MouseMove
  | Search (v : option string) | Close | SetDisabled (b : bool) | OtherSearch.

(** A response comes once for a request on its way; an item the mouse is on exists.
    [MenuLeave] is the mouse leaving the menu, or the menu losing the focus: the menu
    carries the mark of a disabled widget, and its own handlers are then silent, those
    of its items and of the document are not. *)
Definition act (a : ac_action) (s : ac) : ac :=
  match a with
  | Key k => keydown k s
  | KeyPress k => keypress k s
  | Input v => input v s
  | Focus => on_focus s
  | Blur => on_blur s
  | SearchTick => search_tick s
  | Response index content =>
      if bool_decide (index ∈ inFlight s) then respond index content s else s
  | MenuDown on_item => menu_mousedown on_item s
  | MenuEnter i => if visible (ac_menu s) && (i <? length (m_items (ac_menu s)))%nat
                   then menu_focus ByMouse i s else s
  | MenuLeave => if disabled s then s else s <| ac_menu := collapseAll (ac_menu s) |>
  | MenuClick i => if visible (ac_menu s) && (i <? length (m_items (ac_menu s)))%nat
                   then menu_click i s else s
  | MenuTick => s <| ac_menu := menu_tick (ac_menu s) |>
  | Delayed => run_delayed s
  | DocumentClick => s <| ac_menu := collapseAll (ac_menu s) |>
  | DocumentDown outside => document_mousedown outside s
  | MouseMove => mousemove s
  | Search v => search v s
  | Close => close s
  | SetDisabled b =>
      let s := s <| disabled := b |> in if b then abort_xhr s else s
  | OtherSearch => s <| requestIndex := S (requestIndex s) |>
  end.
End complete.
