(* ===== verification/CompleteFlow.v ===== *)
(** * jQuery UI autocomplete: requests, closing, keys, the filter

    The properties of [UiComplete] over any sequence of actions: responses of replaced
    requests change nothing, the loading mark counts the requests on their way, a
    closed menu stays closed until the next search; then the walk with the arrow
    keys, the choice of an item, and the filter against plain substring search. *)

From S2P Require Export UiComplete.

Section flow.
Context (o : ac_options) (allow : ac_event -> bool).
Context (hasScroll : bool) (height : Z) (top : nat -> Z).

Abbreviation host := (ac_host allow).
Abbreviation act := (act o allow hasScroll height top).

Definition run (l : list ac_action) (s : ac) : ac := fold_left (fun s a => act a s) l s.

(** ** What the operations leave alone *)

(** The account of the requests. *)
Definition requests (s : ac) := (requestIndex s, inFlight s, pending s, loading s).

(** A step that leaves the requests alone and tells no search. *)
Definition is_search (ev : ac_event) : bool := match ev with EvSearch => true | _ => false end.
Definition searches (s : ac) : nat := length (List.filter is_search (told s)).

Lemma searches_tell ev s : searches (tell ev s) = (searches s + (if is_search ev then 1 else 0))%nat.
Proof.
  unfold searches. cbn. rewrite List.filter_app, length_app. cbn. by destruct (is_search ev).
Qed.

(** Closed by the user: nothing is shown and nothing on its way will be. *)
Definition closed (s : ac) : Prop := visible (ac_menu s) = false /\ cancelSearch s = true.

(** A silent step: same requests, no search told, and a closed menu stays closed. *)
Record silent (s s' : ac) : Prop := {
  si_requests : requests s' = requests s;
  si_searches : searches s' = searches s;
  si_closed : closed s -> closed s';
}.

Lemma silent_refl s : silent s s.
Proof. by split. Qed.

Lemma silent_trans s1 s2 s3 : silent s1 s2 -> silent s2 s3 -> silent s1 s3.
Proof. intros [A1 B1 C1] [A2 B2 C2]. split; [congruence..|auto]. Qed.

Lemma silent_tell ev s : is_search ev = false -> silent s (tell ev s).
Proof. intros H. split; [done| |done]. rewrite searches_tell, H. lia. Qed.

(** Steps that change none of it. *)
Lemma silent_same s s' :
  requests s' = requests s -> told s' = told s -> visible (ac_menu s') = visible (ac_menu s) ->
  cancelSearch s' = cancelSearch s -> silent s s'.
Proof. intros H1 H2 H3 H4. split; [done|unfold searches; by rewrite H2|unfold closed; by rewrite H3, H4]. Qed.

Ltac same := apply silent_same; reflexivity.

Lemma silent_close_menu s : silent s (close_menu s).
Proof.
  unfold close_menu. destruct (visible (ac_menu s)) eqn:E; [|apply silent_refl].
  split; [done| |].
  - rewrite searches_tell. cbn. unfold searches. cbn. lia.
  - intros [H _]. congruence.
Qed.

Lemma closed_close s : closed (close s).
Proof.
  unfold close, close_menu, closed. cbn. destruct (visible (ac_menu s)) eqn:E; cbn; [done|].
  by rewrite E.
Qed.

Lemma silent_close s : silent s (close s).
Proof.
  destruct (silent_close_menu (s <| cancelSearch := true |>)) as [A B C].
  split; [exact A|exact B|intros _; apply closed_close].
Qed.

Lemma silent_menufocus by_ i s : silent s (on_menufocus allow by_ i s).
Proof.
  unfold on_menufocus. destruct (disabled s); [apply silent_refl|].
  destruct (_ && _); [same|]. destruct (_ !! i) as [it|]; [|same].
  eapply silent_trans; [apply (silent_tell (EvFocus it)); done|].
  destruct (allow _); [destruct (bool_decide _)|destruct (it_value it)]; same.
Qed.

Lemma silent_menu_focus by_ i s : silent s (menu_focus (H := host) by_ i s).
Proof. unfold menu_focus. eapply silent_trans; [|apply silent_menufocus]. case_decide; same. Qed.

Lemma silent_move f by_ s : silent s (menu_move (H := host) f by_ s).
Proof. unfold menu_move. destruct (_ =? 0)%nat; [apply silent_refl|apply silent_menu_focus]. Qed.

Lemma silent_nextPage by_ s : silent s (menu_nextPage (H := host) hasScroll height top by_ s).
Proof.
  unfold menu_nextPage. destruct (active _); [|apply silent_move].
  destruct (isLastItem _); [apply silent_refl|]. destruct hasScroll; [|apply silent_menu_focus].
  destruct (page_item _ _); [apply silent_menu_focus|apply silent_refl].
Qed.

Lemma silent_previousPage by_ s : silent s (menu_previousPage (H := host) hasScroll height top by_ s).
Proof.
  unfold menu_previousPage. destruct (active _); [|apply silent_move].
  destruct (isFirstItem _); [apply silent_refl|]. destruct hasScroll; [|apply silent_menu_focus].
  destruct (page_item _ _); [apply silent_menu_focus|apply silent_refl].
Qed.

Lemma silent_menuselect by_ i s : silent s (on_menuselect allow by_ i s).
Proof.
  unfold on_menuselect. destruct (disabled s); [apply silent_refl|].
  destruct (_ !! i) as [it|]; [|apply silent_refl]. cbv zeta.
  set (s1 := if hasFocus s then s else _).
  assert (silent s s1) as H1 by (unfold s1; destruct (hasFocus s); same). clearbody s1.
  eapply silent_trans; [exact H1|]. eapply silent_trans; [by apply (silent_tell (EvSelect it))|].
  set (s2 := tell _ s1). set (s3 := if allow _ then _ else s2).
  assert (silent s2 s3) as H3 by (unfold s3; destruct (allow _); same). clearbody s3.
  eapply silent_trans; [exact H3|].
  apply (silent_trans _ (s3 <| term := Some (val s3) |>)); [same|].
  apply (silent_trans _ (close (s3 <| term := Some (val s3) |>))); [apply silent_close|same].
Qed.

Lemma silent_select by_ t s : silent s (menu_select (H := host) by_ t s).
Proof.
  unfold menu_select. cbv zeta. destruct (active (_ <| active := _ |>)); [|apply silent_refl].
  eapply silent_trans; [|apply silent_menuselect]. same.
Qed.

(** ** Responses *)

(** The parts of [silent] a response keeps whatever it shows. *)
Lemma suggest_requests items s :
  requests (suggest o allow items s) = requests s /\ searches (suggest o allow items s) = searches s.
Proof.
  unfold suggest. set (s1 := _ <| replay := [] |>).
  assert (requests s1 = requests s /\ searches s1 = searches s) as [<- <-] by done.
  destruct (autoFocus o); [|done]. by destruct (silent_move true ByOther s1).
Qed.

Lemma silent_base content s : silent s (base_response o allow content s).
Proof.
  unfold base_response. set (c := normalize <$> content). clearbody c. cbv zeta.
  set (s1 := tell (EvResponse c) s).
  assert (silent s s1) as H1 by by apply silent_tell. clearbody s1.
  set (s2 := match c with Some _ => _ | None => _ end).
  assert (silent s1 s2) as H2.
  { unfold s2. destruct c as [[|it l]|]; [apply silent_close_menu| |apply silent_close_menu].
    destruct (negb (disabled s1) && negb (cancelSearch s1)) eqn:E; [|apply silent_close_menu].
    destruct (suggest_requests (it :: l) s1) as [A B]. split; [exact A| |].
    - rewrite searches_tell. cbn [is_search]. rewrite B. lia.
    - intros [_ Hc]. apply andb_true_iff in E as [_ E]. by rewrite Hc in E. }
  by eapply silent_trans.
Qed.

Lemma silent_handle content s : silent s (handle_response o allow content s).
Proof.
  unfold handle_response. cbv zeta. set (s2 := base_response o allow content s).
  assert (silent s s2) as H2 by apply silent_base. clearbody s2.
  eapply silent_trans; [exact H2|]. destruct (_ || _); [apply silent_refl|same].
Qed.

(** *** The requests on their way *)

(** The loading mark counts the requests, which have numbers up to the counter. *)
Record counted (s : ac) : Prop := {
  co_pending : pending s = Z.of_nat (length (inFlight s));
  co_loading : loading s = (0 <? pending s);
  co_nodup : NoDup (inFlight s);
  co_index : forall j, j ∈ inFlight s -> (j <= requestIndex s)%nat;
}.

Lemma counted_requests s s' : requests s' = requests s -> counted s -> counted s'.
Proof.
  unfold requests. intros [= E1 E2 E3 E4] [A B C D]. split; by rewrite ?E1, ?E2, ?E3, ?E4.
Qed.

Lemma length_remove (l : list nat) j : NoDup l -> j ∈ l ->
  S (length (filter (fun x => x <> j) l)) = length l.
Proof.
  induction l as [|x l IH]; [by intros _ ?%elem_of_nil|].
  rewrite NoDup_cons. intros [Hx Hl] Hj. rewrite filter_cons. case_decide as E; cbn [length].
  - rewrite <- (IH Hl); [done|]. set_solver.
  - assert (x = j) as -> by (by destruct (decide (x = j))).
    f_equal. f_equal. apply filter_all. intros y Hy ->. done.
Qed.

(** The marks after one answer. *)
Definition one_less (s : ac) : ac :=
  let s := s <| pending := pending s - 1 |> in if pending s =? 0 then s <| loading := false |> else s.

Lemma respond_unfold index c s :
  respond o allow index c s =
  let s1 := s <| inFlight := filter (fun j => j <> index) (inFlight s) |> in
  one_less (if (index =? requestIndex s)%nat then handle_response o allow c s1 else s1).
Proof. reflexivity. Qed.

Lemma counted_one_less s j :
  counted s -> j ∈ inFlight s ->
  counted (one_less (s <| inFlight := filter (fun x => x <> j) (inFlight s) |>)).
Proof.
  intros [A B C D] Hj. pose proof (length_remove _ j C Hj) as Hl.
  assert (forall b, counted (s <| inFlight := filter (fun x => x <> j) (inFlight s) |>
    <| pending := pending s - 1 |> <| loading := b |>) <-> b = (0 <? pending s - 1)) as Hb.
  { intros b. split; [by intros []|]. intros ->. split; cbn; [lia|done|by apply NoDup_filter|].
    intros x [_ Hx]%list_elem_of_filter. by apply D. }
  unfold one_less. cbn [pending set_field]. destruct (Z.eqb_spec (pending s - 1) 0) as [E|E].
  - apply Hb. by rewrite E.
  - assert (loading s = (0 <? pending s - 1)) as Hld by (rewrite B; zcases; lia).
    apply (counted_requests (s <| inFlight := filter (fun x => x <> j) (inFlight s) |>
      <| pending := pending s - 1 |> <| loading := loading s |>)); [done|]. by apply Hb.
Qed.

Lemma requests_one_less s s' : requests s = requests s' -> requests (one_less s) = requests (one_less s').
Proof.
  unfold requests, one_less. intros [= E1 E2 E3 E4]. cbn. rewrite E3.
  destruct (_ =? _); cbn; by rewrite ?E1, ?E2, ?E3, ?E4.
Qed.

Lemma counted_respond index c s : counted s -> index ∈ inFlight s -> counted (respond o allow index c s).
Proof.
  intros Hc Hi. rewrite respond_unfold. cbv zeta.
  eapply counted_requests; [|by apply (counted_one_less s index)]. apply requests_one_less.
  destruct (_ =? _)%nat; [|done]. apply (si_requests _ _ (silent_handle c _)).
Qed.

Lemma respond_frame index c s :
  requestIndex (respond o allow index c s) = requestIndex s /\
  searches (respond o allow index c s) = searches s /\
  (closed s -> closed (respond o allow index c s)).
Proof.
  rewrite respond_unfold. cbv zeta.
  set (s1 := s <| inFlight := filter (fun j => j <> index) (inFlight s) |>).
  assert (forall s', requestIndex (one_less s') = requestIndex s' /\
    searches (one_less s') = searches s' /\ (closed s' -> closed (one_less s'))) as Ho
    by (intros s'; unfold one_less; destruct (_ =? _); done).
  destruct (_ =? _)%nat.
  - destruct (silent_handle c s1) as [A B C]. destruct (Ho (handle_response o allow c s1)) as (-> & -> & Hcl).
    injection A as A1 _ _ _. split; [exact A1|]. split; [exact B|]. intros H. apply Hcl, C. exact H.
  - destruct (Ho s1) as (-> & -> & Hcl). split_and!; [done..|]. intros H. apply Hcl. exact H.
Qed.

(** ** Every action *)

(** What every action keeps: the counter grows, the account of the requests stays
    right, and unless a search is told a closed menu stays closed. *)
Record steady (s s' : ac) : Prop := {
  st_index : (requestIndex s <= requestIndex s')%nat;
  st_counted : counted s -> counted s';
  st_searches : (searches s <= searches s')%nat;
  st_closed : searches s' = searches s -> closed s -> closed s';
}.

Lemma steady_refl s : steady s s.
Proof. by split. Qed.

Lemma steady_trans s1 s2 s3 : steady s1 s2 -> steady s2 s3 -> steady s1 s3.
Proof.
  intros [A1 B1 C1 D1] [A2 B2 C2 D2]. split; [lia|auto|lia|].
  intros H Hc. apply D2; [lia|]. apply D1; [lia|done].
Qed.

Lemma steady_silent s s' : silent s s' -> steady s s'.
Proof.
  intros [A B C]. split; [|by apply counted_requests|lia|done]. injection A as -> _ _ _. done.
Qed.

Lemma steady_iter n f s : (forall s, steady s (f s)) -> steady s (Nat.iter n f s).
Proof. intros Hf. induction n as [|n IH]; [apply steady_refl|]. by eapply steady_trans. Qed.

Lemma steady_respond index c s : index ∈ inFlight s -> steady s (respond o allow index c s).
Proof.
  intros Hi. destruct (respond_frame index c s) as (A & B & C).
  split; [lia| |lia|done]. intros Hc. by apply counted_respond.
Qed.

Lemma steady_abort s : steady s (abort_xhr o allow s).
Proof.
  unfold abort_xhr. destruct (xhr s) as [i|]; [|apply steady_refl].
  case_bool_decide; [by apply steady_respond|apply steady_refl].
Qed.

Lemma counted_new s :
  counted s -> counted (s <| pending := pending s + 1 |> <| loading := true |> <| cancelSearch := false |>
    <| requestIndex := S (requestIndex s) |> <| inFlight := inFlight s ++ [S (requestIndex s)] |>).
Proof.
  intros [A B C D]. split; cbn.
  - rewrite length_app. cbn. lia.
  - symmetry. apply Z.ltb_lt. lia.
  - apply NoDup_app. split_and!; [done| |apply NoDup_singleton].
    intros j Hj ->%list_elem_of_singleton. apply D in Hj. lia.
  - intros j [Hj| ->%list_elem_of_singleton]%elem_of_app; [apply D in Hj; lia|lia].
Qed.

Lemma start_search_frame v s :
  (requestIndex s <= requestIndex (start_search o allow v s))%nat /\
  (counted s -> counted (start_search o allow v s)) /\
  (searches s <= searches (start_search o allow v s))%nat.
Proof.
  unfold start_search. cbv zeta. cbn [requestIndex set_field].
  set (s1 := _ <| inFlight := _ |>).
  assert (requestIndex s <= requestIndex s1 /\ (counted s -> counted s1) /\ searches s1 = searches s /\
    S (requestIndex s) ∈ inFlight s1)%nat as (A & B & C & D).
  { split_and!; [cbn; lia|apply counted_new|done|]. cbn. apply elem_of_app. right. by constructor. }
  clearbody s1. destruct (src o).
  - destruct (steady_respond (S (requestIndex s)) (Some (filter_items l v)) s1 D) as [A' B' C' _].
    split_and!; [lia|auto|lia].
  - destruct (steady_abort s1) as [A' B' C' _]. set (s2 := abort_xhr o allow s1) in *.
    clearbody s2. split_and!; [change (requestIndex s <= requestIndex s2)%nat; lia| |].
    + intros Hc. apply (counted_requests s2); [done|auto].
    + change (searches s <= searches s2)%nat. lia.
  - split_and!; [done..|lia].
Qed.

Lemma steady_search v s : steady s (search o allow v s).
Proof.
  unfold search. cbv zeta. destruct (_ <? _)%nat.
  { eapply steady_trans; [|apply steady_silent, silent_close]. apply steady_silent. same. }
  set (s1 := tell EvSearch _).
  assert (searches s1 = S (searches s) /\ requests s1 = requests s) as [A B].
  { split; [|done]. unfold s1. rewrite searches_tell. cbn [is_search]. unfold searches. cbn. lia. }
  clearbody s1. pose proof B as B'. injection B' as B1 _ _ _.
  destruct (allow EvSearch).
  - destruct (start_search_frame (default (val s) v) s1) as (C & D & E).
    split; [lia| |lia|lia]. intros Hc. apply D. by apply (counted_requests s).
  - split; [lia| |lia|lia]. by apply counted_requests.
Qed.

Lemma steady_move d by_ s : steady s (move o allow hasScroll height top d by_ s).
Proof.
  unfold move. destruct (negb (visible _)); [apply steady_search|]. cbv zeta.
  destruct (_ || _); [apply steady_silent; same|].
  destruct d; apply steady_silent.
  - apply silent_move.
  - apply silent_move.
  - apply silent_nextPage.
  - apply silent_previousPage.
Qed.

Lemma steady_keyEvent d by_ s : steady s (keyEvent o allow hasScroll height top d by_ s).
Proof. unfold keyEvent. destruct (_ || _); [apply steady_move|apply steady_refl]. Qed.

(** A silent step before a steady one. *)
Ltac after s1 := apply (steady_trans _ s1); [apply steady_silent; same|].

Lemma steady_keydown k s : steady s (keydown o allow hasScroll height top k s).
Proof.
  unfold keydown. destruct (disabled s); [apply steady_refl|].
  destruct (readOnly o); [apply steady_silent; same|]. cbv zeta.
  set (s1 := _ <| suppressKeyPressRepeat := false |>).
  apply (steady_trans _ s1); [apply steady_silent; same|]. clearbody s1.
  destruct k.
  - after (s1 <| suppressKeyPress := true |>). apply steady_move.
  - after (s1 <| suppressKeyPress := true |>). apply steady_move.
  - after (s1 <| suppressKeyPress := true |>). apply steady_keyEvent.
  - after (s1 <| suppressKeyPress := true |>). apply steady_keyEvent.
  - destruct (active _); [|apply steady_refl]. after (s1 <| suppressKeyPress := true |>).
    apply steady_silent, silent_select.
  - destruct (active _); [|apply steady_refl]. apply steady_silent, silent_select.
  - destruct (visible _); [|apply steady_refl].
    after (s1 <| val := default EmptyString (term s1) |>). apply steady_silent, silent_close.
  - apply steady_silent. same.
Qed.

Lemma steady_keypress k s : steady s (keypress o allow hasScroll height top k s).
Proof.
  unfold keypress. destruct (disabled s); [apply steady_refl|].
  destruct (suppressKeyPress s); [apply steady_silent; same|].
  destruct (suppressKeyPressRepeat s); [apply steady_refl|].
  destruct k; try apply steady_refl; try apply steady_move; apply steady_keyEvent.
Qed.

Lemma steady_focuses l s :
  steady s (fold_left (fun s i => menu_focus (H := host) ByMouse i s) l s).
Proof.
  revert s. induction l as [|i l IH]; intros s; [apply steady_refl|]. cbn [fold_left].
  eapply steady_trans; [|apply IH]. apply steady_silent, silent_menu_focus.
Qed.

Lemma steady_mousemove s : steady s (mousemove allow s).
Proof. unfold mousemove. after (s <| replay := [] |>). apply steady_focuses. Qed.

Lemma steady_act a s : steady s (act a s).
Proof.
  destruct a; cbn [UiComplete.act].
  - apply steady_keydown.
  - apply steady_keypress.
  - unfold input. cbv zeta. apply steady_silent.
    destruct (disabled _); [same|]. destruct (suppressInput _); same.
  - unfold on_focus. cbv zeta. apply steady_silent. destruct (disabled _); same.
  - unfold on_blur. cbv zeta. apply steady_silent. destruct (disabled _); [same|].
    destruct (cancelBlur _); [same|].
    set (s1 := _ <| searching := false |>).
    apply (silent_trans _ s1); [same|]. apply (silent_trans _ (close s1)); [apply silent_close|].
    unfold trigger_change. case_decide; [apply silent_refl|by apply silent_tell].
  - unfold search_tick. destruct (searching s); [|apply steady_refl]. cbv zeta.
    case_decide; [apply steady_silent; same|].
    after (s <| searching := false |> <| selectedItem := None |>). apply steady_search.
  - case_bool_decide; [by apply steady_respond|apply steady_refl].
  - unfold menu_mousedown. destruct (disabled s); [apply steady_refl|]. apply steady_silent. same.
  - destruct (_ && _); [|apply steady_refl]. apply steady_silent, silent_menu_focus.
  - destruct (disabled s); [apply steady_refl|]. apply steady_silent. same.
  - destruct (_ && _); [|apply steady_refl]. unfold menu_click. cbv zeta.
    set (s1 := menu_select ByMouse (Some i) s).
    apply (steady_trans _ s1); [apply steady_silent, silent_select|]. clearbody s1.
    destruct (active _); [|apply steady_refl]. apply steady_silent. same.
  - apply steady_silent. unfold menu_tick. destruct (m_timer _) as [[]|]; same.
  - apply steady_silent. same.
  - unfold run_delayed. destruct (queue s) as [|d q]; [apply steady_refl|]. apply steady_silent.
    destruct d; same.
  - unfold document_mousedown. cbv zeta. after (s <| watching := 0%nat |>).
    destruct outside; [|apply steady_refl]. apply steady_iter. intros. apply steady_silent, silent_close.
  - apply steady_mousemove.
  - apply steady_search.
  - apply steady_silent, silent_close.
  - after (s <| disabled := b |>). destruct b; [apply steady_abort|apply steady_refl].
  - split; cbn; [lia| |unfold searches; cbn; lia|done].
    intros [A B C D]. split; try done. intros j Hj. apply D in Hj. cbn. lia.
Qed.

Lemma steady_run l s : steady s (run l s).
Proof.
  revert s. induction l as [|a l IH]; intros s; [apply steady_refl|].
  eapply steady_trans; [apply steady_act|apply IH].
Qed.

(** C27.  A response that was overtaken changes nothing: if a newer request of any
    widget has been started, then whatever happens in between, the late answer only
    takes the request out of the account. *)
Theorem stale_response_ignored index content l s :
  (index < requestIndex s)%nat ->
  let s1 := run l s in
  exists flight p b, act (Response index content) s1
    = s1 <| inFlight := flight |> <| pending := p |> <| loading := b |>.
Proof.
  intros Hi s1. pose proof (st_index _ _ (steady_run l s)) as Hm. fold s1 in Hm. clearbody s1.
  cbn [UiComplete.act]. case_bool_decide as Hin.
  - rewrite respond_unfold. cbv zeta. rewrite (proj2 (Nat.eqb_neq index (requestIndex s1))) by lia.
    unfold one_less. cbn [pending set_field]. destruct (_ =? _); [by eexists _, _, _|].
    exists (filter (fun j => j <> index) (inFlight s1)), (pending s1 - 1), (loading s1). done.
  - exists (inFlight s1), (pending s1), (loading s1). by destruct s1.
Qed.

(** The loading mark is right: after any actions on a new widget the number of
    pending searches is the number of requests on their way, and the mark is shown
    exactly while there is one. *)
Theorem loading_counts_requests text index l :
  let s := run l (ac_create text index) in
  pending s = Z.of_nat (length (inFlight s)) /\ (loading s = true <-> inFlight s <> []).
Proof.
  intros s. assert (counted s) as [A B _ _].
  { apply (st_counted _ _ (steady_run l _)).
    split; [done|done|apply NoDup_nil_2|by intros j ?%elem_of_nil]. }
  clearbody s. split; [done|]. rewrite B, A, Z.ltb_lt. destruct (inFlight s); cbn; split; try lia; done.
Qed.

(** Once the menu is closed by the user, by a choice or by leaving the field, it
    stays closed until the next search is announced, whatever responses arrive. *)
Theorem closed_until_search l s :
  searches (run l (close s)) = searches (close s) -> visible (ac_menu (run l (close s))) = false.
Proof. intros H. apply (st_closed _ _ (steady_run l (close s)) H (closed_close s)). Qed.

(** ** The arrow keys *)

Section arrows.
Context (l : list item) (t : string).
Context (Hlisten : forall it, allow (EvFocus it) = true) (Hwrite : readOnly o = false).

(** An open menu with the items [l], under the text [t]. *)
Record open_menu (at_ : option nat) (v : string) (s : ac) : Prop := {
  om_items : m_items (ac_menu s) = l;
  om_active : active (ac_menu s) = at_;
  om_visible : visible (ac_menu s) = true;
  om_enabled : disabled s = false;
  om_term : term s = Some t;
  om_val : val s = v;
}.

(** The place after one step down from [at_], and the text there. *)
Definition below (at_ : option nat) : option nat :=
  match at_ with
  | None => Some 0%nat
  | Some i => if (length l <=? S i)%nat then None else Some (S i)
  end.
Definition text_at (at_ : option nat) : string :=
  match at_ with Some i => match l !! i with Some it => val_of it | None => t end | None => t end.

Lemma focus_open at_ v i s :
  open_menu at_ v s -> (i < length l)%nat ->
  open_menu (Some i) (text_at (Some i)) (menu_focus (H := host) ByKeydown i s).
Proof.
  intros [E1 E2 E3 E4 E5 E6] [it Hit]%lookup_lt_is_Some.
  unfold menu_focus. rewrite decide_True by done. cbn [menufocus put_menu the_menu ac_host].
  unfold on_menufocus. cbn [disabled set_field]. rewrite E4.
  rewrite bool_decide_eq_false_2, andb_false_r by done. cbn. rewrite E1, Hit, Hlisten.
  by split; cbn; rewrite ?Hit.
Qed.

Lemma down_open at_ v s :
  (0 < length l)%nat -> (forall i, at_ = Some i -> (i < length l)%nat) -> open_menu at_ v s ->
  open_menu (below at_) (text_at (below at_)) (act (Key KDown) s).
Proof.
  intros Hl Hat Hs. cbn [UiComplete.act]. unfold keydown.
  rewrite (om_enabled _ _ _ Hs), Hwrite. cbv zeta.
  set (s1 := _ <| suppressKeyPress := true |>).
  assert (open_menu at_ v s1) as H1 by (destruct Hs; by split). clearbody s1. clear Hs.
  unfold keyEvent, move. rewrite (om_visible _ _ _ H1), orb_true_r. cbn [negb]. cbv zeta.
  unfold isFirstItem, isLastItem. rewrite (om_active _ _ _ H1), (om_items _ _ _ H1).
  rewrite andb_false_r, andb_true_r. cbn [orb].
  unfold menu_next, menu_move. cbn [the_menu ac_host].
  rewrite (om_active _ _ _ H1), (om_items _ _ _ H1), (proj2 (Nat.eqb_neq _ 0%nat)) by lia.
  destruct at_ as [i|]; cbn [below].
  - destruct (Nat.leb_spec (length l) (S i)).
    + rewrite (om_term _ _ _ H1). by destruct H1; split.
    + rewrite (proj2 (Nat.ltb_lt _ _)) by lia. by eapply focus_open.
  - by eapply focus_open.
Qed.

(** The place after [k] steps from the text: through the items and back to it. *)
Definition place (k : nat) : option nat :=
  match (k mod S (length l))%nat with O => None | S i => Some i end.

Lemma place_below k : (0 < length l)%nat -> below (place k) = place (S k).
Proof.
  intros Hl. unfold place, below. revert Hl. generalize (length l) as n. intros n Hl.
  pose proof (Nat.mod_upper_bound k (S n) ltac:(lia)) as Hb.
  pose proof (Nat.div_mod k (S n) ltac:(lia)) as Hd.
  set (r := (k mod S n)%nat) in *. set (q := (k / S n)%nat) in *.
  destruct (Nat.eq_dec r n) as [E|E].
  - assert ((S k) mod S n = 0)%nat as -> by (symmetry; apply (Nat.mod_unique _ _ (S q)); lia).
    rewrite E. destruct n as [|n']; [lia|].
    by rewrite (proj2 (Nat.leb_le _ _)) by lia.
  - assert ((S k) mod S n = S r)%nat as -> by (symmetry; apply (Nat.mod_unique _ _ q); lia).
    destruct r as [|i]; [done|].
    rewrite (proj2 (Nat.leb_gt _ _)) by lia. done.
Qed.

(** In an open menu the down key walks through the items, shows the value of
    each in the field, and after the last one gives the typed text back; so the walk
    repeats after one step more than there are items. *)
Theorem down_walks k s :
  (0 < length l)%nat -> open_menu None t s ->
  let s' := Nat.iter k (act (Key KDown)) s in
  active (ac_menu s') = place k /\ val s' = text_at (place k) /\ visible (ac_menu s') = true.
Proof.
  intros Hl Hs s'. assert (open_menu (place k) (text_at (place k)) s') as [_ H1 H2 _ _ H3]; [|done].
  unfold s'. induction k as [|k IH].
  - unfold place. rewrite Nat.mod_0_l by lia. exact Hs.
  - cbn [Nat.iter nat_rect]. rewrite <- place_below by done. eapply down_open; [done| |exact IH].
    intros i Hi. unfold place in Hi. pose proof (Nat.mod_upper_bound k (S (length l)) ltac:(lia)).
    destruct (k mod S (length l))%nat; [done|]. injection Hi as <-. lia.
Qed.
End arrows.

(** Choosing the active item with Enter puts its value into the field, closes the
    menu, tells the choice and the closing, and does not lead to another search. *)
Theorem enter_chooses i it s :
  visible (ac_menu s) = true -> active (ac_menu s) = Some i -> m_items (ac_menu s) !! i = Some it ->
  disabled s = false -> readOnly o = false -> hasFocus s = true -> allow (EvSelect it) = true ->
  let s' := act (Key KEnter) s in
  val s' = val_of it /\ term s' = Some (val_of it) /\ selectedItem s' = Some it /\
  visible (ac_menu s') = false /\ active (ac_menu s') = None /\
  told s' = told s ++ [EvSelect it; EvClose] /\ told (act SearchTick s') = told s'.
Proof.
  intros Hv Ha Hi He Hw Hf Hal s'. unfold s'. cbn [UiComplete.act]. unfold keydown. rewrite He, Hw.
  cbv zeta. set (s0 := _ <| suppressKeyPressRepeat := false |>).
  change (active (ac_menu s0)) with (active (ac_menu s)). rewrite Ha.
  set (s1 := s0 <| suppressKeyPress := true |>).
  assert (menu_select (H := host) ByKeydown None s1
    = on_menuselect allow ByKeydown i (s1 <| ac_menu := collapseAll (ac_menu s) |>)) as ->.
  { unfold menu_select. cbn [the_menu ac_host]. change (ac_menu s1) with (ac_menu s).
    cbn [active set_field]. rewrite Ha. cbn [menuselect put_menu ac_host]. do 2 f_equal.
    destruct (ac_menu s); cbn in *. by rewrite Ha. }
  unfold on_menuselect. change (disabled (s1 <| ac_menu := _ |>)) with (disabled s).
  change (m_items (ac_menu (s1 <| ac_menu := collapseAll (ac_menu s) |>))) with (m_items (ac_menu s)).
  change (hasFocus (s1 <| ac_menu := _ |>)) with (hasFocus s). rewrite He, Hi, Hf, Hal. cbv zeta.
  unfold close, close_menu. cbn. rewrite Hv. cbn.
  split_and!; try done; [by rewrite <- app_assoc|].
  unfold search_tick. cbn. destruct (searching s); [|done]. by rewrite decide_True.
Qed.
End flow.

(** ** The filter *)

Lemma plain_spec c :
  escaped c = false -> Ascii.eqb c "\" = false /\ is_in "[]{}()*+?.^$|" c = false.
Proof. destruct c as [[] [] [] [] [] [] [] []]; vm_compute; auto; done. Qed.

Lemma literals_escapeRegex s : literals (escapeRegex s) = Some s.
Proof.
  induction s as [|c s IH]; [done|]. cbn [escapeRegex]. destruct (escaped c) eqn:E.
  - cbn [literals]. change (Ascii.eqb "\" "\") with true. cbv iota. by rewrite E, IH.
  - destruct (plain_spec c E) as [H1 H2]. cbn [literals]. by rewrite H1, H2, IH.
Qed.

Lemma prefix_spec p s : String.prefix p s = true <-> exists b, s = p +:+ b.
Proof.
  split; [|intros [b ->]; apply prefix_append].
  revert s. induction p as [|c p IH]; intros s; [by exists s|].
  destruct s as [|c' s]; [done|]. cbn. destruct (ascii_dec c c') as [->|]; [|done].
  intros (b & ->)%IH. by exists b.
Qed.

Lemma occurs_spec p s : occurs p s = true <-> exists a b, s = a +:+ p +:+ b.
Proof.
  split.
  - induction s as [|c s IH]; cbn [occurs]; rewrite orb_true_iff; intros [H|H]; try done.
    + apply prefix_spec in H as [b E]. by exists ""%string, b.
    + apply prefix_spec in H as [b E]. by exists ""%string, b.
    + destruct (IH H) as (a & b & ->). by exists (String c a), b.
  - intros (a & b & ->). induction a as [|c a IH].
    + change ("" +:+ p +:+ b) with (p +:+ b). pose proof (prefix_append p b) as Hp.
      destruct (p +:+ b); cbn [occurs]; by rewrite Hp.
    + rewrite app_string_cons. cbn [occurs]. by rewrite IH, orb_true_r.
Qed.

(** The filter of an array source keeps, in order, the elements whose text
    contains the term, letter case aside, whatever operators of regular expressions
    the term has in it. *)
Theorem filter_is_substring array term :
  filter_items array term
    = List.filter (fun r => occurs (toLowerCase term) (toLowerCase (item_text r))) array /\
  forall r, In r (filter_items array term) <-> In r array /\
    exists a b, toLowerCase (item_text r) = a +:+ toLowerCase term +:+ b.
Proof.
  assert (forall r, matches (escapeRegex term) (item_text r)
    = occurs (toLowerCase term) (toLowerCase (item_text r))) as E
    by (intros r; unfold matches; by rewrite literals_escapeRegex).
  split.
  - unfold filter_items. induction array as [|r l IH]; [done|]. cbn. by rewrite E, IH.
  - intros r. unfold filter_items. rewrite filter_In, E, occurs_spec. done.
Qed.

(** ** Runs

    Concrete runs of [UiComplete]: the theorems of [CompleteFlow] at inputs where
    their hypotheses hold, and two runs in which the widget does what it should not. *)


Definition every : ac_event -> bool := fun _ => true.
Definition words : list raw_item := [RStr "alpha"; RStr "beta"; RObj (Some "Ab") (Some "ab")].

(** A list on the page, and a source that answers later. *)
Definition local : ac_options := mk_ac_options 1 false false false (SArray words).
Definition remote : ac_options := mk_ac_options 1 false false false SUrl.

Abbreviation page opts := (run opts every false 0 (fun _ => 0)).
Abbreviation step opts := (act opts every false 0 (fun _ => 0)).

(** The field has the focus and [v] was typed; the delay is over. *)
Definition type_in (v : string) : list ac_action := [Focus; Key KOther; Input v; SearchTick].

Definition fresh : ac := ac_create "" 0.

Example typing_opens :
  let s := page local (type_in "b") fresh in
  visible (ac_menu s) = true /\
  m_items (ac_menu s) = [mk_item (Some "beta") (Some "beta"); mk_item (Some "Ab") (Some "ab")]
  /\ liveRegion s = "2 results are available, use up and down arrow keys to navigate.".
Proof. by vm_compute. Qed.

Example escape_restores :
  let s := page local (type_in "b" ++ [Key KDown; Key KEscape]) fresh in
  val (page local (type_in "b" ++ [Key KDown]) fresh) = "beta" /\ val s = "b" /\
  visible (ac_menu s) = false.
Proof. by vm_compute. Qed.

(** *** The theorems at work *)

(** Two searches; the answer to the first arrives after the second was started. *)
Example stale_response_ignored_witness :
  let s := page remote (type_in "a" ++ [Key KOther; Input "al"; SearchTick]) fresh in
  (1 < requestIndex s)%nat /\
  exists flight p b, step remote (Response 1 (Some words)) (page remote [] s)
    = page remote [] s <| inFlight := flight |> <| pending := p |> <| loading := b |>.
Proof.
  split; [vm_compute; lia|].
  apply (stale_response_ignored remote every false 0 (fun _ => 0)). vm_compute. lia.
Defined.

(** Escape while an answer is on its way: the answer does not open the menu. *)
Example closed_until_search_witness :
  let s := close (page remote (type_in "a") fresh) in
  let late := [Response 1 (Some words); Key KOther; Blur] in
  inFlight s = [1%nat] /\ visible (ac_menu (page remote late s)) = false.
Proof.
  split; [done|].
  apply (closed_until_search remote every false 0 (fun _ => 0)). by vm_compute.
Defined.

Example down_walks_witness :
  let s := page local (type_in "b") fresh in
  let s' := Nat.iter 5 (step local (Key KDown)) s in
  active (ac_menu s') = Some 1%nat /\ val s' = "ab" /\ visible (ac_menu s') = true.
Proof.
  apply (down_walks local every false 0 (fun _ => 0)
    [mk_item (Some "beta") (Some "beta"); mk_item (Some "Ab") (Some "ab")] "b"%string).
  - done.
  - done.
  - cbn. lia.
  - by split; vm_compute.
Defined.

Example enter_chooses_witness :
  let s := page local (type_in "b" ++ [Key KDown]) fresh in
  let it := mk_item (Some "beta") (Some "beta") in
  let s' := step local (Key KEnter) s in
  val s' = val_of it /\ term s' = Some (val_of it) /\ selectedItem s' = Some it /\
  visible (ac_menu s') = false /\ active (ac_menu s') = None /\
  told s' = told s ++ [EvSelect it; EvClose] /\
  told (step local SearchTick s') = told s'.
Proof.
  apply (enter_chooses local every false 0 (fun _ => 0) 0); by vm_compute.
Defined.

(** *** The shared counter

    [requestIndex] belongs to the file, not to the widget: a search of another field
    makes this one drop its only answer, and its menu never opens. *)
Example answer_lost :
  let s := page remote (type_in "a" ++ [OtherSearch; Response 1 (Some words)]) fresh in
  inFlight s = [] /\ loading s = false /\ visible (ac_menu s) = false /\
  told s = [EvSearch].
Proof. by vm_compute. Qed.

(** The same without the other field. *)
Example answer_shown :
  visible (ac_menu (page remote (type_in "a" ++ [Response 1 (Some words)]) fresh)) = true.
Proof. by vm_compute. Qed.

(** *** A choice from a hidden menu

    The first focus by the mouse is put off until the pointer moves, also past the
    closing of the menu.  Then the field shows no menu, but Enter takes an item. *)
Example hidden_choice :
  let s := page local (type_in "b" ++ [MenuEnter 0; Key KEscape; MouseMove; MouseMove]) fresh in
  visible (ac_menu s) = false /\ val s = "b" /\ active (ac_menu s) = Some 0%nat /\
  val (step local (Key KEnter) s) = "beta".
Proof. by vm_compute. Qed.
