(* ===== verification/BsUtil.v ===== *)
(** * Bootstrap: util.js

    Models [Util] of [2019104233/src/scripts/bluelog/bluelog/static/js/bootstrap.js]
    (version 4.0.0): the check of option types, the selector of the target of a control,
    identifiers, and the ends of CSS transitions.

    Every component waits for a transition with
    [$(el).one(Util.TRANSITION_END, done).emulateTransitionEnd(ms)]: [done] runs once,
    at the first transition end of [el], or when [ms] have passed without one.  [ends]
    is the account of those waits; what [done] does is named by a value of the type [L]
    and carried out by the component (the class [ends_host]). *)

From S2P Require Export JsValue.

(** ** Types of options *)

(** The values options have, as far as their type goes.  [VElement] is an element or a
    jQuery object that begins with one. *)
Inductive cvalue :=
  | VUndef | VNull | VBool (b : bool) | VNum (n : Z) | VStr (s : string)
  | VElement | VObject | VFunction.

Definition toType (v : cvalue) : string :=
  match v with
  | VUndef => "undefined" | VNull => "null" | VBool _ => "boolean" | VNum _ => "number"
  | VStr _ => "string" | VElement => "object" | VObject => "object" | VFunction => "function"
  end.

(** [Boolean(v)]. *)
Definition truthy (v : cvalue) : bool :=
  match v with
  | VUndef | VNull => false
  | VBool b => b | VNum n => negb (n =? 0)%Z | VStr s => negb (String.eqb s "")
  | VElement | VObject | VFunction => true
  end.

Definition isElement (v : cvalue) : bool := match v with VElement => true | _ => false end.

Definition valueType (v : cvalue) : string := if isElement v then "element" else toType v.

(** An entry [name: '(a|b)'] of a [DefaultType], with the alternatives as a list. *)
Definition configTypes := list (string * list string).

Definition expected (types : list string) : string :=
  match types with [t] => t | _ => "(" +:+ join "|" types +:+ ")" end.

(** The pattern is not anchored. *)
Definition type_test (types : list string) (t : string) : bool :=
  existsb (fun e => occurs e t) types.

Definition config := gmap string cvalue.

Definition option_of (c : config) (k : string) : cvalue := default VUndef (c !! k).

Fixpoint typeCheckConfig (componentName : string) (c : config) (types : configTypes) : option string :=
  match types with
  | [] => None
  | (property, ts) :: types =>
      let t := valueType (option_of c property) in
      if type_test ts t then typeCheckConfig componentName c types
      else Some (toUpperCase componentName +:+ ": Option " +:+ dq +:+ property +:+ dq
                 +:+ " provided type " +:+ dq +:+ t +:+ dq
                 +:+ " but expected type " +:+ dq +:+ expected ts +:+ dq +:+ ".")
  end.

(** [_extends({}, base, over)]. *)
Definition extend (base over : config) : config := over ∪ base.

(** [_getConfig] of a component: the configuration, or the message of the error. *)
Definition getConfig (name : string) (defaults : config) (types : configTypes) (c : config)
  : config + string :=
  let c := extend defaults c in
  match typeCheckConfig name c types with None => inl c | Some e => inr e end.

(** ** Targets of controls *)

Section selectors.
(** [$.escapeSelector], which jQuery has since version 3; whether the document has an
    element for a selector, [None] if the selector is not valid. *)
Context (escapeSelector : option (string -> string)) (finds : string -> option bool).

Fixpoint escape_chars (s : string) : string :=
  match s with
  | EmptyString => EmptyString
  | String c s => if is_in ":.[],=@" c then String "\" (String c (escape_chars s))
                  else String c (escape_chars s)
  end.

Definition drop1 (s : string) : string := match s with String _ s => s | EmptyString => s end.

Definition escapeId (selector : string) : string :=
  match escapeSelector with Some f => drop1 (f selector) | None => escape_chars selector end.

(** The attributes [data-target] and [href] of the control. *)
Definition getSelectorFromElement (data_target href : option string) : option string :=
  let blank := match data_target with
               | Some s => String.eqb s "" || String.eqb s "#"
               | None => true
               end in
  let selector := if blank then default EmptyString href else default EmptyString data_target in
  let selector := match selector with
                  | String c _ => if Ascii.eqb c "#" then escapeId selector else selector
                  | EmptyString => selector
                  end in
  match finds selector with Some true => Some selector | _ => None end.
End selectors.

(** [getUID]: random numbers are appended until the identifier is free; [None] when the
    numbers given are used up. *)
Fixpoint getUID (taken : string -> bool) (random : list Z) (prefix : string) : option string :=
  match random with
  | [] => None
  | r :: random =>
      let prefix := prefix +:+ pretty r in
      if taken prefix then getUID taken random prefix else Some prefix
  end.

(** ** Transition ends *)

(** What waits at an element: the call of a component, or the mark an emulation sets. *)
Inductive listener (L : Type) := Done (l : L) | Mark (n : nat).
#[global] Arguments Done {L}.
#[global] Arguments Mark {L}.

Record ends (E L : Type) := mk_ends {
  waiting : list (E * listener L);
  timers : list (nat * E);
  called : list nat;
  fresh : nat;
}.
#[global] Arguments mk_ends {E L}.
#[global] Arguments waiting {E L}.
#[global] Arguments timers {E L}.
#[global] Arguments called {E L}.
#[global] Arguments fresh {E L}.
#[export] Instance ends_eta E L : Settable (ends E L) := fun e =>
  mk_ends (waiting e) (timers e) (called e) (fresh e).

Definition no_ends {E L} : ends E L := mk_ends [] [] [] 0.

(** [$(el).one(Util.TRANSITION_END, l)]. *)
Definition one_end {E L} (el : E) (l : L) (e : ends E L) : ends E L :=
  e <| waiting := waiting e ++ [(el, Done l)] |>.

(** [$(el).emulateTransitionEnd(ms)]. *)
Definition emulateTransitionEnd {E L} (el : E) (e : ends E L) : ends E L :=
  e <| waiting := waiting e ++ [(el, Mark (fresh e))] |>
    <| timers := timers e ++ [(fresh e, el)] |> <| fresh := S (fresh e) |>.

Definition await {E L} (el : E) (l : L) (e : ends E L) : ends E L :=
  emulateTransitionEnd el (one_end el l e).

(** [$(el).remove()] takes the listeners of [el] away; its timers stay. *)
Definition drop_waits {E L} `{EqDecision E} (el : E) (e : ends E L) : ends E L :=
  e <| waiting := filter (fun p => p.1 <> el) (waiting e) |>.

Class ends_host (E L S : Type) := {
  the_ends : S -> ends E L;
  put_ends : ends E L -> S -> S;
  completed : L -> S -> S;
}.

Section hosted.
Context {E L S : Type} `{EqDecision E} {H : ends_host E L S}.

Definition run_listener (s : S) (p : E * listener L) : S :=
  match p.2 with
  | Done l => completed l s
  | Mark n => put_ends (the_ends s <| called := n :: called (the_ends s) |>) s
  end.

(** A transition end at [el]: its listeners are taken off and run in order. *)
Definition transition_end (el : E) (s : S) : S :=
  let e := the_ends s in
  fold_left run_listener (filter (fun p => p.1 = el) (waiting e))
    (put_ends (e <| waiting := filter (fun p => p.1 <> el) (waiting e) |>) s).

(** The timer of the emulation [n]. *)
Definition end_timer (n : nat) (s : S) : S :=
  let e := the_ends s in
  match list_find (fun p => p.1 = n) (timers e) with
  | Some (_, (_, el)) =>
      let s := put_ends (e <| timers := filter (fun p => p.1 <> n) (timers e) |>) s in
      if decide (n ∈ called e) then s else transition_end el s
  | None => s
  end.
End hosted.
