(* ===== verification/BsEnds.v ===== *)
(** * Bootstrap: waiting for transitions

    What [BsUtil.transition_end] and [BsUtil.end_timer] do, for any component: every
    wait has a timer that ends it, a transition end concerns only its element, and a
    wait ends once. *)

From S2P Require Export BsUtil.

Class ends_laws (E L S : Type) `{ends_host E L S} := {
  the_put (e : ends E L) (s : S) : the_ends (put_ends e s) = e;
  put_the (s : S) : put_ends (the_ends s) s = s;
}.

Section laws.
Context {E L S : Type} `{EqDecision E} {H : ends_host E L S} {HL : ends_laws E L S}.
Implicit Types (e : ends E L) (s : S) (el : E).

(** Every mark has a timer and every timer that is not void its mark; [P] are the
    listeners of an event being handled, [X] the marks among them whose timer has just
    elapsed. *)
Record ends_ok_in (X : list nat) (P : list (E * listener L)) (e : ends E L) : Prop := {
  eo_nodup : NoDup (timers e).*1;
  eo_timers : forall m el, (m, el) ∈ timers e -> (m < fresh e)%nat;
  eo_called : forall m, m ∈ called e -> (m < fresh e)%nat;
  eo_live : forall m el, (m, el) ∈ timers e -> m ∉ called e -> (el, Mark m) ∈ waiting e ++ P;
  eo_marks : forall m el, (el, Mark m) ∈ waiting e ++ P -> (m < fresh e)%nat /\
    (m ∉ X -> m ∉ called e -> (m, el) ∈ timers e);
  eo_elapsed : forall m, m ∈ X -> m ∈ called e \/ exists el, (el, Mark m) ∈ P;
}.
Definition ends_ok : ends E L -> Prop := ends_ok_in [] [].

Lemma no_ends_ok : ends_ok no_ends.
Proof. by split; cbn; [constructor|intros * []%not_elem_of_nil..]. Qed.

Lemma await_ok X P el l e : ends_ok_in X P e -> ends_ok_in X P (await el l e).
Proof.
  intros [A B C D F G]. split; cbn.
  - rewrite fmap_app. apply NoDup_app. split_and!; [done| |apply NoDup_singleton].
    intros m ((m', el') & -> & Hin)%list_elem_of_fmap Hm%list_elem_of_singleton. cbn in Hm.
    apply B in Hin. lia.
  - intros m el' [Hin|[= -> ->]%list_elem_of_singleton]%elem_of_app; [apply B in Hin|]; lia.
  - intros m Hm%C. lia.
  - intros m el' [Hin|[= -> ->]%list_elem_of_singleton]%elem_of_app Hc.
    + pose proof (D _ _ Hin Hc). set_solver.
    + rewrite !elem_of_app, !list_elem_of_singleton. auto 6.
  - intros m el'. rewrite <- !app_assoc. rewrite !elem_of_app, !list_elem_of_singleton.
    intros [Hin|[[=]|[[= -> ->]|Hin]]].
    + destruct (F m el') as [F1 F2]; [set_solver|]. split; [lia|]. set_solver.
    + split; [lia|]. set_solver.
    + destruct (F m el') as [F1 F2]; [set_solver|]. split; [lia|]. set_solver.
  - done.
Qed.

(** A component that only ever adds waits. *)
Definition only_awaits : Prop :=
  forall l s X P, ends_ok_in X P (the_ends s) -> ends_ok_in X P (the_ends (completed l s)).

(** A mark that runs last. *)
Lemma run_listener_mark X el m s :
  ends_ok_in X [(el, Mark m)] (the_ends s) ->
  ends_ok (the_ends (put_ends (the_ends s <| called := m :: called (the_ends s) |>) s)).
Proof.
  rewrite the_put. intros [A B C D F G].
  destruct (F m el) as [Fm _]; [set_solver|]. split; cbn; try done.
  - intros m' [->|Hin]%elem_of_cons; [done|by apply C].
  - intros m' el' Hin Hc. apply not_elem_of_cons in Hc as [Hne Hc].
    pose proof (D _ _ Hin Hc) as D'. rewrite elem_of_app, elem_of_cons in D'.
    rewrite elem_of_app. naive_solver.
  - intros m' el' Hin. rewrite app_nil_r in Hin. destruct (F m' el') as [F1 F2]; [set_solver|]. split; [done|].
    intros _ Hc. apply F2; [|set_solver]. intros [?|[? Hx]]%G; [set_solver|].
    apply elem_of_cons in Hx as [[= -> ->]|?%elem_of_nil]; [set_solver|done].
  - by intros ? []%not_elem_of_nil.
Qed.

Lemma put_same e s : e = the_ends s -> put_ends e s = s.
Proof. intros ->. apply put_the. Qed.

Lemma run_listeners_ok X Q s :
  only_awaits -> ends_ok_in X Q (the_ends s) -> ends_ok (the_ends (fold_left run_listener Q s)).
Proof.
  intros Hl. revert s. induction Q as [|[el [l|m]] Q IH]; intros s Hs; cbn [fold_left].
  - destruct Hs as [A B C D F G]. split; try done.
    + intros m el Hin. destruct (F m el Hin) as [F1 F2]. split; [done|]. intros _ Hc.
      apply F2; [|done]. intros [?|[? []%not_elem_of_nil]]%G. done.
    + by intros m []%not_elem_of_nil.
  - apply IH. unfold run_listener. cbn. apply Hl. destruct Hs as [A B C D F G]. split; try done.
    + intros m el' Hin Hc. pose proof (D _ _ Hin Hc) as D'.
      rewrite elem_of_app, elem_of_cons in D'. rewrite elem_of_app. naive_solver.
    + intros m el' Hin. apply F. set_solver.
    + intros m [Hm|[el' [[=]|Hm]%elem_of_cons]]%G; [by left|right; by exists el'].
  - apply IH. unfold run_listener. cbn. rewrite the_put. destruct Hs as [A B C D F G].
    destruct (F m el) as [Fm _]; [set_solver|]. split; cbn; try done.
    + intros m' [->|Hin]%elem_of_cons; [done|by apply C].
    + intros m' el' Hin Hc. apply not_elem_of_cons in Hc as [Hne Hc].
      pose proof (D _ _ Hin Hc) as D'. rewrite elem_of_app, elem_of_cons in D'.
      rewrite elem_of_app. naive_solver.
    + intros m' el' Hin. destruct (F m' el') as [F1 F2]; [set_solver|]. split; [done|].
      intros Hx Hc. apply F2; set_solver.
    + intros m' [Hm|[el' [[= -> ->]|Hm]%elem_of_cons]]%G; [left|left|right; by exists el'];
        rewrite elem_of_cons; auto.
Qed.

Lemma filter_split_elem (P : E * listener L -> Prop) `{!forall x, Decision (P x)} l x :
  x ∈ l <-> x ∈ filter (fun x => ~ P x) l ++ filter P l.
Proof. rewrite elem_of_app, !list_elem_of_filter. destruct (decide (P x)); tauto. Qed.

(** The state in which the listeners of [el] run, when the timers [X] have elapsed. *)
Lemma taken_ok X el e t :
  ends_ok e -> (forall m, m ∈ X -> (el, Mark m) ∈ waiting e) -> sublist t (timers e) ->
  (forall m el, (m, el) ∈ timers e -> m ∉ X -> (m, el) ∈ t) ->
  ends_ok_in X (filter (fun p => p.1 = el) (waiting e))
    (e <| timers := t |> <| waiting := filter (fun p => p.1 <> el) (waiting e) |>).
Proof.
  intros [A B C D F G] Hx Ht Hkeep. split; cbn; try done.
  - eapply sublist_NoDup; [exact A|]. by apply fmap_sublist.
  - intros m el' Hin. eapply B, elem_of_sublist; done.
  - intros m el' Hin Hc. apply filter_split_elem. rewrite <- (app_nil_r (waiting e)).
    apply D; [by eapply elem_of_sublist|done].
  - intros m el' Hin%filter_split_elem. destruct (F m el') as [F1 F2]; [by rewrite app_nil_r|].
    split; [done|]. intros HX Hc. apply Hkeep; [apply F2; set_solver|done].
  - intros m Hm. right. exists el. apply list_elem_of_filter. auto.
Qed.

Lemma transition_end_ok el s :
  only_awaits -> ends_ok (the_ends s) -> ends_ok (the_ends (transition_end el s)).
Proof.
  intros Hl Hs. unfold transition_end. apply (run_listeners_ok []); [done|]. rewrite the_put.
  apply (taken_ok [] el (the_ends s) (timers (the_ends s))); try done.
  by intros m []%not_elem_of_nil.
Qed.

Lemma transition_end_other el s :
  (forall p, p ∈ waiting (the_ends s) -> p.1 <> el) -> transition_end el s = s.
Proof.
  intros Hw. unfold transition_end. rewrite (filter_all (fun p => p.1 <> el)) by done.
  assert (filter (fun p => p.1 = el) (waiting (the_ends s)) = []) as ->.
  { destruct (filter _ _) as [|x l] eqn:Ef; [done|].
    assert (x ∈ filter (fun p => p.1 = el) (waiting (the_ends s))) as Hx by (rewrite Ef; by constructor).
    apply list_elem_of_filter in Hx as [Hx1 Hx2]. by destruct (Hw x Hx2). }
  cbn [fold_left]. transitivity (put_ends (the_ends s) s); [|apply put_the]. f_equal.
  by destruct (the_ends s).
Qed.

(** The end of the only wait there is. *)
Lemma transition_end_await el l m s :
  waiting (the_ends s) = [(el, Done l); (el, Mark m)] ->
  transition_end el s =
    let s' := completed l (put_ends (the_ends s <| waiting := [] |>) s) in
    put_ends (the_ends s' <| called := m :: called (the_ends s') |>) s'.
Proof.
  intros Hw. unfold transition_end. rewrite Hw, !filter_cons, !filter_nil. cbn [fst].
  rewrite !decide_True, !decide_False by tauto. reflexivity.
Qed.

(** The end of the only wait at [el], among others. *)
Lemma transition_end_pair el l m s :
  filter (fun p => p.1 = el) (waiting (the_ends s)) = [(el, Done l); (el, Mark m)] ->
  transition_end el s =
    let s' := completed l (put_ends (the_ends s
                <| waiting := filter (fun p => p.1 <> el) (waiting (the_ends s)) |>) s) in
    put_ends (the_ends s' <| called := m :: called (the_ends s') |>) s'.
Proof. intros Hw. unfold transition_end. by rewrite Hw. Qed.

Lemma transition_end_none el s :
  filter (fun p => p.1 = el) (waiting (the_ends s)) = [] -> transition_end el s = s.
Proof.
  intros Hw. apply transition_end_other. intros p Hp Ep.
  assert (p ∈ filter (fun p => p.1 = el) (waiting (the_ends s))) as Hin by by apply list_elem_of_filter.
  rewrite Hw in Hin. by apply elem_of_nil in Hin.
Qed.

(** The timer of a mark that waits ends the transition. *)
Lemma end_timer_live el m s :
  ends_ok (the_ends s) -> (el, Mark m) ∈ waiting (the_ends s) -> m ∉ called (the_ends s) ->
  end_timer m s = transition_end el
    (put_ends (the_ends s <| timers := filter (fun p => p.1 <> m) (timers (the_ends s)) |>) s).
Proof.
  intros [A B C D F G] Hin Hc. destruct (F m el) as [_ Ft]; [by rewrite app_nil_r|].
  specialize (Ft (not_elem_of_nil _) Hc). unfold end_timer.
  destruct (list_find (fun p => p.1 = m) (timers (the_ends s))) as [[i [m' el']]|] eqn:Ef.
  - apply list_find_Some in Ef as (Ei & Em & _). cbn in Em. subst m'.
    assert ((m, el') = (m, el)) as [= ->].
    { apply (NoDup_fmap_inj fst (timers (the_ends s))); [done| |done|done]. by eapply list_elem_of_lookup_2. }
    by rewrite decide_False.
  - apply list_find_None in Ef. rewrite Forall_forall in Ef. by destruct (Ef _ Ft).
Qed.

(** A timer that is void only goes. *)
Lemma end_timer_ok_called m s :
  ends_ok (the_ends s) -> m ∈ called (the_ends s) -> ends_ok (the_ends (end_timer m s)).
Proof.
  intros Hs Hc. unfold end_timer. destruct (list_find _ _) as [[i [m' el]]|]; [|done].
  rewrite decide_True, the_put by done. destruct Hs as [A B C D F G]. split; cbn; try done.
  - eapply sublist_NoDup; [exact A|]. apply fmap_sublist, sublist_filter.
  - intros m1 el' [_ Hin]%list_elem_of_filter. by eapply B.
  - intros m1 el' [_ Hin]%list_elem_of_filter. by apply D.
  - intros m1 el' Hin. destruct (F m1 el' Hin) as [F1 F2]. split; [done|]. intros HX Hc'.
    apply list_elem_of_filter. split; [|by apply F2]. cbn. by intros ->.
Qed.

Lemma end_timer_ok m s :
  only_awaits -> ends_ok (the_ends s) -> ends_ok (the_ends (end_timer m s)).
Proof.
  intros Hl Hs. destruct (list_find (fun p => p.1 = m) (timers (the_ends s))) as [[i [m' el]]|] eqn:Ef.
  2: { unfold end_timer. by rewrite Ef. }
  pose proof Ef as (Ei & Em & _)%list_find_Some. cbn in Em. subst m'.
  apply list_elem_of_lookup_2 in Ei.
  destruct (decide (m ∈ called (the_ends s))) as [Hc|Hc].
  - by apply end_timer_ok_called.
  - pose proof (eo_live _ _ _ Hs m el Ei Hc) as Hm. rewrite app_nil_r in Hm.
    rewrite (end_timer_live el m s) by done. unfold transition_end. apply (run_listeners_ok [m]); [done|].
    rewrite the_put. cbn [waiting]. rewrite the_put.
    apply (taken_ok [m] el (the_ends s) (filter (fun p => p.1 <> m) (timers (the_ends s)))); [done| | |].
    + by intros ? ->%list_elem_of_singleton.
    + apply sublist_filter.
    + intros m' el' Hin Hne. apply list_elem_of_filter. split; [|done]. cbn. set_solver.
Qed.

(** The same for the end of the only wait there is: its call may do anything that keeps
    the account while only the mark is left to run. *)
Definition careful (el : E) (m : nat) (l : L) : Prop :=
  forall s X, waiting (the_ends s) = [] -> ends_ok_in X [(el, Mark m)] (the_ends s) ->
    ends_ok_in X [(el, Mark m)] (the_ends (completed l s)).

Lemma careful_ok (X : list nat) el l m s t :
  careful el m l -> ends_ok (the_ends s) -> waiting (the_ends s) = [(el, Done l); (el, Mark m)] ->
  (forall m', m' ∈ X -> m' = m) -> sublist t (timers (the_ends s)) ->
  (forall m el, (m, el) ∈ timers (the_ends s) -> m ∉ X -> (m, el) ∈ t) ->
  ends_ok (the_ends (transition_end el (put_ends (the_ends s <| timers := t |>) s))).
Proof.
  intros Hl Hs Hw HX Ht Hkeep.
  pose proof (taken_ok X el (the_ends s) t Hs) as Hok.
  rewrite Hw, !filter_cons, !filter_nil in Hok. cbn [fst] in Hok.
  rewrite !decide_True, !decide_False in Hok by tauto.
  specialize (Hok ltac:(intros m' ->%HX; by constructor; constructor) Ht Hkeep).
  rewrite (transition_end_await el l m); [|by rewrite the_put].
  cbv zeta. set (s' := put_ends _ (put_ends _ s)).
  assert (the_ends s' = the_ends s <| timers := t |> <| waiting := [] |>) as Es
    by (unfold s'; by rewrite !the_put).
  assert (ends_ok_in X [(el, Mark m)] (the_ends s')) as Hs'.
  { rewrite Es. destruct Hok as [A B C D F G]. split; try done.
    - intros m' el' Hin Hc. pose proof (D _ _ Hin Hc) as D'. cbn in *.
      rewrite elem_of_cons in D'. naive_solver.
    - intros m' el' Hin. apply F. cbn in *. by apply elem_of_cons; right.
    - intros m' [?|[el' [[=]|?]%elem_of_cons]]%G; [by left|right; by exists el']. }
  apply (run_listener_mark X el m), Hl; [by rewrite Es|done].
Qed.

Lemma transition_end_careful el l m s :
  careful el m l -> ends_ok (the_ends s) -> waiting (the_ends s) = [(el, Done l); (el, Mark m)] ->
  ends_ok (the_ends (transition_end el s)).
Proof.
  intros Hl Hs Hw. pose proof (careful_ok [] el l m s (timers (the_ends s)) Hl Hs Hw) as H1.
  rewrite (put_same _ s) in H1 by by destruct (the_ends s). apply H1; [by intros ? []%not_elem_of_nil|done|done].
Qed.

Lemma end_timer_careful el l m s :
  careful el m l -> ends_ok (the_ends s) -> waiting (the_ends s) = [(el, Done l); (el, Mark m)] ->
  m ∉ called (the_ends s) -> ends_ok (the_ends (end_timer m s)).
Proof.
  intros Hl Hs Hw Hm. rewrite (end_timer_live el m s Hs); [| |done].
  2: { rewrite Hw. by constructor; constructor. }
  apply (careful_ok [m] el l m s _ Hl Hs Hw).
  - by intros ? ->%list_elem_of_singleton.
  - apply sublist_filter.
  - intros m' el' Hin Hne. apply list_elem_of_filter. split; [|done]. cbn. set_solver.
Qed.
End laws.
