(* ===== verification/BsCarousel.v ===== *)
(** * Bootstrap: carousel.js

    Models [Carousel] of
    [2019104233/src/scripts/bluelog/bluelog/static/js/bootstrap.js]: the sliding of
    items with its transition, the interval, the calls that wait for the end of a
    slide, and the events of the page.  An item is its place among the items of the
    carousel, which do not change; listeners of the page only allow or prevent. *)

From S2P Require Export BsUtil.

Definition Default : config := list_to_map [
  ("interval", VNum 5000); ("keyboard", VBool true); ("slide", VBool false);
  ("pause", VStr "hover"); ("wrap", VBool true)]%string.

Definition DefaultType : configTypes := [
  ("interval", ["number"; "boolean"]); ("keyboard", ["boolean"]);
  ("slide", ["boolean"; "string"]); ("pause", ["string"; "boolean"]); ("wrap", ["boolean"])]%string.

(** The options as the code asks for them. *)
Record options := mk_options {
  interval_on : bool; keyboard : bool; pause_hover : bool; wrap : bool;
}.

Inductive direction := NEXT | PREV.
#[global] Instance direction_eq_dec : EqDecision direction.
Proof. solve_decision. Defined.

(** The classes of an item. *)
Record item := mk_item {
  i_active : bool; i_next : bool; i_prev : bool; i_left : bool; i_right : bool;
}.
#[export] Instance item_eta : Settable item := fun i =>
  mk_item (i_active i) (i_next i) (i_prev i) (i_left i) (i_right i).

(** Where transitions end: the carousel, or an item. *)
Inductive place := Root | Item (i : nat).
#[global] Instance place_eq_dec : EqDecision place.
Proof. solve_decision. Defined.

(** A slide under way. *)
Record slide_done := mk_slide_done { d_from : nat; d_to : nat; d_dir : direction }.

Inductive cevent :=
  | EvSlide (d : direction) (from to : option nat)
  | EvSlid (d : direction) (from to : nat)
  | Thrown.

(** The argument of [to]: a number, or a text ([None] if it is not a number). *)
Inductive index := INum (z : Z) | IText (z : option Z).

Record carousel := mk_carousel {
  items_ : list item;
  indicators : option (list bool);
  interval : option nat;
  alive : list nat;
  isPaused : bool;
  isSliding : bool;
  touchTimeout : option nat;
  touch_timers : list nat;
  c_ends : ends place slide_done;
  slids : list slide_done;
  on_slid : list index;
  handles : nat;
  disposed : bool;
  told : list cevent;
}.
#[export] Instance carousel_eta : Settable carousel := fun c =>
  mk_carousel (items_ c) (indicators c) (interval c) (alive c) (isPaused c) (isSliding c)
    (touchTimeout c) (touch_timers c) (c_ends c) (slids c) (on_slid c) (handles c) (disposed c) (told c).

(** The constructor, on the items and the indicators of the page. *)
Definition create (items : list item) (inds : option (list bool)) : carousel :=
  mk_carousel items inds None [] false false None [] no_ends [] [] 0 false [].

Definition tell (e : cevent) (c : carousel) : carousel := c <| told := told c ++ [e] |>.

Definition update (i : nat) (f : item -> item) (c : carousel) : carousel :=
  c <| items_ := alter f i (items_ c) |>.

(** [find('.active.carousel-item')[0]]. *)
Definition active_item (c : carousel) : option nat := fst <$> list_find i_active (items_ c).

Definition is_active (c : carousel) (i : nat) : bool :=
  match items_ c !! i with Some it => i_active it | None => false end.

(** [addClass] of the class of the order, and of the direction. *)
Definition set_order (d : direction) (b : bool) (it : item) : item :=
  match d with NEXT => it <| i_next := b |> | PREV => it <| i_prev := b |> end.
Definition set_directional (d : direction) (b : bool) (it : item) : item :=
  match d with NEXT => it <| i_left := b |> | PREV => it <| i_right := b |> end.

(** The listener of the end of the transition. *)
Definition slide_end (t : slide_done) (c : carousel) : carousel :=
  let c := update (d_to t)
    (fun it => set_order (d_dir t) false (set_directional (d_dir t) false it) <| i_active := true |>) c in
  let c := update (d_from t)
    (fun it => set_directional (d_dir t) false (set_order (d_dir t) false (it <| i_active := false |>))) c in
  c <| isSliding := false |> <| slids := slids c ++ [t] |>.

#[export] Instance carousel_host : ends_host place slide_done carousel := {
  the_ends := c_ends;
  put_ends e c := c <| c_ends := e |>;
  completed := slide_end;
}.

Section carousel.
Context (o : options) (allow : cevent -> bool).
(** [Util.supportsTransitionEnd()], and whether the carousel has the class [slide]. *)
Context (supports slide_class : bool).

(** ** The interval *)

Definition clear_interval (c : carousel) : carousel :=
  match interval c with
  | Some n => c <| alive := filter (fun m => m <> n) (alive c) |> <| interval := None |>
  | None => c
  end.

Definition cycle (event : bool) (c : carousel) : carousel :=
  let c := if event then c else c <| isPaused := false |> in
  let c := clear_interval c in
  if interval_on o && negb (isPaused c) then
    c <| interval := Some (handles c) |> <| alive := alive c ++ [handles c] |>
      <| handles := S (handles c) |>
  else c.

Definition in_motion (c : carousel) : bool := existsb (fun it => i_next it || i_prev it) (items_ c).

Definition pause (event : bool) (c : carousel) : carousel :=
  let c := if event then c else c <| isPaused := true |> in
  let c := if in_motion c && supports then cycle true (transition_end Root c) else c in
  clear_interval c.

(** ** Sliding *)

Definition getItemByDirection (d : direction) (activeIndex : nat) (c : carousel) : option nat :=
  let n := Z.of_nat (length (items_ c)) in
  let i := Z.of_nat activeIndex in
  let isGoingToWrap := match d with PREV => i =? 0 | NEXT => i =? n - 1 end in
  if isGoingToWrap && negb (wrap o) then Some activeIndex
  else
    let delta := match d with PREV => -1 | NEXT => 1 end in
    let itemIndex := Z.rem (i + delta) n in
    if itemIndex =? -1 then Some (Z.to_nat (n - 1)) else Some (Z.to_nat itemIndex).

Definition setActiveIndicatorElement (i : nat) (c : carousel) : carousel :=
  c <| indicators := (fun l : list bool => alter (fun _ => true) i ((fun _ => false) <$> l)) <$> indicators c |>.

(** [trigger(slidEvent)] runs the waiting calls too, but without transitions none waits. *)
Definition begin_slide (d : direction) (a b : nat) (c : carousel) : carousel :=
  if supports && slide_class then
    let c := update b (set_order d true) c in
    let c := update a (set_directional d true) c in
    let c := update b (set_directional d true) c in
    c <| c_ends := await (Item a) (mk_slide_done a b d) (c_ends c) |>
  else
    let c := update a (fun it => it <| i_active := false |>) c in
    let c := update b (fun it => it <| i_active := true |>) c in
    tell (EvSlid d a b) (c <| isSliding := false |>).

Definition slide (d : direction) (element : option nat) (c : carousel) : carousel :=
  let activeElement := active_item c in
  let nextElement := match element with
                     | Some i => Some i
                     | None => a ← activeElement; getItemByDirection d a c
                     end in
  let isCycling := bool_decide (interval c <> None) in
  if match nextElement with Some i => is_active c i | None => false end then c <| isSliding := false |>
  else
    let ev := EvSlide d activeElement nextElement in
    let c := tell ev c in
    if negb (allow ev) then c
    else match activeElement, nextElement with
    | Some a, Some b =>
        let c := c <| isSliding := true |> in
        let c := if isCycling then pause false c else c in
        let c := begin_slide d a b (setActiveIndicatorElement b c) in
        if isCycling then cycle false c else c
    | _, _ => c
    end.

Definition next (c : carousel) : carousel := if isSliding c then c else slide NEXT None c.
Definition prev (c : carousel) : carousel := if isSliding c then c else slide PREV None c.

(** [index > n]; comparisons with a text that is not a number are false. *)
Definition to_Z (i : index) : option Z := match i with INum z => Some z | IText z => z end.
Definition index_gt (i : index) (n : Z) : bool := match to_Z i with Some z => n <? z | None => false end.
Definition index_lt (i : index) (n : Z) : bool := match to_Z i with Some z => z <? n | None => false end.

Definition to (i : index) (c : carousel) : carousel :=
  let activeElement := active_item c in
  let activeIndex := match activeElement with Some a => Z.of_nat a | None => -1 end in
  let len := match activeElement with Some _ => Z.of_nat (length (items_ c)) | None => 0 end in
  if index_gt i (len - 1) || index_lt i 0 then c
  else if isSliding c then c <| on_slid := on_slid c ++ [i] |>
  else if match i with INum z => z =? activeIndex | IText _ => false end then cycle false (pause false c)
  else
    let d := if index_gt i activeIndex then NEXT else PREV in
    slide d (z ← to_Z i; if activeElement then Some (Z.to_nat z) else None) c.

(** [setTimeout(trigger(slidEvent), 0)]: with the event the waiting calls of [to] run. *)
Definition slid_timer (c : carousel) : carousel :=
  match slids c with
  | [] => c
  | t :: ts =>
      let c := c <| slids := ts |> in
      if disposed c then c
      else
        let c := tell (EvSlid (d_dir t) (d_from t) (d_to t)) c in
        fold_left (fun c i => to i c) (on_slid c) (c <| on_slid := [] |>)
  end.

(** ** Events *)

Inductive ckey := ArrowLeft | ArrowRight | OtherKey.

Definition keydown (in_input : bool) (k : ckey) (c : carousel) : carousel :=
  if negb (keyboard o) || in_input then c
  else match k with ArrowLeft => prev c | ArrowRight => next c | OtherKey => c end.

Definition touchend (c : carousel) : carousel :=
  let c := pause false c in
  let c := match touchTimeout c with
           | Some n => c <| touch_timers := filter (fun m => m <> n) (touch_timers c) |>
           | None => c
           end in
  c <| touchTimeout := Some (handles c) |> <| touch_timers := touch_timers c ++ [handles c] |>
    <| handles := S (handles c) |>.

(** An interval fires; [visible] is what [nextWhenVisible] finds. *)
Definition tick (visible : bool) (c : carousel) : carousel :=
  if disposed c then c else if visible then next c else c.

Definition touch_timer (c : carousel) : carousel :=
  if disposed c then tell Thrown c else cycle false c.

(** Without [clearInterval].  The page has no way back to a disposed carousel but the
    timers and the listeners of a transition. *)
Definition dispose (c : carousel) : carousel :=
  c <| on_slid := [] |> <| interval := None |> <| isPaused := false |> <| isSliding := false |>
    <| disposed := true |>.

(** [_jQueryInterface], with a number, a method, or options whose [slide] may name one. *)
Inductive method := MNext | MPrev | MPause | MCycle | MTo | MDispose | MNextWhenVisible (visible : bool) | MUnknown.
Inductive argument := ANumber (z : Z) | AMethod (m : method) | AOptions (slide : option method) (interval : bool).

Definition call_method (m : method) (c : carousel) : carousel :=
  match m with
  | MNext => next c | MPrev => prev c | MPause => pause false c | MCycle => cycle false c
  | MTo => to (IText None) c | MDispose => dispose c
  | MNextWhenVisible visible => if visible then next c else c
  | MUnknown => tell Thrown c
  end.

Definition jQueryInterface (a : argument) (c : carousel) : carousel :=
  match a with
  | ANumber z => to (INum z) c
  | AMethod m | AOptions (Some m) _ => call_method m c
  | AOptions None i => if i then cycle false (pause false c) else c
  end.

(** A click on a control with [data-slide] or [data-slide-to]. *)
Definition dataApiClickHandler (slide : option method) (slideIndex : option (option Z)) (interval : bool)
  (c : carousel) : carousel :=
  match slideIndex with
  | Some i =>
      let c := jQueryInterface (AOptions slide false) c in
      if disposed c then tell Thrown c else to (IText i) c
  | None => jQueryInterface (AOptions slide interval) c
  end.

(** What happens on a page. *)
Inductive caction :=
  | Call (a : argument) | Click (slide : option method) (slideIndex : option (option Z)) (interval : bool)
  | Keydown (in_input : bool) (k : ckey) | MouseEnter | MouseLeave | TouchEnd
  | Tick (n : nat) (visible : bool) | TouchTimer (n : nat) | SlidTimer
  | TransitionEnd (p : place) | EndTimer (n : nat).

Definition act (a : caction) (c : carousel) : carousel :=
  match a with
  | Call a => if disposed c then c else jQueryInterface a c
  | Click m i b => if disposed c then c else dataApiClickHandler m i b c
  | Keydown b k => if disposed c then c else keydown b k c
  | MouseEnter => if disposed c || negb (pause_hover o) then c else pause true c
  | MouseLeave => if disposed c || negb (pause_hover o) then c else cycle true c
  | TouchEnd => if disposed c || negb (pause_hover o) then c else touchend c
  | Tick n visible => if decide (n ∈ alive c) then tick visible c else c
  | TouchTimer n =>
      if decide (n ∈ touch_timers c)
      then touch_timer (c <| touch_timers := filter (fun m => m <> n) (touch_timers c) |>) else c
  | SlidTimer => slid_timer c
  | TransitionEnd p => transition_end p c
  | EndTimer n => end_timer n c
  end.
End carousel.
