(* ===== verification/BsCarouselFlow.v ===== *)
(** * Bootstrap: carousel.js, its properties

    Under any events one item is active, a slide is under way exactly while its
    transition is awaited, and one interval at most runs; every call of [to] is carried
    out in the end; without transitions [next] goes round. *)

From S2P Require Export BsEnds BsCarousel.

(** ** Items *)

Lemma alter_fmap_seq {A} (f : A -> A) (g : nat -> A) k n :
  alter f k (g <$> seq 0 n) = (fun i => if decide (i = k) then f (g i) else g i) <$> seq 0 n.
Proof.
  apply list_eq. intros i. destruct (decide (i = k)) as [->|Hne].
  - rewrite list_lookup_alter_eq, !list_lookup_fmap. destruct (seq 0 n !! k) eqn:E; cbn; [|done].
    apply lookup_seq in E as [-> _]. by rewrite decide_True.
  - rewrite list_lookup_alter_ne by done. rewrite !list_lookup_fmap.
    destruct (seq 0 n !! i) eqn:E; cbn; [|done]. apply lookup_seq in E as [-> _]. by rewrite decide_False.
Qed.

Lemma fmap_seq_ext {A} (f g : nat -> A) n :
  (forall i, (i < n)%nat -> f i = g i) -> f <$> seq 0 n = g <$> seq 0 n.
Proof. intros H. apply list_fmap_ext. intros i x [-> ?]%lookup_seq. by apply H. Qed.

Definition blank_item : item := mk_item false false false false false.
Definition active_one : item := mk_item true false false false false.

(** [n] items of which [a] is active, and in a slide from [a] to [b]. *)
Definition resting (n a : nat) : list item :=
  (fun i => if decide (i = a) then active_one else blank_item) <$> seq 0 n.
Definition moving (n a b : nat) (d : direction) : list item :=
  (fun i => if decide (i = a) then set_directional d true active_one
            else if decide (i = b) then set_directional d true (set_order d true blank_item)
            else blank_item) <$> seq 0 n.

Lemma find_active (g : nat -> item) n a :
  (a < n)%nat -> (forall i, i_active (g i) = bool_decide (i = a)) ->
  fst <$> list_find i_active (g <$> seq 0 n) = Some a.
Proof.
  intros Ha Hg. enough (list_find i_active (g <$> seq 0 n) = Some (a, g a)) as -> by done.
  apply list_find_Some. split_and!.
  - rewrite list_lookup_fmap. by rewrite (proj2 (lookup_seq 0 n a a)).
  - rewrite Hg. by case_bool_decide.
  - intros j y Hj Hlt. rewrite list_lookup_fmap in Hj. destruct (seq 0 n !! j) eqn:E; [|done].
    apply lookup_seq in E as [-> _]. injection Hj as <-. cbn. rewrite Hg. case_bool_decide; [lia|tauto].
Qed.

Lemma resting_active n a : (a < n)%nat -> fst <$> list_find i_active (resting n a) = Some a.
Proof. intros Ha. apply find_active; [done|]. intros i. case_decide; case_bool_decide; done. Qed.

Lemma moving_active n a b d : (a < n)%nat -> fst <$> list_find i_active (moving n a b d) = Some a.
Proof.
  intros Ha. apply find_active; [done|]. intros i.
  destruct d; repeat case_decide; case_bool_decide; done.
Qed.


Lemma length_resting n a : length (resting n a) = n.
Proof. unfold resting. by rewrite length_fmap, length_seq. Qed.

Lemma length_moving n a b d : length (moving n a b d) = n.
Proof. unfold moving. by rewrite length_fmap, length_seq. Qed.

Lemma still_resting n a : existsb (fun it => i_next it || i_prev it) (resting n a) = false.
Proof.
  destruct (existsb _ _) eqn:E; [|done]. apply existsb_exists in E as (it & Hin & Hit).
  apply list_elem_of_In, list_elem_of_fmap in Hin as (i & -> & _). by case_decide.
Qed.

Lemma resting_at n a i it : resting n a !! i = Some it -> i_active it = bool_decide (i = a).
Proof.
  unfold resting. rewrite list_lookup_fmap. destruct (seq 0 n !! i) eqn:E; [|done].
  apply lookup_seq in E as [-> _]. intros [= <-]. cbn. by case_decide; case_bool_decide.
Qed.

Lemma moving_at n a b d i it : moving n a b d !! i = Some it -> i_active it = bool_decide (i = a).
Proof.
  unfold moving. rewrite list_lookup_fmap. destruct (seq 0 n !! i) eqn:E; [|done].
  apply lookup_seq in E as [-> _]. intros [= <-]. cbn.
  by destruct d; repeat case_decide; case_bool_decide.
Qed.

#[export] Instance carousel_laws : ends_laws place slide_done carousel.
Proof. split; [done|by intros []]. Qed.

Lemma carousel_only_awaits : only_awaits (S := carousel).
Proof. by intros l c X P. Qed.

(** ** The interval *)

(** What an operation on the interval leaves alone. *)
Definition motion (c : carousel) :=
  (items_ c, c_ends c, isSliding c, disposed c, slids c, on_slid c, told c).

Definition one_interval (c : carousel) : Prop := alive c = option_list (interval c).

Lemma clear_interval_spec c :
  one_interval c -> motion (clear_interval c) = motion c /\ interval (clear_interval c) = None /\
    alive (clear_interval c) = [] /\ isPaused (clear_interval c) = isPaused c.
Proof.
  unfold one_interval, clear_interval. destruct (interval c) as [h|] eqn:E; cbn; intros A; [|by rewrite A].
  rewrite A. split_and!; try done. rewrite filter_cons, decide_False by tauto. done.
Qed.

Lemma cycle_spec o e c :
  one_interval c -> motion (cycle o e c) = motion c /\ one_interval (cycle o e c) /\
    (is_Some (interval (cycle o e c)) <-> interval_on o = true /\ (e = true -> isPaused c = false)).
Proof.
  intros A. unfold cycle. cbv zeta. set (c1 := if e then c else c <| isPaused := false |>).
  assert (motion c1 = motion c /\ one_interval c1 /\ isPaused c1 = (e && isPaused c)) as (M & A1 & P1)
    by (unfold c1; destruct e; done).
  clearbody c1. destruct (clear_interval_spec c1 A1) as (M2 & I2 & A2 & P2).
  set (c2 := clear_interval c1) in *. clearbody c2. rewrite P2, P1.
  destruct (interval_on o && negb (e && isPaused c)) eqn:E.
  - apply andb_true_iff in E as [E1 E2]. split_and!; [by rewrite <- M, <- M2|by unfold one_interval; cbn; rewrite A2|].
    cbn. split; [|by intros _; eexists]. intros _. split; [done|]. intros ->. by destruct (isPaused c).
  - split_and!; [by rewrite M2|by unfold one_interval; rewrite I2|]. rewrite I2.
    split; [by intros []|]. intros [E1 E2]. rewrite E1 in E. cbn in E.
    destruct e; [by rewrite E2 in E|done].
Qed.

Lemma pause_spec o supports e c :
  one_interval c -> (forall p, p ∈ waiting (c_ends c) -> p.1 <> Root) ->
  motion (pause o supports e c) = motion c /\ one_interval (pause o supports e c) /\
    interval (pause o supports e c) = None.
Proof.
  intros A Hw. unfold pause. cbv zeta. set (c1 := if e then c else c <| isPaused := true |>).
  assert (motion c1 = motion c /\ one_interval c1) as [M A1] by (unfold c1; by destruct e).
  rewrite (transition_end_other (H := carousel_host) Root c1).
  2: { intros p. cbn. replace (c_ends c1) with (c_ends c) by (by injection M). apply Hw. }
  clearbody c1. set (c2 := if _ && _ then _ else c1).
  assert (motion c2 = motion c1 /\ one_interval c2) as [M2 A2].
  { unfold c2. destruct (_ && _); [|done]. by destruct (cycle_spec o true c1 A1) as (? & ? & _). }
  clearbody c2. destruct (clear_interval_spec c2 A2) as (M3 & I3 & A3 & _).
  split_and!; [by rewrite M3, M2, M|by unfold one_interval; rewrite A3, I3|done].
Qed.

(** ** The states of a carousel *)

Section flow.
Context (o : options) (allow : cevent -> bool) (supports slide_class : bool).
Context (n : nat).
Abbreviation animated := (supports && slide_class).
Abbreviation act := (act o allow supports slide_class).
Abbreviation slide := (slide o allow supports slide_class).
Abbreviation to := (to o allow supports slide_class).

Definition run (l : list caction) (c : carousel) : carousel := fold_left (fun c a => act a c) l c.

Definition rests (a : nat) (c : carousel) : Prop :=
  (a < n)%nat /\ items_ c = resting n a /\ waiting (c_ends c) = [] /\ isSliding c = false.

Definition slides (a b : nat) (d : direction) (c : carousel) : Prop :=
  exists m, (a < n)%nat /\ (b < n)%nat /\ a <> b /\ items_ c = moving n a b d /\
    waiting (c_ends c) = [(Item a, Done (mk_slide_done a b d)); (Item a, Mark m)] /\
    m ∉ called (c_ends c) /\ isSliding c = negb (disposed c).

Record ok (c : carousel) : Prop := {
  ok_phase : (exists a, rests a c) \/ (exists a b d, slides a b d c) /\ animated = true;
  ok_ends : ends_ok (c_ends c);
  ok_alive : (length (alive c) <= 1)%nat;
  ok_interval : disposed c = false -> one_interval c;
  ok_quiet : disposed c = false -> on_slid c <> [] -> isSliding c = true \/ slids c <> [];
}.

Lemma rests_motion a c c' : motion c' = motion c -> rests a c -> rests a c'.
Proof. unfold rests. by intros [= -> -> -> _ _ _ _]. Qed.

Lemma slides_motion a b d c c' : motion c' = motion c -> slides a b d c -> slides a b d c'.
Proof. unfold slides. by intros [= -> -> -> -> _ _ _]. Qed.

Lemma one_interval_alive c : one_interval c -> (length (alive c) <= 1)%nat.
Proof. unfold one_interval. intros ->. destruct (interval c); cbn; lia. Qed.

Lemma ok_motion c c' : motion c' = motion c -> one_interval c' -> ok c -> ok c'.
Proof.
  intros M A [P E _ _ Q]. pose proof M as M'. injection M' as M1 M2 M3 M4 M5 M6 _. split.
  - destruct P as [[a P]|[(a & b & d & P) Hn]].
    + left. exists a. by apply (rests_motion a c).
    + right. split; [|done]. exists a, b, d. by apply (slides_motion a b d c).
  - by rewrite M2.
  - by apply one_interval_alive.
  - done.
  - by rewrite M3, M4, M5, M6.
Qed.

Lemma ok_no_root c : ok c -> forall p, p ∈ waiting (c_ends c) -> p.1 <> Root.
Proof.
  intros Hc p. destruct (ok_phase c Hc) as [(a & _ & _ & -> & _)|[(a & b & d & m & _ & _ & _ & _ & -> & _) _]].
  - by intros ?%elem_of_nil.
  - rewrite !elem_of_cons. intros [->|[->|?%elem_of_nil]]; done.
Qed.

Lemma ok_cycle e c : ok c -> disposed c = false -> ok (cycle o e c).
Proof.
  intros Hc Hd. destruct (cycle_spec o e c (ok_interval c Hc Hd)) as (M & A & _). by apply (ok_motion c).
Qed.

Lemma ok_pause e c : ok c -> disposed c = false -> ok (pause o supports e c).
Proof.
  intros Hc Hd.
  destruct (pause_spec o supports e c (ok_interval c Hc Hd) (ok_no_root c Hc)) as (M & A & _).
  by apply (ok_motion c).
Qed.

Lemma motion_disposed c c' : motion c' = motion c -> disposed c' = disposed c.
Proof. by intros [= _ _ _ -> _ _ _]. Qed.

(** The active item. *)
Lemma rests_active a c : rests a c -> active_item c = Some a.
Proof. intros (Ha & E & _). unfold active_item. rewrite E. by apply resting_active. Qed.

Lemma rests_is_active a i c : rests a c -> (i < n)%nat -> is_active c i = bool_decide (i = a).
Proof.
  intros (Ha & E & _) Hi. unfold is_active. rewrite E.
  destruct (resting n a !! i) as [it|] eqn:Ei; [by eapply resting_at|].
  apply lookup_ge_None in Ei. rewrite length_resting in Ei. lia.
Qed.

Lemma slides_active a b d c : slides a b d c -> active_item c = Some a.
Proof. intros (m & Ha & _ & _ & E & _). unfold active_item. rewrite E. by apply moving_active. Qed.

(** The item [next] and [prev] go to. *)
Definition beside (d : direction) (a : nat) : nat :=
  match d with
  | NEXT => if decide (S a = n) then (if wrap o then 0 else a) else S a
  | PREV => match a with O => if wrap o then n - 1 else a | S a => a end
  end%nat.

Lemma getItemByDirection_spec d a c :
  length (items_ c) = n -> (a < n)%nat ->
  getItemByDirection o d a c = Some (beside d a) /\ (beside d a < n)%nat.
Proof.
  intros Hn Ha. unfold getItemByDirection, beside. rewrite Hn. destruct d.
  - destruct (Z.eqb_spec (Z.of_nat a) (Z.of_nat n - 1)).
    + rewrite decide_True by lia. destruct (wrap o); cbn; [|split; [done|lia]].
      replace (Z.of_nat a + 1) with (Z.of_nat n) by lia. rewrite Z.rem_same by lia. split; [done|lia].
    + rewrite decide_False by lia. cbn. rewrite Z.rem_small by lia.
      destruct (Z.eqb_spec (Z.of_nat a + 1) (-1)); [lia|]. split; [f_equal; lia|lia].
  - destruct (Z.eqb_spec (Z.of_nat a) 0).
    + assert (a = 0%nat) as -> by lia. destruct (wrap o); cbn; [|split; [done|lia]].
      destruct (decide (n = 1%nat)) as [->|]; [split; [done|lia]|].
      change (Z.of_nat 0 + -1) with (- (1)). rewrite Z.rem_opp_l, Z.rem_small by lia.
      cbn. split; [f_equal; lia|lia].
    + destruct a as [|a]; [lia|]. cbn [andb]. rewrite Z.rem_small by lia.
      destruct (Z.eqb_spec (Z.of_nat (S a) + -1) (-1)); [lia|]. split; [f_equal; lia|lia].
Qed.

Lemma carousel_ok_tell ev c : ok c -> ok (tell ev c).
Proof. by intros [A B C D E]; split. Qed.

(** *** One slide *)

(** The classes during and after a slide. *)
Lemma begin_moving d a b :
  a <> b ->
  alter (set_directional d true) b (alter (set_directional d true) a
    (alter (set_order d true) b (resting n a))) = moving n a b d.
Proof.
  intros Hab. unfold resting. rewrite !alter_fmap_seq. apply fmap_seq_ext. intros i _.
  destruct d; repeat case_decide; subst; done.
Qed.

Lemma end_moving d a b :
  a <> b ->
  alter (fun it => set_directional d false (set_order d false (it <| i_active := false |>))) a
    (alter (fun it => set_order d false (set_directional d false it) <| i_active := true |>) b
      (moving n a b d)) = resting n b.
Proof.
  intros Hab. unfold moving, resting. rewrite !alter_fmap_seq. apply fmap_seq_ext. intros i _.
  destruct d; repeat case_decide; subst; done.
Qed.

Lemma swap_resting a b :
  a <> b ->
  alter (fun it => it <| i_active := true |>) b (alter (fun it => it <| i_active := false |>) a (resting n a))
    = resting n b.
Proof.
  intros Hab. unfold resting. rewrite !alter_fmap_seq. apply fmap_seq_ext. intros i _.
  repeat case_decide; subst; done.
Qed.

(** The events of a slide. *)
Definition slide_told (d : direction) (a b : nat) : list cevent :=
  if decide (b = a) then []
  else EvSlide d (Some a) (Some b) ::
       (if allow (EvSlide d (Some a) (Some b)) && negb animated then [EvSlid d a b] else []).

Record slid_to (a b : nat) (d : direction) (c c' : carousel) : Prop := {
  sl_ok : ok c';
  sl_disposed : disposed c' = false;
  sl_slids : slids c' = slids c;
  sl_on_slid : on_slid c' = on_slid c;
  sl_told : told c' = told c ++ slide_told d a b;
  sl_phase :
    if decide (b <> a /\ allow (EvSlide d (Some a) (Some b)) = true)
    then if animated then slides a b d c' else rests b c'
    else rests a c';
}.

(** From the moment a slide is allowed to its end or its transition. *)
Lemma begin_slide_spec d a b c :
  ends_ok (c_ends c) -> one_interval c -> (on_slid c <> [] -> slids c <> []) ->
  disposed c = false -> (a < n)%nat -> (b < n)%nat -> a <> b ->
  items_ c = resting n a -> waiting (c_ends c) = [] -> isSliding c = true ->
  let c' := begin_slide supports slide_class d a b c in
  ok c' /\ disposed c' = false /\ slids c' = slids c /\ on_slid c' = on_slid c /\
  told c' = told c ++ (if animated then [] else [EvSlid d a b]) /\
  (if animated then slides a b d c' else rests b c').
Proof.
  intros He Hiv Hq Hd Ha Hb Hab Hi Hw Hs. unfold begin_slide. destruct animated eqn:Ean; cbv zeta.
  - set (c' := _ <| c_ends := _ |>).
    assert (slides a b d c') as Hsl.
    { exists (fresh (c_ends c)). cbn. rewrite Hi, Hw, Hs, Hd, begin_moving by done.
      split_and!; try done. intros Hin%(eo_called _ _ _ He). lia. }
    split_and!; try done; [|by rewrite app_nil_r]. split.
    + right. split; [|done]. by exists a, b, d.
    + by apply await_ok.
    + by apply one_interval_alive.
    + done.
    + by left.
  - set (c' := tell _ _).
    assert (rests b c') as Hr by (split_and!; [done|cbn; rewrite Hi; by apply swap_resting|done|done]).
    split_and!; try done. split; [left; by exists b|done|by apply one_interval_alive|done|by intros _ ?; right; apply Hq].
Qed.

Lemma slide_spec d e a c :
  ok c -> disposed c = false -> rests a c -> (forall b, e = Some b -> (b < n)%nat) ->
  slid_to a (default (beside d a) e) d c (slide d e c).
Proof.
  intros Hc Hd Hr He. pose proof Hr as (Ha & Hi & Hw & Hs).
  destruct (getItemByDirection_spec d a c) as [Hg Hg']; [by rewrite Hi, length_resting|done|].
  set (b := default (beside d a) e).
  assert ((b < n)%nat) as Hb by (unfold b; destruct e; [by apply He|done]).
  unfold slide. rewrite (rests_active a) by done.
  assert (match e with Some i => Some i | None => a0 ← Some a; getItemByDirection o d a0 c end = Some b) as ->
    by (unfold b; destruct e; done).
  rewrite (rests_is_active a b) by done. cbv zeta.
  case_bool_decide as Hab.
  { assert (motion (c <| isSliding := false |>) = motion c) as M by (unfold motion; cbn; by rewrite Hs).
    split; try done; [apply (ok_motion c); [done|exact (ok_interval c Hc Hd)|done]
      |by unfold slide_told; rewrite decide_True, app_nil_r|].
    rewrite decide_False by tauto. done. }
  assert (slide_told d a b = EvSlide d (Some a) (Some b) ::
    (if allow (EvSlide d (Some a) (Some b)) && negb animated then [EvSlid d a b] else [])) as Et
    by by unfold slide_told; rewrite decide_False.
  destruct (allow _) eqn:Eal; cbn [negb].
  2: { split; try done; [by apply carousel_ok_tell|by rewrite Et|]. rewrite decide_False by (intros [_ ?]; congruence). done. }
  set (ev := EvSlide d (Some a) (Some b)) in *.
  set (c1 := tell ev c <| isSliding := true |>).
  assert (one_interval c1) as A1 by exact (ok_interval c Hc Hd).
  set (c2 := if bool_decide (interval c <> None) then pause o supports false c1 else c1).
  assert (motion c2 = motion c1 /\ one_interval c2) as [M2 A2].
  { unfold c2. destruct (bool_decide _); [|done].
    destruct (pause_spec o supports false c1 A1) as (? & ? & _); [|done].
    cbn. rewrite Hw. by intros p ?%elem_of_nil. }
  clearbody c2. injection M2 as M1 M2 M3 M4 M5 M6 M7.
  destruct (begin_slide_spec d a b (setActiveIndicatorElement b c2)) as (B1 & B2 & B3 & B4 & B5 & B6);
    try (cbn; congruence).
  { cbn. rewrite M2. apply Hc. }
  { exact A2. }
  { cbn. rewrite M5, M6. intros Ho. destruct (ok_quiet c Hc Hd Ho); [congruence|done]. }
  set (c3 := begin_slide supports slide_class d a b (setActiveIndicatorElement b c2)) in *. clearbody c3.
  set (c4 := if bool_decide (interval c <> None) then cycle o false c3 else c3).
  assert (motion c4 = motion c3 /\ ok c4) as [M O4].
  { unfold c4. destruct (bool_decide _); [|done]. split; [|by apply ok_cycle].
    by destruct (cycle_spec o false c3 (ok_interval c3 B1 B2)) as (? & _). }
  clearbody c4. pose proof M as M'. injection M' as N1 N2 N3 N4 N5 N6 N7. split.
  - done.
  - congruence.
  - rewrite N5, B3. cbn. by rewrite M5.
  - rewrite N6, B4. cbn. by rewrite M6.
  - rewrite N7, B5, Et. cbn. rewrite M7. cbn. rewrite <- app_assoc. by destruct animated.
  - rewrite decide_True by done. destruct animated; [by apply (slides_motion a b d c3)|by apply (rests_motion b c3)].
Qed.

(** *** Every operation *)

Lemma phase_cases c :
  ok c -> disposed c = false ->
  (isSliding c = false /\ exists a, rests a c) \/
  (isSliding c = true /\ animated = true /\ exists a b d, slides a b d c).
Proof.
  intros Hc Hd. destruct (ok_phase c Hc) as [[a Hr]|[(a & b & d & Hs) Ha]].
  - left. split; [apply Hr|by exists a].
  - right. split_and!; [|done|by exists a, b, d]. destruct Hs as (m & _ & _ & _ & _ & _ & _ & ->). by rewrite Hd.
Qed.

Lemma ok_slide d a c : ok c -> disposed c = false -> rests a c ->
  ok (slide d None c) /\ disposed (slide d None c) = false.
Proof. intros Hc Hd Hr. destruct (slide_spec d None a c Hc Hd Hr); [done|]. done. Qed.

Lemma ok_next c : ok c -> disposed c = false ->
  ok (next o allow supports slide_class c) /\ disposed (next o allow supports slide_class c) = false.
Proof.
  intros Hc Hd. unfold next. destruct (phase_cases c Hc Hd) as [[-> [a Hr]]|[-> _]]; [|done].
  by apply (ok_slide NEXT a).
Qed.

Lemma ok_prev c : ok c -> disposed c = false ->
  ok (prev o allow supports slide_class c) /\ disposed (prev o allow supports slide_class c) = false.
Proof.
  intros Hc Hd. unfold prev. destruct (phase_cases c Hc Hd) as [[-> [a Hr]]|[-> _]]; [|done].
  by apply (ok_slide PREV a).
Qed.

(** [pause] and then [cycle]. *)
Lemma ok_restart c : ok c -> disposed c = false ->
  let c' := cycle o false (pause o supports false c) in motion c' = motion c /\ ok c'.
Proof.
  intros Hc Hd.
  destruct (pause_spec o supports false c (ok_interval c Hc Hd) (ok_no_root c Hc)) as (M & A & _).
  destruct (cycle_spec o false _ A) as (M2 & A2 & _).
  split; [by rewrite M2, M|]. by apply (ok_motion c); [rewrite M2, M| |].
Qed.

(** The item an argument of [to] means. *)
Definition wanted (i : index) (a : nat) : option nat :=
  match to_Z i with
  | Some z => if (0 <=? z) && (z <? Z.of_nat n) then Some (Z.to_nat z) else Some a
  | None => None
  end.

(** [to] at rest: nothing, a new interval, or a slide to the item wanted. *)
Lemma to_spec i a c :
  ok c -> disposed c = false -> rests a c ->
  motion (to i c) = motion c /\ ok (to i c) /\ wanted i a = Some a \/
  exists d, slid_to a (default (beside d a) (wanted i a)) d c (to i c).
Proof.
  intros Hc Hd Hr. pose proof Hr as (Ha & Hi & Hw & Hs).
  unfold to, wanted, index_gt, index_lt. rewrite (rests_active a) by done. rewrite Hi, length_resting, Hs.
  cbv zeta. destruct (to_Z i) as [z|] eqn:Ez; cbn [mbind option_bind].
  - destruct (Z.leb_spec 0 z), (Z.ltb_spec z 0), (Z.ltb_spec z (Z.of_nat n)),
      (Z.ltb_spec (Z.of_nat n - 1) z); try lia; cbn [andb orb]; try (left; done).
    destruct (match i with INum z => _ | IText _ => _ end) eqn:Eq.
    + left. destruct i as [z'|]; [|done]. injection Ez as ->. apply Z.eqb_eq in Eq as ->.
      destruct (ok_restart c Hc Hd). rewrite Nat2Z.id. done.
    + right. eexists. apply slide_spec; [done..|]. intros b [= <-]. lia.
  - destruct i as [z|[z|]]; try done. right. eexists. apply slide_spec; done.
Qed.

Lemma ok_to i c : ok c -> disposed c = false -> ok (to i c) /\ disposed (to i c) = false.
Proof.
  intros Hc Hd. destruct (phase_cases c Hc Hd) as [[Hs [a Hr]]|[Hs _]].
  - destruct (to_spec i a c Hc Hd Hr) as [(M & Hok & _)|[d Hsl]].
    + split; [done|]. by rewrite (motion_disposed c).
    + by destruct Hsl.
  - unfold to. rewrite Hs. cbv zeta. destruct (_ || _); [done|]. split; [|done].
    destruct Hc as [A B C D E]. split; try done. by left.
Qed.

Lemma ok_tos l c : ok c -> disposed c = false ->
  let c' := fold_left (fun c i => to i c) l c in ok c' /\ disposed c' = false.
Proof.
  revert c. induction l as [|i l IH]; intros c Hc Hd; [done|]. cbn [fold_left].
  destruct (ok_to i c Hc Hd). by apply IH.
Qed.

(** *** The end of a transition *)

Lemma slide_finish a b d c :
  slides a b d c ->
  exists e, waiting e = [] /\ transition_end (Item a) c
    = c <| items_ := resting n b |> <| isSliding := false |>
        <| slids := slids c ++ [mk_slide_done a b d] |> <| c_ends := e |>.
Proof.
  intros (m & Ha & Hb & Hab & Hi & Hw & _). rewrite (transition_end_await (H := carousel_host) _ _ _ c Hw).
  cbv zeta. eexists. split; [|cbn; unfold slide_end, update; cbn; rewrite Hi, end_moving by done; reflexivity].
  done.
Qed.

Lemma finish_ok a b d c e :
  ok c -> ends_ok e -> waiting e = [] -> slides a b d c ->
  let c' := c <| items_ := resting n b |> <| isSliding := false |>
        <| slids := slids c ++ [mk_slide_done a b d] |> <| c_ends := e |> in
  ok c' /\ rests b c'.
Proof.
  intros [A B C D E] He Hw (m & Ha & Hb & _) c'.
  assert (rests b c') as Hr by done. split; [|done]. split; try done.
  - left. by exists b.
  - intros _ _. right. cbn. by destruct (slids c).
Qed.

Lemma transition_end_rests p a c : rests a c -> transition_end p c = c.
Proof.
  intros (_ & _ & Hw & _). apply (transition_end_other (H := carousel_host)). cbn. rewrite Hw.
  by intros ? ?%elem_of_nil.
Qed.

Lemma transition_end_slides p a b d c : slides a b d c -> p <> Item a -> transition_end p c = c.
Proof.
  intros (m & _ & _ & _ & _ & Hw & _) Hp. apply (transition_end_other (H := carousel_host)). cbn. rewrite Hw.
  intros q. rewrite !elem_of_cons. intros [->|[->|?%elem_of_nil]]; cbn; congruence.
Qed.

Lemma carousel_ok_transition_end p c : ok c -> ok (transition_end p c).
Proof.
  intros Hc. pose proof (transition_end_ok p c carousel_only_awaits (ok_ends c Hc)) as He.
  destruct (ok_phase c Hc) as [[a Hr]|[(a & b & d & Hs) _]].
  - by rewrite (transition_end_rests p a c).
  - destruct (decide (p = Item a)) as [->|Hp]; [|by rewrite (transition_end_slides p a b d c)].
    destruct (slide_finish a b d c Hs) as (e & Hw & E). rewrite E in He |- *.
    by apply (finish_ok a b d c e Hc He Hw Hs).
Qed.

(** Timers come and go. *)
Lemma ok_timers c e :
  ok c -> ends_ok e -> waiting e = waiting (c_ends c) -> called e = called (c_ends c) ->
  ok (c <| c_ends := e |>).
Proof.
  intros [A B C D E] He Hw Hc. split; try done. destruct A as [[a Hr]|[(a & b & d & Hs) Ha]].
  - left. exists a. destruct Hr as (? & ? & ? & ?). split_and!; try done. cbn. by rewrite Hw.
  - right. split; [|done]. exists a, b, d. destruct Hs as (m & ? & ? & ? & ? & ? & ? & ?). exists m.
    split_and!; try done; cbn; [by rewrite Hw|by rewrite Hc].
Qed.

Lemma end_timer_finish a b d m p c :
  ok c -> slides a b d c -> (p, Mark m) ∈ waiting (c_ends c) ->
  exists e, waiting e = [] /\ end_timer m c
    = c <| items_ := resting n b |> <| isSliding := false |>
        <| slids := slids c ++ [mk_slide_done a b d] |> <| c_ends := e |>.
Proof.
  intros Hc Hs Hp. pose proof Hs as (m' & Ha & Hb & Hab & Hi & Hw & Hm & Hsl).
  pose proof Hp as Hp'. rewrite Hw, !elem_of_cons in Hp'.
  destruct Hp' as [[=]|[[= -> ->]|?%elem_of_nil]]; [|done].
  rewrite (end_timer_live (H := carousel_host) (Item a) m' c (ok_ends c Hc) Hp Hm).
  set (c1 := put_ends _ c). assert (slides a b d c1) as Hs1 by by exists m'.
  destruct (slide_finish a b d c1 Hs1) as (e & He & E). exists e. split; [done|]. rewrite E. done.
Qed.

Lemma carousel_ok_end_timer m c : ok c -> ok (end_timer m c).
Proof.
  intros Hc. pose proof (end_timer_ok m c carousel_only_awaits (ok_ends c Hc)) as He.
  destruct (list_find (fun p => p.1 = m) (timers (c_ends c))) as [[i [m' p]]|] eqn:Ef.
  2: { unfold end_timer. cbn [the_ends carousel_host]. by rewrite Ef. }
  pose proof Ef as (Ei & Em & _)%list_find_Some. cbn in Em. subst m'.
  destruct (decide (m ∈ called (c_ends c))) as [Hm|Hm].
  - revert He. unfold end_timer. cbn [the_ends put_ends carousel_host]. rewrite Ef, decide_True by done.
    intros He. by apply ok_timers.
  - pose proof (eo_live _ _ _ (ok_ends c Hc) m p (list_elem_of_lookup_2 _ _ _ Ei) Hm) as Hw.
    rewrite app_nil_r in Hw. destruct (ok_phase c Hc) as [[a (_ & _ & E & _)]|[(a & b & d & Hs) _]].
    { rewrite E in Hw. by apply elem_of_nil in Hw. }
    destruct (end_timer_finish a b d m p c Hc Hs Hw) as (e & Hwe & E). rewrite E in He |- *.
    by apply (finish_ok a b d c e Hc He Hwe Hs).
Qed.

(** *** Every event *)

Lemma ok_slid_timer c : ok c -> ok (slid_timer o allow supports slide_class c).
Proof.
  intros Hc. unfold slid_timer. destruct (slids c) as [|t ts] eqn:Es; [done|]. cbv zeta.
  set (c1 := c <| slids := ts |>). change (disposed c1) with (disposed c).
  destruct (disposed c) eqn:Hd.
  - destruct Hc as [A B C D E]. split; try done. cbn. by rewrite Hd.
  - apply ok_tos; [|done]. destruct Hc as [A B C D E]. by split.
Qed.

Lemma ok_touchend c : ok c -> disposed c = false -> ok (touchend o supports c).
Proof.
  intros Hc Hd. unfold touchend. cbv zeta. set (c1 := pause o supports false c).
  assert (ok c1) as [A B C D E] by by apply ok_pause. destruct (touchTimeout c1); by split.
Qed.

Lemma ok_dispose c : ok c -> ok (dispose c).
Proof.
  intros [A B C D E]. split; try done. destruct A as [[a (?&?&?&?)]|[(a & b & d & m & Hs) Ha]].
  - left. by exists a.
  - right. split; [|done]. exists a, b, d, m. destruct Hs as (?&?&?&?&?&?&?). done.
Qed.

Lemma ok_method m c : ok c -> disposed c = false -> ok (call_method o allow supports slide_class m c).
Proof.
  intros Hc Hd. destruct m as [| | | | | |[]|]; cbn [call_method].
  - by apply ok_next.
  - by apply ok_prev.
  - by apply ok_pause.
  - by apply ok_cycle.
  - by apply ok_to.
  - by apply ok_dispose.
  - by apply ok_next.
  - done.
  - by apply carousel_ok_tell.
Qed.

Lemma carousel_ok_interface a c : ok c -> disposed c = false -> ok (jQueryInterface o allow supports slide_class a c).
Proof.
  intros Hc Hd. destruct a as [z|m|[m|] [|]]; cbn [jQueryInterface]; try (by apply ok_method); [by apply ok_to| |done].
  by apply ok_restart.
Qed.

Lemma carousel_ok_act a c : ok c -> ok (act a c).
Proof.
  intros Hc. destruct (disposed c) eqn:Hd.
  { destruct a; cbn [BsCarousel.act]; rewrite ?Hd; cbn [orb]; try done.
    - destruct (decide _); [unfold tick; by rewrite Hd|done].
    - destruct (decide _); [|done]. unfold touch_timer. cbn. rewrite Hd. apply carousel_ok_tell.
      by destruct Hc; split.
    - by apply ok_slid_timer.
    - by apply carousel_ok_transition_end.
    - by apply carousel_ok_end_timer. }
  destruct a; cbn [BsCarousel.act]; rewrite ?Hd; cbn [orb].
  - by apply carousel_ok_interface.
  - unfold dataApiClickHandler. destruct slideIndex; [|by apply carousel_ok_interface]. cbv zeta.
    set (c1 := jQueryInterface _ _ _ _ _ c). assert (ok c1) as H1 by by apply carousel_ok_interface. clearbody c1.
    destruct (disposed c1) eqn:Hd1; [by apply carousel_ok_tell|by apply ok_to].
  - unfold keydown. destruct (_ || _); [done|]. destruct k; [by apply ok_prev|by apply ok_next|done].
  - destruct (negb _); [done|by apply ok_pause].
  - destruct (negb _); [done|by apply ok_cycle].
  - destruct (negb _); [done|by apply ok_touchend].
  - destruct (decide _); [|done]. unfold tick. rewrite Hd. destruct visible; [by apply ok_next|done].
  - destruct (decide _); [|done]. unfold touch_timer. cbn. rewrite Hd.
    apply ok_cycle; [by destruct Hc; split|done].
  - by apply ok_slid_timer.
  - by apply carousel_ok_transition_end.
  - by apply carousel_ok_end_timer.
Qed.

Lemma carousel_ok_run l c : ok c -> ok (run l c).
Proof. revert c. induction l as [|a l IH]; intros c Hc; [done|]. by apply IH, carousel_ok_act. Qed.

Lemma carousel_ok_create a inds : (a < n)%nat -> ok (create (resting n a) inds).
Proof.
  intros Ha. split; try done; [by left; exists a|apply no_ends_ok|cbn; lia].
Qed.

(** C3.  In every state a carousel can reach exactly one item is active, at most one
    interval is alive, and until it is disposed of, that is the one the next [pause]
    or [cycle] clears, and a slide is under way exactly while its end is awaited. *)
Theorem carousel_consistent a inds l :
  (a < n)%nat ->
  let c := run l (create (resting n a) inds) in
  (exists a', (a' < n)%nat /\ forall i it, items_ c !! i = Some it -> i_active it = bool_decide (i = a')) /\
  (length (alive c) <= 1)%nat /\
  (disposed c = false -> alive c = option_list (interval c) /\
    (isSliding c = true <-> waiting (c_ends c) <> [])).
Proof.
  intros Ha c. assert (ok c) as Hc by by apply carousel_ok_run, carousel_ok_create. clearbody c. split_and!.
  - destruct (ok_phase c Hc) as [[a' (Ha' & E & _)]|[(a' & b & d & m & Ha' & _ & _ & E & _) _]];
      exists a'; (split; [done|]); rewrite E; [apply resting_at|apply moving_at].
  - apply Hc.
  - intros Hd. split; [by apply Hc|].
    destruct (phase_cases c Hc Hd) as [[Hs [a' (_ & _ & Hw & _)]]|[Hs [_ (a' & b & d & m & _ & _ & _ & _ & Hw & _)]]];
      by rewrite Hs, Hw.
Qed.

(** ** Where [to] leads *)

Section arrival.
Context (Hallow : forall ev, allow ev = true) (z : nat) (Hz : (z < n)%nat).
Abbreviation iz := (INum (Z.of_nat z)).

Definition is_timer (a : caction) : Prop :=
  match a with EndTimer _ | SlidTimer => True | _ => False end.

(** Left to its timers the carousel will stop at [z]. *)
Definition headed (c : carousel) : Prop :=
  (on_slid c = [] /\ (rests z c \/ exists a d, slides a z d c)) \/
  (last (on_slid c) = Some iz /\ ((exists a, rests a c) \/ exists a b d, slides a b d c)).

Lemma wanted_z a : wanted iz a = Some z.
Proof.
  unfold wanted. cbn. destruct (Z.leb_spec 0 (Z.of_nat z)), (Z.ltb_spec (Z.of_nat z) (Z.of_nat n)); try lia.
  cbn. f_equal. lia.
Qed.

(** The calls that wait while a slide goes on wait on. *)
Lemma tos_sliding L c :
  isSliding c = true -> active_item c <> None -> length (items_ c) = n ->
  exists L', fold_left (fun c i => to i c) L c = c <| on_slid := on_slid c ++ L' |> /\
    (length L' <= length L)%nat /\ (last L = Some iz -> last L' = Some iz).
Proof.
  revert c. induction L as [|i L IH]; intros c Hs Ha Hn.
  { exists []. split_and!; [|done|done]. cbn. rewrite app_nil_r. by destruct c. }
  cbn [fold_left]. unfold to at 2. rewrite Hs, Hn. cbv zeta. destruct (active_item c) as [a|] eqn:Ea; [|done].
  destruct (_ || _) eqn:Eo.
  - destruct (IH c Hs) as (L' & E & Hl & Hlast); [by rewrite Ea|done|]. exists L'.
    split_and!; [done|cbn; lia|]. destruct L as [|j L]; [|exact Hlast]. cbn. intros [= ->].
    unfold index_gt, index_lt in Eo. cbn in Eo.
    destruct (Z.ltb_spec (Z.of_nat n - 1) (Z.of_nat z)), (Z.ltb_spec (Z.of_nat z) 0); try lia; done.
  - destruct (IH (c <| on_slid := on_slid c ++ [i] |>)) as (L' & E & Hl & Hlast); [done|..].
    { change (active_item c <> None). by rewrite Ea. }
    { done. }
    exists (i :: L'). split_and!.
    + rewrite E. cbn. by rewrite <- app_assoc.
    + cbn. lia.
    + destruct L as [|j L]; cbn in *; [intros Hj; destruct L'; [done|cbn in Hl; lia]|].
      intros Hj. specialize (Hlast Hj).
      destruct L'; [done|]. exact Hlast.
Qed.

Lemma slides_sliding a b d c : slides a b d c -> disposed c = false ->
  isSliding c = true /\ active_item c <> None /\ length (items_ c) = n.
Proof.
  intros Hs Hd. split_and!.
  - destruct Hs as (m & _ & _ & _ & _ & _ & _ & ->). by rewrite Hd.
  - by rewrite (slides_active a b d).
  - destruct Hs as (m & _ & _ & _ & -> & _). apply length_moving.
Qed.

(** One call at rest, when nothing waits. *)
Lemma to_headed i a c :
  ok c -> disposed c = false -> rests a c ->
  ok (to i c) /\ disposed (to i c) = false /\ on_slid (to i c) = on_slid c /\ slids (to i c) = slids c /\
  exists b, (i = iz -> b = z) /\ (rests b (to i c) \/ exists d, slides a b d (to i c)).
Proof.
  intros Hc Hd Hr. destruct (to_spec i a c Hc Hd Hr) as [(M & Hok & Hw)|[d [A B C D E F]]].
  - pose proof M as [= M1 M2 M3 M4 M5 M6 M7]. split_and!; try done; [by rewrite M4|].
    exists a. split; [|left; by apply (rests_motion a c)]. intros ->. rewrite wanted_z in Hw. congruence.
  - split_and!; try done. rewrite Hallow in F.
    set (b := default (beside d a) (wanted i a)) in *. exists b.
    assert (i = iz -> b = z) as Hb by (intros ->; unfold b; by rewrite wanted_z).
    split; [done|]. destruct (decide (b = a)) as [->|Hab].
    + rewrite decide_False in F by tauto. by left.
    + rewrite decide_True in F by done. destruct animated; [right; by exists d|by left].
Qed.

Lemma tos_headed L a c :
  ok c -> disposed c = false -> rests a c -> on_slid c = [] -> last L = Some iz ->
  let c' := fold_left (fun c i => to i c) L c in
  headed c' /\ (length (on_slid c') < length L)%nat.
Proof.
  revert a c. induction L as [|i L IH]; intros a c Hc Hd Hr Ho Hlast; [done|]. cbn [fold_left].
  destruct (to_headed i a c Hc Hd Hr) as (Hc1 & Hd1 & Ho1 & _ & b & Hb & Hph). rewrite Ho in Ho1.
  set (c1 := to i c) in *. clearbody c1. destruct L as [|j L].
  - injection Hlast as ->. rewrite (Hb eq_refl) in Hph. cbn [fold_left]. rewrite Ho1. split; [|cbn; lia].
    left. split; [done|]. destruct Hph as [?|[d ?]]; [by left|right; by exists a, d].
  - assert (last (j :: L) = Some iz) as Hl by exact Hlast. cbv zeta.
    destruct Hph as [Hr1|[d Hs1]].
    { destruct (IH b c1 Hc1 Hd1 Hr1 Ho1 Hl) as [H1 H2]. split; [exact H1|]. cbn [length] in *. lia. }
    destruct (slides_sliding a b d c1 Hs1 Hd1) as (A1 & A2 & A3).
    destruct (tos_sliding (j :: L) c1 A1 A2 A3) as (L' & E & Hlen & Hll). rewrite E. cbn [on_slid set_field].
    rewrite Ho1. split; [|cbn [length app] in *; cbn; lia].
    right. split; [by apply Hll|]. right. by exists a, b, d.
Qed.

(** The timers that are left bring a carousel where it is headed. *)
Lemma timers_arrive k c :
  ok c -> disposed c = false -> headed c -> (length (on_slid c) <= k)%nat ->
  exists l, Forall is_timer l /\ rests z (run l c).
Proof.
  revert c. induction k as [k IH] using (well_founded_induction lt_wf). intros c Hc Hd Hh Hk.
  assert (forall c, ok c -> disposed c = false -> last (on_slid c) = Some iz -> (length (on_slid c) <= k)%nat ->
    (exists a, rests a c) -> exists l, Forall is_timer l /\ rests z (run l c)) as Hwait.
  { clear c Hc Hd Hh Hk. intros c Hc Hd Hl Hk [a Hr].
    destruct (ok_quiet c Hc Hd) as [Hs|Hs]; [by intros E; rewrite E in Hl|by destruct Hr as (_ & _ & _ & E); rewrite E in Hs|].
    destruct (slids c) as [|t ts] eqn:Et; [done|].
    set (c1 := tell (EvSlid (d_dir t) (d_from t) (d_to t)) (c <| slids := ts |>) <| on_slid := [] |>).
    assert (ok c1) as Hc1 by (destruct Hc; by split).
    destruct (tos_headed (on_slid c) a c1 Hc1 Hd Hr eq_refl Hl) as [Hh Hlt].
    destruct (ok_tos (on_slid c) c1 Hc1 Hd) as [Hc2 Hd2]. cbv zeta in *.
    set (c2 := fold_left _ _ c1) in *.
    destruct (IH (length (on_slid c2)) ltac:(lia) c2 Hc2 Hd2 Hh ltac:(lia)) as (l & Hl1 & Hl2).
    exists (SlidTimer :: l). split; [by constructor|]. cbn [run fold_left BsCarousel.act].
    unfold slid_timer. rewrite Et. cbv zeta. change (disposed (c <| slids := ts |>)) with (disposed c).
    rewrite Hd. exact Hl2. }
  destruct Hh as [[Ho [Hr|(a & d & Hs)]]|[Hl [Hr|(a & b & d & Hs)]]].
  - exists []. by split; [constructor|].
  - pose proof Hs as (m & _ & _ & _ & _ & Hw & _).
    destruct (end_timer_finish a z d m (Item a) c Hc Hs) as (e & He & E); [rewrite Hw; by constructor; constructor|].
    exists [EndTimer m]. split; [by repeat constructor|]. cbn. rewrite E. done.
  - by apply Hwait.
  - pose proof Hs as (m & _ & Hb & _ & _ & Hw & _).
    destruct (end_timer_finish a b d m (Item a) c Hc Hs) as (e & He & E); [rewrite Hw; by constructor; constructor|].
    destruct (Hwait (end_timer m c)) as (l & Hl1 & Hl2).
    + by apply carousel_ok_end_timer.
    + by rewrite E.
    + by rewrite E.
    + by rewrite E.
    + exists b. by rewrite E.
    + exists (EndTimer m :: l). split; [by constructor|]. exact Hl2.
Qed.
End arrival.

(** C21. On a page whose listeners prevent no event, a call of [to] on a carousel that is not
    disposed of is carried out in the end: made at rest or during a slide, with other calls
    waiting, the timers that are left bring the carousel to the item asked for, where it rests.
    *)
Theorem to_arrives a inds l z :
  (forall ev, allow ev = true) -> (a < n)%nat -> (z < n)%nat ->
  let c := run l (create (resting n a) inds) in
  disposed c = false -> (on_slid c = [] \/ isSliding c = true) ->
  exists l', Forall is_timer l' /\
    let c' := run l' (act (Call (ANumber (Z.of_nat z))) c) in
    active_item c' = Some z /\ isSliding c' = false /\ items_ c' = resting n z.
Proof.
  intros Hallow Ha Hz c Hd Hq. assert (ok c) as Hc by by apply carousel_ok_run, carousel_ok_create. clearbody c.
  enough (ok (act (Call (ANumber (Z.of_nat z))) c) /\ disposed (act (Call (ANumber (Z.of_nat z))) c) = false
    /\ headed z (act (Call (ANumber (Z.of_nat z))) c)) as (Hc1 & Hd1 & Hh).
  { destruct (timers_arrive Hallow z Hz _ _ Hc1 Hd1 Hh (le_n _)) as (l' & Hl & Hr). exists l'.
    split; [done|]. cbv zeta. split; [by apply rests_active|]. split; apply Hr. }
  cbn [BsCarousel.act jQueryInterface]. rewrite Hd.
  destruct (phase_cases c Hc Hd) as [[Hs [b Hr]]|[Hs [_ (b & b' & d & Hs')]]].
  - destruct Hq as [Ho|Hs2]; [|congruence].
    destruct (to_headed Hallow z Hz (INum (Z.of_nat z)) b c Hc Hd Hr) as (A & B & C & D & b2 & E & F).
    split_and!; [done..|]. left. rewrite C. split; [done|]. rewrite (E eq_refl) in F.
    destruct F as [?|[d ?]]; [by left|right; by exists b, d].
  - destruct (ok_to (INum (Z.of_nat z)) c Hc Hd). split_and!; [done..|].
    destruct (slides_sliding b b' d c Hs' Hd) as (A1 & A2 & A3).
    destruct (tos_sliding z Hz [INum (Z.of_nat z)] c A1 A2 A3) as (L' & E & Hlen & Hll).
    cbn [fold_left] in E. rewrite E. right. cbn. rewrite last_app, (Hll eq_refl). split; [done|].
    right. by exists b, b', d.
Qed.

(** ** Going round *)

(** [next], and the end of its transition. *)
Definition turn (c : carousel) : carousel :=
  let c' := act (Call (AMethod MNext)) c in
  match active_item c with Some a => act (TransitionEnd (Item a)) c' | None => c' end.

Lemma turn_rests a c :
  (forall ev, allow ev = true) -> ok c -> disposed c = false -> rests a c ->
  ok (turn c) /\ disposed (turn c) = false /\ rests (beside NEXT a) (turn c).
Proof.
  intros Hallow Hc Hd Hr. unfold turn. rewrite (rests_active a c Hr).
  cbn [BsCarousel.act jQueryInterface call_method]. rewrite Hd.
  pose proof Hr as (_ & _ & _ & Hs). unfold next. rewrite Hs.
  destruct (slide_spec NEXT None a c Hc Hd Hr) as [A B _ _ _ F]; [done|].
  set (c' := slide NEXT None c) in *. clearbody c'. cbn [default] in F. rewrite Hallow in F.
  destruct (decide (beside NEXT a = a)) as [E|E].
  - rewrite decide_False in F by tauto. by rewrite (transition_end_rests _ a c' F), E.
  - rewrite decide_True in F by done. destruct animated.
    + destruct (slide_finish a _ _ c' F) as (e & He & Eq). split; [by apply carousel_ok_transition_end|].
      rewrite Eq. split; [done|]. destruct F as (m & ? & ? & _). done.
    + by rewrite (transition_end_rests _ _ c' F).
Qed.

(** In a carousel that wraps, [next] goes through the items in order and round. *)
Theorem next_goes_round a inds k :
  (forall ev, allow ev = true) -> wrap o = true -> (a < n)%nat ->
  active_item (Nat.iter k turn (create (resting n a) inds)) = Some ((a + k) mod n)%nat.
Proof.
  intros Hallow Hw Ha.
  enough (forall c, c = Nat.iter k turn (create (resting n a) inds) ->
    ok c /\ disposed c = false /\ rests ((a + k) mod n) c) as H
    by (apply rests_active; by destruct (H _ eq_refl) as (_ & _ & ?)).
  induction k as [|k IH]; intros c ->.
  - split_and!; [by apply carousel_ok_create|done|]. rewrite Nat.add_0_r, Nat.mod_small by done. done.
  - cbn [Nat.iter nat_rect]. destruct (IH _ eq_refl) as (Hc & Hd & Hr).
    destruct (turn_rests _ _ Hallow Hc Hd Hr) as (H1 & H2 & H3). split_and!; [done..|].
    enough (beside NEXT ((a + k) mod n) = (a + S k) mod n)%nat as <- by done.
    unfold beside. rewrite Hw.
    pose proof (Nat.mod_upper_bound (a + k) n ltac:(lia)). pose proof (Nat.div_mod (a + k) n ltac:(lia)).
    destruct (decide _) as [E|E].
    + apply (Nat.mod_unique _ _ (S ((a + k) / n))); lia.
    + apply (Nat.mod_unique _ _ ((a + k) / n)); lia.
Qed.
End flow.

(** ** Runs

    The theorems of [BsCarouselFlow] at concrete inputs, and two runs in which the
    carousel does not do what its code is written for. *)


Definition plain : options := mk_options true true true true.
Definition yes : cevent -> bool := fun _ => true.

Abbreviation page := (run plain yes true true).
Abbreviation three := (create (resting 3 0) (Some [true; false; false])).

(** Two slides, a call that waits, the interval, a pause by the mouse. *)
Definition usage : list caction :=
  [Call (AOptions None true); Tick 0 true; Call (ANumber 0); EndTimer 0; MouseEnter; SlidTimer;
   Keydown false ArrowLeft].

Example carousel_consistent_witness :
  let c := page usage three in
  (exists a', (a' < 3)%nat /\ forall i it, items_ c !! i = Some it -> i_active it = bool_decide (i = a')) /\
  (length (alive c) <= 1)%nat /\
  (disposed c = false -> alive c = option_list (interval c) /\
    (isSliding c = true <-> waiting (c_ends c) <> [])).
Proof. apply (carousel_consistent plain yes true true 3). lia. Defined.

Example usage_run :
  let c := page usage three in
  isSliding c = true /\ told c = [EvSlide NEXT (Some 0) (Some 1); EvSlid NEXT 0 1;
    EvSlide PREV (Some 1) (Some 0)]%nat /\ alive c = [].
Proof. by vm_compute. Qed.

Example to_arrives_witness :
  let c := page [Call (ANumber 1); Call (ANumber 0)] three in
  exists l', Forall is_timer l' /\
    let c' := page l' (act plain yes true true (Call (ANumber 2)) c) in
    active_item c' = Some 2%nat /\ isSliding c' = false /\ items_ c' = resting 3 2.
Proof. apply (to_arrives plain yes true true 3 0 _ _ 2); try lia; [done|done|by right]. Defined.

Example next_goes_round_witness :
  active_item (Nat.iter 5 (turn plain yes true true) three) = Some 2%nat.
Proof. apply (next_goes_round plain yes true true 3 0 _ 5); [done|done|lia]. Defined.

(** [dispose] forgets the interval without clearing it: it fires for ever. *)
Example dispose_leaks :
  let c := page [Call (AOptions None true); Call (AMethod MDispose)] three in
  disposed c = true /\ alive c = [0%nat] /\ alive (page [Tick 0 true; Tick 0 true] c) = [0%nat].
Proof. by vm_compute. Qed.

(** [pause] means to end the slide under way, but sends the transition end to the
    carousel, while its item waits for it: the slide goes on. *)
Example pause_does_not_end :
  let c := page [Call (AMethod MNext)] three in
  let c' := page [Call (AMethod MPause)] c in
  in_motion c' = true /\ isSliding c' = true /\ items_ c' = items_ c.
Proof. by vm_compute. Qed.
