(* ===== verification/BsModal.v ===== *)
(** * Bootstrap: modal.js

    Models [Modal] of [2019104233/src/scripts/bluelog/bluelog/static/js/bootstrap.js]
    for one modal on its page: showing and hiding with the transitions of backdrop,
    dialog and element, the listeners that come and go with it, and what the page has
    to give way to (the scrollbar adjustments).  Lengths are whole pixels; what the
    browser measures is an argument; listeners of the page only allow or prevent. *)

From S2P Require Export BsUtil.

Module Modal.

Definition Default : config := list_to_map [
  ("backdrop", VBool true); ("keyboard", VBool true); ("focus", VBool true); ("show", VBool true)]%string.

Definition DefaultType : configTypes := [
  ("backdrop", ["boolean"; "string"]); ("keyboard", ["boolean"]);
  ("focus", ["boolean"]); ("show", ["boolean"])]%string.

(** [backdrop: false], a true value, or ['static']. *)
Inductive backdrop_option := NoBackdrop | Backdrop | StaticBackdrop.

Record options := mk_options { o_backdrop : backdrop_option; o_keyboard : bool; o_focus : bool }.

(** What the browser measures: whether the body overflows, the width of a scrollbar,
    whether the modal overflows. *)
Record sizes := mk_sizes { body_overflows : bool; scrollbar : Z; modal_overflows : bool }.

(** ** The page *)

(** An element the adjustments concern: the selectors it matches, the padding and
    margin its style sheets give it, its own ([None] is the empty text), and the
    values kept with [data]. *)
Record box := mk_box {
  fixed : bool; sticky : bool; toggler : bool; sheet_padding : Z; sheet_margin : Z;
  padding : option Z; margin : option Z;
  saved_padding : option (option Z); saved_margin : option (option Z);
}.
#[export] Instance box_eta : Settable box := fun b =>
  mk_box (fixed b) (sticky b) (toggler b) (sheet_padding b) (sheet_margin b) (padding b) (margin b)
    (saved_padding b) (saved_margin b).

Definition save_padding (w : Z) (b : box) : box :=
  b <| saved_padding := Some (padding b) |> <| padding := Some (default (sheet_padding b) (padding b) + w) |>.
Definition save_margin (w : Z) (b : box) : box :=
  b <| saved_margin := Some (margin b) |> <| margin := Some (default (sheet_margin b) (margin b) + w) |>.

Definition restore_padding (b : box) : box :=
  match saved_padding b with Some p => b <| padding := p |> <| saved_padding := None |> | None => b end.
Definition restore_margin (b : box) : box :=
  match saved_margin b with Some m => b <| margin := m |> <| saved_margin := None |> | None => b end.

(** [.sticky-top] is one of the selectors of [FIXED_CONTENT]. *)
Definition adjust_box (w : Z) (b : box) : box :=
  let b := if fixed b || sticky b then save_padding w b else b in
  let b := if sticky b then save_margin (- w) b else b in
  if toggler b then save_margin w b else b.

Definition reset_box (b : box) : box :=
  let b := if fixed b || sticky b then restore_padding b else b in
  if sticky b || toggler b then restore_margin b else b.

(** ** The modal *)

Inductive place := Element | Dialog | BackdropAt (id : nat).
#[global] Instance place_eq_dec : EqDecision place.
Proof. solve_decision. Defined.

(** What waits for a transition: the steps of showing and hiding.  [rel] is the control
    that asked for the modal. *)
Inductive step := ShowElement (rel : option nat) | Shown (rel : option nat) | HideModal | RemoveBackdrop.

Inductive mevent :=
  | EvShow (rel : option nat) | EvShown (rel : option nat) | EvHide | EvHidden
  | Focus | Refocus (rel : nat) | Thrown.

Record modal := mk_modal {
  isShown : bool; isTransitioning : bool; backdrop : option nat; ignoreBackdropClick : bool;
  isBodyOverflowing : bool; scrollbarWidth : Z;
  (* the element *)
  displayed : bool; show_class : bool; aria_hidden : bool;
  paddingLeft : option Z; paddingRight : option Z;
  (* the page *)
  body_open : bool; backdrops : list (nat * bool); boxes : list box; body : box;
  (* listeners *)
  on_keydown : nat; on_resize : nat; on_dismiss : nat; on_backdrop_click : nat;
  on_mousedown : nat; on_mouseup : nat; on_focusin : bool;
  on_show : list nat; on_hidden : list nat;
  m_ends : ends place step; ids : nat; disposed : bool; told : list mevent;
}.
#[export] Instance modal_eta : Settable modal := fun m =>
  mk_modal (isShown m) (isTransitioning m) (backdrop m) (ignoreBackdropClick m) (isBodyOverflowing m)
    (scrollbarWidth m) (displayed m) (show_class m) (aria_hidden m) (paddingLeft m) (paddingRight m)
    (body_open m) (backdrops m) (boxes m) (body m) (on_keydown m) (on_resize m) (on_dismiss m)
    (on_backdrop_click m) (on_mousedown m) (on_mouseup m) (on_focusin m) (on_show m) (on_hidden m)
    (m_ends m) (ids m) (disposed m) (told m).

(** The constructor, on a page with the elements [bs] and the body [b]. *)
Definition create (bs : list box) (b : box) : modal :=
  mk_modal false false None false false 0 false false true None None false [] bs b
    0 0 0 0 0 0 false [] [] no_ends 0 false [].

Definition tell (e : mevent) (m : modal) : modal := m <| told := told m ++ [e] |>.

Section modal.
Context (o : options) (allow : mevent -> bool).
(** [Util.supportsTransitionEnd()], and whether the element has the class [fade]. *)
Context (supports fade : bool).

Abbreviation animated := (supports && fade).

(** ** Adjustments *)

Definition adjustDialog (z : sizes) (m : modal) : modal :=
  let m := if negb (isBodyOverflowing m) && modal_overflows z
           then m <| paddingLeft := Some (scrollbarWidth m) |> else m in
  if isBodyOverflowing m && negb (modal_overflows z)
  then m <| paddingRight := Some (scrollbarWidth m) |> else m.

Definition resetAdjustments (m : modal) : modal := m <| paddingLeft := None |> <| paddingRight := None |>.

Definition checkScrollbar (z : sizes) (m : modal) : modal :=
  m <| isBodyOverflowing := body_overflows z |> <| scrollbarWidth := scrollbar z |>.

Definition setScrollbar (m : modal) : modal :=
  if isBodyOverflowing m then
    m <| boxes := adjust_box (scrollbarWidth m) <$> boxes m |>
      <| body := save_padding (scrollbarWidth m) (body m) |>
  else m.

Definition resetScrollbar (m : modal) : modal :=
  m <| boxes := reset_box <$> boxes m |> <| body := restore_padding (body m) |>.

(** ** Listeners *)

Definition setEscapeEvent (m : modal) : modal :=
  if isShown m && o_keyboard o then m <| on_keydown := S (on_keydown m) |>
  else if negb (isShown m) then m <| on_keydown := 0%nat |> else m.

Definition setResizeEvent (m : modal) : modal :=
  if isShown m then m <| on_resize := S (on_resize m) |> else m <| on_resize := 0%nat |>.

Definition enforceFocus (m : modal) : modal := m <| on_focusin := true |>.

(** The event [hidden] and the controls that wait for it. *)
Definition trigger_hidden (m : modal) : modal :=
  let waiting := on_hidden m in
  fold_left (fun m r => tell (Refocus r) m) waiting (tell EvHidden (m <| on_hidden := [] |>)).

(** ** Showing and hiding, step by step *)

(** [transitionComplete] of [_showElement]. *)
Definition shown_complete (rel : option nat) (m : modal) : modal :=
  let m := if o_focus o then tell Focus m else m in
  tell (EvShown rel) (m <| isTransitioning := false |>).

Definition showElement (rel : option nat) (m : modal) : modal :=
  let m := m <| displayed := true |> <| aria_hidden := false |> <| show_class := true |> in
  let m := if o_focus o then enforceFocus m else m in
  if animated then m <| m_ends := await Dialog (Shown rel) (m_ends m) |> else shown_complete rel m.

Definition removeBackdrop (m : modal) : modal :=
  match backdrop m with
  | Some id =>
      m <| backdrops := filter (fun p => p.1 <> id) (backdrops m) |> <| backdrop := None |>
        <| m_ends := drop_waits (BackdropAt id) (m_ends m) |>
  | None => m
  end.

(** The function [_hideModal] passes to [_showBackdrop]. *)
Definition hidden_callback (m : modal) : modal :=
  trigger_hidden (resetScrollbar (resetAdjustments (m <| body_open := false |>))).

(** [callbackRemove] of [_showBackdrop]. *)
Definition remove_complete (m : modal) : modal := hidden_callback (removeBackdrop m).

(** [_showBackdrop] when the modal is shown, then when it is hidden. *)
Definition showBackdrop (rel : option nat) (m : modal) : modal :=
  match o_backdrop o with
  | NoBackdrop => showElement rel m
  | _ =>
      let id := ids m in
      let m := m <| ids := S id |> <| backdrop := Some id |> <| backdrops := backdrops m ++ [(id, true)] |>
                 <| on_backdrop_click := S (on_backdrop_click m) |> in
      if animated then m <| m_ends := await (BackdropAt id) (ShowElement rel) (m_ends m) |>
      else showElement rel m
  end.

Definition hideBackdrop (m : modal) : modal :=
  match backdrop m with
  | Some id =>
      let m := m <| backdrops := (fun p => if decide (p.1 = id) then (id, false) else p) <$> backdrops m |> in
      if animated then m <| m_ends := await (BackdropAt id) RemoveBackdrop (m_ends m) |>
      else remove_complete m
  | None => hidden_callback m
  end.

Definition hideModal (m : modal) : modal :=
  hideBackdrop (m <| displayed := false |> <| aria_hidden := true |> <| isTransitioning := false |>).

(** The listeners of transition ends; after [dispose] there is no element left. *)
Definition run_step (s : step) (m : modal) : modal :=
  match s with
  | ShowElement rel => if disposed m then tell Thrown m else showElement rel m
  | Shown rel => if disposed m then tell Thrown m else shown_complete rel m
  | HideModal => if disposed m then tell Thrown m else hideModal m
  | RemoveBackdrop => if disposed m then tell Thrown (m <| body_open := false |>) else remove_complete m
  end.

#[export] Instance modal_host : ends_host place step modal := {
  the_ends := m_ends;
  put_ends e m := m <| m_ends := e |>;
  completed := run_step;
}.

(** The event [show]: the controls waiting for it wait for [hidden] if it is allowed. *)
Definition trigger_show (rel : option nat) (m : modal) : modal :=
  let waiting := on_show m in
  let m := tell (EvShow rel) (m <| on_show := [] |>) in
  if allow (EvShow rel) then m <| on_hidden := on_hidden m ++ waiting |> else m.

Definition show (z : sizes) (rel : option nat) (m : modal) : modal :=
  if isTransitioning m || isShown m then m
  else
    let m := if animated then m <| isTransitioning := true |> else m in
    let m := trigger_show rel m in
    if isShown m || negb (allow (EvShow rel)) then m
    else
      let m := m <| isShown := true |> in
      let m := adjustDialog z (setScrollbar (checkScrollbar z m)) in
      let m := m <| body_open := true |> in
      let m := setResizeEvent (setEscapeEvent m) in
      let m := m <| on_dismiss := S (on_dismiss m) |> <| on_mousedown := S (on_mousedown m) |> in
      showBackdrop rel m.

Definition hide (m : modal) : modal :=
  if isTransitioning m || negb (isShown m) then m
  else
    let m := tell EvHide m in
    if negb (isShown m) || negb (allow EvHide) then m
    else
      let m := m <| isShown := false |> in
      let m := if animated then m <| isTransitioning := true |> else m in
      let m := setResizeEvent (setEscapeEvent m) in
      let m := m <| on_focusin := false |> <| show_class := false |> <| on_dismiss := 0%nat |>
                 <| on_backdrop_click := 0%nat |> <| on_mousedown := 0%nat |> in
      if animated then m <| m_ends := await Element HideModal (m_ends m) |> else hideModal m.

Definition toggle (z : sizes) (rel : option nat) (m : modal) : modal :=
  if isShown m then hide m else show z rel m.

Definition handleUpdate (z : sizes) (m : modal) : modal := adjustDialog z m.

(** [$(window, document, ...)] is the window only: the other listeners stay, and so do
    the backdrop and the class of the body. *)
Definition dispose (m : modal) : modal :=
  m <| on_resize := 0%nat |> <| backdrop := None |> <| isShown := false |> <| isBodyOverflowing := false |>
    <| ignoreBackdropClick := false |> <| scrollbarWidth := 0 |> <| disposed := true |>.

(** ** Events *)

Inductive target := OnDismiss | Inside | OnElement.

(** A click in the element: controls with [data-dismiss], then the backdrop. *)
Definition click (t : target) (m : modal) : modal :=
  let clicks := on_backdrop_click m in
  let m := match t with OnDismiss => Nat.iter (on_dismiss m) hide m | _ => m end in
  Nat.iter clicks (fun m =>
    if ignoreBackdropClick m then m <| ignoreBackdropClick := false |>
    else match t with
         | OnElement => match o_backdrop o with StaticBackdrop => tell Focus m | _ => hide m end
         | _ => m
         end) m.

Definition keydown_escape (m : modal) : modal := Nat.iter (on_keydown m) hide m.

Definition mousedown_dialog (m : modal) : modal := m <| on_mouseup := (on_mouseup m + on_mousedown m)%nat |>.

(** [on_element]: the button is released over the element itself. *)
Definition mouseup (on_element : bool) (m : modal) : modal :=
  let m' := m <| on_mouseup := 0%nat |> in
  if on_element && (0 <? on_mouseup m)%nat then m' <| ignoreBackdropClick := true |> else m'.

Definition focusin (outside : bool) (m : modal) : modal :=
  if on_focusin m && outside then tell Focus m else m.

Definition resize (z : sizes) (m : modal) : modal := Nat.iter (on_resize m) (handleUpdate z) m.

Inductive method := MToggle | MShow | MHide | MDispose | MHandleUpdate | MUnknown.

(** [_jQueryInterface], with a method or with options, [show] among them. *)
Definition jQueryInterface (a : method + bool) (z : sizes) (rel : option nat) (m : modal) : modal :=
  match a with
  | inl MToggle => toggle z rel m
  | inl MShow => show z rel m
  | inl MHide => hide m
  | inl MDispose => dispose m
  | inl MHandleUpdate => handleUpdate z m
  | inl MUnknown => tell Thrown m
  | inr true => show z rel m
  | inr false => m
  end.

(** A click on the control [r]; [first] is the first use, when the modal is created. *)
Definition data_api_click (first : bool) (show_option : bool) (z : sizes) (r : nat) (m : modal) : modal :=
  let m := m <| on_show := on_show m ++ [r] |> in
  jQueryInterface (if first then inr show_option else inl MToggle) z (Some r) m.

Inductive maction :=
  | Call (a : method + bool) (z : sizes) (rel : option nat)
  | Control (first show_option : bool) (z : sizes) (r : nat)
  | Click (t : target) | Escape | MouseDown | MouseUp (on_element : bool) | FocusIn (outside : bool)
  | Resize (z : sizes) | TransitionEnd (p : place) | EndTimer (n : nat).

(** After [dispose] the page has no way to the modal but the listeners left on its
    elements, which find no element and no options. *)
Definition disposed_act (a : maction) (m : modal) : modal :=
  match a with
  | Click OnElement => Nat.iter (on_backdrop_click m) (tell Thrown) m
  | FocusIn _ => if on_focusin m then tell Thrown m else m
  | TransitionEnd p => transition_end p m
  | EndTimer n => end_timer n m
  | _ => m
  end.

Definition act (a : maction) (m : modal) : modal :=
  if disposed m then disposed_act a m
  else match a with
  | Call a z rel => jQueryInterface a z rel m
  | Control first b z r => data_api_click first b z r m
  | Click t => click t m
  | Escape => keydown_escape m
  | MouseDown => mousedown_dialog m
  | MouseUp b => mouseup b m
  | FocusIn b => focusin b m
  | Resize z => resize z m
  | TransitionEnd p => transition_end p m
  | EndTimer n => end_timer n m
  end.
End modal.
End Modal.
