(* ===== verification/BsModalFlow.v ===== *)
(** * Bootstrap: modal.js, its properties

    A modal that is used politely (not asked for again while its backdrop fades out,
    which [BsModalRun] shows to go wrong) gives everything back: whenever it is hidden
    and nothing is awaited, the page is as it was before.  Asked for, it is shown in the
    end, and sent away, it is hidden in the end. *)

From S2P Require Export BsEnds BsModal.
Import Modal.

Definition b2n (b : bool) : nat := if b then 1%nat else 0%nat.

(** ** Adjustments *)

(** An element nothing is kept for, whose margin is adjusted once at most. *)
Definition clean (b : box) : Prop :=
  saved_padding b = None /\ saved_margin b = None /\ sticky b && toggler b = false.

Lemma reset_adjust w b : clean b -> reset_box (adjust_box w b) = b.
Proof.
  intros (Hp & Hm & Hst). destruct b as [f s t sp sm p m spd smd]. cbn in *. subst.
  unfold adjust_box, reset_box. cbn. destruct f, s, t; try done.
Qed.

Lemma reset_clean b : clean b -> reset_box b = b.
Proof.
  intros (Hp & Hm & Hst). unfold reset_box, restore_padding, restore_margin. rewrite Hp.
  destruct (fixed b || sticky b), (sticky b || toggler b); by rewrite ?Hm.
Qed.

Lemma restore_save w b : saved_padding b = None -> restore_padding (save_padding w b) = b.
Proof. destruct b. cbn. by intros ->. Qed.

Lemma map_clean (f : box -> box) bs :
  Forall clean bs -> (forall b, clean b -> f b = b) -> f <$> bs = bs.
Proof. intros Hb Hf. induction Hb as [|b bs Hb _ IH]; [done|]. cbn. by rewrite Hf, IH. Qed.

#[export] Instance modal_laws o supports fade : ends_laws (H := modal_host o supports fade) place step modal.
Proof. split; [done|by intros []]. Qed.

(** ** The states of a modal *)

Section flow.
Context (o : options) (allow : mevent -> bool) (supports fade : bool).
Context (bs : list box) (b0 : box) (Hbs : Forall clean bs) (Hb0 : saved_padding b0 = None).
Abbreviation animated := (supports && fade).
Abbreviation act := (act o allow supports fade).
Abbreviation host := (modal_host o supports fade).

Definition has_backdrop : bool := match o_backdrop o with NoBackdrop => false | _ => true end.

(** The listeners come with the modal and go with it. *)
Record listeners_ok (m : modal) : Prop := {
  lo_keydown : on_keydown m = b2n (isShown m && o_keyboard o);
  lo_resize : on_resize m = b2n (isShown m);
  lo_dismiss : on_dismiss m = b2n (isShown m);
  lo_backdrop : on_backdrop_click m = b2n (isShown m && has_backdrop);
  lo_mousedown : on_mousedown m = b2n (isShown m);
  lo_focusin : isShown m = false -> on_focusin m = false;
}.

(** The page as it was. *)
Record restored (m : modal) : Prop := {
  re_boxes : boxes m = bs;
  re_body : body m = b0;
  re_open : body_open m = false;
  re_backdrops : backdrops m = [];
  re_backdrop : backdrop m = None;
  re_left : paddingLeft m = None;
  re_right : paddingRight m = None;
  re_element : displayed m = false /\ show_class m = false /\ aria_hidden m = true;
}.

(** The page with the modal, whose backdrop is there if it has one. *)
Record adjusted (m : modal) : Prop := {
  ad_boxes : boxes m = if isBodyOverflowing m then adjust_box (scrollbarWidth m) <$> bs else bs;
  ad_body : body m = if isBodyOverflowing m then save_padding (scrollbarWidth m) b0 else b0;
  ad_open : body_open m = true;
  ad_backdrop :
    if has_backdrop then exists id c, backdrop m = Some id /\ backdrops m = [(id, c)]
    else backdrop m = None /\ backdrops m = [];
}.

(** What is awaited: one step at most. *)
Definition awaits (p : place) (s : step) (m : modal) : Prop :=
  exists k, waiting (m_ends m) = [(p, Done s); (p, Mark k)] /\ k ∉ called (m_ends m).

Inductive phase (m : modal) : Prop :=
  | Closed : isShown m = false -> waiting (m_ends m) = [] -> restored m -> phase m
  | Opening rel id : isShown m = true -> isTransitioning m = true -> adjusted m -> backdrop m = Some id ->
      awaits (BackdropAt id) (ShowElement rel) m -> animated = true -> phase m
  | Entering rel : isShown m = true -> isTransitioning m = true -> adjusted m ->
      displayed m = true /\ show_class m = true /\ aria_hidden m = false ->
      awaits Dialog (Shown rel) m -> animated = true -> phase m
  | Open : isShown m = true -> isTransitioning m = false -> adjusted m ->
      displayed m = true /\ show_class m = true /\ aria_hidden m = false ->
      waiting (m_ends m) = [] -> phase m
  | Leaving : isShown m = false -> isTransitioning m = true -> adjusted m -> show_class m = false ->
      awaits Element HideModal m -> animated = true -> phase m
  | Fading id : isShown m = false -> isTransitioning m = false -> adjusted m -> backdrop m = Some id ->
      displayed m = false /\ show_class m = false /\ aria_hidden m = true ->
      awaits (BackdropAt id) RemoveBackdrop m -> animated = true -> phase m.

Record ok (m : modal) : Prop := {
  ok_phase : phase m;
  ok_ends : ends_ok (m_ends m);
  ok_listeners : listeners_ok m;
  ok_alive : disposed m = false;
}.

Lemma modal_ok_create : ok (create bs b0).
Proof. split; [by apply Closed|apply no_ends_ok|by split|done]. Qed.

(** ** The steps *)

Lemma trigger_hidden_spec m :
  trigger_hidden m = m <| on_hidden := [] |> <| told := told m ++ EvHidden :: (Refocus <$> on_hidden m) |>.
Proof.
  unfold trigger_hidden. cbv zeta. set (m1 := tell EvHidden _).
  assert (forall l m, fold_left (fun m r => tell (Refocus r) m) l m = m <| told := told m ++ (Refocus <$> l) |>) as E.
  { clear. induction l as [|r l IH]; intros m; cbn; [rewrite app_nil_r; by destruct m|].
    rewrite IH. cbn. by rewrite <- app_assoc. }
  rewrite E. unfold m1. cbn. by rewrite <- app_assoc.
Qed.

(** The callback of hiding restores the page, once the backdrop is gone. *)
Lemma hidden_callback_restores m :
  boxes m = (if isBodyOverflowing m then adjust_box (scrollbarWidth m) <$> bs else bs) ->
  body m = (if isBodyOverflowing m then save_padding (scrollbarWidth m) b0 else b0) ->
  backdrop m = None -> backdrops m = [] ->
  displayed m = false /\ show_class m = false /\ aria_hidden m = true ->
  restored (hidden_callback m).
Proof.
  intros E1 E2 E3 E4 E5. unfold hidden_callback. rewrite trigger_hidden_spec. split; try done; cbn.
  - rewrite E1. destruct (isBodyOverflowing m); [|apply map_clean; [done|apply reset_clean]].
    rewrite <- list_fmap_compose. apply map_clean; [done|]. intros b. apply reset_adjust.
  - rewrite E2. destruct (isBodyOverflowing m); [by apply restore_save|].
    unfold restore_padding. by rewrite Hb0.
Qed.

(** What the callback leaves alone. *)
Definition frame (m : modal) :=
  (isShown m, isTransitioning m, m_ends m, disposed m, backdrop m, backdrops m,
   (on_keydown m, on_resize m, on_dismiss m, on_backdrop_click m, on_mousedown m, on_focusin m)).

Lemma hidden_callback_frame m : frame (hidden_callback m) = frame m.
Proof. unfold hidden_callback. by rewrite trigger_hidden_spec. Qed.

Lemma frame_inv m m' : frame m = frame m' ->
  isShown m = isShown m' /\ isTransitioning m = isTransitioning m' /\ m_ends m = m_ends m' /\
  disposed m = disposed m'.
Proof. unfold frame. by intros [= -> -> -> -> _ _ _ _ _ _ _ _]. Qed.

Lemma listeners_frame m m' : frame m' = frame m -> listeners_ok m -> listeners_ok m'.
Proof. unfold frame. intros [= E1 _ _ _ _ _ E2 E3 E4 E5 E6 E7] []. split; by rewrite ?E1, ?E2, ?E3, ?E4, ?E5, ?E6, ?E7. Qed.

Lemma filter_one (id : nat) c : filter (fun p : nat * bool => p.1 <> id) [(id, c)] = [].
Proof. rewrite filter_cons, decide_False; [done|]. cbn. tauto. Qed.

Lemma remove_complete_spec id c m :
  boxes m = (if isBodyOverflowing m then adjust_box (scrollbarWidth m) <$> bs else bs) ->
  body m = (if isBodyOverflowing m then save_padding (scrollbarWidth m) b0 else b0) ->
  backdrop m = Some id -> backdrops m = [(id, c)] ->
  displayed m = false /\ show_class m = false /\ aria_hidden m = true ->
  restored (remove_complete m) /\ frame (remove_complete m)
    = frame (m <| backdrops := [] |> <| backdrop := None |> <| m_ends := drop_waits (BackdropAt id) (m_ends m) |>).
Proof.
  intros E1 E2 E3 E4 E5. unfold remove_complete, removeBackdrop. rewrite E3, E4, filter_one.
  split; [by apply hidden_callback_restores|apply hidden_callback_frame].
Qed.

(** A wait on a fresh mark, when an older one has just been called. *)
Lemma awaits_await p s m e k :
  waiting e = [] -> fresh e ∉ called e -> k <> fresh e ->
  m_ends m = await p s e <| called := k :: called e |> -> awaits p s m.
Proof. intros Hw Hf Hk E. exists (fresh e). rewrite E. cbn. rewrite Hw. set_solver. Qed.

(** Nothing but the ends changes. *)
Lemma restored_ends m e : restored m -> restored (m <| m_ends := e |>).
Proof. by intros []; split. Qed.

Lemma adjusted_ends m e : adjusted m -> adjusted (m <| m_ends := e |>).
Proof. by intros []; split. Qed.

Lemma listeners_ends m e : listeners_ok m -> listeners_ok (m <| m_ends := e |>).
Proof. by intros []; split. Qed.

Lemma drop_none (p : place) (e : ends place step) : waiting e = [] -> drop_waits p e = e.
Proof. intros Hw. unfold drop_waits. rewrite Hw. destruct e. cbn in *. by subst. Qed.

Lemma listeners_backdrops m l : listeners_ok m -> listeners_ok (m <| backdrops := l |>).
Proof. by intros []; split. Qed.

Lemma listeners_backdrop m id : listeners_ok m -> listeners_ok (m <| backdrop := id |>).
Proof. by intros []; split. Qed.

(** [_hideModal]: done at once, or the backdrop fades out. *)
Record left_behind (m r : modal) : Prop := {
  lb_shown : isShown r = false;
  lb_transitioning : isTransitioning r = false;
  lb_listeners : listeners_ok r;
  lb_disposed : disposed r = disposed m;
  lb_page :
    (restored r /\ m_ends r = m_ends m) \/
    (animated = true /\ adjusted r /\ (displayed r = false /\ show_class r = false /\ aria_hidden r = true) /\
     exists id, backdrop r = Some id /\ m_ends r = await (BackdropAt id) RemoveBackdrop (m_ends m));
}.

(** From the frame of the state after the callback. *)
Lemma left_behind_frame m m1 r :
  frame r = frame m1 -> isShown m1 = false -> isTransitioning m1 = false -> listeners_ok m1 ->
  disposed m1 = disposed m -> m_ends m1 = m_ends m -> restored r -> left_behind m r.
Proof.
  intros F H1 H2 H3 H4 H5 R. pose proof (listeners_frame m1 r F H3) as Hl.
  destruct (frame_inv _ _ F) as (F1 & F2 & F3 & F4).
  split; [congruence|congruence|done|congruence|]. left. split; [done|congruence].
Qed.

Definition hidden_element (m : modal) : modal :=
  m <| displayed := false |> <| aria_hidden := true |> <| isTransitioning := false |>.

Lemma hidden_element_listeners m : listeners_ok m -> listeners_ok (hidden_element m).
Proof. by intros []; split. Qed.

Lemma hideModal_none m :
  isShown m = false -> adjusted m -> show_class m = false -> listeners_ok m -> has_backdrop = false ->
  left_behind m (hideModal supports fade m).
Proof.
  intros Hs [A1 A2 A3 A4] Hc Hl Eb. rewrite Eb in A4. destruct A4 as [E1 E2].
  unfold hideModal, hideBackdrop. fold (hidden_element m).
  change (backdrop (hidden_element m)) with (backdrop m). rewrite E1.
  apply (left_behind_frame m (hidden_element m)); [apply hidden_callback_frame|done|done| |done|done|].
  - by apply hidden_element_listeners.
  - by apply hidden_callback_restores.
Qed.

Definition fading_backdrop (id : nat) (m : modal) : modal := hidden_element m <| backdrops := [(id, false)] |>.

Lemma hideModal_some m id c :
  backdrop m = Some id -> backdrops m = [(id, c)] ->
  hideModal supports fade m =
    if animated then fading_backdrop id m <| m_ends := await (BackdropAt id) RemoveBackdrop (m_ends m) |>
    else remove_complete (fading_backdrop id m).
Proof.
  intros E1 E2. unfold hideModal, hideBackdrop. fold (hidden_element m).
  change (backdrop (hidden_element m)) with (backdrop m).
  change (backdrops (hidden_element m)) with (backdrops m). rewrite E1, E2. cbn [fmap list_fmap fst].
  by rewrite decide_True.
Qed.

Lemma fading_backdrop_left id m :
  isShown m = false -> adjusted m -> show_class m = false -> listeners_ok m -> has_backdrop = true ->
  backdrop m = Some id -> animated = true ->
  left_behind m (fading_backdrop id m <| m_ends := await (BackdropAt id) RemoveBackdrop (m_ends m) |>).
Proof.
  intros Hs [A1 A2 A3 A4] Hc Hl Eb E1 Ea. split; [done|done| |done|].
  - by apply listeners_ends, listeners_backdrops, hidden_element_listeners.
  - right. split; [done|]. split; [|split; [done|by exists id]].
    apply adjusted_ends. split; [done..|]. rewrite Eb. by exists id, false.
Qed.

Lemma remove_complete_left id m :
  isShown m = false -> adjusted m -> show_class m = false -> listeners_ok m ->
  waiting (m_ends m) = [] -> backdrop m = Some id -> left_behind m (remove_complete (fading_backdrop id m)).
Proof.
  intros Hs [A1 A2 A3 A4] Hc Hl Hw E1.
  destruct (remove_complete_spec id false (fading_backdrop id m)) as [R F]; [done..|].
  eapply left_behind_frame; [exact F|done|done| |done| |exact R].
  - by apply listeners_ends, listeners_backdrop, listeners_backdrops, listeners_backdrops,
      hidden_element_listeners.
  - by apply (drop_none (BackdropAt id) (m_ends m)).
Qed.

Lemma hideModal_spec m :
  isShown m = false -> adjusted m -> show_class m = false -> listeners_ok m -> waiting (m_ends m) = [] ->
  left_behind m (hideModal supports fade m).
Proof.
  intros Hs Ha Hc Hl Hw. destruct has_backdrop eqn:Eb; [|by apply hideModal_none].
  pose proof (ad_backdrop m Ha) as A4. rewrite Eb in A4. destruct A4 as (id & c & E1 & E2).
  rewrite (hideModal_some m id c E1 E2). destruct animated eqn:Ea.
  - by apply fading_backdrop_left.
  - by apply remove_complete_left.
Qed.

(** [_showElement]: shown at once, or the dialog comes in. *)
Lemma showElement_spec rel m :
  isShown m = true -> isTransitioning m = animated -> adjusted m -> listeners_ok m ->
  let r := showElement o supports fade rel m in
  isShown r = true /\ isTransitioning r = animated /\ listeners_ok r /\ disposed r = disposed m /\ adjusted r /\
  (displayed r = true /\ show_class r = true /\ aria_hidden r = false) /\
  m_ends r = if animated then await Dialog (Shown rel) (m_ends m) else m_ends m.
Proof.
  intros Hs Ht [A1 A2 A3 A4] [L1 L2 L3 L4 L5 L6]. unfold showElement, shown_complete, enforceFocus.
  destruct (o_focus o), animated; cbn; (split_and!; try done);
    split; try done; cbn; by rewrite Hs.
Qed.

(** A step awaits another one at most. *)
Lemma remove_complete_ends m : waiting (m_ends m) = [] -> m_ends (remove_complete m) = m_ends m.
Proof.
  intros Hw. unfold remove_complete. pose proof (hidden_callback_frame (removeBackdrop m)) as F.
  destruct (frame_inv _ _ F) as (_ & _ & F3 & _). rewrite F3. unfold removeBackdrop.
  destruct (backdrop m); [|done]. by apply drop_none.
Qed.

Lemma run_step_ends s m :
  waiting (m_ends m) = [] ->
  m_ends (run_step o supports fade s m) = m_ends m \/
  exists p s', m_ends (run_step o supports fade s m) = await p s' (m_ends m).
Proof.
  intros Hw. unfold run_step. destruct s; destruct (disposed m); try (by left).
  - unfold showElement, shown_complete, enforceFocus. destruct (o_focus o), animated; cbn; eauto.
  - left. unfold shown_complete. by destruct (o_focus o).
  - unfold hideModal, hideBackdrop. cbv zeta. destruct (backdrop _).
    + destruct animated; [right; by do 2 eexists|].
      left. etransitivity; [apply remove_complete_ends; exact Hw|done].
    + left. set (m1 := _ <| isTransitioning := false |>). pose proof (hidden_callback_frame m1) as F.
      destruct (frame_inv _ _ F) as (_ & _ & F3 & _). by rewrite F3.
  - left. by apply remove_complete_ends.
Qed.

Lemma steps_careful p k s : careful (H := host) p k s.
Proof.
  intros m X Hw Hm. cbn in *. destruct (run_step_ends s m Hw) as [->|(p' & s' & ->)]; [done|].
  by apply (await_ok (H := host)).
Qed.

(** *** The end of what is awaited *)

(** A step has run and its mark is called. *)
Definition finished (k : nat) (r : modal) : modal :=
  r <| m_ends := m_ends r <| called := k :: called (m_ends r) |> |>.

Lemma finished_awaits k r p s e :
  m_ends r = await p s e -> waiting e = [] -> fresh e ∉ called e -> k <> fresh e -> awaits p s (finished k r).
Proof.
  intros E Hw Hf Hk. exists (fresh e). unfold finished. cbn. rewrite E. cbn. rewrite Hw. split; [done|set_solver].
Qed.

Lemma left_behind_phase k m r :
  left_behind m r -> waiting (m_ends m) = [] -> fresh (m_ends m) ∉ called (m_ends m) ->
  k <> fresh (m_ends m) -> phase (finished k r).
Proof.
  intros [A B C D [[R E]|(Ha & Ad & El & id & Eb & E)]] Hw Hf Hk.
  - apply Closed; [done|cbn; by rewrite E|by apply restored_ends].
  - apply (Fading _ id); [done|done|by apply adjusted_ends|done|done| |done].
    by apply (finished_awaits k r _ _ (m_ends m)).
Qed.

(** The state after a step, its mark called. *)
Record settled (k : nat) (r : modal) : Prop := {
  se_phase : phase (finished k r);
  se_listeners : listeners_ok r;
  se_disposed : disposed r = false;
}.

Lemma show_settles k rel m :
  isShown m = true -> isTransitioning m = true -> adjusted m -> listeners_ok m -> animated = true ->
  disposed m = false -> waiting (m_ends m) = [] -> fresh (m_ends m) ∉ called (m_ends m) -> k <> fresh (m_ends m) ->
  settled k (showElement o supports fade rel m).
Proof.
  intros Hs Ht Ad Hl Ea Hd Hw Hf Hk.
  destruct (showElement_spec rel m) as (A & B & C & D & E & F & G); [done|by rewrite Ea|done|done|].
  set (r := showElement _ _ _ _ m) in *. clearbody r. rewrite Ea in B, G. split; [|done|congruence].
  apply (Entering _ rel); [done|done|by apply adjusted_ends|done| |done].
  by apply (finished_awaits k r _ _ (m_ends m)).
Qed.

Lemma adjusted_focus m : adjusted m -> adjusted (tell Focus m).
Proof. by intros []; split. Qed.

Lemma shown_complete_fields rel m :
  let r := shown_complete o rel m in
  isShown r = isShown m /\ isTransitioning r = false /\ m_ends r = m_ends m /\ disposed r = disposed m /\
  displayed r = displayed m /\ show_class r = show_class m /\ aria_hidden r = aria_hidden m /\
  (adjusted m -> adjusted r) /\ (listeners_ok m -> listeners_ok r).
Proof.
  unfold shown_complete. destruct (o_focus o); cbn; (split_and!; try done); by intros []; split.
Qed.

Lemma shown_settles k rel m :
  isShown m = true -> adjusted m -> listeners_ok m -> disposed m = false -> waiting (m_ends m) = [] ->
  displayed m = true /\ show_class m = true /\ aria_hidden m = false ->
  settled k (shown_complete o rel m).
Proof.
  intros Hs Ad Hl Hd Hw El. destruct (shown_complete_fields rel m) as (A & B & C & D & E & F & G & H & I).
  set (r := shown_complete _ _ m) in *. clearbody r. split; [|by apply I|congruence].
  apply Open; [by cbn; rewrite A|done|by apply adjusted_ends, H| |by cbn; rewrite C].
  cbn. by rewrite E, F, G.
Qed.

Lemma hide_settles k m :
  isShown m = false -> adjusted m -> show_class m = false -> listeners_ok m -> disposed m = false ->
  waiting (m_ends m) = [] -> fresh (m_ends m) ∉ called (m_ends m) -> k <> fresh (m_ends m) ->
  settled k (hideModal supports fade m).
Proof.
  intros Hs Ad Hc Hl Hd Hw Hf Hk. pose proof (hideModal_spec m Hs Ad Hc Hl Hw) as Hb.
  set (r := hideModal _ _ m) in *. clearbody r.
  pose proof (left_behind_phase k m r Hb Hw Hf Hk). destruct Hb as [_ _ C D _].
  split; [done|done|congruence].
Qed.

Definition without_backdrop (id : nat) (m : modal) : modal :=
  m <| backdrops := [] |> <| backdrop := None |> <| m_ends := drop_waits (BackdropAt id) (m_ends m) |>.

Lemma without_backdrop_listeners id m : listeners_ok m -> listeners_ok (without_backdrop id m).
Proof. intros Hl. by apply listeners_ends, listeners_backdrop, listeners_backdrops. Qed.

Lemma without_backdrop_ends id m : waiting (m_ends m) = [] -> m_ends (without_backdrop id m) = m_ends m.
Proof. apply drop_none. Qed.

(** A restored page is at rest. *)
Lemma restored_settles k r :
  restored r -> listeners_ok r -> isShown r = false -> disposed r = false -> waiting (m_ends r) = [] ->
  settled k r.
Proof. intros. split; [|done|done]. by apply Closed; [| |apply restored_ends]. Qed.

Lemma frame_settles k m r :
  restored r -> frame r = frame m -> listeners_ok m -> isShown m = false -> disposed m = false ->
  waiting (m_ends m) = [] -> settled k r.
Proof.
  intros R F Hl Hs Hd Hw. destruct (frame_inv _ _ F) as (F1 & F2 & F3 & F4).
  apply restored_settles; [done|by eapply listeners_frame|congruence|congruence|congruence].
Qed.

Lemma remove_settles k id m :
  isShown m = false -> adjusted m -> listeners_ok m -> disposed m = false -> waiting (m_ends m) = [] ->
  backdrop m = Some id -> displayed m = false /\ show_class m = false /\ aria_hidden m = true ->
  settled k (remove_complete m).
Proof.
  intros Hs [A1 A2 A3 A4] Hl Hd Hw Eb El. destruct has_backdrop; [|destruct A4; congruence].
  destruct A4 as (id' & c & E1 & E2). replace id' with id in * by congruence.
  destruct (remove_complete_spec id c m A1 A2 E1 E2 El) as [R F].
  apply (frame_settles k (without_backdrop id m) _ R F); [by apply without_backdrop_listeners|done|done|].
  by rewrite without_backdrop_ends.
Qed.

Lemma step_settles p s k m e :
  ok m -> awaits p s m -> waiting e = [] -> fresh e ∉ called e -> k <> fresh e ->
  settled k (run_step o supports fade s (m <| m_ends := e |>)).
Proof.
  intros [Hp He Hl Hd] (k0 & Hw0 & _) Hw Hf Hk.
  pose proof (listeners_ends m e Hl) as Hl0. pose proof (adjusted_ends m e) as Had.
  assert (disposed (m <| m_ends := e |>) = false) as Hd0 by done.
  destruct Hp as [Hs Ew R|rel id Hs Ht Ad Eb (k1 & Ew & _) Ea|rel Hs Ht Ad El (k1 & Ew & _) Ea|Hs Ht Ad El Ew
    |Hs Ht Ad Ec (k1 & Ew & _) Ea|id Hs Ht Ad Eb El (k1 & Ew & _) Ea];
    rewrite Ew in Hw0; try done; injection Hw0 as <- <- _; unfold run_step; rewrite Hd0;
    specialize (Had Ad).
  - by apply show_settles.
  - by apply shown_settles.
  - by apply hide_settles.
  - by apply (remove_settles k id).
Qed.

(** *** Showing *)

(** A change of fields the invariant does not read. *)
Ltac same_phase :=
  intros [P E L D]; split; [|done|by destruct L; split|done];
  destruct P as [A B R|rel id A B Ad C W Ea|rel A B Ad C W Ea|A B Ad C W|A B Ad C W Ea|id A B Ad C C' W Ea];
  [apply Closed|apply (Opening _ rel id)|apply (Entering _ rel)|apply Open|apply Leaving|apply (Fading _ id)];
  try done; solve [by destruct R; split | by destruct Ad; split].

Lemma modal_ok_tell ev m : ok m -> ok (tell ev m).
Proof. same_phase. Qed.

Lemma ok_ignore b m : ok m -> ok (m <| ignoreBackdropClick := b |>).
Proof. same_phase. Qed.

Lemma ok_mouseup k m : ok m -> ok (m <| on_mouseup := k |>).
Proof. same_phase. Qed.

Lemma ok_on_show l m : ok m -> ok (m <| on_show := l |>).
Proof. same_phase. Qed.

Lemma ok_awaited m : ok m -> waiting (m_ends m) = [] -> fresh (m_ends m) ∉ called (m_ends m).
Proof. intros Hm _ Hin%(eo_called _ _ _ (ok_ends m Hm)). lia. Qed.

Lemma await_awaits p s m e : ends_ok e -> waiting e = [] -> m_ends m = await p s e -> awaits p s m.
Proof.
  intros He Hw E. exists (fresh e). rewrite E. cbn. rewrite Hw. split; [done|].
  intros Hin%(eo_called _ _ _ He). lia.
Qed.

Lemma await_ends p s (e : ends place step) : ends_ok e -> ends_ok (await p s e).
Proof. apply (await_ok (H := host)). Qed.

(** The modal just before its backdrop. *)
Record prepared (m : modal) : Prop := {
  pr_shown : isShown m = true;
  pr_transitioning : isTransitioning m = animated;
  pr_boxes : boxes m = if isBodyOverflowing m then adjust_box (scrollbarWidth m) <$> bs else bs;
  pr_body : body m = if isBodyOverflowing m then save_padding (scrollbarWidth m) b0 else b0;
  pr_open : body_open m = true;
  pr_backdrop : backdrop m = None;
  pr_backdrops : backdrops m = [];
  pr_listeners : on_keydown m = b2n (o_keyboard o) /\ on_resize m = 1%nat /\ on_dismiss m = 1%nat /\
    on_backdrop_click m = 0%nat /\ on_mousedown m = 1%nat;
  pr_waiting : waiting (m_ends m) = [];
  pr_ends : ends_ok (m_ends m);
  pr_disposed : disposed m = false;
}.

(** Shown at once. *)
Lemma shown_ok rel m :
  isShown m = true -> isTransitioning m = animated -> adjusted m -> listeners_ok m -> disposed m = false ->
  waiting (m_ends m) = [] -> ends_ok (m_ends m) -> ok (showElement o supports fade rel m).
Proof.
  intros Hs Ht Ad Hl Hd Hw He. destruct (showElement_spec rel m Hs Ht Ad Hl) as (A & B & C & D & E & F & G).
  set (r := showElement _ _ _ _ m) in *. clearbody r. destruct animated eqn:Ea.
  - split; [|by rewrite G; apply await_ends|done|congruence].
    apply (Entering r rel); [done|done|done|done| |done]. by apply (await_awaits _ _ r (m_ends m)).
  - split; [|by rewrite G|done|congruence]. apply Open; [done|done|done|done|congruence].
Qed.

Definition with_backdrop (m : modal) : modal :=
  m <| ids := S (ids m) |> <| backdrop := Some (ids m) |> <| backdrops := backdrops m ++ [(ids m, true)] |>
    <| on_backdrop_click := S (on_backdrop_click m) |>.

Lemma with_backdrop_ok m :
  prepared m -> has_backdrop = true -> adjusted (with_backdrop m) /\ listeners_ok (with_backdrop m).
Proof.
  intros [A B C D E F G (H1 & H2 & H3 & H4 & H5) I J K] Eb. split.
  - split; try done. rewrite Eb. exists (ids m), true. split; [done|]. cbn. by rewrite G.
  - split; cbn; rewrite ?A, ?Eb, ?H4; done.
Qed.

Lemma showBackdrop_ok rel m : prepared m -> ok (showBackdrop o supports fade rel m).
Proof.
  intros Hm. pose proof Hm as [A B C D E F G H I J K].
  assert (has_backdrop = true ->
    ok (if animated then with_backdrop m <| m_ends := await (BackdropAt (ids m)) (ShowElement rel) (m_ends m) |>
        else showElement o supports fade rel (with_backdrop m))) as Hb.
  { intros Eb. destruct (with_backdrop_ok m Hm Eb) as [Ad Hl]. destruct animated eqn:Ea.
    - split; [|by apply await_ends|by apply listeners_ends|done].
      apply (Opening _ rel (ids m)); [done|done|by apply adjusted_ends|done| |done].
      by apply (await_awaits _ _ _ (m_ends m)).
    - apply shown_ok; try done. by rewrite Ea. }
  unfold showBackdrop. unfold has_backdrop in Hb. destruct (o_backdrop o) eqn:Eo; [|by apply Hb..].
  assert (has_backdrop = false) as Eb by (unfold has_backdrop; by rewrite Eo).
  destruct H as (H1 & H2 & H3 & H4 & H5).
  apply shown_ok; try done; [split; try done; by rewrite Eb|split; rewrite ?A, ?Eb; done].
Qed.

Lemma adjustDialog_fields z m :
  let r := adjustDialog z m in
  exists l r', r = m <| paddingLeft := l |> <| paddingRight := r' |>.
Proof.
  unfold adjustDialog. cbv zeta. destruct (negb (isBodyOverflowing m) && modal_overflows z) eqn:E.
  - assert (isBodyOverflowing m = false) as Eo by by destruct (isBodyOverflowing m).
    cbn. rewrite Eo. cbn. exists (Some (scrollbarWidth m)), (paddingRight m). by destruct m.
  - destruct (isBodyOverflowing m && negb _); [exists (paddingLeft m), (Some (scrollbarWidth m))
      |exists (paddingLeft m), (paddingRight m)]; by destruct m.
Qed.

(** The part of [show] between its event and its backdrop. *)
Definition show_start (z : sizes) (m : modal) : modal :=
  let m := m <| isShown := true |> in
  let m := adjustDialog z (setScrollbar (checkScrollbar z m)) in
  let m := m <| body_open := true |> in
  let m := setResizeEvent (setEscapeEvent o m) in
  m <| on_dismiss := S (on_dismiss m) |> <| on_mousedown := S (on_mousedown m) |>.

Definition asked (rel : option nat) (m : modal) : modal :=
  trigger_show allow rel (if animated then m <| isTransitioning := true |> else m).

Lemma show_unfold z rel m :
  isTransitioning m = false -> isShown m = false ->
  show o allow supports fade z rel m =
    if allow (EvShow rel) then showBackdrop o supports fade rel (show_start z (asked rel m)) else asked rel m.
Proof.
  intros Ht Hs. unfold show. rewrite Ht, Hs. cbn [orb]. cbv zeta. fold (asked rel m).
  assert (isShown (asked rel m) = false) as ->
    by (unfold asked, trigger_show; destruct animated, (allow _); exact Hs).
  by destruct (allow _).
Qed.

Record at_rest (m : modal) : Prop := {
  ar_shown : isShown m = false;
  ar_waiting : waiting (m_ends m) = [];
  ar_restored : restored m;
  ar_ends : ends_ok (m_ends m);
  ar_listeners : listeners_ok m;
  ar_disposed : disposed m = false;
}.

Lemma at_rest_ok m : at_rest m -> ok m.
Proof. intros [A B C D E F]. split; [by apply Closed|done..]. Qed.

Lemma asked_rest rel m :
  at_rest m -> isTransitioning m = false -> at_rest (asked rel m) /\ isTransitioning (asked rel m) = animated.
Proof.
  intros [A B C D E F] Ht. unfold asked, trigger_show.
  destruct animated, (allow _); (split; [|done]); (split; try done; [by destruct C; split|by destruct E; split]).
Qed.

Lemma setScrollbar_fields m :
  setScrollbar m = m
    <| boxes := if isBodyOverflowing m then adjust_box (scrollbarWidth m) <$> boxes m else boxes m |>
    <| body := if isBodyOverflowing m then save_padding (scrollbarWidth m) (body m) else body m |>.
Proof. unfold setScrollbar. destruct (isBodyOverflowing m); [done|by destruct m]. Qed.

Lemma show_start_prepared z m :
  at_rest m -> isTransitioning m = animated -> prepared (show_start z m).
Proof.
  intros [A B [C1 C2 C3 C4 C5 C6 C7 C8] D [E1 E2 E3 E4 E5 E6] F] Ht. unfold show_start. cbv zeta.
  rewrite setScrollbar_fields. set (m1 := checkScrollbar z _).
  destruct (adjustDialog_fields z (m1
    <| boxes := if isBodyOverflowing m1 then adjust_box (scrollbarWidth m1) <$> boxes m1 else boxes m1 |>
    <| body := if isBodyOverflowing m1 then save_padding (scrollbarWidth m1) (body m1) else body m1 |>))
    as (l & r & ->).
  rewrite A in E1, E2, E3, E4, E5. cbn in E1, E2, E3, E4, E5.
  unfold setResizeEvent, setEscapeEvent. cbn. destruct (o_keyboard o) eqn:Ek; split; cbn; try done;
    rewrite ?C1, ?C2, ?E1, ?E2, ?E3, ?E4, ?E5, ?Ek; done.
Qed.

Lemma ok_rest m : ok m -> isShown m = false -> waiting (m_ends m) = [] -> at_rest m.
Proof.
  intros [P E L D] Hs Hw. split; try done.
  destruct P as [A B R|rel id A B Ad C W Ea|rel A B Ad C W Ea|A B Ad C W|A B Ad C (k & W & _) Ea|id A B Ad C C' (k & W & _) Ea];
    try congruence; done.
Qed.

(** Not shown and not asked to show, or nothing is awaited: the states a [show] may meet. *)
Definition fading (m : modal) : Prop := exists p, (p, Done RemoveBackdrop) ∈ waiting (m_ends m).

Lemma modal_ok_show z rel m : ok m -> ~ fading m -> ok (show o allow supports fade z rel m).
Proof.
  intros Hm Hf. destruct (isTransitioning m) eqn:Ht; [unfold show; by rewrite Ht|].
  destruct (isShown m) eqn:Hs; [unfold show; by rewrite Ht, Hs|].
  assert (waiting (m_ends m) = []) as Hw.
  { destruct (ok_phase m Hm) as [A B R|rel' id A B Ad C W Ea|rel' A B Ad C W Ea|A B Ad C W|A B Ad C W Ea
      |id A B Ad C C' (k & W & _) Ea]; try congruence; try done.
    destruct Hf. exists (BackdropAt id). rewrite W. by constructor. }
  pose proof (ok_rest m Hm Hs Hw) as Hr. rewrite show_unfold by done.
  destruct (asked_rest rel m Hr Ht) as [Ha Hta]. destruct (allow _); [|by apply at_rest_ok].
  by apply showBackdrop_ok, show_start_prepared.
Qed.

(** *** Hiding *)

Definition hide_start (m : modal) : modal :=
  let m := m <| isShown := false |> in
  let m := if animated then m <| isTransitioning := true |> else m in
  let m := setResizeEvent (setEscapeEvent o m) in
  m <| on_focusin := false |> <| show_class := false |> <| on_dismiss := 0%nat |>
    <| on_backdrop_click := 0%nat |> <| on_mousedown := 0%nat |>.

Lemma hide_unfold m :
  isTransitioning m = false -> isShown m = true ->
  hide o allow supports fade m =
    if allow EvHide then
      let m := hide_start (tell EvHide m) in
      if animated then m <| m_ends := await Element HideModal (m_ends m) |> else hideModal supports fade m
    else tell EvHide m.
Proof.
  intros Ht Hs. unfold hide. rewrite Ht, Hs. cbn [orb negb]. cbv zeta.
  change (isShown (tell EvHide m)) with (isShown m). rewrite Hs. cbn [orb negb]. by destruct (allow EvHide).
Qed.

Lemma hide_start_fields m :
  adjusted m -> let r := hide_start m in
  isShown r = false /\ isTransitioning r = (if animated then true else isTransitioning m) /\ adjusted r /\
  show_class r = false /\ listeners_ok r /\ m_ends r = m_ends m /\ disposed r = disposed m.
Proof.
  intros [A B C D]. unfold hide_start, setResizeEvent, setEscapeEvent.
  destruct animated; cbn; (split_and!; try done; by split).
Qed.

Lemma hiding_ok r :
  isShown r = false -> (animated = true -> isTransitioning r = true) -> adjusted r -> show_class r = false ->
  listeners_ok r -> ends_ok (m_ends r) -> waiting (m_ends r) = [] -> disposed r = false ->
  ok (if animated then r <| m_ends := await Element HideModal (m_ends r) |> else hideModal supports fade r).
Proof.
  intros A B C D E He Hw G. destruct animated eqn:Ea.
  - split; [|by apply await_ends|by apply listeners_ends|done].
    apply Leaving; [done|by apply B|by apply adjusted_ends|done| |done]. by apply (await_awaits _ _ _ (m_ends r)).
  - destruct (hideModal_spec r A C D E Hw) as [A' B' C' D' [[R E']|(Ea' & _)]]; [|congruence].
    split; [by apply Closed; [| congruence|]|by rewrite E'|done|congruence].
Qed.

Lemma tell_adjusted ev m : adjusted m -> adjusted (tell ev m).
Proof. by intros []; split. Qed.

Lemma ok_shown_adjusted m :
  ok m -> isShown m = true -> isTransitioning m = false -> adjusted m /\ waiting (m_ends m) = [].
Proof.
  intros Hm Hs Ht.
  destruct (ok_phase m Hm) as [A B R|rel id A B Ad C W Ea|rel A B Ad C W Ea|A B Ad C W|A B Ad C W Ea|id A B Ad C C' W Ea];
    try congruence. done.
Qed.

Lemma modal_ok_hide m : ok m -> ok (hide o allow supports fade m).
Proof.
  intros Hm. destruct (isTransitioning m) eqn:Ht; [unfold hide; by rewrite Ht|].
  destruct (isShown m) eqn:Hs; [|unfold hide; by rewrite Ht, Hs].
  rewrite hide_unfold by done. destruct (allow EvHide); [|by apply modal_ok_tell].
  destruct (ok_shown_adjusted m Hm Hs Ht) as [Ad Hw].
  destruct (hide_start_fields (tell EvHide m)) as (A & B & C & D & E & F & G); [by apply tell_adjusted|].
  cbv zeta. apply hiding_ok; [done| |done|done|done| | |].
  - intros Ea. by rewrite B, Ea.
  - rewrite F. exact (ok_ends m Hm).
  - rewrite F. exact Hw.
  - rewrite G. exact (ok_alive m Hm).
Qed.

(** *** Ends of transitions *)

(** What is awaited, if anything. *)
Lemma ok_awaits m : ok m ->
  waiting (m_ends m) = [] \/ exists p s, awaits p s m.
Proof.
  intros Hm.
  destruct (ok_phase m Hm) as [A B R|rel id A B Ad C W Ea|rel A B Ad C W Ea|A B Ad C W|A B Ad C W Ea|id A B Ad C C' W Ea];
    eauto.
Qed.

(** The end of what is awaited, when its timer may just have gone. *)
Lemma end_settles p s k m e :
  ok m -> waiting (m_ends m) = [(p, Done s); (p, Mark k)] -> k ∉ called (m_ends m) ->
  waiting e = waiting (m_ends m) -> called e = called (m_ends m) -> fresh e = fresh (m_ends m) ->
  transition_end (H := host) p (m <| m_ends := e |>)
    = finished k (run_step o supports fade s (m <| m_ends := e <| waiting := [] |> |>)) /\
  settled k (run_step o supports fade s (m <| m_ends := e <| waiting := [] |> |>)).
Proof.
  intros Hm Hw Hk E1 E2 E3. split.
  - rewrite (transition_end_await (H := host) p s k); [done|]. cbn. by rewrite E1.
  - apply (step_settles p); [done|by exists k|done| |]; cbn; rewrite ?E2, E3.
    + intros Hin%(eo_called _ _ _ (ok_ends m Hm)). lia.
    + destruct (eo_marks _ _ _ (ok_ends m Hm) k p) as [Hlt _]; [|lia].
      rewrite app_nil_r, Hw. by constructor; constructor.
Qed.

Lemma settled_ok k r : settled k r -> ends_ok (m_ends (finished k r)) -> ok (finished k r).
Proof. intros [A B C] He. split; [done|done|by apply listeners_ends|done]. Qed.

Lemma transition_end_still p m : waiting (m_ends m) = [] -> transition_end (H := host) p m = m.
Proof.
  intros Hw. apply (transition_end_other (H := host)). cbn. rewrite Hw. by intros ? ?%elem_of_nil.
Qed.

Lemma m_ends_same m : m <| m_ends := m_ends m |> = m.
Proof. by destruct m. Qed.

Lemma modal_ok_transition_end p m : ok m -> ok (transition_end (H := host) p m).
Proof.
  intros Hm. destruct (ok_awaits m Hm) as [Hw|(p' & s & k & Hw & Hk)]; [by rewrite transition_end_still|].
  destruct (decide (p = p')) as [<-|Hp].
  - pose proof (transition_end_careful (H := host) p s k m (steps_careful p k s) (ok_ends m Hm) Hw) as He.
    destruct (end_settles p s k m (m_ends m) Hm Hw Hk eq_refl eq_refl eq_refl) as [E Hse].
    rewrite m_ends_same in E. rewrite E in He |- *. by apply settled_ok.
  - rewrite (transition_end_other (H := host)); [done|]. cbn. rewrite Hw. intros q.
    rewrite !elem_of_cons. intros [->|[->|?%elem_of_nil]]; cbn; congruence.
Qed.

Lemma ok_ends_only m e :
  ok m -> ends_ok e -> waiting e = waiting (m_ends m) -> called e = called (m_ends m) -> ok (m <| m_ends := e |>).
Proof.
  intros [P E L D] He Hw Hc. split; [|done|by apply listeners_ends|done].
  assert (forall p s, awaits p s m -> awaits p s (m <| m_ends := e |>)) as Haw.
  { intros p s (k & W & Hk). exists k. cbn. by rewrite Hw, Hc. }
  destruct P as [A B R|rel id A B Ad C W Ea|rel A B Ad C W Ea|A B Ad C W|A B Ad C W Ea|id A B Ad C C' W Ea].
  - apply Closed; [done|cbn; congruence|by apply restored_ends].
  - apply (Opening _ rel id); try done; [by apply adjusted_ends|by apply Haw].
  - apply (Entering _ rel); try done; [by apply adjusted_ends|by apply Haw].
  - apply Open; try done; [by apply adjusted_ends|cbn; congruence].
  - apply Leaving; try done; [by apply adjusted_ends|by apply Haw].
  - apply (Fading _ id); try done; [by apply adjusted_ends|by apply Haw].
Qed.

(** The timer of the mark awaited. *)
Lemma end_timer_settles p s k m :
  ok m -> waiting (m_ends m) = [(p, Done s); (p, Mark k)] -> k ∉ called (m_ends m) ->
  exists e, waiting e = [] /\ called e = called (m_ends m) /\ fresh e = fresh (m_ends m) /\
    end_timer (H := host) k m = finished k (run_step o supports fade s (m <| m_ends := e |>)) /\
    settled k (run_step o supports fade s (m <| m_ends := e |>)).
Proof.
  intros Hm Hw Hk. rewrite (end_timer_live (H := host) p k m (ok_ends m Hm)); [| |done].
  2: { cbn. rewrite Hw. by constructor; constructor. }
  set (e := _ <| timers := _ |>). exists (e <| waiting := [] |>). split; [done|]. split; [done|]. split; [done|].
  by apply end_settles.
Qed.

Lemma modal_ok_end_timer k m : ok m -> ok (end_timer (H := host) k m).
Proof.
  intros Hm. destruct (list_find (fun p => p.1 = k) (timers (m_ends m))) as [[i [k' p]]|] eqn:Ef.
  2: { unfold end_timer. cbn [the_ends modal_host]. by rewrite Ef. }
  pose proof Ef as (Ei & Em & _)%list_find_Some. cbn in Em. subst k'.
  destruct (decide (k ∈ called (m_ends m))) as [Hk|Hk].
  - assert (ends_ok (m_ends (end_timer (H := host) k m))) as He.
    { apply (end_timer_ok_called (H := host) k m (ok_ends m Hm) Hk). }
    revert He. unfold end_timer. cbn [the_ends put_ends modal_host]. rewrite Ef, decide_True by done.
    intros He. by apply ok_ends_only.
  - pose proof (eo_live _ _ _ (ok_ends m Hm) k p (list_elem_of_lookup_2 _ _ _ Ei) Hk) as Hin.
    rewrite app_nil_r in Hin. destruct (ok_awaits m Hm) as [Hw|(p' & s & k' & Hw & Hk')].
    { rewrite Hw in Hin. by apply elem_of_nil in Hin. }
    pose proof Hin as Hin'. rewrite Hw, !elem_of_cons in Hin'.
    destruct Hin' as [[=]|[[= -> ->]|?%elem_of_nil]]; [|done].
    pose proof (end_timer_careful (H := host) p' s k' m (steps_careful p' k' s) (ok_ends m Hm) Hw Hk) as He.
    destruct (end_timer_settles p' s k' m Hm Hw Hk) as (e & _ & _ & _ & E & Hse).
    cbn in He. rewrite E in He |- *. by apply settled_ok.
Qed.

(** ** Polite use *)

(** What a page may do: not ask for the modal while its backdrop fades out, not adjust
    it while it is hidden, not dispose of it. *)
Definition polite (a : maction) (m : modal) : Prop :=
  match a with
  | Call (inl MDispose) _ _ => False
  | Call (inl MHandleUpdate) _ _ => isShown m = true
  | Call (inl MHide) _ _ | Call (inl MUnknown) _ _ | Call (inr false) _ _ => True
  | Call _ _ _ | Control _ _ _ _ => ~ fading m
  | _ => True
  end.

Inductive reachable : modal -> Prop :=
  | reach_new : reachable (create bs b0)
  | reach_act m a : reachable m -> polite a m -> reachable (act a m).

Lemma ok_adjust z m : ok m -> isShown m = true -> ok (adjustDialog z m) /\ isShown (adjustDialog z m) = true.
Proof.
  intros Hm Hs. destruct (adjustDialog_fields z m) as (l & r & ->). split; [|done]. revert Hm.
  intros [P E L D]. split; [|done|by destruct L; split|done].
  destruct P as [A B R|rel id A B Ad C W Ea|rel A B Ad C W Ea|A B Ad C W|A B Ad C W Ea|id A B Ad C C' W Ea];
    try congruence;
    [apply (Opening _ rel id)|apply (Entering _ rel)|apply Open]; try done; by destruct Ad; split.
Qed.

Lemma ok_iter k f m : ok m -> (forall m, ok m -> ok (f m)) -> ok (Nat.iter k f m).
Proof. intros Hm Hf. induction k as [|k IH]; [done|by apply Hf]. Qed.

Lemma modal_ok_toggle z rel m : ok m -> ~ fading m -> ok (toggle o allow supports fade z rel m).
Proof. intros Hm Hf. unfold toggle. destruct (isShown m); [by apply modal_ok_hide|by apply modal_ok_show]. Qed.

Lemma ok_click t m : ok m -> ok (click o allow supports fade t m).
Proof.
  intros Hm. unfold click. cbv zeta. apply ok_iter.
  - destruct t; [apply ok_iter; [done|apply modal_ok_hide]|done|done].
  - intros m1 H1. destruct (ignoreBackdropClick m1); [by apply ok_ignore|].
    destruct t; [done|done|]. destruct (o_backdrop o); [by apply modal_ok_hide|by apply modal_ok_hide|by apply modal_ok_tell].
Qed.

Lemma ok_resize z m : ok m -> ok (resize z m).
Proof.
  intros Hm. unfold resize. rewrite (lo_resize _ (ok_listeners m Hm)).
  destruct (isShown m) eqn:Hs; [|done]. by apply ok_adjust.
Qed.

Lemma modal_ok_act a m : ok m -> polite a m -> ok (act a m).
Proof.
  intros Hm Ha. unfold Modal.act. rewrite (ok_alive m Hm). destruct a; cbn [polite] in Ha.
  - destruct a as [[]|[]]; cbn [jQueryInterface].
    + by apply modal_ok_toggle.
    + by apply modal_ok_show.
    + by apply modal_ok_hide.
    + done.
    + by apply ok_adjust.
    + by apply modal_ok_tell.
    + by apply modal_ok_show.
    + done.
  - unfold data_api_click. cbv zeta. pose proof (ok_on_show (on_show m ++ [r]) m Hm) as H1.
    destruct first; cbn [jQueryInterface]; [destruct show_option; [by apply modal_ok_show|done]|by apply modal_ok_toggle].
  - by apply ok_click.
  - unfold keydown_escape. by apply ok_iter; [|apply modal_ok_hide].
  - by apply ok_mouseup.
  - unfold mouseup. cbv zeta. destruct (_ && _); [by apply ok_ignore, ok_mouseup|by apply ok_mouseup].
  - unfold focusin. destruct (_ && _); [by apply modal_ok_tell|done].
  - by apply ok_resize.
  - by apply modal_ok_transition_end.
  - by apply modal_ok_end_timer.
Qed.

Lemma reachable_ok m : reachable m -> ok m.
Proof. induction 1 as [|m a _ IH Ha]; [apply modal_ok_create|by apply modal_ok_act]. Qed.

(** C1.  A modal used politely gives back what it took: whenever it is hidden and
    nothing is awaited, paddings, margins, the body, the backdrops and the element are
    as before it was ever shown, and none of its listeners is left; while it is shown
    each of them is there once. *)
Theorem modal_gives_back m :
  reachable m ->
  (isShown m = false -> waiting (m_ends m) = [] -> restored m /\
    (on_keydown m, on_resize m, on_dismiss m, on_backdrop_click m, on_mousedown m, on_focusin m)
      = (0, 0, 0, 0, 0, false)%nat) /\
  (isShown m = true -> adjusted m /\
    (on_keydown m, on_resize m, on_dismiss m, on_backdrop_click m, on_mousedown m)
      = (b2n (o_keyboard o), 1, 1, b2n has_backdrop, 1)%nat).
Proof.
  intros Hm%reachable_ok. pose proof (ok_listeners m Hm) as [L1 L2 L3 L4 L5 L6]. split.
  - intros Hs Hw. split; [apply (ok_rest m Hm Hs Hw)|]. rewrite L1, L2, L3, L4, L5, L6, Hs by done. done.
  - intros Hs. split; [|rewrite L1, L2, L3, L4, L5, Hs; done].
    destruct (ok_phase m Hm) as [A B R|rel id A B Ad C W Ea|rel A B Ad C W Ea|A B Ad C W|A B Ad C W Ea|id A B Ad C C' W Ea];
      congruence || done.
Qed.

(** ** Shown and hidden in the end *)

Definition timers_run (ks : list nat) (m : modal) : modal := fold_left (fun m k => act (EndTimer k) m) ks m.

Definition goodbye (m : modal) : list mevent := EvHidden :: (Refocus <$> on_hidden m).

Lemma hidden_callback_told m : told (hidden_callback m) = told m ++ goodbye m.
Proof. unfold hidden_callback. by rewrite trigger_hidden_spec. Qed.

Lemma remove_complete_told m : told (remove_complete m) = told m ++ goodbye m.
Proof.
  unfold remove_complete. rewrite hidden_callback_told. unfold removeBackdrop. by destruct (backdrop m).
Qed.

Lemma hideModal_told m :
  waiting (m_ends m) = [] ->
  (told (hideModal supports fade m) = told m ++ goodbye m /\ waiting (m_ends (hideModal supports fade m)) = []) \/
  (told (hideModal supports fade m) = told m /\ on_hidden (hideModal supports fade m) = on_hidden m /\
   waiting (m_ends (hideModal supports fade m)) <> []).
Proof.
  intros Hw. unfold hideModal, hideBackdrop. fold (hidden_element m).
  change (backdrop (hidden_element m)) with (backdrop m). destruct (backdrop m) as [id|].
  - cbv zeta. destruct animated.
    + right. split; [done|]. split; [done|]. cbn. by rewrite Hw.
    + left. split; [by rewrite remove_complete_told|]. by rewrite remove_complete_ends.
  - left. split; [by rewrite hidden_callback_told|].
    by destruct (frame_inv _ _ (hidden_callback_frame (hidden_element m))) as (_ & _ & -> & _).
Qed.

(** Hidden and told so. *)
Definition gone (m r : modal) : Prop := at_rest r /\ told r = told m ++ goodbye m.

Lemma end_timer_act k m : ok m -> act (EndTimer k) m = end_timer (H := host) k m.
Proof. intros Hm. unfold Modal.act. by rewrite (ok_alive m Hm). Qed.

(** From the state [r] a step has left. *)
Lemma finished_gone k m r :
  ok (finished k r) -> isShown r = false -> waiting (m_ends r) = [] -> told r = told m ++ goodbye m ->
  gone m (finished k r).
Proof. intros Hr Hs Hw Ht. split; [by apply ok_rest|done]. Qed.

(** The step awaited runs when its timer elapses. *)
Lemma timer_step p s k m :
  ok m -> waiting (m_ends m) = [(p, Done s); (p, Mark k)] -> k ∉ called (m_ends m) ->
  exists e, waiting e = [] /\
    act (EndTimer k) m = finished k (run_step o supports fade s (m <| m_ends := e |>)) /\
    ok (finished k (run_step o supports fade s (m <| m_ends := e |>))).
Proof.
  intros Hm Hw Hk. pose proof (modal_ok_end_timer k m Hm) as Hr. rewrite end_timer_act by done.
  destruct (end_timer_settles p s k m Hm Hw Hk) as (e & He & _ & _ & E & _). exists e.
  rewrite E in Hr. done.
Qed.

Lemma remove_complete_shown m : isShown (remove_complete m) = isShown m.
Proof.
  unfold remove_complete. destruct (frame_inv _ _ (hidden_callback_frame (removeBackdrop m))) as (-> & _).
  unfold removeBackdrop. by destruct (backdrop m).
Qed.

Lemma goodbye_ends m e : told (m <| m_ends := e |>) ++ goodbye (m <| m_ends := e |>) = told m ++ goodbye m.
Proof. done. Qed.

Lemma run_step_alive s m e :
  disposed m = false -> run_step o supports fade s (m <| m_ends := e |>) =
    match s with
    | ShowElement rel => showElement o supports fade rel (m <| m_ends := e |>)
    | Shown rel => shown_complete o rel (m <| m_ends := e |>)
    | HideModal => hideModal supports fade (m <| m_ends := e |>)
    | RemoveBackdrop => remove_complete (m <| m_ends := e |>)
    end.
Proof. intros Hd. unfold run_step. change (disposed (m <| m_ends := e |>)) with (disposed m). by rewrite Hd; destruct s. Qed.

Lemma fading_gone m p :
  ok m -> isShown m = false -> awaits p RemoveBackdrop m -> exists k, gone m (act (EndTimer k) m).
Proof.
  intros Hm Hs (k & Hw & Hk). exists k. destruct (timer_step _ _ k m Hm Hw Hk) as (e & He & E & Hr).
  rewrite E. rewrite run_step_alive in Hr |- * by by apply (ok_alive m).
  apply finished_gone; [done|by rewrite remove_complete_shown|by rewrite remove_complete_ends|].
  by rewrite remove_complete_told, goodbye_ends.
Qed.

Lemma gone_of m m' r : told m' = told m -> on_hidden m' = on_hidden m -> gone m' r -> gone m r.
Proof. intros H1 H2 [A B]. split; [done|]. unfold goodbye in *. by rewrite B, H1, H2. Qed.

Lemma leaving_gone m :
  ok m -> isShown m = false -> awaits Element HideModal m -> show_class m = false -> adjusted m ->
  exists ks, gone m (timers_run ks m).
Proof.
  intros Hm Hs (k & Hw & Hk) Hc Ad. destruct (timer_step _ _ k m Hm Hw Hk) as (e & He & E & Hr).
  rewrite run_step_alive in E, Hr by by apply (ok_alive m). pose proof (ok_listeners m Hm) as Hl.
  pose proof (adjusted_ends m e Ad) as Ad1. pose proof (listeners_ends m e Hl) as Hl1.
  pose proof (goodbye_ends m e) as Hg. set (m1 := m <| m_ends := e |>) in *.
  pose proof (hideModal_spec m1 Hs Ad1 Hc Hl1 He) as Hb.
  pose proof (hideModal_told m1 He) as Ht. rewrite Hg in Ht.
  change (told m1) with (told m) in Ht. change (on_hidden m1) with (on_hidden m) in Ht.
  set (r := hideModal _ _ m1) in *. clearbody r. pose proof (lb_shown _ _ Hb) as Hsr.
  destruct Ht as [[Ht Hwr]|(Ht & Ho & Hne)].
  - exists [k]. cbn [timers_run fold_left]. rewrite E. by apply finished_gone.
  - assert (exists p, awaits p RemoveBackdrop (finished k r)) as [p Hp].
    { destruct (ok_phase _ Hr) as [A B R|rel id A B Ad' C W Ea|rel A B Ad' C W Ea|A B Ad' C W|A B Ad' C W Ea
        |id A B Ad' C C' W Ea]; try (cbn in A; congruence); [done| |by eexists].
      cbn in B. pose proof (lb_transitioning _ _ Hb). congruence. }
    destruct (fading_gone (finished k r) p Hr Hsr Hp) as [k' Hgone]. exists [k; k'].
    cbn [timers_run fold_left]. rewrite E. by apply (gone_of m (finished k r)).
Qed.

Lemma goodbye_tell ev m r : told r = told (tell ev m) ++ goodbye (tell ev m) -> told r = told m ++ ev :: goodbye m.
Proof. intros ->. unfold tell. cbn. by rewrite <- app_assoc. Qed.

Lemma hiding_gone r :
  isShown r = false -> (animated = true -> isTransitioning r = true) -> adjusted r -> show_class r = false ->
  listeners_ok r -> ends_ok (m_ends r) -> waiting (m_ends r) = [] -> disposed r = false ->
  exists ks, gone r (timers_run ks
    (if animated then r <| m_ends := await Element HideModal (m_ends r) |> else hideModal supports fade r)).
Proof.
  intros A B C D E He Hw G. pose proof (hiding_ok r A B C D E He Hw G) as Hok. destruct animated eqn:Ea.
  - set (m := r <| m_ends := await Element HideModal (m_ends r) |>) in *.
    destruct (leaving_gone m) as [ks Hks]; [done|done|by apply (await_awaits _ _ _ (m_ends r))|done
      |by apply adjusted_ends|].
    exists ks. by apply (gone_of r m).
  - exists []. cbn [timers_run fold_left].
    destruct (hideModal_told r Hw) as [[Ht' Hw']|(_ & _ & Hne)].
    + split; [|exact Ht']. apply ok_rest; [done|apply (hideModal_spec r); done|done].
    + destruct (hideModal_spec r A C D E Hw) as [_ _ _ _ [[_ E']|(Ea' & _)]]; [|congruence]. by rewrite E' in Hne.
Qed.

Lemma hide_start_told m : told (hide_start m) = told m /\ on_hidden (hide_start m) = on_hidden m.
Proof. unfold hide_start, setResizeEvent, setEscapeEvent. by destruct animated. Qed.

Lemma gone_hide m : ok m -> isShown m = true -> isTransitioning m = false -> allow EvHide = true ->
  exists ks, gone (tell EvHide m) (timers_run ks (hide o allow supports fade m)).
Proof.
  intros Hm Hs Ht Hal. rewrite hide_unfold, Hal by done. cbv zeta.
  destruct (ok_shown_adjusted m Hm Hs Ht) as [Ad Hw].
  destruct (hide_start_fields (tell EvHide m)) as (A & B & C & D & E & F & G); [by apply tell_adjusted|].
  destruct (hide_start_told (tell EvHide m)) as [T1 T2].
  destruct (hiding_gone (hide_start (tell EvHide m)) A) as [ks Hks]; try done.
  - intros Ea. by rewrite B, Ea.
  - rewrite F. exact (ok_ends m Hm).
  - rewrite F. exact Hw.
  - rewrite G. exact (ok_alive m Hm).
  - exists ks. by apply (gone_of _ _ _ T1 T2).
Qed.

(** C17.  A modal that is asked to hide, and may, is hidden in the end: when the timers of
    its transitions have elapsed the page is restored, and exactly [hide] and [hidden]
    were told, followed by the focus returning to the controls that asked for it. *)
Theorem hide_completes m z rel :
  reachable m -> isShown m = true -> isTransitioning m = false -> allow EvHide = true ->
  exists ks, let r := timers_run ks (act (Call (inl MHide) z rel) m) in
    isShown r = false /\ waiting (m_ends r) = [] /\ restored r /\
    told r = told m ++ EvHide :: EvHidden :: (Refocus <$> on_hidden m).
Proof.
  intros Hm%reachable_ok Hs Ht Hal. unfold Modal.act. rewrite (ok_alive m Hm). cbn [jQueryInterface].
  destruct (gone_hide m Hm Hs Ht Hal) as [ks [R T]]. exists ks. cbv zeta.
  split; [apply R|]. split; [apply R|]. split; [apply R|]. by apply goodbye_tell.
Qed.

(** *** Showing *)

Lemma entering_shown m rel :
  ok m -> isShown m = true -> displayed m = true -> awaits Dialog (Shown rel) m ->
  exists k, let r := act (EndTimer k) m in
    ok r /\ isShown r = true /\ isTransitioning r = false /\ displayed r = true /\ waiting (m_ends r) = [] /\
    told r = told m ++ (if o_focus o then [Focus] else []) ++ [EvShown rel].
Proof.
  intros Hm Hs Hd (k & Hw & Hk). exists k. destruct (timer_step _ _ k m Hm Hw Hk) as (e & He & E & Hr).
  rewrite run_step_alive in E, Hr by by apply (ok_alive m). rewrite E. cbv zeta.
  set (m1 := m <| m_ends := e |>) in *.
  destruct (shown_complete_fields rel m1) as (A & B & C & D & F & _).
  assert (told (shown_complete o rel m1) = told m ++ (if o_focus o then [Focus] else []) ++ [EvShown rel]) as Ht.
  { unfold shown_complete. destruct (o_focus o); cbn; by rewrite <- ?app_assoc. }
  set (r := shown_complete o rel m1) in *. clearbody r.
  split; [exact Hr|]. split; [exact (eq_trans A Hs)|]. split; [exact B|]. split; [exact (eq_trans F Hd)|].
  split; [|exact Ht]. change (waiting (m_ends r) = []). rewrite C. exact He.
Qed.

Lemma opening_shown m id rel :
  ok m -> isShown m = true -> isTransitioning m = true -> adjusted m -> awaits (BackdropAt id) (ShowElement rel) m ->
  animated = true -> exists k, let r := act (EndTimer k) m in
    ok r /\ isShown r = true /\ displayed r = true /\ awaits Dialog (Shown rel) r /\ told r = told m.
Proof.
  intros Hm Hs Ht Ad (k & Hw & Hk) Ea. exists k. destruct (timer_step _ _ k m Hm Hw Hk) as (e & He & E & Hr).
  rewrite run_step_alive in E, Hr by by apply (ok_alive m). rewrite E. cbv zeta.
  pose proof (adjusted_ends m e Ad) as Ad1. pose proof (listeners_ends m e (ok_listeners m Hm)) as Hl1.
  set (m1 := m <| m_ends := e |>) in *.
  assert (isTransitioning m1 = animated) as Ht1 by (rewrite Ea; exact Ht).
  destruct (showElement_spec rel m1 Hs Ht1 Ad1 Hl1) as (A & B & C & D & F & (G1 & G2 & G3) & H).
  assert (told (showElement o supports fade rel m1) = told m) as T.
  { unfold showElement. rewrite Ea. by destruct (o_focus o). }
  set (r := showElement _ _ _ rel m1) in *. clearbody r. rewrite Ea in H.
  split; [exact Hr|]. split; [exact A|]. split; [exact G1|]. split; [|exact T].
  destruct (ok_phase _ Hr) as [A' B' R|rel' id' A' B' Ad' C' W Ea'|rel' A' B' Ad' C' W Ea'|A' B' Ad' C' W|A' B' Ad' C' W Ea'
    |id' A' B' Ad' C' C'' W Ea']; try (cbn in A'; congruence).
  - destruct W as (k' & W & _). cbn in W. rewrite H in W. cbn in W. by rewrite He in W.
  - destruct W as (k' & W & Hk'). pose proof W as W'. cbn in W. rewrite H in W. cbn in W. rewrite He in W.
    injection W as <- _. by exists k'.
  - cbn in W. rewrite H in W. cbn in W. by rewrite He in W.
Qed.

Lemma show_start_told z m : told (show_start z m) = told m.
Proof.
  unfold show_start. cbv zeta. rewrite setScrollbar_fields.
  match goal with |- context [adjustDialog z ?m1] => destruct (adjustDialog_fields z m1) as (l & r & ->) end.
  unfold setResizeEvent, setEscapeEvent. cbn. by destruct (o_keyboard o).
Qed.

(** Shown, with what was told. *)
Definition arrived (rel : option nat) (m r : modal) : Prop :=
  ok r /\ isShown r = true /\ isTransitioning r = false /\ displayed r = true /\ waiting (m_ends r) = [] /\
  told r = told m ++ (if o_focus o then [Focus] else []) ++ [EvShown rel].

(** [_showElement] from a state that has its backdrop, or needs none. *)
Lemma showElement_arrives rel m :
  isShown m = true -> isTransitioning m = animated -> adjusted m -> listeners_ok m -> disposed m = false ->
  waiting (m_ends m) = [] -> ends_ok (m_ends m) ->
  exists ks, arrived rel m (timers_run ks (showElement o supports fade rel m)).
Proof.
  intros Hs Ht Ad Hl Hd Hw He. pose proof (shown_ok rel m Hs Ht Ad Hl Hd Hw He) as Hok.
  destruct (showElement_spec rel m Hs Ht Ad Hl) as (A & B & C & D & F & (G1 & G2 & G3) & H).
  destruct animated eqn:Ea.
  - assert (told (showElement o supports fade rel m) = told m) as T
      by (unfold showElement; rewrite Ea; by destruct (o_focus o)).
    set (r := showElement _ _ _ rel m) in *. clearbody r.
    destruct (entering_shown r rel Hok A G1) as [k Hk]; [by apply (await_awaits _ _ r (m_ends m))|].
    exists [k]. unfold arrived. rewrite <- T. exact Hk.
  - assert (told (showElement o supports fade rel m)
      = told m ++ (if o_focus o then [Focus] else []) ++ [EvShown rel]) as T.
    { unfold showElement, shown_complete. rewrite Ea. destruct (o_focus o); cbn; by rewrite <- ?app_assoc. }
    set (r := showElement _ _ _ rel m) in *. clearbody r. exists []. cbn [timers_run fold_left].
    split; [done|]. split; [done|]. split; [done|]. split; [done|]. split; [by rewrite H|done].
Qed.

Lemma arrived_of rel m m' r : told m' = told m -> arrived rel m' r -> arrived rel m r.
Proof. unfold arrived. by intros ->. Qed.

Lemma showBackdrop_arrives rel m : prepared m -> exists ks, arrived rel m (timers_run ks (showBackdrop o supports fade rel m)).
Proof.
  intros Hm. pose proof Hm as [A B C D E F G (H1 & H2 & H3 & H4 & H5) I J K].
  pose proof (showBackdrop_ok rel m Hm) as Hok.
  assert (has_backdrop = true ->
    showBackdrop o supports fade rel m =
      if animated then with_backdrop m <| m_ends := await (BackdropAt (ids m)) (ShowElement rel) (m_ends m) |>
      else showElement o supports fade rel (with_backdrop m)) as Hb
    by (intros Eb; unfold showBackdrop, has_backdrop in *; by destruct (o_backdrop o)).
  destruct has_backdrop eqn:Eb.
  - rewrite Hb in Hok |- * by done. destruct (with_backdrop_ok m Hm Eb) as [Ad Hl].
    set (m1 := with_backdrop m) in *. assert (told m1 = told m) as T by done.
    destruct animated eqn:Ea.
    + set (m2 := m1 <| m_ends := await (BackdropAt (ids m)) (ShowElement rel) (m_ends m) |>) in *.
      destruct (opening_shown m2 (ids m) rel Hok) as (k & Hr & Hs & Hd & Hw & Ht);
        [done|done|by apply adjusted_ends|by apply (await_awaits _ _ _ (m_ends m))|done|].
      destruct (entering_shown _ rel Hr Hs Hd Hw) as [k' Hk']. exists [k; k']. unfold arrived.
      change (told m) with (told m2). rewrite <- Ht. exact Hk'.
    + destruct (showElement_arrives rel m1) as [ks Hks]; try done; [by rewrite Ea|].
      exists ks. by apply (arrived_of rel m m1).
  - assert (showBackdrop o supports fade rel m = showElement o supports fade rel m) as ->
      by (unfold showBackdrop, has_backdrop in *; by destruct (o_backdrop o)).
    apply showElement_arrives; try done; [split; try done; by rewrite Eb|split; rewrite ?A, ?Eb; done].
Qed.

(** A modal that is asked to show, and may, is shown in the end, with exactly
    [show], the focus if it takes it, and [shown] told. *)
Theorem show_completes m z rel :
  reachable m -> isShown m = false -> waiting (m_ends m) = [] -> isTransitioning m = false ->
  allow (EvShow rel) = true ->
  exists ks, let r := timers_run ks (act (Call (inl MShow) z rel) m) in
    isShown r = true /\ isTransitioning r = false /\ displayed r = true /\ waiting (m_ends r) = [] /\
    told r = told m ++ EvShow rel :: (if o_focus o then [Focus] else []) ++ [EvShown rel].
Proof.
  intros Hm%reachable_ok Hs Hw Ht Hal. pose proof (ok_rest m Hm Hs Hw) as Hr.
  destruct (asked_rest rel m Hr Ht) as [Ha Hta].
  pose proof (show_start_prepared z (asked rel m) Ha Hta) as Hp.
  assert (told (show_start z (asked rel m)) = told m ++ [EvShow rel]) as T.
  { rewrite show_start_told. unfold asked, trigger_show. rewrite Hal. by destruct animated. }
  unfold Modal.act. rewrite (ok_alive m Hm). cbn [jQueryInterface]. rewrite show_unfold, Hal by done.
  destruct (showBackdrop_arrives rel _ Hp) as (ks & _ & A & B & C & D & E). exists ks. cbv zeta.
  split; [done|]. split; [done|]. split; [done|]. split; [done|]. rewrite E, T, <- app_assoc. done.
Qed.
End flow.
