(* ===== verification/BsModalRun.v ===== *)
(** * Bootstrap: modal.js, runs

    The theorems of [BsModalFlow] at concrete inputs, and runs in which a modal is left
    in a state it does not get out of. *)

From S2P Require Export BsModalFlow.
Import Modal.

Definition opts : options := mk_options Backdrop true true.
Definition yes : mevent -> bool := fun _ => true.
Definition page_sizes : sizes := mk_sizes true 17 false.

(** A fixed bar with a padding of its own, and a sticky one. *)
Definition bars : list box :=
  [mk_box true false false 8 0 (Some 5) None None None; mk_box false true false 0 10 None None None None].
Definition page_body : box := mk_box false false false 0 0 None None None None.

Abbreviation new := (create bars page_body).
Abbreviation step := (act opts yes true true).
Definition steps (l : list maction) : modal := fold_left (fun m a => step a m) l new.

Definition show_it : maction := Call (inl MShow) page_sizes None.
Definition hide_it : maction := Call (inl MHide) page_sizes None.

Lemma bars_clean : Forall clean bars.
Proof. by repeat constructor. Qed.

(** A run whose steps are polite ([polite] is decided by computing the state). *)
Abbreviation reached := (reachable opts yes true true bars page_body).

Lemma reach_step l a : reached (steps l) -> polite a (steps l) -> reached (steps (l ++ [a])).
Proof. intros Hl Ha. unfold steps. rewrite fold_left_app. by constructor. Qed.

Lemma not_fading_new : ~ fading new.
Proof. by intros (p & ?%elem_of_nil). Qed.

Lemma shown_reachable : reached (steps [show_it; EndTimer 0; EndTimer 1]).
Proof.
  refine (reach_step [show_it; EndTimer 0] (EndTimer 1) _ I).
  refine (reach_step [show_it] (EndTimer 0) _ I).
  exact (reach_step [] show_it (reach_new _ _ _ _ _ _) not_fading_new).
Qed.

Lemma hidden_reachable :
  reached (steps [show_it; EndTimer 0; EndTimer 1; Escape; TransitionEnd Element; EndTimer 3]).
Proof.
  refine (reach_step [show_it; EndTimer 0; EndTimer 1; Escape; TransitionEnd Element] (EndTimer 3) _ I).
  refine (reach_step [show_it; EndTimer 0; EndTimer 1; Escape] (TransitionEnd Element) _ I).
  refine (reach_step [show_it; EndTimer 0; EndTimer 1] Escape _ I). apply shown_reachable.
Qed.

Example modal_gives_back_witness :
  let m := steps [show_it; EndTimer 0; EndTimer 1; Escape; TransitionEnd Element; EndTimer 3] in
  isShown m = false /\ waiting (m_ends m) = [] /\
  (isShown m = false -> waiting (m_ends m) = [] -> restored bars page_body m /\
    (on_keydown m, on_resize m, on_dismiss m, on_backdrop_click m, on_mousedown m, on_focusin m)
      = (0, 0, 0, 0, 0, false)%nat) /\
  (isShown m = true -> adjusted opts bars page_body m /\
    (on_keydown m, on_resize m, on_dismiss m, on_backdrop_click m, on_mousedown m)
      = (b2n (o_keyboard opts), 1, 1, b2n (has_backdrop opts), 1)%nat).
Proof.
  split; [by vm_compute|]. split; [by vm_compute|].
  apply (modal_gives_back opts yes true true bars page_body bars_clean eq_refl).
  apply hidden_reachable.
Defined.

Example adjusted_while_shown :
  padding <$> boxes (steps [show_it; EndTimer 0]) = [Some 22; Some 17] /\
  margin <$> boxes (steps [show_it; EndTimer 0]) = [None; Some (-7)].
Proof. by vm_compute. Qed.

Example show_completes_witness :
  exists ks, let r := timers_run opts yes true true ks (step show_it new) in
    isShown r = true /\ isTransitioning r = false /\ displayed r = true /\ waiting (m_ends r) = [] /\
    told r = told new ++ EvShow None :: [Focus] ++ [EvShown None].
Proof.
  apply (show_completes opts yes true true bars page_body bars_clean eq_refl new page_sizes None);
    [constructor|done..].
Defined.

Example hide_completes_witness :
  let m := steps [show_it; EndTimer 0; EndTimer 1] in
  exists ks, let r := timers_run opts yes true true ks (step hide_it m) in
    isShown r = false /\ waiting (m_ends r) = [] /\ restored bars page_body r /\
    told r = told m ++ EvHide :: EvHidden :: (Refocus <$> on_hidden m).
Proof.
  apply (hide_completes opts yes true true bars page_body bars_clean eq_refl);
    [apply shown_reachable|by vm_compute..].
Defined.

(** ** A show that was prevented

    [_isTransitioning] is set before the page is asked, and stays when it says no: the
    modal cannot be shown any more. *)
Definition once (e : mevent) : bool := match e with EvShow (Some _) => false | _ => true end.

Example prevented_for_ever :
  let m := act opts once true true (Control true true page_sizes 7) new in
  isTransitioning m = true /\ told m = [EvShow (Some 7%nat)] /\
  forall z rel, act opts once true true (Call (inl MShow) z rel) m = m.
Proof. split; [by vm_compute|]. split; [by vm_compute|]. intros z rel. reflexivity. Qed.

(** ** Shown again while the backdrop fades out

    The step of the old backdrop removes the new one, and with it the listener that was
    to show the modal: it counts as shown and in transition, without an end to come,
    while [hidden] is told and the page has lost its class; the old backdrop stays. *)
Example reopened_too_soon :
  let m := steps [show_it; EndTimer 0; EndTimer 1; hide_it; EndTimer 2; show_it; EndTimer 3; EndTimer 4] in
  isShown m = true /\ isTransitioning m = true /\ displayed m = false /\ waiting (m_ends m) = [] /\
  timers (m_ends m) = [] /\ body_open m = false /\ backdrops m = [(0%nat, false)] /\
  last (told m) = Some EvHidden /\ step hide_it m = m.
Proof. vm_compute. by repeat split. Qed.

(** ** [dispose]

    Only the listener of the window goes: the escape key, the clicks and the focus keep
    theirs, the backdrop and the class of the body stay, and a click on the element
    throws. *)
Example dispose_leaves :
  let m := steps [show_it; EndTimer 0; EndTimer 1; Call (inl MDispose) page_sizes None] in
  on_resize m = 0%nat /\ on_keydown m = 1%nat /\ on_focusin m = true /\ body_open m = true /\
  backdrops m = [(0%nat, true)] /\ last (told (step (Click OnElement) m)) = Some Thrown.
Proof. by vm_compute. Qed.
