(* ===== verification/BsCollapse.v ===== *)
(** * Bootstrap: collapse.js

    Models [Collapse] of [2019104233/src/scripts/bluelog/bluelog/static/js/bootstrap.js]:
    the collapsible elements of a page, the instances made for them, the controls that
    open and close them, and accordions (elements with a common parent).  Elements and
    controls are numbers; which elements the selector of a control finds, which are
    inside a parent and how large they are, are arguments.  Listeners of the page only
    allow or prevent. *)

From S2P Require Export BsUtil.

Module Collapse.

Definition Default : config := list_to_map [("toggle", VBool true); ("parent", VStr "")]%string.
Definition DefaultType : configTypes := [("toggle", ["boolean"]); ("parent", ["string"; "element"])]%string.

(** [_getConfig]; [toggle] may come as a text, of the attribute of a control. *)
Definition Collapse_getConfig (c : config) : config + string :=
  let c := extend Default c in
  let c := <["toggle" := VBool (truthy (option_of c "toggle"))]> c in
  match typeCheckConfig "collapse" c DefaultType with None => inl c | Some e => inr e end.

(** [style[dimension]]: the empty text, or pixels. *)
Inductive style := Auto | Px (z : Z).

Record element := mk_element {
  c_collapse : bool; c_show : bool; c_collapsing : bool; size : style;
  data_parent : option nat;
  data : option nat;
}.
#[export] Instance element_eta : Settable element := fun e =>
  mk_element (c_collapse e) (c_show e) (c_collapsing e) (size e) (data_parent e) (data e).

(** An instance; [selector] is what its own selector finds, the empty list if it has none. *)
Record instance := mk_instance {
  of_element : nat; isTransitioning : bool; parent : option nat; selector : list nat; disposed : bool;
}.
#[export] Instance instance_eta : Settable instance := fun i =>
  mk_instance (of_element i) (isTransitioning i) (parent i) (selector i) (disposed i).

(** A control: the class [collapsed], and [aria-expanded]. *)
Record control := mk_control { collapsed : bool; expanded : option bool }.

Inductive cevent := EvShow (e : nat) | EvShown (e : nat) | EvHide (e : nat) | EvHidden (e : nat) | Thrown.

(** What waits for the end of a transition, with its instance. *)
Inductive complete := ShowComplete (i : nat) | HideComplete (i : nat).

Record page := mk_page {
  els : list element; insts : list instance; controls : list control;
  p_ends : ends nat complete; told : list cevent;
}.
#[export] Instance page_eta : Settable page := fun p =>
  mk_page (els p) (insts p) (controls p) (p_ends p) (told p).

Definition tell (ev : cevent) (p : page) : page := p <| told := told p ++ [ev] |>.
Definition set_el (e : nat) (f : element -> element) (p : page) : page := p <| els := alter f e (els p) |>.
Definition set_inst (i : nat) (f : instance -> instance) (p : page) : page := p <| insts := alter f i (insts p) |>.

Definition shown (p : page) (e : nat) : bool :=
  match els p !! e with Some x => c_show x | None => false end.
Definition data_of (p : page) (e : nat) : option nat := x ← els p !! e; data x.
Definition transitioning (p : page) (i : nat) : bool :=
  match insts p !! i with Some x => isTransitioning x | None => false end.

Definition setTransitioning (i : nat) (b : bool) : page -> page :=
  set_inst i (fun x => x <| isTransitioning := b |>).

Section collapse.
Context (allow : cevent -> bool) (supports : bool).
(** The elements the selector of each control finds, in order; the controls that carry
    the attribute [data-parent] inside a parent; the elements inside it; sizes. *)
Context (targets : list (list nat)) (controls_of : nat -> list nat) (inside : nat -> nat -> bool).
Context (scroll_size rect_size : nat -> Z).

Definition targets_of (t : nat) : list nat := default [] (targets !! t).

(** [_triggerArray]. *)
Definition triggers (e : nat) : list nat :=
  filter (fun t => e ∈ targets_of t) (seq 0 (length targets)).

Definition set_control (t : nat) (c : control) (p : page) : page := p <| controls := <[t := c]> (controls p) |>.

(** ** The ends of transitions *)

Definition show_complete (i : nat) (p : page) : page :=
  match insts p !! i with
  | Some x =>
      if disposed x then tell Thrown p
      else
        let e := of_element x in
        let p := set_el e (fun y => y <| c_collapsing := false |> <| c_collapse := true |> <| c_show := true |>
                                      <| size := Auto |>) p in
        tell (EvShown e) (setTransitioning i false p)
  | None => p
  end.

Definition hide_complete (i : nat) (p : page) : page :=
  match insts p !! i with
  | Some x =>
      let p := setTransitioning i false p in
      if disposed x then p
      else
        let e := of_element x in
        tell (EvHidden e) (set_el e (fun y => y <| c_collapsing := false |> <| c_collapse := true |>) p)
  | None => p
  end.

#[export] Instance collapse_host : ends_host nat complete page := {
  the_ends := p_ends;
  put_ends en p := p <| p_ends := en |>;
  completed c := match c with ShowComplete i => show_complete i | HideComplete i => hide_complete i end;
}.

(** ** Hiding and showing *)

(** [hide] of the instance [i] on the element [e]. *)
Definition hide (i e : nat) (p : page) : page :=
  if transitioning p i || negb (shown p e) then p
  else
    let p := tell (EvHide e) p in
    if negb (allow (EvHide e)) then p
    else
      let p := set_el e (fun y => y <| size := Px (rect_size e) |> <| c_collapsing := true |>
                                    <| c_collapse := false |> <| c_show := false |>) p in
      let p := fold_left (fun p t =>
        if existsb (shown p) (targets_of t) then p else set_control t (mk_control true (Some false)) p)
        (triggers e) p in
      let p := setTransitioning i true p in
      let p := set_el e (fun y => y <| size := Auto |>) p in
      if supports then p <| p_ends := await e (HideComplete i) (p_ends p) |> else hide_complete i p.

(** The elements of the accordion [q] that are open or in motion. *)
Definition is_active (q : nat) (p : page) (e : nat) : bool :=
  match els p !! e with
  | Some x => (c_show x || c_collapsing x) && bool_decide (data_parent x = Some q) && inside q e
  | None => false
  end.
Definition actives (q : nat) (p : page) : list nat :=
  List.filter (is_active q p) (seq 0 (length (els p))).

(** The constructor without its last line, [toggle]. *)
Definition make (e : nat) (par : option nat) (p : page) : page :=
  let i := length (insts p) in
  let sel := default [] (last (filter (fun l => e ∈ l) targets)) in
  let p := p <| insts := insts p ++ [mk_instance e false par sel false] |> in
  let mark e ts p := let b := shown p e in
    fold_left (fun p t => set_control t (mk_control (negb b) (Some b)) p) ts p in
  match par with
  | Some q => fold_left (fun p t => match targets_of t with e' :: _ => mark e' [t] p | [] => p end) (controls_of q) p
  | None => mark e (triggers e) p
  end.

Definition set_data (e : nat) (d : option nat) : page -> page := set_el e (fun y => y <| data := d |>).

(** [_jQueryInterface(..., 'hide')] on one element: without an instance one is made,
    with the parent the element asks for, and hides. *)
Definition call_hide (e : nat) (p : page) : page :=
  match data_of p e with
  | Some i => hide i e p
  | None =>
      let i := length (insts p) in
      hide i e (set_data e (Some i) (make e (x ← els p !! e; data_parent x) p))
  end.

(** [show] of the instance [i] on the element [e]. *)
Definition start_show (i e : nat) (p : page) : page :=
  let p := set_el e (fun y => y <| c_collapse := false |> <| c_collapsing := true |> <| size := Px 0 |>) p in
  let p := fold_left (fun p t => set_control t (mk_control false (Some true)) p) (triggers e) p in
  let p := setTransitioning i true p in
  if supports then
    let p := p <| p_ends := await e (ShowComplete i) (p_ends p) |> in
    set_el e (fun y => y <| size := Px (scroll_size e) |>) p
  else show_complete i p.

Definition show (i e : nat) (p : page) : page :=
  if transitioning p i || shown p e then p
  else
    let x := insts p !! i in
    let acts := match x ≫= parent with Some q => actives q p | None => [] end in
    let others := filter (fun a => a ∉ default [] (selector <$> x)) acts in
    let activesData := a ← head others; data_of p a in
    if match activesData with Some j => transitioning p j | None => false end then p
    else
      let p := tell (EvShow e) p in
      if negb (allow (EvShow e)) then p
      else
        let p := fold_left (fun p a => call_hide a p) others p in
        let p := match activesData with
                 | Some _ => p
                 | None => fold_left (fun p a => set_data a None p) acts p
                 end in
        start_show i e p.

Definition toggle (i e : nat) (p : page) : page := if shown p e then hide i e p else show i e p.

(** The instance's fields are gone; the element keeps its classes. *)
Definition dispose (i e : nat) (p : page) : page :=
  set_inst i (fun x => x <| disposed := true |> <| isTransitioning := false |>) (set_data e None p).

(** ** The plug-in *)

Inductive method := MToggle | MShow | MHide | MDispose | MUnknown.

Definition call (m : method) (i e : nat) (p : page) : page :=
  match m with
  | MToggle => toggle i e p | MShow => show i e p | MHide => hide i e p | MDispose => dispose i e p
  | MUnknown => tell Thrown p
  end.

(** [_jQueryInterface] on one element, with a method, or with options ([toggle] and the
    parent); a new instance toggles if its options say so and no [show] or [hide] follows. *)
Definition jQueryInterface (a : method + bool * option nat) (e : nat) (p : page) : page :=
  match data_of p e with
  | Some i => match a with inl m => call m i e p | inr _ => p end
  | None =>
      let i := length (insts p) in
      let own := x ← els p !! e; data_parent x in
      let par := match a with inr (_, Some q) => Some q | _ => own end in
      let p := make e par p in
      let p := match a with
               | inl MShow | inl MHide | inr (false, _) => p
               | _ => toggle i e p
               end in
      let p := set_data e (Some i) p in
      match a with inl m => call m i e p | inr _ => p end
  end.

(** A click on the control [t]; [opts] are the options among its own data. *)
Definition click (t : nat) (opts : bool * option nat) (p : page) : page :=
  fold_left (fun p e => jQueryInterface (match data_of p e with Some _ => inl MToggle | None => inr opts end) e p)
    (targets_of t) p.

Inductive caction :=
  | Call (a : method + bool * option nat) (e : nat) | Click (t : nat) (opts : bool * option nat)
  | TransitionEnd (e : nat) | EndTimer (n : nat).

Definition act (a : caction) (p : page) : page :=
  match a with
  | Call a e => if decide (e < length (els p))%nat then jQueryInterface a e p else p
  | Click t opts => click t opts p
  | TransitionEnd e => transition_end e p
  | EndTimer n => end_timer n p
  end.
End collapse.
End Collapse.
