(* ===== verification/BsCollapseFlow.v ===== *)
(** * Bootstrap: collapse.js, its properties

    An accordion whose elements all have their instances shows one element at most, in
    every state it can reach, and each element carries the classes of what it does;
    asked at rest, an element is open in the end, alone.  [BsCollapseRun] has an
    accordion without instances, in which two stay open. *)

From S2P Require Export BsEnds BsCollapse.
Import Collapse.

#[export] Instance collapse_laws : ends_laws nat complete page.
Proof. split; [done|by intros []]. Qed.

Lemma collapse_only_awaits : only_awaits (S := page).
Proof.
  intros [i|i] p X P; cbn; [unfold show_complete|unfold hide_complete]; destruct (insts p !! i); try done;
    by destruct (disposed _).
Qed.

(** The waits at [e]. *)
Definition waits (p : page) (e : nat) := filter (fun w => w.1 = e) (waiting (p_ends p)).

Section flow.
Context (allow : cevent -> bool) (Hallow : forall ev, allow ev = true) (supports : bool).
Context (targets : list (list nat)) (controls_of : nat -> list nat) (inside : nat -> nat -> bool).
Context (scroll_size rect_size : nat -> Z).
(** The accordion [q] of [n] elements; a control is for one of them. *)
Context (n q : nat) (Hinside : forall e, inside q e = true).
Context (own : nat -> list nat) (Hown : forall e x, x ∈ own e -> x = e).

Abbreviation act := (act allow supports targets controls_of inside scroll_size rect_size).
Abbreviation hide := (hide allow supports targets rect_size).
Abbreviation show := (show allow supports targets controls_of inside scroll_size rect_size).

(** What an element does; [k] is the mark of its transition. *)
Inductive status := Shut | Open | Showing (k : nat) | Hiding (k : nat).

Definition opening (s : status) : bool := match s with Open | Showing _ => true | _ => false end.
Definition moving (s : status) : bool := match s with Showing _ | Hiding _ => true | _ => false end.

Definition element_of (s : status) (e : nat) (z : style) : element :=
  match s with
  | Shut => mk_element true false false z (Some q) (Some e)
  | Open => mk_element true true false z (Some q) (Some e)
  | Showing _ | Hiding _ => mk_element false false true z (Some q) (Some e)
  end.

Definition looks (p : page) (e : nat) (s : status) : Prop :=
  (exists z, els p !! e = Some (element_of s e z)) /\
  insts p !! e = Some (mk_instance e (moving s) (Some q) (own e) false).

Record fits (p : page) (e : nat) (s : status) : Prop := {
  fi_looks : looks p e s;
  fi_waits : waits p e = match s with
                         | Shut | Open => []
                         | Showing k => [(e, Done (ShowComplete e)); (e, Mark k)]
                         | Hiding k => [(e, Done (HideComplete e)); (e, Mark k)]
                         end;
}.

(** ** What an operation on [e] leaves alone *)

Definition same_at (p p' : page) (e : nat) : Prop :=
  els p' !! e = els p !! e /\ insts p' !! e = insts p !! e /\ waits p' e = waits p e.

Lemma fits_same p p' e s : same_at p p' e -> fits p e s -> fits p' e s.
Proof. intros (E1 & E2 & E3) [[A B] C]. split; [split|]; by rewrite ?E1, ?E2, ?E3. Qed.

Lemma same_at_refl p e : same_at p p e.
Proof. done. Qed.

Lemma same_at_trans p1 p2 p3 e : same_at p1 p2 e -> same_at p2 p3 e -> same_at p1 p3 e.
Proof. intros (A1 & A2 & A3) (B1 & B2 & B3). split; [congruence|split; congruence]. Qed.

Lemma same_set_el p e f e' : e' <> e -> same_at p (set_el e f p) e'.
Proof. intros. split; [|done]. cbn. by rewrite list_lookup_alter_ne. Qed.

Lemma same_set_inst p i f e' : e' <> i -> same_at p (set_inst i f p) e'.
Proof. intros. split; [done|]. split; [|done]. cbn. by rewrite list_lookup_alter_ne. Qed.

Lemma same_tell p ev e' : same_at p (tell ev p) e'.
Proof. done. Qed.

Lemma same_await p e l e' : e' <> e -> same_at p (p <| p_ends := await e l (p_ends p) |>) e'.
Proof.
  intros. split; [done|]. split; [done|]. unfold waits. cbn. rewrite !filter_app, !filter_cons, !filter_nil.
  cbn. rewrite !decide_False, !app_nil_r by congruence. done.
Qed.

Lemma waits_await p e l :
  waits (p <| p_ends := await e l (p_ends p) |>) e = waits p e ++ [(e, Done l); (e, Mark (fresh (p_ends p)))].
Proof.
  unfold waits. cbn. rewrite !filter_app, !filter_cons, !filter_nil. cbn. rewrite !decide_True by done.
  by rewrite <- app_assoc.
Qed.

(** Controls change nothing here. *)
Lemma same_controls {A} (f : page -> A -> page) (l : list A) p :
  (forall p x, els (f p x) = els p /\ insts (f p x) = insts p /\ p_ends (f p x) = p_ends p /\ told (f p x) = told p) ->
  let p' := fold_left f l p in
  els p' = els p /\ insts p' = insts p /\ p_ends p' = p_ends p /\ told p' = told p.
Proof.
  intros Hf. revert p. induction l as [|x l IH]; intros p; [done|]. cbn [fold_left].
  destruct (IH (f p x)) as (E1 & E2 & E3 & E4). destruct (Hf p x) as (F1 & F2 & F3 & F4). cbv zeta.
  by rewrite E1, E2, E3, E4.
Qed.

(** ** Reading an element *)

Lemma fits_shown p e s : fits p e s -> shown p e = match s with Open => true | _ => false end.
Proof. intros [[[z E] _] _]. unfold shown. rewrite E. by destruct s. Qed.

Lemma fits_transitioning p e s : fits p e s -> transitioning p e = moving s.
Proof. intros [[_ E] _]. unfold transitioning. by rewrite E. Qed.

Lemma fits_data p e s : fits p e s -> data_of p e = Some e.
Proof. intros [[[z E] _] _]. unfold data_of. rewrite E. by destruct s. Qed.

Lemma fits_active p e s : fits p e s -> is_active inside q p e = match s with Shut => false | _ => true end.
Proof.
  intros [[[z E] _] _]. unfold is_active. rewrite E, Hinside.
  destruct s; cbn; by rewrite ?bool_decide_eq_true_2.
Qed.

(** An operation on [e]: the rest stays, [e] gets the status [s]. *)
Record changes (p p' : page) (e : nat) (s : status) : Prop := {
  ch_fits : fits p' e s;
  ch_same : forall e', e' <> e -> same_at p p' e';
  ch_els : length (els p') = length (els p);
  ch_ends : ends_ok (p_ends p) -> ends_ok (p_ends p');
  ch_range : forall w, w ∈ waiting (p_ends p') -> w ∈ waiting (p_ends p) \/ w.1 = e;
}.

Lemma elem_of_await e l (en : ends nat complete) w :
  w ∈ waiting (await e l en) -> w ∈ waiting en \/ w.1 = e.
Proof.
  cbn. rewrite !elem_of_app, !list_elem_of_singleton. intros [[?|Hw]|Hw]; subst; auto.
Qed.

(** *** The ends of transitions *)

Definition without_waits (e : nat) (p : page) : page :=
  p <| p_ends := p_ends p <| waiting := filter (fun w => w.1 <> e) (waiting (p_ends p)) |> |>.

Lemma filter_disjoint {A} (P Q : A -> Prop) `{!forall x, Decision (P x), !forall x, Decision (Q x)} (l : list A) :
  (forall x, Q x -> P x) -> filter Q (filter P l) = filter Q l.
Proof.
  intros Hqp. induction l as [|x l IH]; [done|]. rewrite !filter_cons.
  destruct (decide (P x)) as [HP|HP].
  - rewrite filter_cons. destruct (decide (Q x)); by rewrite IH.
  - destruct (decide (Q x)) as [HQ|]; [by destruct HP; apply Hqp|done].
Qed.

Lemma without_waits_same e p e' : e' <> e -> same_at p (without_waits e p) e'.
Proof.
  intros He. split; [done|]. split; [done|]. unfold waits. cbn. apply filter_disjoint. congruence.
Qed.

Lemma without_waits_none e p : waits (without_waits e p) e = [].
Proof.
  unfold waits. cbn. induction (waiting (p_ends p)) as [|w l IH]; [done|]. rewrite filter_cons.
  case_decide; [rewrite filter_cons, decide_False by done; done|done].
Qed.

Lemma show_complete_spec p e k :
  looks p e (Showing k) ->
  let r := show_complete e p in
  looks r e Open /\ (forall e', e' <> e -> same_at p r e') /\ length (els r) = length (els p) /\
  p_ends r = p_ends p /\ told r = told p ++ [EvShown e].
Proof.
  intros [[z E1] E2]. unfold show_complete. rewrite E2. cbn [disposed of_element].
  split_and!; [split| | |done|done].
  - exists Auto. cbn. by rewrite list_lookup_alter_eq, E1.
  - cbn. by rewrite list_lookup_alter_eq, E2.
  - intros e' He. eapply same_at_trans; [|apply same_tell]. eapply same_at_trans; [|by apply same_set_inst].
    by apply same_set_el.
  - cbn. by rewrite length_alter.
Qed.

Lemma hide_complete_spec p e k :
  looks p e (Hiding k) ->
  let r := hide_complete e p in
  looks r e Shut /\ (forall e', e' <> e -> same_at p r e') /\ length (els r) = length (els p) /\
  p_ends r = p_ends p /\ told r = told p ++ [EvHidden e].
Proof.
  intros [[z E1] E2]. unfold hide_complete. rewrite E2. cbn [disposed of_element].
  split_and!; [split| | |done|done].
  - exists z. cbn. by rewrite list_lookup_alter_eq, E1.
  - cbn. by rewrite list_lookup_alter_eq, E2.
  - intros e' He. eapply same_at_trans; [|apply same_tell]. eapply same_at_trans; [by apply same_set_inst|].
    by apply same_set_el.
  - cbn. by rewrite length_alter.
Qed.

Lemma waits_ends p p' e : p_ends p' = p_ends p -> waits p' e = waits p e.
Proof. unfold waits. by intros ->. Qed.

(** *** Hiding *)

Definition hides (p : page) (s : status) : status :=
  match s with Open => if supports then Hiding (fresh (p_ends p)) else Shut | s => s end.

Lemma hide_spec p e s : fits p e s -> changes p (hide e e p) e (hides p s).
Proof.
  intros Hf. unfold Collapse.hide. rewrite (fits_transitioning p e s Hf), (fits_shown p e s Hf), Hallow.
  destruct s as [| |k|k]; cbn [moving negb orb hides]; try (split; [done|intros; apply same_at_refl|done|done|by left]).
  cbv zeta. set (p1 := set_el e _ (tell _ p)). set (p2 := fold_left _ _ p1).
  assert (els p2 = els p1 /\ insts p2 = insts p1 /\ p_ends p2 = p_ends p1 /\ told p2 = told p1) as (C1 & C2 & C3 & _).
  { apply same_controls. intros p' t. by destruct (existsb _ _). }
  clearbody p2. destruct Hf as [[[z E1] E2] E3].
  set (p3 := set_el e (fun y => y <| size := Auto |>) (setTransitioning e true p2)).
  assert (looks p3 e (Hiding 0)) as H3.
  { split; [exists Auto|]; cbn; rewrite ?C1, ?C2; cbn; by rewrite ?list_lookup_alter_eq, ?E1, ?E2. }
  assert (forall e', e' <> e -> same_at p p3 e') as S3.
  { intros e' He. unfold same_at, waits. cbn. rewrite C1, C2, C3. cbn. by rewrite !list_lookup_alter_ne. }
  assert (length (els p3) = length (els p)) as L3 by (cbn; rewrite C1; cbn; by rewrite !length_alter).
  assert (p_ends p3 = p_ends p) as W3 by (cbn; by rewrite C3).
  clearbody p3. destruct supports.
  - rewrite <- W3. split; [split|intros e' He|exact L3| |].
    + exact H3.
    + rewrite waits_await, (waits_ends p p3), E3 by done. done.
    + eapply same_at_trans; [by apply S3|by apply same_await].
    + intros He. cbn. apply (await_ok (H := collapse_host)). by rewrite W3.
    + intros w. cbn. rewrite W3. apply elem_of_await.
  - destruct (hide_complete_spec p3 e 0 H3) as (A1 & A2 & A3 & A4 & _). split.
    + split; [done|]. by rewrite (waits_ends p3), (waits_ends p).
    + intros e' He. eapply same_at_trans; [by apply S3|by apply A2].
    + congruence.
    + by rewrite A4, W3.
    + intros w. rewrite A4, W3. by left.
Qed.

(** *** Showing *)

Definition shows (p : page) : status := if supports then Showing (fresh (p_ends p)) else Open.

Lemma start_show_spec p e : fits p e Shut ->
  changes p (start_show supports targets scroll_size e e p) e (shows p).
Proof.
  intros [[[z E1] E2] E3]. unfold start_show, shows. cbv zeta.
  set (p1 := set_el e _ p). set (p2 := fold_left _ _ p1).
  assert (els p2 = els p1 /\ insts p2 = insts p1 /\ p_ends p2 = p_ends p1 /\ told p2 = told p1) as (C1 & C2 & C3 & _)
    by by apply same_controls.
  clearbody p2. set (p3 := setTransitioning e true p2).
  assert (looks p3 e (Showing 0)) as H3.
  { split; [exists (Px 0)|]; cbn; rewrite ?C1, ?C2; cbn; by rewrite ?list_lookup_alter_eq, ?E1, ?E2. }
  assert (forall e', e' <> e -> same_at p p3 e') as S3.
  { intros e' He. unfold same_at, waits. cbn. rewrite C1, C2, C3. cbn. by rewrite !list_lookup_alter_ne. }
  assert (length (els p3) = length (els p)) as L3 by (cbn; rewrite C1; cbn; by rewrite !length_alter).
  assert (p_ends p3 = p_ends p) as W3 by (cbn; by rewrite C3).
  clearbody p3. destruct supports.
  - rewrite <- W3. set (p4 := p3 <| p_ends := _ |>).
    assert (waits p4 e = [(e, Done (ShowComplete e)); (e, Mark (fresh (p_ends p3)))]) as W4
      by (unfold p4; by rewrite waits_await, (waits_ends p p3), E3 by done).
    split; [split|intros e' He| | |].
    + destruct H3 as [[z' H3] H3']. split; [exists (Px (scroll_size e))|exact H3'].
      cbn. by rewrite list_lookup_alter_eq, H3.
    + exact W4.
    + eapply same_at_trans; [by apply S3|]. eapply same_at_trans; [by apply same_await|by apply same_set_el].
    + cbn. by rewrite length_alter.
    + intros He. cbn. apply (await_ok (H := collapse_host)). by rewrite W3.
    + intros w. cbn. rewrite W3. apply elem_of_await.
  - destruct (show_complete_spec p3 e 0 H3) as (A1 & A2 & A3 & A4 & _). split.
    + split; [done|]. by rewrite (waits_ends p3), (waits_ends p).
    + intros e' He. eapply same_at_trans; [by apply S3|by apply A2].
    + congruence.
    + by rewrite A4, W3.
    + intros w. rewrite A4, W3. by left.
Qed.

(** ** The accordion *)

(** The elements do what [st] says. *)
Record does (p : page) (st : nat -> status) : Prop := {
  do_els : length (els p) = n;
  do_ends : ends_ok (p_ends p);
  do_fits : forall e, (e < n)%nat -> fits p e (st e);
  do_range : forall w, w ∈ waiting (p_ends p) -> (w.1 < n)%nat;
}.

Definition one_open (st : nat -> status) : Prop :=
  forall e e', (e < n)%nat -> (e' < n)%nat -> opening (st e) = true -> opening (st e') = true -> e = e'.

Definition ok (p : page) : Prop := exists st, does p st /\ one_open st.

Definition put (e : nat) (s : status) (st : nat -> status) (x : nat) : status := if decide (x = e) then s else st x.

Lemma does_changes p p' e s st : (e < n)%nat -> does p st -> changes p p' e s -> does p' (put e s st).
Proof.
  intros He [A B C R] [D E F G R']. split; [congruence|by apply G| |].
  - intros x Hx. unfold put. destruct (decide (x = e)) as [->|Hne]; [done|].
    by apply (fits_same p); [apply E|apply C].
  - intros w [Hw| ->]%R'; [by apply R|done].
Qed.

Lemma does_tell p st ev : does p st -> does (tell ev p) st.
Proof. intros [A B C R]. split; [done|done| |done]. intros e He. by apply (fits_same p), C. Qed.

(** Hiding several elements that are open or already hide. *)
Definition is_showing (s : status) : bool := match s with Showing _ => true | _ => false end.

Lemma hides_opening p s : opening (hides p s) = true -> opening s = true /\ is_showing s = true.
Proof. destruct s; cbn; try done. by destruct supports. Qed.

Lemma hides_showing p s : is_showing s = false -> is_showing (hides p s) = false.
Proof. destruct s; cbn; try done. by destruct supports. Qed.

Lemma call_hide_fits p a s : fits p a s ->
  call_hide allow supports targets controls_of rect_size a p = hide a a p.
Proof. intros Hf. unfold call_hide. by rewrite (fits_data p a s Hf). Qed.

Lemma hide_all l p st :
  does p st -> (forall x, x ∈ l -> (x < n)%nat) ->
  exists st', does (fold_left (fun p a => call_hide allow supports targets controls_of rect_size a p) l p) st' /\
    (forall x, x ∉ l -> st' x = st x) /\
    (forall x, opening (st' x) = true -> opening (st x) = true) /\
    (forall x, x ∈ l -> is_showing (st x) = false -> opening (st' x) = false).
Proof.
  revert p st. induction l as [|a l IH]; intros p st Hp Hl.
  { exists st. split_and!; [done|done|done|]. by intros x ?%elem_of_nil. }
  cbn [fold_left]. pose proof (do_fits p st Hp a (Hl a (list_elem_of_here _ _))) as Ha.
  rewrite (call_hide_fits p a (st a) Ha). pose proof (hide_spec p a (st a) Ha) as Hc.
  destruct (IH _ _ (does_changes p _ a _ st (Hl a (list_elem_of_here _ _)) Hp Hc)) as (st' & D & E & F & G);
    [intros x Hx; by apply Hl, list_elem_of_further|].
  exists st'. split; [done|]. split_and!.
  - intros x Hx. rewrite E by (intros ?; by apply Hx, list_elem_of_further). unfold put.
    rewrite decide_False; [done|]. intros ->. apply Hx. by constructor.
  - intros x Hx%F. unfold put in Hx. case_decide; [subst|done]. by apply hides_opening in Hx as [].
  - intros x Hx Hs. destruct (decide (x = a)) as [->|Hne].
    + destruct (opening (st' a)) eqn:Eo; [|done]. apply F in Eo. unfold put in Eo.
      rewrite decide_True in Eo by done. apply hides_opening in Eo as [_ Eo]. congruence.
    + apply elem_of_cons in Hx as [|Hx]; [done|]. apply G; [done|]. unfold put. by rewrite decide_False.
Qed.

Lemma elem_of_actives p st x :
  does p st -> x ∈ actives inside q p <-> (x < n)%nat /\ st x <> Shut.
Proof.
  intros Hp. unfold actives. rewrite list_elem_of_In, filter_In, in_seq, (do_els p st Hp). split.
  - intros [Hx Hs]. assert ((x < n)%nat) as Hlt by lia. split; [done|]. intros E.
    rewrite (fits_active p x (st x) (do_fits p st Hp x Hlt)), E in Hs. done.
  - intros [Hx Hs]. split; [lia|]. rewrite (fits_active p x (st x) (do_fits p st Hp x Hx)). by destruct (st x).
Qed.

(** [show] of [e]: refused while it or the first active element moves; else the others
    hide and [e] opens. *)
Lemma show_spec p st e :
  does p st -> one_open st -> (e < n)%nat ->
  (show e e p = p /\ (st e <> Shut \/ exists a, head (actives inside q p) = Some a /\ moving (st a) = true)) \/
  exists st', does (show e e p) st' /\ (if supports then is_showing (st' e) = true else st' e = Open) /\
    forall x, x <> e -> (x < n)%nat -> opening (st' x) = false.
Proof.
  intros Hp Ho He. pose proof (do_fits p st Hp e He) as Hf. unfold Collapse.show.
  rewrite (fits_transitioning p e _ Hf), (fits_shown p e _ Hf), Hallow. cbn [negb].
  destruct (st e) eqn:Es; cbn [moving orb]; try (left; split; [done|by left]).
  pose proof Hf as [[_ Hi] _]. rewrite Hi. cbn [mbind option_bind parent selector fmap option_fmap option_map default from_option id].
  set (acts := actives inside q p).
  assert (filter (fun a => a ∉ own e) acts = acts) as ->.
  { apply filter_all. intros x Hx Hown'. apply Hown in Hown' as ->.
    apply (elem_of_actives p st e Hp) in Hx as [_ Hx]. by rewrite Es in Hx. }
  assert (forall x, x ∈ acts -> (x < n)%nat) as Hlt by (intros x Hx; by apply (elem_of_actives p st x Hp) in Hx as []).
  assert (e ∉ acts) as Hne.
  { intros Hx. apply (elem_of_actives p st e Hp) in Hx as [_ Hx]. by rewrite Es in Hx. }
  assert ((a ← head acts; data_of p a) = head acts) as ->.
  { destruct acts as [|a l] eqn:Ea; [done|]. cbn. apply (fits_data p a (st a)), (do_fits p st Hp), Hlt. by constructor. }
  destruct (match head acts with Some j => transitioning p j | None => false end) eqn:Et.
  { left. split; [done|]. right. destruct acts as [|a l] eqn:Ea; [done|]. exists a. split; [done|].
    rewrite <- (fits_transitioning p a (st a)); [done|]. apply (do_fits p st Hp), Hlt. by constructor. }
  right. set (p1 := tell (EvShow e) p). pose proof (does_tell p st (EvShow e) Hp : does p1 st) as Hp1.
  destruct (hide_all acts p1 st Hp1 Hlt) as (st' & D & E & F & G).
  set (p2 := fold_left _ acts p1) in *.
  assert ((match head acts with Some _ => p2 | None => fold_left (fun p a => set_data a None p) acts p2 end) = p2) as ->
    by by destruct acts.
  assert (st' e = Shut) as Ee by by rewrite E, Es. pose proof (do_fits p2 st' D e He) as Hf2. rewrite Ee in Hf2.
  exists (put e (shows p2) st'). split; [apply (does_changes p2); [done|done|by apply start_show_spec]|].
  unfold put, shows. rewrite decide_True by done. split; [by destruct supports|]. intros x Hx Hxn.
  rewrite decide_False by done. destruct (opening (st' x)) eqn:Eo; [|done]. pose proof (F x Eo) as Eo'.
  assert (x ∈ acts) as Hin by (apply (elem_of_actives p st x Hp); split; [done|]; by intros E'; rewrite E' in Eo').
  rewrite G in Eo; [done|done|]. destruct (is_showing (st x)) eqn:Ess; [|done]. exfalso.
  (* the first active element is open, and does not move *)
  destruct acts as [|a l] eqn:Ea; [by apply elem_of_nil in Hin|]. cbn in Et.
  assert (a ∈ a :: l) as Ha by by constructor. pose proof (Hlt a Ha) as Han.
  rewrite (fits_transitioning p a (st a) (do_fits p st Hp a Han)) in Et. rewrite <- Ea in Ha.
  apply (elem_of_actives p st a Hp) in Ha as [_ Ha].
  assert (st a = Open) as Eao by by destruct (st a). assert (a = x) as -> by (apply Ho; [done|done|by rewrite Eao|done]).
  by rewrite Eao in Ess.
Qed.

(** *** Every action *)

Context (Htargets : forall t e, e ∈ targets_of targets t -> (e < n)%nat).

Lemma accordion_ok_hide e p : ok p -> (e < n)%nat -> ok (hide e e p).
Proof.
  intros (st & Hp & Ho) He. exists (put e (hides p (st e)) st).
  split; [by apply (does_changes p); [|done|apply hide_spec, (do_fits p st Hp)]|].
  assert (forall x, opening (put e (hides p (st e)) st x) = true -> opening (st x) = true) as Hop.
  { intros x. unfold put. case_decide; [subst|done]. by intros []%hides_opening. }
  intros x y Hx Hy H1 H2. apply Ho; auto.
Qed.

Lemma accordion_ok_show e p : ok p -> (e < n)%nat -> ok (show e e p).
Proof.
  intros (st & Hp & Ho) He. destruct (show_spec p st e Hp Ho He) as [[-> _]|(st' & D & _ & F)]; [by exists st|].
  exists st'. split; [done|]. intros x y Hx Hy H1 H2.
  destruct (decide (x = e)) as [->|Hxe]; [destruct (decide (y = e)) as [->|Hye]; [done|]|].
  - by rewrite (F y Hye Hy) in H2.
  - by rewrite (F x Hxe Hx) in H1.
Qed.

Lemma accordion_ok_toggle e p : ok p -> (e < n)%nat ->
  ok (toggle allow supports targets controls_of inside scroll_size rect_size e e p).
Proof. intros Hp He. unfold toggle. destruct (shown p e); [by apply accordion_ok_hide|by apply accordion_ok_show]. Qed.

Lemma ok_data e p : ok p -> (e < n)%nat -> data_of p e = Some e.
Proof. intros (st & Hp & _) He. by apply (fits_data p e (st e)), (do_fits p st Hp). Qed.

(** The page keeps the instances. *)
Definition keeps (a : caction) : Prop := match a with Call (inl MDispose) _ => False | _ => True end.

Lemma accordion_ok_interface m e p : ok p -> (e < n)%nat -> m <> MDispose ->
  ok (jQueryInterface allow supports targets controls_of inside scroll_size rect_size (inl m) e p).
Proof.
  intros Hp He Hm. unfold jQueryInterface. rewrite (ok_data e p Hp He).
  destruct m; cbn [call]; [by apply accordion_ok_toggle|by apply accordion_ok_show|by apply accordion_ok_hide|done|].
  destruct Hp as (st & Hp & Ho). exists st. by split; [apply does_tell|].
Qed.

(** The end of what [e] waits for. *)
Lemma finish_spec p st e en :
  does p st -> (e < n)%nat -> waiting en = waiting (p_ends p) ->
  let p1 := p <| p_ends := en |> in
  let r := transition_end e p1 in
  match st e with
  | Shut | Open => r = p1
  | Showing _ => fits r e Open
  | Hiding _ => fits r e Shut
  end /\ (forall e', e' <> e -> same_at p r e') /\ length (els r) = length (els p) /\
  (forall w, w ∈ waiting (p_ends r) -> w ∈ waiting (p_ends p)).
Proof.
  intros Hp He Hen p1 r. pose proof (do_fits p st Hp e He) as [Hl Hw].
  assert (forall e', same_at p p1 e') as S1 by (intros e'; unfold same_at, waits; cbn; by rewrite Hen).
  assert (forall l k, waits p e = [(e, Done l); (e, Mark k)] -> r =
    let s' := completed (ends_host := collapse_host) l (without_waits e p1) in
    s' <| p_ends := p_ends s' <| called := k :: called (p_ends s') |> |>) as Hr.
  { intros l k Hlk. unfold r. rewrite (transition_end_pair (H := collapse_host) e l k p1); [done|].
    cbn. by rewrite Hen. }
  assert (forall x, x ∈ waiting (p_ends (without_waits e p1)) -> x ∈ waiting (p_ends p)) as Hsub.
  { intros x. cbn. rewrite Hen. by intros [_ ?]%list_elem_of_filter. }
  destruct (st e) as [| |k|k].
  - assert (r = p1) as -> by (apply (transition_end_none (H := collapse_host)); cbn; by rewrite Hen).
    split; [done|]. split; [intros; apply S1|]. split; [done|]. intros w. cbn. by rewrite Hen.
  - assert (r = p1) as -> by (apply (transition_end_none (H := collapse_host)); cbn; by rewrite Hen).
    split; [done|]. split; [intros; apply S1|]. split; [done|]. intros w. cbn. by rewrite Hen.
  - rewrite (Hr _ _ Hw). cbn [completed collapse_host]. 
    destruct (show_complete_spec (without_waits e p1) e k Hl) as (A1 & A2 & A3 & A4 & _).
    set (r1 := show_complete e (without_waits e p1)) in *. clearbody r1. cbv zeta.
    split; [split; [exact A1|]|split; [|split; [exact A3|]]].
    + unfold waits. cbn. rewrite A4. apply without_waits_none.
    + intros e' Hne. eapply same_at_trans; [apply S1|]. eapply same_at_trans; [by apply (without_waits_same e)|]. by apply A2.
    + intros w. cbn. rewrite A4. apply Hsub.
  - rewrite (Hr _ _ Hw). cbn [completed collapse_host].
    destruct (hide_complete_spec (without_waits e p1) e k Hl) as (A1 & A2 & A3 & A4 & _).
    set (r1 := hide_complete e (without_waits e p1)) in *. clearbody r1. cbv zeta.
    split; [split; [exact A1|]|split; [|split; [exact A3|]]].
    + unfold waits. cbn. rewrite A4. apply without_waits_none.
    + intros e' Hne. eapply same_at_trans; [apply S1|]. eapply same_at_trans; [by apply (without_waits_same e)|]. by apply A2.
    + intros w. cbn. rewrite A4. apply Hsub.
Qed.

Definition ended (s : status) : status := match s with Showing _ => Open | Hiding _ => Shut | s => s end.

Lemma does_finish p st e en :
  does p st -> (e < n)%nat -> waiting en = waiting (p_ends p) ->
  ends_ok (p_ends (transition_end e (p <| p_ends := en |>))) ->
  does (transition_end e (p <| p_ends := en |>)) (put e (ended (st e)) st).
Proof.
  intros Hp He Hen Hok. pose proof (finish_spec p st e en Hp He Hen) as (A & B & C & D). cbv zeta in *.
  set (p1 := p <| p_ends := en |>) in *. set (r := transition_end e p1) in *. 
  assert (fits r e (ended (st e))) as Hr.
  { destruct (st e) eqn:Es; cbn [ended]; try exact A.
    - rewrite A. apply (fits_same p); [|rewrite <- Es; by apply (do_fits p st Hp)].
      unfold same_at, waits, p1. cbn. by rewrite Hen.
    - rewrite A. apply (fits_same p); [|rewrite <- Es; by apply (do_fits p st Hp)].
      unfold same_at, waits, p1. cbn. by rewrite Hen. }
  clearbody r. destruct Hp as [E F G R]. split; [congruence|done| |].
  - intros x Hx. unfold put. destruct (decide (x = e)) as [->|Hne]; [done|].
    apply (fits_same p); [by apply B|by apply G].
  - intros w Hw%D. by apply R.
Qed.

Lemma one_open_ended e st : one_open st -> one_open (put e (ended (st e)) st).
Proof.
  intros Ho. assert (forall x, opening (put e (ended (st e)) st x) = true -> opening (st x) = true) as Hop.
  { intros x. unfold put. case_decide; [subst|done]. by destruct (st e). }
  intros x y Hx Hy H1 H2. apply Ho; auto.
Qed.

Lemma p_ends_same p : p <| p_ends := p_ends p |> = p.
Proof. by destruct p. Qed.

Lemma accordion_ok_transition_end e p : ok p -> ok (transition_end e p).
Proof.
  intros (st & Hp & Ho).
  pose proof (transition_end_ok (H := collapse_host) e p collapse_only_awaits (do_ends p st Hp)) as Hok.
  destruct (decide (e < n)%nat) as [He|He].
  - exists (put e (ended (st e)) st). split; [|by apply one_open_ended].
    pose proof (does_finish p st e (p_ends p) Hp He eq_refl) as H. rewrite p_ends_same in H. by apply H.
  - rewrite (transition_end_other (H := collapse_host)); [by exists st|].
    intros w Hw Ew. apply He. rewrite <- Ew. by apply (do_range p st Hp).
Qed.

Lemma accordion_ok_end_timer m p : ok p -> ok (end_timer m p).
Proof.
  intros (st & Hp & Ho). pose proof (do_ends p st Hp) as Hen.
  pose proof (end_timer_ok (H := collapse_host) m p collapse_only_awaits Hen) as Hok.
  destruct (list_find (fun w => w.1 = m) (timers (p_ends p))) as [[i [m' e]]|] eqn:Ef.
  2: { unfold end_timer. cbn [the_ends collapse_host]. rewrite Ef. by exists st. }
  pose proof Ef as (Ei & Em & _)%list_find_Some. cbn in Em. subst m'.
  destruct (decide (m ∈ called (p_ends p))) as [Hm|Hm].
  - revert Hok. unfold end_timer. cbn [the_ends put_ends collapse_host]. rewrite Ef, decide_True by done.
    intros Hok. exists st. split; [|done]. destruct Hp as [A B C R]. split; [done|done| |done].
    intros x Hx. by apply (fits_same p), C.
  - pose proof (eo_live _ _ _ Hen m e (list_elem_of_lookup_2 _ _ _ Ei) Hm) as Hw. rewrite app_nil_r in Hw.
    pose proof (do_range p st Hp _ Hw) as He. cbn in He.
    pose proof (end_timer_live (H := collapse_host) e m p Hen Hw Hm) as El. cbn [the_ends put_ends collapse_host] in El.
    cbn [the_ends collapse_host] in Hok. rewrite El in Hok |- *.
    exists (put e (ended (st e)) st). split; [by apply does_finish|by apply one_open_ended].
Qed.

Lemma accordion_ok_act a p : ok p -> keeps a -> ok (act a p).
Proof.
  intros Hp Ha. destruct a as [[m|b] e|t opts|e|m]; cbn [Collapse.act].
  - destruct (decide _) as [He|]; [|done]. destruct Hp as (st & Hp & Ho).
    rewrite (do_els p st Hp) in He. apply accordion_ok_interface; [by exists st|done|]. by intros ->.
  - destruct (decide _) as [He|]; [|done]. pose proof Hp as (st & Hd & Ho). rewrite (do_els p st Hd) in He.
    unfold jQueryInterface. by rewrite (ok_data e p Hp He).
  - unfold click. pose proof (Htargets t) as Ht. revert p Hp. induction (targets_of targets t) as [|e l IH]; intros p Hp; [done|].
    cbn [fold_left]. assert ((e < n)%nat) as He by (apply Ht; by constructor).
    rewrite (ok_data e p Hp He). apply IH; [intros x Hx; by apply Ht, list_elem_of_further|]. by apply accordion_ok_interface.
  - by apply accordion_ok_transition_end.
  - by apply accordion_ok_end_timer.
Qed.

(** An accordion of [n] elements with an instance each, of which [first] may be open. *)
Definition accordion (first : option nat) (cs : list control) : page :=
  let st e := if decide (first = Some e) then Open else Shut in
  mk_page ((fun e => element_of (st e) e Auto) <$> seq 0 n)
    ((fun e => mk_instance e false (Some q) (own e) false) <$> seq 0 n) cs no_ends [].

Lemma fmap_seq_lookup {A} (f : nat -> A) i : (i < n)%nat -> (f <$> seq 0 n) !! i = Some (f i).
Proof. intros Hi. rewrite list_lookup_fmap. by rewrite (proj2 (lookup_seq 0 n i i)). Qed.

Lemma ok_accordion first cs : ok (accordion first cs).
Proof.
  set (st e := if decide (first = Some e) then Open else Shut).
  assert (forall e, moving (st e) = false) as Hm by (intros e; unfold st; by case_decide).
  exists st. split.
  - split.
    + cbn. by rewrite length_fmap, length_seq.
    + apply no_ends_ok.
    + intros e He. split; [split|].
      * exists Auto. cbn. by rewrite fmap_seq_lookup.
      * cbn. by rewrite fmap_seq_lookup, Hm.
      * unfold st. by case_decide.
    + by intros w ?%elem_of_nil.
  - intros x y Hx Hy. unfold st. repeat case_decide; try done. intros _ _. congruence.
Qed.

Definition run (l : list caction) (p : page) : page := fold_left (fun p a => act a p) l p.

Lemma accordion_ok_run l p : ok p -> Forall keeps l -> ok (run l p).
Proof. intros Hp Hl. revert p Hp. induction Hl as [|a l Ha Hl IH]; intros p Hp; [done|]. by apply IH, accordion_ok_act. Qed.

(** What the classes of an element say. *)
Definition collapsing (p : page) (e : nat) : bool :=
  match els p !! e with Some x => c_collapsing x | None => false end.

(** C5. On a page whose listeners prevent no event, an accordion whose elements have their
    instances, none of which is disposed of, shows at most one of them after any calls, clicks
    and ends of transitions; an element is collapsing exactly while an end is awaited, and shown
    at no such time. *)
Theorem accordion_one_shown first cs l :
  Forall keeps l ->
  let p := run l (accordion first cs) in
  (forall e e', shown p e = true -> shown p e' = true -> e = e') /\
  (forall e, (e < n)%nat -> (collapsing p e = true <-> waits p e <> []) /\
    (collapsing p e = true -> shown p e = false /\ transitioning p e = true)).
Proof.
  intros Hl p. assert (ok p) as (st & Hp & Ho) by (apply accordion_ok_run; [apply ok_accordion|done]). clearbody p.
  assert (forall e, shown p e = true -> (e < n)%nat) as Hlt.
  { intros e. unfold shown. destruct (els p !! e) eqn:E; [|done]. intros _.
    apply lookup_lt_Some in E. by rewrite (do_els p st Hp) in E. }
  split.
  - intros e e' H1 H2. pose proof (Hlt e H1) as He. pose proof (Hlt e' H2) as He'. apply Ho; [done|done|..].
    + rewrite (fits_shown p e (st e) (do_fits p st Hp e He)) in H1. by destruct (st e).
    + rewrite (fits_shown p e' (st e') (do_fits p st Hp e' He')) in H2. by destruct (st e').
  - intros e He. pose proof (do_fits p st Hp e He) as Hf.
    rewrite (fits_shown p e _ Hf), (fits_transitioning p e _ Hf), (fi_waits p e _ Hf).
    destruct Hf as [[[z E] _] _]. unfold collapsing. rewrite E. by destruct (st e).
Qed.

(** Asked to show while nothing moves, an element of the accordion is open once its
    transition has ended, and it alone. *)
Theorem accordion_shows first cs l e :
  Forall keeps l -> (e < n)%nat ->
  let p := run l (accordion first cs) in
  waiting (p_ends p) = [] ->
  let p' := run [Call (inl MShow) e; TransitionEnd e] p in
  shown p' e = true /\ collapsing p' e = false /\ forall e', e' <> e -> shown p' e' = false.
Proof.
  intros Hl He p Hw p'. assert (ok p) as Hp by (apply accordion_ok_run; [apply ok_accordion|done]).
  assert (ok p') as (st' & Hp' & Ho') by (apply accordion_ok_run; [done|by repeat constructor]).
  clearbody p. destruct Hp as (st & Hp & Ho).
  assert (forall x, (x < n)%nat -> moving (st x) = false) as Hm.
  { intros x Hx. pose proof (fi_waits p x _ (do_fits p st Hp x Hx)) as Hwx. unfold waits in Hwx. rewrite Hw in Hwx.
    cbn in Hwx. by destruct (st x). }
  assert (shown p' e = true /\ collapsing p' e = false) as [H1 H2].
  { unfold p'. cbn [run fold_left Collapse.act]. rewrite decide_True by (by rewrite (do_els p st Hp)).
    unfold jQueryInterface. rewrite (ok_data e p (ex_intro _ st (conj Hp Ho)) He). cbn [call].
    destruct (show_spec p st e Hp Ho He) as [[-> Hsh]|(st1 & D & E & F)].
    - assert (st e = Open) as Es.
      { destruct Hsh as [Hs|(a & Ha & Hma)].
        - pose proof (Hm e He). by destruct (st e).
        - assert (a ∈ actives inside q p) as [Han _]%(elem_of_actives p st a Hp)
            by (destruct (actives inside q p); [done|]; injection Ha as ->; by constructor).
          by rewrite Hm in Hma. }
      pose proof (do_fits p st Hp e He) as Hf. rewrite Es in Hf.
      rewrite (transition_end_none (H := collapse_host)) by apply (fi_waits p e _ Hf).
      rewrite (fits_shown p e _ Hf). destruct Hf as [[[z Ee] _] _]. unfold collapsing. by rewrite Ee.
    - set (p1 := show e e p) in *. pose proof (finish_spec p1 st1 e (p_ends p1) D He eq_refl) as (A & _).
      rewrite p_ends_same in A. cbv zeta in A.
      assert (fits (transition_end e p1) e Open) as Hf.
      { destruct supports; [|rewrite E in A].
        - destruct (st1 e); done.
        - rewrite A. rewrite <- E. by apply (do_fits p1 st1 D). }
      rewrite (fits_shown _ e _ Hf). destruct Hf as [[[z Ee] _] _]. unfold collapsing. by rewrite Ee. }
  split; [done|]. split; [done|]. intros e' Hne. destruct (shown p' e') eqn:Es; [|done].
  assert ((e' < n)%nat) as He'.
  { unfold shown in Es. destruct (els p' !! e') eqn:E; [|done]. apply lookup_lt_Some in E. by rewrite (do_els p' st' Hp') in E. }
  destruct Hne. apply Ho'; [done|done| |].
  - rewrite (fits_shown p' e' (st' e') (do_fits p' st' Hp' e' He')) in Es. by destruct (st' e').
  - rewrite (fits_shown p' e (st' e) (do_fits p' st' Hp' e He)) in H1. by destruct (st' e).
Qed.
End flow.

(** ** Runs

    The theorems of [BsCollapseFlow] at concrete inputs, and an accordion as a page
    loads it, without instances, in which two elements stay open. *)


Definition yes : cevent -> bool := fun _ => true.
Definition anywhere (q e : nat) : bool := true.
Definition tall (e : nat) : Z := 120.

(** Three elements with a control each, inside the parent 7. *)
Definition three_targets : list (list nat) := [[0]; [1]; [2]]%nat.
Definition self (e : nat) : list nat := [e].

Abbreviation steps := (run yes true three_targets (fun _ => [0; 1; 2]%nat) anywhere tall tall).
Abbreviation loaded := (accordion 3 7 self (Some 0%nat) (repeat (mk_control false None) 3)).

Lemma self_inv e x : x ∈ self e -> x = e.
Proof. by intros ->%list_elem_of_singleton. Qed.

Lemma three_targets_lt t e : e ∈ targets_of three_targets t -> (e < 3)%nat.
Proof. destruct t as [|[|[|t]]]; cbn; [intros ->%list_elem_of_singleton; lia..|by intros ?%elem_of_nil]. Qed.

(** The second is opened, the third is clicked too early and again at rest. *)
Definition usage : list caction :=
  [Click 1 (true, None); Click 2 (true, None); TransitionEnd 1; EndTimer 0; Click 2 (true, None); Call (inl MHide) 1].

Example accordion_one_shown_witness :
  let p := steps usage loaded in
  (forall e e', shown p e = true -> shown p e' = true -> e = e') /\
  (forall e, (e < 3)%nat -> (collapsing p e = true <-> waits p e <> []) /\
    (collapsing p e = true -> shown p e = false /\ transitioning p e = true)).
Proof.
  apply (accordion_one_shown yes (fun _ => eq_refl) true three_targets (fun _ => [0; 1; 2]%nat) anywhere
    tall tall 3 7 (fun _ => eq_refl) self self_inv three_targets_lt (Some 0%nat)).
  by repeat constructor.
Defined.

Example accordion_usage_run :
  let p := steps usage loaded in
  shown p <$> [0; 1; 2]%nat = [false; false; false] /\ collapsing p <$> [0; 1; 2]%nat = [false; true; true] /\
  told p = [EvShow 1; EvHide 0; EvShown 1; EvHidden 0; EvShow 2; EvHide 1]%nat /\
  controls p = [mk_control true (Some false); mk_control true (Some false); mk_control false (Some true)].
Proof. by vm_compute. Qed.

Example accordion_shows_witness :
  let p := steps [Call (inl MShow) 2%nat; TransitionEnd 2] (steps [Call (inl MToggle) 0%nat; TransitionEnd 0] loaded) in
  shown p 2 = true /\ collapsing p 2 = false /\ forall e', e' <> 2%nat -> shown p e' = false.
Proof.
  apply (accordion_shows yes (fun _ => eq_refl) true three_targets (fun _ => [0; 1; 2]%nat) anywhere
    tall tall 3 7 (fun _ => eq_refl) self self_inv three_targets_lt (Some 0%nat));
    [by repeat constructor|lia|by vm_compute].
Defined.

(** *** The accordion as the page loads it

    No element has an instance.  The open one gets one from the first click, to be
    hidden, and the field [DATA_KEY] of the active elements is cleared when the first of
    them had none: so what moves is not known to move, and a second click during the
    transition opens a second element. *)
Definition unmade (b : bool) : element := mk_element true b false Auto (Some 7%nat) None.
Definition fresh : page := mk_page [unmade true; unmade false; unmade false] [] (repeat (mk_control false None) 3) no_ends [].

Example two_stay_open :
  let p := steps [Click 1 (true, Some 7%nat); Click 2 (true, Some 7%nat); TransitionEnd 0; TransitionEnd 1;
    TransitionEnd 2; EndTimer 0; EndTimer 1; EndTimer 2] fresh in
  shown p <$> [0; 1; 2]%nat = [false; true; true] /\ collapsing p <$> [0; 1; 2]%nat = [false; false; false] /\
  waiting (p_ends p) = [] /\ data_of p 1 = None.
Proof. by vm_compute. Qed.
