(* ===== verification/BsOptions.v ===== *)
(** * Bootstrap: the options of the components

    What the names of types mean, what [_getConfig] returns for the options a page gives,
    and which error it throws. *)

From S2P Require Export BsCarousel BsModal BsCollapse.

(** ** What the types mean *)

(** The type of a value by the name it has in a table. *)
Inductive has_type : cvalue -> string -> Prop :=
  | ty_undefined : has_type VUndef "undefined"
  | ty_null : has_type VNull "null"
  | ty_boolean b : has_type (VBool b) "boolean"
  | ty_number n : has_type (VNum n) "number"
  | ty_string s : has_type (VStr s) "string"
  | ty_element : has_type VElement "element"
  | ty_object : has_type VObject "object"
  | ty_function : has_type VFunction "function".

Definition type_names : list string :=
  ["undefined"; "null"; "boolean"; "number"; "string"; "element"; "object"; "function"]%string.

(** A table that lists, for each option, at least one of these names. *)
Definition names_types (types : configTypes) : Prop :=
  Forall (fun entry => Forall (fun t => t ∈ type_names) entry.2) types.

Definition allowed (v : cvalue) (ts : list string) : Prop := exists t, t ∈ ts /\ has_type v t.

(** All options of a table have one of their types. *)
Definition conforms (c : config) (types : configTypes) : Prop :=
  Forall (fun entry => allowed (option_of c entry.1) entry.2) types.

Lemma has_type_valueType v t : has_type v t <-> valueType v = t.
Proof. split; [by destruct 1|intros <-; destruct v; constructor]. Qed.

(** No name of a type is part of another. *)
Lemma names_apart : Forall (fun e => Forall (fun t => occurs e t = String.eqb e t) type_names) type_names.
Proof. unfold type_names. repeat first [apply Forall_nil_2 | apply Forall_cons; split]; vm_compute; reflexivity. Qed.

Lemma valueType_name v : valueType v ∈ type_names.
Proof. unfold type_names. destruct v; cbn; set_solver. Qed.

Lemma type_test_allowed ts v : Forall (fun t => t ∈ type_names) ts -> type_test ts (valueType v) = true <-> allowed v ts.
Proof.
  intros Hts. unfold type_test, allowed. rewrite existsb_exists. pose proof names_apart as Hn. rewrite Forall_forall in Hts, Hn.
  assert (forall e, e ∈ ts -> occurs e (valueType v) = String.eqb e (valueType v)) as He.
  { intros e Hin. specialize (Hn e (Hts e Hin)). rewrite Forall_forall in Hn. apply Hn, valueType_name. }
  split.
  - intros (e & Hin%list_elem_of_In & Ho). rewrite (He e Hin) in Ho. apply String.eqb_eq in Ho. exists e. split; [done|].
    by apply has_type_valueType.
  - intros (e & Hin & <-%has_type_valueType). exists (valueType v). split; [by apply list_elem_of_In|]. rewrite (He _ Hin). apply String.eqb_refl.
Qed.

(** The text of the error of an option [k] of the type [t]. *)
Definition type_error (name k t : string) (ts : list string) : string :=
  toUpperCase name +:+ ": Option " +:+ dq +:+ k +:+ dq +:+ " provided type " +:+ dq +:+ t +:+ dq
  +:+ " but expected type " +:+ dq +:+ expected ts +:+ dq +:+ ".".

(** The check stops at the first option of a wrong type. *)
Lemma typeCheckConfig_spec name c types : names_types types ->
  match typeCheckConfig name c types with
  | None => conforms c types
  | Some msg => exists before k ts after t, types = before ++ (k, ts) :: after /\ conforms c before /\
      ~ allowed (option_of c k) ts /\ has_type (option_of c k) t /\ msg = type_error name k t ts
  end.
Proof.
  induction types as [|[k ts] types IH]; cbn [typeCheckConfig]; [intros _; constructor|].
  intros [Hts Hty]%Forall_cons. specialize (IH Hty). cbn [fst snd] in Hts. pose proof (type_test_allowed ts (option_of c k) Hts) as Ht.
  cbv zeta. destruct (type_test ts _).
  - assert (allowed (option_of c k) ts) as Ha by by apply Ht. destruct (typeCheckConfig name c types) as [msg|].
    + destruct IH as (before & k' & ts' & after & t & -> & Hb & H). exists ((k, ts) :: before), k', ts', after, t.
      split; [done|]. split; [by apply Forall_cons|done].
    + by apply Forall_cons.
  - exists [], k, ts, types, (valueType (option_of c k)). split; [done|]. split; [constructor|]. split; [by rewrite <- Ht|].
    split; [by apply has_type_valueType|done].
Qed.

Lemma extend_lookup base over k :
  extend base over !! k = match over !! k with Some v => Some v | None => base !! k end.
Proof.
  etrans; [exact (lookup_union (M := gmap string) over base k)|].
  unfold config. by destruct ((over : gmap string cvalue) !! k), ((base : gmap string cvalue) !! k).
Qed.

(** C36. For a table of names of types [_getConfig] returns the options given and otherwise the
    defaults, when each option of the table has one of the types listed for it; if not, it throws, and
    names the first option that has none of its types, its own type and those expected. *)
Theorem getConfig_typed name defaults types c : names_types types ->
  match getConfig name defaults types c with
  | inl c' => conforms c' types /\
      forall k, c' !! k = match c !! k with Some v => Some v | None => defaults !! k end
  | inr msg => exists before k ts after t, types = before ++ (k, ts) :: after /\
      conforms (extend defaults c) before /\ ~ allowed (option_of (extend defaults c) k) ts /\
      has_type (option_of (extend defaults c) k) t /\ msg = type_error name k t ts
  end.
Proof.
  intros Hty. unfold getConfig. pose proof (typeCheckConfig_spec name (extend defaults c) types Hty) as H.
  destruct (typeCheckConfig _ _ _); [done|]. split; [done|]. intros k. apply extend_lookup.
Qed.

(** The option [pause] of a carousel given as a number. *)
Lemma getConfig_typed_witness :
  match getConfig "carousel" BsCarousel.Default BsCarousel.DefaultType {["pause" := VNum 3]} with
  | inl _ => False
  | inr msg => exists before k ts after t, BsCarousel.DefaultType = before ++ (k, ts) :: after /\
      conforms (extend BsCarousel.Default {["pause" := VNum 3]}) before /\
      ~ allowed (option_of (extend BsCarousel.Default {["pause" := VNum 3]}) k) ts /\
      has_type (option_of (extend BsCarousel.Default {["pause" := VNum 3]}) k) t /\ msg = type_error "carousel" k t ts
  end.
Proof.
  assert (names_types BsCarousel.DefaultType) as H
    by (unfold names_types, BsCarousel.DefaultType, type_names; repeat first [apply Forall_nil_2 | apply Forall_cons; split]; cbn; set_solver).
  exact (getConfig_typed "carousel" BsCarousel.Default BsCarousel.DefaultType {["pause" := VNum 3]} H).
Defined.

(** The defaults of the components are of their own types, and the check of collapse
    lets any [toggle] pass. *)
Example defaults_pass :
  getConfig "carousel" BsCarousel.Default BsCarousel.DefaultType ∅ = inl BsCarousel.Default /\
  getConfig "modal" Modal.Default Modal.DefaultType ∅ = inl Modal.Default /\
  Collapse.Collapse_getConfig ∅ = inl Collapse.Default.
Proof. split_and!; vm_compute; reflexivity. Qed.

Example wrong_option :
  getConfig "carousel" BsCarousel.Default BsCarousel.DefaultType {["pause" := VNum 3]} =
  inr ("CAROUSEL: Option " +:+ dq +:+ "pause" +:+ dq +:+ " provided type " +:+ dq +:+ "number" +:+ dq
       +:+ " but expected type " +:+ dq +:+ "(string|boolean)" +:+ dq +:+ ".").
Proof. by vm_compute. Qed.
