(* ===== verification/BsDom.v ===== *)
(** * Documents

    The tree of a page as the components of Bootstrap see it that look for elements
    around their own: nodes with a name, classes and attributes, numbered in document
    order, so that a parent comes before its children.  The node 0 is the document
    itself.  The operations are those of jQuery and of the language that the components
    call; the shape of the tree does not change. *)

From S2P Require Export BsUtil.

Record node := mk_node {
  nodeName : string; up : option nat; classes : list string; attrs : list (string * string);
}.
#[export] Instance node_eta : Settable node := fun x => mk_node (nodeName x) (up x) (classes x) (attrs x).

Abbreviation dom := (list node).

Definition has (c : string) (x : node) : bool := existsb (String.eqb c) (classes x).
Definition put_class (c : string) (x : node) : node :=
  if has c x then x else x <| classes := classes x ++ [c] |>.
Definition drop_class (c : string) (x : node) : node := x <| classes := filter (fun c' => c' <> c) (classes x) |>.

Fixpoint attribute (k : string) (l : list (string * string)) : option string :=
  match l with
  | [] => None
  | (k', v) :: l => if String.eqb k k' then Some v else attribute k l
  end.
Fixpoint put_attribute (k v : string) (l : list (string * string)) : list (string * string) :=
  match l with
  | [] => [(k, v)]
  | (k', v') :: l => if String.eqb k k' then (k, v) :: l else (k', v') :: put_attribute k v l
  end.

(** ** On a node of the document *)

Definition hasClass (d : dom) (c : string) (i : nat) : bool :=
  match d !! i with Some x => has c x | None => false end.
Definition addClass (c : string) (i : nat) (d : dom) : dom := alter (put_class c) i d.
Definition removeClass (c : string) (i : nat) (d : dom) : dom := alter (drop_class c) i d.
Definition toggleClass (c : string) (b : bool) (i : nat) (d : dom) : dom :=
  if b then addClass c i d else removeClass c i d.
Definition addClasses (c : string) (l : list nat) (d : dom) : dom := fold_left (fun d i => addClass c i d) l d.
Definition removeClasses (c : string) (l : list nat) (d : dom) : dom :=
  fold_left (fun d i => removeClass c i d) l d.

Definition getAttribute (d : dom) (k : string) (i : nat) : option string :=
  x ← d !! i; attribute k (attrs x).
Definition setAttribute (k v : string) (i : nat) (d : dom) : dom :=
  alter (fun x => x <| attrs := put_attribute k v (attrs x) |>) i d.

Definition is_a (d : dom) (name : string) (i : nat) : bool :=
  match d !! i with Some x => String.eqb (nodeName x) name | None => false end.

(** ** Looking around *)

Definition parent (d : dom) (i : nat) : option nat := x ← d !! i; up x.

Fixpoint ancestors_fuel (fuel : nat) (d : dom) (i : nat) : list nat :=
  match fuel with
  | O => []
  | S fuel => match parent d i with Some p => p :: ancestors_fuel fuel d p | None => [] end
  end.

(** The nearest first; the number of a node bounds how many there are. *)
Definition ancestors (d : dom) (i : nat) : list nat := ancestors_fuel i d i.

Definition closest (p : nat -> bool) (d : dom) (i : nat) : option nat :=
  head (List.filter p (i :: ancestors d i)).

Definition inside (d : dom) (root i : nat) : bool := existsb (Nat.eqb root) (ancestors d i).
Definition nodes (d : dom) : list nat := seq 0 (length d).

(** [find] and [children], in document order. *)
Definition find (p : nat -> bool) (d : dom) (root : nat) : list nat :=
  List.filter (fun i => inside d root i && p i) (nodes d).
Definition children (d : dom) (i : nat) : list nat :=
  List.filter (fun j => bool_decide (parent d j = Some i)) (nodes d).

(** The element before [i] among the children of its parent. *)
Definition prev_sibling (d : dom) (i : nat) : option nat :=
  p ← parent d i; last (List.filter (fun j => (j <? i)%nat) (children d p)).

(** Parents come first. *)
Definition well_formed (d : dom) : Prop := forall i p, parent d i = Some p -> (p < i)%nat.

Lemma ancestors_fuel_enough d n m i :
  well_formed d -> (i <= n)%nat -> (i <= m)%nat -> ancestors_fuel n d i = ancestors_fuel m d i.
Proof.
  intros Hd. revert m i. induction n as [|n IH]; intros [|m] i Hn Hm; cbn; try done.
  - destruct (parent d i) eqn:E; [|done]. apply Hd in E. lia.
  - destruct (parent d i) eqn:E; [|done]. apply Hd in E. lia.
  - destruct (parent d i) eqn:E; [|done]. apply Hd in E. f_equal. apply IH; lia.
Qed.

(** The fuel is enough: the ancestors of a node are its parent and that one's. *)
Lemma ancestors_step d i :
  well_formed d -> ancestors d i = match parent d i with Some p => p :: ancestors d p | None => [] end.
Proof.
  intros Hd. unfold ancestors at 1. destruct i as [|i]; cbn [ancestors_fuel].
  - destruct (parent d 0) eqn:E; [|done]. apply Hd in E. lia.
  - destruct (parent d (S i)) eqn:E; [|done]. apply Hd in E. f_equal. apply ancestors_fuel_enough; [done|lia..].
Qed.

(** ** Documents that differ in some classes and attributes only

    What a search finds depends on the shape and on the classes it asks for: a component
    that changes other classes does not change what it finds. *)

Section alike.
Context (cs ks : list string).

Record node_alike (x y : node) : Prop := {
  na_name : nodeName x = nodeName y;
  na_up : up x = up y;
  na_class : forall c, c ∉ cs -> has c x = has c y;
  na_attr : forall k, k ∉ ks -> attribute k (attrs x) = attribute k (attrs y);
}.

Definition alike (d d' : dom) : Prop := Forall2 node_alike d d'.

#[export] Instance node_alike_equivalence : Equivalence node_alike.
Proof.
  split.
  - by split.
  - intros x y [A B C D]. split; [done|done|intros c Hc; by rewrite C|intros k Hk; by rewrite D].
  - intros x y z [A B C D] [A' B' C' D']. split; [congruence|congruence|..].
    + intros c Hc. by rewrite C, C'.
    + intros k Hk. by rewrite D, D'.
Qed.

#[export] Instance alike_equivalence : Equivalence alike.
Proof.
  split.
  - intros d. apply Forall2_same_length_lookup. split; [done|]. intros i x y -> [= ->]. reflexivity.
  - intros d d' H. induction H; constructor; [by symmetry|done].
  - intros d1 d2 d3 H. revert d3. induction H as [|x y d1 d2 Hx Hd IH]; intros d3 H3; inversion H3; subst; constructor.
    + by etrans.
    + by apply IH.
Qed.

Lemma alike_lookup d d' i :
  alike d d' -> (d !! i = None /\ d' !! i = None) \/ exists x y, d !! i = Some x /\ d' !! i = Some y /\ node_alike x y.
Proof.
  intros H. destruct (d !! i) as [x|] eqn:E.
  - destruct (Forall2_lookup_l _ _ _ _ _ H E) as (y & Ey & Hy). right. by exists x, y.
  - left. split; [done|]. apply lookup_ge_None. rewrite <- (Forall2_length _ _ _ H). by apply lookup_ge_None.
Qed.

Lemma alike_alter f i d : (forall x, node_alike x (f x)) -> alike d (alter f i d).
Proof.
  intros Hf. revert i. induction d as [|x d IH]; intros [|i]; cbn; constructor.
  - apply Hf.
  - change (alike d d). reflexivity.
  - reflexivity.
  - apply IH.
Qed.

#[export] Instance length_alike : Proper (alike ==> eq) (@length node).
Proof. intros d d'. apply Forall2_length. Qed.

#[export] Instance nodes_alike : Proper (alike ==> eq) nodes.
Proof. intros d d' H. unfold nodes. by rewrite H. Qed.

#[export] Instance parent_alike : Proper (alike ==> eq ==> eq) parent.
Proof.
  intros d d' H i _ <-. unfold parent. destruct (alike_lookup d d' i H) as [[-> ->]|(x & y & -> & -> & Hx)]; [done|].
  cbn. apply Hx.
Qed.

#[export] Instance is_a_alike : Proper (alike ==> eq ==> eq ==> eq) is_a.
Proof.
  intros d d' H name _ <- i _ <-. unfold is_a.
  destruct (alike_lookup d d' i H) as [[-> ->]|(x & y & -> & -> & Hx)]; [done|]. by rewrite (na_name _ _ Hx).
Qed.

#[export] Instance ancestors_alike : Proper (alike ==> eq ==> eq) ancestors.
Proof.
  intros d d' H i _ <-. unfold ancestors. generalize i at 1 3 as n. intros n. revert i.
  induction n as [|n IH]; intros i; cbn; [done|]. rewrite H. destruct (parent d' i); [|done]. by rewrite IH.
Qed.

#[export] Instance inside_alike : Proper (alike ==> eq ==> eq ==> eq) inside.
Proof. intros d d' H r _ <- i _ <-. unfold inside. by rewrite H. Qed.

#[export] Instance children_alike : Proper (alike ==> eq ==> eq) children.
Proof.
  intros d d' H i _ <-. unfold children. rewrite H. apply List.filter_ext. intros j.
  apply bool_decide_ext. by rewrite H.
Qed.

Lemma hasClass_alike d d' c i : alike d d' -> c ∉ cs -> hasClass d c i = hasClass d' c i.
Proof.
  intros H Hc. unfold hasClass. destruct (alike_lookup d d' i H) as [[-> ->]|(x & y & -> & -> & Hx)]; [done|].
  by apply Hx.
Qed.

Lemma getAttribute_alike d d' k i : alike d d' -> k ∉ ks -> getAttribute d k i = getAttribute d' k i.
Proof.
  intros H Hk. unfold getAttribute. destruct (alike_lookup d d' i H) as [[-> ->]|(x & y & -> & -> & Hx)]; [done|].
  cbn. by apply Hx.
Qed.

Lemma closest_alike p p' d d' i :
  alike d d' -> (forall j, p j = p' j) -> closest p d i = closest p' d' i.
Proof. intros H Hp. unfold closest. rewrite H. f_equal. by apply List.filter_ext. Qed.

Lemma find_alike p p' d d' i :
  alike d d' -> (forall j, p j = p' j) -> find p d i = find p' d' i.
Proof. intros H Hp. unfold find. rewrite H. apply List.filter_ext. intros j. by rewrite H, Hp. Qed.
End alike.

(** ** Reading after writing *)

Lemma has_put_class c c' x : has c (put_class c' x) = String.eqb c c' || has c x.
Proof.
  unfold put_class. destruct (has c' x) eqn:E.
  - destruct (String.eqb_spec c c') as [->|]; [by rewrite E|done].
  - unfold has. cbn. rewrite existsb_app. cbn. rewrite orb_false_r. apply orb_comm.
Qed.

Lemma has_drop_class c c' x : has c (drop_class c' x) = negb (String.eqb c c') && has c x.
Proof.
  unfold has, drop_class. change (existsb (String.eqb c) (filter (fun c1 => c1 <> c') (classes x)) =
    negb (String.eqb c c') && existsb (String.eqb c) (classes x)).
  induction (classes x) as [|a l IH]; [by rewrite andb_false_r|]. rewrite filter_cons. destruct (decide (a <> c')) as [Ha|Ha]; cbn; rewrite IH.
  - destruct (String.eqb_spec c a) as [->|]; cbn; [|done].
    by rewrite (proj2 (String.eqb_neq a c')).
  - apply dec_stable in Ha as ->. by destruct (String.eqb c c').
Qed.

Lemma attribute_put k k' v l : attribute k (put_attribute k' v l) = if String.eqb k k' then Some v else attribute k l.
Proof.
  induction l as [|[k1 v1] l IH]; cbn; [done|].
  destruct (String.eqb_spec k' k1) as [->|Hne]; cbn; [by destruct (String.eqb k k1)|].
  rewrite IH. destruct (String.eqb_spec k k1) as [->|]; [|done].
  by rewrite (proj2 (String.eqb_neq k1 k')).
Qed.

Section classes.
Implicit Types d : dom.

Lemma hasClass_addClass d c c' i j :
  (j < length d)%nat -> hasClass (addClass c' j d) c i = (String.eqb c c' && (i =? j)%nat) || hasClass d c i.
Proof.
  intros Hj. unfold hasClass, addClass. destruct (Nat.eqb_spec i j) as [->|Hne].
  - rewrite list_lookup_alter_eq. destruct (lookup_lt_is_Some_2 d j Hj) as [x ->]. cbn. rewrite has_put_class.
    by rewrite andb_true_r.
  - rewrite list_lookup_alter_ne by done. by rewrite andb_false_r.
Qed.

Lemma hasClass_removeClass d c c' i j :
  hasClass (removeClass c' j d) c i = negb (String.eqb c c' && (i =? j)%nat) && hasClass d c i.
Proof.
  unfold hasClass, removeClass. destruct (Nat.eqb_spec i j) as [->|Hne].
  - rewrite list_lookup_alter_eq, andb_true_r. destruct (d !! j); cbn; [apply has_drop_class|by rewrite andb_false_r].
  - rewrite list_lookup_alter_ne by done. by rewrite andb_false_r.
Qed.

Lemma hasClass_setAttribute d c k v i j : hasClass (setAttribute k v j d) c i = hasClass d c i.
Proof.
  unfold hasClass, setAttribute. destruct (decide (i = j)) as [->|Hne].
  - rewrite list_lookup_alter_eq. by destruct (d !! j).
  - by rewrite list_lookup_alter_ne.
Qed.

Lemma length_addClass d c i : length (addClass c i d) = length d.
Proof. apply length_alter. Qed.
Lemma length_removeClass d c i : length (removeClass c i d) = length d.
Proof. apply length_alter. Qed.
Lemma length_setAttribute d k v i : length (setAttribute k v i d) = length d.
Proof. apply length_alter. Qed.

Context (cs ks : list string).

Lemma alike_addClass c i d : c ∈ cs -> alike cs ks d (addClass c i d).
Proof.
  intros Hc. apply alike_alter. intros x. split; try (unfold put_class; by case_match).
  - intros c' Hc'. rewrite has_put_class. destruct (String.eqb_spec c' c) as [->|]; [done|done].
Qed.

Lemma alike_removeClass c i d : c ∈ cs -> alike cs ks d (removeClass c i d).
Proof.
  intros Hc. apply alike_alter. intros x. split; try done.
  intros c' Hc'. rewrite has_drop_class. destruct (String.eqb_spec c' c) as [->|]; [done|done].
Qed.

Lemma alike_setAttribute k v i d : k ∈ ks -> alike cs ks d (setAttribute k v i d).
Proof.
  intros Hk. apply alike_alter. intros x. split; try done.
  intros k' Hk'. cbn. rewrite attribute_put. destruct (String.eqb_spec k' k) as [->|]; [done|done].
Qed.
Lemma alike_addClasses c l d : c ∈ cs -> alike cs ks d (addClasses c l d).
Proof.
  intros Hc. unfold addClasses. revert d. induction l as [|i l IH]; intros d; cbn; [reflexivity|].
  etrans; [by apply alike_addClass|apply IH].
Qed.

Lemma alike_removeClasses c l d : c ∈ cs -> alike cs ks d (removeClasses c l d).
Proof.
  intros Hc. unfold removeClasses. revert d. induction l as [|i l IH]; intros d; cbn; [reflexivity|].
  etrans; [by apply alike_removeClass|apply IH].
Qed.

#[export] Instance prev_sibling_alike : Proper (alike cs ks ==> eq ==> eq) prev_sibling.
Proof.
  intros d d' H i _ <-. unfold prev_sibling. rewrite H. destruct (parent d' i); [|done]. cbn. by rewrite H.
Qed.

Lemma hasClass_addClasses d c l i :
  Forall (fun j => (j < length d)%nat) l ->
  hasClass (addClasses c l d) c i = existsb (Nat.eqb i) l || hasClass d c i.
Proof.
  unfold addClasses. revert d. induction l as [|j l IH]; intros d Hl; cbn; [done|].
  apply Forall_cons in Hl as [Hj Hl]. rewrite IH by by rewrite length_addClass.
  rewrite hasClass_addClass, String.eqb_refl by done. cbn. by destruct (existsb _ l), (i =? j)%nat.
Qed.

Lemma hasClass_removeClasses d c l i :
  hasClass (removeClasses c l d) c i = negb (existsb (Nat.eqb i) l) && hasClass d c i.
Proof.
  unfold removeClasses. revert d. induction l as [|j l IH]; intros d; cbn; [done|].
  rewrite IH, hasClass_removeClass, String.eqb_refl. cbn. by destruct (existsb _ l), (i =? j)%nat.
Qed.
End classes.
