(* ===== verification/BsTab.v ===== *)
(** * Bootstrap: tab.js

    Models [Tab] of [2019104233/src/scripts/bluelog/bluelog/static/js/bootstrap.js]:
    the tabs of a page and their panes, with the transition of a pane that fades, on the
    document of [BsDom].  What a selector finds is an argument, as is the escaping of
    identifiers; listeners of the page only allow or prevent. *)

From S2P Require Export BsDom.

Module Tab.

Inductive tevent :=
  | EvHide (on rel : nat) | EvShow (on : nat) (rel : option nat)
  | EvHidden (on : nat) (rel : option nat) | EvShown (on : nat) (rel : option nat) | Thrown.

(** The call of [_activate] on a pane that waits for the end of the transition of
    [w_active]: the callback of the instance [w_inst], with its [previous]. *)
Record pane_wait := mk_wait { w_element : nat; w_active : nat; w_previous : option nat; w_inst : nat }.

(** [t_insts] has the element of each instance, [None] once it is disposed of. *)
Record tabs := mk_tabs {
  doc : dom; t_insts : list (option nat); t_data : gmap nat nat; t_ends : ends nat pane_wait; told : list tevent;
}.
#[export] Instance tabs_eta : Settable tabs := fun t =>
  mk_tabs (doc t) (t_insts t) (t_data t) (t_ends t) (told t).

Definition create (d : dom) : tabs := mk_tabs d [] ∅ no_ends [].
Definition tell (ev : tevent) (t : tabs) : tabs := t <| told := told t ++ [ev] |>.
Definition on_doc (f : dom -> dom) (t : tabs) : tabs := t <| doc := f (doc t) |>.

Definition is_nav_list (d : dom) (i : nat) : bool := hasClass d "nav" i || hasClass d "list-group" i.

(** ['> li > .active'] inside [l]. *)
Definition active_ul (d : dom) (l : nat) : list nat :=
  find (fun i => hasClass d "active" i &&
          match parent d i with Some m => is_a d "LI" m && bool_decide (parent d m = Some l) | None => false end) d l.

(** ['> .dropdown-menu .active'] inside [p]. *)
Definition dropdown_active_child (d : dom) (p : nat) : list nat :=
  find (fun i => hasClass d "active" i &&
          existsb (fun m => hasClass d "dropdown-menu" m && bool_decide (parent d m = Some p)) (ancestors d i)) d p.

Section tab.
Context (escapeSelector : option (string -> string)) (query : string -> option (list nat)).
Context (allow : tevent -> bool) (supports : bool).

Definition finds (s : string) : option bool :=
  (fun l : list nat => match l with [] => false | _ => true end) <$> query s.

Definition selector_of (d : dom) (e : nat) : option string :=
  getSelectorFromElement escapeSelector finds (getAttribute d "data-target" e) (getAttribute d "href" e).

(** [$(selector)[0]]. *)
Definition first_of (s : string) : option nat := l ← query s; head l.

(** ** Changing the classes *)

Definition deactivate (a : nat) (d : dom) : dom :=
  let d := removeClass "active" a (removeClass "show" a d) in
  let d := match p ← parent d a; head (dropdown_active_child d p) with
           | Some c => removeClass "active" c d
           | None => d
           end in
  if bool_decide (getAttribute d "role" a = Some "tab") then setAttribute "aria-selected" "false" a d else d.

Definition activate_element (e : nat) (d : dom) : dom :=
  let d := addClass "active" e d in
  let d := if bool_decide (getAttribute d "role" e = Some "tab") then setAttribute "aria-selected" "true" e d else d in
  let d := addClass "show" e d in
  if match parent d e with Some p => hasClass d "dropdown-menu" p | None => false end then
    let d := match closest (hasClass d "dropdown") d e with
             | Some m => addClasses "active" (find (hasClass d "dropdown-toggle") d m) d
             | None => d
             end in
    setAttribute "aria-expanded" "true" e d
  else d.

(** [_transitionComplete] without its callback. *)
Definition change (e : nat) (a : option nat) (d : dom) : dom :=
  activate_element e (match a with Some a => deactivate a d | None => d end).

(** The function [complete] of [show]. *)
Definition shown_complete (previous : option nat) (i : nat) (t : tabs) : tabs :=
  let element := default None (t_insts t !! i) in
  let t := match previous with Some p => tell (EvHidden p element) t | None => t end in
  match element with Some e => tell (EvShown e previous) t | None => t end.

Definition transitionComplete (e : nat) (a : option nat) (callback : tabs -> tabs) (t : tabs) : tabs :=
  callback (on_doc (change e a) t).

#[export] Instance tab_host : ends_host nat pane_wait tabs := {
  the_ends := t_ends;
  put_ends en t := t <| t_ends := en |>;
  completed w := transitionComplete (w_element w) (Some (w_active w)) (shown_complete (w_previous w) (w_inst w));
}.

(** The active element [_activate] finds in its container. *)
Definition active_in (d : dom) (container : nat) : option nat :=
  head (if is_a d "UL" container then active_ul d container
        else List.filter (hasClass d "active") (children d container)).

(** [_activate] of the element of the instance, in its list. *)
Definition activate_tab (e container : nat) (t : tabs) : tabs :=
  on_doc (change e (active_in (doc t) container)) t.

(** [_activate] of the target. *)
Definition activate_pane (e container : nat) (previous : option nat) (i : nat) (t : tabs) : tabs :=
  let active := active_in (doc t) container in
  match active with
  | Some a =>
      if supports && hasClass (doc t) "fade" a
      then t <| t_ends := await a (mk_wait e a previous i) (t_ends t) |>
      else transitionComplete e active (shown_complete previous i) t
  | None => transitionComplete e active (shown_complete previous i) t
  end.

(** ** Showing a tab *)

(** [this._element.parentNode] is an element. *)
Definition parent_is_element (d : dom) (e : nat) : bool :=
  match parent d e with Some p => negb (p =? 0)%nat | None => false end.

Definition previous_of (d : dom) (listElement : option nat) : option nat :=
  l ← listElement; last (if is_a d "UL" l then active_ul d l else find (hasClass d "active") d l).

Definition show (i e : nat) (t : tabs) : tabs :=
  let d := doc t in
  if (parent_is_element d e && hasClass d "active" e) || hasClass d "disabled" e then t
  else
    let listElement := closest (is_nav_list d) d e in
    let selector := selector_of d e in
    let previous := previous_of d listElement in
    let t := match previous with Some p => tell (EvHide p e) t | None => t end in
    let t := tell (EvShow e previous) t in
    if negb (allow (EvShow e previous)) || match previous with Some p => negb (allow (EvHide p e)) | None => false end
    then t
    else
      let target := s ← selector; first_of s in
      match listElement with
      | None => tell Thrown t
      | Some l =>
          let t := activate_tab e l t in
          match target with
          | None => shown_complete previous i t
          | Some p =>
              match parent d p with
              | Some container => activate_pane p container previous i t
              | None => tell Thrown t
              end
          end
      end.

Definition dispose (i e : nat) (t : tabs) : tabs :=
  t <| t_data := delete e (t_data t) |> <| t_insts := <[i := None]> (t_insts t) |>.

Inductive method := MShow | MDispose | MUnknown.

(** [_jQueryInterface] on one element. *)
Definition jQueryInterface (m : option method) (e : nat) (t : tabs) : tabs :=
  let fresh := length (t_insts t) in
  let i := default fresh (t_data t !! e) in
  let t := match t_data t !! e with
           | Some _ => t
           | None => t <| t_insts := t_insts t ++ [Some e] |> <| t_data := <[e := fresh]> (t_data t) |>
           end in
  match m with
  | Some MShow => show i e t
  | Some MDispose => dispose i e t
  | Some MUnknown => tell Thrown t
  | None => t
  end.

(** What happens on a page; a click is on a control. *)
Inductive taction := Call (m : option method) (e : nat) | Click (e : nat) | TransitionEnd (e : nat) | EndTimer (n : nat).

Definition act (a : taction) (t : tabs) : tabs :=
  match a with
  | Call m e => if decide (e < length (doc t))%nat then jQueryInterface m e t else t
  | Click e => if decide (e < length (doc t))%nat then jQueryInterface (Some MShow) e t else t
  | TransitionEnd e => transition_end e t
  | EndTimer n => end_timer n t
  end.
End tab.
End Tab.
