(* ===== verification/BsTabFlow.v ===== *)
(** * Bootstrap: tab.js, its properties

    In a list of tabs with a pane each, in a document without drop-down menus, exactly
    one tab is active, and at rest its pane is the active one, as long as no tab is
    asked for while a pane fades. *)

From S2P Require Export BsEnds BsTab.
Import Tab.

#[export] Instance tab_laws : ends_laws nat pane_wait tabs.
Proof. split; [done|by intros []]. Qed.

Lemma shown_complete_frame previous i t :
  let t' := shown_complete previous i t in
  doc t' = doc t /\ t_ends t' = t_ends t /\ t_data t' = t_data t /\ t_insts t' = t_insts t.
Proof. unfold shown_complete. destruct (default None (t_insts t !! i)), previous; done. Qed.

Lemma complete_ends e a previous i en t :
  transitionComplete e a (shown_complete previous i) (t <| t_ends := en |>) =
  transitionComplete e a (shown_complete previous i) t <| t_ends := en |>.
Proof.
  unfold transitionComplete, shown_complete. cbn.
  by destruct (default None (t_insts t !! i)), previous.
Qed.

Lemma tab_only_awaits : only_awaits (S := tabs).
Proof.
  intros w t X P Ht. cbn. unfold transitionComplete.
  by rewrite (proj1 (proj2 (shown_complete_frame _ _ _))).
Qed.

(** The classes and attributes [Tab] changes. *)
Definition tab_classes : list string := ["active"; "show"]%string.
Definition tab_attrs : list string := ["aria-selected"; "aria-expanded"]%string.
Abbreviation similar := (alike tab_classes tab_attrs).

Ltac not_in := by intros ?; repeat match goal with H : _ ∈ _ |- _ => apply elem_of_cons in H as [H|H] || by apply elem_of_nil in H end.

(** The links of a list: the children of its items. *)
Definition links (d : dom) (l : nat) : list nat :=
  find (fun i => match parent d i with Some m => is_a d "LI" m && bool_decide (parent d m = Some l) | None => false end) d l.

Lemma filter_filter {A} (p q : A -> bool) l :
  List.filter p (List.filter q l) = List.filter (fun x => q x && p x) l.
Proof. induction l as [|x l IH]; cbn; [done|]. destruct (q x); cbn; [destruct (p x)|]; by rewrite ?IH. Qed.

Lemma active_ul_links d l : active_ul d l = List.filter (hasClass d "active") (links d l).
Proof.
  unfold active_ul, links, find. rewrite filter_filter. apply List.filter_ext. intros i.
  rewrite <- andb_assoc. f_equal. apply andb_comm.
Qed.

Lemma ul_links_similar d d' l : similar d d' -> links d l = links d' l.
Proof.
  intros H. apply (find_alike tab_classes tab_attrs); [done|]. intros i.
  rewrite (parent_alike _ _ _ _ H i i eq_refl). destruct (parent d' i) as [m|]; [|done].
  f_equal; [by rewrite H|apply bool_decide_ext; by rewrite H].
Qed.

Lemma menus_similar d d' :
  similar d d' -> existsb (hasClass d "dropdown-menu") (nodes d) = existsb (hasClass d' "dropdown-menu") (nodes d').
Proof.
  intros H. rewrite (nodes_alike _ _ _ _ H). induction (nodes d') as [|x xs IH]; cbn; [done|]. rewrite IH. f_equal.
  apply (hasClass_alike tab_classes tab_attrs); [done|not_in].
Qed.
Section flow.
Context (escapeSelector : option (string -> string)) (query : string -> option (list nat)).
Context (allow : tevent -> bool) (supports : bool).

Abbreviation act := (act escapeSelector query allow supports).
Abbreviation show := (show escapeSelector query allow supports).
Abbreviation selector_of := (selector_of escapeSelector query).

(** The tab [a] of the list [l], with the pane [p]. *)
Definition tab_of (d : dom) (l : nat) (ap : nat * nat) : Prop :=
  closest (is_nav_list d) d ap.1 = Some l /\ (s ← selector_of d ap.1; first_of query s) = Some ap.2 /\
  hasClass d "disabled" ap.1 = false /\ parent_is_element d ap.1 = true.

Record tab_set (d : dom) (l c : nat) (ps : list (nat * nat)) : Prop := {
  ts_list : is_a d "UL" l = true;
  ts_links : links d l = ps.*1;
  ts_content : is_a d "UL" c = false;
  ts_panes : children d c = ps.*2;
  ts_tabs : Forall (tab_of d l) ps;
  ts_nodup : NoDup (ps.*1 ++ ps.*2);
  ts_menus : existsb (hasClass d "dropdown-menu") (nodes d) = false;
}.

Lemma tab_set_similar d d' l c ps : similar d d' -> tab_set d l c ps -> tab_set d' l c ps.
Proof.
  intros H [A B C D F G M]. split; [by rewrite <- H|by rewrite <- (ul_links_similar d d')|by rewrite <- H| | |done|].
  - by rewrite <- H.
  - eapply Forall_impl; [exact F|]. intros [a p] (F1 & F2 & F3 & F4). cbn in *.
    split_and!; cbn.
    + rewrite <- F1. symmetry. apply (closest_alike tab_classes tab_attrs); [done|]. intros j. unfold is_nav_list.
      f_equal; apply (hasClass_alike tab_classes tab_attrs); try done; not_in.
    + rewrite <- F2. unfold selector_of, Tab.selector_of.
      rewrite !(getAttribute_alike tab_classes tab_attrs d d') by (done || not_in). done.
    + etrans; [|exact F3]. symmetry. apply (hasClass_alike tab_classes tab_attrs); [done|not_in].
    + etrans; [|exact F4]. unfold parent_is_element. by rewrite H.
  - etrans; [|exact M]. symmetry. by apply menus_similar.
Qed.

(** ** Changing the classes *)

Section no_menus.
Context (d : dom) (Hmenus : existsb (hasClass d "dropdown-menu") (nodes d) = false).

Lemma no_menu i : hasClass d "dropdown-menu" i = false.
Proof.
  destruct (hasClass d "dropdown-menu" i) eqn:E; [|done]. rewrite <- Hmenus. symmetry. apply existsb_exists.
  exists i. split; [|done]. apply in_seq. unfold hasClass in E. destruct (d !! i) eqn:E'; [|done].
  apply lookup_lt_Some in E'. lia.
Qed.

Lemma no_dropdown_child p : dropdown_active_child d p = [].
Proof.
  unfold dropdown_active_child, find.
  assert (forall xs, List.filter (fun i => inside d p i && (hasClass d "active" i && existsb (fun m =>
    hasClass d "dropdown-menu" m && bool_decide (parent d m = Some p)) (ancestors d i))) xs = []) as H; [|done].
  induction xs as [|x xs IH]; cbn; [done|].
  assert (forall ms, existsb (fun m => hasClass d "dropdown-menu" m && bool_decide (parent d m = Some p)) ms = false) as ->.
  { induction ms as [|m ms IH']; cbn; [done|]. by rewrite no_menu. }
  by rewrite !andb_false_r.
Qed.
End no_menus.

Lemma similar_class d c i : c ∈ tab_classes -> similar d (addClass c i d) /\ similar d (removeClass c i d).
Proof. intros Hc. split; [by apply alike_addClass|by apply alike_removeClass]. Qed.

Lemma similar_attr d k v i : k ∈ tab_attrs -> similar d (setAttribute k v i d).
Proof. apply alike_setAttribute. Qed.

Lemma deactivate_spec d a :
  existsb (hasClass d "dropdown-menu") (nodes d) = false ->
  similar d (deactivate a d) /\
  forall i, hasClass (deactivate a d) "active" i = negb (i =? a)%nat && hasClass d "active" i.
Proof.
  intros Hm. unfold deactivate. set (d1 := removeClass "active" a (removeClass "show" a d)).
  assert (similar d d1) as H1.
  { etrans; [|apply similar_class; by constructor]. apply similar_class. by do 2 constructor. }
  assert (forall i, hasClass d1 "active" i = negb (i =? a)%nat && hasClass d "active" i) as E1.
  { intros i. unfold d1. rewrite !hasClass_removeClass. by destruct (i =? a)%nat. }
  assert ((match p ← parent d1 a; head (dropdown_active_child d1 p) with
           | Some c => removeClass "active" c d1 | None => d1 end) = d1) as ->.
  { destruct (parent d1 a) as [p|]; [|done]. cbn. rewrite no_dropdown_child; [done|].
    by rewrite <- (menus_similar d d1). }
  case_bool_decide.
  - split; [etrans; [exact H1|apply similar_attr; by constructor]|]. intros i. by rewrite hasClass_setAttribute.
  - done.
Qed.

Lemma activate_spec d e :
  existsb (hasClass d "dropdown-menu") (nodes d) = false -> (e < length d)%nat ->
  similar d (activate_element e d) /\ hasClass (activate_element e d) "show" e = true /\
  forall i, hasClass (activate_element e d) "active" i = (i =? e)%nat || hasClass d "active" i.
Proof.
  intros Hm He. unfold activate_element. set (d1 := addClass "active" e d).
  assert (similar d d1) as H1 by (apply similar_class; by constructor).
  set (d2 := if bool_decide _ then _ else d1).
  assert (similar d1 d2) as H2 by (unfold d2; case_bool_decide; [apply similar_attr; by constructor|done]).
  assert (forall i, hasClass d2 "active" i = (i =? e)%nat || hasClass d "active" i) as E2.
  { intros i. etrans; [unfold d2; case_bool_decide; [apply hasClass_setAttribute|done]|].
    unfold d1. by rewrite hasClass_addClass. }
  set (d3 := addClass "show" e d2).
  assert (similar d d3) as H3.
  { do 2 (etrans; [eassumption|]). apply similar_class. by do 2 constructor. }
  assert (match parent d3 e with Some p => hasClass d3 "dropdown-menu" p | None => false end = false) as ->.
  { destruct (parent d3 e); [|done]. apply no_menu. by rewrite <- (menus_similar d d3). }
  assert ((e < length d2)%nat) as He2 by (by rewrite <- (length_alike _ _ _ _ H2), <- (length_alike _ _ _ _ H1)).
  split; [done|]. split.
  - unfold d3. rewrite hasClass_addClass by done. by rewrite Nat.eqb_refl.
  - intros i. unfold d3. rewrite hasClass_addClass by done. cbn. apply E2.
Qed.

Lemma change_spec d e a :
  existsb (hasClass d "dropdown-menu") (nodes d) = false -> (e < length d)%nat ->
  similar d (change e (Some a) d) /\ hasClass (change e (Some a) d) "show" e = true /\
  forall i, hasClass (change e (Some a) d) "active" i = (i =? e)%nat || negb (i =? a)%nat && hasClass d "active" i.
Proof.
  intros Hm He. destruct (deactivate_spec d a Hm) as [H1 E1]. unfold change.
  destruct (activate_spec (deactivate a d) e) as (H2 & S2 & E2).
  - by rewrite <- (menus_similar d).
  - by rewrite <- (length_alike _ _ _ _ H1).
  - split; [by etrans|]. split; [done|]. intros i. by rewrite E2, E1.
Qed.

(** ** The states of a set *)

Definition only (d : dom) (xs : list nat) (y : nat) : Prop :=
  y ∈ xs /\ forall x, x ∈ xs -> hasClass d "active" x = (x =? y)%nat.

Lemma only_filter d xs y : NoDup xs -> only d xs y -> List.filter (hasClass d "active") xs = [y].
Proof.
  intros Hn [Hy Ho]. induction xs as [|x xs IH]; [by apply elem_of_nil in Hy|].
  apply NoDup_cons in Hn as [Hx Hn]. cbn. rewrite Ho by constructor.
  destruct (Nat.eqb_spec x y) as [->|Hne].
  - f_equal. clear IH Hy Hn.
    induction xs as [|z xs IH]; cbn; [done|]. rewrite Ho by (by do 2 constructor).
    destruct (Nat.eqb_spec z y) as [->|]; [by destruct Hx; constructor|]. apply IH; [by intros ?; apply Hx; constructor|].
    intros w [->|Hw]%elem_of_cons; apply Ho; [constructor|by do 2 constructor].
  - apply elem_of_cons in Hy as [->|Hy]; [done|]. apply IH; [done..|]. intros w Hw. apply Ho. by constructor.
Qed.

Lemma only_change d d' xs y e :
  y ∈ xs -> e ∈ xs -> only d xs y ->
  (forall i, hasClass d' "active" i = (i =? e)%nat || negb (i =? y)%nat && hasClass d "active" i) -> only d' xs e.
Proof.
  intros Hy He [_ Ho] E. split; [done|]. intros x Hx. rewrite E, Ho by done.
  destruct (Nat.eqb_spec x y); cbn; by rewrite orb_false_r.
Qed.

Lemma only_other d d' xs y e a :
  e ∉ xs -> a ∉ xs -> only d xs y ->
  (forall i, hasClass d' "active" i = (i =? e)%nat || negb (i =? a)%nat && hasClass d "active" i) -> only d' xs y.
Proof.
  intros He Ha [Hy Ho] E. split; [done|]. intros x Hx. rewrite E, Ho by done.
  destruct (Nat.eqb_spec x e) as [->|]; [done|]. by destruct (Nat.eqb_spec x a) as [->|].
Qed.

Context (d0 : dom) (l c : nat) (ps : list (nat * nat)) (Hset : tab_set d0 l c ps).

Inductive phase := Rest | Fading (q : nat * nat) (i m : nat).

(** The tab of [k] is active, and its pane, if no other is still fading out. *)
Record does (t : tabs) (k : nat * nat) (ph : phase) : Prop := {
  do_similar : similar d0 (doc t);
  do_ends : ends_ok (t_ends t);
  do_data : forall e i, t_data t !! e = Some i -> t_insts t !! i = Some (Some e);
  do_pair : k ∈ ps;
  do_tab : only (doc t) ps.*1 k.1;
  do_pane : only (doc t) ps.*2 (match ph with Rest => k | Fading q _ _ => q end).2;
  do_phase : match ph with
             | Rest => waiting (t_ends t) = []
             | Fading q i m => q ∈ ps /\
                 waiting (t_ends t) = [(q.2, Done (mk_wait k.2 q.2 (Some q.1) i)); (q.2, Mark m)]
             end;
}.

Lemma in_nodes (p : nat -> bool) d i : i ∈ List.filter p (nodes d) -> (i < length d)%nat.
Proof. intros [H _]%list_elem_of_In%filter_In. apply in_seq in H. lia. Qed.

Lemma set_does t k ph : does t k ph -> tab_set (doc t) l c ps.
Proof. intros H. by apply (tab_set_similar d0), Hset; apply H. Qed.

Lemma tab_lt d k : tab_set d l c ps -> k ∈ ps -> (k.1 < length d)%nat /\ (k.2 < length d)%nat.
Proof.
  intros H Hk. split.
  - assert (k.1 ∈ links d l) as Hl by (rewrite (ts_links _ _ _ _ H); by apply list_elem_of_fmap_2). by apply in_nodes in Hl.
  - assert (k.2 ∈ children d c) as Hl by (rewrite (ts_panes _ _ _ _ H); by apply list_elem_of_fmap_2). by apply in_nodes in Hl.
Qed.

Lemma pair_eq k k' : k ∈ ps -> k' ∈ ps -> k.1 = k'.1 -> k = k'.
Proof. intros Hk Hk'. apply (NoDup_fmap_inj fst ps); [|done..]. by pose proof (ts_nodup _ _ _ _ Hset) as (? & _)%NoDup_app. Qed.

Lemma apart k k' : k ∈ ps -> k' ∈ ps -> k.1 ∉ ps.*2 /\ k.2 ∉ ps.*1.
Proof.
  intros Hk _. pose proof (ts_nodup _ _ _ _ Hset) as (_ & Hn & _)%NoDup_app. split.
  - by apply Hn, list_elem_of_fmap_2.
  - intros Hin. by apply (Hn _ Hin), list_elem_of_fmap_2.
Qed.

Lemma active_pane d q : tab_set d l c ps -> only d ps.*2 q -> active_in d c = Some q.
Proof.
  intros Hs Hq. pose proof (ts_nodup _ _ _ _ Hs) as (N1 & _ & N2)%NoDup_app.
  unfold active_in. by rewrite (ts_content _ _ _ _ Hs), (ts_panes _ _ _ _ Hs), (only_filter _ _ _ N2 Hq).
Qed.

Lemma active_tab d k : tab_set d l c ps -> only d ps.*1 k -> active_in d l = Some k /\ previous_of d (Some l) = Some k.
Proof.
  intros Hs Hk. pose proof (ts_nodup _ _ _ _ Hs) as (N1 & _ & N2)%NoDup_app.
  unfold active_in, previous_of. cbn [mbind option_bind].
  by rewrite (ts_list _ _ _ _ Hs), active_ul_links, (ts_links _ _ _ _ Hs), (only_filter _ _ k N1 Hk).
Qed.

Lemma does_parent t k k' ph : does t k ph -> k' ∈ ps -> parent (doc t) k'.2 = Some c.
Proof.
  intros H Hk'. pose proof (set_does _ _ _ H) as Hs.
  assert (k'.2 ∈ children (doc t) c) as [_ Hc]%list_elem_of_In%filter_In.
  { rewrite (ts_panes _ _ _ _ Hs). by apply list_elem_of_fmap_2. }
  by apply bool_decide_eq_true in Hc.
Qed.

(** What [show] tells first. *)
Definition asked (k k' : nat * nat) (t : tabs) : tabs :=
  tell (EvShow k'.1 (Some k.1)) (tell (EvHide k.1 k'.1) t).

Definition allowed (k k' : nat * nat) : bool := allow (EvShow k'.1 (Some k.1)) && allow (EvHide k.1 k'.1).

(** The document after the tab [k'] has been made active in the place of [k]. *)
Lemma turn_tab d k k' y :
  tab_set d l c ps -> k ∈ ps -> k' ∈ ps -> only d ps.*1 k.1 -> only d ps.*2 y ->
  let d' := change k'.1 (Some k.1) d in
  similar d d' /\ only d' ps.*1 k'.1 /\ only d' ps.*2 y /\ hasClass d' "show" k'.1 = true.
Proof.
  intros Hs Hk Hk' O1 O2 d'.
  destruct (change_spec d k'.1 k.1 (ts_menus _ _ _ _ Hs) (proj1 (tab_lt _ _ Hs Hk'))) as (H1 & S1 & E1).
  split; [done|]. split; [|split; [|done]].
  - eapply only_change; [|by apply list_elem_of_fmap_2|exact O1|exact E1]. by apply list_elem_of_fmap_2.
  - eapply only_other; [| |exact O2|exact E1]; by eapply apart.
Qed.

Lemma turn_pane d q k x :
  tab_set d l c ps -> q ∈ ps -> k ∈ ps -> only d ps.*1 x -> only d ps.*2 q.2 ->
  let d' := change k.2 (Some q.2) d in
  similar d d' /\ only d' ps.*1 x /\ only d' ps.*2 k.2 /\ hasClass d' "show" k.2 = true.
Proof.
  intros Hs Hk Hk' O1 O2 d'.
  destruct (change_spec d k.2 q.2 (ts_menus _ _ _ _ Hs) (proj2 (tab_lt _ _ Hs Hk'))) as (H1 & S1 & E1).
  split; [done|]. split; [|split; [|done]].
  - eapply only_other; [| |exact O1|exact E1]; by eapply apart.
  - eapply only_change; [|by apply list_elem_of_fmap_2|exact O2|exact E1]. by apply list_elem_of_fmap_2.
Qed.

(** [show] of the tab [k'] when [k] is active. *)
Lemma show_eq t k k' i :
  does t k Rest -> k' ∈ ps ->
  show i k'.1 t =
    if bool_decide (k' = k) then t
    else if negb (allowed k k') then asked k k' t
    else
      let t1 := on_doc (change k'.1 (Some k.1)) (asked k k' t) in
      if supports && hasClass (doc t1) "fade" k.2
      then t1 <| t_ends := await k.2 (mk_wait k'.2 k.2 (Some k.1) i) (t_ends t1) |>
      else transitionComplete k'.2 (Some k.2) (shown_complete (Some k.1) i) t1.
Proof.
  intros H Hk'. pose proof (set_does _ _ _ H) as Hs. destruct (active_tab _ _ Hs (do_tab _ _ _ H)) as [A1 A2].
  pose proof (proj1 (Forall_forall _ _) (ts_tabs _ _ _ _ Hs) k' Hk') as (T1 & T2 & T3 & T4).
  destruct (turn_tab _ _ _ _ Hs (do_pair _ _ _ H) Hk' (do_tab _ _ _ H) (do_pane _ _ _ H)) as (S1 & _ & O2 & _).
  unfold Tab.show. rewrite T3, T4, (proj2 (do_tab _ _ _ H)) by by apply list_elem_of_fmap_2. cbn [andb].
  rewrite orb_false_r. case_bool_decide as Hk.
  - subst. by rewrite Nat.eqb_refl.
  - destruct (Nat.eqb_spec k'.1 k.1) as [Eq|Hne]; [by destruct Hk; apply pair_eq; [|apply H|]|].
    rewrite T1, A2. unfold allowed. rewrite negb_andb.
    destruct (negb (allow (EvShow _ _)) || negb (allow (EvHide _ _))) eqn:Ea; [done|].
    cbn zeta. rewrite T2, (does_parent _ _ _ _ H Hk'). unfold activate_tab, activate_pane.
    change (doc (tell _ (tell _ t))) with (doc t). rewrite A1.
    assert (active_in (doc (on_doc (change k'.1 (Some k.1)) (asked k k' t))) c = Some k.2) as A3'.
    { apply active_pane; [|done]. by eapply tab_set_similar. }
    unfold asked in A3'. by rewrite A3'.
Qed.

(** ** Every action *)

Definition data_ok (t : tabs) : Prop := forall e i, t_data t !! e = Some i -> t_insts t !! i = Some (Some e).

Lemma does_frame t t' k ph :
  doc t' = doc t -> t_ends t' = t_ends t -> data_ok t' -> does t k ph -> does t' k ph.
Proof.
  intros E1 E2 Hd [A B C D F G P]. split; rewrite ?E1, ?E2; done.
Qed.

(** The pane of [k] takes the place of the pane of [q]. *)
Lemma complete_spec t k q i :
  similar d0 (doc t) -> data_ok t -> k ∈ ps -> q ∈ ps -> only (doc t) ps.*1 k.1 -> only (doc t) ps.*2 q.2 ->
  let t' := transitionComplete k.2 (Some q.2) (shown_complete (Some q.1) i) t in
  similar d0 (doc t') /\ data_ok t' /\ only (doc t') ps.*1 k.1 /\ only (doc t') ps.*2 k.2 /\
  hasClass (doc t') "show" k.2 = true /\ t_ends t' = t_ends t.
Proof.
  intros Hs Hd Hk Hq O1 O2 t'.
  pose proof (shown_complete_frame (Some q.1) i (on_doc (change k.2 (Some q.2)) t)) as Hf.
  change (shown_complete _ _ _) with t' in Hf. cbv zeta in Hf. destruct Hf as (E1 & E2 & E3 & E4). clearbody t'.
  destruct (turn_pane _ _ _ _ (tab_set_similar _ _ _ _ _ Hs Hset) Hq Hk O1 O2) as (S2 & P1 & P2 & P3).
  cbn in E1, E2, E3, E4. rewrite E1. split; [by etrans|]. split; [|done]. intros e j. rewrite E3, E4. apply Hd.
Qed.

Lemma does_show t k k' i :
  does t k Rest -> k' ∈ ps -> exists k1 ph, does (show i k'.1 t) k1 ph.
Proof.
  intros H Hk'. rewrite (show_eq t k k' i H Hk'). case_bool_decide as Hk; [by exists k, Rest|].
  destruct (negb (allowed k k')); [exists k, Rest; apply (does_frame t); try done; exact (do_data _ _ _ H)|].
  destruct (turn_tab _ _ _ _ (set_does _ _ _ H) (do_pair _ _ _ H) Hk' (do_tab _ _ _ H) (do_pane _ _ _ H))
    as (S1 & P1 & P2 & P3).
  assert (similar d0 (change k'.1 (Some k.1) (doc t))) as S1' by (etrans; [apply H|done]).
  cbn zeta. destruct (supports && _).
  - exists k', (Fading k i (fresh (t_ends t))). split; cbn; try done; [..|split; [apply H|]].
    + apply await_ok, H.
    + apply H.
    + by rewrite (do_phase _ _ _ H).
  - set (t1 := on_doc (change k'.1 (Some k.1)) (asked k k' t)).
    destruct (complete_spec t1 k' k i) as (A & B & C & D & _ & F); try done; [exact (do_data _ _ _ H)|apply H|].
    exists k', Rest. split; rewrite ?F; try done; apply H.
Qed.

Lemma tab_finish t k q i m en :
  does t k (Fading q i m) -> waiting en = waiting (t_ends t) -> let t1 := t <| t_ends := en |> in
  ends_ok (t_ends (transition_end q.2 t1)) ->
  does (transition_end q.2 t1) k Rest /\ hasClass (doc (transition_end q.2 t1)) "show" k.2 = true.
Proof.
  intros H Hw t1 Hok. destruct (do_phase _ _ _ H) as [Hq Hwt]. rewrite <- Hw in Hwt.
  pose proof (transition_end_await (H := tab_host) q.2 (mk_wait k.2 q.2 (Some q.1) i) m t1 Hwt) as Et.
  cbn in Et. rewrite Et in Hok |- *. clear Et.
  set (t2 := t1 <| t_ends := en <| waiting := [] |> |>) in *.
  destruct (complete_spec t2 k q i) as (A & B & C & D & F & G); try done; try apply H; [exact (do_data _ _ _ H)|].
  set (t3 := transitionComplete _ _ _ t2) in *. clearbody t3.
  split; [|done]. split; try done; cbn; [apply H|by rewrite G].
Qed.

Lemma does_transition_end t k ph e : does t k ph -> exists ph', does (transition_end e t) k ph'.
Proof.
  intros H. pose proof (transition_end_ok (H := tab_host) e t tab_only_awaits (do_ends _ _ _ H)) as Hok.
  destruct (decide (Exists (fun w => w.1 = e) (waiting (t_ends t)))) as [(w & Hw & <-)%Exists_exists|Hn].
  - destruct ph as [|q i m]; [by rewrite (do_phase _ _ _ H) in Hw; apply elem_of_nil in Hw|].
    assert (w.1 = q.2) as Eq.
    { rewrite (proj2 (do_phase _ _ _ H)) in Hw. apply elem_of_cons in Hw as [->|Hw]; [done|]. by apply list_elem_of_singleton in Hw as ->. }
    rewrite Eq in *. exists Rest. pose proof (tab_finish t k q i m (t_ends t) H eq_refl) as Hf. cbv zeta in Hf.
    replace (t <| t_ends := t_ends t |>) with t in Hf by by destruct t. by apply Hf.
  - exists ph. rewrite (transition_end_other (H := tab_host)); [done|]. intros w Hw Ew.
    apply Hn, Exists_exists. by exists w.
Qed.

Lemma does_end_timer t k ph m : does t k ph -> exists ph', does (end_timer m t) k ph'.
Proof.
  intros H. pose proof (do_ends _ _ _ H) as Hen.
  pose proof (end_timer_ok (H := tab_host) m t tab_only_awaits Hen) as Hok.
  destruct (list_find (fun w => w.1 = m) (timers (t_ends t))) as [[j [m' e]]|] eqn:Ef.
  2: { unfold end_timer. cbn [the_ends tab_host]. rewrite Ef. by exists ph. }
  pose proof Ef as (Ei & Em & _)%list_find_Some. cbn in Em. subst m'.
  destruct (decide (m ∈ called (t_ends t))) as [Hm|Hm].
  - revert Hok. unfold end_timer. cbn [the_ends put_ends tab_host]. rewrite Ef, decide_True by done.
    intros Hok. exists ph. destruct H as [A B C D F G P]. by split.
  - pose proof (eo_live _ _ _ Hen m e (list_elem_of_lookup_2 _ _ _ Ei) Hm) as Hw. rewrite app_nil_r in Hw.
    destruct ph as [|q i m0]; [by rewrite (do_phase _ _ _ H) in Hw; apply elem_of_nil in Hw|].
    assert (e = q.2) as ->.
    { rewrite (proj2 (do_phase _ _ _ H)) in Hw. apply elem_of_cons in Hw as [Hw|Hw]; [by simplify_eq|]. apply list_elem_of_singleton in Hw. by simplify_eq. }
    pose proof (end_timer_live (H := tab_host) q.2 m t Hen Hw Hm) as El. cbn [the_ends put_ends tab_host] in El, Hok.
    rewrite El in Hok |- *. exists Rest.
    eapply proj1, (tab_finish t k q i m0); [exact H| |exact Hok]. done.
Qed.

(** Any call but to show a tab leaves the document alone. *)
Lemma interface_data e t :
  data_ok t ->
  let t' := jQueryInterface escapeSelector query allow supports None e t in
  doc t' = doc t /\ t_ends t' = t_ends t /\ told t' = told t /\ data_ok t' /\
  exists i, t_data t' !! e = Some i /\
    forall m, jQueryInterface escapeSelector query allow supports (Some m) e t =
      match m with MShow => show i e t' | MDispose => dispose i e t' | MUnknown => tell Thrown t' end.
Proof.
  intros Hd. unfold jQueryInterface. destruct (t_data t !! e) as [i|] eqn:Ed; cbn zeta.
  - split_and!; try done. exists i. by split; [|intros []].
  - cbn. split_and!; try done.
    + intros e' i'. cbn. destruct (decide (e = e')) as [<-|Hne].
      * rewrite lookup_insert_eq. intros [= <-]. by rewrite lookup_app_r, Nat.sub_diag.
      * rewrite lookup_insert_ne by done. intros Hi%Hd. by apply lookup_app_l_Some.
    + exists (length (t_insts t)). split; [by rewrite lookup_insert_eq|]. by intros [].
Qed.

Lemma dispose_data e i t : data_ok t -> t_data t !! e = Some i -> data_ok (dispose i e t).
Proof.
  intros Hd He e' i'. cbn. destruct (decide (e = e')) as [<-|Hne]; [by rewrite lookup_delete_eq|].
  rewrite lookup_delete_ne by done. intros Hi. rewrite list_lookup_insert_ne; [by apply Hd|].
  intros <-. apply Hd in He, Hi. congruence.
Qed.

(** A tab of the set is asked for only while nothing moves; other methods may be called
    on any element. *)
Definition polite (a : taction) (t : tabs) : Prop :=
  match a with
  | Call (Some MShow) e | Click e => e ∈ ps.*1 /\ waiting (t_ends t) = []
  | _ => True
  end.

Lemma does_interface t k ph m e :
  does t k ph -> (m = Some MShow -> e ∈ ps.*1 /\ waiting (t_ends t) = []) ->
  exists k' ph', does (jQueryInterface escapeSelector query allow supports m e t) k' ph'.
Proof.
  intros H Hm. destruct (interface_data e t (do_data _ _ _ H)) as (E1 & E2 & _ & E3 & i & Ei & Em).
  set (t' := jQueryInterface escapeSelector query allow supports None e t) in *.
  pose proof (does_frame t t' k ph E1 E2 E3 H) as H'.
  destruct m as [m|]; [|by exists k, ph]. rewrite Em. clearbody t'. destruct m.
  - destruct (Hm eq_refl) as [(k' & -> & Hk')%list_elem_of_fmap Hw].
    destruct ph as [|q j m]; [by apply (does_show t' k)|].
    by rewrite (proj2 (do_phase _ _ _ H)) in Hw.
  - exists k, ph. apply (does_frame t'); [done|done|by apply dispose_data|done].
  - exists k, ph. by apply (does_frame t').
Qed.

Lemma does_act t k ph a : does t k ph -> polite a t -> exists k' ph', does (act a t) k' ph'.
Proof.
  intros H Ha. destruct a as [m e|e|e|m]; cbn [Tab.act].
  - destruct (decide _); [|by exists k, ph]. apply (does_interface t k ph); [done|]. by intros ->.
  - destruct (decide _); [|by exists k, ph]. by apply (does_interface t k ph).
  - destruct (does_transition_end t k ph e H) as [ph' H']. by exists k, ph'.
  - destruct (does_end_timer t k ph m H) as [ph' H']. by exists k, ph'.
Qed.

(** [k0] is the tab that is active at first. *)
Context (k0 : nat * nat) (Hk0 : k0 ∈ ps) (Htab0 : only d0 ps.*1 k0.1) (Hpane0 : only d0 ps.*2 k0.2).

Inductive reachable : tabs -> Prop :=
  | reach_create : reachable (create d0)
  | reach_act t a : reachable t -> polite a t -> reachable (act a t).

Lemma reachable_does t : reachable t -> exists k ph, does t k ph.
Proof.
  induction 1 as [|t a _ (k & ph & H) Ha]; [|by apply (does_act t k ph)].
  exists k0, Rest. split; try done. apply no_ends_ok.
Qed.

(** C7. In a set of which at first one tab and its pane are active, if tabs of the set are
    clicked and asked for only while no fade runs, exactly one tab is active, and when no end of
    a transition is awaited exactly one pane, that of the active tab; whichever events the page
    prevents. *)
Theorem tab_and_pane t :
  reachable t -> exists a p, (a, p) ∈ ps /\
  (forall x, x ∈ ps.*1 -> hasClass (doc t) "active" x = (x =? a)%nat) /\
  (waiting (t_ends t) = [] -> forall x, x ∈ ps.*2 -> hasClass (doc t) "active" x = (x =? p)%nat).
Proof.
  intros (k & ph & H)%reachable_does. exists k.1, k.2. rewrite <- surjective_pairing.
  split; [apply H|]. split; [apply H|]. intros Hw. destruct ph as [|q i m]; [apply H|].
  by rewrite (proj2 (do_phase _ _ _ H)) in Hw.
Qed.

Lemma shown_complete_told previous i e t :
  t_insts t !! i = Some (Some e) ->
  told (shown_complete (Some previous) i t) = told t ++ [EvHidden previous (Some e); EvShown e (Some previous)].
Proof. intros Hi. unfold shown_complete. rewrite Hi. cbn. by rewrite <- app_assoc. Qed.

(** The state after a click on [k'], when [k] is active and all is allowed. *)
Lemma click_eq t k k' :
  does t k Rest -> k' ∈ ps -> k' <> k -> (forall ev, allow ev = true) ->
  exists i t', does t' k Rest /\ told t' = told t /\ t_insts t' !! i = Some (Some k'.1) /\
    let t1 := on_doc (change k'.1 (Some k.1)) (asked k k' t') in
    act (Click k'.1) t =
      if supports && hasClass (doc t1) "fade" k.2
      then t1 <| t_ends := await k.2 (mk_wait k'.2 k.2 (Some k.1) i) (t_ends t1) |>
      else transitionComplete k'.2 (Some k.2) (shown_complete (Some k.1) i) t1.
Proof.
  intros H Hk' Hne Hall. destruct (interface_data k'.1 t (do_data _ _ _ H)) as (E1 & E2 & E4 & E3 & i & Ei & Em).
  set (t' := jQueryInterface escapeSelector query allow supports None k'.1 t) in *.
  pose proof (does_frame t t' k Rest E1 E2 E3 H) as H'.
  exists i, t'. split; [done|]. split; [done|]. split; [by apply E3|]. cbn [Tab.act].
  rewrite decide_True by (apply (tab_lt _ _ (set_does _ _ _ H) Hk')). rewrite Em, (show_eq t' k k' i H' Hk').
  rewrite bool_decide_eq_false_2 by done. unfold allowed. by rewrite !Hall.
Qed.

(** A click on another tab at rest makes it active at once; after the transition of
    the old pane its pane is the active one, shown, and the four events have been told. *)
Theorem tab_shown t k k' :
  reachable t -> waiting (t_ends t) = [] -> k ∈ ps -> hasClass (doc t) "active" k.1 = true ->
  k' ∈ ps -> k' <> k -> (forall ev, allow ev = true) ->
  let t1 := act (Click k'.1) t in
  let t2 := act (TransitionEnd k.2) t1 in
  (forall x, x ∈ ps.*1 -> hasClass (doc t1) "active" x = (x =? k'.1)%nat) /\
  (forall x, x ∈ ps.*2 -> hasClass (doc t2) "active" x = (x =? k'.2)%nat) /\
  hasClass (doc t2) "show" k'.2 = true /\ waiting (t_ends t2) = [] /\
  told t2 = told t ++ [EvHide k.1 k'.1; EvShow k'.1 (Some k.1); EvHidden k.1 (Some k'.1); EvShown k'.1 (Some k.1)].
Proof.
  intros (k1 & ph & H)%reachable_does Hw Hk Hka Hk' Hne Hall.
  destruct ph as [|q i m]; [|by rewrite (proj2 (do_phase _ _ _ H)) in Hw].
  assert (k1 = k) as ->.
  { apply pair_eq; [apply H|done|]. rewrite (proj2 (do_tab _ _ _ H)) in Hka by by apply list_elem_of_fmap_2.
    by apply Nat.eqb_eq in Hka. }
  destruct (click_eq t k k' H Hk' Hne Hall) as (i & t' & H' & Et & Ei & Ec). cbv zeta in Ec |- *. rewrite Ec. clear Ec.
  destruct (turn_tab _ _ _ _ (set_does _ _ _ H') Hk Hk' (do_tab _ _ _ H') (do_pane _ _ _ H')) as (S1 & P1 & P2 & _).
  set (t1 := on_doc (change k'.1 (Some k.1)) (asked k k' t')).
  destruct (complete_spec t1 k' k i) as (A & B & C & D & F & G); try done.
  { etrans; [apply H'|done]. }
  { exact (do_data _ _ _ H'). }
  assert (told (transitionComplete k'.2 (Some k.2) (shown_complete (Some k.1) i) t1) =
    told t ++ [EvHide k.1 k'.1; EvShow k'.1 (Some k.1); EvHidden k.1 (Some k'.1); EvShown k'.1 (Some k.1)]) as Etold.
  { unfold transitionComplete. rewrite (shown_complete_told _ _ k'.1) by done. cbn. rewrite Et. by rewrite <- !app_assoc. }
  pose proof (do_phase _ _ _ H') as Hw'. cbn [Tab.act]. destruct (supports && _).
  - pose proof (transition_end_await (H := tab_host) k.2 (mk_wait k'.2 k.2 (Some k.1) i) (fresh (t_ends t1))
      (t1 <| t_ends := await k.2 (mk_wait k'.2 k.2 (Some k.1) i) (t_ends t1) |>)) as Ete.
    cbn [the_ends put_ends tab_host completed w_element w_active w_previous w_inst] in Ete.
    rewrite Ete; clear Ete.
    2: { cbn. by rewrite Hw'. }
    cbv zeta. rewrite !complete_ends. split_and!; [exact (proj2 P1)|exact (proj2 D)|exact F|done|exact Etold].
  - rewrite (transition_end_none (H := tab_host)).
    + split_and!; [apply C|apply D|done| |done]. by rewrite G.
    + cbn [the_ends tab_host]. rewrite G. change (t_ends t1) with (t_ends t'). by rewrite Hw'.
Qed.
End flow.

(** ** Runs

    The theorems of [BsTabFlow] at a page with three tabs, and a run in which two
    panes stay open. *)


Definition link (target : string) (li : nat) (cs : list string) : node :=
  mk_node "A" (Some li) cs [("href", target); ("role", "tab"); ("data-toggle", "tab")]%string.
Definition pane (cs : list string) : node := mk_node "DIV" (Some 9%nat) (["tab-pane"; "fade"]%string ++ cs) [].

Definition tab_page : dom := [
  mk_node "#document" None [] []; mk_node "BODY" (Some 0%nat) [] []; mk_node "UL" (Some 1%nat) ["nav"] [];
  mk_node "LI" (Some 2%nat) ["nav-item"] []; link "#a" 3 ["nav-link"; "active"];
  mk_node "LI" (Some 2%nat) ["nav-item"] []; link "#b" 5 ["nav-link"];
  mk_node "LI" (Some 2%nat) ["nav-item"] []; link "#c" 7 ["nav-link"];
  mk_node "DIV" (Some 1%nat) ["tab-content"] []; pane ["show"; "active"]; pane []; pane []]%string.

Definition tab_query (s : string) : option (list nat) :=
  if String.eqb s "#a" then Some [10%nat] else if String.eqb s "#b" then Some [11%nat]
  else if String.eqb s "#c" then Some [12%nat] else Some [].

Definition tab_pairs : list (nat * nat) := [(4, 10); (6, 11); (8, 12)]%nat.
Definition tab_yes : tevent -> bool := fun _ => true.

Abbreviation step := (act None tab_query tab_yes true).
Definition tab_steps (l : list taction) : tabs := fold_left (fun t a => step a t) l (create tab_page).
Abbreviation reached := (reachable None tab_query tab_yes true tab_page tab_pairs).

Lemma tab_page_set : tab_set None tab_query tab_page 2 9 tab_pairs.
Proof.
  split; [by vm_compute..| | |by vm_compute].
  - repeat constructor; by vm_compute.
  - apply (bool_decide_unpack _). by vm_compute.
Qed.

Lemma tab_page_tab : only tab_page tab_pairs.*1 4.
Proof. split; [by constructor|]. by apply Forall_forall; repeat constructor. Qed.

Lemma tab_page_pane : only tab_page tab_pairs.*2 10.
Proof. split; [by constructor|]. by apply Forall_forall; repeat constructor. Qed.

Lemma tab_reach l a : reached (tab_steps l) -> polite tab_pairs a (tab_steps l) -> reached (tab_steps (l ++ [a])).
Proof. intros Hl Ha. unfold tab_steps. rewrite fold_left_app. by constructor. Qed.

Lemma tab_used : reached (tab_steps [Click 8; EndTimer 0; Call (Some MDispose) 8; Click 6]).
Proof.
  refine (tab_reach [Click 8; EndTimer 0; Call (Some MDispose) 8] (Click 6) _ _).
  2: { split; [|by vm_compute]. by do 2 constructor. }
  refine (tab_reach [Click 8; EndTimer 0] (Call (Some MDispose) 8) _ I).
  refine (tab_reach [Click 8] (EndTimer 0) _ I).
  refine (tab_reach [] (Click 8) (reach_create _ _ _ _ _ _) _). split; [|done]. by do 3 constructor.
Qed.

Example tab_and_pane_witness :
  let t := tab_steps [Click 8; EndTimer 0; Call (Some MDispose) 8; Click 6]%nat in
  exists a p, (a, p) ∈ tab_pairs /\
    (forall x, x ∈ tab_pairs.*1 -> hasClass (doc t) "active" x = (x =? a)%nat) /\
    (waiting (t_ends t) = [] -> forall x, x ∈ tab_pairs.*2 -> hasClass (doc t) "active" x = (x =? p)%nat).
Proof.
  apply (tab_and_pane None tab_query tab_yes true tab_page 2 9 tab_pairs tab_page_set (4, 10)%nat);
    [by constructor|apply tab_page_tab|apply tab_page_pane|apply tab_used].
Defined.

Example tab_shown_witness :
  let t1 := step (Click 6) (create tab_page) in
  let t2 := step (TransitionEnd 10) t1 in
  (forall x, x ∈ tab_pairs.*1 -> hasClass (doc t1) "active" x = (x =? 6)%nat) /\
  (forall x, x ∈ tab_pairs.*2 -> hasClass (doc t2) "active" x = (x =? 11)%nat) /\
  hasClass (doc t2) "show" 11 = true /\ waiting (t_ends t2) = [] /\
  told t2 = [EvHide 4 6; EvShow 6 (Some 4); EvHidden 4 (Some 6); EvShown 6 (Some 4)]%nat.
Proof.
  apply (tab_shown None tab_query tab_yes true tab_page 2 9 tab_pairs tab_page_set (4, 10)%nat ltac:(by constructor)
    tab_page_tab tab_page_pane (create tab_page) (4, 10)%nat (6, 11)%nat);
    [constructor|done|by constructor|done|by do 2 constructor|done|done].
Defined.

(** *** A second click while the pane fades

    Both calls wait for the pane that fades out; in the end both new panes are active,
    while one tab is. *)
Example two_panes :
  let t := tab_steps [Click 6; Click 8; TransitionEnd 10; EndTimer 0; EndTimer 1]%nat in
  hasClass (doc t) "active" <$> [4; 6; 8]%nat = [false; false; true] /\
  hasClass (doc t) "active" <$> [10; 11; 12]%nat = [false; true; true] /\
  waiting (t_ends t) = [].
Proof. by vm_compute. Qed.

(** *** A tab outside of a list

    The events are told, then the container is missing. *)
Example no_list :
  let d := [mk_node "#document" None [] []; mk_node "BODY" (Some 0%nat) [] []; link "#a" 1 []]%string in
  told (step (Click 2) (create d)) = [EvShow 2 None; Thrown].
Proof. by vm_compute. Qed.
