(* ===== verification/BsSpy.v ===== *)
(** * Bootstrap: scrollspy.js

    Models [ScrollSpy] of [2019104233/src/scripts/bluelog/bluelog/static/js/bootstrap.js]:
    the offsets of the targets of a navigation, which of them the scrolled position is
    in, and the classes of the links, on the document of [BsDom].  What the browser
    measures is an argument of each event, in whole pixels; sorting is stable. *)

From S2P Require Export BsDom.

Module Spy.

Definition Default : config := list_to_map [("offset", VNum 10); ("method", VStr "auto"); ("target", VStr "")]%string.
Definition DefaultType : configTypes :=
  [("offset", ["number"]); ("method", ["string"]); ("target", ["string"; "element"])]%string.

(** [method]: ['auto'], ['offset'], or ['position']. *)
Inductive offset_method := Auto | Offset | Position.

(** [target] is the element with the navigation, [None] for the empty selector;
    [on_window]: the spied element is the body. *)
Record options := mk_options { offset : Z; method_ : offset_method; target : option nat; on_window : bool }.

(** What the browser measures: the scrolled position, the height of what is scrolled and
    of what is seen of it; of an element its size and its place by the two methods. *)
Record layout := mk_layout {
  scrollTop : Z; scrollHeight : Z; offsetHeight : Z;
  size : nat -> Z * Z; by_offset : nat -> Z; by_position : nat -> Z;
}.

(** [_activeTarget] is [null], [undefined] or a selector. *)
Inductive active := Null | Undefined | Target (s : string).
#[global] Instance active_eq_dec : EqDecision active.
Proof. solve_decision. Defined.

Inductive sevent := EvActivate (a : active) | Thrown.

Record spy := mk_spy {
  doc : dom; offsets : list Z; targets : list string; activeTarget : active; s_height : Z; disposed : bool; told : list sevent;
}.
#[export] Instance spy_eta : Settable spy := fun s =>
  mk_spy (doc s) (offsets s) (targets s) (activeTarget s) (s_height s) (disposed s) (told s).

(** The text a target has in a selector. *)
Definition text_of (a : active) : string :=
  match a with Null => "null" | Undefined => "undefined" | Target s => s end.

Definition is_link (d : dom) (i : nat) : bool :=
  hasClass d "nav-link" i || hasClass d "list-group-item" i || hasClass d "dropdown-item" i.

(** [$(this._selector)]. *)
Definition links (o : options) (d : dom) : list nat :=
  match target o with Some r => find (is_link d) d r | None => List.filter (is_link d) (nodes d) end.

(** The links whose attribute [data-target] or [href] is the text of [a]. *)
Definition points_to (d : dom) (a : active) (i : nat) : bool :=
  bool_decide (getAttribute d "data-target" i = Some (text_of a)) || bool_decide (getAttribute d "href" i = Some (text_of a)).

Definition is_nav_list (d : dom) (i : nat) : bool := hasClass d "nav" i || hasClass d "list-group" i.

(** [$link.parents(NAV_LIST_GROUP).prev()], and those of them that satisfy [p]. *)
Definition before_lists (d : dom) (p : nat -> bool) (l : list nat) : list nat :=
  List.filter p (omap (prev_sibling d) (List.filter (is_nav_list d) (mjoin (ancestors d <$> l)))).

Definition is_toggle_of (d : dom) (i : nat) : bool := hasClass d "nav-link" i || hasClass d "list-group-item" i.

(** The classes [_activate] adds for the links [l]. *)
Definition mark (l : list nat) (d : dom) : dom :=
  if existsb (hasClass d "dropdown-item") l then
    let d := addClasses "active" (mjoin ((fun m => find (hasClass d "dropdown-toggle") d m) <$>
               omap (closest (hasClass d "dropdown") d) l)) d in
    addClasses "active" l d
  else
    let d := addClasses "active" l d in
    let d := addClasses "active" (before_lists d (is_toggle_of d) l) d in
    addClasses "active" (List.filter (hasClass d "nav-link")
      (mjoin (children d <$> before_lists d (hasClass d "nav-item") l))) d.

(** A stable sort by the first component. *)
Fixpoint insert_item (x : Z * string) (l : list (Z * string)) : list (Z * string) :=
  match l with
  | [] => [x]
  | y :: l => if (y.1 <=? x.1) then y :: insert_item x l else x :: y :: l
  end.
Definition sort_items (l : list (Z * string)) : list (Z * string) := fold_left (fun l x => insert_item x l) l [].

Section spy.
Context (o : options).
Context (escapeSelector : option (string -> string)) (query : string -> option (list nat)).

Definition finds (s : string) : option bool :=
  (fun l : list nat => match l with [] => false | _ => true end) <$> query s.

Definition selector_of (d : dom) (e : nat) : option string :=
  getSelectorFromElement escapeSelector finds (getAttribute d "data-target" e) (getAttribute d "href" e).

(** ** Offsets *)

Definition offsetMethod : offset_method :=
  match method_ o with Auto => if on_window o then Offset else Position | m => m end.

(** The item of the link [i]: the offset of its target, and the selector. *)
Definition item_of (y : layout) (d : dom) (i : nat) : option (Z * string) :=
  match selector_of d i with
  | Some s =>
      if String.eqb s "" then None
      else
        t ← query s ≫= head;
        let '(w, h) := size y t in
        if (w =? 0) && (h =? 0) then None
        else Some (match offsetMethod with Position => by_position y t + scrollTop y | _ => by_offset y t end, s)
  | None => None
  end.

Definition items (y : layout) (d : dom) : list (Z * string) := sort_items (omap (item_of y d) (links o d)).

Definition refresh (y : layout) (s : spy) : spy :=
  let l := items y (doc s) in
  s <| offsets := l.*1 |> <| targets := l.*2 |> <| s_height := scrollHeight y |>.

(** ** The active target *)

Definition clear (s : spy) : spy :=
  s <| doc := removeClasses "active" (List.filter (hasClass (doc s) "active") (links o (doc s))) (doc s) |>.

Definition activate (a : active) (s : spy) : spy :=
  let s := clear (s <| activeTarget := a |>) in
  let d := doc s in
  let s := s <| doc := mark (List.filter (points_to d a) (links o d)) d |> in
  s <| told := told s ++ [EvActivate a] |>.

(** One step of the loop, for the index [i]. *)
Definition consider (top : Z) (i : nat) (s : spy) : spy :=
  match offsets s !! i, targets s !! i with
  | Some oi, Some t =>
      if bool_decide (activeTarget s <> Target t) && (oi <=? top) &&
         match offsets s !! S i with Some oj => top <? oj | None => true end
      then activate (Target t) s else s
  | _, _ => s
  end.

Definition process (y : layout) (s : spy) : spy :=
  let top := scrollTop y + offset o in
  let maxScroll := offset o + scrollHeight y - offsetHeight y in
  let s := if (s_height s =? scrollHeight y)%Z then s else refresh y s in
  if (maxScroll <=? top) then
    let t := match last (targets s) with Some t => Target t | None => Undefined end in
    if bool_decide (activeTarget s = t) then s else activate t s
  else if match activeTarget s, offsets s with Target _, o0 :: _ => (top <? o0) && (0 <? o0) | _, _ => false end
  then clear (s <| activeTarget := Null |>)
  else fold_right (consider top) s (seq 0 (length (offsets s))).

(** The constructor. *)
Definition create (d : dom) (y : layout) : spy := process y (refresh y (mk_spy d [] [] Null 0 false [])).

(** The listener goes; the page has no way back to the instance. *)
Definition dispose (s : spy) : spy :=
  s <| offsets := [] |> <| targets := [] |> <| activeTarget := Null |> <| s_height := 0 |> <| disposed := true |>.

(** Calls of [refresh], scrolling, [dispose], and calls of a method that is not there. *)
Inductive saction := Refresh (y : layout) | Scroll (y : layout) | Dispose | CallUnknown.

Definition act (a : saction) (s : spy) : spy :=
  if disposed s then s else
  match a with
  | Dispose => dispose s
  | Refresh y => refresh y s
  | Scroll y => process y s
  | CallUnknown => s <| told := told s ++ [Thrown] |>
  end.
End spy.
End Spy.
