(* ===== verification/BsSpyFlow.v ===== *)
(** * Bootstrap: scrollspy.js, its properties

    The offsets are those of the targets, in order; after an event the active target is
    the last one the position has reached; and in a flat navigation the active links are
    those of the active target. *)

From Stdlib Require Import Sorted.
From S2P Require Export BsSpy.
Import Spy.

(** ** Sorting *)

Abbreviation in_order := (StronglySorted (fun x y : Z * string => x.1 <= y.1)).

Lemma insert_item_perm x l : insert_item x l ≡ₚ x :: l.
Proof.
  induction l as [|y l IH]; cbn; [done|]. destruct (y.1 <=? x.1); [|done]. rewrite IH. apply Permutation_swap.
Qed.

Lemma insert_item_order x l : in_order l -> in_order (insert_item x l).
Proof.
  induction 1 as [|y l Hl IH Hy]; cbn; [by repeat constructor|]. destruct (Z.leb_spec y.1 x.1).
  - constructor; [done|]. rewrite insert_item_perm. by constructor.
  - constructor; [by constructor|]. constructor; [lia|]. eapply Forall_impl; [exact Hy|]. cbn. lia.
Qed.

Lemma sort_items_spec l : in_order (sort_items l) /\ sort_items l ≡ₚ l.
Proof.
  unfold sort_items. assert (forall a, in_order a -> in_order (fold_left (fun l x => insert_item x l) l a) /\
    fold_left (fun l x => insert_item x l) l a ≡ₚ l ++ a) as H.
  { induction l as [|x l IH]; intros a Ha; cbn; [done|].
    destruct (IH (insert_item x a) (insert_item_order x a Ha)) as [H1 H2]. split; [done|].
    rewrite H2, insert_item_perm. by rewrite Permutation_middle. }
  destruct (H [] (SSorted_nil _)) as [H1 H2]. by rewrite app_nil_r in H2.
Qed.

(** ** The active target *)

(** The last item whose offset the position [top] has reached. *)
Definition reached (top : Z) (l : list (Z * string)) : option string :=
  snd <$> last (filter (fun p => p.1 <= top) l).

(** The target that should be active at the position [top], [bottom] being the last one. *)
Definition expected (top bottom : Z) (l : list (Z * string)) (old : active) : active :=
  if bottom <=? top then match last l.*2 with Some t => Target t | None => Undefined end
  else match reached top l with
       | Some t => Target t
       | None =>
           match l, old with
           | (o0, _) :: _, Target _ => if 0 <? o0 then Null else old
           | _, _ => old
           end
       end.

(** Up to a place the items are reached, and from there not. *)
Lemma split_reached top l :
  in_order l -> exists l1 l2, l = l1 ++ l2 /\ Forall (fun p => p.1 <= top) l1 /\ Forall (fun p => top < p.1) l2.
Proof.
  induction 1 as [|x l Hl (l1 & l2 & -> & H1 & H2) Hx]; [by exists [], []|].
  destruct (Z.leb_spec x.1 top).
  - exists (x :: l1), l2. by split; [|split; [constructor|]].
  - exists [], (x :: l1 ++ l2). split; [done|]. split; [done|]. constructor; [done|].
    eapply Forall_impl; [exact Hx|]. cbn. lia.
Qed.

Lemma reached_split top l1 l2 :
  Forall (fun p => p.1 <= top) l1 -> Forall (fun p => top < p.1) l2 -> reached top (l1 ++ l2) = snd <$> last l1.
Proof.
  intros H1 H2. unfold reached. rewrite filter_app, (filter_all _ l1) by (by apply Forall_forall).
  assert (filter (fun p => p.1 <= top) l2 = []) as ->; [|by rewrite app_nil_r].
  induction H2 as [|x l2 Hx _ IH]; [done|]. rewrite filter_cons, decide_False by lia. done.
Qed.

Section spy.
Context (o : options) (escapeSelector : option (string -> string)) (query : string -> option (list nat)).

Abbreviation refresh := (refresh o escapeSelector query).
Abbreviation process := (process o escapeSelector query).
Abbreviation act := (act o escapeSelector query).

(** The items of a state. *)
Record listed (s : spy) (l : list (Z * string)) : Prop := {
  li_offsets : offsets s = l.*1; li_targets : targets s = l.*2; li_order : in_order l;
}.

Lemma refresh_listed y s : listed (refresh y s) (items o escapeSelector query y (doc s)).
Proof. split; [done|done|apply sort_items_spec]. Qed.

Lemma activate_frame a s :
  offsets (activate o a s) = offsets s /\ targets (activate o a s) = targets s /\ activeTarget (activate o a s) = a.
Proof. done. Qed.

Lemma consider_frame top i s :
  offsets (consider o top i s) = offsets s /\ targets (consider o top i s) = targets s.
Proof. unfold consider. destruct (offsets s !! i), (targets s !! i); try done. by destruct (_ && _). Qed.

Lemma loop_frame top ks s :
  offsets (fold_right (consider o top) s ks) = offsets s /\ targets (fold_right (consider o top) s ks) = targets s.
Proof.
  induction ks as [|i ks IH]; cbn; [done|]. destruct (consider_frame top i (fold_right (consider o top) s ks)) as [-> ->]. done.
Qed.

(** Only the last item reached counts. *)
Lemma consider_miss top l1 l2 i s :
  listed s (l1 ++ l2) -> Forall (fun p => p.1 <= top) l1 -> Forall (fun p => top < p.1) l2 ->
  S i <> length l1 -> consider o top i s = s.
Proof.
  intros [E1 E2 _] H1 H2 Hi. unfold consider. rewrite E1, E2, !list_lookup_fmap.
  destruct ((l1 ++ l2) !! i) as [[oi t]|] eqn:Ei; cbn; [|done].
  destruct (Z.leb_spec oi top) as [Hle|]; [|by rewrite andb_false_r].
  destruct (decide (i < length l1)%nat) as [Hlt|Hge].
  - destruct (lookup_lt_is_Some_2 l1 (S i)) as [[oj tj] Ej]; [lia|].
    rewrite (lookup_app_l_Some _ _ _ _ Ej). cbn. rewrite Forall_lookup in H1. specialize (H1 _ _ Ej). cbn in H1.
    rewrite (proj2 (Z.ltb_ge top oj)) by done. by rewrite andb_false_r.
  - rewrite lookup_app_r in Ei by lia. rewrite Forall_lookup in H2. specialize (H2 _ _ Ei). cbn in H2. lia.
Qed.

Lemma consider_hit top l1 x l2 s :
  listed s (l1 ++ x :: l2) -> x.1 <= top -> Forall (fun p => top < p.1) l2 ->
  activeTarget (consider o top (length l1) s) = Target x.2.
Proof.
  intros [E1 E2 _] H1 H2. unfold consider. rewrite E1, E2, !list_lookup_fmap, list_lookup_middle by done. cbn.
  rewrite (proj2 (Z.leb_le _ _)) by done.
  assert (match (l1 ++ x :: l2).*1 !! S (length l1) with Some oj => top <? oj | None => true end = true) as Hn.
  { rewrite list_lookup_fmap, lookup_app_r by lia. replace (S (length l1) - length l1)%nat with 1%nat by lia. cbn.
    destruct l2 as [|y l2]; cbn; [done|]. apply Forall_cons in H2 as [H2 _]. by apply Z.ltb_lt. }
  rewrite list_lookup_fmap in Hn. rewrite Hn. by case_bool_decide.
Qed.

Lemma loop_skips top l1 l2 ks s :
  listed s (l1 ++ l2) -> Forall (fun p => p.1 <= top) l1 -> Forall (fun p => top < p.1) l2 ->
  Forall (fun i => S i <> length l1) ks -> fold_right (consider o top) s ks = s.
Proof.
  intros Hs H1 H2. induction 1 as [|i ks Hi Hks IH]; cbn; [done|]. rewrite IH. by eapply consider_miss.
Qed.

Lemma loop_target top l1 l2 s :
  listed s (l1 ++ l2) -> Forall (fun p => p.1 <= top) l1 -> Forall (fun p => top < p.1) l2 ->
  activeTarget (fold_right (consider o top) s (seq 0 (length (offsets s)))) =
  match last l1 with Some x => Target x.2 | None => activeTarget s end.
Proof.
  intros Hs H1 H2. pose proof Hs as [E1 E2 Ho]. rewrite E1, length_fmap, length_app.
  destruct l1 as [|x l1 _] using rev_ind.
  - rewrite (loop_skips top [] l2); [done|done|done|done|]. by apply Forall_forall.
  - rewrite last_snoc. rewrite length_app. cbn [length]. replace (length l1 + 1 + length l2)%nat with (length l1 + S (length l2))%nat by lia.
    rewrite seq_app, fold_right_app. cbn [seq fold_right].
    assert (forall ks s, listed s ((l1 ++ [x]) ++ l2) -> Forall (fun i => S i <> length (l1 ++ [x])) ks ->
      fold_right (consider o top) s ks = s) as Hskip by (intros; by eapply loop_skips).
    rewrite (Hskip (seq (S (0 + length l1)) (length l2)) s Hs).
    2: { apply Forall_forall. intros i Hi. apply elem_of_seq in Hi. rewrite length_app. cbn. lia. }
    rewrite Hskip.
    + apply Forall_app in H1 as [_ [H1 _]%Forall_cons]. rewrite <- app_assoc in Hs. by eapply consider_hit.
    + split; [|..|done]; [by rewrite (proj1 (consider_frame top _ s))|by rewrite (proj2 (consider_frame top _ s))].
    + apply Forall_forall. intros i Hi. apply elem_of_seq in Hi. rewrite length_app. cbn. lia.
Qed.

(** The items [process] works with: those of the state, unless the height has changed. *)
Definition items_after (y : layout) (s : spy) (l : list (Z * string)) : list (Z * string) :=
  if (s_height s =? scrollHeight y)%Z then l else items o escapeSelector query y (doc s).

Lemma process_listed y s l : listed s l -> listed (process y s) (items_after y s l).
Proof.
  intros Hs. unfold Spy.process, items_after. set (s1 := if (_ =? _)%Z then s else refresh y s).
  assert (listed s1 (if (s_height s =? scrollHeight y)%Z then l else items o escapeSelector query y (doc s))) as H1.
  { unfold s1. destruct (_ =? _)%Z; [done|apply refresh_listed]. }
  clearbody s1. destruct (_ <=? _).
  - case_bool_decide; [done|]. destruct H1 as [A B C]. by split.
  - destruct (match activeTarget s1 with Target _ => _ | _ => _ end).
    + destruct H1 as [A B C]. by split.
    + destruct H1 as [A B C]. destruct (loop_frame (scrollTop y + offset o) (seq 0 (length (offsets s1))) s1) as [F1 F2].
      split; [by rewrite F1|by rewrite F2|done].
Qed.

Lemma listed_zip s l : listed s l -> zip (offsets s) (targets s) = l.
Proof.
  intros [-> -> _]. induction l as [|[x t] l IH]; cbn; [done|]. by f_equal.
Qed.

Lemma process_target y s l :
  listed s l ->
  activeTarget (process y s) = expected (scrollTop y + offset o) (offset o + scrollHeight y - offsetHeight y)
    (items_after y s l) (activeTarget s).
Proof.
  intros Hs. unfold Spy.process, items_after, expected. set (s1 := if (s_height s =? scrollHeight y)%Z then s else refresh y s).
  set (l1 := if (s_height s =? scrollHeight y)%Z then l else items o escapeSelector query y (doc s)). set (top := scrollTop y + offset o).
  assert (listed s1 l1) as H1 by (unfold s1, l1; destruct (_ =? _)%Z; [done|apply refresh_listed]).
  assert (activeTarget s1 = activeTarget s) as <- by (unfold s1; by destruct (_ =? _)%Z).
  clearbody s1 l1. pose proof H1 as [E1 E2 Ho]. destruct (_ <=? _).
  - rewrite E2. by case_bool_decide.
  - destruct (split_reached top l1 Ho) as (l2 & l3 & -> & R2 & R3). rewrite (reached_split top l2 l3 R2 R3).
    destruct (match activeTarget s1 with Target _ => _ | _ => _ end) eqn:Ec.
    + destruct (activeTarget s1) eqn:Ea; try done. rewrite E1 in Ec. destruct l2 as [|[o2 t2] l2]; cbn in Ec |- *.
      * destruct l3 as [|[o3 t3] l3]; cbn in Ec |- *; [done|]. apply andb_true_iff in Ec as [_ ->]. done.
      * apply andb_true_iff in Ec as [Ec _]. apply Forall_cons in R2 as [R2 _]. cbn in R2. apply Z.ltb_lt in Ec. lia.
    + rewrite (loop_target top l2 l3 s1 H1 R2 R3). destruct l2 as [|x l2 _] using rev_ind; [|by rewrite last_snoc].
      cbn. destruct l3 as [|[o3 t3] l3]; [by destruct (activeTarget s1)|]. destruct (activeTarget s1) eqn:Ea; try done.
      rewrite E1 in Ec. cbn in Ec. apply Forall_cons in R3 as [R3 _]. cbn in R3.
      rewrite (proj2 (Z.ltb_lt _ _) R3) in Ec. cbn in Ec. by rewrite Ec.
Qed.

Definition run (l : list saction) (s : spy) : spy := fold_left (fun s a => act a s) l s.

Lemma act_listed a s l : listed s l -> exists l', listed (act a s) l'.
Proof.
  intros Hs. unfold Spy.act. destruct (disposed s); [by exists l|]. destruct a as [y|y| |].
  - eexists. apply refresh_listed.
  - eexists. by apply process_listed.
  - exists []. split; try done. constructor.
  - exists l. by destruct Hs.
Qed.

Lemma run_listed acts s l : listed s l -> exists l', listed (run acts s) l'.
Proof.
  revert s l. induction acts as [|a acts IH]; intros s l Hs; [by exists l|].
  destruct (act_listed a s l Hs) as [l' Hl']. by eapply IH.
Qed.

Lemma create_listed d y : exists l, listed (create o escapeSelector query d y) l.
Proof. eexists. unfold create. apply process_listed, refresh_listed. Qed.

(** C10.  After scrolling, the active target is the last one the position has reached, at
    the bottom the last of all, and none above the first; the offsets are in order, and
    measured anew when the height has changed. *)
Theorem spy_follows acts d y0 y :
  let s := run acts (create o escapeSelector query d y0) in
  disposed s = false ->
  let s' := act (Scroll y) s in
  let l := items_after y s (zip (offsets s) (targets s)) in
  offsets s' = l.*1 /\ targets s' = l.*2 /\ in_order l /\
  activeTarget s' = expected (scrollTop y + offset o) (offset o + scrollHeight y - offsetHeight y) l (activeTarget s).
Proof.
  intros s Hd s' l. destruct (create_listed d y0) as [l0 H0]. destruct (run_listed acts _ _ H0) as [l1 H1].
  fold s in H1. unfold s', Spy.act, l. rewrite Hd, (listed_zip s l1 H1). clearbody s. clear l s'.
  pose proof (process_listed y s l1 H1) as [A B C]. split; [done|]. split; [done|]. split; [done|]. by apply process_target.
Qed.

(** ** The links *)

Abbreviation similar := (alike ["active"%string] []).
Abbreviation links := (links o).

Ltac other_class := by intros ?%list_elem_of_singleton.

Lemma is_link_similar d d' i : similar d d' -> is_link d i = is_link d' i.
Proof.
  intros H. unfold is_link. do 2 (f_equal; [|apply (hasClass_alike _ _ _ _ _ _ H); other_class]).
  apply (hasClass_alike _ _ _ _ _ _ H); other_class.
Qed.

Lemma links_similar d d' : similar d d' -> links d = links d'.
Proof.
  intros H. unfold Spy.links. destruct (target o) as [r|].
  - apply (find_alike _ _ _ _ _ _ _ H). intros j. by apply is_link_similar.
  - rewrite (nodes_alike _ _ _ _ H). apply List.filter_ext. intros j. by apply is_link_similar.
Qed.

Lemma points_to_similar d d' a i : similar d d' -> points_to d a i = points_to d' a i.
Proof.
  intros H. unfold points_to.
  by rewrite !(getAttribute_alike _ _ _ _ _ i H) by by intros ?%elem_of_nil.
Qed.

Lemma links_lt d i : i ∈ links d -> (i < length d)%nat.
Proof.
  unfold Spy.links, find. destruct (target o) as [r|]; intros [H _]%list_elem_of_In%filter_In; apply in_seq in H; lia.
Qed.

(** The navigation: no drop-down items, no lists inside of items, nothing active. *)
Definition heads (d : dom) : list nat :=
  omap (prev_sibling d) (List.filter (is_nav_list d) (mjoin (ancestors d <$> links d))).
Record flat (d : dom) : Prop := {
  fl_items : existsb (hasClass d "dropdown-item") (links d) = false;
  fl_heads : existsb (fun i => is_toggle_of d i || hasClass d "nav-item" i) (heads d) = false;
  fl_active : existsb (hasClass d "active") (links d) = false;
}.

Lemma existsb_false {A} (p : A -> bool) l : existsb p l = false <-> forall x, x ∈ l -> p x = false.
Proof.
  induction l as [|x l IH]; cbn; [split; [by intros _ y ?%elem_of_nil|done]|].
  rewrite orb_false_iff, IH. split.
  - by intros [Hx Hl] y [->|Hy]%elem_of_cons; [|apply Hl].
  - intros H. split; [apply H|intros y Hy; apply H]; by constructor.
Qed.

Lemma existsb_eqb i l : existsb (Nat.eqb i) l = bool_decide (i ∈ l).
Proof.
  induction l as [|j l IH]; cbn; [by rewrite bool_decide_eq_false_2 by by intros ?%elem_of_nil|].
  rewrite IH. destruct (Nat.eqb_spec i j) as [->|Hne]; cbn; [by rewrite bool_decide_eq_true_2 by constructor|].
  apply bool_decide_ext. rewrite elem_of_cons. tauto.
Qed.

(** The lists around some of the links are among those around all. *)
Lemma before_lists_heads d p l :
  (forall i, i ∈ l -> i ∈ links d) -> existsb p (heads d) = false -> before_lists d p l = [].
Proof.
  intros Hl Hp. rewrite existsb_false in Hp. unfold before_lists.
  destruct (List.filter p _) as [|x r] eqn:E; [done|].
  assert (x ∈ x :: r) as Hx by constructor. rewrite <- E in Hx.
  apply list_elem_of_In, filter_In in Hx as [Hx Hpx]. rewrite Hp in Hpx; [done|].
  apply list_elem_of_In, list_elem_of_omap in Hx as (a & Ha & Ex). apply list_elem_of_omap. exists a. split; [|done].
  apply list_elem_of_In, filter_In in Ha as [Ha Hn]. apply list_elem_of_In, filter_In. split; [|done].
  apply list_elem_of_In, list_elem_of_join in Ha as (m & Ham & (i & -> & Hi)%list_elem_of_fmap).
  apply list_elem_of_In, list_elem_of_join. exists (ancestors d i). split; [done|]. apply list_elem_of_fmap_2. by apply Hl.
Qed.

Lemma is_nav_list_similar d d' i : similar d d' -> is_nav_list d i = is_nav_list d' i.
Proof.
  intros H. unfold is_nav_list. f_equal; apply (hasClass_alike _ _ _ _ _ _ H); other_class.
Qed.

Lemma heads_similar d d' : similar d d' -> heads d = heads d'.
Proof.
  intros H. unfold heads. rewrite (links_similar d d' H).
  assert ((ancestors d <$> links d') = (ancestors d' <$> links d')) as ->.
  { apply list_fmap_ext. intros _ i _. by rewrite H. }
  erewrite List.filter_ext; [|intros i; by apply is_nav_list_similar].
  induction (List.filter _ _) as [|i l IH]; cbn; [done|].
  by rewrite (prev_sibling_alike _ _ _ _ H i i eq_refl), IH.
Qed.

Lemma existsb_ext {A} (p p' : A -> bool) l : (forall x, p x = p' x) -> existsb p l = existsb p' l.
Proof. intros H. induction l as [|x l IH]; cbn; [done|]. by rewrite H, IH. Qed.

(** What [_activate] does in such a navigation. *)
Lemma mark_flat d0 d l :
  flat d0 -> similar d0 d -> (forall i, i ∈ l -> i ∈ links d) -> mark l d = addClasses "active" l d.
Proof.
  intros [F1 F2 _] H Hl. unfold mark. rewrite (links_similar d0 d H) in F1. rewrite (heads_similar d0 d H) in F2.
  assert (existsb (hasClass d "dropdown-item") l = false) as ->.
  { apply existsb_false. intros i Hi. rewrite existsb_false in F1.
    rewrite <- (hasClass_alike _ _ _ _ _ i H) by other_class. by apply F1, Hl. }
  set (d1 := addClasses "active" l d). assert (similar d d1) as H1 by (by apply alike_addClasses; constructor).
  assert (forall p, (forall i, p i = true -> is_toggle_of d1 i || hasClass d1 "nav-item" i = true) ->
    before_lists d1 p l = []) as Hb.
  { intros p Hp. apply before_lists_heads; [by rewrite <- (links_similar d d1 H1)|].
    rewrite <- (heads_similar d d1 H1). apply existsb_false. intros i Hi. rewrite existsb_false in F2. specialize (F2 i Hi).
    destruct (p i) eqn:Ep; [|done]. apply Hp in Ep. etrans; [symmetry; exact Ep|]. etrans; [|exact F2].
    unfold is_toggle_of. assert (similar d0 d1) as H2 by by etrans.
    f_equal; [f_equal|]; symmetry; apply (hasClass_alike _ _ _ _ _ _ H2); other_class. }
  rewrite (Hb (is_toggle_of d1)) by (intros i ->; done). cbn [addClasses fold_left].
  rewrite (Hb (hasClass d1 "nav-item")) by (intros i ->; apply orb_true_r). done.
Qed.

(** The active links are those of the active target. *)
Definition shows (d : dom) (a : active) (i : nat) : bool :=
  match a with Null => false | _ => points_to d a i end.
Record linked (d0 : dom) (s : spy) : Prop := {
  ln_similar : similar d0 (doc s);
  ln_active : forall i, i ∈ links d0 -> hasClass (doc s) "active" i = shows d0 (activeTarget s) i;
}.

Lemma clear_linked d0 s :
  similar d0 (doc s) -> similar d0 (doc (clear o s)) /\
  forall i, i ∈ links d0 -> hasClass (doc (clear o s)) "active" i = false.
Proof.
  intros H. split; [etrans; [exact H|by apply alike_removeClasses; constructor]|]. intros i Hi. cbn.
  rewrite hasClass_removeClasses, existsb_eqb. case_bool_decide as Hn; [done|]. cbn.
  destruct (hasClass (doc s) "active" i) eqn:E; [|done]. destruct Hn. apply list_elem_of_In, filter_In. split; [|done].
  apply list_elem_of_In. by rewrite <- (links_similar d0 (doc s) H).
Qed.

Lemma activate_linked d0 s a : flat d0 -> similar d0 (doc s) -> a <> Null -> linked d0 (activate o a s).
Proof.
  intros Hf H Ha. destruct (clear_linked d0 (s <| activeTarget := a |>) H) as [H1 C1].
  unfold activate. set (d := doc (clear o (s <| activeTarget := a |>))) in *.
  assert (forall i, i ∈ List.filter (points_to d a) (links d) -> i ∈ links d) as Hl.
  { intros i [Hi _]%list_elem_of_In%filter_In. by apply list_elem_of_In. }
  split; cbn; rewrite (mark_flat d0 d) by done.
  - etrans; [exact H1|]. by apply alike_addClasses; constructor.
  - intros i Hi. rewrite hasClass_addClasses.
    2: { apply Forall_forall. intros j Hj. by apply links_lt, Hl. }
    rewrite C1, orb_false_r, existsb_eqb by done.
    replace (shows d0 a i) with (points_to d a i) by (rewrite <- (points_to_similar d0 d a i H1); by destruct a).
    destruct (points_to d a i) eqn:E.
    + apply bool_decide_eq_true. apply list_elem_of_In, filter_In. split; [|done]. apply list_elem_of_In.
      change (i ∈ links d). by rewrite <- (links_similar d0 d H1).
    + apply bool_decide_eq_false. intros [_ Hn]%list_elem_of_In%filter_In.
      change (points_to d a i = true) in Hn. by rewrite E in Hn.
Qed.

Lemma refresh_linked d0 y s : linked d0 s -> linked d0 (refresh y s).
Proof. by intros [A B]. Qed.

Lemma consider_linked d0 top i s : flat d0 -> linked d0 s -> linked d0 (consider o top i s).
Proof.
  intros Hf Hs. unfold consider. destruct (offsets s !! i), (targets s !! i); try done.
  destruct (_ && _); [|done]. by apply activate_linked; [|apply Hs|].
Qed.

Lemma process_linked d0 y s : flat d0 -> linked d0 s -> linked d0 (process y s).
Proof.
  intros Hf Hs. unfold Spy.process. set (s1 := if (_ =? _)%Z then s else refresh y s).
  assert (linked d0 s1) as H1 by (unfold s1; destruct (_ =? _)%Z; [done|by apply refresh_linked]).
  clearbody s1. destruct (_ <=? _).
  - case_bool_decide; [done|]. apply activate_linked; [done|apply H1|]. by destruct (last _).
  - destruct (match activeTarget s1 with Target _ => _ | _ => _ end).
    + destruct (clear_linked d0 (s1 <| activeTarget := Null |>) (ln_similar _ _ H1)) as [A B]. by split.
    + generalize (seq 0 (length (offsets s1))) as ks. intros ks.
      induction ks as [|i ks IH]; cbn; [done|]. by apply consider_linked.
Qed.

Lemma create_linked d y : flat d -> linked d (create o escapeSelector query d y).
Proof.
  intros Hf. unfold create. apply process_linked, refresh_linked; [done|]. split; [reflexivity|].
  intros i Hi. pose proof (fl_active d Hf) as Ha. rewrite existsb_false in Ha. by apply Ha.
Qed.

(** In a flat navigation, in every state until the spy is disposed of, the active
    links are exactly those that point to the active target. *)
Theorem spy_links acts d y i :
  flat d -> i ∈ links d ->
  let s := run acts (create o escapeSelector query d y) in
  disposed s = false -> hasClass (doc s) "active" i = shows d (activeTarget s) i.
Proof.
  intros Hf Hi s Hd. assert (disposed s = false -> linked d s) as H; [|by apply (ln_active d s (H Hd))]. clear Hd.
  unfold s. generalize (create_linked d y Hf). generalize (create o escapeSelector query d y) as s0. clear s.
  induction acts as [|a acts IH] using rev_ind; intros s0 H0; [by intros _|]. unfold run. rewrite fold_left_app.
  cbn [fold_left]. change (fold_left _ acts s0) with (run acts s0). specialize (IH s0 H0).
  set (s := run acts s0) in *. clearbody s. unfold Spy.act. destruct (disposed s) eqn:E; [by rewrite E|]. specialize (IH eq_refl).
  destruct a as [y'|y'| |]; intros Hd.
  - by apply refresh_linked.
  - by apply process_linked.
  - done.
  - destruct IH as [A B]. by split.
Qed.
End spy.

(** ** Runs

    The theorems of [BsSpyFlow] at a page with three sections, and two uses in which
    the spy does not do what a page would expect. *)


Definition spy_link (target : string) : node := mk_node "A" (Some 2%nat) ["nav-link"] [("href", target)]%string.
Definition spy_page : dom := [
  mk_node "#document" None [] []; mk_node "BODY" (Some 0%nat) [] []; mk_node "NAV" (Some 1%nat) ["nav"] [];
  spy_link "#a"; spy_link "#b"; spy_link "#c";
  mk_node "DIV" (Some 1%nat) [] []; mk_node "DIV" (Some 1%nat) [] []; mk_node "DIV" (Some 1%nat) [] []]%string.

Definition spy_query (s : string) : option (list nat) :=
  if String.eqb s "#a" then Some [6%nat] else if String.eqb s "#b" then Some [7%nat]
  else if String.eqb s "#c" then Some [8%nat] else Some [].

Definition spy_options : options := mk_options 10 Auto (Some 1%nat) true.

(** The sections begin at 100, 700 and 400; the page is [h] high, 300 of it is seen. *)
Definition at_ (h top : Z) : layout :=
  mk_layout top h 300 (fun _ => (500, 100)) (fun i => if (i =? 6)%nat then 100 else if (i =? 7)%nat then 700 else 400) (fun _ => 0).

Abbreviation spy0 := (create spy_options None spy_query spy_page (at_ 1200 0)).
Abbreviation spied := (run spy_options None spy_query).

Example spy_usage :
  (fun top => activeTarget (spied [Scroll (at_ 1200 top)] spy0)) <$> [0; 89; 90; 390; 689; 690; 899; 900] =
  [Null; Null; Target "#a"; Target "#c"; Target "#c"; Target "#b"; Target "#b"; Target "#b"]%string.
Proof. by vm_compute. Qed.

Example spy_follows_witness :
  let s := spied [Scroll (at_ 1200 400); CallUnknown] spy0 in
  let s' := act spy_options None spy_query (Scroll (at_ 1300 0)) s in
  let l := items_after spy_options None spy_query (at_ 1300 0) s (zip (offsets s) (targets s)) in
  offsets s' = l.*1 /\ targets s' = l.*2 /\ in_order l /\
  activeTarget s' = expected (0 + 10) (10 + 1300 - 300) l (activeTarget s).
Proof.
  apply (spy_follows spy_options None spy_query [Scroll (at_ 1200 400); CallUnknown] spy_page (at_ 1200 0) (at_ 1300 0)).
  by vm_compute.
Defined.

Example spy_links_witness :
  let s := spied [Scroll (at_ 1200 400); Refresh (at_ 1200 500)] spy0 in
  hasClass (doc s) "active" 5 = shows spy_page (activeTarget s) 5.
Proof.
  apply (spy_links spy_options None spy_query [Scroll (at_ 1200 400); Refresh (at_ 1200 500)] spy_page (at_ 1200 0) 5).
  - by split; vm_compute.
  - apply (bool_decide_unpack _). by vm_compute.
  - by vm_compute.
Defined.

(** *** Nothing to activate

    On a page that is not scrolled and whose navigation has no targets, the target
    [undefined] is activated, and told. *)
Example activates_nothing :
  let s := create (mk_options 10 Auto (Some 6%nat) true) None spy_query spy_page (at_ 300 0) in
  targets s = [] /\ activeTarget s = Undefined /\ told s = [EvActivate Undefined].
Proof. by vm_compute. Qed.

(** *** Sections that move while the page keeps its height

    The offsets are measured anew only when the height changes. *)
Example stale_offsets :
  let moved top := mk_layout top 1200 300 (fun _ => (500, 100)) (fun i => if (i =? 6)%nat then 100 else if (i =? 7)%nat then 400 else 700) (fun _ => 0) in
  activeTarget (spied [Scroll (moved 500)] spy0) = Target "#c" /\
  activeTarget (spied [Refresh (moved 500); Scroll (moved 500)] spy0) = Target "#b".
Proof. by vm_compute. Qed.
