(* ===== verification/BsDropdown.v ===== *)
(** * Bootstrap: dropdown.js

    Models [Dropdown] of [2019104233/src/scripts/bluelog/bluelog/static/js/bootstrap.js]
    on the document of [BsDom]: opening and closing menus, the way of clicks and keys
    through the document, the focus, and the poppers that are made.  Popper itself is
    not modelled, only when one is made and destroyed and with which configuration.
    What a selector finds is an argument; listeners of the page only allow or prevent. *)

From S2P Require Export BsDom.

Module Dropdown.

Definition Default : config :=
  list_to_map [("offset", VNum 0); ("flip", VBool true); ("boundary", VStr "scrollParent")]%string.
Definition DefaultType : configTypes :=
  [("offset", ["number"; "string"; "function"]); ("flip", ["boolean"]); ("boundary", ["string"; "element"])]%string.

Definition ESCAPE : Z := 27.
Definition SPACE : Z := 32.
Definition TAB : Z := 9.
Definition ARROW_UP : Z := 38.
Definition ARROW_DOWN : Z := 40.
Definition RIGHT_BUTTON : Z := 3.

(** [REGEXP_KEYDOWN.test(which)], not anchored. *)
Definition is_command (which : Z) : bool :=
  let s := pretty which in occurs "38" s || occurs "40" s || occurs "27" s.

Inductive devent :=
  | EvShow (on : nat) (rel : nat) | EvShown (on : nat) (rel : nat)
  | EvHide (on : nat) (rel : nat) | EvHidden (on : nat) (rel : nat) | Thrown.

(** What is given to the constructor of Popper. *)
Record popper_config := mk_popper_config { placement : string; p_offset : cvalue; p_flip : cvalue; p_boundary : cvalue }.
Record popper := mk_popper { p_id : nat; reference : nat; p_menu : option nat; p_config : popper_config }.

Record instance := mk_instance {
  of_element : nat; menu : option nat; inNavbar : bool; i_popper : option nat; i_config : config;
}.
#[export] Instance instance_eta : Settable instance := fun i =>
  mk_instance (of_element i) (menu i) (inNavbar i) (i_popper i) (i_config i).

(** [d_data] has the instance of an element, which also listens for clicks on it;
    [poppers] are those alive, [noops] counts the listeners added to each child of the
    body. *)
Record page := mk_page {
  doc : dom; d_insts : list instance; d_data : gmap nat nat; poppers : list popper; d_fresh : nat;
  focused : option nat; noops : nat; told : list devent;
}.
#[export] Instance page_eta : Settable page := fun p =>
  mk_page (doc p) (d_insts p) (d_data p) (poppers p) (d_fresh p) (focused p) (noops p) (told p).

Definition create (d : dom) : page := mk_page d [] ∅ [] 0 None 0 [].
Definition tell (ev : devent) (p : page) : page := p <| told := told p ++ [ev] |>.
Definition on_doc (f : dom -> dom) (p : page) : page := p <| doc := f (doc p) |>.
Definition focus (e : nat) (p : page) : page := p <| focused := Some e |>.
Definition set_inst (i : nat) (f : instance -> instance) (p : page) : page := p <| d_insts := alter f i (d_insts p) |>.

Definition is_toggle (d : dom) (i : nat) : bool := bool_decide (getAttribute d "data-toggle" i = Some "dropdown"%string).

(** [element.disabled], a property of controls only. *)
Definition disabled (d : dom) (i : nat) : bool :=
  (is_a d "BUTTON" i || is_a d "INPUT" i || is_a d "SELECT" i || is_a d "TEXTAREA" i) &&
  bool_decide (getAttribute d "disabled" i <> None).

Definition is_text (d : dom) (i : nat) : bool := is_a d "INPUT" i || is_a d "TEXTAREA" i.

Section dropdown.
(** [document.documentElement] knows touches; Popper is loaded; the data of an element. *)
Context (escapeSelector : option (string -> string)) (query : string -> option (list nat)).
Context (allow : devent -> bool) (touch has_popper : bool) (data_config : nat -> config).

Definition finds (s : string) : option bool :=
  (fun l : list nat => match l with [] => false | _ => true end) <$> query s.

Definition getParentFromElement (d : dom) (e : nat) : option nat :=
  let selector := getSelectorFromElement escapeSelector finds (getAttribute d "data-target" e) (getAttribute d "href" e) in
  let found := match selector with
               | Some s => if String.eqb s "" then None else query s ≫= head
               | None => None
               end in
  match found with Some p => Some p | None => parent d e end.

Definition getMenuElement (d : dom) (e : nat) : option nat :=
  p ← getParentFromElement d e; head (find (hasClass d "dropdown-menu") d p).

Definition detectNavbar (d : dom) (e : nat) : bool :=
  match closest (hasClass d "navbar") d e with Some _ => true | None => false end.

Definition has_class_opt (d : dom) (c : string) (o : option nat) : bool :=
  match o with Some i => hasClass d c i | None => false end.

Definition getPlacement (d : dom) (i : instance) : string :=
  let p := parent d (of_element i) in
  if has_class_opt d "dropup" p then
    if has_class_opt d "dropdown-menu-right" (menu i) then "top-end" else "top-start"
  else if has_class_opt d "dropright" p then "right-start"
  else if has_class_opt d "dropleft" p then "left-start"
  else if has_class_opt d "dropdown-menu-right" (menu i) then "bottom-end"
  else "bottom-start".

Definition getPopperConfig (d : dom) (i : instance) : popper_config :=
  mk_popper_config (getPlacement d i) (option_of (i_config i) "offset") (option_of (i_config i) "flip")
    (option_of (i_config i) "boundary").

(** ** Closing *)

(** The events that close menus: none, a click, or a key that goes up. *)
Inductive origin := NoEvent | ClickEvent (which : Z) (target : nat) | KeyUp (which : Z) (target : nat).

Definition not_for_menus (ev : origin) : bool :=
  match ev with
  | NoEvent => false
  | ClickEvent which _ => which =? RIGHT_BUTTON
  | KeyUp which _ => (which =? RIGHT_BUTTON) || negb (which =? TAB)
  end.

(** The event happened inside of [p], where it does not close. *)
Definition stays_inside (d : dom) (ev : origin) (p : option nat) : bool :=
  let inside_p target := match p with Some p => inside d p target | None => false end in
  match ev with
  | NoEvent => false
  | ClickEvent _ target => is_text d target && inside_p target
  | KeyUp which target => (which =? TAB) && inside_p target
  end.

(** One turn of the loop of [_clearMenus], for the toggle [e]. *)
Definition clear_menu (ev : origin) (p : page) (e : nat) : page :=
  let d := doc p in
  match d_data p !! e ≫= fun i => d_insts p !! i, getParentFromElement d e with
  | Some context, Some parent =>
      if negb (hasClass d "show" parent) then p
      else if stays_inside d ev (Some parent) then p
      else
        let p := tell (EvHide parent e) p in
        if negb (allow (EvHide parent e)) then p
        else
          let p := if touch then p <| noops := 0%nat |> else p in
          let p := on_doc (setAttribute "aria-expanded" "false" e) p in
          let p := match menu context with Some m => on_doc (removeClass "show" m) p | None => p end in
          tell (EvHidden parent e) (on_doc (removeClass "show" parent) p)
  | _, _ => p
  end.

Definition clearMenus (ev : origin) (p : page) : page :=
  if not_for_menus ev then p
  else fold_left (clear_menu ev) (List.filter (is_toggle (doc p)) (nodes (doc p))) p.

(** ** Opening *)

Definition make_popper (i : nat) (x : instance) (par : option nat) (p : page) : page :=
  let d := doc p in
  let element := if has_class_opt d "dropup" par &&
                    (has_class_opt d "dropdown-menu-left" (menu x) || has_class_opt d "dropdown-menu-right" (menu x))
                 then default (of_element x) par else of_element x in
  let p := match par, option_of (i_config x) "boundary" with
           | Some q, VStr s => if String.eqb s "scrollParent" then p else on_doc (addClass "position-static" q) p
           | Some q, _ => on_doc (addClass "position-static" q) p
           | None, _ => p
           end in
  let id := d_fresh p in
  set_inst i (fun x => x <| i_popper := Some id |>)
    (p <| d_fresh := S id |> <| poppers := poppers p ++ [mk_popper id element (menu x) (getPopperConfig d x)] |>).

(** The end of [toggle]: the menu [m] and the parent change their class. *)
Definition open (e : nat) (par m : option nat) (p : page) : page :=
  let p := if touch && negb (match par with
                             | Some q => bool_decide (closest (hasClass (doc p) "navbar-nav") (doc p) q <> None)
                             | None => false
                             end)
           then p <| noops := S (noops p) |> else p in
  let p := on_doc (setAttribute "aria-expanded" "true" e) (focus e p) in
  let flip p o := match o with
                  | Some i => on_doc (toggleClass "show" (negb (hasClass (doc p) "show" i)) i) p
                  | None => p
                  end in
  let p := flip (flip p m) par in
  match par with Some q => tell (EvShown q e) p | None => p end.

(** [toggle] of the instance [i]. *)
Definition toggle (i : nat) (p : page) : page :=
  match d_insts p !! i with
  | None => p
  | Some x =>
      let d := doc p in
      let e := of_element x in
      if disabled d e || hasClass d "disabled" e then p
      else
        let par := getParentFromElement d e in
        let isActive := has_class_opt d "show" (menu x) in
        let p := clearMenus NoEvent p in
        if isActive then p
        else
          let p := match par with Some q => tell (EvShow q e) p | None => p end in
          if match par with Some q => negb (allow (EvShow q e)) | None => false end then p
          else if negb (inNavbar x) && negb has_popper then tell Thrown p
          else open e par (menu x) (if inNavbar x then p else make_popper i x par p)
  end.

Definition dispose (i e : nat) (p : page) : page :=
  let q := x ← d_insts p !! i; i_popper x in
  let p := p <| d_data := delete e (d_data p) |> in
  let p := set_inst i (fun x => x <| menu := None |> <| i_popper := None |>) p in
  match q with Some id => p <| poppers := List.filter (fun x => negb (p_id x =? id)%nat) (poppers p) |> | None => p end.

(** Popper is asked for an update, which is not modelled. *)
Definition update (i e : nat) (p : page) : page :=
  set_inst i (fun x => x <| inNavbar := detectNavbar (doc p) e |>) p.

Inductive method := MToggle | MDispose | MUpdate | MUnknown.

(** [_jQueryInterface] on one element, with a method or with options. *)
Definition jQueryInterface (a : option method * config) (e : nat) (p : page) : page :=
  let call i p :=
    match a.1 with
    | Some MToggle => toggle i p
    | Some MDispose => dispose i e p
    | Some MUpdate => update i e p
    | Some MUnknown => tell Thrown p
    | None => p
    end in
  match d_data p !! e with
  | Some i => call i p
  | None =>
      match getConfig "dropdown" Default DefaultType (extend (data_config e) (a.2)) with
      | inl c =>
          let i := length (d_insts p) in
          let x := mk_instance e (getMenuElement (doc p) e) (detectNavbar (doc p) e) None c in
          call i (p <| d_insts := d_insts p ++ [x] |> <| d_data := <[e := i]> (d_data p) |>)
      | inr _ => tell Thrown p
      end
  end.

(** ** Clicks and keys *)

(** A click goes up from its target to the element of an instance, which stops it; else
    to the document, where a toggle or a form inside of a drop-down stops it. *)
Definition click (which : Z) (target : nat) (p : page) : page :=
  let d := doc p in
  match closest (fun i => bool_decide (d_data p !! i <> None)) d target with
  | Some e => match d_data p !! e with Some i => toggle i p | None => p end
  | None =>
      let form i := is_a d "FORM" i && bool_decide (closest (hasClass d "dropdown") d i <> None) in
      match closest (fun i => is_toggle d i || form i) d target with
      | Some e => if is_toggle d e then jQueryInterface (Some MToggle, ∅) e p else p
      | None => clearMenus (ClickEvent which target) p
      end
  end.

Definition keyup (which : Z) (target : nat) (p : page) : page := clearMenus (KeyUp which target) p.

Definition ignored (d : dom) (which : Z) (target : nat) : bool :=
  if is_text d target then
    (which =? SPACE) ||
    negb (which =? ESCAPE) &&
    (negb (which =? ARROW_DOWN) && negb (which =? ARROW_UP) ||
     bool_decide (closest (hasClass d "dropdown-menu") d target <> None))
  else negb (is_command which).

(** ['.dropdown-menu .dropdown-item:not(.disabled)'] inside [q]. *)
Definition visible_items (d : dom) (q : nat) : list nat :=
  find (fun i => hasClass d "dropdown-item" i && negb (hasClass d "disabled" i) &&
          existsb (fun m => hasClass d "dropdown-menu" m && inside d q m) (ancestors d i)) d q.

(** The index the focus goes to, from the index of the target. *)
Definition next_index (which : Z) (n : nat) (index : Z) : Z :=
  let index := if (which =? ARROW_UP) && (0 <? index) then index - 1 else index in
  let index := if (which =? ARROW_DOWN) && (index <? Z.of_nat n - 1) then index + 1 else index in
  if index <? 0 then 0 else index.

Definition index_of (i : nat) (l : list nat) : Z :=
  match list_find (fun j => j = i) l with Some (k, _) => Z.of_nat k | None => -1 end.

(** [_dataApiKeydownHandler], [this] being a toggle or a menu. *)
Definition keydown_at (which : Z) (target this : nat) (p : page) : page :=
  let d := doc p in
  if disabled d this || hasClass d "disabled" this then p
  else
    let par := getParentFromElement d this in
    let isActive := has_class_opt d "show" par in
    if negb isActive && (negb (which =? ESCAPE) || negb (which =? SPACE)) ||
       isActive && ((which =? ESCAPE) || (which =? SPACE))
    then
      let p := if which =? ESCAPE
               then match q ← par; head (find (is_toggle d) d q) with Some t => focus t p | None => p end
               else p in
      click 0 this p
    else
      match par with
      | Some q =>
          let items := visible_items d q in
          match items !! Z.to_nat (next_index which (length items) (index_of target items)) with
          | Some i => focus i p
          | None => p
          end
      | None => p
      end.

Definition keydown (which : Z) (target : nat) (p : page) : page :=
  let d := doc p in
  match closest (fun i => is_toggle d i || hasClass d "dropdown-menu" i) d target with
  | Some this => if ignored d which target then p else keydown_at which target this p
  | None => p
  end.

Inductive daction :=
  | Call (a : option method * config) (e : nat) | Click (which : Z) (target : nat)
  | KeyUpAt (which : Z) (target : nat) | KeyDown (which : Z) (target : nat).

Definition act (a : daction) (p : page) : page :=
  match a with
  | Call a e => jQueryInterface a e p
  | Click which target => click which target p
  | KeyUpAt which target => keyup which target p
  | KeyDown which target => keydown which target p
  end.
End dropdown.
End Dropdown.
