(* ===== verification/BsDropdownFlow.v ===== *)
(** * Bootstrap: dropdown.js, its properties

    On a page whose drop-downs have a parent and a menu of their own, one at most is
    open, with the classes and the attribute that say so; a click on its toggle opens or
    closes it; the keys move the focus within the menu. *)

From S2P Require Export BsDropdown.
Import Dropdown.

(** A toggle, its parent and its menu. *)
Record drop := mk_drop { d_t : nat; d_q : nat; d_m : nat }.
#[global] Instance drop_eq_dec : EqDecision drop.
Proof. solve_decision. Defined.

Definition drop_classes : list string := ["show"; "position-static"]%string.
Definition drop_attrs : list string := ["aria-expanded"]%string.
Abbreviation similar := (alike drop_classes drop_attrs).

Ltac other_name := by intros ?; repeat match goal with H : _ ∈ _ |- _ => apply elem_of_cons in H as [H|H] || by apply elem_of_nil in H end.

Lemma getAttribute_set d k v i k' j :
  (i < length d)%nat ->
  getAttribute (setAttribute k v i d) k' j = if bool_decide (i = j /\ k = k') then Some v else getAttribute d k' j.
Proof.
  intros Hi. unfold getAttribute, setAttribute. destruct (decide (i = j)) as [<-|Hne].
  - rewrite list_lookup_alter_eq. destruct (lookup_lt_is_Some_2 d i Hi) as [x ->]. cbn. rewrite attribute_put.
    destruct (String.eqb_spec k' k) as [->|Hk]; [by rewrite bool_decide_eq_true_2|].
    rewrite bool_decide_eq_false_2; [done|]. by intros [_ ?].
  - rewrite list_lookup_alter_ne by done. rewrite bool_decide_eq_false_2; [done|]. by intros [? _].
Qed.

Lemma getAttribute_addClass d c k i j : getAttribute (addClass c i d) k j = getAttribute d k j.
Proof.
  unfold getAttribute, addClass. destruct (decide (i = j)) as [<-|Hne].
  - rewrite list_lookup_alter_eq. destruct (d !! i) as [x|]; [|done]. cbn. unfold put_class. by destruct (has c x).
  - by rewrite list_lookup_alter_ne.
Qed.

Lemma getAttribute_removeClass d c k i j : getAttribute (removeClass c i d) k j = getAttribute d k j.
Proof.
  unfold getAttribute, removeClass. destruct (decide (i = j)) as [<-|Hne].
  - rewrite list_lookup_alter_eq. by destruct (d !! i).
  - by rewrite list_lookup_alter_ne.
Qed.

Section flow.
Context (escapeSelector : option (string -> string)) (query : string -> option (list nat)).
Context (allow : devent -> bool) (touch : bool) (data_config : nat -> config).
(** The page never prevents a menu from closing. *)
Context (Hallow : forall q t, allow (EvHide q t) = true).

Abbreviation parent_of := (getParentFromElement escapeSelector query).
Abbreviation menu_of := (getMenuElement escapeSelector query).
Abbreviation act := (act escapeSelector query allow touch true data_config).
Abbreviation toggle := (toggle escapeSelector query allow touch true).
Abbreviation clearMenus := (clearMenus escapeSelector query allow touch).
Abbreviation clear_menu := (clear_menu escapeSelector query allow touch).
Abbreviation interface := (jQueryInterface escapeSelector query allow touch true data_config).

(** The drop-downs of a document. *)
Definition drop_of (d : dom) (x : drop) : Prop :=
  parent_of d (d_t x) = Some (d_q x) /\ menu_of d (d_t x) = Some (d_m x) /\
  (d_t x < length d)%nat /\ (d_q x < length d)%nat /\ (d_m x < length d)%nat.

Record tidy (d : dom) (ds : list drop) : Prop := {
  ti_toggles : List.filter (is_toggle d) (nodes d) = d_t <$> ds;
  ti_each : Forall (drop_of d) ds;
  ti_nodup : NoDup ((d_q <$> ds) ++ (d_m <$> ds));
  ti_nest : Forall (fun x => existsb (is_toggle d) (ancestors d (d_t x)) = false) ds;
}.

Lemma parent_of_similar d d' e : similar d d' -> parent_of d e = parent_of d' e.
Proof.
  intros H. unfold getParentFromElement.
  rewrite (getAttribute_alike _ _ _ _ "data-target" e H), (getAttribute_alike _ _ _ _ "href" e H) by other_name.
  by rewrite (parent_alike _ _ _ _ H e e eq_refl).
Qed.

Lemma menu_of_similar d d' e : similar d d' -> menu_of d e = menu_of d' e.
Proof.
  intros H. unfold getMenuElement. rewrite (parent_of_similar d d' e H). destruct (parent_of d' e) as [q|]; [|done]. cbn.
  f_equal. apply (find_alike _ _ _ _ _ _ _ H). intros j. apply (hasClass_alike _ _ _ _ _ j H). other_name.
Qed.

Lemma is_toggle_similar d d' e : similar d d' -> is_toggle d e = is_toggle d' e.
Proof.
  intros H. unfold is_toggle. by rewrite (getAttribute_alike _ _ _ _ "data-toggle" e H) by other_name.
Qed.

Lemma tidy_similar d d' ds : similar d d' -> tidy d ds -> tidy d' ds.
Proof.
  intros H [A B C D]. split; [|..|done|].
  - rewrite <- A, (nodes_alike _ _ _ _ H). apply List.filter_ext. intros i. symmetry. by apply is_toggle_similar.
  - eapply Forall_impl; [exact B|]. intros x (B1 & B2 & B3). unfold drop_of.
    by rewrite <- (parent_of_similar d d'), <- (menu_of_similar d d'), <- (length_alike _ _ _ _ H).
  - eapply Forall_impl; [exact D|]. intros x. cbn beta. intros Hx. etrans; [|exact Hx].
    rewrite (ancestors_alike _ _ _ _ H (d_t x) _ eq_refl). induction (ancestors d' (d_t x)) as [|a l IH]; cbn; [done|].
    by rewrite IH, (is_toggle_similar d d').
Qed.

Context (d0 : dom) (ds : list drop) (Htidy : tidy d0 ds).

Lemma drop_inj_t x y : x ∈ ds -> y ∈ ds -> d_t x = d_t y -> x = y.
Proof.
  apply NoDup_fmap_inj. rewrite <- (ti_toggles _ _ Htidy). apply NoDup_ListNoDup, List.NoDup_filter, seq_NoDup.
Qed.

Lemma drop_inj_q x y : x ∈ ds -> y ∈ ds -> d_q x = d_q y -> x = y.
Proof. apply NoDup_fmap_inj. by pose proof (ti_nodup _ _ Htidy) as (? & _)%NoDup_app. Qed.

Lemma drop_inj_m x y : x ∈ ds -> y ∈ ds -> d_m x = d_m y -> x = y.
Proof. apply NoDup_fmap_inj. by pose proof (ti_nodup _ _ Htidy) as (_ & _ & ?)%NoDup_app. Qed.

Lemma drop_apart x y : x ∈ ds -> y ∈ ds -> d_q x <> d_m y.
Proof.
  intros Hx Hy E. pose proof (ti_nodup _ _ Htidy) as (_ & Hn & _)%NoDup_app.
  apply (Hn (d_q x)); [by apply list_elem_of_fmap_2|]. rewrite E. by apply list_elem_of_fmap_2.
Qed.

Lemma drop_ne x y :
  x ∈ ds -> y ∈ ds -> x <> y ->
  (d_q y =? d_q x)%nat = false /\ (d_m y =? d_m x)%nat = false /\
  (d_q y =? d_m x)%nat = false /\ (d_m y =? d_q x)%nat = false.
Proof.
  intros Hx Hy Hne. split_and!; apply Nat.eqb_neq; intros E.
  - by apply Hne, drop_inj_q.
  - by apply Hne, drop_inj_m.
  - by apply (drop_apart y x).
  - by apply (drop_apart x y).
Qed.

(** What the document says of [x]: the class of its parent, of its menu, and the attribute
    of its toggle. *)
Definition says (d : dom) (x : drop) (b : bool) : Prop :=
  hasClass d "show" (d_q x) = b /\ hasClass d "show" (d_m x) = b /\
  bool_decide (getAttribute d "aria-expanded" (d_t x) = Some "true"%string) = b.

(** [o] is the one that is open. *)
Definition shows (d : dom) (o : option drop) : Prop :=
  similar d0 d /\ forall x, x ∈ ds -> says d x (bool_decide (o = Some x)).

Definition instance_of (p : page) (i : nat) (x : drop) : Prop :=
  exists y, d_insts p !! i = Some y /\ of_element y = d_t x /\ menu y = Some (d_m x).

Record fine (p : page) (o : option drop) : Prop := {
  fi_shows : shows (doc p) o;
  fi_data : forall e i, d_data p !! e = Some i -> exists x, x ∈ ds /\ e = d_t x /\ instance_of p i x;
  fi_open : forall x, o = Some x -> x ∈ ds /\ exists i, d_data p !! d_t x = Some i;
}.

(** ** Closing and opening one *)

Definition close_doc (x : drop) (d : dom) : dom :=
  removeClass "show" (d_q x) (removeClass "show" (d_m x) (setAttribute "aria-expanded" "false" (d_t x) d)).

Definition open_doc (x : drop) (d : dom) : dom :=
  addClass "show" (d_q x) (addClass "show" (d_m x) (setAttribute "aria-expanded" "true" (d_t x) d)).

Lemma similar_close x d : similar d (close_doc x d).
Proof.
  unfold close_doc. etrans; [by apply alike_setAttribute; constructor|].
  etrans; [by apply alike_removeClass; constructor|]. by apply alike_removeClass; constructor.
Qed.

Lemma similar_open x d : similar d (open_doc x d).
Proof.
  unfold open_doc. etrans; [by apply alike_setAttribute; constructor|].
  etrans; [by apply alike_addClass; constructor|]. by apply alike_addClass; constructor.
Qed.

Lemma drop_lt d x : similar d0 d -> x ∈ ds -> (d_t x < length d)%nat /\ (d_q x < length d)%nat /\ (d_m x < length d)%nat.
Proof.
  intros H Hx. pose proof (proj1 (Forall_forall _ _) (ti_each _ _ Htidy) x Hx) as (_ & _ & A & B & C).
  by rewrite <- (length_alike _ _ _ _ H).
Qed.

Lemma says_close d x y b :
  similar d0 d -> x ∈ ds -> y ∈ ds -> says d y b -> says (close_doc x d) y (negb (bool_decide (x = y)) && b).
Proof.
  intros H Hx Hy (A & B & C). destruct (drop_lt d x H Hx) as (L1 & L2 & L3).
  unfold says, close_doc. rewrite !hasClass_removeClass, !hasClass_setAttribute, A, B, !getAttribute_removeClass.
  rewrite getAttribute_set by done. cbn [String.eqb Ascii.eqb Bool.eqb andb negb].
  destruct (decide (x = y)) as [->|Hne].
  - rewrite !Nat.eqb_refl, !(bool_decide_eq_true_2 (_ /\ _)) by done. cbn. rewrite bool_decide_eq_true_2 by done.
    split_and!; [by rewrite ?andb_false_r|by rewrite ?andb_false_r|done].
  - rewrite (bool_decide_eq_false_2 (_ /\ _)) by (intros [E _]; by apply Hne, drop_inj_t). rewrite (bool_decide_eq_false_2 (x = y)) by done. cbn.
    by destruct (drop_ne x y Hx Hy Hne) as (-> & -> & -> & ->).
Qed.

Lemma says_open d x y b :
  similar d0 d -> x ∈ ds -> y ∈ ds -> says d y b -> says (open_doc x d) y (bool_decide (x = y) || b).
Proof.
  intros H Hx Hy (A & B & C). destruct (drop_lt d x H Hx) as (L1 & L2 & L3).
  unfold says, open_doc.
  rewrite !hasClass_addClass by (rewrite ?length_addClass, ?length_setAttribute; done).
  rewrite !hasClass_setAttribute, A, B, !getAttribute_addClass.
  rewrite getAttribute_set by done. cbn [String.eqb Ascii.eqb Bool.eqb andb negb].
  destruct (decide (x = y)) as [->|Hne].
  - rewrite !Nat.eqb_refl, !(bool_decide_eq_true_2 (_ /\ _)) by done. cbn. rewrite bool_decide_eq_true_2 by done.
    split_and!; [done|by rewrite ?orb_true_r|done].
  - rewrite (bool_decide_eq_false_2 (_ /\ _)) by (intros [E _]; by apply Hne, drop_inj_t). rewrite (bool_decide_eq_false_2 (x = y)) by done. cbn.
    by destruct (drop_ne x y Hx Hy Hne) as (-> & -> & -> & ->).
Qed.

Lemma shows_close d x : shows d (Some x) -> x ∈ ds -> shows (close_doc x d) None.
Proof.
  intros [H Hs] Hx. split; [etrans; [exact H|apply similar_close]|]. intros y Hy.
  pose proof (says_close d x y _ H Hx Hy (Hs y Hy)) as Hc. revert Hc.
  destruct (decide (x = y)) as [->|Hne]; [by rewrite bool_decide_eq_true_2|].
  rewrite (bool_decide_eq_false_2 (x = y)), (bool_decide_eq_false_2 (Some x = Some y)) by congruence. done.
Qed.

Lemma shows_open d x : shows d None -> x ∈ ds -> shows (open_doc x d) (Some x).
Proof.
  intros [H Hs] Hx. split; [etrans; [exact H|apply similar_open]|]. intros y Hy.
  pose proof (says_open d x y _ H Hx Hy (Hs y Hy)) as Hc. rewrite orb_false_r in Hc.
  destruct (decide (x = y)) as [->|Hne]; [by rewrite bool_decide_eq_true_2 in Hc |- *|].
  rewrite bool_decide_eq_false_2 in Hc |- * by congruence. done.
Qed.

Definition closed (x : drop) (p : page) : page :=
  tell (EvHidden (d_q x) (d_t x)) (on_doc (close_doc x)
    ((if touch then (fun p => p <| noops := 0%nat |>) else id) (tell (EvHide (d_q x) (d_t x)) p))).

Lemma closed_frame x p :
  doc (closed x p) = close_doc x (doc p) /\ d_data (closed x p) = d_data p /\ d_insts (closed x p) = d_insts p /\
  told (closed x p) = told p ++ [EvHide (d_q x) (d_t x); EvHidden (d_q x) (d_t x)] /\ focused (closed x p) = focused p.
Proof. unfold closed. destruct touch; cbn; by rewrite <- app_assoc. Qed.

Lemma fine_closed x p : fine p (Some x) -> fine (closed x p) None.
Proof.
  intros [A B C]. destruct (C x eq_refl) as [Hx _]. destruct (closed_frame x p) as (E1 & E2 & E3 & _).
  split; [rewrite E1; by apply shows_close| |done].
  intros e i. rewrite E2. intros Hi. destruct (B e i Hi) as (y & Hy & Ey & I). exists y. unfold instance_of. by rewrite E3.
Qed.

Lemma clear_menu_spec ev p o x :
  fine p o -> x ∈ ds ->
  clear_menu ev p (d_t x) =
    if bool_decide (o = Some x) && negb (stays_inside (doc p) ev (Some (d_q x))) then closed x p else p.
Proof.
  intros [[Hd Hs] B C] Hx. pose proof (proj1 (Forall_forall _ _) (ti_each _ _ Htidy) x Hx) as (P & _).
  rewrite (parent_of_similar d0 (doc p) _ Hd) in P. destruct (Hs x Hx) as (S1 & _).
  unfold Dropdown.clear_menu. rewrite P, S1. case_bool_decide as Ho.
  - destruct (C x Ho) as [_ [i Hi]]. destruct (B _ i Hi) as (y & Hy & Ey & (z & Ez & _ & Em)).
    apply drop_inj_t in Ey as <-; [|done..]. rewrite Hi. cbn [mbind option_bind]. rewrite Ez. cbn [negb].
    destruct (stays_inside _ _ _); [done|]. cbn [andb negb]. rewrite Hallow. cbn [negb]. rewrite Em.
    unfold closed. by destruct touch.
  - cbn. by destruct (d_data p !! d_t x ≫= _).
Qed.

Lemma clear_rest ev p l : fine p None -> (forall x, x ∈ l -> x ∈ ds) -> fold_left (clear_menu ev) (d_t <$> l) p = p.
Proof.
  intros Hp. induction l as [|x l IH]; intros Hl; cbn; [done|]. rewrite (clear_menu_spec ev p None x Hp) by (apply Hl; constructor).
  apply IH. intros y Hy. apply Hl. by constructor.
Qed.

Lemma clear_list ev p x l :
  fine p (Some x) -> (forall y, y ∈ l -> y ∈ ds) -> x ∈ l ->
  fold_left (clear_menu ev) (d_t <$> l) p = if stays_inside (doc p) ev (Some (d_q x)) then p else closed x p.
Proof.
  intros Hp. induction l as [|y l IH]; intros Hl Hx; [by apply elem_of_nil in Hx|]. cbn.
  rewrite (clear_menu_spec ev p (Some x) y Hp) by (apply Hl; constructor).
  destruct (decide (y = x)) as [->|Hne].
  - rewrite bool_decide_eq_true_2 by done. destruct (stays_inside _ _ _) eqn:E; cbn.
    + destruct (decide (x ∈ l)) as [Hin|Hn]; [by apply IH; [intros y Hy; apply Hl; by constructor|]|].
      clear IH Hx. assert (forall y, y ∈ l -> y ∈ ds) as Hl' by (intros y Hy; apply Hl; by constructor). clear Hl.
      induction l as [|z l IH]; cbn; [done|]. rewrite (clear_menu_spec ev p (Some x) z Hp) by (apply Hl'; constructor).
      rewrite bool_decide_eq_false_2 by (intros [= ->]; apply Hn; constructor). cbn.
      apply IH; [intros Hin; apply Hn; by constructor|intros y Hy; apply Hl'; by constructor].
    + apply clear_rest; [by apply fine_closed|]. intros y Hy. apply Hl. by constructor.
  - rewrite bool_decide_eq_false_2 by congruence. cbn. apply IH; [intros z Hz; apply Hl; by constructor|].
    by apply elem_of_cons in Hx as [->|Hx].
Qed.

Lemma toggles_of p o : fine p o -> List.filter (is_toggle (doc p)) (nodes (doc p)) = d_t <$> ds.
Proof. intros [[Hd _] _ _]. apply (ti_toggles _ _ (tidy_similar _ _ _ Hd Htidy)). Qed.

Lemma clearMenus_spec ev p o :
  fine p o ->
  clearMenus ev p =
    match o with
    | Some x => if not_for_menus ev || stays_inside (doc p) ev (Some (d_q x)) then p else closed x p
    | None => p
    end.
Proof.
  intros Hp. unfold Dropdown.clearMenus. rewrite (toggles_of p o Hp). destruct (not_for_menus ev); [by destruct o|]. cbn [orb].
  destruct o as [x|].
  - apply clear_list; [done|done|]. by apply (fi_open _ _ Hp).
  - by apply clear_rest.
Qed.

Lemma shows_static d o c i : c <> "show"%string -> c ∈ drop_classes -> shows d o -> shows (addClass c i d) o.
Proof.
  intros Hc Hin [H Hs]. split; [etrans; [exact H|by apply alike_addClass]|]. intros x Hx.
  assert (forall j, hasClass (addClass c i d) "show" j = hasClass d "show" j) as E.
  { intros j. unfold hasClass, addClass. destruct (decide (i = j)) as [<-|Hne].
    - rewrite list_lookup_alter_eq. destruct (d !! i) as [z|]; [|done]. cbn. rewrite has_put_class.
      by rewrite (proj2 (String.eqb_neq "show" c)).
    - by rewrite list_lookup_alter_ne. }
  unfold says. rewrite !E, getAttribute_addClass. by apply Hs.
Qed.

(** A popper is made; what it does to the state. *)
Lemma make_popper_spec i y x p o :
  fine p o ->
  let p' := make_popper i y (Some (d_q x)) p in
  fine p' o /\ told p' = told p /\ d_data p' = d_data p.
Proof.
  intros Hp. unfold make_popper.
  set (p1 := match option_of (i_config y) "boundary" with
             | VStr s => if (s =? "scrollParent")%string then p else on_doc (addClass "position-static" (d_q x)) p
             | _ => on_doc (addClass "position-static" (d_q x)) p
             end).
  assert (fine p1 o /\ told p1 = told p /\ d_data p1 = d_data p) as (H1 & E1 & E2).
  { assert (fine (on_doc (addClass "position-static" (d_q x)) p) o) as H.
    { destruct Hp as [A B C]. split; [|done|done]. by apply shows_static; [|by do 2 constructor|]. }
    unfold p1. destruct (option_of _ _); try done. by destruct (_ =? _)%string. }
  clearbody p1. destruct H1 as [A B C]. split_and!; [|done|done]. split; [done| |done].
  intros e j Hj. destruct (B e j Hj) as (z & Hz & Ez & (w & Ew & W1 & W2)). exists z. split; [done|]. split; [done|].
  unfold instance_of, set_inst. cbn. destruct (decide (i = j)) as [<-|Hne].
  - rewrite list_lookup_alter_eq. rewrite Ew. cbn. by eexists.
  - rewrite list_lookup_alter_ne by done. by exists w.
Qed.

Lemma open_spec x i p :
  fine p None -> x ∈ ds -> d_data p !! d_t x = Some i ->
  let p' := open touch (d_t x) (Some (d_q x)) (Some (d_m x)) p in
  fine p' (Some x) /\ told p' = told p ++ [EvShown (d_q x) (d_t x)] /\ d_data p' = d_data p /\ focused p' = Some (d_t x).
Proof.
  intros [A B C] Hx Hi. unfold open. set (p1 := if touch && _ then p <| noops := S (noops p) |> else p).
  assert (doc p1 = doc p /\ d_data p1 = d_data p /\ d_insts p1 = d_insts p /\ told p1 = told p) as (E1 & E2 & E3 & E4)
    by (unfold p1; by destruct (touch && _)).
  clearbody p1.
  assert (hasClass (setAttribute "aria-expanded" "true" (d_t x) (doc p1)) "show" (d_m x) = false) as F1.
  { rewrite hasClass_setAttribute, E1. by apply A. }
  destruct (drop_lt (doc p) x (proj1 A) Hx) as (L1 & L2 & L3).
  assert (hasClass (addClass "show" (d_m x) (setAttribute "aria-expanded" "true" (d_t x) (doc p1))) "show" (d_q x) = false) as F2.
  { rewrite hasClass_addClass by (by rewrite length_setAttribute, E1).
    rewrite hasClass_setAttribute, E1, (proj1 (proj2 A x Hx)), orb_false_r.
    rewrite (proj2 (Nat.eqb_neq _ _)) by (by apply drop_apart). done. }
  cbn zeta. cbn [on_doc]. unfold on_doc at 1 2 3. cbn. rewrite F1. cbn. rewrite F2. cbn.
  split; [|by rewrite E2, E4]. split.
  - cbn. rewrite E1. by apply shows_open.
  - cbn. rewrite E2. intros e j Hj. destruct (B e j Hj) as (z & Hz & Ez & W). exists z. unfold instance_of. cbn. by rewrite E3.
  - cbn. rewrite E2. intros y [= <-]. split; [done|]. by exists i.
Qed.

(** ** Toggling *)

Definition off (d : dom) (x : drop) : bool := disabled d (d_t x) || hasClass d "disabled" (d_t x).

Definition closing (o : option drop) : list devent :=
  match o with Some y => [EvHide (d_q y) (d_t y); EvHidden (d_q y) (d_t y)] | None => [] end.
Definition opening (x : drop) : list devent :=
  EvShow (d_q x) (d_t x) :: if allow (EvShow (d_q x) (d_t x)) then [EvShown (d_q x) (d_t x)] else [].

(** What toggling [x] leads to, [o] being open. *)
Definition toggled (o : option drop) (x : drop) : option drop :=
  if bool_decide (o = Some x) then None else if allow (EvShow (d_q x) (d_t x)) then Some x else None.
Definition toggle_told (o : option drop) (x : drop) : list devent :=
  closing o ++ if bool_decide (o = Some x) then [] else opening x.

(** All menus closed. *)
Lemma cleared p o :
  fine p o -> let p1 := clearMenus NoEvent p in
  fine p1 None /\ told p1 = told p ++ closing o /\ d_data p1 = d_data p /\ d_insts p1 = d_insts p.
Proof.
  intros Hp p1. unfold p1. rewrite (clearMenus_spec NoEvent p o Hp). destruct o as [y|]; cbn.
  - destruct (closed_frame y p) as (_ & E2 & E3 & E4 & _). split; [by apply fine_closed|done].
  - by rewrite app_nil_r.
Qed.

Lemma toggle_spec x i p o :
  fine p o -> x ∈ ds -> d_data p !! d_t x = Some i -> off (doc p) x = false ->
  let p' := toggle i p in
  fine p' (toggled o x) /\ told p' = told p ++ toggle_told o x /\ d_data p' = d_data p.
Proof.
  intros Hp Hx Hi Hoff. pose proof Hp as [[Hd Hs] B C].
  destruct (B _ i Hi) as (x' & Hx' & Ex & (y & Ey & Y1 & Y2)). apply drop_inj_t in Ex as <-; [|done..].
  pose proof (proj1 (Forall_forall _ _) (ti_each _ _ Htidy) x Hx) as (P & _).
  rewrite (parent_of_similar d0 (doc p) _ Hd) in P. destruct (Hs x Hx) as (_ & S2 & _).
  destruct (cleared p o Hp) as (H1 & T1 & D1 & I1). unfold Dropdown.toggle, toggled, toggle_told, opening.
  rewrite Ey, Y1, Y2. unfold off in Hoff. rewrite Hoff, P. cbn [has_class_opt]. rewrite S2.
  set (p1 := clearMenus NoEvent p) in *. clearbody p1. case_bool_decide as Ho; [by rewrite app_nil_r|].
  destruct (allow (EvShow (d_q x) (d_t x))) eqn:Ea; cbn [negb].
  - rewrite andb_false_r. set (p2 := tell (EvShow (d_q x) (d_t x)) p1).
    assert (fine p2 None) as H2 by by destruct H1.
    set (p3 := if inNavbar y then p2 else make_popper i y (Some (d_q x)) p2).
    assert (fine p3 None /\ told p3 = told p2 /\ d_data p3 = d_data p2) as (H3 & T3 & D3).
    { unfold p3. destruct (inNavbar y); [done|by apply make_popper_spec]. }
    destruct (open_spec x i p3 H3 Hx) as (H4 & T4 & D4 & _); [by rewrite D3; unfold p2; cbn; rewrite D1|].
    split; [done|]. split.
    + rewrite T4, T3. unfold p2. cbn. rewrite T1. by rewrite <- !app_assoc.
    + rewrite D4, D3. done.
  - split; [by destruct H1|]. split; [|done]. cbn. rewrite T1. by rewrite <- !app_assoc.
Qed.

(** ** Calls, clicks and keys *)

(** The options [c] of an element, with its own data, have the types listed. *)
Definition options_ok (e : nat) (c : config) : Prop :=
  exists c', getConfig "dropdown" Default DefaultType (extend (data_config e) c) = inl c'.
Context (Hconfig : forall x, x ∈ ds -> options_ok (d_t x) ∅).

Definition call (a : option method) (i e : nat) (p : page) : page :=
  match a with
  | Some MToggle => toggle i p
  | Some MDispose => dispose i e p
  | Some MUpdate => update i e p
  | Some MUnknown => tell Thrown p
  | None => p
  end.

Lemma interface_spec a x p o :
  fine p o -> x ∈ ds -> options_ok (d_t x) (a.2) ->
  exists i p1, fine p1 o /\ d_data p1 !! d_t x = Some i /\ doc p1 = doc p /\ told p1 = told p /\
    focused p1 = focused p /\ interface a (d_t x) p = call (a.1) i (d_t x) p1.
Proof.
  intros Hp Hx [c Hc]. unfold jQueryInterface. destruct (d_data p !! d_t x) as [i|] eqn:Ei; [by exists i, p|].
  rewrite Hc. clear Hc. pose proof Hp as [[Hd Hs] B C].
  pose proof (proj1 (Forall_forall _ _) (ti_each _ _ Htidy) x Hx) as (_ & M & _).
  rewrite (menu_of_similar d0 (doc p) _ Hd) in M. eexists _, _. split; [|split; [|split_and!; [..|done]; done]].
  2: { cbn. by rewrite lookup_insert_eq. }
  split; [done| |].
  - cbn. intros e j. destruct (decide (d_t x = e)) as [<-|Hne].
    + rewrite lookup_insert_eq. intros [= <-]. exists x. split; [done|]. split; [done|].
      eexists. cbn. rewrite lookup_app_r, Nat.sub_diag by done. split; [done|]. by split.
    + rewrite lookup_insert_ne by done. intros Hj. destruct (B e j Hj) as (z & Hz & Ez & (w & Ew & W)).
      exists z. split; [done|]. split; [done|]. exists w. cbn. split; [by apply lookup_app_l_Some|done].
  - intros y Ey. destruct (C y Ey) as [Hy [j Hj]]. split; [done|]. cbn. destruct (decide (d_t x = d_t y)) as [->|Hne].
    + eexists. by rewrite lookup_insert_eq.
    + exists j. by rewrite lookup_insert_ne.
Qed.

Lemma toggle_off x i p o :
  fine p o -> x ∈ ds -> d_data p !! d_t x = Some i -> off (doc p) x = true -> toggle i p = p.
Proof.
  intros Hp Hx Hi Hoff. destruct (fi_data _ _ Hp _ i Hi) as (x' & Hx' & Ex & (y & Ey & Y1 & _)).
  apply drop_inj_t in Ex as <-; [|done..]. unfold Dropdown.toggle. rewrite Ey, Y1. unfold off in Hoff. by rewrite Hoff.
Qed.

Lemma fine_toggle x i p o :
  fine p o -> x ∈ ds -> d_data p !! d_t x = Some i -> exists o', fine (toggle i p) o'.
Proof.
  intros Hp Hx Hi. destruct (off (doc p) x) eqn:Hoff.
  - exists o. by rewrite (toggle_off x i p o).
  - eexists. by apply (toggle_spec x i p o).
Qed.

Lemma fine_frame p p' o :
  doc p' = doc p -> d_data p' = d_data p -> d_insts p' = d_insts p -> fine p o -> fine p' o.
Proof.
  intros E1 E2 E3 [A B C]. split; rewrite ?E1, ?E2; [done| |done]. intros e i Hi.
  destruct (B e i Hi) as (x & Hx & Ex & I). exists x. unfold instance_of. by rewrite E3.
Qed.

Lemma fine_dispose x i p o :
  fine p o -> x ∈ ds -> d_data p !! d_t x = Some i -> o <> Some x -> fine (dispose i (d_t x) p) o.
Proof.
  intros [A B C] Hx Hi Ho. unfold dispose. set (q := y ← d_insts p !! i; i_popper y).
  set (p1 := set_inst i _ _). assert (fine p1 o) as H; [|destruct q; [by apply (fine_frame p1)|done]]. clear q.
  split; [done|..]; cbn.
  - intros e j. destruct (decide (d_t x = e)) as [<-|Hne]; [by rewrite lookup_delete_eq|].
    rewrite lookup_delete_ne by done. intros Hj. destruct (B e j Hj) as (z & Hz & Ez & (w & Ew & W1 & W2)).
    exists z. split; [done|]. split; [done|]. exists w. cbn. split; [|done]. rewrite list_lookup_alter_ne; [done|].
    intros <-. destruct (B _ i Hi) as (x' & Hx' & Ex & (y & Ey & Y1 & _)). congruence.
  - intros y Ey. destruct (C y Ey) as [Hy [j Hj]]. split; [done|]. exists j. rewrite lookup_delete_ne; [done|].
    intros E. apply Ho. by rewrite Ey, (drop_inj_t x y).
Qed.

Lemma fine_update x i p o : fine p o -> fine (update i x p) o.
Proof.
  intros [A B C]. split; [done| |done]. intros e j Hj. destruct (B e j Hj) as (z & Hz & Ez & (w & Ew & W)).
  exists z. split; [done|]. split; [done|]. unfold instance_of, update, set_inst. cbn. destruct (decide (i = j)) as [<-|Hne].
  - rewrite list_lookup_alter_eq, Ew. cbn. by eexists.
  - rewrite list_lookup_alter_ne by done. by exists w.
Qed.

Lemma fine_clear ev p o : fine p o -> exists o', fine (clearMenus ev p) o'.
Proof.
  intros Hp. rewrite (clearMenus_spec ev p o Hp). destruct o as [x|]; [|by exists None].
  destruct (_ || _); [by exists (Some x)|]. exists None. by apply fine_closed.
Qed.

Lemma toggle_in d e : similar d0 d -> is_toggle d e = true -> exists x, x ∈ ds /\ e = d_t x.
Proof.
  intros Hd He. assert (e ∈ List.filter (is_toggle d) (nodes d)) as Hin.
  { apply list_elem_of_In, filter_In. split; [|done]. apply in_seq. unfold is_toggle, getAttribute in He.
    destruct (d !! e) eqn:E; [|done]. apply lookup_lt_Some in E. lia. }
  rewrite (ti_toggles _ _ (tidy_similar _ _ _ Hd Htidy)) in Hin.
  apply list_elem_of_fmap in Hin as (x & -> & Hx). by exists x.
Qed.

Lemma fine_interface m c x p o :
  fine p o -> x ∈ ds -> options_ok (d_t x) c -> (m = Some MDispose -> o <> Some x) ->
  exists o', fine (interface (m, c) (d_t x) p) o'.
Proof.
  intros Hp Hx Hc Hm. destruct (interface_spec (m, c) x p o Hp Hx Hc) as (i & p1 & H1 & Hi & _ & _ & _ & ->). cbn [fst call].
  destruct m as [[]|].
  - by apply (fine_toggle x i p1 o).
  - exists o. apply fine_dispose; [done..|by apply Hm].
  - exists o. by apply fine_update.
  - exists o. by apply (fine_frame p1).
  - by exists o.
Qed.

Lemma closest_spec (q : nat -> bool) d i e : closest q d i = Some e -> q e = true.
Proof.
  unfold closest. destruct (List.filter q _) as [|x l] eqn:E; [done|]. intros [= ->].
  assert (In e (List.filter q (i :: ancestors d i))) as H by (rewrite E; by left). by apply filter_In in H as [_ ?].
Qed.

Lemma fine_click which target p o :
  fine p o -> exists o', fine (click escapeSelector query allow touch true data_config which target p) o'.
Proof.
  intros Hp. unfold click. destruct (closest _ (doc p) target) as [e|] eqn:E1.
  - destruct (d_data p !! e) as [i|] eqn:Ei; [|by exists o].
    destruct (fi_data _ _ Hp e i Ei) as (x & Hx & -> & _). by apply (fine_toggle x i p o).
  - clear E1. destruct (closest _ (doc p) target) as [e|]; [|by apply (fine_clear _ p o)].
    destruct (is_toggle (doc p) e) eqn:Et; [|by exists o].
    destruct (toggle_in (doc p) e (proj1 (fi_shows _ _ Hp)) Et) as (x & Hx & ->).
    apply (fine_interface _ _ x p o); [done|done|by apply Hconfig|done].
Qed.

Lemma drop_fine_focus e p o : fine p o -> fine (focus e p) o.
Proof. by apply fine_frame. Qed.

Lemma fine_keydown_at which target this p o :
  fine p o -> exists o', fine (keydown_at escapeSelector query allow touch true data_config which target this p) o'.
Proof.
  intros Hp. unfold keydown_at. destruct (_ || _); [by exists o|]. destruct (_ || _).
  - set (p1 := if which =? ESCAPE then _ else p). assert (fine p1 o) as H1; [|by apply (fine_click 0 this p1 o)].
    unfold p1. destruct (which =? ESCAPE); [|done]. destruct (_ ≫= _); [by apply drop_fine_focus|done].
  - destruct (getParentFromElement _ _ _ _); [|by exists o]. destruct (_ !! _); [|by exists o].
    exists o. by apply drop_fine_focus.
Qed.

(** Calls are on toggles, with options of the types listed, and an open drop-down is not
    disposed of. *)
Definition polite (a : daction) (p : page) : Prop :=
  match a with
  | Call (m, c) e => exists x, x ∈ ds /\ e = d_t x /\ options_ok e c /\
      (m = Some MDispose -> hasClass (doc p) "show" (d_q x) = false)
  | _ => True
  end.

Lemma drop_fine_act a p o : fine p o -> polite a p -> exists o', fine (act a p) o'.
Proof.
  intros Hp Ha. destruct a as [[m c] e|which target|which target|which target]; cbn [Dropdown.act].
  - destruct Ha as (x & Hx & -> & Hc & Hm). apply (fine_interface m c x p o Hp Hx Hc). intros Em ->.
    specialize (Hm Em). pose proof (proj1 (proj2 (fi_shows _ _ Hp) x Hx)) as S. rewrite bool_decide_eq_true_2 in S by done.
    congruence.
  - by apply (fine_click which target p o).
  - by apply (fine_clear _ p o).
  - unfold keydown. destruct (closest _ _ _); [|by exists o]. destruct (ignored _ _ _); [by exists o|].
    by apply (fine_keydown_at which target _ p o).
Qed.

(** Nothing is open at first. *)
Context (Hshut : forall x, x ∈ ds -> says d0 x false).

Inductive reachable : page -> Prop :=
  | reach_create : reachable (create d0)
  | reach_act p a : reachable p -> polite a p -> reachable (act a p).

Lemma reachable_fine p : reachable p -> exists o, fine p o.
Proof.
  induction 1 as [|p a _ [o Hp] Ha]; [|by apply (drop_fine_act a p o)].
  exists None. split; [split; [reflexivity|done]| |done]. intros e i. cbn. by rewrite lookup_empty.
Qed.

(** What a page shows of [x]. *)
Definition is_open (p : page) (x : drop) : bool := hasClass (doc p) "show" (d_q x).

Lemma fine_is_open p o x : fine p o -> x ∈ ds -> is_open p x = bool_decide (o = Some x).
Proof. intros Hp Hx. apply (proj2 (fi_shows _ _ Hp) x Hx). Qed.

(** C6. On a page whose drop-downs have each a toggle, a parent and a menu of their own, are not
    nested, have options of the types listed and are shut at first, whose listeners do not
    prevent [hide], and where calls are made on toggles only, with options of the types listed,
    and no open drop-down is disposed of: after any clicks, keys and such calls at most one is
    open, and of each the parent, the menu and the attribute of the toggle say the same. *)
Theorem one_open p :
  reachable p ->
  (forall x y, x ∈ ds -> y ∈ ds -> is_open p x = true -> is_open p y = true -> x = y) /\
  (forall x, x ∈ ds -> says (doc p) x (is_open p x)).
Proof.
  intros [o Hp]%reachable_fine. split.
  - intros x y Hx Hy. rewrite !(fine_is_open p o) by done. intros ->%bool_decide_eq_true [=]%bool_decide_eq_true. done.
  - intros x Hx. rewrite (fine_is_open p o) by done. by apply (proj2 (fi_shows _ _ Hp)).
Qed.

Lemma closest_self (q : nat -> bool) d i : q i = true -> closest q d i = Some i.
Proof. intros Hq. unfold closest. cbn. by rewrite Hq. Qed.

Lemma closest_none (q : nat -> bool) d i : q i = false -> existsb q (ancestors d i) = false -> closest q d i = None.
Proof.
  intros Hq Ha. unfold closest. cbn. rewrite Hq. induction (ancestors d i) as [|a l IH]; cbn in Ha |- *; [done|].
  apply orb_false_iff in Ha as [-> Ha]. by apply IH.
Qed.

Lemma no_data p o l :
  fine p o -> existsb (is_toggle (doc p)) l = false ->
  existsb (fun i => bool_decide (d_data p !! i <> None)) l = false.
Proof.
  intros Hp. induction l as [|a l IH]; cbn; [done|]. intros [Ha Hl]%orb_false_iff. rewrite (IH Hl), orb_false_r.
  apply bool_decide_eq_false. intros Hn. destruct (d_data p !! a) as [j|] eqn:Ej; [|done].
  destruct (fi_data _ _ Hp a j Ej) as (y & Hy & -> & _).
  assert (d_t y ∈ List.filter (is_toggle (doc p)) (nodes (doc p))) as [_ Hy']%list_elem_of_In%filter_In.
  { rewrite (toggles_of p o Hp). by apply list_elem_of_fmap_2. }
  congruence.
Qed.

Lemma click_toggle which x p o :
  fine p o -> x ∈ ds ->
  exists i p1, fine p1 o /\ d_data p1 !! d_t x = Some i /\ doc p1 = doc p /\ told p1 = told p /\
    focused p1 = focused p /\ click escapeSelector query allow touch true data_config which (d_t x) p = toggle i p1.
Proof.
  intros Hp Hx. unfold click. pose proof (proj1 (fi_shows _ _ Hp)) as Hd.
  destruct (d_data p !! d_t x) as [i|] eqn:Ei.
  - rewrite closest_self by by rewrite Ei. rewrite Ei. by exists i, p.
  - pose proof (tidy_similar _ _ _ Hd Htidy) as Ht.
    assert (d_t x ∈ List.filter (is_toggle (doc p)) (nodes (doc p))) as [_ Htog]%list_elem_of_In%filter_In.
    { rewrite (ti_toggles _ _ Ht). by apply list_elem_of_fmap_2. }
    rewrite closest_none; [|by rewrite Ei|].
    + rewrite closest_self by by rewrite Htog. rewrite Htog.
      by apply (interface_spec (Some MToggle, ∅) x p o); [..|apply Hconfig].
    + apply (no_data p o _ Hp), (proj1 (Forall_forall _ _) (ti_nest _ _ Ht) x Hx).
Qed.

(** The one that is open. *)
Definition open_one (p : page) : option drop := head (List.filter (is_open p) ds).

Lemma fine_open_one p o : fine p o -> open_one p = o.
Proof.
  intros Hp. unfold open_one. destruct (List.filter (is_open p) ds) as [|x l] eqn:E; cbn.
  - destruct o as [x|]; [|done]. destruct (fi_open _ _ Hp x eq_refl) as [Hx _].
    assert (x ∈ List.filter (is_open p) ds) as Hin.
    { apply list_elem_of_In, filter_In. split; [by apply list_elem_of_In|]. rewrite (fine_is_open p _ _ Hp Hx).
      by apply bool_decide_eq_true. }
    rewrite E in Hin. by apply elem_of_nil in Hin.
  - assert (x ∈ List.filter (is_open p) ds) as [Hx Ho]%list_elem_of_In%filter_In by (rewrite E; constructor).
    apply list_elem_of_In in Hx. rewrite (fine_is_open p _ _ Hp Hx) in Ho. by apply bool_decide_eq_true in Ho.
Qed.

(** A click on a toggle that is not disabled closes its drop-down if it is open; else
    it closes the one that is, and opens this one if the page allows; the events are told
    in this order. *)
Theorem toggle_click which p x :
  reachable p -> x ∈ ds -> off (doc p) x = false ->
  let p' := act (Click which (d_t x)) p in
  (forall y, y ∈ ds -> is_open p' y =
    bool_decide (y = x) && negb (is_open p x) && allow (EvShow (d_q x) (d_t x))) /\
  told p' = told p ++ toggle_told (open_one p) x.
Proof.
  intros [o Hp]%reachable_fine Hx Hoff p'. rewrite (fine_open_one p o Hp), (fine_is_open p o x Hp Hx).
  destruct (click_toggle which x p o Hp Hx) as (i & p1 & H1 & Hi & Ed & Et & _ & Ec).
  unfold p'. cbn [Dropdown.act]. rewrite Ec. rewrite <- Ed in Hoff.
  destruct (toggle_spec x i p1 o H1 Hx Hi Hoff) as (H2 & T2 & _). rewrite T2, Et. split; [|done].
  intros y Hy. rewrite (fine_is_open _ _ y H2 Hy). unfold toggled.
  destruct (bool_decide (o = Some x)); cbn [negb]; [by rewrite andb_false_r, bool_decide_eq_false_2|].
  rewrite andb_true_r. destruct (allow _); [|by rewrite andb_false_r, bool_decide_eq_false_2].
  rewrite andb_true_r. apply bool_decide_ext. naive_solver.
Qed.

(** The place in a list of [n] elements the focus goes to from the place [j], if any. *)
Definition moves (which : Z) (n : nat) (j : option nat) : nat :=
  match j with
  | Some j => if which =? ARROW_UP then pred j else Nat.min (S j) (n - 1)
  | None => 0
  end.

Definition place (l : list nat) (i : nat) : option nat := fst <$> list_find (fun j => j = i) l.

Lemma next_index_moves which l i :
  which = ARROW_UP \/ which = ARROW_DOWN -> l <> [] ->
  Z.to_nat (next_index which (length l) (index_of i l)) = moves which (length l) (place l i) /\
  (moves which (length l) (place l i) < length l)%nat.
Proof.
  intros Hw Hl. assert (0 < length l)%nat as Hn by (destruct l; cbn; [done|lia]).
  unfold index_of, place. destruct (list_find (fun j => j = i) l) as [[k y]|] eqn:E; cbn [fmap option_fmap option_map fst moves].
  - apply list_find_Some in E as (Ek%lookup_lt_Some & _). unfold next_index, moves.
    destruct Hw as [->| ->]; cbn [Z.eqb Pos.eqb ARROW_UP ARROW_DOWN andb]; zcases; lia.
  - unfold next_index, moves. destruct Hw as [->| ->]; cbn [Z.eqb Pos.eqb ARROW_UP ARROW_DOWN andb]; zcases; lia.
Qed.

Lemma keydown_moves which target this q p :
  which = ARROW_UP \/ which = ARROW_DOWN -> disabled (doc p) this || hasClass (doc p) "disabled" this = false ->
  parent_of (doc p) this = Some q -> hasClass (doc p) "show" q = true ->
  let items := visible_items (doc p) q in
  items <> [] ->
  focused (keydown_at escapeSelector query allow touch true data_config which target this p) =
    items !! moves which (length items) (place items target).
Proof.
  intros Hw Hoff Hq Hs items Hne. unfold keydown_at. rewrite Hoff, Hq. cbn [has_class_opt]. rewrite Hs.
  replace (negb true && _ || _) with false by by destruct Hw as [->| ->].
  fold items. destruct (next_index_moves which items target Hw Hne) as [-> Hlt].
  destruct (lookup_lt_is_Some_2 items _ Hlt) as [y Hy]. by rewrite Hy.
Qed.

(** With a drop-down open, an arrow key in its menu or on its toggle moves the focus
    to the item above or below, not beyond the first and the last, and from elsewhere to
    the first. *)
Theorem arrow_moves which p x target this :
  reachable p -> x ∈ ds -> is_open p x = true -> which = ARROW_UP \/ which = ARROW_DOWN ->
  is_text (doc p) target = false ->
  closest (fun i => is_toggle (doc p) i || hasClass (doc p) "dropdown-menu" i) (doc p) target = Some this ->
  parent_of (doc p) this = Some (d_q x) -> disabled (doc p) this || hasClass (doc p) "disabled" this = false ->
  let items := visible_items (doc p) (d_q x) in
  items <> [] ->
  focused (act (KeyDown which target) p) = items !! moves which (length items) (place items target) /\
  (moves which (length items) (place items target) < length items)%nat.
Proof.
  intros _ Hx Ho Hw Ht Hc Hq Hoff items Hne. split; [|by apply next_index_moves].
  cbn [Dropdown.act]. unfold keydown. rewrite Hc. replace (ignored (doc p) which target) with false; [by apply keydown_moves|].
  unfold ignored. rewrite Ht. by destruct Hw as [->| ->]; vm_compute.
Qed.

Lemma toggle_closes x i p :
  fine p (Some x) -> d_data p !! d_t x = Some i -> off (doc p) x = false -> toggle i p = closed x p.
Proof.
  intros Hp Hi Hoff. destruct (fi_open _ _ Hp x eq_refl) as [Hx _]. pose proof Hp as [[Hd Hs] B C].
  destruct (B _ i Hi) as (x' & Hx' & Ex & (y & Ey & Y1 & Y2)). apply drop_inj_t in Ex as <-; [|done..].
  destruct (Hs x Hx) as (_ & S2 & _). rewrite bool_decide_eq_true_2 in S2 by done.
  unfold Dropdown.toggle. rewrite Ey, Y1, Y2. unfold off in Hoff. rewrite Hoff. cbn [has_class_opt]. rewrite S2.
  by rewrite (clearMenus_spec NoEvent p (Some x) Hp).
Qed.

Lemma closest_existsb (q : nat -> bool) d i : closest q d i = None <-> existsb q (i :: ancestors d i) = false.
Proof.
  unfold closest. induction (i :: ancestors d i) as [|a l IH]; cbn; [done|]. destruct (q a); cbn; [done|apply IH].
Qed.

(** A click on the menu of an open drop-down, outside of forms, closes it. *)
Lemma click_menu p x :
  fine p (Some x) -> is_text (doc p) (d_m x) = false ->
  closest (fun i => is_toggle (doc p) i || is_a (doc p) "FORM" i) (doc p) (d_m x) = None ->
  click escapeSelector query allow touch true data_config 0 (d_m x) p = closed x p.
Proof.
  intros Hp Ht Hc%closest_existsb. unfold click.
  assert (existsb (is_toggle (doc p)) (d_m x :: ancestors (doc p) (d_m x)) = false) as Hn.
  { revert Hc. generalize (d_m x :: ancestors (doc p) (d_m x)) as l. induction l as [|a l IH]; cbn; [done|].
    intros [[-> _]%orb_false_iff Hl]%orb_false_iff. by apply IH. }
  rewrite (proj2 (closest_existsb _ _ _) (no_data p _ _ Hp Hn)).
  rewrite (proj2 (closest_existsb (fun i => is_toggle (doc p) i || _) _ _)).
  - rewrite (clearMenus_spec _ p (Some x) Hp). cbn. by rewrite Ht.
  - revert Hc. generalize (d_m x :: ancestors (doc p) (d_m x)) as l. induction l as [|a l IH]; cbn; [done|].
    intros [[-> ->]%orb_false_iff Hl]%orb_false_iff. by apply IH.
Qed.

(** The escape key in an open drop-down, on its toggle or in its menu, closes it and
    gives the focus to the toggle. *)
Theorem escape_closes p x target this :
  reachable p -> x ∈ ds -> is_open p x = true -> is_text (doc p) target = false ->
  closest (fun i => is_toggle (doc p) i || hasClass (doc p) "dropdown-menu" i) (doc p) target = Some this ->
  this = d_t x \/
  this = d_m x /\ parent_of (doc p) this = Some (d_q x) /\ is_text (doc p) this = false /\
    closest (fun i => is_toggle (doc p) i || is_a (doc p) "FORM" i) (doc p) this = None ->
  disabled (doc p) this || hasClass (doc p) "disabled" this = false ->
  head (find (is_toggle (doc p)) (doc p) (d_q x)) = Some (d_t x) ->
  let p' := act (KeyDown ESCAPE target) p in
  (forall y, y ∈ ds -> is_open p' y = false) /\ focused p' = Some (d_t x) /\
  told p' = told p ++ [EvHide (d_q x) (d_t x); EvHidden (d_q x) (d_t x)].
Proof.
  intros [o Hp]%reachable_fine Hx Ho Ht Hc Hthis Hoff Hhead p'.
  rewrite (fine_is_open p o x Hp Hx) in Ho. apply bool_decide_eq_true in Ho as ->.
  assert (parent_of (doc p) this = Some (d_q x)) as Hq.
  { destruct Hthis as [->|(_ & ? & _)]; [|done]. pose proof (proj1 (Forall_forall _ _) (ti_each _ _ Htidy) x Hx) as (P & _).
    by rewrite <- (parent_of_similar d0 (doc p) _ (proj1 (fi_shows _ _ Hp))). }
  set (p1 := focus (d_t x) p). assert (fine p1 (Some x)) as H1 by by apply drop_fine_focus.
  assert (p' = click escapeSelector query allow touch true data_config 0 this p1) as ->.
  { unfold p'. cbn [Dropdown.act]. unfold keydown. rewrite Hc. unfold ignored. rewrite Ht.
    replace (negb (is_command ESCAPE)) with false by by vm_compute.
    unfold keydown_at. rewrite Hoff, Hq. cbn [has_class_opt]. rewrite (proj1 (proj2 (fi_shows _ _ Hp) x Hx)).
    rewrite bool_decide_eq_true_2 by done. cbn [Z.eqb Pos.eqb ESCAPE SPACE negb andb orb mbind option_bind].
    by rewrite Hhead. }
  assert (exists p2, fine p2 (Some x) /\ told p2 = told p /\ focused p2 = Some (d_t x) /\
    click escapeSelector query allow touch true data_config 0 this p1 = closed x p2) as (p2 & H2 & T2 & F2 & ->).
  { destruct Hthis as [->|(-> & _ & Hm & Hf)].
    - destruct (click_toggle 0 x p1 (Some x) H1 Hx) as (i & p2 & H2 & Hi & Ed & Et & Ef & ->).
      exists p2. split_and!; [done|done|done|]. apply (toggle_closes x i); [done|done|]. by rewrite Ed.
    - exists p1. split_and!; [done..|]. by apply click_menu. }
  destruct (closed_frame x p2) as (_ & _ & _ & T3 & F3). split; [|by rewrite F3, T3, T2].
  intros y Hy. by rewrite (fine_is_open _ None y (fine_closed x p2 H2) Hy).
Qed.
End flow.

(** ** Runs

    The theorems of [BsDropdownFlow] at a page with two drop-downs, and three uses in
    which the code does not do what it means to. *)


Definition drop_button (up : nat) : node :=
  mk_node "BUTTON" (Some up) ["btn"; "dropdown-toggle"] [("data-toggle", "dropdown"); ("aria-expanded", "false")]%string.
Definition drop_item (up : nat) : node := mk_node "A" (Some up) ["dropdown-item"] [("href", "#")]%string.

Definition drop_page : dom := [
  mk_node "#document" None [] []; mk_node "BODY" (Some 0%nat) [] [];
  mk_node "DIV" (Some 1%nat) ["dropdown"] []; drop_button 2; mk_node "DIV" (Some 2%nat) ["dropdown-menu"] [];
  drop_item 4; drop_item 4; drop_item 4;
  mk_node "DIV" (Some 1%nat) ["dropdown"; "dropup"] []; drop_button 8;
  mk_node "DIV" (Some 8%nat) ["dropdown-menu"; "dropdown-menu-right"] []; drop_item 10; mk_node "INPUT" (Some 10%nat) [] []]%string.

Definition first : drop := mk_drop 3 2 4.
Definition second : drop := mk_drop 9 8 10.
Definition drop_query (s : string) : option (list nat) := if String.eqb s "" then Some [] else None.
Definition drop_yes : devent -> bool := fun _ => true.
Definition no_data_of (e : nat) : config := ∅.

Abbreviation drop_step := (act None drop_query drop_yes false true no_data_of).
Definition drop_steps (l : list daction) : page := fold_left (fun p a => drop_step a p) l (create drop_page).
Abbreviation drop_reached := (reachable None drop_query drop_yes false no_data_of drop_page [first; second]).

Lemma drop_page_tidy : tidy None drop_query drop_page [first; second].
Proof.
  split; [by vm_compute| | |by repeat constructor].
  - by repeat constructor; vm_compute; try lia.
  - apply (bool_decide_unpack _). by vm_compute.
Qed.

Lemma drop_options x : x ∈ [first; second] -> options_ok no_data_of (d_t x) ∅.
Proof. intros _. eexists. by vm_compute. Qed.

Lemma drop_page_shut x : x ∈ [first; second] -> says drop_page x false.
Proof. intros [->|[->|[]%elem_of_nil]%elem_of_cons]%elem_of_cons; by vm_compute. Qed.

Lemma drop_reach l a : drop_reached (drop_steps l) -> polite no_data_of [first; second] a (drop_steps l) -> drop_reached (drop_steps (l ++ [a])).
Proof. intros Hl Ha. unfold drop_steps. rewrite fold_left_app. by constructor. Qed.

(** The first is opened, then the second, and a key moves to the item of that one. *)
Definition drop_usage : list daction := [Click 1 3; Click 1 9; KeyDown ARROW_DOWN 9]%nat.

Lemma drop_used : drop_reached (drop_steps drop_usage).
Proof.
  refine (drop_reach [Click 1 3; Click 1 9]%nat (KeyDown ARROW_DOWN 9) _ I).
  refine (drop_reach [Click 1 3]%nat (Click 1 9) _ I).
  exact (drop_reach [] (Click 1 3) (reach_create _ _ _ _ _ _ _) I).
Qed.

Example one_open_witness :
  let p := drop_steps drop_usage in
  (forall x y, x ∈ [first; second] -> y ∈ [first; second] -> is_open p x = true -> is_open p y = true -> x = y) /\
  (forall x, x ∈ [first; second] -> says (doc p) x (is_open p x)).
Proof.
  apply (one_open None drop_query drop_yes false no_data_of (fun _ _ => eq_refl) drop_page [first; second]
    drop_page_tidy drop_options drop_page_shut). apply drop_used.
Defined.

Example toggle_click_witness :
  let p := drop_steps drop_usage in
  let p' := drop_step (Click 1 3) p in
  (forall y, y ∈ [first; second] -> is_open p' y = bool_decide (y = first) && negb (is_open p first) && drop_yes (EvShow 2 3)) /\
  told p' = told p ++ toggle_told drop_yes (open_one [first; second] p) first.
Proof.
  assert (off (doc (drop_steps drop_usage)) first = false) as Hoff by by vm_compute.
  exact (toggle_click None drop_query drop_yes false no_data_of (fun _ _ => eq_refl) drop_page [first; second]
    drop_page_tidy drop_options drop_page_shut 1 (drop_steps drop_usage) first drop_used
    (list_elem_of_here first [second]) Hoff).
Defined.

Example arrow_moves_witness :
  let p := drop_steps [Click 1 3; KeyDown ARROW_DOWN 3; KeyDown ARROW_DOWN 5]%nat in
  let items := visible_items (doc p) 2 in
  items = [5; 6; 7]%nat /\ focused p = Some 6%nat /\
  focused (drop_step (KeyDown ARROW_UP 6) p) = items !! moves ARROW_UP (length items) (place items 6) /\
  (moves ARROW_UP (length items) (place items 6) < length items)%nat.
Proof.
  split; [by vm_compute|]. split; [by vm_compute|].
  apply (arrow_moves None drop_query drop_yes false no_data_of drop_page [first; second] ARROW_UP _ first 6 4);
    [|by constructor|by vm_compute|by left|by vm_compute..].
  refine (drop_reach [Click 1 3; KeyDown ARROW_DOWN 3]%nat (KeyDown ARROW_DOWN 5) _ I).
  refine (drop_reach [Click 1 3]%nat (KeyDown ARROW_DOWN 3) _ I).
  exact (drop_reach [] (Click 1 3) (reach_create _ _ _ _ _ _ _) I).
Defined.

Example escape_closes_witness :
  let p := drop_steps drop_usage in
  let p' := drop_step (KeyDown ESCAPE 11) p in
  (forall y, y ∈ [first; second] -> is_open p' y = false) /\ focused p' = Some 9%nat /\
  told p' = told p ++ [EvHide 8 9; EvHidden 8 9].
Proof.
  apply (escape_closes None drop_query drop_yes false no_data_of (fun _ _ => eq_refl) drop_page [first; second]
    drop_page_tidy drop_options drop_page_shut _ second 11 10);
    [apply drop_used|by do 2 constructor|by vm_compute|by vm_compute|by vm_compute| |by vm_compute|by vm_compute].
  right. by vm_compute.
Defined.

(** *** The escape key on a closed drop-down opens it

    The test is for a key that is not the escape key or not the space bar, which is true
    of every key. *)
Example escape_opens :
  let p := drop_steps [KeyDown ESCAPE 3] in is_open p first = true /\ focused p = Some 3%nat.
Proof. by vm_compute. Qed.

(** *** Every opening makes a popper, and closing destroys none *)
Example poppers_pile_up :
  length (poppers (drop_steps [Click 1 3; Click 1 3; Click 1 3; Click 1 9; Click 1 3]%nat)) = 4%nat /\
  length (poppers (drop_steps [Click 1 3; Click 1 3; Click 1 3; Call (Some MDispose, ∅) 3]%nat)) = 1%nat /\
  (placement <$> (p_config <$> poppers (drop_steps [Click 1 9]))) = ["top-end"]%string.
Proof. by vm_compute. Qed.

(** *** A drop-down that is disposed of while it is open

    No click elsewhere closes it, and another can be opened beside it. *)
Example disposed_stays_open :
  let p := drop_steps [Click 1 3; Call (Some MDispose, ∅) 3; Click 1 1; Click 1 9]%nat in
  is_open p first = true /\ is_open p second = true.
Proof. by vm_compute. Qed.
