(* ===== verification/BsTooltip.v ===== *)
(** * Bootstrap: tooltip.js and popover.js

    Models [Tooltip] and [Popover] of
    [2019104233/src/scripts/bluelog/bluelog/static/js/bootstrap.js] for one element: the
    triggers, the delays, the transitions of the tip, its place in the document and the
    poppers made for it.  What the two components do differently is the record [kind].
    Popper is a library: a popper is made, may report where it has placed the tip, and is
    destroyed.  Listeners of the page only allow or prevent; delegation to the elements of
    a selector, and contents that are elements, are left out. *)

From S2P Require Export BsUtil.

Module Tooltip.

Inductive trigger := TClick | THover | TFocus | TManual.
#[global] Instance trigger_eq_dec : EqDecision trigger.
Proof. solve_decision. Defined.

(** The options; [title] and [content] are what they give when they are functions, a
    delay of 0 is none. *)
Record options := mk_options {
  triggers : list trigger; delay_show : Z; delay_hide : Z; o_animation : bool;
  o_placement : string; title : string; content : string; in_modal : bool;
}.

(** [HNone] is the empty text or [null]. *)
Inductive hover_state := HNone | HShow | HOut.
#[global] Instance hover_state_eq_dec : EqDecision hover_state.
Proof. solve_decision. Defined.

(** The tip: whether it is in the document, its classes, the placements among them, the
    attribute Popper sets, and its texts. *)
Record tip_el := mk_tip {
  t_in : bool; t_fade : bool; t_show : bool; t_places : list string; x_placement : bool; t_title : string; t_body : string;
}.
#[export] Instance tip_eta : Settable tip_el := fun t =>
  mk_tip (t_in t) (t_fade t) (t_show t) (t_places t) (x_placement t) (t_title t) (t_body t).

(** [$(this.config.template)[0]]. *)
Definition blank : tip_el := mk_tip false false false [] false "" "".

Inductive tevent := EvShow | EvInserted | EvShown | EvHide | EvHidden | Thrown.

(** What waits for the end of a transition of the tip. *)
Inductive complete := ShowComplete | HideComplete.

(** An instance on its element; the fields [el_] belong to the element. *)
Record tooltip := mk_tooltip {
  isEnabled : bool; timeout : option nat; timers_ : list (nat * hover_state); hoverState : hover_state;
  a_click : bool; a_focus : bool; a_hover : bool; animation : bool;
  tip : option tip_el; popper : option nat; poppers : list nat; ids : nat;
  el_title : option string; el_original : option string; el_content : option string; described : bool;
  el_visible : bool; el_connected : bool; noops : nat;
  p_ends : ends unit complete; disposed : bool; told : list tevent;
}.
#[export] Instance tooltip_eta : Settable tooltip := fun s =>
  mk_tooltip (isEnabled s) (timeout s) (timers_ s) (hoverState s) (a_click s) (a_focus s) (a_hover s) (animation s)
    (tip s) (popper s) (poppers s) (ids s) (el_title s) (el_original s) (el_content s) (described s)
    (el_visible s) (el_connected s) (noops s) (p_ends s) (disposed s) (told s).

Definition tell (ev : tevent) (s : tooltip) : tooltip := s <| told := told s ++ [ev] |>.

(** ** What tooltips and popovers do differently *)

(** [isWithContent] and [setContent], from the title and the content; [refuses_dispose]:
    without an instance the method [dispose] makes none. *)
Record kind := mk_kind {
  with_content : string -> string -> bool;
  set_content : string -> string -> tip_el -> tip_el;
  refuses_dispose : bool;
}.

Definition no_text (s : string) : bool := String.eqb s "".

Definition tooltip_kind : kind := {|
  with_content t _ := negb (no_text t);
  set_content t _ x := x <| t_title := t |> <| t_fade := false |> <| t_show := false |>;
  refuses_dispose := true;
|}.

Definition popover_kind : kind := {|
  with_content t c := negb (no_text t) || negb (no_text c);
  set_content t c x := x <| t_title := t |> <| t_body := c |> <| t_fade := false |> <| t_show := false |>;
  refuses_dispose := false;
|}.

(** [_getAttachment]; other placements have no entry in the map. *)
Definition getAttachment (placement : string) : string :=
  let p := toUpperCase placement in
  if String.eqb p "AUTO" then "auto" else if String.eqb p "TOP" then "top"
  else if String.eqb p "RIGHT" then "right" else if String.eqb p "BOTTOM" then "bottom"
  else if String.eqb p "LEFT" then "left" else "undefined".

Section tooltip.
Context (o : options) (k : kind) (allow : tevent -> bool).
(** [Util.supportsTransitionEnd()]; the document knows touches. *)
Context (supports touch : bool).

(** ** The tip *)

Definition on_tip (f : tip_el -> tip_el) (s : tooltip) : tooltip := s <| tip := f <$> tip s |>.

Definition getTipElement (s : tooltip) : tooltip := s <| tip := Some (default blank (tip s)) |>.

Definition has_show (s : tooltip) : bool := match tip s with Some t => t_show t | None => false end.
Definition has_fade (s : tooltip) : bool := match tip s with Some t => t_fade t | None => false end.

Definition getTitle (s : tooltip) : string :=
  let t := default EmptyString (el_original s) in if no_text t then title o else t.
Definition getContent (s : tooltip) : string :=
  let t := default EmptyString (el_content s) in if no_text t then content o else t.

Definition add_class (c : string) (l : list string) : list string := if bool_decide (c ∈ l) then l else l ++ [c].
Definition addAttachmentClass (a : string) (s : tooltip) : tooltip :=
  on_tip (fun t => t <| t_places := add_class a (t_places t) |>) (getTipElement s).
Definition cleanTipClass (s : tooltip) : tooltip := on_tip (fun t => t <| t_places := [] |>) (getTipElement s).

(** A popper that is destroyed takes its attribute off the tip. *)
Definition destroy_popper (s : tooltip) : tooltip :=
  match popper s with
  | Some id => on_tip (fun t => t <| x_placement := false |>)
      (s <| poppers := List.filter (fun x => negb (x =? id)%nat) (poppers s) |>)
  | None => s
  end.

(** ** Hiding *)

Definition hide_complete (s : tooltip) : tooltip :=
  let s := if bool_decide (hoverState s = HShow) then s else on_tip (fun t => t <| t_in := false |>) s in
  let s := cleanTipClass s in
  destroy_popper (tell EvHidden (s <| described := false |>)).

Definition await_tip (c : complete) (s : tooltip) : tooltip := s <| p_ends := await tt c (p_ends s) |>.

Definition hide (s : tooltip) : tooltip :=
  let s := tell EvHide (getTipElement s) in
  if negb (allow EvHide) then s
  else
    let s := on_tip (fun t => t <| t_show := false |>) s in
    let s := if touch then s <| noops := 0%nat |> else s in
    let s := s <| a_click := false |> <| a_focus := false |> <| a_hover := false |> in
    let s := if supports && has_fade s then await_tip HideComplete s else hide_complete s in
    s <| hoverState := HNone |>.

(** ** Delays *)

Definition clear_timeout (s : tooltip) : tooltip :=
  match timeout s with
  | Some n => s <| timers_ := List.filter (fun x => negb (x.1 =? n)%nat) (timers_ s) |>
  | None => s
  end.

(** [setTimeout]: the timer acts if the hover state is still [h]. *)
Definition set_timeout (h : hover_state) (s : tooltip) : tooltip :=
  s <| timeout := Some (ids s) |> <| timers_ := timers_ s ++ [(ids s, h)] |> <| ids := S (ids s) |>.

Definition isWithActiveTrigger (s : tooltip) : bool := a_click s || a_focus s || a_hover s.

Definition set_trigger (t : trigger) (b : bool) (s : tooltip) : tooltip :=
  match t with TFocus => s <| a_focus := b |> | _ => s <| a_hover := b |> end.

Definition leave (ev : option trigger) (s : tooltip) : tooltip :=
  let s := match ev with Some t => set_trigger t false s | None => s end in
  if isWithActiveTrigger s then s
  else
    let s := clear_timeout s <| hoverState := HOut |> in
    if delay_hide o =? 0 then hide s else set_timeout HOut s.

(** ** Showing *)

(** [show], up to [complete]. *)
Definition show_gen (complete : tooltip -> tooltip) (s : tooltip) : tooltip :=
  if negb (el_visible s) then tell Thrown s
  else if negb (with_content k (getTitle s) (getContent s) && isEnabled s) then s
  else
    let s := tell EvShow s in
    if negb (allow EvShow) || negb (el_connected s) then s
    else
      let s := getTipElement s <| described := true |> in
      let s := on_tip (set_content k (getTitle s) (getContent s)) s in
      let s := if animation s then on_tip (fun t => t <| t_fade := true |>) s else s in
      let s := addAttachmentClass (getAttachment (o_placement o)) s in
      let s := on_tip (fun t => t <| t_in := true |>) s in
      let s := tell EvInserted s in
      let s := s <| popper := Some (ids s) |> <| poppers := poppers s ++ [ids s] |> <| ids := S (ids s) |> in
      let s := on_tip (fun t => t <| t_show := true |>) s in
      let s := if touch then s <| noops := S (noops s) |> else s in
      if supports && has_fade s then await_tip ShowComplete s else complete s.

(** The end of [complete], after [_fixTransition]. *)
Definition shown (s : tooltip) : tooltip :=
  let prevHoverState := hoverState s in
  let s := tell EvShown (s <| hoverState := HNone |>) in
  if bool_decide (prevHoverState = HOut) then leave None s else s.

(** Without animation no transition is fixed. *)
Definition fixTransition (s : tooltip) : tooltip :=
  let initConfigAnimation := animation s in
  let s := getTipElement s in
  if match tip s with Some t => x_placement t | None => false end then s
  else
    let s := on_tip (fun t => t <| t_fade := false |>) s <| animation := false |> in
    show_gen shown (hide s) <| animation := initConfigAnimation |>.

Definition show_complete (s : tooltip) : tooltip := shown (if animation s then fixTransition s else s).

Definition show : tooltip -> tooltip := show_gen show_complete.

#[export] Instance tooltip_host : ends_host unit complete tooltip := {
  the_ends := p_ends;
  put_ends en s := s <| p_ends := en |>;
  completed c := match c with ShowComplete => show_complete | HideComplete => hide_complete end;
}.

Definition enter (ev : option trigger) (s : tooltip) : tooltip :=
  let s := match ev with Some t => set_trigger t true s | None => s end in
  let s := getTipElement s in
  if has_show s || bool_decide (hoverState s = HShow) then s <| hoverState := HShow |>
  else
    let s := clear_timeout s <| hoverState := HShow |> in
    if delay_show o =? 0 then show s else set_timeout HShow s.

(** A timer of a delay. *)
Definition timer (n : nat) (s : tooltip) : tooltip :=
  match list_find (fun x => x.1 = n) (timers_ s) with
  | Some (_, (_, h)) =>
      let s := s <| timers_ := List.filter (fun x => negb (x.1 =? n)%nat) (timers_ s) |> in
      if bool_decide (hoverState s = h) then match h with HShow => show s | _ => hide s end else s
  | None => s
  end.

(** ** Use *)

(** [toggle], called without an event and as the listener of a click. *)
Definition toggle (s : tooltip) : tooltip :=
  if negb (isEnabled s) then s
  else
    let s := getTipElement s in
    if has_show s then leave None s else enter None s.

Definition toggle_click (s : tooltip) : tooltip :=
  if negb (isEnabled s) then s
  else
    let s := s <| a_click := negb (a_click s) |> in
    if isWithActiveTrigger s then enter None s else leave None s.

(** The constructor on the element of [s], whose title moves to [data-original-title]. *)
Definition fixTitle (s : tooltip) : tooltip :=
  if negb (no_text (default EmptyString (el_title s))) || bool_decide (el_original s = None)
  then s <| el_original := Some (default EmptyString (el_title s)) |> <| el_title := Some EmptyString |>
  else s.

Definition construct (s : tooltip) : tooltip :=
  fixTitle (mk_tooltip true None [] HNone false false false (o_animation o) None None (poppers s) (ids s)
    (el_title s) (el_original s) (el_content s) (described s) (el_visible s) (el_connected s) (noops s)
    (no_ends <| fresh := fresh (p_ends s) |>) false (told s)).

(** The tip goes with what waits on it. *)
Definition dispose (s : tooltip) : tooltip :=
  let s := destroy_popper (clear_timeout s) in
  s <| p_ends := drop_waits tt (p_ends s) |> <| tip := None |> <| timeout := None |> <| popper := None |>
    <| hoverState := HNone |> <| a_click := false |> <| a_focus := false |> <| a_hover := false |>
    <| isEnabled := false |> <| disposed := true |>.

(** Popper has placed the tip; [update] with the placement if the component is told. *)
Definition placed (id : nat) (update : option string) (s : tooltip) : tooltip :=
  if negb (bool_decide (id ∈ poppers s)) then s
  else if disposed s then match update with Some _ => tell Thrown s | None => s end
  else
    let s := on_tip (fun t => t <| x_placement := true |>) s in
    match update with
    | Some p => addAttachmentClass (getAttachment p) (cleanTipClass s)
    | None => s
    end.

Inductive method := MToggle | MShow | MHide | MEnable | MDisable | MToggleEnabled | MUpdate | MDispose | MUnknown.

Definition call (m : method) (s : tooltip) : tooltip :=
  match m with
  | MToggle => toggle s | MShow => show s | MHide => hide s
  | MEnable => s <| isEnabled := true |> | MDisable => s <| isEnabled := false |>
  | MToggleEnabled => s <| isEnabled := negb (isEnabled s) |>
  | MUpdate => s
  | MDispose => dispose s
  | MUnknown => tell Thrown s
  end.

(** [_jQueryInterface] on the element, with a method or with options. *)
Definition jQueryInterface (m : option method) (s : tooltip) : tooltip :=
  if disposed s then
    if match m with Some MHide => true | Some MDispose => refuses_dispose k | _ => false end then s
    else let s := construct s in match m with Some m => call m s | None => s end
  else match m with Some m => call m s | None => s end.

(** What happens: the listeners act once for every trigger of their kind, and the modal
    around the element hides the tip once for every trigger. *)
Inductive taction :=
  | Call (m : option method) | MouseEnter | MouseLeave | FocusIn | FocusOut | ClickOn | ModalHide
  | Timer (n : nat) | Placed (id : nat) (update : option string)
  | Look (visible connected : bool) | TransitionEnd | EndTimer (n : nat).

Definition times (t : trigger) : nat := length (filter (fun t' => t' = t) (triggers o)).

Definition act (a : taction) (s : tooltip) : tooltip :=
  match a with
  | Call m => jQueryInterface m s
  | Placed id update => placed id update s
  | Look visible connected => s <| el_visible := visible |> <| el_connected := connected |>
  | Timer n => timer n s
  | TransitionEnd => transition_end tt s
  | EndTimer n => end_timer n s
  | _ =>
      if disposed s then s
      else match a with
      | MouseEnter => Nat.iter (times THover) (enter (Some THover)) s
      | MouseLeave => Nat.iter (times THover) (leave (Some THover)) s
      | FocusIn => Nat.iter (times TFocus) (enter (Some TFocus)) s
      | FocusOut => Nat.iter (times TFocus) (leave (Some TFocus)) s
      | ClickOn => Nat.iter (times TClick) toggle_click s
      | _ => if in_modal o then Nat.iter (length (triggers o)) hide s else s
      end
  end.
End tooltip.

(** An element with its title, on which nothing has been done yet. *)
Definition element (title original content : option string) : tooltip :=
  mk_tooltip false None [] HNone false false false false None None [] 0 title original content false true true 0 no_ends true [].
End Tooltip.
