(* ===== verification/BsTooltipFlow.v ===== *)
(** * Bootstrap: tooltip.js and popover.js, their properties

    On an element that stays visible, with something to tell and a page that prevents
    nothing, the tip is in the document exactly while a trigger is active, once delays
    and transitions are over, with one popper and one placement, if triggers come while
    no transition is under way. *)

From S2P Require Export BsEnds BsTooltip.
Import Tooltip.

Section flow.
Context (o : options) (k : kind) (allow : tevent -> bool) (supports touch : bool).
Context (Hallow : forall ev, allow ev = true) (Hsupports : o_animation o = true -> supports = true).
Context (Htriggers : NoDup (triggers o)).

#[local] Instance host : ends_host unit complete tooltip := tooltip_host o k allow supports touch.

#[local] Instance laws : ends_laws unit complete tooltip.
Proof. split; [done|by intros []]. Qed.

Abbreviation act := (act o k allow supports touch).
Abbreviation show := (show o k allow supports touch).
Abbreviation hide := (hide allow supports touch).
Abbreviation enter := (enter o k allow supports touch).
Abbreviation leave := (leave o allow supports touch).

(** ** What an element shows *)

Definition in_page (s : tooltip) : bool := match tip s with Some t => t_in t | None => false end.
Definition places (s : tooltip) : list string := match tip s with Some t => t_places t | None => [] end.
Definition popper_placed (s : tooltip) : bool := match tip s with Some t => x_placement t | None => false end.

(** What stays. *)
Record base (s : tooltip) : Prop := {
  ba_enabled : isEnabled s = true;
  ba_visible : el_visible s = true;
  ba_connected : el_connected s = true;
  ba_animation : animation s = o_animation o;
  ba_content : with_content k (getTitle o s) (getContent o s) = true;
  ba_disposed : disposed s = false;
}.

(** With [v] the tip is in the document, described, with its popper and its placement. *)
Record dressed (s : tooltip) (v : bool) : Prop := {
  dr_in : in_page s = v;
  dr_described : described s = v;
  dr_places : length (places s) = if v then 1%nat else 0%nat;
  dr_poppers : if v then exists id, popper s = Some id /\ poppers s = [id] else poppers s = [];
}.

Inductive phase := Still (v : bool) | Showing (m : nat) | Hiding (v : bool) (m : nat).

(** The timers and the hover state, when the tip is still. *)
Definition delayed (s : tooltip) (v : bool) : Prop :=
  match timers_ s with
  | [] => isWithActiveTrigger s = v /\ (if v then hoverState s <> HOut else hoverState s = HNone)
  | [(n, HShow)] => timeout s = Some n /\ v = false /\ hoverState s = HShow /\ isWithActiveTrigger s = true
  | [(n, HOut)] => timeout s = Some n /\
      (hoverState s = HOut /\ isWithActiveTrigger s = false \/
       hoverState s = HShow /\ isWithActiveTrigger s = true /\ v = true)
  | _ => False
  end.

Definition in_phase (s : tooltip) (ph : phase) : Prop :=
  match ph with
  | Still v => waiting (p_ends s) = [] /\ has_show s = v /\ dressed s v /\ delayed s v
  | Showing m => waiting (p_ends s) = [(tt, Done ShowComplete); (tt, Mark m)] /\ timers_ s = [] /\
      has_show s = true /\ dressed s true /\ hoverState s = HShow /\ isWithActiveTrigger s = true
  | Hiding v m => waiting (p_ends s) = [(tt, Done HideComplete); (tt, Mark m)] /\ timers_ s = [] /\
      has_show s = false /\ dressed s v /\ hoverState s = HNone /\ isWithActiveTrigger s = false
  end.

Record does (s : tooltip) (ph : phase) : Prop := {
  do_base : base s; do_ends : ends_ok (p_ends s); do_phase : in_phase s ph;
}.

(** ** Hiding *)

(** Ready to be hidden. *)
Record leaving (s : tooltip) (v : bool) : Prop := {
  le_base : base s; le_timers : timers_ s = []; le_dressed : dressed s v; le_hover : hoverState s <> HShow;
}.

(** Operations that leave what stays alone. *)
Definition same_base (s s' : tooltip) : Prop :=
  (isEnabled s', el_visible s', el_connected s', animation s', el_original s', el_content s', disposed s') =
  (isEnabled s, el_visible s, el_connected s, animation s, el_original s, el_content s, disposed s).

Lemma base_same s s' : same_base s s' -> base s -> base s'.
Proof.
  intros E [A B C D F G]. injection E as E1 E2 E3 E4 E5 E6 E7. split; try congruence.
  unfold getTitle, getContent in *. by rewrite E5, E6.
Qed.

Definition triggers_of (s : tooltip) := (a_click s, a_focus s, a_hover s).

Lemma none_active s : triggers_of s = (false, false, false) -> isWithActiveTrigger s = false.
Proof. unfold isWithActiveTrigger. by intros [= -> -> ->]. Qed.

Lemma active_of s s' : triggers_of s' = triggers_of s -> isWithActiveTrigger s' = isWithActiveTrigger s.
Proof. unfold isWithActiveTrigger. by intros [= -> -> ->]. Qed.

Lemma tip_hide_complete s v :
  leaving s v -> has_show s = false ->
  let s' := hide_complete s in
  same_base s s' /\ dressed s' false /\ has_show s' = false /\
  (triggers_of s', timers_ s', p_ends s', hoverState s', ids s') = (triggers_of s, timers_ s, p_ends s, hoverState s, ids s) /\
  told s' = told s ++ [EvHidden].
Proof.
  intros [_ _ [D1 D2 D3 D4] C] Hs. unfold hide_complete. rewrite bool_decide_eq_false_2 by done.
  assert (poppers (destroy_popper s) = []) as Hp.
  { unfold destroy_popper. destruct v; [|destruct (popper s); cbn; by rewrite D4].
    destruct D4 as (id & -> & D4). cbn. rewrite D4. cbn. by rewrite Nat.eqb_refl. }
  clear D4. unfold in_page, has_show, places, destroy_popper, same_base, triggers_of in *.
  destruct s as [en ti tms hv ac af ah an tp pp pps i et eo ec de vi co no pe di to_]. cbn in *.
  destruct pp; cbn in *; (split; [done|]); (split; [|split; [by destruct tp|done]]); split; by destruct tp.
Qed.

(** [hide] up to the transition. *)
Definition hide_start (s : tooltip) : tooltip :=
  let s := on_tip (fun t => t <| t_show := false |>) (tell EvHide (getTipElement s)) in
  let s := if touch then s <| noops := 0%nat |> else s in
  s <| a_click := false |> <| a_focus := false |> <| a_hover := false |>.

Lemma hide_eq s :
  hide s = (let s := hide_start s in
            if supports && has_fade s then await_tip HideComplete s else hide_complete s) <| hoverState := HNone |>.
Proof. unfold Tooltip.hide. by rewrite Hallow. Qed.

Lemma hide_start_spec s v :
  leaving s v ->
  let s' := hide_start s in
  leaving s' v /\ same_base s s' /\ has_show s' = false /\ triggers_of s' = (false, false, false) /\
  p_ends s' = p_ends s /\ told s' = told s ++ [EvHide].
Proof.
  intros [B T [D1 D2 D3 D4] C] s'.
  assert (same_base s s') as Hb by (unfold s', hide_start; by destruct touch).
  split; [|split; [done|]].
  - split; [by apply (base_same s)|unfold s', hide_start; by destruct touch| |unfold s', hide_start; by destruct touch].
    unfold s', hide_start, in_page, places in *. destruct s as [en ti tms hv ac af ah an tp pp pps i et eo ec de vi co no pe di to_].
    split; destruct touch, tp; by cbn in *.
  - unfold s', hide_start, has_show. destruct touch; by destruct (tip s).
Qed.

(** The hover state is the last thing [hide] sets. *)
Lemma still_hidden s :
  base s -> ends_ok (p_ends s) -> waiting (p_ends s) = [] -> dressed s false -> has_show s = false ->
  timers_ s = [] -> triggers_of s = (false, false, false) -> does (s <| hoverState := HNone |>) (Still false).
Proof.
  intros B He Hw [D1 D2 D3 D4] Hs T A. split; [by apply (base_same s)|done|]. split; [done|]. split; [done|].
  split; [by split|]. unfold delayed. change (timers_ (s <| hoverState := HNone |>)) with (timers_ s). rewrite T.
  split; [|done]. by apply none_active.
Qed.

Lemma hiding_of s v :
  leaving s v -> ends_ok (p_ends s) -> waiting (p_ends s) = [] -> has_show s = false ->
  triggers_of s = (false, false, false) ->
  does (await_tip HideComplete s <| hoverState := HNone |>) (Hiding v (fresh (p_ends s))).
Proof.
  intros [B T [D1 D2 D3 D4] C] He Hw Hs A. split; [by apply (base_same s)|by apply await_ok|]. cbn. rewrite Hw.
  split_and!; [done..|by split|done|]. by apply none_active.
Qed.

Lemma hide_complete_still s v :
  leaving s v -> ends_ok (p_ends s) -> waiting (p_ends s) = [] -> has_show s = false ->
  triggers_of s = (false, false, false) -> does (hide_complete s <| hoverState := HNone |>) (Still false).
Proof.
  intros Hl He Hw Hs A. destruct (tip_hide_complete s v Hl Hs) as (Hb & D & Hs2 & E & _).
  revert Hb D Hs2 E. generalize (hide_complete s) as s2. intros s2 Hb D Hs2 E.
  assert (triggers_of s2 = triggers_of s) as E1 by congruence.
  assert (timers_ s2 = timers_ s) as E2 by congruence. assert (p_ends s2 = p_ends s) as E3 by congruence.
  apply still_hidden; rewrite ?E1, ?E2, ?E3; try done; [by apply (base_same s); [|apply Hl]|apply Hl].
Qed.

Lemma hide_hover s : hoverState (hide s) = HNone.
Proof. by rewrite hide_eq. Qed.

Lemma hide_does s v :
  leaving s v -> ends_ok (p_ends s) -> waiting (p_ends s) = [] ->
  exists ph, does (hide s) ph /\ (ph = Still false \/ exists m, ph = Hiding v m).
Proof.
  intros Hl He Hw. rewrite hide_eq. cbv zeta. destruct (hide_start_spec s v Hl) as (Hl' & _ & Hs & Ht & Ep & _).
  revert Hl' Hs Ht Ep. generalize (hide_start s) as s1. intros s1 Hl' Hs Ht Ep. rewrite <- Ep in He, Hw.
  destruct (supports && has_fade s1).
  - exists (Hiding v (fresh (p_ends s1))). split; [by apply hiding_of|right; by eexists].
  - exists (Still false). split; [by apply (hide_complete_still s1 v)|by left].
Qed.

(** ** Showing *)

(** [show] up to the transition. *)
Definition show_start (s : tooltip) : tooltip :=
  let s := getTipElement (tell EvShow s) <| described := true |> in
  let s := on_tip (set_content k (getTitle o s) (getContent o s)) s in
  let s := if animation s then on_tip (fun t => t <| t_fade := true |>) s else s in
  let s := addAttachmentClass (getAttachment (o_placement o)) s in
  let s := tell EvInserted (on_tip (fun t => t <| t_in := true |>) s) in
  let s := s <| popper := Some (ids s) |> <| poppers := poppers s ++ [ids s] |> <| ids := S (ids s) |> in
  let s := on_tip (fun t => t <| t_show := true |>) s in
  if touch then s <| noops := S (noops s) |> else s.

Lemma tip_show_eq s :
  base s -> show s = let s := show_start s in
    if supports && has_fade s then await_tip ShowComplete s else show_complete o k allow supports touch s.
Proof.
  intros [A B C D F G]. unfold Tooltip.show, show_gen. rewrite B, F, A. cbn [negb andb].
  rewrite Hallow. change (el_connected (tell EvShow s)) with (el_connected s). rewrite C. by cbn [negb orb].
Qed.

(** Of the contents of a tip only the texts and the two classes change. *)
Context (Hkind : forall t c x, t_in (set_content k t c x) = t_in x /\ t_fade (set_content k t c x) = false /\
  t_places (set_content k t c x) = t_places x /\ x_placement (set_content k t c x) = x_placement x).

Lemma show_start_spec s :
  dressed s false ->
  let s' := show_start s in
  same_base s s' /\ dressed s' true /\ has_show s' = true /\ has_fade s' = animation s /\
  (triggers_of s', timers_ s', p_ends s', hoverState s', timeout s') = (triggers_of s, timers_ s, p_ends s, hoverState s, timeout s) /\
  told s' = told s ++ [EvShow; EvInserted].
Proof.
  intros [D1 D2 D3 D4]. unfold show_start, same_base, triggers_of, has_show, has_fade.
  assert (length (places s) = 0%nat) as D3' by done. clear D3.
  destruct s as [en ti tms hv ac af ah an tp pp pps i et eo ec de vi co no pe di to_]. unfold in_page, places in *. cbn in D1, D2, D3', D4.
  subst pps. set (t0 := default blank tp). assert (t_in t0 = false /\ t_places t0 = []) as [T1 T2].
  { destruct tp as [t|]; [|done]. split; [done|]. by apply nil_length_inv. }
  assert (forall t c, t_places (set_content k t c t0) = []) as K by (intros t c; by rewrite (proj1 (proj2 (proj2 (Hkind t c t0))))).
  destruct an, touch; (split; [done|]); (split; [|split; [done|]]).
  all: try (split; [done|done| |by eexists]; unfold places; cbn; fold t0; by rewrite K).
  all: (split; [cbn; fold t0; rewrite ?(proj1 (proj2 (Hkind _ _ _))); done|]); (split; [done|]); cbn; by rewrite <- app_assoc.
Qed.

Abbreviation shown := (Tooltip.shown o allow supports touch).

Lemma shown_eq s : hoverState s = HShow -> shown s = tell EvShown (s <| hoverState := HNone |>).
Proof. intros Hs. unfold Tooltip.shown. by rewrite Hs. Qed.

Lemma still_shown s :
  base s -> ends_ok (p_ends s) -> waiting (p_ends s) = [] -> dressed s true -> has_show s = true -> timers_ s = [] ->
  hoverState s = HShow -> isWithActiveTrigger s = true -> does (shown s) (Still true).
Proof.
  intros B He Hw [D1 D2 D3 D4] Hs T Hh A. rewrite shown_eq by done. split; [by apply (base_same s)|done|].
  split; [done|]. split; [done|]. split; [by split|]. unfold delayed.
  change (timers_ (tell EvShown (s <| hoverState := HNone |>))) with (timers_ s). rewrite T. by split.
Qed.

Lemma showing_of s :
  base s -> ends_ok (p_ends s) -> waiting (p_ends s) = [] -> dressed s true -> has_show s = true -> timers_ s = [] ->
  hoverState s = HShow -> isWithActiveTrigger s = true ->
  does (await_tip ShowComplete s) (Showing (fresh (p_ends s))).
Proof.
  intros B He Hw [D1 D2 D3 D4] Hs T Hh A. split; [by apply (base_same s)|by apply await_ok|]. cbn. rewrite Hw.
  by split_and!.
Qed.

Lemma show_does s :
  base s -> ends_ok (p_ends s) -> waiting (p_ends s) = [] -> dressed s false -> timers_ s = [] ->
  hoverState s = HShow -> isWithActiveTrigger s = true ->
  exists ph, does (show s) ph /\ (ph = Still true \/ exists m, ph = Showing m).
Proof.
  intros B He Hw D T Hh A. rewrite tip_show_eq by done. cbv zeta.
  destruct (show_start_spec s D) as (Hb & D' & Hs & Hf & E & _). pose proof (ba_animation s B) as Han.
  revert Hb D' Hs Hf E. generalize (show_start s) as s1. intros s1 Hb D' Hs Hf E.
  assert (triggers_of s1 = triggers_of s) as E1 by congruence. assert (timers_ s1 = timers_ s) as E2 by congruence.
  assert (p_ends s1 = p_ends s) as E3 by congruence. assert (hoverState s1 = hoverState s) as E4 by congruence.
  assert (isWithActiveTrigger s1 = true) as A1 by by rewrite (active_of s s1).
  assert (base s1) as B1 by by apply (base_same s). rewrite <- E2 in T. rewrite <- E3 in He, Hw. rewrite <- E4 in Hh.
  rewrite Hf, Han. destruct (o_animation o) eqn:Eo.
  - rewrite Hsupports by done. cbn [andb]. exists (Showing (fresh (p_ends s1))). split; [by apply showing_of|right; by eexists].
  - rewrite andb_false_r. exists (Still true). split; [|by left]. unfold show_complete.
    rewrite (ba_animation s1 B1), Eo. by apply still_shown.
Qed.

(** ** The triggers *)

Lemma clear_timers s :
  timers_ (clear_timeout s) =
  match timeout s with Some n => List.filter (fun x => negb (x.1 =? n)%nat) (timers_ s) | None => timers_ s end.
Proof. unfold clear_timeout. by destruct (timeout s). Qed.

Lemma clear_delayed s v : delayed s v -> timers_ (clear_timeout s) = [].
Proof.
  rewrite clear_timers. unfold delayed. destruct (timers_ s) as [|[n [| |]] [|]]; try done.
  - intros _. by destruct (timeout s).
  - intros (-> & _). cbn. by rewrite Nat.eqb_refl.
  - intros (-> & _). cbn. by rewrite Nat.eqb_refl.
Qed.

Lemma clear_frame s :
  same_base s (clear_timeout s) /\ tip (clear_timeout s) = tip s /\ described (clear_timeout s) = described s /\
  popper (clear_timeout s) = popper s /\ poppers (clear_timeout s) = poppers s /\ p_ends (clear_timeout s) = p_ends s /\
  triggers_of (clear_timeout s) = triggers_of s.
Proof. unfold clear_timeout. by destruct (timeout s). Qed.

(** States with the same tip, poppers and mark on the element are dressed alike. *)
Definition same_tip (s s' : tooltip) : Prop :=
  tip s' = tip s /\ described s' = described s /\ popper s' = popper s /\ poppers s' = poppers s.

Lemma dressed_same s s' v : same_tip s s' -> dressed s v -> dressed s' v.
Proof.
  intros (E1 & E2 & E3 & E4) [A B C D]. unfold in_page, places in *.
  split; unfold in_page, places; by rewrite ?E1, ?E2, ?E3, ?E4.
Qed.

(** A delay begins. *)
Lemma still_delayed s v h :
  base s -> ends_ok (p_ends s) -> waiting (p_ends s) = [] -> dressed s v -> has_show s = v -> timers_ s = [] ->
  h = hoverState s -> h = HShow /\ v = false /\ isWithActiveTrigger s = true \/ h = HOut /\ isWithActiveTrigger s = false ->
  does (set_timeout h s) (Still v).
Proof.
  intros B He Hw D Hs T Hh Hc. split; [by apply (base_same s)|done|]. split; [done|]. split; [done|].
  split; [by apply (dressed_same s)|]. unfold delayed. cbn. rewrite T. cbn.
  destruct Hc as [(-> & -> & A)|(-> & A)]; split; try done. left. by split.
Qed.

(** The triggers have changed, nothing else. *)
Record retriggered (s s' : tooltip) : Prop := {
  rt_base : same_base s s'; rt_tip : same_tip s s';
  rt_rest : (timers_ s', timeout s', hoverState s', p_ends s') = (timers_ s, timeout s, hoverState s, p_ends s);
}.

Lemma retriggered_still s s' v :
  retriggered s s' -> does s (Still v) ->
  base s' /\ ends_ok (p_ends s') /\ waiting (p_ends s') = [] /\ has_show s' = v /\ dressed s' v.
Proof.
  intros [Hb Ht Hr] [B He (Hw & Hs & D & _)]. assert (p_ends s' = p_ends s) as -> by congruence.
  split; [by apply (base_same s)|]. split; [done|]. split; [done|]. split; [|by apply (dressed_same s)].
  unfold has_show in *. by rewrite (proj1 Ht).
Qed.

Lemma dressed_tip s v : dressed s v -> dressed (getTipElement s) v.
Proof.
  intros [A B C D]. unfold getTipElement, in_page, places in *. split; unfold in_page, places; cbn; [|done| |done].
  - by destruct (tip s).
  - by destruct (tip s).
Qed.

(** The clock is stopped and the hover state changes. *)
Lemma stopped s v h :
  base s -> dressed s v -> delayed s v ->
  let s' := clear_timeout s <| hoverState := h |> in
  base s' /\ dressed s' v /\ timers_ s' = [] /\ p_ends s' = p_ends s /\ triggers_of s' = triggers_of s /\ tip s' = tip s.
Proof.
  intros B D Hd. pose proof (clear_delayed s v Hd) as T. destruct (clear_frame s) as (F1 & F2 & F3 & F4 & F5 & F6 & F7).
  revert T F1 F2 F3 F4 F5 F6 F7. generalize (clear_timeout s) as s1. intros s1 T F1 F2 F3 F4 F5 F6 F7.
  split; [by apply (base_same s1), (base_same s)|]. split; [|done]. apply (dressed_same s); [|done]. by split_and!.
Qed.

(** [delayed] after the triggers have changed: all that [clear_timeout] needs. *)
Lemma clear_retriggered s s' v : retriggered s s' -> delayed s v -> timers_ (clear_timeout s') = [].
Proof.
  intros [_ _ Hr] Hd. rewrite clear_timers. assert (timers_ s' = timers_ s) as -> by congruence.
  assert (timeout s' = timeout s) as -> by congruence. rewrite <- clear_timers. by apply (clear_delayed s v).
Qed.

Lemma enter_does s s1 v :
  does s (Still v) -> retriggered s s1 -> isWithActiveTrigger s1 = true -> exists ph, does (enter None s1) ph.
Proof.
  intros H R A. destruct (retriggered_still s s1 v R H) as (B & He & Hw & Hs & D).
  pose proof (do_phase _ _ H) as (_ & _ & _ & Hd). pose proof (clear_retriggered s s1 v R Hd) as T.
  assert (timers_ s1 = timers_ s /\ timeout s1 = timeout s /\ hoverState s1 = hoverState s) as (E1 & E2 & E3)
    by (pose proof (rt_rest _ _ R); split_and!; congruence).
  unfold delayed in Hd. rewrite <- E1, <- E2, <- E3 in Hd. clear E1 E2 E3 R H.
  unfold Tooltip.enter. cbn zeta.
  assert (has_show (getTipElement s1) = v) as Hs' by (rewrite <- Hs; unfold has_show, getTipElement; cbn; by destruct (tip s1)).
  rewrite Hs'. change (hoverState (getTipElement s1)) with (hoverState s1).
  pose proof (dressed_tip s1 v D) as D'.
  destruct (v || bool_decide (hoverState s1 = HShow)) eqn:Ev.
  - exists (Still v). split; [by apply (base_same s1)|done|]. split; [done|]. split; [done|].
    split; [by apply (dressed_same (getTipElement s1))|].
    unfold delayed. change (timers_ (getTipElement s1 <| hoverState := HShow |>)) with (timers_ s1).
    destruct (timers_ s1) as [|[n [| |]] [|]]; try done.
    + destruct v; [by split|]. destruct Hd as [_ Hd]. by rewrite Hd in Ev.
    + destruct Hd as (E & -> & _ & _). by split_and!.
    + destruct Hd as (E & Hd). split; [done|]. right. split; [done|]. split; [done|].
      destruct v; [done|]. destruct Hd as [[Hd _]|(_ & _ & ?)]; [|done]. by rewrite Hd in Ev.
  - apply orb_false_iff in Ev as [-> Ev]. apply bool_decide_eq_false in Ev.
    set (s2 := clear_timeout (getTipElement s1) <| hoverState := HShow |>).
    assert (timers_ s2 = []) as T2 by (rewrite <- T; unfold s2; cbn; by rewrite !clear_timers).
    assert (base s2 /\ dressed s2 false /\ p_ends s2 = p_ends s1 /\ isWithActiveTrigger s2 = true /\ has_show s2 = false)
      as (B2 & D2 & E2 & A2 & S2).
    { destruct (clear_frame (getTipElement s1)) as (F1 & F2 & F3 & F4 & F5 & F6 & F7). split_and!.
      - apply (base_same (clear_timeout (getTipElement s1))); [done|]. by apply (base_same (getTipElement s1)); [|apply (base_same s1)].
      - apply (dressed_same (getTipElement s1)); [by split_and!|done].
      - done.
      - etrans; [|exact A]. by apply active_of.
      - unfold has_show. change (tip s2) with (tip (clear_timeout (getTipElement s1))). by rewrite F2. }
    assert (hoverState s2 = HShow) as H2 by done. revert T2 B2 D2 E2 A2 S2 H2.
    generalize s2. clear s2. intros s2 T2 B2 D2 E2 A2 S2 H2. rewrite <- E2 in He, Hw. destruct (delay_show o =? 0).
    + destruct (show_does s2) as (ph & Hph & _); try done. by exists ph.
    + exists (Still false). apply still_delayed; try done. by left.
Qed.

(** Leaving with no trigger left: with or without a delay. *)
Lemma leave_now s s1 v :
  does s (Still v) -> retriggered s s1 -> isWithActiveTrigger s1 = false ->
  exists ph, does (leave None s1) ph /\
    (hoverState (leave None s1) = HNone /\ (ph = Still false \/ exists m, ph = Hiding v m) \/
     ph = Still v /\ exists n, timers_ (leave None s1) = [(n, HOut)] /\ hoverState (leave None s1) = HOut).
Proof.
  intros H R A. destruct (retriggered_still s s1 v R H) as (B & He & Hw & Hs & D).
  pose proof (do_phase _ _ H) as (_ & _ & _ & Hd). pose proof (clear_retriggered s s1 v R Hd) as T. clear Hd R H.
  unfold Tooltip.leave. cbn zeta. rewrite A.
  set (s2 := clear_timeout s1 <| hoverState := HOut |>).
  assert (base s2 /\ dressed s2 v /\ p_ends s2 = p_ends s1 /\ isWithActiveTrigger s2 = false /\ has_show s2 = v)
    as (B2 & D2 & E2 & A2 & S2).
  { destruct (clear_frame s1) as (F1 & F2 & F3 & F4 & F5 & F6 & F7). split_and!.
    - by apply (base_same (clear_timeout s1)); [|apply (base_same s1)].
    - apply (dressed_same s1); [by split_and!|done].
    - done.
    - etrans; [|exact A]. by apply active_of.
    - etrans; [|exact Hs]. unfold has_show. change (tip s2) with (tip (clear_timeout s1)). by rewrite F2. }
  assert (hoverState s2 = HOut) as H2 by done. assert (timers_ s2 = []) as T2 by done. revert T2 B2 D2 E2 A2 S2 H2.
  generalize s2. clear s2. intros s2 T2 B2 D2 E2 A2 S2 H2. rewrite <- E2 in He, Hw. destruct (delay_hide o =? 0).
  - destruct (hide_does s2 v) as (ph & Hph & Hc); [by split; [..|by rewrite H2]|done|done|]. exists ph.
    split; [done|]. left. split; [apply hide_hover|done].
  - exists (Still v). split; [apply still_delayed; try done; by right|]. right. split; [done|].
    exists (ids s2). cbn. by rewrite T2.
Qed.

Lemma leave_does s s1 v :
  does s (Still v) -> retriggered s s1 -> (isWithActiveTrigger s1 = true -> isWithActiveTrigger s = true) ->
  exists ph, does (leave None s1) ph.
Proof.
  intros H R Hact. destruct (isWithActiveTrigger s1) eqn:A.
  2: { destruct (leave_now s s1 v H R A) as (ph & Hph & _). by exists ph. }
  specialize (Hact eq_refl). destruct (retriggered_still s s1 v R H) as (B & He & Hw & Hs & D).
  pose proof (do_phase _ _ H) as (_ & _ & _ & Hd).
  assert (timers_ s1 = timers_ s /\ timeout s1 = timeout s /\ hoverState s1 = hoverState s) as (E1 & E2 & E3)
    by (pose proof (rt_rest _ _ R); split_and!; congruence).
  unfold Tooltip.leave. cbn zeta. rewrite A. exists (Still v). split; [done|done|]. split_and!; [done..|].
  unfold delayed in Hd |- *. rewrite E1, E2, E3, A. by rewrite Hact in Hd.
Qed.

(** ** The ends of transitions and delays *)

(** [complete] of [show], when Popper has placed the tip. *)
Lemma show_complete_eq s :
  base s -> hoverState s = HShow -> popper_placed s = true \/ o_animation o = false ->
  exists s', (s' = s \/ s' = getTipElement s) /\
    show_complete o k allow supports touch s = tell EvShown (s' <| hoverState := HNone |>).
Proof.
  intros B Hh Hp. unfold show_complete. rewrite (ba_animation s B). destruct (o_animation o) eqn:Eo.
  - exists (getTipElement s). split; [by right|]. destruct Hp as [Hp|]; [|done].
    unfold fixTransition. cbn zeta. unfold popper_placed in Hp.
    assert (match tip (getTipElement s) with Some t => x_placement t | None => false end = true) as ->.
    { cbn. destruct (tip s); [done|]. done. }
    by apply shown_eq.
  - exists s. split; [by left|]. by apply shown_eq.
Qed.

Lemma finish_shown s en :
  base s -> dressed s true -> has_show s = true -> timers_ s = [] -> hoverState s = HShow -> isWithActiveTrigger s = true ->
  popper_placed s = true \/ o_animation o = false -> ends_ok en -> waiting en = [] ->
  does (show_complete o k allow supports touch s <| p_ends := en |>) (Still true).
Proof.
  intros B D Hs T Hh A Hp He Hw. destruct (show_complete_eq s B Hh Hp) as (s' & Hs' & ->).
  assert (base s' /\ dressed s' true /\ has_show s' = true /\ timers_ s' = [] /\ isWithActiveTrigger s' = true)
    as (B' & D' & S' & T' & A').
  { destruct Hs' as [->| ->]; [done|]. split; [by apply (base_same s)|]. split; [by apply dressed_tip|].
    split; [|done]. unfold has_show in *. cbn. by destruct (tip s). }
  clear Hs' B D Hs T Hh A Hp s. split; [by apply (base_same s')|done|]. split; [done|]. split; [done|].
  split; [by apply (dressed_same s')|]. unfold delayed.
  change (timers_ (tell EvShown (s' <| hoverState := HNone |>) <| p_ends := en |>)) with (timers_ s').
  rewrite T'. by split.
Qed.

Lemma finish_hidden s v en :
  leaving s v -> has_show s = false -> hoverState s = HNone -> isWithActiveTrigger s = false -> ends_ok en -> waiting en = [] ->
  does (hide_complete s <| p_ends := en |>) (Still false).
Proof.
  intros Hl Hs Hh A He Hw. destruct (tip_hide_complete s v Hl Hs) as (Hb & D & S2 & E & _).
  revert Hb D S2 E. generalize (hide_complete s) as s2. intros s2 Hb D S2 E.
  assert (triggers_of s2 = triggers_of s) as E1 by congruence. assert (timers_ s2 = timers_ s) as E2 by congruence.
  assert (hoverState s2 = hoverState s) as E3 by congruence. clear E.
  split; [apply (base_same s2); [done|]; by apply (base_same s); [|apply Hl]|done|]. split; [done|]. split; [done|].
  split; [by apply (dressed_same s2)|]. unfold delayed.
  change (timers_ (s2 <| p_ends := en |>)) with (timers_ s2). rewrite E2, (le_timers _ _ Hl). split; [|cbn; by rewrite E3].
  etrans; [|exact A]. by apply active_of.
Qed.

Lemma hide_complete_ends s : p_ends (hide_complete s) = p_ends s.
Proof. unfold hide_complete, destroy_popper. destruct (bool_decide _); cbn; by destruct (popper s). Qed.

Lemma show_complete_ends s :
  base s -> hoverState s = HShow -> popper_placed s = true \/ o_animation o = false ->
  p_ends (show_complete o k allow supports touch s) = p_ends s.
Proof. intros B Hh Hp. by destruct (show_complete_eq s B Hh Hp) as (s' & [->| ->] & ->). Qed.

(** The end that is awaited. *)
Lemma tip_end c m s :
  waiting (p_ends s) = [(tt, Done c); (tt, Mark m)] ->
  exists en1 en2, waiting en1 = [] /\
    transition_end tt s = completed c (s <| p_ends := en1 |>) <| p_ends := en2 |> /\
    waiting en2 = waiting (p_ends (completed c (s <| p_ends := en1 |>))).
Proof.
  intros W. rewrite (transition_end_await (H := host) tt c m s W). cbv zeta.
  by eexists _, _; split_and!; [|reflexivity|].
Qed.

Lemma completed_hide s : completed HideComplete s = hide_complete s.
Proof. done. Qed.

Lemma ends_put s en : p_ends (s <| p_ends := en |>) = en.
Proof. done. Qed.

Lemma finish_showing m s :
  base s -> in_phase s (Showing m) -> popper_placed s = true \/ o_animation o = false ->
  ends_ok (p_ends (transition_end tt s)) -> does (transition_end tt s) (Still true).
Proof.
  intros B (W & T & S & D & Hh & A) Hp. destruct (tip_end ShowComplete m s W) as (en1 & en2 & W1 & -> & W2).
  cbn [completed host tooltip_host] in *.
  assert (base (s <| p_ends := en1 |>)) as B1 by by apply (base_same s).
  assert (dressed (s <| p_ends := en1 |>) true) as D1 by by apply (dressed_same s).
  intros Hok. apply finish_shown; try done. by rewrite W2, show_complete_ends.
Qed.

Lemma leaving_ends s v en : leaving s v -> leaving (s <| p_ends := en |>) v.
Proof. intros [B T D Hh]. split; [by apply (base_same s)|exact T|by apply (dressed_same s)|exact Hh]. Qed.

Lemma finish_hiding v m s :
  base s -> in_phase s (Hiding v m) ->
  ends_ok (p_ends (transition_end tt s)) -> does (transition_end tt s) (Still false).
Proof.
  intros B (W & T & S & D & Hh & A). destruct (tip_end HideComplete m s W) as (en1 & en2 & W1 & E & W2).
  rewrite completed_hide in E, W2. rewrite E.
  assert (leaving s v) as L by (split; [done..|by rewrite Hh]).
  pose proof (leaving_ends s v en1 L) as L1.
  rewrite ends_put. rewrite hide_complete_ends, ends_put, W1 in W2.
  intros Hok. exact (finish_hidden _ v en2 L1 S Hh A Hok W2).
Qed.

(** What is awaited in the end of a transition is only ever more. *)
Definition keeps_ends (f : tooltip -> tooltip) : Prop :=
  forall X P s, ends_ok_in X P (p_ends s) -> ends_ok_in X P (p_ends (f s)).

Lemma hover_ends s h : p_ends (s <| hoverState := h |>) = p_ends s.
Proof. done. Qed.

Lemma await_tip_ends c s : p_ends (await_tip c s) = await tt c (p_ends s).
Proof. done. Qed.

Lemma hide_keeps : keeps_ends hide.
Proof.
  intros X P s H. rewrite hide_eq. cbv zeta.
  assert (ends_ok_in X P (p_ends (hide_start s))) as H1 by (unfold hide_start; by destruct touch).
  revert H1. generalize (hide_start s) as s1. intros s1 H1. rewrite hover_ends. destruct (supports && has_fade s1).
  - rewrite await_tip_ends. by apply await_ok.
  - by rewrite hide_complete_ends.
Qed.

Lemma clear_keeps : keeps_ends clear_timeout.
Proof. intros X P s H. unfold clear_timeout. by destruct (timeout s). Qed.

Lemma leave_keeps : keeps_ends (leave None).
Proof.
  intros X P s H. unfold Tooltip.leave. cbn zeta. destruct (isWithActiveTrigger s); [done|].
  pose proof (clear_keeps X P s H) as H1. revert H1. generalize (clear_timeout s) as s1. intros s1 H1.
  destruct (delay_hide o =? 0); [by apply hide_keeps|exact H1].
Qed.

Lemma shown_keeps : keeps_ends shown.
Proof.
  intros X P s H. unfold Tooltip.shown. cbn zeta. destruct (bool_decide _); [by apply leave_keeps|exact H].
Qed.

Lemma show_start_ends s : p_ends (show_start s) = p_ends s.
Proof. unfold show_start. destruct touch, s as [? ? ? ? ? ? ? an]; cbn; by destruct an. Qed.

(** [show] does nothing, fires an event, or goes on to the transition. *)
Lemma show_gen_cases c s (P : tooltip -> Prop) :
  P s -> P (tell Thrown s) -> P (tell EvShow s) ->
  P (let s := show_start s in if supports && has_fade s then await_tip ShowComplete s else c s) ->
  P (show_gen o k allow supports touch c s).
Proof.
  intros H1 H2 H3 H4. unfold show_gen. destruct (negb (el_visible s)); [done|].
  destruct (negb (_ && _)); [done|]. cbv zeta. by destruct (_ || _).
Qed.

Lemma show_gen_keeps c : keeps_ends c -> keeps_ends (show_gen o k allow supports touch c).
Proof.
  intros Hc X P s H. apply show_gen_cases; try done. cbv zeta.
  assert (ends_ok_in X P (p_ends (show_start s))) as H1 by by rewrite show_start_ends.
  revert H1. generalize (show_start s) as s1. intros s1 H1. destruct (_ && _); [|by apply Hc].
  rewrite await_tip_ends. by apply await_ok.
Qed.

Lemma show_complete_keeps : keeps_ends (show_complete o k allow supports touch).
Proof.
  intros X P s H. unfold show_complete. apply shown_keeps. destruct (animation s); [|done].
  unfold fixTransition. cbn zeta. destruct (match tip (getTipElement s) with Some t => _ | None => _ end); [done|].
  enough (forall s1, ends_ok_in X P (p_ends s1) ->
    ends_ok_in X P (p_ends (show_gen o k allow supports touch shown (hide s1)))) as Hs by (cbn; by apply Hs).
  intros s1 H1. apply show_gen_keeps, hide_keeps, H1. apply shown_keeps.
Qed.

Lemma tip_only_awaits : only_awaits (H := host).
Proof.
  intros [] s X P H.
  - by apply show_complete_keeps.
  - rewrite completed_hide. cbn [the_ends host tooltip_host]. by rewrite hide_complete_ends.
Qed.

Lemma tip_transition_end s ph :
  does s ph -> popper_placed s = true \/ o_animation o = false -> exists ph', does (transition_end tt s) ph'.
Proof.
  intros [B He P] Hp. pose proof (transition_end_ok (H := host) tt s tip_only_awaits He) as Hok.
  destruct ph as [v|m|v m].
  - exists (Still v). rewrite (transition_end_other (H := host)); [done|].
    intros p Hin. destruct P as [W _]. cbn in Hin. rewrite W in Hin. by apply elem_of_nil in Hin.
  - exists (Still true). by apply (finish_showing m).
  - exists (Still false). by apply (finish_hiding v m).
Qed.

(** Only the ends change. *)
Lemma phase_ends s en ph :
  base s -> in_phase s ph -> waiting en = waiting (p_ends s) -> base (s <| p_ends := en |>) /\ in_phase (s <| p_ends := en |>) ph.
Proof.
  intros B P Hw. split; [by apply (base_same s)|]. unfold in_phase in *. rewrite ends_put, Hw.
  destruct ph; destruct P as (W & P); (split; [exact W|]); [destruct P as (S & D & T)|destruct P as (T & S & D & R)..].
  - split; [exact S|]. split; [by apply (dressed_same s)|exact T].
  - split; [exact T|]. split; [exact S|]. split; [by apply (dressed_same s)|exact R].
  - split; [exact T|]. split; [exact S|]. split; [by apply (dressed_same s)|exact R].
Qed.

Definition timed_out (n : nat) (e : ends unit complete) : ends unit complete :=
  e <| timers := filter (fun p => p.1 <> n) (timers e) |>.

Lemma timed_out_waiting n e : waiting (timed_out n e) = waiting e.
Proof. done. Qed.

Lemma tip_end_timer n s ph :
  does s ph -> popper_placed s = true \/ o_animation o = false -> exists ph', does (end_timer n s) ph'.
Proof.
  intros [B He P] Hp. pose proof (end_timer_ok (H := host) n s tip_only_awaits He) as Hok.
  destruct (list_find (fun w => w.1 = n) (timers (p_ends s))) as [[j [m' []]]|] eqn:Ef.
  2: { exists ph. unfold end_timer. cbn [the_ends host tooltip_host]. rewrite Ef. by split. }
  pose proof Ef as (Ei & Em & _)%list_find_Some. cbn in Em. subst m'.
  destruct (decide (n ∈ called (p_ends s))) as [Hm|Hm].
  - exists ph. revert Hok. unfold end_timer. cbn [the_ends put_ends host tooltip_host]. rewrite Ef, decide_True by done.
    intros Hok. destruct (phase_ends s (timed_out n (p_ends s)) ph B P (timed_out_waiting n (p_ends s))) as [B' P']. by split.
  - pose proof (eo_live _ _ _ He n tt (list_elem_of_lookup_2 _ _ _ Ei) Hm) as Hw. rewrite app_nil_r in Hw.
    rewrite (end_timer_live (H := host) tt n s He Hw Hm) in Hok |- *. cbn [the_ends put_ends host tooltip_host] in Hok |- *.
    destruct (phase_ends s (timed_out n (p_ends s)) ph B P (timed_out_waiting n (p_ends s))) as [B' P'].
    destruct ph as [v|m|v m]; [|exists (Still true); by apply (finish_showing m)|exists (Still false); by apply (finish_hiding v m)].
    destruct P as [W _]. rewrite W in Hw. by apply elem_of_nil in Hw.
Qed.

(** ** Delays that end and placements *)

(** The timer that was set, alone. *)
Lemma timer_alone n h s :
  timers_ s = [(n, h)] -> timer o k allow supports touch n s =
  let s := s <| timers_ := [] |> in
  if bool_decide (hoverState s = h) then match h with HShow => show s | _ => hide s end else s.
Proof.
  intros T. unfold timer. rewrite T. cbn [list_find]. rewrite decide_True by done. cbn.
  by rewrite Nat.eqb_refl.
Qed.

Lemma timer_other n s :
  (forall h, (n, h) ∉ timers_ s) -> timer o k allow supports touch n s = s.
Proof.
  intros Hn. unfold timer. destruct (list_find _ _) as [[i [m h]]|] eqn:Ef; [|done].
  apply list_find_Some in Ef as (Ei & Em & _). cbn in Em. subst m. by destruct (Hn h (list_elem_of_lookup_2 _ _ _ Ei)).
Qed.

Definition untimed (s : tooltip) : tooltip := s <| timers_ := [] |>.

Lemma untimed_still s v :
  does s (Still v) ->
  base (untimed s) /\ ends_ok (p_ends (untimed s)) /\ waiting (p_ends (untimed s)) = [] /\
  has_show (untimed s) = v /\ dressed (untimed s) v.
Proof.
  intros [B He (W & S & D & _)]. split; [by apply (base_same s)|]. split; [exact He|]. split; [exact W|].
  split; [exact S|]. by apply (dressed_same s).
Qed.

Lemma timer_set s v n h :
  does s (Still v) -> timers_ s = [(n, h)] -> exists ph, does (timer o k allow supports touch n s) ph /\
    (h = HOut -> hoverState s = HOut ->
     hoverState (timer o k allow supports touch n s) = HNone /\ (ph = Still false \/ exists m, ph = Hiding v m)).
Proof.
  intros H T. destruct (untimed_still s v H) as (B & He & W & S & D). rewrite (timer_alone n h) by done. cbv zeta.
  pose proof (do_phase _ _ H) as (_ & _ & _ & Hd). unfold delayed in Hd. rewrite T in Hd. clear H.
  assert (timers_ (untimed s) = []) as T' by done. assert (hoverState (untimed s) = hoverState s) as E1 by done.
  assert (isWithActiveTrigger (untimed s) = isWithActiveTrigger s) as E2 by done. fold (untimed s).
  revert B He W S D T' E1 E2. generalize (untimed s) as s1. intros s1 B He W S D T' E1 E2. rewrite E1.
  destruct h; [done| |].
  - destruct Hd as (_ & -> & Hh & A). rewrite Hh, bool_decide_eq_true_2 by done.
    destruct (show_does s1 B He W D T') as (ph & Hph & _); [congruence..|]. by exists ph.
  - destruct Hd as (_ & [[Hh A]|(Hh & A & ->)]).
    + rewrite Hh, bool_decide_eq_true_2 by done.
      destruct (hide_does s1 v) as (ph & Hph & Hc); [split; [done..|congruence]|done..|]. exists ph.
      split; [done|]. intros _ _. split; [apply hide_hover|done].
    + rewrite Hh, bool_decide_eq_false_2 by done. exists (Still true). split; [|by intros _ [=]]. split; [done..|].
      split; [exact W|]. split; [exact S|]. split; [exact D|]. unfold delayed. rewrite T', E1, E2, Hh. by split.
Qed.

Lemma timer_does s ph n : does s ph -> exists ph', does (timer o k allow supports touch n s) ph'.
Proof.
  intros H. destruct (decide (Exists (fun w => w.1 = n) (timers_ s))) as [(w & Hw & <-)%Exists_exists|Hn].
  - pose proof (do_phase _ _ H) as P. destruct ph as [v|m|v m];
      [|destruct P as (_ & T & _); rewrite T in Hw; by apply elem_of_nil in Hw..].
    destruct P as (_ & _ & _ & Hd). unfold delayed in Hd. destruct w as [n h].
    assert (timers_ s = [(n, h)]) as T.
    { destruct (timers_ s) as [|[n' h'] [|]]; [by apply elem_of_nil in Hw| |by destruct h'].
      by apply list_elem_of_singleton in Hw as ->. }
    destruct (timer_set s v n h H T) as (ph & Hph & _). by exists ph.
  - exists ph. rewrite timer_other; [done|]. intros h Hin. apply Hn, Exists_exists. by eexists.
Qed.

(** Popper reports, about a popper that lives: only the tip changes. *)
Lemma placed_spec id u s :
  disposed s = false -> dressed s true ->
  let s' := placed id u s in
  same_base s s' /\ dressed s' true /\ has_show s' = has_show s /\
  (triggers_of s', timers_ s', p_ends s', hoverState s', timeout s') = (triggers_of s, timers_ s, p_ends s, hoverState s, timeout s).
Proof.
  intros Hd [D1 D2 D3 D4]. unfold placed. destruct (bool_decide (id ∈ poppers s)); cbn [negb].
  2: { by split_and!. }
  rewrite Hd. unfold in_page, has_show, places, same_base, triggers_of in *.
  destruct s as [en ti tms hv ac af ah an tp pp pps i et eo ec de vi co no pe di to_]. cbn in *. destruct tp as [t|]; [|done].
  destruct u; (split; [done|]); (split; [|done]); by split.
Qed.

Lemma placed_none id u s : poppers s = [] -> placed id u s = s.
Proof. intros E. unfold placed. rewrite E. by rewrite bool_decide_eq_false_2 by apply not_elem_of_nil. Qed.

Lemma delayed_same s s' v :
  (triggers_of s', timers_ s', hoverState s', timeout s') = (triggers_of s, timers_ s, hoverState s, timeout s) ->
  delayed s v -> delayed s' v.
Proof.
  intros E. unfold delayed. assert (isWithActiveTrigger s' = isWithActiveTrigger s) as -> by (apply active_of; congruence).
  assert (timers_ s' = timers_ s) as -> by congruence. assert (hoverState s' = hoverState s) as -> by congruence.
  by assert (timeout s' = timeout s) as -> by congruence.
Qed.

Lemma placed_does s ph id u : does s ph -> does (placed id u s) ph.
Proof.
  intros [B He P]. destruct (decide (poppers s = [])) as [E|E]; [by rewrite placed_none|].
  assert (forall v, dressed s v -> v = true) as Hv by (intros [] Dv; [done|destruct E; exact (dr_poppers s false Dv)]).
  assert (exists v, dressed s v) as [v0 D].
  { destruct ph as [v|m|v m]; [destruct P as (_ & _ & D & _)|destruct P as (_ & _ & _ & D & _)..]; by eexists. }
  rewrite (Hv v0 D) in D.
  destruct (placed_spec id u s (ba_disposed s B) D) as (Hb & D' & S' & E').
  revert Hb D' S' E'. generalize (placed id u s) as s1. intros s1 Hb D' S' E'.
  assert (p_ends s1 = p_ends s) as E1 by congruence. assert (timers_ s1 = timers_ s) as E2 by congruence.
  assert (hoverState s1 = hoverState s) as E3 by congruence.
  assert (isWithActiveTrigger s1 = isWithActiveTrigger s) as E4 by (apply active_of; congruence).
  split; [by apply (base_same s)|by rewrite E1|]. unfold in_phase in *. rewrite E1.
  destruct ph as [v|m|v m].
  - destruct P as (W & S & Dv & Hd). rewrite (Hv v Dv) in *. split_and!; [done|by rewrite S'|done|].
    apply (delayed_same s); [congruence|done].
  - destruct P as (W & T & S & Dv & R1 & R2). rewrite E2, S', E3, E4. by split_and!.
  - destruct P as (W & T & S & Dv & R1 & R2). rewrite (Hv v Dv) in *. rewrite E2, S', E3, E4. by split_and!.
Qed.

(** ** Steps *)

Lemma times_at_most t : (times o t <= 1)%nat.
Proof.
  unfold times. revert Htriggers. generalize (triggers o). clear. intros l Hl.
  induction Hl as [|x l Hx Hl IH]; [cbn; lia|]. rewrite filter_cons.
  destruct (decide (x = t)) as [->|Hne]; [|apply IH]. cbn.
  assert (filter (fun t' => t' = t) l = []) as ->; [|cbn; lia].
  destruct (filter _ l) as [|y r] eqn:Ef; [done|]. destruct Hx.
  assert (y ∈ filter (fun t' => t' = t) l) as [-> Hy]%list_elem_of_filter by (rewrite Ef; by constructor). done.
Qed.

Lemma set_retriggered s t b : retriggered s (set_trigger t b s).
Proof. destruct t; split; try done; by split_and!. Qed.

Lemma set_active s t : isWithActiveTrigger (set_trigger t true s) = true.
Proof.
  unfold isWithActiveTrigger. destruct t; cbn; by rewrite ?orb_true_r.
Qed.

Lemma set_inactive s t : isWithActiveTrigger (set_trigger t false s) = true -> isWithActiveTrigger s = true.
Proof. unfold isWithActiveTrigger. destruct t; cbn; destruct (a_click s), (a_focus s), (a_hover s); done. Qed.

Lemma enter_set t s : enter (Some t) s = enter None (set_trigger t true s).
Proof. done. Qed.

Lemma leave_set t s : leave (Some t) s = leave None (set_trigger t false s).
Proof. done. Qed.

Definition clicked (s : tooltip) : tooltip := s <| a_click := negb (a_click s) |>.

Lemma tip_click_eq s :
  isEnabled s = true -> toggle_click o k allow supports touch s =
  if isWithActiveTrigger (clicked s) then enter None (clicked s) else leave None (clicked s).
Proof. intros E. unfold toggle_click. by rewrite E. Qed.

Lemma click_does s v : does s (Still v) -> exists ph, does (toggle_click o k allow supports touch s) ph.
Proof.
  intros H. rewrite tip_click_eq by by apply H.
  assert (retriggered s (clicked s)) as R by (split; try done; by split_and!).
  revert R. generalize (clicked s) as s1. intros s1 R. destruct (isWithActiveTrigger s1) eqn:A.
  - by apply (enter_does s s1 v).
  - apply (leave_does s s1 v); [done..|]. by rewrite A.
Qed.

Lemma once f t s ph :
  does s ph -> (exists ph', does (f s) ph') -> exists ph', does (Nat.iter (times o t) f s) ph'.
Proof.
  intros H Hf. pose proof (times_at_most t) as Ht. destruct (times o t) as [|[|]]; [by exists ph|done|lia].
Qed.

(** Triggers come when nothing waits, transitions end when Popper has placed the tip. *)
Definition polite (a : taction) (s : tooltip) : Prop :=
  match a with
  | MouseEnter | MouseLeave | FocusIn | FocusOut | ClickOn => waiting (p_ends s) = []
  | TransitionEnd | EndTimer _ => popper_placed s = true \/ o_animation o = false
  | Timer _ | Placed _ _ => True
  | Call _ | ModalHide | Look _ _ => False
  end.

Lemma still_when s ph : does s ph -> waiting (p_ends s) = [] -> exists v, ph = Still v.
Proof. intros [_ _ P] W. destruct ph as [v|m|v m]; [by exists v|destruct P as [P _]; by rewrite W in P..]. Qed.

Lemma act_does s ph a : does s ph -> polite a s -> exists ph', does (act a s) ph'.
Proof.
  intros H Ha. pose proof (ba_disposed s (do_base _ _ H)) as Hd.
  destruct a; try done; cbn [polite Tooltip.act] in *.
  1-5: rewrite Hd; destruct (still_when s ph H Ha) as [v ->]; apply (once _ _ s (Still v) H).
  - rewrite enter_set. apply (enter_does s _ v); [done|apply set_retriggered|apply set_active].
  - rewrite leave_set. apply (leave_does s _ v); [done|apply set_retriggered|apply set_inactive].
  - rewrite enter_set. apply (enter_does s _ v); [done|apply set_retriggered|apply set_active].
  - rewrite leave_set. apply (leave_does s _ v); [done|apply set_retriggered|apply set_inactive].
  - by apply (click_does s v).
  - by apply (timer_does s ph).
  - exists ph. by apply placed_does.
  - by apply (tip_transition_end s ph).
  - by apply (tip_end_timer n s ph).
Qed.

(** From the constructor, on an element with something to tell. *)
Context (ti og co : option string).
Let s0 : tooltip := construct o (element ti og co).
Context (Htell : with_content k (getTitle o s0) (getContent o s0) = true).

Inductive reachable : tooltip -> Prop :=
  | reach_start : reachable s0
  | reach_act s a : reachable s -> polite a s -> reachable (act a s).

Lemma start_does : does s0 (Still false).
Proof.
  assert (animation s0 = o_animation o /\ isEnabled s0 = true /\ el_visible s0 = true /\ el_connected s0 = true /\
    disposed s0 = false /\ p_ends s0 = no_ends /\ tip s0 = None /\ described s0 = false /\ poppers s0 = [] /\
    timers_ s0 = [] /\ hoverState s0 = HNone /\ triggers_of s0 = (false, false, false))
    as (A & B & C & D & F & G & H & I & J & K & L & M)
    by (unfold s0, construct, fixTitle; by destruct (_ || _)).
  split; [by split|rewrite G; apply no_ends_ok|]. split; [by rewrite G|]. split; [unfold has_show; by rewrite H|].
  split; [split; unfold in_page, places; by rewrite ?H|]. unfold delayed. rewrite K. split; [by apply none_active|done].
Qed.

Lemma reachable_phase s : reachable s -> exists ph, does s ph.
Proof.
  induction 1 as [|s a _ [ph H] Ha]; [exists (Still false); exact start_does|by apply (act_does s ph)].
Qed.

(** C8. An element with something to tell, whose page supports transitions if the tip is
    animated and prevents no event, whose triggers are distinct and come only while no
    transition runs, whose tip, if it is animated, Popper has placed before a transition ends,
    on which no method is called and around which no modal is hidden: once no delay and no
    transition is under way, the tip is in the document, shown and described by its element
    exactly while a trigger is active, with one popper and one placement; otherwise it has none
    of them. *)
Theorem tip_follows s :
  reachable s -> waiting (p_ends s) = [] -> timers_ s = [] ->
  let v := isWithActiveTrigger s in
  in_page s = v /\ has_show s = v /\ described s = v /\
  length (places s) = (if v then 1%nat else 0%nat) /\
  length (poppers s) = (if v then 1%nat else 0%nat).
Proof.
  intros [ph H]%reachable_phase W T. destruct (still_when s ph H W) as [v ->].
  destruct (do_phase _ _ H) as (_ & S & [D1 D2 D3 D4] & Hd). unfold delayed in Hd. rewrite T in Hd.
  cbv zeta. rewrite (proj1 Hd). split_and!; [done..|]. destruct v; [|by rewrite D4].
  by destruct D4 as (id & _ & ->).
Qed.

(** Hidden, with nothing to come. *)
Lemma gone s :
  does s (Still false) -> hoverState s = HNone ->
  in_page s = false /\ has_show s = false /\ described s = false /\ poppers s = [] /\
  timers_ s = [] /\ waiting (p_ends s) = [].
Proof.
  intros H Hh. destruct (do_phase _ _ H) as (W & S & [D1 D2 D3 D4] & Hd). split_and!; try done.
  unfold delayed in Hd. rewrite Hh in Hd. destruct (timers_ s) as [|[n [| |]] [|]]; try done.
  - by destruct Hd as (_ & _ & ? & _).
  - by destruct Hd as (_ & [[? _]|[? _]]).
Qed.

Lemma hover_put s en : hoverState (s <| p_ends := en |>) = hoverState s.
Proof. done. Qed.

Lemma hide_complete_hover s : hoverState (hide_complete s) = hoverState s.
Proof. unfold hide_complete, destroy_popper. destruct (bool_decide _); cbn; by destruct (popper s). Qed.

Lemma hiding_ends s v m :
  does s (Hiding v m) -> does (transition_end tt s) (Still false) /\ hoverState (transition_end tt s) = HNone.
Proof.
  intros [B He P]. pose proof (transition_end_ok (H := host) tt s tip_only_awaits He) as Hok.
  split; [by apply (finish_hiding v m)|]. destruct P as (W & T & S & D & Hh & A).
  destruct (tip_end HideComplete m s W) as (en1 & en2 & _ & -> & _). rewrite completed_hide.
  by rewrite hover_put, hide_complete_hover, hover_put.
Qed.

(** Hidden, or once the transition ends. *)
Lemma hidden_soon s ph v :
  does s ph -> hoverState s = HNone -> ph = Still false \/ (exists m, ph = Hiding v m) ->
  exists l, (length l <= 1)%nat /\ (forall a, a ∈ l -> a = TransitionEnd) /\
  let s' := foldl (fun s a => act a s) s l in does s' (Still false) /\ hoverState s' = HNone.
Proof.
  intros H Hh [->|[m ->]].
  - exists []. split; [cbn; lia|]. split; [by intros a []%not_elem_of_nil|done].
  - exists [TransitionEnd]. split; [cbn; lia|]. split; [by intros a ->%list_elem_of_singleton|].
    exact (hiding_ends s v m H).
Qed.

(** When the last trigger is left, the delay, if there is one, and then the end of
    the transition, if there is one, take the tip out of the document with its popper. *)
Theorem tip_leaves t s :
  reachable s -> waiting (p_ends s) = [] -> isWithActiveTrigger (set_trigger t false s) = false ->
  exists l, (length l <= 2)%nat /\ (forall a, a ∈ l -> a = TransitionEnd \/ exists n, a = Timer n) /\
  let s' := foldl (fun s a => act a s) (leave (Some t) s) l in
  in_page s' = false /\ has_show s' = false /\ described s' = false /\ poppers s' = [] /\
  timers_ s' = [] /\ waiting (p_ends s') = [].
Proof.
  intros [ph H]%reachable_phase W A. destruct (still_when s ph H W) as [v ->]. rewrite leave_set.
  destruct (leave_now s _ v H (set_retriggered s t false) A) as (ph & Hph & Hc).
  revert Hph Hc. generalize (leave None (set_trigger t false s)) as s1. intros s1 Hph [[Hh Hc]|(-> & n & T & Hh)].
  - destruct (hidden_soon s1 ph v Hph Hh Hc) as (l & Hl & Ha & G1 & G2). exists l. split; [lia|].
    split; [by intros a ->%Ha; left|]. by apply gone.
  - destruct (timer_set s1 v n HOut Hph T) as (ph & Hph2 & Hc). destruct (Hc eq_refl Hh) as [Hh2 Hc2].
    destruct (hidden_soon _ ph v Hph2 Hh2 Hc2) as (l & Hl & Ha & G1 & G2).
    exists (Timer n :: l). split; [cbn [length]; lia|]. split; [|by apply gone].
    intros a [->|Hin]%elem_of_cons; [right; by eexists|left; by apply Ha].
Qed.
End flow.

(** ** Runs

    The theorems of [BsTooltipFlow] at a tooltip and a popover, and the runs in which
    calls that come while the tip is on its way out leave it half shown. *)


Definition hint_options (show hide : Z) : options :=
  mk_options [THover; TFocus] show hide true "top" "" "" false.
Definition note_options : options := mk_options [TClick] 0 0 true "right" "" "words" false.
Definition all_yes : tevent -> bool := fun _ => true.

Abbreviation hint_step o := (act o tooltip_kind all_yes true false).
Definition hint_steps (o : options) (l : list taction) : tooltip :=
  fold_left (fun s a => hint_step o a s) l (construct o (element (Some "Save it"%string) None None)).
Definition note_steps (l : list taction) : tooltip :=
  fold_left (fun s a => act note_options popover_kind all_yes true false a s) l (construct note_options (element None None None)).

Lemma both_kinds k : k = tooltip_kind \/ k = popover_kind ->
  forall t c x, t_in (set_content k t c x) = t_in x /\ t_fade (set_content k t c x) = false /\
  t_places (set_content k t c x) = t_places x /\ x_placement (set_content k t c x) = x_placement x.
Proof. by intros [->| ->] t c []. Qed.

(** What shows of an element: in the document, the class [show], described, placements
    and poppers. *)
Definition look (s : tooltip) : bool * bool * bool * list string * list nat :=
  (in_page s, has_show s, described s, places s, poppers s).

Abbreviation hint_reached o := (reachable o tooltip_kind all_yes true false (Some "Save it"%string) None None).

Lemma hint_reach o l a : hint_reached o (hint_steps o l) -> polite o a (hint_steps o l) -> hint_reached o (hint_steps o (l ++ [a])).
Proof. intros Hl Ha. unfold hint_steps. rewrite fold_left_app. by constructor. Qed.

Definition shown_steps : list taction := [MouseEnter; Timer 0; Placed 1 (Some "bottom"%string); EndTimer 0]%nat.

Lemma hint_shown : hint_reached (hint_options 300 100) (hint_steps (hint_options 300 100) shown_steps).
Proof.
  refine (hint_reach _ [MouseEnter; Timer 0; Placed 1 (Some "bottom"%string)] (EndTimer 0) _ _); [|by left].
  refine (hint_reach _ [MouseEnter; Timer 0] (Placed 1 (Some "bottom"%string)) _ I).
  refine (hint_reach _ [MouseEnter] (Timer 0) _ I).
  by refine (hint_reach _ [] MouseEnter (reach_start _ _ _ _ _ _ _ _) _).
Qed.

Lemma hint_triggers : NoDup [THover; TFocus].
Proof. apply (bool_decide_unpack _). by vm_compute. Qed.

Example tip_follows_witness :
  let s := hint_steps (hint_options 300 100) shown_steps in
  isWithActiveTrigger s = true /\ in_page s = true /\ length (poppers s) = 1%nat.
Proof.
  pose proof (tip_follows (hint_options 300 100) tooltip_kind all_yes true false (fun _ => eq_refl) (fun _ => eq_refl)
    hint_triggers (both_kinds _ (or_introl eq_refl)) (Some "Save it"%string) None None eq_refl _ hint_shown eq_refl eq_refl)
    as (H1 & _ & _ & _ & H2).
  split; [by vm_compute|]. split; [exact H1|exact H2].
Defined.

Example tip_leaves_witness :
  let s := hint_steps (hint_options 300 100) shown_steps in
  exists l, (length l <= 2)%nat /\ (forall a, a ∈ l -> a = TransitionEnd \/ exists n, a = Timer n) /\
  let s' := foldl (fun s a => hint_step (hint_options 300 100) a s) (leave (hint_options 300 100) all_yes true false (Some THover) s) l in
  in_page s' = false /\ has_show s' = false /\ described s' = false /\ poppers s' = [] /\
  timers_ s' = [] /\ waiting (p_ends s') = [].
Proof.
  exact (tip_leaves (hint_options 300 100) tooltip_kind all_yes true false (fun _ => eq_refl) (fun _ => eq_refl)
    hint_triggers (both_kinds _ (or_introl eq_refl)) (Some "Save it"%string) None None eq_refl THover _ hint_shown eq_refl eq_refl).
Defined.

(** The same for a popover that is clicked. *)
Example note_opens :
  look (note_steps [ClickOn; Placed 0 None; EndTimer 0]) = (true, true, true, ["right"%string], [0%nat]) /\
  look (note_steps [ClickOn; Placed 0 None; EndTimer 0; ClickOn; EndTimer 1]) = (false, false, false, [], []).
Proof. by vm_compute. Qed.

(** *** The pointer comes back while the tip fades out

    The end of the first transition destroys the popper made meanwhile, not its own, which
    is never destroyed; the tip is then hidden and shown again without a fade, which
    forgets the trigger: a focus that comes and goes hides the tip under the pointer. *)
Example back_too_soon :
  let l := [MouseEnter; Placed 0 None; EndTimer 0; MouseLeave; MouseEnter; EndTimer 1; EndTimer 2]%nat in
  let s := hint_steps (hint_options 0 0) l in
  look s = (true, true, true, ["top"%string], [0; 2]%nat) /\ isWithActiveTrigger s = false /\
  told s = [EvShow; EvInserted; EvShown; EvHide; EvShow; EvInserted; EvHidden;
            EvHide; EvHidden; EvShow; EvInserted; EvShown; EvShown] /\
  look (hint_steps (hint_options 0 0) (l ++ [FocusIn; FocusOut; EndTimer 3])) = (false, false, false, [], [0]%nat).
Proof. by vm_compute. Qed.

(** Once the tip is hidden there is one popper. *)
Example back_in_time :
  look (hint_steps (hint_options 0 0) [MouseEnter; Placed 0 None; EndTimer 0; MouseLeave; EndTimer 1; MouseEnter; Placed 1 None; EndTimer 2])%nat =
    (true, true, true, ["top"%string], [1%nat]).
Proof. by vm_compute. Qed.

(** *** A prevented [show]

    The hover state stays: the tip does not come while another trigger is used, until
    one is left. *)
Example prevented_for_long :
  let no_first : tevent -> bool := fun ev => match ev with EvShow => false | _ => true end in
  let o := hint_options 0 0 in
  let s0 := construct o (element (Some "Save it"%string) None None) in
  let s1 := act o tooltip_kind no_first true false MouseEnter s0 in
  told s1 = [EvShow] /\ told (hint_step o FocusIn s1) = [EvShow] /\
  told (hint_step o FocusIn s0) = [EvShow; EvInserted].
Proof. by vm_compute. Qed.

(** *** [dispose] of a tip that is shown

    The element still says that the tip that is gone describes it. *)
Example still_described :
  let s := hint_steps (hint_options 0 0) [MouseEnter; Placed 0 None; EndTimer 0; Call (Some MDispose)]%nat in
  look s = (false, false, true, [], []).
Proof. by vm_compute. Qed.

(** *** [hide] of a tip that was never shown tells both events *)
Example hidden_twice : told (hint_steps (hint_options 0 0) [Call (Some MHide)]) = [EvHide; EvHidden].
Proof. by vm_compute. Qed.
